(* ===== verification/_CoqProject ===== *)
-Q . S2P
Prelude.v
RbTree.v
BufferAlloc.v
BufferList.v
BufferInv.v
BufferTake.v
BufferRelease.v
BufferThms.v
DriverState.v
NodeRef.v
NodeRefInv.v
NodeRefOps.v
NodeRefThms.v
Uapi.v
Transaction.v
ThreadWrite.v
ThreadRead.v
Never.v
ReplyThms.v
ObjectThms.v
CommandThms.v
ReadThms.v
Lifecycle.v
CallGuard.v
CallThms.v
LifecycleThms.v
Debug.v
DebugThms.v
Bio.v
BioThms.v
ParseThms.v
SvcMgr.v
SvcMgrThms.v
SvcLoopThms.v
SvcMain.v
SvcMainThms.v
Bctest.v
BctestThms.v
Parcel.v
CppWorld.v
ProcessState.v
IpcCore.v
BpBinder.v
IpcThread.v
IpcPrint.v
Proxy.v
CppThms.v
IpcThms.v
RefBase.v
JniWorld.v
JniBinder.v
JniInv.v
JniOps.v
JniMeths.v
JniProxies.v
JniNatives.v
JniCalls.v
NativeProxy.v
JniThms.v
JniOlder.v
JniParcel.v
JniParcelOps.v
JniParcelThms.v
JniFdThms.v
JniParcelSafe.v
JniParcelSample.v
Runtime.v
RuntimeOpts.v
RuntimeRules.v
RuntimeWords.v
RuntimeBlocks.v
RuntimeThms.v
RuntimeStart.v
RuntimeStartThms.v
RuntimeThreadThms.v
