(* ===== verification/Prelude.v ===== *)
(** * The Android Binder IPC stack: a verification development

    The repository holds notes on Android and, under
    "Binder4层源码", the four layers of Binder that the notes explain:
    the kernel driver (driver/binder.c), the C and C++ libraries and the service
    manager (native/), and the Java glue (jni/).  A client's call goes down from
    a proxy ([BpBinder]) through its thread's [IPCThreadState] to the driver as a
    [BC_TRANSACTION]; the driver copies the data into a buffer of the server's
    process, turns every object in it into a handle of the server or back, and
    hands a [BR_TRANSACTION] to a thread of the server; the reply comes back the
    same way.  Handles are counted references to nodes; a client can ask to be
    told when the owner of a node dies.  The service manager is the process whose
    node is handle 0; it keeps the map from names to handles.

    This library models that stack and proves what makes it correct.

    ** Files

    - [Prelude]: results ([res]: a value, or a [Bug] at a source line), machine
      integers, little-endian bytes, lists linked by a "next" function, the
      tactics [res_inv] (inverts a computation that returned), [returns] and
      [never] and the hint database [never].
    - [RbTree]: the kernel's red-black trees, an interface ([RbLib]) with the
      driver's own walks.
    - [BufferAlloc] (driver/binder.c, [binder_buffer_size] to [binder_free_buf] and
      [binder_mmap]); [BufferList], [BufferInv], [BufferTake], [BufferRelease]: its
      invariant [mem_wf] and what the operations do to it; [BufferThms].
    - [DriverState]: the driver's structures and globals as records in maps from
      addresses; reading through a freed pointer is [Bug 0].
    - [NodeRef] ([binder_get_node] to [binder_dec_ref]); [NodeRefInv], [NodeRefOps]:
      the invariant [graph_ok] and the operations; [NodeRefThms].
    - [Uapi]: the header both sides include, an interface ([BinderUapi]), and user
      memory as a map of mapped bytes.
    - [Transaction] ([binder_transaction], failed replies, releasing a buffer's
      objects), [ThreadWrite] ([binder_thread_write]), [ThreadRead]
      ([binder_thread_read], cut where it waits), [Lifecycle] (threads, file
      operations, the deferred release).  Theorems: [Never] (which operations can
      run out of fuel), [ReplyThms], [ObjectThms], [CommandThms], [ReadThms],
      [CallGuard] (which operations leave the stacks of a call alone: [quiet],
      [guarded], and [activity], what may happen while a call is under way),
      [CallThms], [LifecycleThms].
    - [Debug] (the counters, the logs of transactions, the files of debugfs from
      [print_binder_transaction] on, and [binder_init]; what is printed is a list of
      formats and arguments) and [DebugThms].
    - [Bio] (native/binder.c and binder.h), [BioThms] (messages) and [ParseThms]
      (the parser of the driver's returns); [SvcMgr] (native/service_manager.c),
      [SvcMgrThms] (the handler) and [SvcLoopThms] (parser and handler together);
      [SvcMain] (opening and closing the driver in native/binder.c, [main] and
      [audit_callback] of native/service_manager.c) and [SvcMainThms]; [Bctest]
      (native/bctest.c, the library's client) and [BctestThms].
    - [Parcel]: the interface of the parcels the C++ code uses; [CppWorld]: the
      state and the monad of a process that uses the C++ library; [ProcessState]
      and [Proxy] (native/ProcessState.cpp), [IpcCore] and [IpcThread]
      (native/IPCThreadState.cpp), [IpcPrint] (its printers of commands and returns,
      with their theorems), [BpBinder] and [Proxy] (native/BpBinder.cpp and
      BpBinder.h); [CppThms] (identity, death recipients, proxies) and [IpcThms] (a
      transaction that is served, with the reply it waits for).
    - The Java side, jni/android_util_Binder.cpp: [RefBase] (reference counts, an
      interface with an instance), [JniWorld] (Java objects, JNI references, native
      objects, and the interfaces to binders, Java code and the log), [JniBinder]
      (every function of the file, by its name; [decStrong] and [promote] are the
      [sp] and [wp] of the code).  [JniInv]: the invariant [inv] (what pointers lead
      to, who owns which reference, the counts) and [runs], the weakest
      precondition of the monad; [JniOps]: what a change of the state keeps;
      [JniMeths], [JniProxies], [JniNatives], [JniCalls]: a lemma per function;
      [NativeProxy]: [BpBinder] keeps the laws of the interface; [JniThms].
      [JniOlder]: the functions native/android_util_Binder.cpp, an older copy of
      the file, has in another form, compared with these.
    - jni/android_os_Parcel.cpp: [JniParcel] (the native methods of
      [android.os.Parcel]; the class Parcel and the virtual machine are the
      interfaces [ParcelMethods] and [ParcelJava]); [JniParcelOps] (a rule per
      operation), [JniParcelThms] (bytes), [JniFdThms] (file descriptors),
      [JniParcelSafe] (every method), [JniParcelSample] (an instance, the
      witnesses).
    - jni/AndroidRuntime.cpp: [Runtime] ([startVm] and what it calls: options as
      pointers into arrays on the stack), [RuntimeOpts] (the options as strings,
      [vm_options]), [RuntimeRules] (the invariant [Inv] of arrays and options, a
      rule per function), [RuntimeWords] ([parseExtraOpts]), [RuntimeBlocks] (a
      lemma per group of options), [RuntimeThms]; [RuntimeStart] (the rest of the
      file), [RuntimeStartThms] ([start], names, [exit]) and [RuntimeThreadThms]
      (the memory of threads, the witnesses).

    Definitions keep the names of the functions and fields they model; a large
    function is cut at its cases and labels, and the pieces are composed as the
    code composes them.

    ** What the theorems show

    - Memory ([BufferThms]): the area of a process stays an address-ordered list of
      buffers with no two free neighbours, the two trees hold exactly the free and
      the allocated ones, the pages in use are mapped; allocation is a best fit
      and refuses without change; releasing undoes it; size sums that wrap are
      caught.
    - References ([NodeRefThms]): processes, nodes and references stay consistent
      through every operation, none follows a stale pointer or reaches a [BUG];
      descriptors are unique; owners are told when a count starts or stops.
    - Transactions ([ReplyThms], [ObjectThms], [CallThms]): the target of a call and
      of a reply; objects keep their identity and their counts across processes;
      what a reader is handed; over a call and its reply, whatever other threads do
      meanwhile, the stacks of both threads implement a procedure call.
    - Commands and returns ([CommandThms], [ReadThms]): a write carries out exactly
      the commands before [consumed]; a read ends; the commands about a node bring
      its owner's view up to date.
    - Threads and processes ([LifecycleThms]): a thread that is gone is named
      nowhere; a dying process drops its own references and nobody else's.
    - Debugging ([DebugThms], [IpcPrint]): the log of transactions shows the last
      entries in order; the numbers of active objects are right when counters wrap;
      the files of debugfs end and follow no stale pointer; the printers of returns
      stay in step with the driver but for returns with pointers or cookies.
    - Messages ([BioThms], [ParseThms]): what is put is read back; reads of hostile
      messages and writes stay inside their areas; parsing the driver's returns is
      carrying them out one by one.
    - The service manager ([SvcMgrThms], [SvcLoopThms]): the handler refines a
      registry of names; with the parser it withstands every message and death.
      From [main] on ([SvcMainThms]) it serves whatever a fair driver delivers;
      what opening the driver takes, closing it gives back.
    - A client ([BctestThms]): a lookup from end to end, from the client's message
      through the copy the service manager serves to the handle the client gets;
      the test program ends with 0, or with -1 and a reason.
    - The C++ library ([CppThms], [IpcThms]): one proxy for a handle, the check of
      handle 0, whom the death of a binder is told, and the identity a served
      transaction runs under, given back when its reply has gone.
    - The Java side ([JniThms]): with arguments of the Java types the native
      methods follow no bad pointer and keep Java and native objects in agreement,
      whatever Java code and the collector do in between, but for linking to the death
      of a proxy that was finalized, which crashes; a binder has one Java
      object; links to death; which status throws which exception; what
      [android.os.Debug] counts; the log of calls stays in its buffer.  The older
      copy ([JniOlder]) agrees but for a failed transaction and for a proxy that is
      destroyed twice, where it crashes.
    - Parcels from Java ([JniParcelThms], [JniFdThms], [JniParcelSafe]): bytes that
      are written are read back; a hostile length is refused, but for one that fits
      without its padding; a file descriptor belongs to one Java object; no method
      follows a bad pointer or leaves an array pinned, but for the named calls whose
      arguments or parcel overrun an array, which crash.
    - The runtime ([RuntimeThms], [RuntimeStartThms], [RuntimeThreadThms]): the
      virtual machine is created with exactly the options the properties ask for,
      no array overflows and no option is overwritten; [start] runs main once, with
      its arguments, when everything before it succeeded; the memory of threads is
      accounted for.

    ** Fuel

    A loop whose end is not structural takes fuel and ends in a negative site
    when it runs out: -1 [failed_reply_walk], -2 [waiting_caller] (the transactions
    there are), -3 [write_loop] (a command has at least four bytes), -4
    [read_loop] (a measure on the lists and on what owners are still to be told),
    -5 [release_work], -6 [leave_transactions] (each transaction is met at most
    twice), -7 to -10 the loops of [binder_deferred_release] (threads, nodes,
    references, buffers of the process), -11 [deferred_loop], -12 [parse_loop].
    That the fuel is enough is proved for -1 to -6, -9, -12 (on returns as the
    driver writes them), -13 [print_stack] (the number of transactions) and -14
    [print_loop] (on the returns it stays in step with), with the theorem about
    the loop; a theorem that gives the result as [Ret] says it for
    its own loops.  In the C++ part fuel counts turns of loops that
    wait for the driver, which has no bound of its own.  The Java side has no
    loops but over lists; where it can wait, it waits in a parameter.
    [parseExtraOpts] and [toSlashClassName] read at least a character of an array
    in every turn, and get its length as fuel: [startVm_options] and
    [start_correct] say that it is enough.

    ** Bounds and assumptions

    Integers are [Z] with the wrap-around of their C type written out.  The
    driver runs under its one lock, so an entry point is one step, except for
    [binder_thread_read], which is cut at its wait.  The process of the service
    manager is taken to be 64-bit in the theorems; [Bio] itself is modelled for
    any width, and the 32-bit cases that differ are stated in [BioThms].  A native
    method of the Java side is one step up to its calls of Java and of other
    processes: these may run any other step ([JavaLaws]).

    ** Not modelled

    - The kernel's rb-trees, memory management, files, tasks, wait queues and the
      header <linux/android/binder.h>; SELinux and the multi-user policy; Parcel,
      RefBase and the Java VM: not in the repository, so they are parameters.
    - Where the driver's operations bump the counters and fill in the log that
      [Debug] models; tracing, and the texts a format makes: no effect on the state
      modelled.
    - The hexdumps of native/binder.c and native/IPCThreadState.cpp.
    - The tables of native methods of Binder and Parcel and the look-up of classes
      when they are registered; the class Parcel, which is not here; the virtual
      machine, and the registrations of other files than AndroidRuntime.cpp, whose
      order alone is modelled; the functions of native/android_util_Binder.cpp that
      are the same in jni/. *)

From Stdlib Require Export ZArith Lia Sorting.Sorted.
From stdpp Require Export gmap list.

#[global] Open Scope Z_scope.

(** ** Results: a value, or a kernel [BUG()] at a source line *)

Inductive res (A : Type) : Type :=
| Ret (a : A)
| Bug (site : Z).
Arguments Ret {A} a.
Arguments Bug {A} site.

Definition res_bind {A B} (m : res A) (f : A -> res B) : res B :=
  match m with
  | Ret a => f a
  | Bug site => Bug site
  end.

Declare Scope binder_scope.
Delimit Scope binder_scope with binder.
Notation "'let!' x ':=' m 'in' k" := (res_bind m (fun x => k))
  (at level 10, x name, m at level 100, k at level 200) : binder_scope.
Notation "'let!' ' x ':=' m 'in' k" := (res_bind m (fun x => k))
  (at level 10, x strict pattern, m at level 100, k at level 200) : binder_scope.
#[global] Open Scope binder_scope.

(** [BUG_ON(c)] at line [site]. *)
Definition bug_on (site : Z) (c : bool) : res unit :=
  if c then Bug site else Ret tt.

Definition is_ret {A} (m : res A) : bool :=
  match m with Ret _ => true | Bug _ => false end.

(** ** Machine integers *)

Definition u64 (x : Z) : Z := x mod 2 ^ 64.
Definition u32 (x : Z) : Z := x mod 2 ^ 32.
Definition u16 (x : Z) : Z := x mod 2 ^ 16.

(** A signed 32-bit value. *)
Definition i32 (x : Z) : Z := (x + 2 ^ 31) mod 2 ^ 32 - 2 ^ 31.

(** A signed 64-bit value. *)
Definition i64 (x : Z) : Z := (x + 2 ^ 63) mod 2 ^ 64 - 2 ^ 63.

(** [ALIGN(x, a)] of the kernel on a 64-bit [size_t], for [a] a power of two. *)
Definition ALIGN (x a : Z) : Z := Z.land (u64 (x + (a - 1))) (Z.lnot (a - 1)).

(** [IS_ALIGNED(x, a)]. *)
Definition IS_ALIGNED (x a : Z) : bool := Z.land x (a - 1) =? 0.

(** ** Lemmas on results *)

Lemma res_bind_ret_inv {A B} (m : res A) (f : A -> res B) b :
  res_bind m f = Ret b -> exists a, m = Ret a /\ f a = Ret b.
Proof. destruct m; simpl; intros H; [eauto | discriminate]. Qed.

Lemma bug_on_ret site c u : bug_on site c = Ret u -> c = false.
Proof. unfold bug_on. destruct c; congruence. Qed.

Lemma bug_on_false site c : c = false -> bug_on site c = Ret tt.
Proof. by intros ->. Qed.

Ltac res_inv :=
  repeat match goal with
  | H : res_bind ?m _ = Ret _ |- _ =>
      let a := fresh "r" in let E := fresh "E" in
      apply res_bind_ret_inv in H; destruct H as (a & E & H); simpl in H
  | H : bug_on _ _ = Ret _ |- _ => apply bug_on_ret in H
  | H : Ret _ = Ret _ |- _ => injection H as H
  | H : Bug _ = Ret _ |- _ => discriminate H
  end.

(** Follow the ways an operation can return. *)
Ltac returns := repeat first [progress res_inv | progress simplify_eq/= | case_match | done].

(** [never k m]: [m] does not end in [Bug k].  A loop that runs out of fuel ends
    in a negative site of its own, so this is how termination is stated. *)
Definition never {A} (k : Z) (m : res A) : Prop := m <> Bug k.

Create HintDb never.

Lemma never_ret {A} k (a : A) : never k (Ret a).
Proof. done. Qed.

Lemma never_bug {A} k site : site <> k -> never k (Bug site : res A).
Proof. unfold never. congruence. Qed.

Lemma never_bug_on k site c : site <> k -> never k (bug_on site c).
Proof. unfold never, bug_on. destruct c; congruence. Qed.

Lemma never_bind {A B} k (m : res A) (f : A -> res B) :
  never k m -> (forall a, m = Ret a -> never k (f a)) -> never k (res_bind m f).
Proof. unfold never. destruct m; simpl; [|congruence]. intros _ H. by apply H. Qed.

#[export] Hint Resolve never_ret : never.
#[export] Hint Extern 1 (_ < 0) => lia : never.

(** Go through binds and case distinctions; the calls are left to the hints. *)
Ltac never_step :=
  match goal with
  | |- never _ (res_bind _ _) => apply never_bind; [|intros ? ?]
  | |- never _ (Ret _) => apply never_ret
  | |- never _ (Bug _) => apply never_bug; lia
  | |- never _ (bug_on _ _) => apply never_bug_on; lia
  | |- never _ (match ?x with _ => _ end) => destruct x eqn:?
  | |- never _ (let '_ := ?x in _) => destruct x eqn:?
  | |- forall _, _ => intros ?
  | |- _ => progress cbn beta iota zeta
  end.

Ltac never := repeat first [solve [eauto with never] | never_step].

(** ** Lemmas on machine integers *)

Lemma u64_range x : 0 <= u64 x < 2 ^ 64.
Proof. apply Z.mod_pos_bound. lia. Qed.

Lemma u64_small x : 0 <= x < 2 ^ 64 -> u64 x = x.
Proof. intros. by apply Z.mod_small. Qed.

Lemma u64_add_l x y : u64 (u64 x + y) = u64 (x + y).
Proof. apply Zplus_mod_idemp_l. Qed.

(** Moving a term across an equality of 64-bit values. *)
Lemma u64_sub_eq x y a : 0 <= a < 2 ^ 64 -> u64 (x - y) = a <-> u64 (a + y) = u64 x.
Proof.
  intros Ha. split.
  - intros <-. rewrite u64_add_l. f_equal. lia.
  - intros E. rewrite <- (u64_small a) by done. unfold Z.sub.
    rewrite <- u64_add_l, <- E, u64_add_l. f_equal. lia.
Qed.

Lemma u32_range x : 0 <= u32 x < 2 ^ 32.
Proof. apply Z.mod_pos_bound. lia. Qed.

Lemma i32_range x : - 2 ^ 31 <= i32 x < 2 ^ 31.
Proof. unfold i32. pose proof (Z.mod_pos_bound (x + 2 ^ 31) (2 ^ 32)). lia. Qed.

Lemma i32_small x : - 2 ^ 31 <= x < 2 ^ 31 -> i32 x = x.
Proof. intros. unfold i32. rewrite Z.mod_small by lia. lia. Qed.

Lemma u32_small x : 0 <= x < 2 ^ 32 -> u32 x = x.
Proof. intros. by apply Z.mod_small. Qed.

(** Clearing the low [k] bits rounds down to a multiple of [2^k]. *)
Lemma land_lnot_ones x k : 0 <= k ->
  Z.land x (Z.lnot (2 ^ k - 1)) = x - x mod 2 ^ k.
Proof.
  intros Hk.
  replace (2 ^ k - 1) with (Z.ones k) by (rewrite Z.ones_equiv; lia).
  rewrite <- Z.ldiff_land, Z.ldiff_ones_r, Z.shiftl_mul_pow2, Z.shiftr_div_pow2 by lia.
  pose proof (Z.div_mod x (2 ^ k)). lia.
Qed.

Lemma ALIGN_8 x : 0 <= x -> x + 7 < 2 ^ 64 ->
  ALIGN x 8 = x + (- x) mod 8.
Proof.
  intros. unfold ALIGN. rewrite u64_small by lia.
  change (8 - 1) with (2 ^ 3 - 1). rewrite land_lnot_ones by lia.
  change (2 ^ 3) with 8 in *. Z.to_euclidean_division_equations. lia.
Qed.

(** Past the top of the address range [ALIGN] wraps to zero. *)
Lemma ALIGN_8_wrap x : 2 ^ 64 - 7 <= x < 2 ^ 64 -> ALIGN x 8 = 0.
Proof.
  intros. unfold ALIGN.
  assert (u64 (x + (8 - 1)) = x + 7 - 2 ^ 64) as ->.
  { unfold u64. symmetry. apply (Z.mod_unique _ _ 1); lia. }
  change (8 - 1) with (2 ^ 3 - 1). rewrite land_lnot_ones by lia.
  rewrite Z.mod_small by lia. lia.
Qed.

(** ** Little-endian words *)

Fixpoint le_decode (l : list Z) : Z :=
  match l with
  | [] => 0
  | b :: l' => b + 256 * le_decode l'
  end.

Fixpoint le_encode (n : nat) (x : Z) : list Z :=
  match n with
  | O => []
  | S n' => x mod 256 :: le_encode n' (x / 256)
  end.

Definition byte_ok (b : Z) : Prop := 0 <= b < 256.

Lemma length_le_encode n x : length (le_encode n x) = n.
Proof. revert x. induction n; simpl; auto. Qed.

Lemma le_encode_bytes n x : Forall byte_ok (le_encode n x).
Proof.
  revert x. induction n; simpl; constructor; auto.
  apply Z.mod_pos_bound. lia.
Qed.

Lemma le_decode_encode n x : 0 <= x < 256 ^ Z.of_nat n -> le_decode (le_encode n x) = x.
Proof.
  revert x. induction n as [|n IH]; intros x Hx; simpl.
  { simpl in Hx. lia. }
  rewrite Nat2Z.inj_succ, Z.pow_succ_r in Hx by lia.
  rewrite IH by (Z.to_euclidean_division_equations; lia).
  Z.to_euclidean_division_equations; lia.
Qed.

Lemma le_decode_range l : Forall byte_ok l -> 0 <= le_decode l < 256 ^ Z.of_nat (length l).
Proof.
  induction 1 as [|b l Hb _ IH]; simpl; [lia|]. unfold byte_ok in Hb.
  rewrite Nat2Z.inj_succ, Z.pow_succ_r by lia. lia.
Qed.

Lemma le_encode_decode l : Forall byte_ok l -> le_encode (length l) (le_decode l) = l.
Proof.
  induction 1 as [|b l Hb _ IH]; simpl; [done|]. unfold byte_ok in Hb. f_equal.
  - Z.to_euclidean_division_equations; lia.
  - replace ((b + 256 * le_decode l) / 256) with (le_decode l); [done|].
    Z.to_euclidean_division_equations; lia.
Qed.

(** ** Following pointers *)

(** [l] is where [next] leads from [o], to its end. *)
Fixpoint follows (next : Z -> option Z) (o : option Z) (l : list Z) : Prop :=
  match l with
  | [] => o = None
  | t :: l' => o = Some t /\ follows next (next t) l'
  end.

Lemma follows_unique next l : forall o l', follows next o l -> follows next o l' -> l = l'.
Proof.
  induction l as [|t l IH]; intros o [|t' l'] H H'; simpl in *; try done.
  - destruct H' as [H' _]. congruence.
  - destruct H as [H _]. congruence.
  - destruct H as [-> H], H' as [[= <-] H']. f_equal. by eapply IH.
Qed.

Lemma follows_from next l : forall o t, follows next o l -> t ∈ l ->
  exists l', follows next (next t) l' /\ (length l' < length l)%nat.
Proof.
  induction l as [|u l IH]; intros o t H Ht; [by apply not_elem_of_nil in Ht|].
  destruct H as [-> H]. apply elem_of_cons in Ht as [->|Ht]; [by exists l; split; [|simpl; lia]|].
  destruct (IH _ t H Ht) as (l' & ? & ?). exists l'. split; [done|]. simpl. lia.
Qed.

(** A way that ends does not go in circles. *)
Lemma follows_NoDup next l : forall o, follows next o l -> NoDup l.
Proof.
  induction l as [|t l IH]; intros o H; [constructor|]. destruct H as [-> H].
  constructor; [|by eapply IH]. intros Ht.
  destruct (follows_from next l _ t H Ht) as (l' & Hl' & Hlen).
  rewrite (follows_unique next l _ l' H Hl') in Hlen. lia.
Qed.
