(* ===== verification/RbTree.v ===== *)
(** * RbTree: the kernel's red-black trees as the driver uses them

    [linux/rbtree.h] is not part of the repository.  The driver walks the
    trees itself (the [while (n)] and [while ( *p)] loops are in binder.c) and
    calls the kernel only to rebalance after linking a node and to erase one.
    So the tree shape and the walks are modelled here, and the two kernel
    routines are the operations of the class [RbLib], with their documented
    contract (the in-order sequence of nodes) as its laws.  Every theorem about
    the driver holds for all instances; [plain_rb] is a concrete one, used to
    run the definitions. *)

From S2P Require Import Prelude.

(** ** Trees and walks *)

(** Nodes are named by the address of the object that embeds the [rb_node]. *)
Inductive rbtree : Type :=
| RbLeaf
| RbNode (l : rbtree) (x : Z) (r : rbtree).

Fixpoint inorder (t : rbtree) : list Z :=
  match t with
  | RbLeaf => []
  | RbNode l x r => inorder l ++ x :: inorder r
  end.

(** [rb_first]: the leftmost node. *)
Fixpoint rb_first (t : rbtree) : option Z :=
  match t with
  | RbLeaf => None
  | RbNode RbLeaf x _ => Some x
  | RbNode l _ _ => rb_first l
  end.

(** The search loop [while (n) { if (k < key) left; else if (k > key) right;
    else return; }].  [visit] compares the wanted key with a node; it is where
    the loop body's [BUG_ON] sits. *)
Fixpoint rb_find (visit : Z -> res comparison) (t : rbtree) : res (option Z) :=
  match t with
  | RbLeaf => Ret None
  | RbNode l x r =>
      let! c := visit x in
      match c with
      | Lt => rb_find visit l
      | Gt => rb_find visit r
      | Eq => Ret (Some x)
      end
  end.

(** The insertion walk [while ( *p)] followed by [rb_link_node]; on an equal
    key the walk stops at the node found, and the caller decides. *)
Inductive linked : Type :=
| Linked (t : rbtree)
| Present (x : Z).

Fixpoint rb_link (visit : Z -> res comparison) (x : Z) (t : rbtree) : res linked :=
  match t with
  | RbLeaf => Ret (Linked (RbNode RbLeaf x RbLeaf))
  | RbNode l y r =>
      let! c := visit y in
      match c with
      | Lt => let! k := rb_link visit x l in
              match k with
              | Linked l' => Ret (Linked (RbNode l' y r))
              | Present z => Ret (Present z)
              end
      | Gt => let! k := rb_link visit x r in
              match k with
              | Linked r' => Ret (Linked (RbNode l y r'))
              | Present z => Ret (Present z)
              end
      | Eq => Ret (Present y)
      end
  end.

(** ** The kernel's part *)

Class RbLib := {
  rb_insert_color : Z -> rbtree -> rbtree;
  rb_erase : Z -> rbtree -> rbtree;
  rb_insert_color_inorder x t :
    inorder (rb_insert_color x t) = inorder t;
  rb_erase_inorder x t :
    NoDup (inorder t) -> x ∈ inorder t ->
    inorder (rb_erase x t) = filter (.≠ x) (inorder t)
}.

(** A concrete instance: no rebalancing, erasure by splicing. *)
Fixpoint plain_join (l r : rbtree) : rbtree :=
  match l with
  | RbLeaf => r
  | RbNode ll x lr => RbNode ll x (plain_join lr r)
  end.

Fixpoint plain_erase (x : Z) (t : rbtree) : rbtree :=
  match t with
  | RbLeaf => RbLeaf
  | RbNode l y r =>
      if decide (y = x) then plain_join (plain_erase x l) (plain_erase x r)
      else RbNode (plain_erase x l) y (plain_erase x r)
  end.

Lemma plain_join_inorder l r : inorder (plain_join l r) = inorder l ++ inorder r.
Proof.
  induction l as [|ll _ x lr IH]; simpl; [done|].
  by rewrite IH, <- app_assoc.
Qed.

Lemma plain_erase_inorder x t :
  inorder (plain_erase x t) = filter (.≠ x) (inorder t).
Proof.
  induction t as [|l IHl y r IHr]; simpl; [done|].
  rewrite filter_app, filter_cons.
  repeat case_decide; simplify_eq; simpl;
    rewrite ?plain_join_inorder; by rewrite IHl, IHr.
Qed.

Definition plain_rb : RbLib := {|
  rb_insert_color _ t := t;
  rb_erase := plain_erase;
  rb_insert_color_inorder _ _ := eq_refl;
  rb_erase_inorder x t _ _ := plain_erase_inorder x t
|}.

(** ** Trees sorted by a key *)

Definition sorted_by (key : Z -> Z) (l : list Z) : Prop :=
  StronglySorted (fun a b => key a <= key b) l.

Definition sorted_by_lt (key : Z -> Z) (l : list Z) : Prop :=
  StronglySorted (fun a b => key a < key b) l.

Lemma StronglySorted_cons_iff {A} (R : relation A) x l :
  StronglySorted R (x :: l) <-> StronglySorted R l /\ (forall b, b ∈ l -> R x b).
Proof.
  split.
  - intros [H HF]%StronglySorted_inv. by rewrite Forall_forall in HF.
  - intros [H HF]. constructor; [done|]. by rewrite Forall_forall.
Qed.

Lemma StronglySorted_app_iff {A} (R : relation A) l1 l2 :
  StronglySorted R (l1 ++ l2) <->
  StronglySorted R l1 /\ StronglySorted R l2 /\
  (forall a b, a ∈ l1 -> b ∈ l2 -> R a b).
Proof.
  induction l1 as [|x l1 IH]; simpl.
  { split; [|tauto]. intros H. repeat split; [constructor|done|].
    intros a b Ha. by apply not_elem_of_nil in Ha. }
  rewrite !StronglySorted_cons_iff, IH. split.
  - intros ((H1 & H2 & H3) & HF). repeat split; [done| |done|].
    + intros b Hb. apply HF, elem_of_app. by left.
    + intros a b [->|Ha]%elem_of_cons Hb; [|eauto].
      apply HF, elem_of_app. by right.
  - intros ((H1 & HF) & H2 & H3). repeat split; [done|done| |].
    + intros a b Ha Hb. apply H3; [by right|done].
    + intros b [Hb|Hb]%elem_of_app; [eauto|]. apply H3; [by left|done].
Qed.

Lemma filter_all {A} (P : A -> Prop) `{!forall x, Decision (P x)} (l : list A) :
  (forall x, x ∈ l -> P x) -> filter P l = l.
Proof.
  induction l as [|x l IH]; intros HP; [done|].
  rewrite filter_cons, decide_True by (apply HP; set_solver).
  f_equal. apply IH. set_solver.
Qed.

Lemma StronglySorted_filter {A} (R : relation A) (P : A -> Prop)
    `{!forall x, Decision (P x)} l :
  StronglySorted R l -> StronglySorted R (filter P l).
Proof.
  induction 1 as [|x l Hs IH HF]; [constructor|].
  rewrite filter_cons. case_decide; [|done].
  constructor; [done|]. rewrite Forall_forall in *.
  intros y [_ Hy]%list_elem_of_filter. eauto.
Qed.

Lemma StronglySorted_impl_in {A} (R S : relation A) l :
  (forall a b, a ∈ l -> b ∈ l -> R a b -> S a b) ->
  StronglySorted R l -> StronglySorted S l.
Proof.
  intros HRS. induction 1 as [|x l Hs IH HF]; [constructor|].
  constructor; [apply IH; set_solver|].
  rewrite Forall_forall in *. intros y Hy. apply HRS; [set_solver..|eauto].
Qed.

Lemma sorted_by_lt_le key l : sorted_by_lt key l -> sorted_by key l.
Proof. apply StronglySorted_impl_in. lia. Qed.

Lemma sorted_by_lt_NoDup key l : sorted_by_lt key l -> NoDup l.
Proof.
  induction 1 as [|x l Hs IH HF]; [constructor|].
  constructor; [|done]. intros Hx. rewrite Forall_forall in HF.
  specialize (HF x Hx). lia.
Qed.

(** Distinct members have distinct keys. *)
Lemma sorted_by_lt_inj key l : sorted_by_lt key l ->
  forall x y, x ∈ l -> y ∈ l -> key x = key y -> x = y.
Proof.
  induction l as [|z l IH]; intros Hs x y; [by intros ?%not_elem_of_nil|].
  apply StronglySorted_cons_iff in Hs as [Hs Hz].
  intros [->|Hx]%elem_of_cons [->|Hy]%elem_of_cons E; [done| | |by apply IH].
  - specialize (Hz y Hy). simpl in Hz. lia.
  - specialize (Hz x Hx). simpl in Hz. lia.
Qed.

(** Reordering keys that agree on the members keeps a list sorted. *)
Lemma sorted_by_ext key key' l :
  (forall x, x ∈ l -> key x = key' x) -> sorted_by key l -> sorted_by key' l.
Proof.
  intros E. apply StronglySorted_impl_in. intros a b Ha Hb.
  rewrite (E a Ha), (E b Hb). done.
Qed.

Lemma sorted_by_lt_ext key key' l :
  (forall x, x ∈ l -> key x = key' x) -> sorted_by_lt key l -> sorted_by_lt key' l.
Proof.
  intros E. apply StronglySorted_impl_in. intros a b Ha Hb.
  rewrite (E a Ha), (E b Hb). done.
Qed.

Lemma rb_first_inorder t : rb_first t = head (inorder t).
Proof.
  induction t as [|l IH x r _]; [done|].
  destruct l as [|ll y lr]; [done|].
  change (rb_first (RbNode (RbNode ll y lr) x r)) with (rb_first (RbNode ll y lr)).
  rewrite IH. simpl. by destruct (inorder ll).
Qed.

(** [rb_find] finds a node exactly when the key is in a sorted tree. *)
Lemma rb_find_spec visit key k t :
  (forall x, x ∈ inorder t -> visit x = Ret (k ?= key x)) ->
  sorted_by_lt key (inorder t) ->
  (exists x, rb_find visit t = Ret (Some x) /\ x ∈ inorder t /\ key x = k) \/
  (rb_find visit t = Ret None /\ forall x, x ∈ inorder t -> key x <> k).
Proof.
  induction t as [|l IHl y r IHr]; simpl; intros Hv Hs.
  { right. split; [done|set_solver]. }
  apply StronglySorted_app_iff in Hs as (Hl & Hr & Hlr).
  apply StronglySorted_cons_iff in Hr as (Hr & Hyr).
  rewrite Hv by set_solver. simpl.
  assert (forall x, x ∈ inorder l -> key x < key y) as Hly by set_solver.
  destruct (Z.compare_spec k (key y)) as [->|Hlt|Hgt].
  - left. exists y. set_solver.
  - destruct IHl as [(x & ? & ? & ?)|[? Hn]]; [set_solver|done|left;exists x;set_solver|].
    right. split; [done|].
    intros x [Hx|[->|Hx]%elem_of_cons]%elem_of_app; [eauto|lia|].
    specialize (Hyr x Hx). lia.
  - destruct IHr as [(x & ? & ? & ?)|[? Hn]]; [set_solver|done|left;exists x;set_solver|].
    right. split; [done|].
    intros x [Hx|[->|Hx]%elem_of_cons]%elem_of_app; [|lia|eauto].
    specialize (Hly x Hx). lia.
Qed.

(** Where the insertion walk of a new key [k] ends.  A tie either goes right
    ([visit] answers [Gt]) or stops the walk ([Eq]). *)
Lemma rb_link_spec visit key k x t :
  (forall y, y ∈ inorder t ->
     exists c, visit y = Ret c /\
       match c with Lt => k < key y | Gt => key y <= k | Eq => k = key y end) ->
  sorted_by key (inorder t) ->
  (exists t' l1 l2, rb_link visit x t = Ret (Linked t') /\
     inorder t = l1 ++ l2 /\ inorder t' = l1 ++ x :: l2 /\
     (forall y, y ∈ l1 -> key y <= k) /\ (forall y, y ∈ l2 -> k < key y)) \/
  (exists y, rb_link visit x t = Ret (Present y) /\
     y ∈ inorder t /\ key y = k /\ visit y = Ret Eq).
Proof.
  induction t as [|l IHl y r IHr]; simpl; intros Hv Hs.
  { left. exists (RbNode RbLeaf x RbLeaf), [], []. set_solver. }
  apply StronglySorted_app_iff in Hs as (Hl & Hr & Hlr).
  apply StronglySorted_cons_iff in Hr as (Hr & Hyr).
  destruct (Hv y) as (c & Hc & Hk); [set_solver|]. rewrite Hc. simpl.
  destruct c.
  - right. exists y. set_solver.
  - destruct IHl as [(t' & l1 & l2 & -> & E1 & E2 & H1 & H2)|(z & -> & Hz & ? & ?)];
      [set_solver|done| |right; exists z; set_solver].
    left. exists (RbNode t' y r), l1, (l2 ++ y :: inorder r). simpl.
    rewrite E1, E2, <- !app_assoc. repeat split; [done|].
    intros z [?|[->|Hz]%elem_of_cons]%elem_of_app; [by apply H2|lia|].
    specialize (Hyr z Hz). lia.
  - destruct IHr as [(t' & l1 & l2 & -> & E1 & E2 & H1 & H2)|(z & -> & Hz & ? & ?)];
      [set_solver|done| |right; exists z; set_solver].
    left. exists (RbNode l y t'), (inorder l ++ y :: l1), l2. simpl.
    rewrite E1, E2, <- !app_assoc. repeat split; [|done].
    intros z [Hz|[->|Hz]%elem_of_cons]%elem_of_app; [|done|by apply H1].
    specialize (Hlr z y Hz). set_solver by lia.
Qed.

(** Inserting at the place [rb_link] finds keeps the tree sorted. *)
Lemma sorted_by_insert key x l1 l2 :
  sorted_by key (l1 ++ l2) ->
  (forall y, y ∈ l1 -> key y <= key x) -> (forall y, y ∈ l2 -> key x < key y) ->
  sorted_by key (l1 ++ x :: l2).
Proof.
  intros (H1 & H2 & H3)%StronglySorted_app_iff Ha Hb.
  apply StronglySorted_app_iff. repeat split; [done| |].
  - apply StronglySorted_cons_iff. split; [done|].
    intros b Hb'. specialize (Hb b Hb'). lia.
  - intros a b Hin [->|Hb']%elem_of_cons; eauto.
Qed.

Lemma sorted_by_lt_insert key x l1 l2 :
  sorted_by_lt key (l1 ++ l2) ->
  (forall y, y ∈ l1 -> key y < key x) -> (forall y, y ∈ l2 -> key x < key y) ->
  sorted_by_lt key (l1 ++ x :: l2).
Proof.
  intros (H1 & H2 & H3)%StronglySorted_app_iff Ha Hb.
  apply StronglySorted_app_iff. repeat split; [done| |].
  - apply StronglySorted_cons_iff. split; [done|]. eauto.
  - intros a b Hin [->|Hb']%elem_of_cons; eauto.
Qed.

(** ** Erasing *)

Section Erase.
Context `{RL : RbLib}.

(** Erasing a member keeps sortedness and removes exactly that member. *)
Lemma rb_erase_perm x t l :
  inorder t ≡ₚ x :: l -> NoDup (x :: l) -> inorder (rb_erase x t) ≡ₚ l.
Proof.
  intros Hp Hnd. rewrite rb_erase_inorder; [|by rewrite Hp|rewrite Hp; set_solver].
  rewrite Hp. rewrite filter_cons, decide_False by tauto.
  apply NoDup_cons in Hnd as [Hx _].
  rewrite filter_all; [done|]. intros y Hy ->. done.
Qed.

Lemma rb_erase_StronglySorted (R : relation Z) x t :
  NoDup (inorder t) -> x ∈ inorder t ->
  StronglySorted R (inorder t) -> StronglySorted R (inorder (rb_erase x t)).
Proof. intros ? ? ?. rewrite rb_erase_inorder by done. by apply StronglySorted_filter. Qed.

Lemma rb_erase_member x t y :
  NoDup (inorder t) -> x ∈ inorder t ->
  y ∈ inorder (rb_erase x t) <-> y ∈ inorder t /\ y <> x.
Proof. intros. rewrite rb_erase_inorder by done. rewrite list_elem_of_filter. tauto. Qed.

(** Erasing from a tree sorted by distinct keys, when the keys change only at
    the erased element. *)
Lemma rb_erase_sorted_lt key key' x t :
  sorted_by_lt key (inorder t) -> x ∈ inorder t ->
  (forall y, y <> x -> key y = key' y) ->
  sorted_by_lt key' (inorder (rb_erase x t)).
Proof.
  intros Hs Hx Hk. pose proof (sorted_by_lt_NoDup _ _ Hs) as Hnd.
  apply (sorted_by_lt_ext key).
  - intros y Hy. apply rb_erase_member in Hy as [_ Hy]; [|done..]. by apply Hk.
  - by apply rb_erase_StronglySorted.
Qed.

(** The walk when keys are distinct and a tie stops it. *)
Lemma rb_link_strict visit key k x t :
  (forall y, y ∈ inorder t -> visit y = Ret (k ?= key y)) ->
  sorted_by_lt key (inorder t) ->
  (exists t' l1 l2, rb_link visit x t = Ret (Linked t') /\
     inorder t = l1 ++ l2 /\ inorder t' = l1 ++ x :: l2 /\
     (forall y, y ∈ l1 -> key y < k) /\ (forall y, y ∈ l2 -> k < key y)) \/
  (exists y, rb_link visit x t = Ret (Present y) /\ y ∈ inorder t /\ key y = k).
Proof.
  induction t as [|l IHl y r IHr]; simpl; intros Hv Hs.
  { left. exists (RbNode RbLeaf x RbLeaf), [], []. set_solver. }
  apply StronglySorted_app_iff in Hs as (Hl & Hr & Hlr).
  apply StronglySorted_cons_iff in Hr as (Hr & Hyr).
  rewrite Hv by set_solver. simpl.
  destruct (Z.compare_spec k (key y)) as [Heq|Hlt|Hgt].
  - right. exists y. set_solver.
  - destruct IHl as [(t' & l1 & l2 & -> & E1 & E2 & H1 & H2)|(z & -> & Hz & ?)];
      [set_solver|done| |right; exists z; set_solver].
    left. exists (RbNode t' y r), l1, (l2 ++ y :: inorder r). simpl.
    rewrite E1, E2, <- !app_assoc. repeat split; [done|].
    intros z [?|[->|Hz]%elem_of_cons]%elem_of_app; [by apply H2|lia|].
    specialize (Hyr z Hz). lia.
  - destruct IHr as [(t' & l1 & l2 & -> & E1 & E2 & H1 & H2)|(z & -> & Hz & ?)];
      [set_solver|done| |right; exists z; set_solver].
    left. exists (RbNode l y t'), (inorder l ++ y :: l1), l2. simpl.
    rewrite E1, E2, <- !app_assoc. repeat split; [|done].
    intros z [Hz|[->|Hz]%elem_of_cons]%elem_of_app; [|done|by apply H1].
    specialize (Hlr z y Hz). set_solver by lia.
Qed.

(** Inserting into a tree whose keys are distinct. *)
Lemma rb_link_unique visit key k x t :
  (forall y, y ∈ inorder t -> visit y = Ret (k ?= key y)) ->
  sorted_by_lt key (inorder t) ->
  (exists t', rb_link visit x t = Ret (Linked t') /\ (forall y, y ∈ inorder t -> key y <> k) /\
     inorder (rb_insert_color x t') ≡ₚ x :: inorder t /\
     forall key', key' x = k -> (forall y, y ∈ inorder t -> key' y = key y) ->
       sorted_by_lt key' (inorder (rb_insert_color x t'))) \/
  (exists y, rb_link visit x t = Ret (Present y) /\ y ∈ inorder t /\ key y = k).
Proof.
  intros Hv Hs. destruct (rb_link_strict visit key k x t Hv Hs)
    as [(t' & l1 & l2 & -> & E1 & E2 & H1 & H2)|(y & -> & ?)]; [left|right; by exists y].
  exists t'. rewrite rb_insert_color_inorder, E2, E1. split; [done|]. split.
  { intros y [Hy|Hy]%elem_of_app; [specialize (H1 y Hy)|specialize (H2 y Hy)]; lia. }
  split; [symmetry; apply Permutation_middle|]. intros key' Hx Hk.
  apply sorted_by_lt_insert.
  - apply (sorted_by_lt_ext key); [intros y Hy; symmetry; by apply Hk|by rewrite <- E1].
  - intros y Hy. rewrite (Hk y) by (apply elem_of_app; by left). rewrite Hx. by apply H1.
  - intros y Hy. rewrite (Hk y) by (apply elem_of_app; by right). rewrite Hx. by apply H2.
Qed.

End Erase.
