(* ===== verification/BufferAlloc.v ===== *)
(** * BufferAlloc: the driver's transaction-buffer allocator

    Models [struct binder_buffer], the memory half of [struct binder_proc] and
    the allocator of driver/binder.c, from [binder_buffer_size] to
    [binder_free_buf], with [binder_mmap] which sets it up.  A buffer is named
    by the kernel address of its header; its data runs from the end of the
    header to the next header or to the end of the mapping.  The free tree is
    ordered by buffer size, the allocated tree by address.  Addresses inside
    the mapping do not wrap (the mapping lies below the last page); sizes that
    come from user space are 64-bit and do. *)

From S2P Require Import Prelude RbTree.

(** ** Data *)

Definition PAGE_SIZE : Z := 4096.
Definition PAGE_MASK : Z := Z.lnot (PAGE_SIZE - 1).
Definition PAGE_ALIGN (a : Z) : Z := Z.land (a + (PAGE_SIZE - 1)) PAGE_MASK.
Definition SZ_4M : Z := 0x400000.

(** The sizes of a pointer and of [struct binder_buffer] on a 64-bit kernel:
    a list head, an rb node, the flag word, two pointers and two sizes. *)
Definition sizeof_ptr : Z := 8.
Definition sizeof_binder_buffer : Z := 16 + 24 + 8 + 8 + 8 + 8 + 8.

Definition ENOMEM : Z := 12.
Definition EBUSY : Z := 16.
Definition EPERM : Z := 1.
Definition EINVAL : Z := 22.

(** [data[]] holds the payload ([b_data]) and, after it, the offsets array
    ([b_offs], one entry per [binder_size_t]). *)
Record binder_buffer := BinderBuffer {
  b_addr : Z;
  b_free : bool;
  b_allow_user_free : bool;
  b_async_transaction : bool;
  b_debug_id : Z;
  b_transaction : option Z;
  b_target_node : option Z;
  b_data_size : Z;
  b_offsets_size : Z;
  b_data : list Z;
  b_offs : list Z
}.

Record vm_area := VmArea { vm_start : Z; vm_end : Z; vm_write : bool; vm_mm : Z }.

(** The fields of [struct binder_proc] that the allocator owns.  [pages] holds
    the indices [i] with [proc->pages[i] != NULL]. *)
Record proc_mem := ProcMem {
  vma : option vm_area;
  vma_vm_mm : option Z;
  buffer : Z;
  user_buffer_offset : Z;
  buffers : list binder_buffer;
  free_buffers : rbtree;
  allocated_buffers : rbtree;
  free_async_space : Z;
  pages : gset Z;
  buffer_size : Z
}.

(** What the kernel answers: the task's address space, and how mapping one
    page ends ([alloc_page], [map_vm_area], [vm_insert_page]). *)
Inductive page_outcome : Type :=
| PageMapped
| AllocPageFailed
| MapKernelFailed
| VmInsertFailed.

Record kernel_mm := KernelMm {
  get_task_mm : option Z;
  map_page : Z -> page_outcome
}.

(** ** Field updates *)

Definition set_buffers (p : proc_mem) (l : list binder_buffer) : proc_mem :=
  ProcMem (vma p) (vma_vm_mm p) (buffer p) (user_buffer_offset p) l
    (free_buffers p) (allocated_buffers p) (free_async_space p) (pages p)
    (buffer_size p).

Definition set_free_buffers (p : proc_mem) (t : rbtree) : proc_mem :=
  ProcMem (vma p) (vma_vm_mm p) (buffer p) (user_buffer_offset p) (buffers p)
    t (allocated_buffers p) (free_async_space p) (pages p) (buffer_size p).

Definition set_allocated_buffers (p : proc_mem) (t : rbtree) : proc_mem :=
  ProcMem (vma p) (vma_vm_mm p) (buffer p) (user_buffer_offset p) (buffers p)
    (free_buffers p) t (free_async_space p) (pages p) (buffer_size p).

Definition set_free_async_space (p : proc_mem) (n : Z) : proc_mem :=
  ProcMem (vma p) (vma_vm_mm p) (buffer p) (user_buffer_offset p) (buffers p)
    (free_buffers p) (allocated_buffers p) n (pages p) (buffer_size p).

Definition set_pages (p : proc_mem) (s : gset Z) : proc_mem :=
  ProcMem (vma p) (vma_vm_mm p) (buffer p) (user_buffer_offset p) (buffers p)
    (free_buffers p) (allocated_buffers p) (free_async_space p) s (buffer_size p).

Definition set_free (f : bool) (b : binder_buffer) : binder_buffer :=
  BinderBuffer (b_addr b) f (b_allow_user_free b) (b_async_transaction b)
    (b_debug_id b) (b_transaction b) (b_target_node b) (b_data_size b)
    (b_offsets_size b) (b_data b) (b_offs b).

Definition set_sizes (ds os : Z) (async : bool) (b : binder_buffer) : binder_buffer :=
  BinderBuffer (b_addr b) (b_free b) (b_allow_user_free b) async
    (b_debug_id b) (b_transaction b) (b_target_node b) ds os (b_data b) (b_offs b).

(** The header written at [a] when a buffer is split: only [free] is set. *)
Definition new_free_buffer (a : Z) : binder_buffer :=
  BinderBuffer a true false false 0 None None 0 0 [] [].

(** ** The buffer list *)

(** Reading through a [struct binder_buffer *]; [Bug 0] is a stray pointer. *)
Definition get_buffer (l : list binder_buffer) (a : Z) : res binder_buffer :=
  match find (fun b => b_addr b =? a) l with
  | Some b => Ret b
  | None => Bug 0
  end.

Definition update_buffer (a : Z) (f : binder_buffer -> binder_buffer)
    (l : list binder_buffer) : list binder_buffer :=
  map (fun b => if b_addr b =? a then f b else b) l.

Definition next_addr (top : Z) (l : list binder_buffer) : Z :=
  match l with [] => top | b :: _ => b_addr b end.

(** The buffers after and before the one at [a] on [proc->buffers]. *)
Fixpoint list_after (a : Z) (l : list binder_buffer) : list binder_buffer :=
  match l with
  | [] => []
  | b :: l' => if b_addr b =? a then l' else list_after a l'
  end.

Fixpoint list_prev (a : Z) (prev : option binder_buffer)
    (l : list binder_buffer) : option binder_buffer :=
  match l with
  | [] => None
  | b :: l' => if b_addr b =? a then prev else list_prev a (Some b) l'
  end.

(** [list_add(&new->entry, &buffer->entry)]: insert right after [a]. *)
Fixpoint list_add_after (a : Z) (nb : binder_buffer)
    (l : list binder_buffer) : list binder_buffer :=
  match l with
  | [] => []
  | b :: l' => if b_addr b =? a then b :: nb :: l' else b :: list_add_after a nb l'
  end.

Definition list_del_buffer (a : Z) (l : list binder_buffer) : list binder_buffer :=
  filter (fun b => b_addr b <> a) l.

Definition buffer_data (a : Z) : Z := a + sizeof_binder_buffer.

Definition binder_buffer_size (p : proc_mem) (a : Z) : Z :=
  match list_after a (buffers p) with
  | [] => buffer p + buffer_size p - buffer_data a
  | b :: _ => b_addr b - buffer_data a
  end.

(** ** The two trees of buffers *)

Section WithTrees.
Context `{RL : RbLib}.

Definition binder_insert_free_buffer (p : proc_mem) (new_buffer : Z) : res proc_mem :=
  let! b := get_buffer (buffers p) new_buffer in
  let! _ := bug_on 470 (negb (b_free b)) in
  let new_buffer_size := binder_buffer_size p new_buffer in
  let visit y :=
    let! yb := get_buffer (buffers p) y in
    let! _ := bug_on 481 (negb (b_free yb)) in
    Ret (if new_buffer_size <? binder_buffer_size p y then Lt else Gt) in
  let! k := rb_link visit new_buffer (free_buffers p) in
  match k with
  | Linked t => Ret (set_free_buffers p (rb_insert_color new_buffer t))
  | Present _ => Bug 0
  end.

Definition binder_insert_allocated_buffer (p : proc_mem) (new_buffer : Z) : res proc_mem :=
  let! b := get_buffer (buffers p) new_buffer in
  let! _ := bug_on 501 (b_free b) in
  let visit y :=
    let! yb := get_buffer (buffers p) y in
    let! _ := bug_on 506 (b_free yb) in
    Ret (new_buffer ?= y) in
  let! k := rb_link visit new_buffer (allocated_buffers p) in
  match k with
  | Linked t => Ret (set_allocated_buffers p (rb_insert_color new_buffer t))
  | Present _ => Bug 513
  end.

Definition binder_buffer_lookup (p : proc_mem) (user_ptr : Z) : res (option Z) :=
  let kern_ptr := u64 (user_ptr - user_buffer_offset p - sizeof_binder_buffer) in
  rb_find (fun y =>
    let! yb := get_buffer (buffers p) y in
    let! _ := bug_on 531 (b_free yb) in
    Ret (kern_ptr ?= y)) (allocated_buffers p).

(** ** Pages *)

Definition page_index (p : proc_mem) (page_addr : Z) : Z :=
  (page_addr - buffer p) / PAGE_SIZE.

(** The allocation loop; [Some a] when page [a] could not be mapped (that page
    has been released again). *)
Fixpoint map_pages (K : kernel_mm) (p : proc_mem) (page_addr : Z) (n : nat)
    : res (option Z * proc_mem) :=
  match n with
  | O => Ret (None, p)
  | S n' =>
      let i := page_index p page_addr in
      let! _ := bug_on 591 (bool_decide (i ∈ pages p)) in
      match map_page K page_addr with
      | PageMapped =>
          map_pages K (set_pages p ({[i]} ∪ pages p)) (page_addr + PAGE_SIZE) n'
      | AllocPageFailed | MapKernelFailed | VmInsertFailed => Ret (Some page_addr, p)
      end
  end.

(** The [free_range] loop, downwards; freeing an absent page is a NULL
    dereference in [__free_page]. *)
Fixpoint unmap_pages (p : proc_mem) (page_addr : Z) (n : nat) : res proc_mem :=
  match n with
  | O => Ret p
  | S n' =>
      let i := page_index p page_addr in
      let! _ := bug_on 636 (negb (bool_decide (i ∈ pages p))) in
      unmap_pages (set_pages p (pages p ∖ {[i]})) (page_addr - PAGE_SIZE) n'
  end.

(** The [vma] the update works on: the caller's, or the task's own unless its
    address space no longer matches. *)
Definition update_vma (K : kernel_mm) (p : proc_mem) (vma_arg : option vm_area)
    : option vm_area :=
  match vma_arg with
  | Some v => Some v
  | None =>
      match get_task_mm K with
      | Some m =>
          if bool_decide (is_Some (vma p) /\ vma_vm_mm p <> Some m) then None
          else vma p
      | None => None
      end
  end.

Definition binder_update_page_range (K : kernel_mm) (p : proc_mem) (allocate : bool)
    (start end_ : Z) (vma_arg : option vm_area) : res (Z * proc_mem) :=
  if end_ <=? start then Ret (0, p) else
  if negb allocate then
    let! p' := unmap_pages p (end_ - PAGE_SIZE) (Z.to_nat ((end_ - start) / PAGE_SIZE)) in
    Ret (- ENOMEM, p')
  else
    match update_vma K p vma_arg with
    | None => Ret (- ENOMEM, p)
    | Some _ =>
        let! '(failed, p') :=
          map_pages K p start (Z.to_nat ((end_ - start + (PAGE_SIZE - 1)) / PAGE_SIZE)) in
        match failed with
        | None => Ret (0, p')
        | Some page_addr =>
            let! p'' := unmap_pages p' (page_addr - PAGE_SIZE)
                          (Z.to_nat ((page_addr - start) / PAGE_SIZE)) in
            Ret (- ENOMEM, p'')
        end
    end.

(** ** Allocation *)

(** [ALIGN(data_size, 8) + ALIGN(offsets_size, 8)]. *)
Definition buffer_request (data_size offsets_size : Z) : Z :=
  u64 (ALIGN data_size sizeof_ptr + ALIGN offsets_size sizeof_ptr).

(** The best-fit walk: the candidate and whether the walk stopped on an exact
    fit ([n != NULL]). *)
Fixpoint best_fit_walk (p : proc_mem) (size : Z) (t : rbtree) (best : option Z)
    : res (option Z * bool) :=
  match t with
  | RbLeaf => Ret (best, false)
  | RbNode l x r =>
      let! b := get_buffer (buffers p) x in
      let! _ := bug_on 686 (negb (b_free b)) in
      let buffer_size := binder_buffer_size p x in
      if size <? buffer_size then best_fit_walk p size l (Some x)
      else if buffer_size <? size then best_fit_walk p size r best
      else Ret (Some x, true)
  end.

(** The tail of [binder_alloc_buf], once the pages are mapped: move the buffer
    to the allocated tree, give the rest of its space back as a new free
    buffer, record the sizes and charge an asynchronous buffer. *)
Definition claim_buffer (p : proc_mem) (a : Z) : res proc_mem :=
  let p := set_free_buffers p (rb_erase a (free_buffers p)) in
  let p := set_buffers p (update_buffer a (set_free false) (buffers p)) in
  binder_insert_allocated_buffer p a.

Definition split_buffer (p : proc_mem) (a size buffer_size : Z) : res proc_mem :=
  if buffer_size =? size then Ret p
  else
    let new_buffer := buffer_data a + size in
    let p := set_buffers p
               (list_add_after a (new_free_buffer new_buffer) (buffers p)) in
    binder_insert_free_buffer p new_buffer.

Definition take_buffer (p : proc_mem) (a size buffer_size data_size offsets_size : Z)
    (is_async : bool) : res proc_mem :=
  let! p := claim_buffer p a in
  let! p := split_buffer p a size buffer_size in
  let p := set_buffers p
             (update_buffer a (set_sizes data_size offsets_size is_async) (buffers p)) in
  Ret (if is_async
       then set_free_async_space p
              (u64 (free_async_space p - (size + sizeof_binder_buffer)))
       else p).

Definition binder_alloc_buf (K : kernel_mm) (p : proc_mem) (data_size offsets_size : Z)
    (is_async : bool) : res (option Z * proc_mem) :=
  match vma p with
  | None => Ret (None, p)
  | Some _ =>
    let size := buffer_request data_size offsets_size in
    if (size <? data_size) || (size <? offsets_size) then Ret (None, p) else
    if is_async && (free_async_space p <? u64 (size + sizeof_binder_buffer))
    then Ret (None, p) else
    let! '(best_fit, exact) := best_fit_walk p size (free_buffers p) None in
    match best_fit with
    | None => Ret (None, p)
    | Some a =>
        let buffer_size := binder_buffer_size p a in
        let has_page_addr := Z.land (buffer_data a + buffer_size) PAGE_MASK in
        let buffer_size :=
          if exact then buffer_size
          else if buffer_size <=? size + sizeof_binder_buffer + 4 then size
          else size + sizeof_binder_buffer in
        let end_page_addr := PAGE_ALIGN (buffer_data a + buffer_size) in
        let end_page_addr :=
          if has_page_addr <? end_page_addr then has_page_addr else end_page_addr in
        let! '(err, p) :=
          binder_update_page_range K p true (PAGE_ALIGN (buffer_data a)) end_page_addr None in
        if negb (err =? 0) then Ret (None, p) else
        let! p := take_buffer p a size buffer_size data_size offsets_size is_async in
        Ret (Some a, p)
    end
  end.

(** ** Release *)

Definition buffer_start_page (a : Z) : Z := Z.land a PAGE_MASK.
Definition buffer_end_page (a : Z) : Z :=
  Z.land (a + sizeof_binder_buffer - 1) PAGE_MASK.

(** Which of the pages under the header at [a] no neighbouring header shares:
    [(free_page_start, free_page_end)]. *)
Definition free_page_flags (prev a : Z) (next : option Z) : bool * bool :=
  let shares_prev := buffer_end_page prev =? buffer_start_page a in
  let free_page_start := negb shares_prev in
  let free_page_end :=
    negb (shares_prev && (buffer_end_page prev =? buffer_end_page a)) in
  match next with
  | None => (free_page_start, free_page_end)
  | Some n =>
      if buffer_start_page n =? buffer_end_page a then
        (if buffer_start_page n =? buffer_start_page a then false
         else free_page_start, false)
      else (free_page_start, free_page_end)
  end.

(** Drop the header at [a] and the pages only that header uses. *)
Definition binder_delete_free_buffer (K : kernel_mm) (p : proc_mem) (a : Z)
    : res proc_mem :=
  match list_prev a None (buffers p) with
  | None => Bug 772
  | Some prev =>
      let! _ := bug_on 774 (negb (b_free prev)) in
      let '(free_page_start, free_page_end) :=
        free_page_flags (b_addr prev) a
          (b_addr <$> head (list_after a (buffers p))) in
      let p := set_buffers p (list_del_buffer a (buffers p)) in
      if free_page_start || free_page_end then
        let! '(_, p) :=
          binder_update_page_range K p false
            (if free_page_start then buffer_start_page a else buffer_end_page a)
            ((if free_page_end then buffer_end_page a else buffer_start_page a) + PAGE_SIZE)
            None in
        Ret p
      else Ret p
  end.

(** Coalescing with the next and the previous buffer. *)
Definition merge_next (K : kernel_mm) (p : proc_mem) (a : Z) : res proc_mem :=
  match list_after a (buffers p) with
  | next :: _ =>
      if b_free next then
        let p := set_free_buffers p (rb_erase (b_addr next) (free_buffers p)) in
        binder_delete_free_buffer K p (b_addr next)
      else Ret p
  | [] => Ret p
  end.

Definition merge_prev (K : kernel_mm) (p : proc_mem) (a : Z) : res (Z * proc_mem) :=
  match list_prev a None (buffers p) with
  | Some prev =>
      if b_free prev then
        let! p := binder_delete_free_buffer K p a in
        Ret (b_addr prev,
             set_free_buffers p (rb_erase (b_addr prev) (free_buffers p)))
      else Ret (a, p)
  | None => Ret (a, p)
  end.

Definition binder_free_buf (K : kernel_mm) (p : proc_mem) (a : Z) : res proc_mem :=
  let! b := get_buffer (buffers p) a in
  let bsize := binder_buffer_size p a in
  let size := buffer_request (b_data_size b) (b_offsets_size b) in
  let! _ := bug_on 824 (b_free b) in
  let! _ := bug_on 825 (bsize <? size) in
  let! _ := bug_on 826 (bool_decide (b_transaction b <> None)) in
  let! _ := bug_on 827 (a <? buffer p) in
  let! _ := bug_on 828 (buffer p + buffer_size p <? a) in
  let p := if b_async_transaction b
           then set_free_async_space p
                  (u64 (free_async_space p + (size + sizeof_binder_buffer)))
           else p in
  let! '(_, p) :=
    binder_update_page_range K p false (PAGE_ALIGN (buffer_data a))
      (Z.land (buffer_data a + bsize) PAGE_MASK) None in
  let p := set_allocated_buffers p (rb_erase a (allocated_buffers p)) in
  let p := set_buffers p (update_buffer a (set_free true) (buffers p)) in
  let! p := merge_next K p a in
  let! '(a, p) := merge_prev K p a in
  binder_insert_free_buffer p a.

(** ** Mapping the area *)

(** [binder_mmap]: [get_vm_area] yields the kernel address of the area or
    NULL, [kzalloc_pages] tells whether the page array could be allocated. *)
Definition binder_mmap (K : kernel_mm) (p : proc_mem) (is_current : bool) (v : vm_area)
    (get_vm_area : option Z) (kzalloc_pages : bool) : res (Z * proc_mem) :=
  if negb is_current then Ret (- EINVAL, p) else
  let v := if SZ_4M <? vm_end v - vm_start v
           then VmArea (vm_start v) (vm_start v + SZ_4M) (vm_write v) (vm_mm v)
           else v in
  if vm_write v then Ret (- EPERM, p) else
  if negb (buffer p =? 0) then Ret (- EBUSY, p) else
  match get_vm_area with
  | None => Ret (- ENOMEM, p)
  | Some area =>
      let p := ProcMem (vma p) (vma_vm_mm p) area (u64 (vm_start v - area))
                 (buffers p) (free_buffers p) (allocated_buffers p)
                 (free_async_space p) (pages p) (buffer_size p) in
      let unmap p := ProcMem (vma p) (vma_vm_mm p) 0 (user_buffer_offset p)
                 (buffers p) (free_buffers p) (allocated_buffers p)
                 (free_async_space p) ∅ (buffer_size p) in
      if negb kzalloc_pages then Ret (- ENOMEM, unmap p) else
      let p := ProcMem (vma p) (vma_vm_mm p) (buffer p) (user_buffer_offset p)
                 (buffers p) (free_buffers p) (allocated_buffers p)
                 (free_async_space p) ∅ (vm_end v - vm_start v) in
      let! '(err, p) :=
        binder_update_page_range K p true (buffer p) (buffer p + PAGE_SIZE) (Some v) in
      if negb (err =? 0) then Ret (- ENOMEM, unmap p) else
      let p := set_buffers p [new_free_buffer (buffer p)] in
      let! p := binder_insert_free_buffer p (buffer p) in
      let p := set_free_async_space p (buffer_size p / 2) in
      Ret (0, ProcMem (Some v) (Some (vm_mm v)) (buffer p) (user_buffer_offset p)
                (buffers p) (free_buffers p) (allocated_buffers p)
                (free_async_space p) (pages p) (buffer_size p))
  end.

End WithTrees.
