(* ===== verification/BufferList.v ===== *)
(** * BufferList: address-ordered lists of buffers and the pages they occupy

    Shared lemmas on [proc->buffers] and on page ranges; no theorem about the
    driver's operations is stated here. *)

From S2P Require Import Prelude RbTree BufferAlloc.

(** ** Page arithmetic *)

Lemma PAGE_MASK_land a : Z.land a PAGE_MASK = a - a mod PAGE_SIZE.
Proof. exact (land_lnot_ones a 12 ltac:(lia)). Qed.

(** Rounding down and up, in a form [lia] can use. *)
Lemma page_down a : exists k, Z.land a PAGE_MASK = 4096 * k /\ 4096 * k <= a < 4096 * k + 4096.
Proof.
  exists (a / 4096). rewrite PAGE_MASK_land. unfold PAGE_SIZE.
  Z.to_euclidean_division_equations. lia.
Qed.

Lemma page_up a : exists k, PAGE_ALIGN a = 4096 * k /\ a <= 4096 * k < a + 4096.
Proof.
  exists ((a + 4095) / 4096). unfold PAGE_ALIGN. rewrite PAGE_MASK_land.
  unfold PAGE_SIZE. Z.to_euclidean_division_equations. lia.
Qed.

(** [page_cases] abstracts every rounding in sight. *)
Ltac page_cases :=
  repeat match goal with
  | |- context [Z.land ?a PAGE_MASK] =>
      let k := fresh "k" in let E := fresh "Ek" in
      destruct (page_down a) as (k & E & ?); rewrite ?E in *
  | |- context [PAGE_ALIGN ?a] =>
      let k := fresh "k" in let E := fresh "Ek" in
      destruct (page_up a) as (k & E & ?); rewrite ?E in *
  end.

(** The indices [lo .. lo+n-1]. *)
Definition prange (lo : Z) (n : nat) : gset Z := list_to_set (seqZ lo (Z.of_nat n)).

Lemma elem_of_prange i lo n : i ∈ prange lo n <-> lo <= i < lo + Z.of_nat n.
Proof. unfold prange. rewrite elem_of_list_to_set, elem_of_seqZ. lia. Qed.

(** ** Address-ordered layout *)

Fixpoint layout (top : Z) (l : list binder_buffer) : Prop :=
  match l with
  | [] => True
  | b :: l' =>
      b_addr b mod 8 = 0 /\
      b_addr b + sizeof_binder_buffer <= next_addr top l' /\
      layout top l'
  end.

(** No two neighbours are both free. *)
Fixpoint coalesced (prev_free : bool) (l : list binder_buffer) : Prop :=
  match l with
  | [] => True
  | b :: l' => prev_free && b_free b = false /\ coalesced (b_free b) l'
  end.

Definition last_free (f : bool) (l : list binder_buffer) : bool :=
  match last l with Some b => b_free b | None => f end.

(** The interval of addresses each buffer keeps mapped: its header, and its
    data when it is allocated. *)
Fixpoint occ (top : Z) (l : list binder_buffer) : list (Z * Z) :=
  match l with
  | [] => []
  | b :: l' =>
      (b_addr b,
       if b_free b then b_addr b + sizeof_binder_buffer else next_addr top l')
      :: occ top l'
  end.

Definition touches (base i : Z) (iv : Z * Z) : Prop :=
  iv.1 < base + PAGE_SIZE * (i + 1) /\ base + PAGE_SIZE * i < iv.2.

Definition page_used (base : Z) (ivs : list (Z * Z)) (i : Z) : Prop :=
  exists iv, iv ∈ ivs /\ touches base i iv.

(** Where the data of the buffer at [a] ends. *)
Definition data_end (top : Z) (l : list binder_buffer) (a : Z) : Z :=
  next_addr top (list_after a l).

Definition addrs (l : list binder_buffer) : list Z := b_addr <$> l.
Definition free_addrs (l : list binder_buffer) : list Z :=
  b_addr <$> filter (fun b => b_free b = true) l.
Definition alloc_addrs (l : list binder_buffer) : list Z :=
  b_addr <$> filter (fun b => b_free b = false) l.

(** Space charged against the asynchronous budget. *)
Definition async_charge (b : binder_buffer) : Z :=
  if negb (b_free b) && b_async_transaction b
  then buffer_request (b_data_size b) (b_offsets_size b) + sizeof_binder_buffer
  else 0.

Definition async_total (l : list binder_buffer) : Z :=
  foldr (fun b n => async_charge b + n) 0 l.

Lemma binder_buffer_size_data_end p a :
  binder_buffer_size p a =
  data_end (buffer p + buffer_size p) (buffers p) a - buffer_data a.
Proof. unfold binder_buffer_size, data_end. by destruct (list_after _ _). Qed.

(** ** Appending *)

Lemma next_addr_app top l1 l2 :
  next_addr top (l1 ++ l2) = next_addr (next_addr top l2) l1.
Proof. by destruct l1. Qed.

Lemma layout_app top l1 l2 :
  layout top (l1 ++ l2) <-> layout (next_addr top l2) l1 /\ layout top l2.
Proof. induction l1; simpl; rewrite ?next_addr_app; tauto. Qed.

Lemma occ_app top l1 l2 :
  occ top (l1 ++ l2) = occ (next_addr top l2) l1 ++ occ top l2.
Proof. induction l1 as [|b l1 IH]; simpl; [done|]. by rewrite next_addr_app, IH. Qed.

Lemma last_free_cons f b l : last_free f (b :: l) = last_free (b_free b) l.
Proof. unfold last_free. rewrite last_cons. by destruct (last l). Qed.

Lemma coalesced_app f l1 l2 :
  coalesced f (l1 ++ l2) <-> coalesced f l1 /\ coalesced (last_free f l1) l2.
Proof.
  revert f. induction l1 as [|b l1 IH]; intros f; simpl; [tauto|].
  rewrite IH, last_free_cons. tauto.
Qed.

Lemma coalesced_weaken l : coalesced true l -> coalesced false l.
Proof. destruct l; simpl; [done|]. tauto. Qed.

Lemma async_total_app l1 l2 : async_total (l1 ++ l2) = async_total l1 + async_total l2.
Proof. induction l1 as [|b l1 IH]; simpl; [done|]. rewrite IH. lia. Qed.

Lemma addrs_app l1 l2 : addrs (l1 ++ l2) = addrs l1 ++ addrs l2.
Proof. apply fmap_app. Qed.

Lemma free_addrs_app l1 l2 : free_addrs (l1 ++ l2) = free_addrs l1 ++ free_addrs l2.
Proof. unfold free_addrs. by rewrite filter_app, fmap_app. Qed.

Lemma alloc_addrs_app l1 l2 : alloc_addrs (l1 ++ l2) = alloc_addrs l1 ++ alloc_addrs l2.
Proof. unfold alloc_addrs. by rewrite filter_app, fmap_app. Qed.

Lemma free_addrs_cons b l :
  free_addrs (b :: l) = if b_free b then b_addr b :: free_addrs l else free_addrs l.
Proof. unfold free_addrs. rewrite filter_cons. by destruct (b_free b). Qed.

Lemma alloc_addrs_cons b l :
  alloc_addrs (b :: l) = if b_free b then alloc_addrs l else b_addr b :: alloc_addrs l.
Proof. unfold alloc_addrs. rewrite filter_cons. by destruct (b_free b). Qed.

Lemma elem_of_addrs a l : a ∈ addrs l <-> exists b, b ∈ l /\ b_addr b = a.
Proof. unfold addrs. rewrite list_elem_of_fmap. naive_solver. Qed.

Lemma elem_of_free_addrs a l :
  a ∈ free_addrs l <-> exists b, b ∈ l /\ b_addr b = a /\ b_free b = true.
Proof.
  unfold free_addrs. rewrite list_elem_of_fmap. setoid_rewrite list_elem_of_filter.
  naive_solver.
Qed.

Lemma elem_of_alloc_addrs a l :
  a ∈ alloc_addrs l <-> exists b, b ∈ l /\ b_addr b = a /\ b_free b = false.
Proof.
  unfold alloc_addrs. rewrite list_elem_of_fmap. setoid_rewrite list_elem_of_filter.
  naive_solver.
Qed.

Lemma free_addrs_addrs a l : a ∈ free_addrs l -> a ∈ addrs l.
Proof. rewrite elem_of_free_addrs, elem_of_addrs. naive_solver. Qed.

Lemma alloc_addrs_addrs a l : a ∈ alloc_addrs l -> a ∈ addrs l.
Proof. rewrite elem_of_alloc_addrs, elem_of_addrs. naive_solver. Qed.

(** ** Consequences of the layout *)

Lemma layout_next_top top l : layout top l -> next_addr top l <= top.
Proof.
  induction l as [|b l IH]; simpl; [lia|]. intros (_ & Hb & Hl).
  specialize (IH Hl). unfold sizeof_binder_buffer in *. lia.
Qed.

Lemma layout_bounds top l b : layout top l -> b ∈ l ->
  next_addr top l <= b_addr b /\ b_addr b + sizeof_binder_buffer <= top.
Proof.
  induction l as [|c l IH]; simpl; intros Hl; [intros []%not_elem_of_nil|].
  destruct Hl as (_ & Hc & Hl). pose proof (layout_next_top top l Hl).
  intros [->|Hb]%elem_of_cons; [lia|].
  destruct (IH Hl Hb). unfold sizeof_binder_buffer in *. lia.
Qed.

Lemma layout_before l1 b top l2 x :
  layout top (l1 ++ b :: l2) -> x ∈ l1 ->
  b_addr x + sizeof_binder_buffer <= b_addr b.
Proof. intros [H _]%layout_app Hx. by destruct (layout_bounds _ _ _ H Hx). Qed.

Lemma layout_after l1 b top l2 x :
  layout top (l1 ++ b :: l2) -> x ∈ l2 ->
  b_addr b + sizeof_binder_buffer <= b_addr x.
Proof.
  intros [_ (_ & Hb & H)]%layout_app Hx.
  destruct (layout_bounds _ _ _ H Hx). lia.
Qed.

Lemma layout_NoDup top l : layout top l -> NoDup (addrs l).
Proof.
  induction l as [|b l IH]; simpl; intros H; [constructor|].
  constructor; [|apply IH, H].
  intros (c & Hc & E)%elem_of_addrs.
  pose proof (layout_after [] b top l c H Hc). unfold sizeof_binder_buffer in *. lia.
Qed.

Lemma occ_bounds top l iv : layout top l -> iv ∈ occ top l ->
  next_addr top l <= iv.1 /\ iv.1 < iv.2 <= top.
Proof.
  unfold sizeof_binder_buffer.
  induction l as [|b l IH]; simpl; intros Hl; [intros []%not_elem_of_nil|].
  pose proof (layout_next_top top l (proj2 (proj2 Hl))).
  destruct Hl as (_ & Hb & Hl). unfold sizeof_binder_buffer in *.
  intros [->|Hiv]%elem_of_cons; [simpl; destruct (b_free b); lia|].
  destruct (IH Hl Hiv). lia.
Qed.

(** ** Splitting at a buffer

    [fresh_in a l]: no buffer of [l] is at [a]. *)
Definition fresh_in (a : Z) (l : list binder_buffer) : Prop := a ∉ addrs l.

Lemma layout_fresh_l top l1 b l2 : layout top (l1 ++ b :: l2) -> fresh_in (b_addr b) l1.
Proof.
  intros H (x & Hx & E)%elem_of_addrs.
  pose proof (layout_before l1 b top l2 x H Hx). unfold sizeof_binder_buffer in *. lia.
Qed.

Lemma layout_fresh_r top l1 b l2 : layout top (l1 ++ b :: l2) -> fresh_in (b_addr b) l2.
Proof.
  intros H (x & Hx & E)%elem_of_addrs.
  pose proof (layout_after l1 b top l2 x H Hx). unfold sizeof_binder_buffer in *. lia.
Qed.

Lemma fresh_in_cons a b l : fresh_in a (b :: l) <-> b_addr b <> a /\ fresh_in a l.
Proof. unfold fresh_in, addrs. simpl. rewrite not_elem_of_cons. naive_solver. Qed.

Lemma get_buffer_split l1 b l2 :
  fresh_in (b_addr b) l1 -> get_buffer (l1 ++ b :: l2) (b_addr b) = Ret b.
Proof.
  unfold get_buffer. induction l1 as [|c l1 IH]; simpl.
  - by rewrite Z.eqb_refl.
  - intros [Hc Hf]%fresh_in_cons. apply Z.eqb_neq in Hc. rewrite Hc. by apply IH.
Qed.

Lemma list_after_split l1 b l2 :
  fresh_in (b_addr b) l1 -> list_after (b_addr b) (l1 ++ b :: l2) = l2.
Proof.
  induction l1 as [|c l1 IH]; simpl.
  - by rewrite Z.eqb_refl.
  - intros [Hc Hf]%fresh_in_cons. apply Z.eqb_neq in Hc. rewrite Hc. by apply IH.
Qed.

Lemma list_prev_split o l1 b l2 :
  fresh_in (b_addr b) l1 ->
  list_prev (b_addr b) o (l1 ++ b :: l2) =
  match last l1 with Some c => Some c | None => o end.
Proof.
  revert o. induction l1 as [|c l1 IH]; intros o.
  - intros _. simpl. by rewrite Z.eqb_refl.
  - intros [Hc Hf]%fresh_in_cons. apply Z.eqb_neq in Hc.
    rewrite last_cons. simpl. rewrite Hc, IH by done. by destruct (last l1).
Qed.

Lemma list_add_after_split l1 b l2 nb :
  fresh_in (b_addr b) l1 ->
  list_add_after (b_addr b) nb (l1 ++ b :: l2) = l1 ++ b :: nb :: l2.
Proof.
  induction l1 as [|c l1 IH]; simpl.
  - by rewrite Z.eqb_refl.
  - intros [Hc Hf]%fresh_in_cons. apply Z.eqb_neq in Hc. rewrite Hc. by rewrite IH.
Qed.

Lemma update_buffer_fresh a f l : fresh_in a l -> update_buffer a f l = l.
Proof.
  induction l as [|c l IH]; simpl; [done|].
  intros [Hc Hf]%fresh_in_cons. apply Z.eqb_neq in Hc. rewrite Hc. by rewrite IH.
Qed.

Lemma update_buffer_split f l1 b l2 :
  fresh_in (b_addr b) l1 -> fresh_in (b_addr b) l2 ->
  update_buffer (b_addr b) f (l1 ++ b :: l2) = l1 ++ f b :: l2.
Proof.
  intros H1 H2. unfold update_buffer. rewrite map_app. simpl.
  rewrite Z.eqb_refl. f_equal; [by apply update_buffer_fresh|].
  f_equal. by apply update_buffer_fresh.
Qed.

Lemma list_del_buffer_fresh a l : fresh_in a l -> list_del_buffer a l = l.
Proof.
  unfold list_del_buffer. induction l as [|c l IH]; [done|].
  intros [Hc Hf]%fresh_in_cons. rewrite filter_cons. rewrite decide_True by done.
  by rewrite IH.
Qed.

Lemma list_del_buffer_split l1 b l2 :
  fresh_in (b_addr b) l1 -> fresh_in (b_addr b) l2 ->
  list_del_buffer (b_addr b) (l1 ++ b :: l2) = l1 ++ l2.
Proof.
  intros H1 H2. unfold list_del_buffer. rewrite filter_app, filter_cons.
  rewrite decide_False by tauto.
  f_equal; by apply list_del_buffer_fresh.
Qed.

Lemma list_after_fresh_app a l1 l2 :
  fresh_in a l1 -> list_after a (l1 ++ l2) = list_after a l2.
Proof.
  induction l1 as [|c l1 IH]; simpl; [done|].
  intros [Hc Hf]%fresh_in_cons. apply Z.eqb_neq in Hc. rewrite Hc. by apply IH.
Qed.

Lemma data_end_app_r top l1 l2 a :
  fresh_in a l1 -> data_end top (l1 ++ l2) a = data_end top l2 a.
Proof. intros. unfold data_end. by rewrite list_after_fresh_app. Qed.

Lemma data_end_app_l top l1 l2 a :
  a ∈ addrs l1 -> data_end top (l1 ++ l2) a = data_end (next_addr top l2) l1 a.
Proof.
  unfold data_end. induction l1 as [|c l1 IH]; simpl; [intros []%not_elem_of_nil|].
  intros [->|Ha]%elem_of_cons.
  - rewrite Z.eqb_refl. apply next_addr_app.
  - destruct (b_addr c =? a); [apply next_addr_app|by apply IH].
Qed.

Lemma data_end_split top l1 b l2 :
  fresh_in (b_addr b) l1 -> data_end top (l1 ++ b :: l2) (b_addr b) = next_addr top l2.
Proof. intros. unfold data_end. by rewrite list_after_split. Qed.

(** Replacing a middle segment by one that starts at the same address leaves
    the sizes of all other buffers unchanged. *)
Lemma data_end_replace top l1 m m' l2 a :
  next_addr top (m ++ l2) = next_addr top (m' ++ l2) ->
  fresh_in a m -> fresh_in a m' ->
  a ∈ addrs l1 \/ fresh_in a l1 ->
  data_end top (l1 ++ m ++ l2) a = data_end top (l1 ++ m' ++ l2) a.
Proof.
  intros E Hm Hm' [Ha|Ha].
  - rewrite !(data_end_app_l _ l1) by done. by rewrite E.
  - by rewrite !(data_end_app_r _ l1), !data_end_app_r by done.
Qed.

Lemma fresh_or_in a l : a ∈ addrs l \/ fresh_in a l.
Proof. unfold fresh_in. destruct (decide (a ∈ addrs l)); tauto. Qed.

Lemma get_buffer_in top l b : layout top l -> b ∈ l -> get_buffer l (b_addr b) = Ret b.
Proof.
  intros Hl (l1 & l2 & ->)%list_elem_of_split.
  apply get_buffer_split. by eapply layout_fresh_l.
Qed.

(** ** Pages used by a list of intervals *)

Lemma page_used_app base l1 l2 i :
  page_used base (l1 ++ l2) i <-> page_used base l1 i \/ page_used base l2 i.
Proof. unfold page_used. setoid_rewrite elem_of_app. naive_solver. Qed.

Lemma page_used_cons base iv l i :
  page_used base (iv :: l) i <-> touches base i iv \/ page_used base l i.
Proof. unfold page_used. setoid_rewrite elem_of_cons. naive_solver. Qed.

(** Intervals that end at or before [hi] do not reach a page from [hi] on. *)
Lemma page_used_below base top l i :
  layout top l -> top <= base + PAGE_SIZE * i -> ~ page_used base (occ top l) i.
Proof.
  intros Hl Hi (iv & Hiv & _ & H2). destruct (occ_bounds _ _ _ Hl Hiv). lia.
Qed.

Lemma page_used_above base top l i :
  layout top l -> base + PAGE_SIZE * (i + 1) <= next_addr top l ->
  ~ page_used base (occ top l) i.
Proof.
  intros Hl Hi (iv & Hiv & H1 & _). destruct (occ_bounds _ _ _ Hl Hiv). lia.
Qed.

(** The first buffer of a list keeps the page its header starts on. *)
Lemma page_used_first base top l i :
  layout top l -> l <> [] ->
  base + PAGE_SIZE * i <= next_addr top l < base + PAGE_SIZE * (i + 1) ->
  page_used base (occ top l) i.
Proof.
  destruct l as [|b l]; [done|]. simpl. intros (_ & Hb & Hl) _ Hi.
  apply page_used_cons. left. unfold touches, sizeof_binder_buffer in *. simpl.
  destruct (b_free b); lia.
Qed.

(** ** The pages around one buffer

    [b] sits between [l1] and [l2] in a page-aligned area; [others] are the
    pages the neighbours keep mapped. *)
Section Around.
Context (base top : Z) (l1 : list binder_buffer) (b : binder_buffer)
  (l2 : list binder_buffer).
Context (Hbase : base mod PAGE_SIZE = 0) (Htop : top mod PAGE_SIZE = 0)
  (Hl : layout top (l1 ++ b :: l2)).

Let a := b_addr b.
Let N := next_addr top l2.

Definition others (i : Z) : Prop :=
  page_used base (occ (b_addr b) l1) i \/ page_used base (occ top l2) i.

Lemma around_bounds : a + sizeof_binder_buffer <= N /\ layout a l1 /\ layout top l2.
Proof. apply layout_app in Hl. simpl in Hl. tauto. Qed.

Lemma others_inside i :
  a <= base + PAGE_SIZE * i -> base + PAGE_SIZE * (i + 1) <= N -> ~ others i.
Proof.
  destruct around_bounds as (_ & H1 & H2). intros Hlo Hhi [Hu|Hu]; revert Hu.
  - by apply page_used_below.
  - by apply page_used_above.
Qed.

(** The page where the next header starts is kept by that header. *)
Lemma others_next i :
  base + PAGE_SIZE * i < N -> N < base + PAGE_SIZE * (i + 1) -> others i.
Proof.
  destruct around_bounds as (_ & _ & H2). intros Hlo Hhi. right.
  apply page_used_first; [done| |fold N; lia].
  intros E. subst N. rewrite E in *. simpl in *. unfold PAGE_SIZE in *.
  Z.to_euclidean_division_equations. lia.
Qed.

Lemma used_around b' rest i :
  b_addr b' = a -> next_addr top (rest ++ l2) = next_addr (next_addr top l2) rest ->
  page_used base (occ top (l1 ++ b' :: rest ++ l2)) i <->
  others i \/ page_used base (occ N (b' :: rest)) i.
Proof.
  intros E _. rewrite occ_app. simpl. rewrite E, occ_app, next_addr_app.
  rewrite page_used_app, page_used_cons, page_used_app, page_used_cons.
  unfold others. fold a N. tauto.
Qed.

End Around.
