(* ===== verification/BufferInv.v ===== *)
(** * BufferInv: the allocator's invariant and its operations' specifications

    [mem_wf] is the invariant of the memory half of a process.  The lemmas
    here give, for each operation of BufferAlloc, the exact resulting state;
    BufferThms draws the theorems from them. *)

From S2P Require Import Prelude RbTree BufferAlloc BufferList.

Definition mtop (p : proc_mem) : Z := buffer p + buffer_size p.

(** Layout, trees and accounting: what every step of an operation keeps. *)
Record mem_core (p : proc_mem) : Prop := {
  wf_base : 0 < buffer p /\ buffer p mod PAGE_SIZE = 0;
  wf_size : 0 < buffer_size p <= SZ_4M /\ buffer_size p mod PAGE_SIZE = 0;
  wf_top : mtop p <= 2 ^ 64 - PAGE_SIZE;
  wf_first : next_addr 0 (buffers p) = buffer p;
  wf_layout : layout (mtop p) (buffers p);
  wf_fit b : b ∈ buffers p -> b_free b = false ->
    0 <= b_data_size b <= buffer_request (b_data_size b) (b_offsets_size b) /\
    0 <= b_offsets_size b <= buffer_request (b_data_size b) (b_offsets_size b) /\
    buffer_request (b_data_size b) (b_offsets_size b) <= binder_buffer_size p (b_addr b);
  wf_free_perm : inorder (free_buffers p) ≡ₚ free_addrs (buffers p);
  wf_free_sorted : sorted_by (binder_buffer_size p) (inorder (free_buffers p));
  wf_alloc_perm : inorder (allocated_buffers p) ≡ₚ alloc_addrs (buffers p);
  wf_alloc_sorted : sorted_by_lt (fun a => a) (inorder (allocated_buffers p));
  wf_async : free_async_space p + async_total (buffers p) = buffer_size p / 2;
  wf_async_pos : 0 <= free_async_space p
}.

(** Exactly the pages under a header or under allocated data are present. *)
Definition pages_ok (p : proc_mem) : Prop :=
  forall i, i ∈ pages p <-> page_used (buffer p) (occ (mtop p) (buffers p)) i.

(** The invariant between operations. *)
Record mem_wf (p : proc_mem) : Prop := {
  wf_core : mem_core p;
  wf_coalesced : coalesced false (buffers p);
  wf_pages : pages_ok p
}.

Lemma mem_core_set_pages p s : mem_core p -> mem_core (set_pages p s).
Proof. intros []. by constructor. Qed.

(** ** Sizes depend on addresses only *)

Lemma data_end_addrs top l l' a :
  addrs l = addrs l' -> data_end top l a = data_end top l' a.
Proof.
  unfold data_end. revert l'.
  induction l as [|b l IH]; intros [|b' l'] E; [done|done|done|].
  injection E as Eb El. simpl. rewrite Eb.
  destruct (b_addr b' =? a); [|by apply IH].
  destruct l as [|c l], l' as [|c' l']; simpl in *; congruence.
Qed.

Lemma binder_buffer_size_ext p p' a :
  buffer p = buffer p' -> buffer_size p = buffer_size p' ->
  addrs (buffers p) = addrs (buffers p') ->
  binder_buffer_size p a = binder_buffer_size p' a.
Proof.
  intros E1 E2 E3. rewrite !binder_buffer_size_data_end, E1, E2.
  by rewrite (data_end_addrs _ _ _ _ E3).
Qed.

Lemma addrs_update a f l :
  (forall b, b_addr (f b) = b_addr b) -> addrs (update_buffer a f l) = addrs l.
Proof.
  intros Hf. unfold addrs, update_buffer. rewrite <- list_fmap_compose.
  apply list_fmap_ext. intros _ b _. simpl. by destruct (b_addr b =? a).
Qed.

Lemma binder_buffer_size_split p l1 b l2 :
  buffers p = l1 ++ b :: l2 -> layout (mtop p) (buffers p) ->
  binder_buffer_size p (b_addr b) = next_addr (mtop p) l2 - buffer_data (b_addr b).
Proof.
  intros E Hl. rewrite binder_buffer_size_data_end, E in *. fold (mtop p).
  rewrite data_end_split; [done|]. by eapply layout_fresh_l.
Qed.

Lemma binder_buffer_size_nonneg p b :
  layout (mtop p) (buffers p) -> b ∈ buffers p -> 0 <= binder_buffer_size p (b_addr b).
Proof.
  intros Hl (l1 & l2 & E)%list_elem_of_split.
  rewrite (binder_buffer_size_split p l1 b l2) by done.
  rewrite E in Hl. apply layout_app in Hl as (_ & _ & Hb & _). unfold buffer_data. lia.
Qed.

(** Every buffer lies inside the mapping. *)
Lemma buffer_range p b : mem_core p -> b ∈ buffers p ->
  buffer p <= b_addr b /\ b_addr b + sizeof_binder_buffer <= mtop p.
Proof.
  intros Hc Hb. destruct (layout_bounds _ _ b (wf_layout _ Hc) Hb) as [Hlo Hhi].
  pose proof (wf_first _ Hc) as Hfst.
  destruct (buffers p) as [|c l]; [by apply not_elem_of_nil in Hb|]. simpl in *. lia.
Qed.

(** ** The request size *)

Lemma buffer_request_range ds os : 0 <= buffer_request ds os < 2 ^ 64.
Proof. apply u64_range. Qed.

Lemma ALIGN_8_range x : 0 <= ALIGN x 8 < 2 ^ 64 /\ ALIGN x 8 mod 8 = 0.
Proof.
  unfold ALIGN. change (8 - 1) with (2 ^ 3 - 1). rewrite land_lnot_ones by lia.
  pose proof (u64_range (x + (2 ^ 3 - 1))). change (2 ^ 3) with 8 in *.
  Z.to_euclidean_division_equations. lia.
Qed.

Lemma buffer_request_aligned ds os : buffer_request ds os mod 8 = 0.
Proof.
  unfold buffer_request, u64, sizeof_ptr.
  pose proof (ALIGN_8_range ds). pose proof (ALIGN_8_range os).
  change (2 ^ 64) with (8 * 2 ^ 61) in *. Z.to_euclidean_division_equations. lia.
Qed.

(** ** Page ranges *)

(** Equalities between page sets built from ranges. *)
Ltac prange_eq :=
  apply set_eq; let j := fresh "j" in intros j;
  rewrite ?elem_of_difference, ?elem_of_union, ?elem_of_singleton, ?elem_of_prange;
  simpl; intuition lia.

Section WithTrees.
Context `{RL : RbLib}.

Lemma page_index_shift p i j : (buffer p) mod PAGE_SIZE = 0 ->
  page_index p (buffer p + PAGE_SIZE * i + PAGE_SIZE * j) = i + j.
Proof.
  intros _. unfold page_index, PAGE_SIZE. Z.to_euclidean_division_equations. lia.
Qed.

Lemma page_index_at p i : page_index p (buffer p + PAGE_SIZE * i) = i.
Proof. unfold page_index, PAGE_SIZE. Z.to_euclidean_division_equations. lia. Qed.

Lemma set_pages_pages p s : set_pages p s = set_pages (set_pages p ∅) s.
Proof. done. Qed.

Lemma set_pages_self p : set_pages p (pages p) = p.
Proof. by destruct p. Qed.

Lemma prange_S lo n : prange lo (S n) = {[lo]} ∪ prange (lo + 1) n.
Proof.
  prange_eq.
Qed.

Lemma prange_S_r lo n : prange lo (S n) = prange lo n ∪ {[lo + Z.of_nat n]}.
Proof.
  prange_eq.
Qed.

Lemma map_pages_spec K n : forall p i,
  (forall j, i <= j < i + Z.of_nat n -> j ∉ pages p) ->
  exists r, match r with
    | None => map_pages K p (buffer p + PAGE_SIZE * i) n =
                Ret (None, set_pages p (pages p ∪ prange i n))
    | Some k => (k < n)%nat /\ (exists a, map_page K a <> PageMapped) /\
        map_pages K p (buffer p + PAGE_SIZE * i) n =
          Ret (Some (buffer p + PAGE_SIZE * (i + Z.of_nat k)),
               set_pages p (pages p ∪ prange i k))
    end.
Proof.
  induction n as [|n IH]; intros p i Hn; simpl.
  { exists None. replace (pages p ∪ prange i 0) with (pages p); [by rewrite set_pages_self|].
    prange_eq. }
  rewrite page_index_at, bool_decide_eq_false_2 by (apply Hn; lia). simpl.
  destruct (map_page K _) eqn:Em;
    [|exists (Some 0%nat); split; [lia|]; split; [eexists; by rewrite Em|];
      replace (pages p ∪ prange i 0) with (pages p)
        by prange_eq;
      rewrite set_pages_self, Z.add_0_r; done..].
  destruct (IH (set_pages p ({[i]} ∪ pages p)) (i + 1)) as [r Hr].
  { intros j Hj. simpl. rewrite not_elem_of_union, not_elem_of_singleton.
    split; [lia|]. apply Hn. lia. }
  replace (buffer p + PAGE_SIZE * i + PAGE_SIZE)
    with (buffer (set_pages p ({[i]} ∪ pages p)) + PAGE_SIZE * (i + 1))
    by (simpl; unfold PAGE_SIZE; lia).
  destruct r as [k|].
  - destruct Hr as (Hk & Hm & ->). exists (Some (S k)). split; [lia|]. split; [done|].
    replace (i + Z.of_nat (S k)) with (i + 1 + Z.of_nat k) by lia.
    replace (pages p ∪ prange i (S k)) with ({[i]} ∪ pages p ∪ prange (i + 1) k)
      by (rewrite prange_S; prange_eq). done.
  - exists None. rewrite Hr.
    replace (pages p ∪ prange i (S n)) with ({[i]} ∪ pages p ∪ prange (i + 1) n)
      by (rewrite prange_S; prange_eq). done.
Qed.

Lemma unmap_pages_spec n : forall p i,
  (forall j, i - Z.of_nat n < j <= i -> j ∈ pages p) ->
  unmap_pages p (buffer p + PAGE_SIZE * i) n =
    Ret (set_pages p (pages p ∖ prange (i + 1 - Z.of_nat n) n)).
Proof.
  induction n as [|n IH]; intros p i Hn; simpl.
  { replace (pages p ∖ _) with (pages p); [by rewrite set_pages_self|].
    prange_eq. }
  rewrite page_index_at, bool_decide_eq_true_2 by (apply Hn; lia). simpl.
  replace (buffer p + PAGE_SIZE * i - PAGE_SIZE)
    with (buffer (set_pages p (pages p ∖ {[i]})) + PAGE_SIZE * (i - 1))
    by (simpl; unfold PAGE_SIZE; lia).
  rewrite IH; clear IH; simpl.
  - unfold set_pages; simpl. do 2 f_equal. prange_eq.
  - intros j Hj. rewrite elem_of_difference, elem_of_singleton. split; [apply Hn|]; lia.
Qed.

(** Both directions of [binder_update_page_range] on a page-aligned range. *)
Lemma update_page_range_free K p i n v :
  (forall j, i <= j < i + Z.of_nat n -> j ∈ pages p) ->
  exists e, binder_update_page_range K p false (buffer p + PAGE_SIZE * i)
    (buffer p + PAGE_SIZE * (i + Z.of_nat n)) v =
  Ret (e, set_pages p (pages p ∖ prange i n)).
Proof.
  intros Hn. unfold binder_update_page_range.
  destruct (Z.leb_spec (buffer p + PAGE_SIZE * (i + Z.of_nat n)) (buffer p + PAGE_SIZE * i)) as [H|H].
  - exists 0. replace (pages p ∖ prange i n) with (pages p); [by rewrite set_pages_self|].
    unfold PAGE_SIZE in *. prange_eq.
  - exists (- ENOMEM). simpl.
    replace (buffer p + PAGE_SIZE * (i + Z.of_nat n) - PAGE_SIZE)
      with (buffer p + PAGE_SIZE * (i + Z.of_nat n - 1)) by (unfold PAGE_SIZE; lia).
    replace (Z.to_nat _) with n
      by (unfold PAGE_SIZE in *; Z.to_euclidean_division_equations; lia).
    rewrite unmap_pages_spec by (intros; apply Hn; lia). simpl.
    by replace (i + Z.of_nat n - 1 + 1 - Z.of_nat n) with i by lia.
Qed.

(** Why mapping pages can fail. *)
Definition pages_failed (K : kernel_mm) (p : proc_mem) (v : option vm_area) : Prop :=
  update_vma K p v = None \/ exists a, map_page K a <> PageMapped.

Lemma update_page_range_alloc K p i n v :
  (forall j, i <= j < i + Z.of_nat n -> j ∉ pages p) ->
  binder_update_page_range K p true (buffer p + PAGE_SIZE * i)
    (buffer p + PAGE_SIZE * (i + Z.of_nat n)) v =
      Ret (0, set_pages p (pages p ∪ prange i n)) \/
  binder_update_page_range K p true (buffer p + PAGE_SIZE * i)
    (buffer p + PAGE_SIZE * (i + Z.of_nat n)) v = Ret (- ENOMEM, p) /\
  pages_failed K p v.
Proof.
  intros Hn. unfold binder_update_page_range.
  destruct (Z.leb_spec (buffer p + PAGE_SIZE * (i + Z.of_nat n)) (buffer p + PAGE_SIZE * i)) as [H|H].
  { left. replace (pages p ∪ prange i n) with (pages p); [by rewrite set_pages_self|].
    unfold PAGE_SIZE in *. prange_eq. }
  simpl. unfold pages_failed. destruct (update_vma K p v); [|by right; auto].
  replace (Z.to_nat _) with n
    by (unfold PAGE_SIZE in *; Z.to_euclidean_division_equations; lia).
  destruct (map_pages_spec K n p i Hn) as [[k|] Hr]; simpl in Hr.
  - right. destruct Hr as (Hk & Hm & ->). split; [|by right]. simpl.
    replace (Z.to_nat _) with k
      by (unfold PAGE_SIZE in *; Z.to_euclidean_division_equations; lia).
    replace (buffer p + PAGE_SIZE * (i + Z.of_nat k) - PAGE_SIZE)
      with (buffer (set_pages p (pages p ∪ prange i k)) + PAGE_SIZE * (i + Z.of_nat k - 1))
      by (simpl; unfold PAGE_SIZE; lia).
    rewrite unmap_pages_spec; simpl.
    + replace (set_pages (set_pages p _) _) with p; [done|].
      rewrite <- (set_pages_self p) at 1. unfold set_pages; simpl. f_equal.
      apply set_eq. intros j. rewrite elem_of_difference, elem_of_union, !elem_of_prange.
      assert (~ (j ∈ pages p /\ i <= j < i + Z.of_nat k))
        by (intros [? ?]; eapply (Hn j); [lia|done]).
      clear Hn. intuition lia.
    + intros j Hj. rewrite elem_of_union, elem_of_prange. right. lia.
  - left. by rewrite Hr.
Qed.


(** The same by page indices, also for an empty range. *)
Lemma update_pages_free K p i j v :
  (forall k, i <= k < j -> k ∈ pages p) ->
  exists e, binder_update_page_range K p false (buffer p + PAGE_SIZE * i)
    (buffer p + PAGE_SIZE * j) v =
  Ret (e, set_pages p (pages p ∖ prange i (Z.to_nat (j - i)))).
Proof.
  intros H. destruct (Z.leb_spec j i).
  - exists 0. unfold binder_update_page_range.
    destruct (Z.leb_spec (buffer p + PAGE_SIZE * j) (buffer p + PAGE_SIZE * i));
      [|unfold PAGE_SIZE in *; lia].
    replace (pages p ∖ _) with (pages p) by prange_eq. by rewrite set_pages_self.
  - pose proof (update_page_range_free K p i (Z.to_nat (j - i)) v) as Hr.
    rewrite Z2Nat.id, Zplus_minus in Hr by lia. by apply Hr.
Qed.

Lemma update_pages_alloc K p i j v :
  (forall k, i <= k < j -> k ∉ pages p) ->
  let r := binder_update_page_range K p true (buffer p + PAGE_SIZE * i)
             (buffer p + PAGE_SIZE * j) v in
  r = Ret (0, set_pages p (pages p ∪ prange i (Z.to_nat (j - i)))) \/
  r = Ret (- ENOMEM, p) /\ pages_failed K p v.
Proof.
  intros H r. subst r. destruct (Z.leb_spec j i).
  - left. unfold binder_update_page_range.
    destruct (Z.leb_spec (buffer p + PAGE_SIZE * j) (buffer p + PAGE_SIZE * i));
      [|unfold PAGE_SIZE in *; lia].
    replace (pages p ∪ _) with (pages p) by prange_eq. by rewrite set_pages_self.
  - pose proof (update_page_range_alloc K p i (Z.to_nat (j - i)) v) as Hr.
    rewrite Z2Nat.id, Zplus_minus in Hr by lia. by apply Hr.
Qed.

(** ** The trees *)

Lemma get_buffer_free p y :
  layout (mtop p) (buffers p) -> y ∈ free_addrs (buffers p) ->
  exists b, get_buffer (buffers p) y = Ret b /\ b_free b = true.
Proof.
  intros Hl (b & Hb & <- & Hf)%elem_of_free_addrs. exists b. split; [|done].
  by eapply get_buffer_in.
Qed.

Lemma get_buffer_alloc p y :
  layout (mtop p) (buffers p) -> y ∈ alloc_addrs (buffers p) ->
  exists b, get_buffer (buffers p) y = Ret b /\ b_free b = false.
Proof.
  intros Hl (b & Hb & <- & Hf)%elem_of_alloc_addrs. exists b. split; [|done].
  by eapply get_buffer_in.
Qed.

Lemma insert_free_spec p b :
  layout (mtop p) (buffers p) -> b ∈ buffers p -> b_free b = true ->
  (forall y, y ∈ inorder (free_buffers p) -> y ∈ free_addrs (buffers p)) ->
  sorted_by (binder_buffer_size p) (inorder (free_buffers p)) ->
  exists t, binder_insert_free_buffer p (b_addr b) = Ret (set_free_buffers p t) /\
    sorted_by (binder_buffer_size p) (inorder t) /\
    inorder t ≡ₚ b_addr b :: inorder (free_buffers p).
Proof.
  intros Hl Hb Hf Hin Hs. unfold binder_insert_free_buffer.
  rewrite (get_buffer_in (mtop p)) by done. simpl. rewrite Hf. simpl.
  match goal with |- context [rb_link ?v _ _] => set (visit := v) end.
  destruct (rb_link_spec visit (binder_buffer_size p)
    (binder_buffer_size p (b_addr b)) (b_addr b) (free_buffers p))
    as [(t' & l1 & l2 & -> & E1 & E2 & H1 & H2)|(y & _ & Hy & _ & Hv)]; [|done| |].
  - intros y Hy. destruct (get_buffer_free p y Hl (Hin y Hy)) as (yb & Eg & Ef).
    unfold visit. rewrite Eg. simpl. rewrite Ef. simpl. eexists. split; [done|].
    destruct (Z.ltb_spec (binder_buffer_size p (b_addr b)) (binder_buffer_size p y)); lia.
  - simpl. eexists. split; [done|]. rewrite rb_insert_color_inorder, E2. split.
    + apply sorted_by_insert; [by rewrite <- E1|done..].
    + rewrite E1. symmetry. apply Permutation_middle.
  - exfalso. destruct (get_buffer_free p y Hl (Hin y Hy)) as (yb & Eg & Ef).
    unfold visit in Hv. rewrite Eg in Hv. simpl in Hv. rewrite Ef in Hv. simpl in Hv.
    by destruct (_ <? _).
Qed.

Lemma insert_alloc_spec p b :
  layout (mtop p) (buffers p) -> b ∈ buffers p -> b_free b = false ->
  (forall y, y ∈ inorder (allocated_buffers p) -> y ∈ alloc_addrs (buffers p)) ->
  b_addr b ∉ inorder (allocated_buffers p) ->
  sorted_by_lt (fun a => a) (inorder (allocated_buffers p)) ->
  exists t, binder_insert_allocated_buffer p (b_addr b) = Ret (set_allocated_buffers p t) /\
    sorted_by_lt (fun a => a) (inorder t) /\
    inorder t ≡ₚ b_addr b :: inorder (allocated_buffers p).
Proof.
  intros Hl Hb Hf Hin Hnew Hs. unfold binder_insert_allocated_buffer.
  rewrite (get_buffer_in (mtop p)) by done. simpl. rewrite Hf. simpl.
  match goal with |- context [rb_link ?v _ _] => set (visit := v) end.
  assert (forall y, y ∈ inorder (allocated_buffers p) ->
    visit y = Ret (b_addr b ?= y)) as Hv.
  { intros y Hy. destruct (get_buffer_alloc p y Hl (Hin y Hy)) as (yb & Eg & Ef).
    unfold visit. rewrite Eg. simpl. by rewrite Ef. }
  destruct (rb_link_spec visit (fun a => a) (b_addr b) (b_addr b) (allocated_buffers p))
    as [(t' & l1 & l2 & -> & E1 & E2 & H1 & H2)|(y & _ & Hy & Ey & _)].
  - intros y Hy. rewrite Hv by done. eexists. split; [done|].
    destruct (Z.compare_spec (b_addr b) y); lia.
  - by apply sorted_by_lt_le.
  - simpl. eexists. split; [done|]. rewrite rb_insert_color_inorder, E2. split.
    + apply sorted_by_lt_insert; [by rewrite <- E1| |done].
      intros y Hy. specialize (H1 y Hy). enough (y <> b_addr b) by lia.
      intros ->. apply Hnew. rewrite E1. set_solver.
    + rewrite E1. symmetry. apply Permutation_middle.
  - by subst y.
Qed.

(** The best-fit walk on a tree sorted by size. *)
Lemma best_fit_walk_spec p size t : forall best,
  (forall y, y ∈ inorder t -> y ∈ free_addrs (buffers p)) ->
  layout (mtop p) (buffers p) ->
  sorted_by (binder_buffer_size p) (inorder t) ->
  (exists a, best_fit_walk p size t best = Ret (Some a, true) /\
     a ∈ inorder t /\ binder_buffer_size p a = size) \/
  (exists a, best_fit_walk p size t best = Ret (Some a, false) /\
     a ∈ inorder t /\ size < binder_buffer_size p a /\
     forall y, y ∈ inorder t -> size <= binder_buffer_size p y ->
       binder_buffer_size p a <= binder_buffer_size p y) \/
  (best_fit_walk p size t best = Ret (best, false) /\
     forall y, y ∈ inorder t -> binder_buffer_size p y < size).
Proof.
  induction t as [|l IHl x r IHr]; intros best Hin Hl Hs; simpl in *.
  { right; right. split; [done|]. set_solver. }
  apply StronglySorted_app_iff in Hs as (Hsl & Hsr & Hlr).
  apply StronglySorted_cons_iff in Hsr as (Hsr & Hxr).
  destruct (get_buffer_free p x) as (b & Eg & Ef); [done|apply Hin; set_solver|].
  rewrite Eg. simpl. rewrite Ef. simpl.
  destruct (Z.ltb_spec size (binder_buffer_size p x)) as [Hlt|Hge].
  - destruct (IHl (Some x)) as [(a & E & ? & ?)|[(a & E & ? & ? & Hbest)|(E & Hall)]];
      [set_solver|done|done| | |].
    + left. exists a. split; [done|]. set_solver.
    + right; left. exists a. repeat split; [done|set_solver|done|].
      intros y [Hy|[->|Hy]%elem_of_cons]%elem_of_app Hsz; [by apply Hbest| |].
      * apply Hlr; [done|set_solver].
      * apply Hlr; [done|]. set_solver.
    + right; left. exists x. repeat split; [done|set_solver|done|].
      intros y [Hy|[->|Hy]%elem_of_cons]%elem_of_app Hsz.
      * specialize (Hall y Hy). lia.
      * done.
      * by apply Hxr.
  - destruct (Z.ltb_spec (binder_buffer_size p x) size) as [Hlt|Hge'].
    + assert (forall y, y ∈ inorder l -> binder_buffer_size p y < size) as Hlow.
      { intros y Hy. specialize (Hlr y x Hy (list_elem_of_here _ _)). lia. }
      destruct (IHr best) as [(a & E & ? & ?)|[(a & E & ? & ? & Hbest)|(E & Hall)]];
        [set_solver|done|done| | |].
      * left. exists a. set_solver.
      * right; left. exists a. repeat split; [done|set_solver|done|].
        intros y [Hy|[->|Hy]%elem_of_cons]%elem_of_app Hsz; [|lia|by apply Hbest].
        specialize (Hlow y Hy). lia.
      * right; right. split; [done|].
        intros y [Hy|[->|Hy]%elem_of_cons]%elem_of_app; [by apply Hlow|lia|by apply Hall].
    + left. exists x. repeat split; [set_solver|lia].
Qed.

End WithTrees.
