(* ===== verification/BufferTake.v ===== *)
(** * BufferTake: what [binder_alloc_buf] does to a well-formed area *)

From S2P Require Import Prelude RbTree BufferAlloc BufferList BufferInv.

(** The buffer [binder_alloc_buf] hands out, and the header it may split off. *)
Definition taken (ds os : Z) (async : bool) (b : binder_buffer) : binder_buffer :=
  set_sizes ds os async (set_free false b).

Definition split_rest (a size : Z) (split : bool) : list binder_buffer :=
  if split then [new_free_buffer (buffer_data a + size)] else [].

Lemma layout_addrs top l l' : addrs l = addrs l' -> layout top l -> layout top l'.
Proof.
  revert l'. induction l as [|b l IH]; intros [|b' l'] E; [done|done|done|].
  injection E as Eb El. simpl. intros (H1 & H2 & H3).
  rewrite <- Eb. repeat split; [done| |by apply IH].
  destruct l, l'; simpl in *; congruence.
Qed.

Lemma layout_split top l1 b b' l2 size split :
  layout top (l1 ++ b :: l2) -> b_addr b' = b_addr b -> 0 <= size -> size mod 8 = 0 ->
  (split = true -> buffer_data (b_addr b) + size + sizeof_binder_buffer <= next_addr top l2) ->
  layout top (l1 ++ b' :: split_rest (b_addr b) size split ++ l2).
Proof.
  intros [H1 (Ha & Hb & H2)]%layout_app E Hs Hs8 Hsplit. apply layout_app. simpl.
  rewrite E. split; [done|]. split; [done|]. destruct split; simpl; [|done].
  specialize (Hsplit eq_refl). unfold buffer_data, sizeof_binder_buffer in *.
  repeat split; [lia| |done|done]. Z.to_euclidean_division_equations. lia.
Qed.

(** The pages of a taken buffer: those mapped by [binder_alloc_buf] were
    unused, and with them every page of the new layout is mapped. *)
Lemma pages_taken base top l1 b l2 b' size bs i j :
  base mod PAGE_SIZE = 0 -> top mod PAGE_SIZE = 0 -> layout top (l1 ++ b :: l2) ->
  b_free b = true -> b_addr b' = b_addr b -> b_free b' = false ->
  let data := buffer_data (b_addr b) in
  let N := next_addr top l2 in
  0 <= size <= N - data ->
  (bs = size /\ N - data <= size + sizeof_binder_buffer + 4 \/
   bs = size + sizeof_binder_buffer /\ size + sizeof_binder_buffer + 4 < N - data) ->
  PAGE_ALIGN data = base + PAGE_SIZE * i ->
  Z.min (Z.land N PAGE_MASK) (PAGE_ALIGN (data + bs)) = base + PAGE_SIZE * j ->
  let l' := l1 ++ b' :: split_rest (b_addr b) size (negb (bs =? size)) ++ l2 in
  (forall k, i <= k < j -> ~ page_used base (occ top (l1 ++ b :: l2)) k) /\
  (forall k, page_used base (occ top l') k <->
     page_used base (occ top (l1 ++ b :: l2)) k \/ i <= k < j).
Proof.
  intros Hb Ht Hl Hf Ea Hf' data N Hs Hbs Ei Ej l'.
  pose proof (around_bounds top l1 b l2 Hl) as (HN & _ & _). fold N in HN.
  assert (forall k, page_used base (occ top (l1 ++ b :: l2)) k <->
    others base top l1 b l2 k \/ touches base k (b_addr b, data)) as Hold.
  { intros k. rewrite (used_around base top l1 b l2 b [] k) by done. simpl. rewrite Hf.
    rewrite page_used_cons. unfold page_used. setoid_rewrite elem_of_nil. naive_solver. }
  assert (forall k, page_used base (occ top l') k <->
    others base top l1 b l2 k \/
    touches base k (b_addr b, if bs =? size then N else data + bs)) as Hnew.
  { intros k. unfold l'. rewrite (used_around base top l1 b l2) by (done || by rewrite next_addr_app).
    fold N. destruct (Z.eqb_spec bs size) as [->|Hne]; simpl; rewrite Hf', !page_used_cons.
    - unfold page_used. setoid_rewrite elem_of_nil. rewrite Ea. naive_solver.
    - destruct Hbs as [[? _]|[-> _]]; [done|]. rewrite Ea. fold data.
      assert (~ page_used base [] k) as Hnil
        by (unfold page_used; setoid_rewrite elem_of_nil; naive_solver).
      unfold touches; simpl; unfold data, buffer_data, sizeof_binder_buffer in *. unfold PAGE_SIZE in *.
      clear -Hs HN Hnil. destruct (decide (b_addr b + (16 + 24 + 8 + 8 + 8 + 8 + 8) + size < base + 4096 * (k + 1))); intuition lia. }
  destruct (page_up data) as (k1 & E1 & Hk1), (page_down N) as (k2 & E2 & Hk2),
    (page_up (data + bs)) as (k3 & E3 & Hk3). rewrite E1 in Ei. rewrite E2, E3 in Ej.
  unfold data, buffer_data, sizeof_binder_buffer, PAGE_SIZE in *.
  split.
  - intros k Hk. rewrite Hold. intros [Ho|Ht'].
    + revert Ho. apply others_inside; [done|unfold PAGE_SIZE; lia|unfold PAGE_SIZE; fold N; lia].
    + revert Ht'. unfold touches, PAGE_SIZE. simpl. lia.
  - intros k. rewrite Hnew, Hold.
    assert (base + 4096 * k < N -> N < base + 4096 * (k + 1) -> others base top l1 b l2 k) as Hnext.
    { intros. apply others_next; done. }
    unfold touches, PAGE_SIZE in *; simpl.
    destruct (Z.eqb_spec bs size) as [->|Hne].
    + destruct (decide (base + 4096 * k < N)), (decide (N < base + 4096 * (k + 1)));
        intuition lia.
    + destruct (decide (base + 4096 * k < N)), (decide (N < base + 4096 * (k + 1)));
        intuition lia.
Qed.

Lemma split_rest_free a size split :
  free_addrs (split_rest a size split) = addrs (split_rest a size split).
Proof. by destruct split. Qed.

Lemma split_rest_alloc a size split : alloc_addrs (split_rest a size split) = [].
Proof. by destruct split. Qed.

Lemma split_rest_async a size split : async_total (split_rest a size split) = 0.
Proof. by destruct split. Qed.

Section WithTrees.
Context `{RL : RbLib}.

Lemma free_addrs_NoDup l : NoDup (addrs l) -> NoDup (free_addrs l).
Proof.
  intros Hnd. eapply sublist_NoDup; [exact Hnd|]. unfold free_addrs, addrs.
  apply fmap_sublist, sublist_filter.
Qed.

Lemma free_tree_erased p l1 b l2 :
  mem_core p -> buffers p = l1 ++ b :: l2 -> b_free b = true ->
  inorder (rb_erase (b_addr b) (free_buffers p)) ≡ₚ free_addrs l1 ++ free_addrs l2 /\
  sorted_by (binder_buffer_size p) (inorder (rb_erase (b_addr b) (free_buffers p))).
Proof.
  intros Hwf E Hf. pose proof (wf_free_perm _ Hwf) as Hp.
  pose proof (free_addrs_NoDup _ (layout_NoDup _ _ (wf_layout _ Hwf))) as Hnd.
  assert (free_addrs (buffers p) ≡ₚ b_addr b :: free_addrs l1 ++ free_addrs l2) as Hp2.
  { rewrite E, free_addrs_app, free_addrs_cons, Hf. symmetry. apply Permutation_middle. }
  split.
  - apply rb_erase_perm; [by rewrite Hp|]. by rewrite <- Hp2.
  - apply rb_erase_StronglySorted; [by rewrite Hp|rewrite Hp, Hp2; set_solver|].
    apply Hwf.
Qed.

(** Fields other than the list, the trees and the asynchronous budget. *)
Definition same_frame (p p' : proc_mem) : Prop :=
  vma p' = vma p /\ vma_vm_mm p' = vma_vm_mm p /\ buffer p' = buffer p /\
  user_buffer_offset p' = user_buffer_offset p /\ pages p' = pages p /\
  buffer_size p' = buffer_size p.

(** The state after [claim_buffer]. *)
Lemma claim_buffer_spec p l1 b l2 :
  mem_core p -> buffers p = l1 ++ b :: l2 -> b_free b = true ->
  exists p1, claim_buffer p (b_addr b) = Ret p1 /\ same_frame p p1 /\
    free_async_space p1 = free_async_space p /\
    buffers p1 = l1 ++ set_free false b :: l2 /\
    inorder (free_buffers p1) ≡ₚ free_addrs l1 ++ free_addrs l2 /\
    sorted_by (binder_buffer_size p) (inorder (free_buffers p1)) /\
    inorder (allocated_buffers p1) ≡ₚ b_addr b :: alloc_addrs l1 ++ alloc_addrs l2 /\
    sorted_by_lt (fun a => a) (inorder (allocated_buffers p1)).
Proof.
  intros Hwf E Hf. pose proof (wf_layout _ Hwf) as Hl. rewrite E in Hl.
  pose proof (layout_fresh_l _ _ _ _ Hl) as Hf1.
  pose proof (layout_fresh_r _ _ _ _ Hl) as Hf2.
  destruct (free_tree_erased p l1 b l2) as [Hp1 Hs1]; [done..|].
  pose proof (wf_alloc_perm _ Hwf) as Hpa.
  rewrite E, alloc_addrs_app, alloc_addrs_cons, Hf in Hpa.
  unfold claim_buffer. simpl. rewrite E, update_buffer_split by done.
  set (b' := set_free false b). change (b_addr b) with (b_addr b').
  match goal with |- context [binder_insert_allocated_buffer ?q _] => set (p2 := q) end.
  destruct (insert_alloc_spec p2 b') as (ta & -> & Hsa & Hpa2).
  - simpl. eapply layout_addrs; [|exact Hl]. by rewrite !addrs_app.
  - simpl. set_solver.
  - done.
  - intros y. simpl. rewrite Hpa, alloc_addrs_app, alloc_addrs_cons. simpl. set_solver.
  - simpl. rewrite Hpa. intros [Hin|Hin]%elem_of_app; apply alloc_addrs_addrs in Hin;
      [by apply Hf1|by apply Hf2].
  - apply Hwf.
  - eexists. split; [done|]. simpl in *. rewrite Hpa in Hpa2. by repeat split.
Qed.

(** The state after [split_buffer], on the list [claim_buffer] leaves. *)
Lemma split_buffer_spec p l1 b l2 size bs :
  buffers p = l1 ++ b :: l2 -> b_free b = false -> layout (mtop p) (buffers p) ->
  inorder (free_buffers p) ≡ₚ free_addrs l1 ++ free_addrs l2 ->
  sorted_by (binder_buffer_size p) (inorder (free_buffers p)) ->
  0 <= size -> size mod 8 = 0 ->
  (bs <> size ->
     buffer_data (b_addr b) + size + sizeof_binder_buffer <= next_addr (mtop p) l2) ->
  let l' := l1 ++ b :: split_rest (b_addr b) size (negb (bs =? size)) ++ l2 in
  exists p1, split_buffer p (b_addr b) size bs = Ret p1 /\ same_frame p p1 /\
    free_async_space p1 = free_async_space p /\
    allocated_buffers p1 = allocated_buffers p /\
    buffers p1 = l' /\ layout (mtop p) l' /\
    inorder (free_buffers p1) ≡ₚ free_addrs l' /\
    sorted_by (binder_buffer_size p1) (inorder (free_buffers p1)).
Proof.
  intros E Hf Hl Hp Hs Hsz Hsz8 Hsplit l'. rewrite E in Hl.
  pose proof (layout_fresh_l _ _ _ _ Hl) as Hf1.
  pose proof (layout_fresh_r _ _ _ _ Hl) as Hf2.
  unfold split_buffer. destruct (Z.eqb_spec bs size) as [->|Hne]; simpl in l'.
  { exists p. repeat split; try done.
    rewrite Hp. unfold l'. by rewrite free_addrs_app, free_addrs_cons, Hf. }
  rewrite E, list_add_after_split by done.
  set (nb := new_free_buffer (buffer_data (b_addr b) + size)) in *.
  match goal with |- context [binder_insert_free_buffer ?q _] => set (p4 := q) end.
  assert (layout (mtop p) l') as Hl4.
  { apply (layout_split _ l1 b b l2 size true); [done..|]. intros _. by apply Hsplit. }
  assert (fresh_in (b_addr nb) l1 /\ fresh_in (b_addr nb) l2) as [Hnb1 Hnb2].
  { change l' with (l1 ++ [b] ++ nb :: l2) in Hl4. rewrite app_assoc in Hl4.
    split; [|by eapply layout_fresh_r].
    apply layout_fresh_l in Hl4. unfold fresh_in in *. rewrite addrs_app in Hl4. set_solver. }
  destruct (insert_free_spec p4 nb) as (tf & Etf & Hsf & Hpf).
  - exact Hl4.
  - simpl. set_solver.
  - done.
  - simpl. intros y. rewrite Hp, free_addrs_app, !free_addrs_cons, Hf. simpl. set_solver.
  - simpl. eapply sorted_by_ext; [|exact Hs]. intros y Hy. rewrite Hp in Hy.
    rewrite !binder_buffer_size_data_end. f_equal. rewrite E.
    apply (data_end_replace _ l1 [b] [b; nb]); [done| | |apply fresh_or_in];
      repeat (apply fresh_in_cons; split); try apply not_elem_of_nil; intros <-;
      apply elem_of_app in Hy as [Hy|Hy]; apply free_addrs_addrs in Hy;
      first [by apply Hf1|by apply Hf2|by apply Hnb1|by apply Hnb2].
  - change (b_addr nb) with (buffer_data (b_addr b) + size) in Etf. rewrite Etf.
    eexists. split; [done|]. simpl. repeat split; try done.
    rewrite Hpf. simpl. rewrite Hp. unfold l'.
    rewrite free_addrs_app, !free_addrs_cons, Hf. simpl. apply Permutation_middle.
Qed.

(** ** The invariant after taking a buffer *)

Lemma async_total_nonneg p l : mem_core p -> l ⊆ buffers p -> 0 <= async_total l.
Proof.
  intros Hc. induction l as [|b l IH]; intros Hsub; simpl; [done|].
  specialize (IH ltac:(set_solver)). unfold async_charge.
  pose proof (buffer_request_range (b_data_size b) (b_offsets_size b)).
  destruct (_ && _); unfold sizeof_binder_buffer; lia.
Qed.

Lemma coalesced_taken l1 b b' l2 a size split :
  coalesced false (l1 ++ b :: l2) -> b_free b = true -> b_free b' = false ->
  coalesced false (l1 ++ b' :: split_rest a size split ++ l2).
Proof.
  rewrite !coalesced_app. simpl. intros (H1 & H2 & H3) Hf Hf'.
  rewrite Hf in *. rewrite Hf', andb_false_r. repeat split; [done|].
  destruct split; simpl; [done|]. by apply coalesced_weaken.
Qed.

(** Why [binder_alloc_buf] gave [buffer_size] as it did. *)
Definition fit_choice (size sz bs : Z) : Prop :=
  bs = size /\ sz <= size + sizeof_binder_buffer + 4 \/
  bs = size + sizeof_binder_buffer /\ size + sizeof_binder_buffer + 4 < sz.

Lemma fit_choice_split size sz bs :
  fit_choice size sz bs -> bs <> size -> size + sizeof_binder_buffer <= sz.
Proof. intros [[? _]|[_ ?]]; [done|lia]. Qed.

(** The shape of the state after [take_buffer]: list, trees and budget. *)
Record taken_state (p : proc_mem) (l1 : list binder_buffer) (b : binder_buffer)
    (l2 : list binder_buffer) (size bs ds os : Z) (async : bool) (p' : proc_mem) : Prop := {
  tk_frame : same_frame p p';
  tk_buffers : buffers p' = l1 ++ taken ds os async b
                 :: split_rest (b_addr b) size (negb (bs =? size)) ++ l2;
  tk_layout : layout (mtop p) (buffers p');
  tk_free_perm : inorder (free_buffers p') ≡ₚ free_addrs (buffers p');
  tk_free_sorted : sorted_by (binder_buffer_size p') (inorder (free_buffers p'));
  tk_alloc_perm : inorder (allocated_buffers p') ≡ₚ alloc_addrs (buffers p');
  tk_alloc_sorted : sorted_by_lt (fun a => a) (inorder (allocated_buffers p'));
  tk_async : free_async_space p' =
    if async then u64 (free_async_space p - (size + sizeof_binder_buffer))
    else free_async_space p
}.

Lemma same_frame_mtop p p' : same_frame p p' -> mtop p' = mtop p.
Proof. intros (_ & _ & E1 & _ & _ & E2). unfold mtop. congruence. Qed.

Lemma same_frame_trans p q r : same_frame p q -> same_frame q r -> same_frame p r.
Proof. unfold same_frame. intuition congruence. Qed.

Lemma same_frame_size p p' y :
  same_frame p p' -> addrs (buffers p') = addrs (buffers p) ->
  binder_buffer_size p' y = binder_buffer_size p y.
Proof. intros (_ & _ & ? & _ & _ & ?) ?. by apply binder_buffer_size_ext. Qed.

Lemma take_buffer_state p l1 b l2 size bs ds os async :
  mem_core p -> buffers p = l1 ++ b :: l2 -> b_free b = true ->
  0 <= size -> size mod 8 = 0 ->
  (bs <> size -> size + sizeof_binder_buffer <= binder_buffer_size p (b_addr b)) ->
  exists p', take_buffer p (b_addr b) size bs ds os async = Ret p' /\
    taken_state p l1 b l2 size bs ds os async p'.
Proof.
  intros Hc E Hf Hs Hs8 Hsplit. pose proof (wf_layout _ Hc) as Hl. rewrite E in Hl.
  rewrite (binder_buffer_size_split p l1 b l2) in Hsplit by (done || apply Hc).
  destruct (claim_buffer_spec p l1 b l2) as
    (p1 & E1 & F1 & Fa & B1 & Pf1 & Sf1 & Pa1 & Sa1); [done..|].
  pose proof (same_frame_mtop _ _ F1) as Ft.
  assert (addrs (buffers p1) = addrs (buffers p)) as A1 by (by rewrite B1, E, !addrs_app).
  destruct (split_buffer_spec p1 l1 (set_free false b) l2 size bs) as
    (p2 & E2 & F2 & Ga & Gt & B2 & L2 & Pf2 & Sf2); [done|done| |done| |done|done| |].
  { rewrite Ft. eapply layout_addrs; [|apply (wf_layout _ Hc)]. done. }
  { eapply sorted_by_ext; [|exact Sf1]. intros y _. symmetry. by apply same_frame_size. }
  { intros Hne. rewrite Ft. specialize (Hsplit Hne). simpl. lia. }
  simpl in B2, L2, E2, Pf2. rewrite Ft in L2. rewrite <- B2 in Pf2.
  pose proof (layout_fresh_l _ _ _ _ L2) as Hf1.
  pose proof (layout_fresh_r _ _ _ _ L2) as Hf2. rewrite <- B2 in L2.
  unfold take_buffer. rewrite E1. simpl. rewrite E2. simpl.
  eexists. split; [done|].
  match goal with |- taken_state _ _ _ _ _ _ _ _ _ ?q => set (p' := q) end.
  assert (same_frame p2 p') as F3 by (unfold p', same_frame; by destruct async).
  assert (buffers p' = l1 ++ taken ds os async b
            :: split_rest (b_addr b) size (negb (bs =? size)) ++ l2) as B3.
  { transitivity (update_buffer (b_addr b) (set_sizes ds os async) (buffers p2));
      [unfold p'; by destruct async|].
    rewrite B2. by apply (update_buffer_split _ l1 (set_free false b)). }
  assert (addrs (buffers p') = addrs (buffers p2)) as A3 by (by rewrite B3, B2, !addrs_app).
  assert (free_buffers p' = free_buffers p2 /\ allocated_buffers p' = allocated_buffers p1)
    as [T1 T2] by (unfold p'; by destruct async).
  split; rewrite ?T1, ?T2.
  - by eapply same_frame_trans; [eapply same_frame_trans|].
  - done.
  - eapply layout_addrs; [symmetry; exact A3|done].
  - rewrite Pf2, B3, B2. by rewrite !free_addrs_app.
  - eapply sorted_by_ext; [|exact Sf2]. intros y _. symmetry. by apply same_frame_size.
  - rewrite Pa1, B3, alloc_addrs_app, alloc_addrs_cons, alloc_addrs_app, split_rest_alloc.
    simpl. apply Permutation_middle.
  - done.
  - unfold p'. destruct async; simpl; by rewrite Ga, Fa.
Qed.

Lemma async_total_le p : mem_core p ->
  0 <= async_total (buffers p) /\ buffer_size p / 2 < 2 ^ 64.
Proof.
  intros Hc. split; [by apply (async_total_nonneg p)|].
  destruct (wf_size _ Hc) as [Hs _]. unfold SZ_4M in *.
  Z.to_euclidean_division_equations. lia.
Qed.

(** Sizes of the buffers that were allocated before are unchanged. *)
Lemma taken_state_size p l1 b l2 size bs ds os async p' x :
  mem_core p -> buffers p = l1 ++ b :: l2 ->
  taken_state p l1 b l2 size bs ds os async p' -> x ∈ l1 ++ l2 ->
  binder_buffer_size p' (b_addr x) = binder_buffer_size p (b_addr x).
Proof.
  intros Hc E Ht Hx. pose proof (tk_layout _ _ _ _ _ _ _ _ _ _ Ht) as L'.
  destruct (tk_frame _ _ _ _ _ _ _ _ _ _ Ht) as (_ & _ & Fb & _ & _ & Fs).
  pose proof (tk_buffers _ _ _ _ _ _ _ _ _ _ Ht) as B'.
  rewrite !binder_buffer_size_data_end, Fb, Fs. f_equal. rewrite E, B' in *.
  set (m := taken ds os async b :: split_rest (b_addr b) size (negb (bs =? size))) in *.
  change (_ :: split_rest _ _ _ ++ l2) with (m ++ l2) in *. symmetry.
  pose proof (layout_NoDup _ _ L') as Hnd. rewrite !addrs_app in Hnd.
  assert (fresh_in (b_addr x) m) as Hm.
  { unfold fresh_in. intros Hin.
    apply NoDup_app in Hnd as (_ & Hd & Hnd). apply NoDup_app in Hnd as (_ & Hd2 & _).
    apply elem_of_app in Hx as [Hx|Hx].
    - apply (Hd (b_addr x)); [apply elem_of_addrs; eauto|]. apply elem_of_app. by left.
    - apply (Hd2 (b_addr x)); [done|apply elem_of_addrs; eauto]. }
  apply (data_end_replace _ l1 [b] m); [done| |done|apply fresh_or_in].
  apply fresh_in_cons in Hm as [Hm _]. apply fresh_in_cons. split; [done|apply not_elem_of_nil].
Qed.

Lemma taken_state_core p l1 b l2 bs ds os async p' :
  let size := buffer_request ds os in
  mem_core p -> buffers p = l1 ++ b :: l2 -> b_free b = true ->
  0 <= ds <= size -> 0 <= os <= size ->
  size <= binder_buffer_size p (b_addr b) ->
  (bs <> size -> size + sizeof_binder_buffer <= binder_buffer_size p (b_addr b)) ->
  (async = true -> size + sizeof_binder_buffer <= free_async_space p) ->
  taken_state p l1 b l2 size bs ds os async p' ->
  mem_core p' /\ free_async_space p' =
    free_async_space p - (if async then size + sizeof_binder_buffer else 0).
Proof.
  intros size Hc E Hf Hds Hos Hsz Hsplit Hasync Ht.
  pose proof (fun x => taken_state_size p l1 b l2 size bs ds os async p' x Hc E Ht) as Hsame.
  destruct Ht as [F B L Pf Sf Pa Sa As]. pose proof (same_frame_mtop _ _ F) as Ft.
  destruct F as (_ & _ & Fb & _ & _ & Fs).
  destruct (async_total_le p Hc) as [Htot Hbig]. pose proof (wf_async _ Hc) as Hsum.
  pose proof (wf_async_pos _ Hc) as Hpos.
  pose proof (buffer_request_range ds os) as Hr. fold size in Hr.
  assert (free_async_space p' =
    free_async_space p - (if async then size + sizeof_binder_buffer else 0)) as As'.
  { rewrite As. destruct async; [|lia]. specialize (Hasync eq_refl).
    unfold sizeof_binder_buffer in *. rewrite u64_small; lia. }
  split; [|done]. split; rewrite ?Fb, ?Fs, ?Ft; try done; try apply Hc.
  - rewrite B, <- (wf_first _ Hc), E. by destruct l1.
  - intros x Hx Hxf. rewrite B in Hx.
    apply elem_of_app in Hx as [Hx|[->|[Hx|Hx]%elem_of_app]%elem_of_cons].
    + rewrite Hsame by set_solver. apply Hc; [rewrite E; set_solver|done].
    + simpl. split; [done|]. split; [done|].
      assert (layout (mtop p') (buffers p')) as L' by (by rewrite Ft).
      pose proof (binder_buffer_size_split p' l1 _ _ B L') as Esz. simpl in Esz. rewrite Esz.
      rewrite (binder_buffer_size_split p l1 b l2) in Hsz by (done || apply Hc).
      rewrite Ft. simpl. fold size. destruct (bs =? size); simpl in *; [done|].
      unfold buffer_data. lia.
    + destruct (bs =? size); simpl in Hx; [by apply not_elem_of_nil in Hx|].
      apply list_elem_of_singleton in Hx as ->. done.
    + rewrite Hsame by set_solver. apply Hc; [rewrite E; set_solver|done].
  - rewrite As', B. rewrite E in Hsum. rewrite async_total_app in *. simpl in *.
    rewrite async_total_app, split_rest_async. unfold async_charge in *.
    rewrite Hf in Hsum. simpl in *. fold size. destruct async; lia.
  - rewrite As'. destruct async; [|lia]. specialize (Hasync eq_refl). lia.
Qed.

(** ** [binder_alloc_buf] *)

(** The grounds on which the allocator may refuse. *)
Definition alloc_refused (K : kernel_mm) (p : proc_mem) (ds os : Z) (async : bool) : Prop :=
  let size := buffer_request ds os in
  vma p = None \/ size < ds \/ size < os \/
  (async = true /\ free_async_space p < u64 (size + sizeof_binder_buffer)) \/
  (forall b, b ∈ buffers p -> b_free b = true -> binder_buffer_size p (b_addr b) < size) \/
  pages_failed K p None.

(** What a successful allocation does: [b], the smallest free buffer that fits,
    is handed out; the space left over becomes a free buffer when a header and
    more than four bytes fit in it. *)
Record alloc_effect (p : proc_mem) (ds os : Z) (async : bool) (l1 : list binder_buffer)
    (b : binder_buffer) (l2 : list binder_buffer) (p' : proc_mem) : Prop := {
  ae_buffers : buffers p = l1 ++ b :: l2;
  ae_free : b_free b = true;
  ae_fits : 0 <= ds <= buffer_request ds os /\ 0 <= os <= buffer_request ds os /\
    buffer_request ds os <= binder_buffer_size p (b_addr b);
  ae_best c : c ∈ buffers p -> b_free c = true ->
    buffer_request ds os <= binder_buffer_size p (b_addr c) ->
    binder_buffer_size p (b_addr b) <= binder_buffer_size p (b_addr c);
  ae_after : buffers p' = l1 ++ taken ds os async b ::
    split_rest (b_addr b) (buffer_request ds os)
      (buffer_request ds os + sizeof_binder_buffer + 4 <? binder_buffer_size p (b_addr b))
    ++ l2;
  ae_frame : vma p' = vma p /\ vma_vm_mm p' = vma_vm_mm p /\ buffer p' = buffer p /\
    user_buffer_offset p' = user_buffer_offset p /\ buffer_size p' = buffer_size p;
  ae_async : free_async_space p' = free_async_space p -
    (if async then buffer_request ds os + sizeof_binder_buffer else 0)
}.

Lemma mtop_aligned p : mem_core p -> mtop p mod PAGE_SIZE = 0.
Proof.
  intros Hc. destruct (wf_base _ Hc) as [_ H1], (wf_size _ Hc) as [_ H2].
  unfold mtop, PAGE_SIZE in *. Z.to_euclidean_division_equations. lia.
Qed.

Lemma free_buffer_at p a : mem_core p -> a ∈ inorder (free_buffers p) ->
  exists l1 b l2, buffers p = l1 ++ b :: l2 /\ b_addr b = a /\ b_free b = true.
Proof.
  intros Hc. rewrite (wf_free_perm _ Hc).
  intros (b & (l1 & l2 & E)%list_elem_of_split & Ea & Hf)%elem_of_free_addrs.
  by exists l1, b, l2.
Qed.

Lemma fit_choice_of size sz : size <= sz -> forall exact : bool,
  (exact = true -> sz = size) -> (exact = false -> size < sz) ->
  let bs := if exact then sz
            else if sz <=? size + sizeof_binder_buffer + 4 then size
            else size + sizeof_binder_buffer in
  fit_choice size sz bs /\ negb (bs =? size) = (size + sizeof_binder_buffer + 4 <? sz).
Proof.
  intros Hle [] He Hn; simpl; unfold fit_choice, sizeof_binder_buffer in *.
  - rewrite He by done. split; [left; lia|]. lia.
  - destruct (Z.leb_spec sz (size + (16 + 24 + 8 + 8 + 8 + 8 + 8) + 4)).
    + split; [left; lia|]. lia.
    + split; [right; lia|]. lia.
Qed.

(** Mapping the pages of the chosen buffer and taking it. *)
Lemma alloc_take K p l1 b l2 ds os async bs :
  let size := buffer_request ds os in
  let sz := binder_buffer_size p (b_addr b) in
  let data := buffer_data (b_addr b) in
  let end_page := PAGE_ALIGN (data + bs) in
  let has_page := Z.land (data + sz) PAGE_MASK in
  mem_wf p -> buffers p = l1 ++ b :: l2 -> b_free b = true ->
  0 <= ds <= size -> 0 <= os <= size -> size <= sz -> fit_choice size sz bs ->
  (async = true -> size + sizeof_binder_buffer <= free_async_space p) ->
  let r := binder_update_page_range K p true (PAGE_ALIGN data)
    (if has_page <? end_page then has_page else end_page) None in
  (r = Ret (- ENOMEM, p) /\ pages_failed K p None) \/
  exists q p', r = Ret (0, q) /\ take_buffer q (b_addr b) size bs ds os async = Ret p' /\
    mem_wf p' /\ same_frame q p' /\ buffers p' = l1 ++ taken ds os async b ::
      split_rest (b_addr b) size (negb (bs =? size)) ++ l2 /\
    (exists s, q = set_pages p s) /\
    free_async_space p' = free_async_space p -
      (if async then size + sizeof_binder_buffer else 0).
Proof.
  intros size sz data end_page has_page Hwf E Hf Hds Hos Hsz Hbs Hasync.
  pose proof (wf_core _ Hwf) as Hc.
  pose proof (mtop_aligned p Hc) as Ht. destruct (wf_base _ Hc) as [_ Hb].
  pose proof (wf_layout _ Hc) as Hl.
  pose proof (binder_buffer_size_split p l1 b l2 E Hl) as Esz. fold sz data in Esz.
  assert (has_page = Z.land (next_addr (mtop p) l2) PAGE_MASK) as Ehp
    by (unfold has_page; f_equal; lia).
  destruct (page_up data) as (k1 & E1 & _), (page_up (data + bs)) as (k2 & E2 & _),
    (page_down (next_addr (mtop p) l2)) as (k3 & E3 & _).
  assert (exists kb, buffer p = 4096 * kb) as [kb Ekb].
  { exists (buffer p / 4096). unfold PAGE_SIZE in Hb. Z.to_euclidean_division_equations. lia. }
  set (i := k1 - kb). set (j := Z.min k3 k2 - kb).
  assert (PAGE_ALIGN data = buffer p + PAGE_SIZE * i) as Ei by (unfold PAGE_SIZE; lia).
  assert (Z.min has_page end_page = buffer p + PAGE_SIZE * j) as Ej
    by (rewrite Ehp; unfold end_page, PAGE_SIZE; lia).
  rewrite Ehp in Ej.
  rewrite E in Hl. destruct (pages_taken (buffer p) (mtop p) l1 b l2 (taken ds os async b)
    size bs i j) as [Hnew Hused]; try done.
  { fold data. pose proof (buffer_request_range ds os). fold size in H. lia. }
  { unfold fit_choice in Hbs. fold data. lia. }
  pose proof (wf_pages _ Hwf) as Hpages. unfold pages_ok in Hpages. rewrite E in Hpages.
  replace (if has_page <? end_page then has_page else end_page)
    with (buffer p + PAGE_SIZE * j)
    by (rewrite <- Ej, <- Ehp; destruct (Z.ltb_spec has_page end_page); lia).
  rewrite Ei. intros r.
  destruct (update_pages_alloc K p i j None) as [Hr|[Hr Hfail]];
    [intros k Hk; rewrite Hpages; by apply Hnew| |by left].
  right. eexists. fold r in Hr.
  match type of Hr with _ = Ret (_, ?x) => set (q := x) in * end.
  assert (mem_core q) as Hcq by (by apply mem_core_set_pages).
  destruct (take_buffer_state q l1 b l2 size bs ds os async) as (p' & Et & Hst); try done;
    [by apply buffer_request_range|by apply buffer_request_aligned|by apply fit_choice_split|].
  destruct (taken_state_core q l1 b l2 bs ds os async p') as [Hcp' Hfa]; try done;
    [by apply fit_choice_split|].
  destruct Hst as [F B _ _ _ _ _ _]. pose proof (same_frame_mtop _ _ F) as Ft.
  exists p'. split; [exact Hr|]. split; [done|]. split; [|by split; [|split; [|split; [eexists|]]]].
  split; [done| |].
  - rewrite B. eapply coalesced_taken; [rewrite <- E; apply Hwf|done|done].
  - intros k. rewrite Ft, B. destruct F as (_ & _ & -> & _ & -> & _).
    change (mtop q) with (mtop p). change (buffer q) with (buffer p). rewrite Hused.
    unfold q. simpl. rewrite elem_of_union, Hpages, elem_of_prange.
    split; (intros [?|?]; [by left|right; lia]).
Qed.

Lemma binder_alloc_buf_spec K p ds os async :
  mem_wf p -> 0 <= ds -> 0 <= os ->
  (binder_alloc_buf K p ds os async = Ret (None, p) /\ alloc_refused K p ds os async) \/
  exists l1 b l2 p', binder_alloc_buf K p ds os async = Ret (Some (b_addr b), p') /\
    mem_wf p' /\ alloc_effect p ds os async l1 b l2 p'.
Proof.
  intros Hwf Hds Hos. pose proof (wf_core _ Hwf) as Hc.
  unfold binder_alloc_buf, alloc_refused. set (size := buffer_request ds os).
  destruct (vma p) eqn:Ev; [|tauto].
  destruct (Z.ltb_spec size ds); [tauto|]. destruct (Z.ltb_spec size os); [tauto|]. simpl.
  destruct (async && _) eqn:Ea.
  { apply andb_true_iff in Ea as [-> Ea]. apply Z.ltb_lt in Ea. tauto. }
  assert (forall a, a ∈ inorder (free_buffers p) -> a ∈ free_addrs (buffers p)) as Hin
    by (intros a; by rewrite (wf_free_perm _ Hc)).
  assert (exists o exact, best_fit_walk p size (free_buffers p) None = Ret (o, exact) /\
    match o with
    | Some a => a ∈ inorder (free_buffers p) /\ size <= binder_buffer_size p a /\
        (exact = true -> binder_buffer_size p a = size) /\
        (exact = false -> size < binder_buffer_size p a) /\
        forall y, y ∈ inorder (free_buffers p) -> size <= binder_buffer_size p y ->
          binder_buffer_size p a <= binder_buffer_size p y
    | None => forall y, y ∈ inorder (free_buffers p) -> binder_buffer_size p y < size
    end) as (o & exact & -> & Ho).
  { destruct (best_fit_walk_spec p size (free_buffers p) None)
      as [(a & -> & ? & ?)|[(a & -> & ? & ? & ?)|(-> & ?)]]; try done; try apply Hc.
    - exists (Some a), true. repeat split; try done; intros; lia.
    - exists (Some a), false. repeat split; try done; lia.
    - by exists None, false. }
  simpl. destruct o as [a|]; [|left; split; [done|]].
  2:{ do 4 right. left. intros b Hb Hf. apply Ho. rewrite (wf_free_perm _ Hc).
      apply elem_of_free_addrs. eauto. }
  destruct Ho as (Hina & Hle & Hex & Hnex & Hbest).
  destruct (free_buffer_at p a Hc Hina) as (l1 & b & l2 & E & <- & Hf).
  destruct (fit_choice_of size _ Hle exact Hex Hnex) as [Hfit Hsplit].
  match type of Hfit with fit_choice _ _ ?x => set (bs := x) in * end.
  assert (async = true -> size + sizeof_binder_buffer <= free_async_space p) as Has.
  { intros ->. simpl in Ea. apply Z.ltb_ge in Ea.
    assert (size + sizeof_binder_buffer < 2 ^ 64).
    { destruct (wf_size _ Hc) as [Hs _]. unfold SZ_4M in Hs.
      rewrite (binder_buffer_size_split p l1 b l2) in Hle by (done || apply Hc).
      pose proof (wf_layout _ Hc) as Hl. pose proof (wf_top _ Hc) as Htop.
      destruct (wf_base _ Hc) as [Hb _].
      destruct (buffer_range p b Hc ltac:(rewrite E; set_solver)) as [Hba _].
      rewrite E in Hl. apply layout_app in Hl as (_ & _ & _ & Hl2).
      apply layout_next_top in Hl2. unfold buffer_data, sizeof_binder_buffer, PAGE_SIZE in *. lia. }
    rewrite u64_small in Ea; [done|]. unfold sizeof_binder_buffer in *. lia. }
  destruct (alloc_take K p l1 b l2 ds os async bs)
    as [[-> Hfail]|(q & p' & -> & Et & Hwf' & F & B & [s Eq] & Hfa)]; try done; try (fold size; lia).
  - left. simpl. split; [done|]. tauto.
  - right. exists l1, b, l2, p'. simpl. fold size in Et. rewrite Et. simpl.
    split; [done|]. split; [done|]. fold size in B. rewrite Hsplit in B.
    split; try done.
    + intros c Hc' Hcf Hcs. apply Hbest; [|done]. rewrite (wf_free_perm _ Hc).
      apply elem_of_free_addrs. eauto.
    + subst q. unfold same_frame in F. simpl in F. tauto.
Qed.

End WithTrees.
