(* ===== verification/BufferRelease.v ===== *)
(** * BufferRelease: what [binder_free_buf] does to a well-formed area *)

From S2P Require Import Prelude RbTree BufferAlloc BufferList BufferInv BufferTake.

(** ** The pages under a header *)

Section Header.
Context (base top : Z) (l1 : list binder_buffer) (c x : binder_buffer)
  (l2 : list binder_buffer).
Context (Hbase : base mod PAGE_SIZE = 0)
  (Hl : layout top (l1 ++ c :: x :: l2)) (Hc : b_free c = true) (Hx : b_free x = true).

Let layout_x : layout top ((l1 ++ [c]) ++ x :: l2).
Proof. by rewrite <- app_assoc. Qed.

Lemma others_remaining i :
  page_used base (occ top (l1 ++ c :: l2)) i <-> others base top (l1 ++ [c]) x l2 i.
Proof.
  unfold others. rewrite !occ_app. simpl. rewrite Hc, !page_used_app.
  rewrite !page_used_cons. assert (~ page_used base [] i) as Hn
    by (unfold page_used; setoid_rewrite elem_of_nil; naive_solver). tauto.
Qed.

Lemma used_with_header i :
  page_used base (occ top (l1 ++ c :: x :: l2)) i <->
  others base top (l1 ++ [c]) x l2 i \/
  touches base i (b_addr x, b_addr x + sizeof_binder_buffer).
Proof.
  change (c :: x :: l2) with ([c] ++ x :: l2). rewrite app_assoc.
  rewrite (used_around base top (l1 ++ [c]) x l2 x []) by done. simpl.
  rewrite Hx, page_used_cons. assert (~ page_used base [] i) as Hn
    by (unfold page_used; setoid_rewrite elem_of_nil; naive_solver). tauto.
Qed.

(** A page under the header of [x] is shared exactly with the header before or
    the header after. *)
Lemma header_page_shared i :
  touches base i (b_addr x, b_addr x + sizeof_binder_buffer) ->
  others base top (l1 ++ [c]) x l2 i <->
  base + PAGE_SIZE * i < b_addr c + sizeof_binder_buffer \/
  (l2 <> [] /\ next_addr top l2 < base + PAGE_SIZE * (i + 1)).
Proof.
  unfold touches; simpl; intros [Ht1 Ht2].
  pose proof (layout_before (l1 ++ [c]) x top l2 c layout_x ltac:(set_solver)) as Hcx.
  pose proof (around_bounds top (l1 ++ [c]) x l2 layout_x) as (HN & Hl1 & Hl2).
  unfold others. rewrite occ_app. simpl. rewrite Hc, page_used_app, page_used_cons.
  apply layout_app in Hl1 as [Hl1 _]. simpl in Hl1.
  assert (page_used base (occ (b_addr c) l1) i ->
    base + PAGE_SIZE * i < b_addr c + sizeof_binder_buffer) as H1.
  { intros (iv & Hiv & _ & H2). destruct (occ_bounds _ _ _ Hl1 Hiv).
    unfold sizeof_binder_buffer in *. lia. }
  assert (~ page_used base [] i) as Hn
    by (unfold page_used; setoid_rewrite elem_of_nil; naive_solver).
  assert (page_used base (occ top l2) i <->
    l2 <> [] /\ next_addr top l2 < base + PAGE_SIZE * (i + 1)) as H2.
  { split.
    - intros (iv & Hiv & Hlt & _). split; [intros ->; by apply not_elem_of_nil in Hiv|].
      destruct (occ_bounds _ _ _ Hl2 Hiv). lia.
    - intros [Hne Hlt]. destruct l2 as [|n l2']; [done|]. simpl in *.
      apply page_used_cons. left. unfold touches; simpl.
      destruct (b_free n); unfold sizeof_binder_buffer in *; lia. }
  rewrite H2. unfold touches; simpl. unfold sizeof_binder_buffer in *.
  split; [intuition lia|]. intros [?|?]; [|tauto]. left. right. left. lia.
Qed.

End Header.

(** The flag computation of [binder_delete_free_buffer] on page numbers: [s] and
    [e] are the first and last page of the header, [q] the last page of the
    previous header, [n] the first page of the next one. *)
Lemma delete_pages_flags (O : Z -> Prop) s e q (n : option Z) kb base :
  q <= s -> s <= e <= s + 1 -> match n with Some n => e <= n | None => True end ->
  base = 4096 * kb ->
  (forall k, k + kb = s \/ k + kb = e ->
     (O k <-> k + kb = q \/ match n with Some n => k + kb = n | None => False end)) ->
  let shares_prev := 4096 * q =? 4096 * s in
  let fs := negb shares_prev in
  let fe := negb (shares_prev && (4096 * q =? 4096 * e)) in
  let flags := match n with
    | None => (fs, fe)
    | Some n => if 4096 * n =? 4096 * e
                then (if 4096 * n =? 4096 * s then false else fs, false) else (fs, fe)
    end in
  exists i j,
    (if flags.1 then 4096 * s else 4096 * e) = base + 4096 * i /\
    (if flags.2 then 4096 * e else 4096 * s) + 4096 = base + 4096 * j /\
    (flags.1 || flags.2 = true ->
      (forall k, i <= k < j -> O k \/ s <= k + kb <= e) /\
      (forall k, O k <-> (O k \/ s <= k + kb <= e) /\ ~ (i <= k < j))) /\
    (flags.1 || flags.2 = false -> forall k, O k <-> O k \/ s <= k + kb <= e).
Proof.
  intros Hq Hse Hn -> HO shares_prev fs fe flags.
  exists ((if flags.1 then s else e) - kb), ((if flags.2 then e else s) + 1 - kb).
  split; [destruct flags.1; lia|]. split; [destruct flags.2; lia|].
  assert (forall k, {k + kb = s} + {k + kb = e} + {~ (s <= k + kb <= e)}) as Hk.
  { intros k. destruct (decide (k + kb = s)), (decide (k + kb = e)); auto.
    right. lia. }
  subst flags fs fe shares_prev.
  destruct (Z.eqb_spec (4096 * q) (4096 * s)), (Z.eqb_spec (4096 * q) (4096 * e));
    destruct n as [n|]; simpl;
    try (destruct (Z.eqb_spec (4096 * n) (4096 * e)), (Z.eqb_spec (4096 * n) (4096 * s)); simpl);
    (split; [intros Hf; try discriminate Hf; split; intros k|intros Hf; try discriminate Hf; intros k]);
    (destruct (Hk k) as [[Ek|Ek]|Ek];
      [rewrite (HO k (or_introl Ek)); lia|rewrite (HO k (or_intror Ek)); lia|clear HO; intuition lia]).
Qed.

(** The page range [binder_delete_free_buffer] unmaps: indices [i .. j-1]. *)
Lemma delete_pages base top l1 c x l2 :
  base mod PAGE_SIZE = 0 -> layout top (l1 ++ c :: x :: l2) ->
  b_free c = true -> b_free x = true ->
  let flags := free_page_flags (b_addr c) (b_addr x) (b_addr <$> head l2) in
  exists i j,
    (if flags.1 then buffer_start_page (b_addr x) else buffer_end_page (b_addr x)) =
      base + PAGE_SIZE * i /\
    (if flags.2 then buffer_end_page (b_addr x) else buffer_start_page (b_addr x)) + PAGE_SIZE =
      base + PAGE_SIZE * j /\
    (flags.1 || flags.2 = true ->
      (forall k, i <= k < j -> page_used base (occ top (l1 ++ c :: x :: l2)) k) /\
      (forall k, page_used base (occ top (l1 ++ c :: l2)) k <->
         page_used base (occ top (l1 ++ c :: x :: l2)) k /\ ~ (i <= k < j))) /\
    (flags.1 || flags.2 = false ->
      forall k, page_used base (occ top (l1 ++ c :: l2)) k <->
        page_used base (occ top (l1 ++ c :: x :: l2)) k).
Proof.
  intros Hb Hl Hc Hx flags.
  pose proof (header_page_shared base top l1 c x l2 Hb Hl Hc Hx) as Hsh.
  setoid_rewrite (others_remaining base top l1 c x l2 Hc).
  setoid_rewrite (used_with_header base top l1 c x l2 Hx).
  assert (b_addr c + sizeof_binder_buffer <= b_addr x) as Hcx.
  { apply layout_app in Hl as [_ (_ & ? & _)]. done. }
  assert (b_addr x + sizeof_binder_buffer <= next_addr top l2) as HxN.
  { apply layout_app in Hl as [_ (_ & _ & _ & ? & _)]. done. }
  assert (exists kb, base = 4096 * kb) as [kb Ekb].
  { exists (base / 4096). unfold PAGE_SIZE in Hb. Z.to_euclidean_division_equations. lia. }
  unfold touches in *; simpl in *.
  assert (exists n : option Z, b_addr <$> head l2 = n /\
    match n with Some a => l2 <> [] /\ next_addr top l2 = a | None => l2 = [] end)
    as (n & En & Hn) by (destruct l2; eexists; split; done).
  subst flags. rewrite En. clear En. unfold free_page_flags, buffer_start_page, buffer_end_page.
  destruct (page_down (b_addr x)) as (s & Es & Hs),
    (page_down (b_addr x + sizeof_binder_buffer - 1)) as (e & Ee & He),
    (page_down (b_addr c + sizeof_binder_buffer - 1)) as (q & Eq & Hq).
  rewrite Es, Ee, Eq. unfold PAGE_SIZE, sizeof_binder_buffer in *.
  generalize dependent (others base top (l1 ++ [c]) x l2). intros O Hsh.
  assert (forall k, k + kb = s \/ k + kb = e ->
    (O k <-> k + kb = q \/ (l2 <> [] /\ next_addr top l2 < base + 4096 * (k + 1)))) as HO.
  { intros k Hk. rewrite Hsh by lia. split; (intros [?|?]; [left; lia|by right]). }
  assert (forall k, (b_addr x < base + 4096 * (k + 1) /\
    base + 4096 * k < b_addr x + (16 + 24 + 8 + 8 + 8 + 8 + 8)) <-> s <= k + kb <= e) as Ht
    by (intros; lia).
  setoid_rewrite Ht. clear Hsh Ht.
  destruct n as [a|]; [destruct Hn as [Hne HN]; rewrite HN in HxN; destruct (page_down a) as (n & En' & Hn');
    rewrite En'|subst l2].
  - assert (forall k, k + kb = s \/ k + kb = e -> (O k <-> k + kb = q \/ k + kb = n)) as HO'.
    { intros k Hk. rewrite HO by done. rewrite HN.
      split; [intros [?|[_ ?]]; [by left|right; lia]|].
      intros [?|?]; [by left|right; split; [done|lia]]. }
    clear HO. apply (delete_pages_flags O s e q (Some n) kb base); try lia; try done.
  - assert (forall k, k + kb = s \/ k + kb = e -> (O k <-> k + kb = q)) as HO'.
    { intros k Hk. rewrite HO by done. naive_solver. }
    clear HO. apply (delete_pages_flags O s e q None kb base); try lia; try done.
    intros k Hk. rewrite HO' by done. tauto.
Qed.

(** The pages [binder_free_buf] unmaps first: those entirely inside the data. *)
Lemma pages_data_released base top l1 b b' l2 i j :
  base mod PAGE_SIZE = 0 -> top mod PAGE_SIZE = 0 -> layout top (l1 ++ b :: l2) ->
  b_free b = false -> b_addr b' = b_addr b -> b_free b' = true ->
  PAGE_ALIGN (buffer_data (b_addr b)) = base + PAGE_SIZE * i ->
  Z.land (next_addr top l2) PAGE_MASK = base + PAGE_SIZE * j ->
  (forall k, i <= k < j -> page_used base (occ top (l1 ++ b :: l2)) k) /\
  (forall k, page_used base (occ top (l1 ++ b' :: l2)) k <->
     page_used base (occ top (l1 ++ b :: l2)) k /\ ~ (i <= k < j)).
Proof.
  intros Hb Ht Hl Hf Ea Hf' Ei Ej.
  pose proof (around_bounds top l1 b l2 Hl) as (HN & _ & _).
  assert (forall c, b_addr c = b_addr b -> forall k,
    page_used base (occ top (l1 ++ c :: l2)) k <-> others base top l1 b l2 k \/
    touches base k (b_addr b, if b_free c then b_addr b + sizeof_binder_buffer
                              else next_addr top l2)) as Hused.
  { intros c Hc k. rewrite (used_around base top l1 b l2 c []) by done. simpl.
    assert (~ page_used base [] k) as Hn
      by (unfold page_used; setoid_rewrite elem_of_nil; naive_solver).
    rewrite page_used_cons, Hc. tauto. }
  setoid_rewrite (Hused b eq_refl). setoid_rewrite (Hused b' Ea).
  rewrite Hf, Hf'. set (N := next_addr top l2) in *.
  destruct (page_up (buffer_data (b_addr b))) as (k1 & E1 & Hk1), (page_down N) as (k2 & E2 & Hk2).
  rewrite E1 in Ei. rewrite E2 in Ej.
  assert (forall k, i <= k < j -> ~ others base top l1 b l2 k) as Hin.
  { intros k Hk. apply others_inside; [done|..]; fold N;
      unfold buffer_data, sizeof_binder_buffer, PAGE_SIZE in *; lia. }
  assert (forall k, base + PAGE_SIZE * k < N -> N < base + PAGE_SIZE * (k + 1) ->
    others base top l1 b l2 k) as Hnext by (intros; by apply others_next).
  unfold touches, buffer_data, sizeof_binder_buffer, PAGE_SIZE in *; simpl.
  split; [intros k Hk; right; lia|]. intros k. specialize (Hin k).
  specialize (Hnext k). clear Hused.
  destruct (decide (base + 4096 * k < N)), (decide (N < base + 4096 * (k + 1))); intuition lia.
Qed.

(** ** The states inside [binder_free_buf] *)

Section WithTrees.
Context `{RL : RbLib}.

Lemma delete_free_spec K p l1 c x l2 :
  buffer p mod PAGE_SIZE = 0 -> layout (mtop p) (buffers p) -> pages_ok p ->
  buffers p = l1 ++ c :: x :: l2 -> b_free c = true -> b_free x = true ->
  exists s, let p' := set_pages (set_buffers p (l1 ++ c :: l2)) s in
    binder_delete_free_buffer K p (b_addr x) = Ret p' /\ pages_ok p'.
Proof.
  intros Hb Hl Hp E Hc Hx. rewrite E in Hl.
  assert (layout (mtop p) ((l1 ++ [c]) ++ x :: l2)) as Hl' by (by rewrite <- app_assoc).
  pose proof (layout_fresh_l _ _ _ _ Hl') as Hf1.
  pose proof (layout_fresh_r _ _ _ _ Hl') as Hf2.
  unfold pages_ok in Hp. rewrite E in Hp.
  assert (l1 ++ c :: x :: l2 = (l1 ++ [c]) ++ x :: l2) as Eapp by (by rewrite <- app_assoc).
  unfold binder_delete_free_buffer. rewrite E, Eapp.
  rewrite list_prev_split, last_snoc by done. simpl. rewrite Hc. simpl.
  rewrite list_after_split, list_del_buffer_split by done.
  rewrite <- app_assoc. simpl.
  destruct (delete_pages (buffer p) (mtop p) l1 c x l2) as (i & j & Ei & Ej & Hyes & Hno);
    [done..|].
  destruct (free_page_flags _ _ _) as [fs fe]. simpl in *. rewrite Ei, Ej.
  destruct (fs || fe).
  - destruct (Hyes eq_refl) as [Hin Hused].
    destruct (update_pages_free K (set_buffers p (l1 ++ c :: l2)) i j None) as [e He];
      [intros k Hk; apply Hp; by apply Hin|].
    simpl in He. rewrite He. simpl. eexists. split; [done|]. intros k. simpl.
    change (mtop _) with (mtop p). rewrite Hused, <- Hp, elem_of_difference, elem_of_prange.
    split; (intros [? Hk]; split; [done|intros ?; apply Hk; lia]).
  - exists (pages p). split; [done|]. intros k. simpl. change (mtop _) with (mtop p).
    by rewrite (Hno eq_refl), <- Hp.
Qed.

(** [b] is free but in neither tree; everything else is as in [mem_core], and
    the list on either side is coalesced. *)
Record releasing (p : proc_mem) (l1 : list binder_buffer) (b : binder_buffer)
    (l2 : list binder_buffer) : Prop := {
  rl_base : 0 < buffer p /\ buffer p mod PAGE_SIZE = 0;
  rl_size : 0 < buffer_size p <= SZ_4M /\ buffer_size p mod PAGE_SIZE = 0;
  rl_top : mtop p <= 2 ^ 64 - PAGE_SIZE;
  rl_buffers : buffers p = l1 ++ b :: l2;
  rl_free : b_free b = true;
  rl_first : next_addr 0 (buffers p) = buffer p;
  rl_layout : layout (mtop p) (buffers p);
  rl_fit x : x ∈ l1 ++ l2 -> b_free x = false ->
    0 <= b_data_size x <= buffer_request (b_data_size x) (b_offsets_size x) /\
    0 <= b_offsets_size x <= buffer_request (b_data_size x) (b_offsets_size x) /\
    buffer_request (b_data_size x) (b_offsets_size x) <= binder_buffer_size p (b_addr x);
  rl_free_perm : inorder (free_buffers p) ≡ₚ free_addrs l1 ++ free_addrs l2;
  rl_free_sorted : sorted_by (binder_buffer_size p) (inorder (free_buffers p));
  rl_alloc_perm : inorder (allocated_buffers p) ≡ₚ alloc_addrs l1 ++ alloc_addrs l2;
  rl_alloc_sorted : sorted_by_lt (fun a => a) (inorder (allocated_buffers p));
  rl_async : free_async_space p + (async_total l1 + async_total l2) = buffer_size p / 2;
  rl_async_pos : 0 <= free_async_space p;
  rl_coalesced1 : coalesced false l1;
  rl_coalesced2 : coalesced false l2;
  rl_pages : pages_ok p
}.

(** Sizes away from [x] and from its predecessor survive its removal. *)
Lemma remove_size p p' l1 c x l2 y :
  layout (mtop p) (buffers p) -> buffers p = l1 ++ c :: x :: l2 ->
  buffers p' = l1 ++ c :: l2 -> buffer p' = buffer p -> buffer_size p' = buffer_size p ->
  y <> b_addr c -> y <> b_addr x ->
  binder_buffer_size p' y = binder_buffer_size p y.
Proof.
  intros Hl E E' Fb Fs Hyc Hyx. rewrite !binder_buffer_size_data_end, E, E', Fb, Fs.
  f_equal. symmetry. apply (data_end_replace _ l1 [c; x] [c]); [done| | |apply fresh_or_in];
    repeat (apply fresh_in_cons; split); try apply not_elem_of_nil; congruence.
Qed.

Lemma layout_remove top l1 c x l2 :
  layout top (l1 ++ c :: x :: l2) -> layout top (l1 ++ c :: l2).
Proof.
  rewrite !layout_app. simpl. intros (H1 & H2 & H3 & H4 & H5 & H6).
  repeat split; try done. unfold sizeof_binder_buffer in *. lia.
Qed.

Lemma in_neq_addr top l1 b l2 y :
  layout top (l1 ++ b :: l2) -> y ∈ addrs l1 ++ addrs l2 -> y <> b_addr b.
Proof.
  intros Hl [Hy|Hy]%elem_of_app ->; [by eapply layout_fresh_l|by eapply layout_fresh_r].
Qed.

(** Two neighbouring free buffers [c] and [x], one of which ([z]) is still in
    the free tree: removing [x] and erasing [z] leaves [c] to be inserted. *)
Record free_pair (p : proc_mem) (l1 : list binder_buffer) (c x : binder_buffer)
    (l2 : list binder_buffer) (z : Z) : Prop := {
  fp_core : exists L1 B L2, releasing p L1 B L2;
  fp_buffers : buffers p = l1 ++ c :: x :: l2;
  fp_free : b_free c = true /\ b_free x = true;
  fp_z : z = b_addr c \/ z = b_addr x;
  fp_fit y : y ∈ l1 ++ l2 -> b_free y = false ->
    0 <= b_data_size y <= buffer_request (b_data_size y) (b_offsets_size y) /\
    0 <= b_offsets_size y <= buffer_request (b_data_size y) (b_offsets_size y) /\
    buffer_request (b_data_size y) (b_offsets_size y) <= binder_buffer_size p (b_addr y);
  fp_perm : inorder (free_buffers p) ≡ₚ z :: free_addrs l1 ++ free_addrs l2;
  fp_alloc : inorder (allocated_buffers p) ≡ₚ alloc_addrs l1 ++ alloc_addrs l2;
  fp_async : free_async_space p + (async_total l1 + async_total l2) = buffer_size p / 2;
  fp_coalesced : coalesced false l1 /\ coalesced false l2
}.

Lemma pair_addrs top l1 c x l2 y :
  layout top (l1 ++ c :: x :: l2) -> y ∈ addrs l1 ++ addrs l2 ->
  y <> b_addr c /\ y <> b_addr x.
Proof.
  intros Hl Hy. split.
  - apply (in_neq_addr _ _ _ _ _ Hl). rewrite elem_of_app in *. set_solver.
  - change (c :: x :: l2) with ([c] ++ x :: l2) in Hl. rewrite app_assoc in Hl.
    apply (in_neq_addr _ _ _ _ _ Hl). rewrite addrs_app, !elem_of_app in *. tauto.
Qed.

Lemma free_pair_merge p l1 c x l2 z s :
  free_pair p l1 c x l2 z ->
  let p' := set_free_buffers (set_pages (set_buffers p (l1 ++ c :: l2)) s)
              (rb_erase z (free_buffers p)) in
  pages_ok p' -> releasing p' l1 c l2.
Proof.
  intros [(L1 & B & L2 & H) E [Hc Hx] Hz Hfit Hp Ha Has [Hc1 Hc2]] p' Hpages.
  destruct H as [Hb Hsz Ht _ _ Hf Hl _ _ Hs _ Hsa _ Hpos _ _ _].
  pose proof Hl as Hl'. rewrite E in Hl'.
  assert (forall y, y ∈ addrs l1 ++ addrs l2 ->
    binder_buffer_size p' y = binder_buffer_size p y) as Hsize.
  { intros y Hy. destruct (pair_addrs _ _ _ _ _ _ Hl' Hy).
    by apply (remove_size p p' l1 c x l2). }
  assert (NoDup (z :: free_addrs l1 ++ free_addrs l2)) as Hnd.
  { apply NoDup_cons. split.
    - intros Hin. assert (z ∈ addrs l1 ++ addrs l2) as Hz'.
      { apply elem_of_app in Hin as [Hin|Hin]; apply free_addrs_addrs in Hin;
          apply elem_of_app; tauto. }
      destruct (pair_addrs _ _ _ _ _ _ Hl' Hz'). tauto.
    - rewrite <- free_addrs_app. apply free_addrs_NoDup.
      apply layout_NoDup in Hl'. rewrite addrs_app in Hl' |- *. simpl in Hl'.
      change (b_addr c :: b_addr x :: addrs l2) with ([b_addr c; b_addr x] ++ addrs l2) in Hl'.
      rewrite Permutation_app_swap_app in Hl'. by apply NoDup_app in Hl' as (_ & _ & ?). }
  split; try done.
  - simpl. rewrite E in Hf. by destruct l1.
  - simpl. change (mtop p') with (mtop p). by eapply layout_remove.
  - intros y Hy Hyf. rewrite Hsize; [by apply Hfit|].
    rewrite <- addrs_app. apply elem_of_addrs. eauto.
  - simpl. by apply rb_erase_perm.
  - eapply (sorted_by_ext (binder_buffer_size p)); simpl.
    + intros y Hy. rewrite (rb_erase_perm z _ (free_addrs l1 ++ free_addrs l2)) in Hy by done.
      symmetry. apply Hsize. apply elem_of_app in Hy as [Hy|Hy]; apply free_addrs_addrs in Hy;
        apply elem_of_app; tauto.
    + apply rb_erase_StronglySorted; [by rewrite Hp|rewrite Hp; set_solver|done].
Qed.

(** Fields no part of a release touches after the pages of the data are gone. *)
Definition merge_frame (p p' : proc_mem) : Prop :=
  vma p' = vma p /\ vma_vm_mm p' = vma_vm_mm p /\ buffer p' = buffer p /\
  user_buffer_offset p' = user_buffer_offset p /\ buffer_size p' = buffer_size p /\
  free_async_space p' = free_async_space p.

(** The list after [merge_next]. *)
Definition after_next (l2 : list binder_buffer) : list binder_buffer :=
  match l2 with n :: l2' => if b_free n then l2' else l2 | [] => [] end.

Definition head_busy (l : list binder_buffer) : Prop :=
  match l with n :: _ => b_free n = false | [] => True end.

Lemma after_next_busy l2 : coalesced false l2 -> head_busy (after_next l2).
Proof.
  destruct l2 as [|n [|m l]]; simpl; [done|by destruct (b_free n) eqn:En|].
  intros (_ & H & _). destruct (b_free n) eqn:En; simpl in *; [done|by rewrite En].
Qed.

Lemma merge_next_spec K p l1 b l2 :
  releasing p l1 b l2 -> exists p', merge_next K p (b_addr b) = Ret p' /\
    releasing p' l1 b (after_next l2) /\ merge_frame p p'.
Proof.
  intros H. pose proof (rl_layout _ _ _ _ H) as Hl. pose proof (rl_buffers _ _ _ _ H) as E.
  rewrite E in Hl. pose proof (layout_fresh_l _ _ _ _ Hl) as Hf1.
  unfold merge_next. rewrite E, list_after_split by done.
  destruct l2 as [|n l2]; simpl; [by exists p|].
  destruct (b_free n) eqn:En; [|by exists p].
  assert (free_pair p l1 b n l2 (b_addr n)) as Hpair.
  { pose proof H as H'. destruct H' as [_ _ _ _ Hb _ _ Hfit Hp _ Ha _ Has _ Hc1 Hc2 _].
    rewrite free_addrs_cons, alloc_addrs_cons in *. simpl in Has. unfold async_charge in Has.
    rewrite En in *. simpl in Has, Hc2. split; try done; [by exists l1, b, (n :: l2)|by right| | |].
    - intros y Hy. apply Hfit. set_solver.
    - rewrite Hp. symmetry. apply Permutation_middle.
    - destruct Hc2 as [_ Hc2]. rewrite En in Hc2. split; [done|]. by apply coalesced_weaken. }
  set (p1 := set_free_buffers p (rb_erase (b_addr n) (free_buffers p))).
  destruct (delete_free_spec K p1 l1 b n l2) as (s & -> & Hs);
    [apply (rl_base _ _ _ _ H)|apply (rl_layout _ _ _ _ H)|apply (rl_pages _ _ _ _ H)
    |done|apply (rl_free _ _ _ _ H)|done|].
  eexists. split; [done|]. split; [|done]. by apply (free_pair_merge p l1 b n l2 (b_addr n)).
Qed.

(** The same for the previous buffer: the address to insert and the state. *)
Lemma merge_prev_spec K p l1 b l2 :
  releasing p l1 b l2 -> exists p' l1' b', merge_prev K p (b_addr b) = Ret (b_addr b', p') /\
    releasing p' l1' b' l2 /\ last_free false l1' = false /\ merge_frame p p' /\
    ((l1' = l1 /\ b' = b) \/ (l1 = l1' ++ [b'] /\ b_free b' = true)).
Proof.
  intros H. pose proof (rl_layout _ _ _ _ H) as Hl. pose proof (rl_buffers _ _ _ _ H) as E.
  rewrite E in Hl. pose proof (layout_fresh_l _ _ _ _ Hl) as Hf1.
  unfold merge_prev. rewrite E, list_prev_split by done.
  destruct (last l1) as [c|] eqn:Elast.
  2:{ exists p, l1, b. unfold last_free. rewrite Elast. unfold merge_frame. by intuition auto. }
  destruct (b_free c) eqn:Ec.
  2:{ exists p, l1, b. unfold last_free. rewrite Elast. unfold merge_frame. by intuition auto. }
  apply last_Some in Elast as [l1' ->]. rewrite <- app_assoc in E. simpl in E.
  assert (free_pair p l1' c b l2 (b_addr c)) as Hpair.
  { pose proof H as H'. destruct H' as [_ _ _ _ Hb _ _ Hfit Hp _ Ha _ Has _ Hc1 Hc2 _].
    rewrite free_addrs_app, alloc_addrs_app, async_total_app, coalesced_app,
      free_addrs_cons, alloc_addrs_cons in *. simpl in Has. unfold async_charge in Has.
    rewrite Ec in *. simpl in Has. split; try done; [by exists (l1' ++ [c]), b, l2|by left| | | | |].
    - intros y Hy. apply Hfit. set_solver.
    - rewrite Hp, <- app_assoc. simpl. symmetry. apply Permutation_middle.
    - by rewrite Ha, <- app_assoc.
    - lia.
    - tauto. }
  assert (last_free false l1' = false) as Hlast.
  { pose proof (rl_coalesced1 _ _ _ _ H) as Hc. rewrite coalesced_app in Hc. simpl in Hc.
    rewrite Ec, andb_true_r in Hc. tauto. }
  destruct (delete_free_spec K p l1' c b l2) as (s & -> & Hs);
    [apply (rl_base _ _ _ _ H)|apply (rl_layout _ _ _ _ H)|apply (rl_pages _ _ _ _ H)
    |done|done|apply (rl_free _ _ _ _ H)|].
  simpl. eexists _, l1', c. split; [done|]. split; [|unfold merge_frame; by intuition auto].
  by apply (free_pair_merge p l1' c b l2 (b_addr c)).
Qed.

(** Inserting the coalesced buffer restores the invariant. *)
Lemma releasing_finish p l1 b l2 :
  releasing p l1 b l2 -> head_busy l2 -> last_free false l1 = false ->
  exists t, binder_insert_free_buffer p (b_addr b) = Ret (set_free_buffers p t) /\
    mem_wf (set_free_buffers p t).
Proof.
  intros [Hb Hsz Ht E Hf Hfst Hl Hfit Hp Hs Ha Hsa Has Hpos Hc1 Hc2 Hpg] Hh Hla.
  destruct (insert_free_spec p b) as (t & -> & Hst & Hpt); try done.
  - rewrite E. set_solver.
  - intros y. rewrite Hp, E, free_addrs_app, free_addrs_cons, Hf. set_solver.
  - set (p' := set_free_buffers p t). exists t. split; [done|].
    assert (mem_core p') as Hcore.
    { constructor; try assumption; simpl.
      - intros x Hx Hxf. apply Hfit; [|done]. rewrite E in Hx.
        apply elem_of_app in Hx as [Hx|[->|Hx]%elem_of_cons]; [set_solver|congruence|set_solver].
      - rewrite Hpt, Hp, E, free_addrs_app, free_addrs_cons, Hf. apply Permutation_middle.
      - rewrite Ha, E. by rewrite alloc_addrs_app, alloc_addrs_cons, Hf.
      - rewrite E, async_total_app. simpl. unfold async_charge. rewrite Hf. simpl. lia. }
    constructor; [exact Hcore| |exact Hpg].
    simpl. rewrite E. apply coalesced_app. simpl. rewrite Hla. repeat split; [done|].
    destruct l2 as [|n l2]; simpl in *; [done|]. rewrite Hh in *. rewrite andb_false_r. tauto.
Qed.

(** ** [binder_free_buf] *)

(** [binder_free_buf] up to the two merges. *)
Definition unmap_data (K : kernel_mm) (p : proc_mem) (b : binder_buffer) : res proc_mem :=
  let a := b_addr b in
  let size := buffer_request (b_data_size b) (b_offsets_size b) in
  let p := if b_async_transaction b
           then set_free_async_space p
                  (u64 (free_async_space p + (size + sizeof_binder_buffer)))
           else p in
  let! '(_, p) :=
    binder_update_page_range K p false (PAGE_ALIGN (buffer_data a))
      (Z.land (buffer_data a + binder_buffer_size p a) PAGE_MASK) None in
  let p := set_allocated_buffers p (rb_erase a (allocated_buffers p)) in
  Ret (set_buffers p (update_buffer a (set_free true) (buffers p))).

Lemma alloc_tree_erased p l1 b l2 :
  mem_core p -> buffers p = l1 ++ b :: l2 -> b_free b = false ->
  inorder (rb_erase (b_addr b) (allocated_buffers p)) ≡ₚ alloc_addrs l1 ++ alloc_addrs l2 /\
  sorted_by_lt (fun a => a) (inorder (rb_erase (b_addr b) (allocated_buffers p))).
Proof.
  intros Hc E Hf. pose proof (wf_alloc_perm _ Hc) as Hp.
  assert (NoDup (alloc_addrs (buffers p))) as Hnd.
  { eapply sublist_NoDup; [exact (layout_NoDup _ _ (wf_layout _ Hc))|].
    apply fmap_sublist, sublist_filter. }
  assert (alloc_addrs (buffers p) ≡ₚ b_addr b :: alloc_addrs l1 ++ alloc_addrs l2) as Hp2.
  { rewrite E, alloc_addrs_app, alloc_addrs_cons, Hf. symmetry. apply Permutation_middle. }
  split.
  - apply rb_erase_perm; [by rewrite Hp|]. by rewrite <- Hp2.
  - apply rb_erase_StronglySorted; [by rewrite Hp|rewrite Hp, Hp2; set_solver|].
    apply Hc.
Qed.

Lemma unmap_data_spec K p l1 b l2 :
  mem_wf p -> buffers p = l1 ++ b :: l2 -> b_free b = false ->
  exists p1, unmap_data K p b = Ret p1 /\ releasing p1 l1 (set_free true b) l2 /\
    vma p1 = vma p /\ vma_vm_mm p1 = vma_vm_mm p /\ buffer p1 = buffer p /\
    user_buffer_offset p1 = user_buffer_offset p /\ buffer_size p1 = buffer_size p /\
    free_async_space p1 = free_async_space p + async_charge b.
Proof.
  intros Hwf E Hf. pose proof (wf_core _ Hwf) as Hc. pose proof (wf_pages _ Hwf) as Hpg.
  pose proof (wf_layout _ Hc) as Hl. destruct (wf_base _ Hc) as [Hb0 Hb].
  pose proof (mtop_aligned p Hc) as Ht.
  pose proof (binder_buffer_size_split p l1 b l2 E Hl) as Esz. rewrite E in Hl.
  pose proof (layout_fresh_l _ _ _ _ Hl) as Hf1.
  pose proof (layout_fresh_r _ _ _ _ Hl) as Hf2.
  destruct (alloc_tree_erased p l1 b l2) as [Hpa Hsa]; [done..|].
  pose proof (wf_free_perm _ Hc) as Hpf.
  rewrite E, free_addrs_app, free_addrs_cons, Hf in Hpf.
  pose proof (wf_async _ Hc) as Has. rewrite E, async_total_app in Has. simpl in Has.
  pose proof (wf_async_pos _ Hc) as Hpos. destruct (async_total_le p Hc) as [_ Hbig].
  pose proof (async_total_nonneg p l1 Hc ltac:(rewrite E; set_solver)) as Hn1.
  pose proof (async_total_nonneg p l2 Hc ltac:(rewrite E; set_solver)) as Hn2.
  pose proof (async_total_nonneg p [b] Hc ltac:(rewrite E; set_solver)) as Hnb.
  simpl in Hnb.
  unfold unmap_data; cbv zeta.
  set (credit := if b_async_transaction b
    then set_free_async_space p (u64 (free_async_space p +
           (buffer_request (b_data_size b) (b_offsets_size b) + sizeof_binder_buffer)))
    else p).
  assert (free_async_space credit = free_async_space p + async_charge b) as Ecr.
  { unfold credit, async_charge in *. rewrite Hf in *. simpl in *.
    destruct (b_async_transaction b); simpl in *; [|lia]. rewrite u64_small; lia. }
  assert (credit = set_free_async_space p (free_async_space p + async_charge b)) as ->.
  { rewrite <- Ecr. unfold credit. destruct (b_async_transaction b); by destruct p. }
  destruct (page_up (buffer_data (b_addr b))) as (k1 & E1 & _),
    (page_down (next_addr (mtop p) l2)) as (k2 & E2 & _).
  assert (exists kb, buffer p = 4096 * kb) as [kb Ekb].
  { exists (buffer p / 4096). unfold PAGE_SIZE in Hb. Z.to_euclidean_division_equations. lia. }
  destruct (pages_data_released (buffer p) (mtop p) l1 b (set_free true b) l2 (k1 - kb) (k2 - kb))
    as [Hin Hused]; try done; [rewrite E1; unfold PAGE_SIZE; lia|rewrite E2; unfold PAGE_SIZE; lia|].
  set (p0 := set_free_async_space p (free_async_space p + async_charge b)) in *.
  destruct (update_pages_free K p0 (k1 - kb) (k2 - kb) None) as [e He].
  { intros k Hk. simpl. rewrite (Hpg k), E. by apply Hin. }
  replace (PAGE_ALIGN (buffer_data (b_addr b))) with (buffer p0 + PAGE_SIZE * (k1 - kb))
    by (simpl; rewrite E1; unfold PAGE_SIZE; lia).
  replace (Z.land (buffer_data (b_addr b) + binder_buffer_size p0 (b_addr b)) PAGE_MASK)
    with (buffer p0 + PAGE_SIZE * (k2 - kb)).
  2:{ change (binder_buffer_size p0 _) with (binder_buffer_size p (b_addr b)).
      rewrite Esz, Zplus_minus, E2. simpl. unfold PAGE_SIZE. lia. }
  rewrite He. cbn [res_bind]. eexists. split; [reflexivity|]. cbn [set_allocated_buffers set_buffers
    set_pages buffers vma vma_vm_mm buffer user_buffer_offset buffer_size free_async_space].
  change (buffers p0) with (buffers p). rewrite E, update_buffer_split by done.
  split; [|done].
  match goal with |- releasing ?q _ _ _ => set (p' := q) end.
  assert (forall y, binder_buffer_size p' y = binder_buffer_size p y) as Hsize.
  { intros y. apply binder_buffer_size_ext; [done..|]. rewrite E. simpl.
    by rewrite !addrs_app. }
  constructor.
  - apply Hc.
  - apply Hc.
  - apply Hc.
  - reflexivity.
  - reflexivity.
  - change (buffer p') with (buffer p). rewrite <- (wf_first _ Hc), E. by destruct l1.
  - eapply layout_addrs; [|exact Hl]. simpl. by rewrite !addrs_app.
  - intros x Hx Hxf. rewrite Hsize. apply Hc; [|done]. rewrite E. set_solver.
  - exact Hpf.
  - eapply sorted_by_ext; [|exact (wf_free_sorted _ Hc)]. by intros y _.
  - exact Hpa.
  - exact Hsa.
  - simpl. change (buffer_size p0) with (buffer_size p). lia.
  - simpl. lia.
  - pose proof (wf_coalesced _ Hwf) as Hco. rewrite E, coalesced_app in Hco. tauto.
  - pose proof (wf_coalesced _ Hwf) as Hco. rewrite E, coalesced_app in Hco. simpl in Hco.
    rewrite Hf in Hco. tauto.
  - intros k. change (mtop p') with (mtop p). simpl.
    rewrite Hused, <- E, <- (Hpg k), elem_of_difference, elem_of_prange.
    split; (intros [? Hk]; split; [done|intros ?; apply Hk; lia]).
Qed.

(** What freeing the buffer [b] does to the list: it is merged with its free
    neighbours, and nothing else changes. *)
Definition freed_list (l1 : list binder_buffer) (b : binder_buffer)
    (l2 l' : list binder_buffer) : Prop :=
  (last_free false l1 = false /\ l' = l1 ++ set_free true b :: after_next l2) \/
  exists l0 c, l1 = l0 ++ [c] /\ b_free c = true /\ l' = l0 ++ c :: after_next l2.

Lemma binder_free_buf_spec K p l1 b l2 :
  mem_wf p -> buffers p = l1 ++ b :: l2 -> b_free b = false -> b_transaction b = None ->
  exists p', binder_free_buf K p (b_addr b) = Ret p' /\ mem_wf p' /\
    freed_list l1 b l2 (buffers p') /\
    vma p' = vma p /\ vma_vm_mm p' = vma_vm_mm p /\ buffer p' = buffer p /\
    user_buffer_offset p' = user_buffer_offset p /\ buffer_size p' = buffer_size p /\
    free_async_space p' = free_async_space p + async_charge b.
Proof.
  intros Hwf E Hf Htr. pose proof (wf_core _ Hwf) as Hc.
  pose proof (wf_layout _ Hc) as Hl. pose proof Hl as Hl'. rewrite E in Hl'.
  assert (b ∈ buffers p) as Hin by (rewrite E; set_solver).
  destruct (wf_fit _ Hc b Hin Hf) as (_ & _ & Hfit).
  destruct (buffer_range p b Hc Hin) as [Hlo Hhi].
  destruct (unmap_data_spec K p l1 b l2) as
    (p1 & Eu & Hr & F1 & F2 & F3 & F4 & F5 & F6); [done..|].
  destruct (merge_next_spec K p1 l1 (set_free true b) l2 Hr) as
    (p2 & En & Hr2 & G1 & G2 & G3 & G4 & G5 & G6).
  destruct (merge_prev_spec K p2 _ _ _ Hr2) as
    (p3 & l1' & b' & Ep & Hr3 & Hlast & (K1 & K2 & K3 & K4 & K5 & K6) & Hcase).
  destruct (releasing_finish p3 l1' b' (after_next l2) Hr3) as (t & Ei & Hwf');
    [apply after_next_busy, (rl_coalesced2 _ _ _ _ Hr)|done|].
  exists (set_free_buffers p3 t). split; [|split; [done|split]].
  - unfold binder_free_buf. rewrite (get_buffer_in (mtop p)) by done.
    cbn [res_bind]. rewrite Hf, (bug_on_false 825) by lia. cbn [bug_on res_bind].
    rewrite bool_decide_eq_false_2 by (rewrite Htr; congruence). cbn [bug_on res_bind].
    rewrite (bug_on_false 827), (bug_on_false 828)
      by (unfold mtop, sizeof_binder_buffer in *; lia). cbn [res_bind].
    unfold unmap_data in Eu. cbv zeta in Eu.
    assert (binder_buffer_size p (b_addr b) = binder_buffer_size
      (if b_async_transaction b then set_free_async_space p
         (u64 (free_async_space p + (buffer_request (b_data_size b) (b_offsets_size b)
            + sizeof_binder_buffer))) else p) (b_addr b)) as ->
      by (by destruct (b_async_transaction b)).
    destruct (binder_update_page_range _ _ _ _ _ _) as [[e q]|]; [|done].
    cbn [res_bind] in *. injection Eu as Eu. change (b_addr (set_free true b)) with (b_addr b) in *.
    match goal with |- context [merge_next K ?x _] =>
      change x with (set_buffers (set_allocated_buffers q (rb_erase (b_addr b)
        (allocated_buffers q))) (update_buffer (b_addr b) (set_free true) (buffers q)))
    end. rewrite Eu.
    rewrite En. cbn [res_bind]. rewrite Ep. cbn [res_bind]. done.
  - simpl. rewrite (rl_buffers _ _ _ _ Hr3). destruct Hcase as [[-> ->]|[-> Hb']].
    + left. done.
    + right. by exists l1', b'.
  - simpl. repeat split; congruence.
Qed.

End WithTrees.
