(* ===== verification/BufferThms.v ===== *)
(** * BufferThms: the buffer allocator is correct

    The theorems about driver/binder.c's buffer allocator: the invariant holds
    after [binder_mmap] and through every allocation and release, refusals
    leave the state alone, the choice is a best fit, releasing undoes
    allocating, allocated data never overlaps and is always mapped, and the
    lookup by user address finds exactly the allocated buffers. *)

From S2P Require Import Prelude RbTree BufferAlloc BufferList BufferInv BufferTake BufferRelease.

(** ** Reachable states *)

Section Reach.
Context `{RL : RbLib}.

(** A process as [binder_open] leaves it, before its area is mapped. *)
Definition unmapped (p : proc_mem) : Prop :=
  buffer p = 0 /\ free_buffers p = RbLeaf /\ allocated_buffers p = RbLeaf.

(** What [get_vm_area] guarantees of a kernel range of [size] bytes. *)
Definition kernel_range (area size : Z) : Prop :=
  0 < area /\ area mod PAGE_SIZE = 0 /\ area + size <= 2 ^ 64 - PAGE_SIZE.

(** What [mmap] guarantees of the [vm_area_struct] it passes. *)
Definition vma_valid (v : vm_area) : Prop :=
  vm_start v < vm_end v /\ (vm_end v - vm_start v) mod PAGE_SIZE = 0.

(** The bookkeeping fields the transaction code writes into a buffer. *)
Definition same_shape (f : binder_buffer -> binder_buffer) : Prop :=
  forall b, b_addr (f b) = b_addr b /\ b_free (f b) = b_free b /\
    b_async_transaction (f b) = b_async_transaction b /\
    b_data_size (f b) = b_data_size b /\ b_offsets_size (f b) = b_offsets_size b.

Inductive mem_step : proc_mem -> proc_mem -> Prop :=
| step_alloc K p ds os async o p' :
    0 <= ds -> 0 <= os ->
    binder_alloc_buf K p ds os async = Ret (o, p') -> mem_step p p'
| step_mark p a f :
    same_shape f -> mem_step p (set_buffers p (update_buffer a f (buffers p)))
| step_free K p b p' :
    b ∈ buffers p -> b_free b = false ->
    binder_free_buf K p (b_addr b) = Ret p' -> mem_step p p'.

Inductive mem_reachable : proc_mem -> Prop :=
| reach_mmap K p0 v area p :
    unmapped p0 -> vma_valid v -> kernel_range area SZ_4M ->
    binder_mmap K p0 true v (Some area) true = Ret (0, p) -> mem_reachable p
| reach_step p p' : mem_reachable p -> mem_step p p' -> mem_reachable p'.

(** *** [binder_mmap] *)

Lemma binder_mmap_spec K p0 v area :
  unmapped p0 -> vma_valid v -> kernel_range area SZ_4M ->
  let size := Z.min (vm_end v - vm_start v) SZ_4M in
  exists e p, binder_mmap K p0 true v (Some area) true = Ret (e, p) /\
    ((e <> 0 /\ unmapped p /\ (vm_write v = true \/ pages_failed K p0 (Some v))) \/
     (e = 0 /\ mem_wf p /\ buffer p = area /\ buffer_size p = size /\
      vma p = Some (VmArea (vm_start v) (vm_start v + size) (vm_write v) (vm_mm v)) /\
      user_buffer_offset p = u64 (vm_start v - area) /\
      buffers p = [new_free_buffer area] /\ free_async_space p = size / 2)).
Proof.
  intros (Hb0 & Hfb & Hab) [Hlt Hal] (Ha & Haa & Htop) size.
  unfold binder_mmap. cbn [negb].
  set (v' := if SZ_4M <? vm_end v - vm_start v then _ else v).
  assert (v' = VmArea (vm_start v) (vm_start v + size) (vm_write v) (vm_mm v)) as Ev.
  { unfold v', size. destruct v as [s e w m]; simpl in *.
    destruct (Z.ltb_spec SZ_4M (e - s)); f_equal; lia. }
  assert (0 < size <= SZ_4M /\ size mod PAGE_SIZE = 0) as [Hs Hsm].
  { unfold size. split; [unfold SZ_4M; lia|].
    destruct (Z.min_spec (vm_end v - vm_start v) SZ_4M) as [[_ ->]|[_ ->]]; done. }
  rewrite Ev. cbn [vm_start vm_end vm_write vm_mm].
  destruct (vm_write v) eqn:Ew.
  { exists (- EPERM), p0. split; [done|]. left. repeat split; auto. }
  rewrite Hb0. cbn [Z.eqb negb].
  replace (vm_start v + size - vm_start v) with size by lia.
  match goal with |- context [binder_update_page_range K ?q true ?x ?y ?z] =>
    set (p1 := q); set (z' := z);
    change x with (buffer p1); change y with (buffer p1 + PAGE_SIZE) end.
  pose proof (update_pages_alloc K p1 0 1 z' ltac:(simpl; set_solver)) as Hu. cbv zeta in Hu.
  rewrite Z.mul_0_r, Z.add_0_r, Z.mul_1_r in Hu. destruct Hu as [->|[-> Hfail]].
  2:{ eexists _, _. split; [reflexivity|]. left. split; [done|]. split; [by repeat split|].
      right. destruct Hfail as [Hf|Hf]; [done|by right]. }
  cbn [res_bind]. set (b := new_free_buffer area).
  match goal with |- context [binder_insert_free_buffer ?q _] => set (p2 := q) end.
  assert (layout (mtop p2) (buffers p2)) as Hl.
  { simpl. unfold mtop, sizeof_binder_buffer, PAGE_SIZE in *. simpl. clear -Hs Hsm Haa.
    repeat split; Z.to_euclidean_division_equations; lia. }
  destruct (insert_free_spec p2 b) as (t & Et & Hst & Hpt);
    [done|simpl; set_solver|done|simpl; rewrite Hfb; simpl; set_solver|
     simpl; rewrite Hfb; constructor|].
  change (buffer p2) with (b_addr b).
  rewrite Et. cbn [res_bind]. eexists _, _. split; [reflexivity|]. right.
  split; [done|]. split; [|repeat split].
  split; [| |].
  - split; simpl.
    + done.
    + done.
    + unfold mtop; simpl. lia.
    + done.
    + exact Hl.
    + intros x Hx%list_elem_of_singleton. by subst.
    + rewrite Hpt. simpl. by rewrite Hfb.
    + exact Hst.
    + by rewrite Hab.
    + rewrite Hab. constructor.
    + unfold async_charge. simpl. lia.
    + apply Z.div_pos; lia.
  - done.
  - intros i. simpl. rewrite elem_of_union, elem_of_prange, page_used_cons.
    unfold page_used, touches. setoid_rewrite elem_of_nil. simpl.
    unfold sizeof_binder_buffer, PAGE_SIZE. split; [intros [?|?]; [set_solver|left; lia]|].
    intros [?|(? & ? & _)]; [right; lia|done].
Qed.

(** *** Writing the bookkeeping fields *)

(** What the allocator looks at in a buffer. *)
Definition shape (b : binder_buffer) : Z * bool * bool * Z * Z :=
  (b_addr b, b_free b, b_async_transaction b, b_data_size b, b_offsets_size b).

Lemma shape_views l : forall l', shape <$> l = shape <$> l' ->
  addrs l = addrs l' /\ free_addrs l = free_addrs l' /\ alloc_addrs l = alloc_addrs l' /\
  async_total l = async_total l' /\
  (forall f, coalesced f l <-> coalesced f l') /\ (forall top, occ top l = occ top l').
Proof.
  induction l as [|b l IH]; intros [|c l'] E; try done.
  injection E as Ea Ef Eas Ed Eo El.
  assert (forall top, next_addr top l = next_addr top l') as En.
  { destruct l, l'; try done. by injection El. }
  destruct (IH l' El) as (I1 & I2 & I3 & I4 & I5 & I6).
  rewrite !free_addrs_cons, !alloc_addrs_cons. simpl. unfold async_charge.
  rewrite Ef, Eas, Ed, Eo, Ea, I1, I2, I3, I4. split; [done|]. split; [done|].
  split; [done|]. split; [done|]. split.
  - intros f. by rewrite I5.
  - intros top. by rewrite I6, En.
Qed.

Lemma shape_in (l l' : list binder_buffer) (b : binder_buffer) : shape <$> l = shape <$> l' -> b ∈ l ->
  exists c, c ∈ l' /\ shape c = shape b.
Proof.
  intros E Hb. assert (shape b ∈ shape <$> l') as Hin.
  { rewrite <- E. apply list_elem_of_fmap. eauto. }
  apply list_elem_of_fmap in Hin as (c & ? & ?). eauto.
Qed.

Lemma mem_wf_shape p l' :
  mem_wf p -> shape <$> l' = shape <$> buffers p -> mem_wf (set_buffers p l').
Proof.
  intros Hwf E. pose proof (wf_core _ Hwf) as Hc. set (p' := set_buffers p l').
  destruct (shape_views _ _ E) as (I1 & I2 & I3 & I4 & I5 & I6).
  assert (forall a, binder_buffer_size p' a = binder_buffer_size p a) as Hsize.
  { intros a. by apply binder_buffer_size_ext. }
  split; [split| |]; try apply Hc.
  - change (buffer p') with (buffer p). rewrite <- (wf_first _ Hc). simpl.
    destruct l', (buffers p); try done. by injection E.
  - eapply layout_addrs; [symmetry; exact I1|apply Hc].
  - intros b Hb Hf. rewrite Hsize. destruct (shape_in _ _ b E Hb) as (c & Hc' & Es).
    injection Es as Ea Ef Eas Ed Eo. rewrite <- Ed, <- Eo, <- Ea.
    apply Hc; [done|congruence].
  - rewrite (wf_free_perm _ Hc : inorder (free_buffers p') ≡ₚ _). simpl. by rewrite I2.
  - eapply sorted_by_ext; [|apply (wf_free_sorted _ Hc)]. by intros y _.
  - rewrite (wf_alloc_perm _ Hc : inorder (allocated_buffers p') ≡ₚ _). simpl. by rewrite I3.
  - simpl. rewrite I4. apply Hc.
  - simpl. apply I5, Hwf.
  - intros i. simpl. rewrite I6. apply Hwf.
Qed.

Lemma update_buffer_shape a f l :
  same_shape f -> shape <$> update_buffer a f l = shape <$> l.
Proof.
  intros Hf. unfold update_buffer. rewrite <- list_fmap_compose.
  apply list_fmap_ext. intros _ b _. simpl. destruct (b_addr b =? a); [|done].
  unfold shape. by destruct (Hf b) as (-> & -> & -> & -> & ->).
Qed.

Lemma free_needs_no_transaction K p b p' :
  layout (mtop p) (buffers p) -> b ∈ buffers p ->
  binder_free_buf K p (b_addr b) = Ret p' -> b_transaction b = None.
Proof.
  intros Hl Hb. unfold binder_free_buf. rewrite (get_buffer_in (mtop p)) by done.
  cbn [res_bind]. intros H. res_inv.
  match goal with H : bool_decide (_ <> None) = false |- _ => apply bool_decide_eq_false in H end.
  destruct (b_transaction b); [|done]. naive_solver.
Qed.

Lemma mem_step_wf p p' : mem_wf p -> mem_step p p' -> mem_wf p'.
Proof.
  intros Hwf Hs. destruct Hs as [K p ds os async o p' Hds Hos E|p a f Hf|K p b p' Hb Hf E].
  - destruct (binder_alloc_buf_spec K p ds os async Hwf Hds Hos)
      as [[E' _]|(l1 & b & l2 & q & E' & Hq & _)]; rewrite E' in E; by injection E as _ <-.
  - apply mem_wf_shape; [done|]. by apply update_buffer_shape.
  - pose proof (free_needs_no_transaction _ _ _ _ (wf_layout _ (wf_core _ Hwf)) Hb E) as Ht.
    apply list_elem_of_split in Hb as (l1 & l2 & Eb).
    destruct (binder_free_buf_spec K p l1 b l2) as (q & E' & Hq & _); [done..|].
    rewrite E' in E. by injection E as <-.
Qed.

(** The user address of a buffer's data. *)
Definition user_data (p : proc_mem) (b : binder_buffer) : Z :=
  u64 (buffer_data (b_addr b) + user_buffer_offset p).

(** Freeing what was just allocated leaves the same headers. *)
Lemma freed_after_alloc p ds os async l1 b l2 p1 l' :
  mem_wf p -> alloc_effect p ds os async l1 b l2 p1 ->
  freed_list l1 (taken ds os async b)
    (split_rest (b_addr b) (buffer_request ds os)
      (buffer_request ds os + sizeof_binder_buffer + 4 <? binder_buffer_size p (b_addr b)) ++ l2)
    l' ->
  l' = l1 ++ set_free true (taken ds os async b) :: l2.
Proof.
  intros Hwf He Hl'. pose proof (wf_coalesced _ Hwf) as Hc.
  rewrite (ae_buffers _ _ _ _ _ _ _ _ He), coalesced_app in Hc. simpl in Hc.
  rewrite (ae_free _ _ _ _ _ _ _ _ He), andb_true_r in Hc. destruct Hc as (Hc1 & Hla & Hc2).
  destruct Hl' as [[_ ->]|(l0 & c & -> & Hcf & _)].
  - f_equal. f_equal. destruct (_ <? _); simpl; [done|].
    destruct l2 as [|n l2]; simpl in *; [done|]. by destruct Hc2 as [-> _].
  - exfalso. unfold last_free in Hla. rewrite last_snoc in Hla. congruence.
Qed.

(** ** The theorems *)

(** C4: every state of the allocator reachable from a successful [binder_mmap]
    by allocations, releases and writes of the bookkeeping fields satisfies the
    full invariant: headers in address order from the start of the mapping, no
    two free neighbours, the free tree exactly the free buffers by size, the
    allocated tree exactly the others by address, requests fitting their
    buffers, the asynchronous budget balanced, and exactly the pages under
    headers and allocated data mapped. *)
Theorem mem_reachable_wf p : mem_reachable p -> mem_wf p.
Proof.
  induction 1 as [K p0 v area p Hu Hv Hk E|p p' _ IH Hs]; [|by eapply mem_step_wf].
  destruct (binder_mmap_spec K p0 v area Hu Hv Hk)
    as (e & q & E' & [(He & _)|(_ & Hq & _)]); rewrite E' in E; injection E as -> ->; done.
Qed.

(** C17: [binder_alloc_buf] never trips a [BUG_ON] and keeps the invariant; a
    refusal leaves the process unchanged and has one of the grounds the code
    gives: no area, an overflowing size, the asynchronous budget, no free
    buffer large enough, or a page that cannot be mapped. *)
Theorem binder_alloc_buf_safe K p ds os async :
  mem_wf p -> 0 <= ds -> 0 <= os ->
  exists o p', binder_alloc_buf K p ds os async = Ret (o, p') /\ mem_wf p' /\
    match o with
    | None => p' = p /\ alloc_refused K p ds os async
    | Some a => a ∈ alloc_addrs (buffers p') /\ a ∉ alloc_addrs (buffers p)
    end.
Proof.
  intros Hwf Hds Hos.
  destruct (binder_alloc_buf_spec K p ds os async Hwf Hds Hos)
    as [[-> Hr]|(l1 & b & l2 & p' & -> & Hwf' & He)]; [by exists None, p|].
  exists (Some (b_addr b)), p'. split; [done|]. split; [done|]. split.
  - rewrite (ae_after _ _ _ _ _ _ _ _ He), alloc_addrs_app, alloc_addrs_cons. simpl. set_solver.
  - pose proof (layout_NoDup _ _ (wf_layout _ (wf_core _ Hwf))) as Hnd.
    intros (c & Hc & Ec & Hcf)%elem_of_alloc_addrs.
    rewrite (ae_buffers _ _ _ _ _ _ _ _ He) in Hc, Hnd.
    pose proof (ae_free _ _ _ _ _ _ _ _ He) as Hbf.
    rewrite addrs_app in Hnd. simpl in Hnd. apply NoDup_app in Hnd as (_ & Hd & Hnd).
    apply NoDup_cons in Hnd as [Hnb _].
    apply elem_of_app in Hc as [Hc|[->|Hc]%elem_of_cons]; [|congruence|].
    + apply (Hd (b_addr b)); [apply elem_of_addrs; eauto|set_solver].
    + apply Hnb, elem_of_addrs. eauto.
Qed.

(** What a successful [binder_alloc_buf] did: it took a smallest free
    buffer that fits the aligned request, split the rest off into a new free
    buffer when more than a header and four bytes are left, recorded the
    sizes, and charged an asynchronous buffer its size and its header. *)
Theorem binder_alloc_buf_best_fit K p ds os async a p' :
  mem_wf p -> 0 <= ds -> 0 <= os ->
  binder_alloc_buf K p ds os async = Ret (Some a, p') ->
  exists l1 b l2, b_addr b = a /\ alloc_effect p ds os async l1 b l2 p'.
Proof.
  intros Hwf Hds Hos E.
  destruct (binder_alloc_buf_spec K p ds os async Hwf Hds Hos)
    as [[E' _]|(l1 & b & l2 & q & E' & _ & He)]; rewrite E' in E; [done|].
  injection E as <- <-. by exists l1, b, l2.
Qed.

(** C18: [binder_free_buf] of an allocated buffer that no transaction uses never
    trips a [BUG_ON], keeps the invariant, merges the buffer with its free
    neighbours and nothing else, and gives an asynchronous buffer's charge
    back to the budget. *)
Theorem binder_free_buf_safe K p l1 b l2 :
  mem_wf p -> buffers p = l1 ++ b :: l2 -> b_free b = false -> b_transaction b = None ->
  exists p', binder_free_buf K p (b_addr b) = Ret p' /\ mem_wf p' /\
    freed_list l1 b l2 (buffers p') /\
    free_async_space p' = free_async_space p + async_charge b.
Proof.
  intros Hwf E Hf Ht. destruct (binder_free_buf_spec K p l1 b l2 Hwf E Hf Ht)
    as (p' & ? & ? & ? & _ & _ & _ & _ & _ & ?). by exists p'.
Qed.

(** Releasing a buffer right after allocating it restores the layout: the
    same headers, the same of them free, the same pages mapped, the same free
    tree up to the order of equal sizes, and the same asynchronous budget. *)
Theorem alloc_free_roundtrip K K' p ds os async a p1 :
  mem_wf p -> 0 <= ds -> 0 <= os ->
  (forall b, b ∈ buffers p -> b_transaction b = None) ->
  binder_alloc_buf K p ds os async = Ret (Some a, p1) ->
  exists p2, binder_free_buf K' p1 a = Ret p2 /\
    addrs (buffers p2) = addrs (buffers p) /\
    free_addrs (buffers p2) = free_addrs (buffers p) /\
    pages p2 = pages p /\
    inorder (free_buffers p2) ≡ₚ inorder (free_buffers p) /\
    inorder (allocated_buffers p2) ≡ₚ inorder (allocated_buffers p) /\
    free_async_space p2 = free_async_space p.
Proof.
  intros Hwf Hds Hos Htr E.
  destruct (binder_alloc_buf_spec K p ds os async Hwf Hds Hos)
    as [[E' _]|(l1 & b & l2 & q & E' & Hwf1 & He)]; rewrite E' in E; [done|].
  injection E as <- <-.
  destruct (binder_free_buf_spec K' q l1 _ _ Hwf1 (ae_after _ _ _ _ _ _ _ _ He))
    as (p2 & Ef & Hwf2 & Hl & _ & _ & Fb & _ & Fs & Fa); [done| |].
  { simpl. apply Htr. rewrite (ae_buffers _ _ _ _ _ _ _ _ He). set_solver. }
  apply (freed_after_alloc p ds os async l1 b l2 q) in Hl; [|done..].
  destruct He as [Eb Hf _ _ _ (_ & _ & Gb & _ & Gs) Ga].
  assert (free_addrs (buffers p2) = free_addrs (buffers p)) as Efr.
  { rewrite Hl, Eb, !free_addrs_app, !free_addrs_cons, Hf. done. }
  exists p2. split; [exact Ef|]. split; [by rewrite Hl, Eb, !addrs_app|]. split; [done|].
  split; [|split; [|split]].
  - apply set_eq. intros i. rewrite (wf_pages _ Hwf2 i), (wf_pages _ Hwf i).
    unfold mtop. rewrite Fb, Fs, Gb, Gs, Hl, Eb, !occ_app. simpl. by rewrite Hf.
  - rewrite (wf_free_perm _ (wf_core _ Hwf2)), (wf_free_perm _ (wf_core _ Hwf)). by rewrite Efr.
  - rewrite (wf_alloc_perm _ (wf_core _ Hwf2)), (wf_alloc_perm _ (wf_core _ Hwf)).
    rewrite Hl, Eb, !alloc_addrs_app, !alloc_addrs_cons, Hf. done.
  - rewrite Fa, Ga. unfold async_charge. simpl. destruct async; lia.
Qed.

(** Two allocated buffers never overlap, headers included; the data of an
    allocated buffer (its aligned payload and offsets array) lies between its
    header and the end of the mapping, and every byte of it is on a mapped
    page. *)
Theorem allocated_data_separate p b :
  mem_wf p -> b ∈ buffers p -> b_free b = false ->
  let size := buffer_request (b_data_size b) (b_offsets_size b) in
  buffer p <= b_addr b /\ buffer_data (b_addr b) + size <= mtop p /\
  (forall x, b_addr b <= x < buffer_data (b_addr b) + size -> page_index p x ∈ pages p) /\
  (forall c, c ∈ buffers p -> b_addr c <> b_addr b ->
     buffer_data (b_addr b) + size <= b_addr c \/ buffer_data (b_addr c) <= b_addr b).
Proof.
  intros Hwf Hb Hf size. pose proof (wf_core _ Hwf) as Hc.
  destruct (buffer_range p b Hc Hb) as [Hlo Hhi].
  destruct (wf_fit _ Hc b Hb Hf) as (_ & _ & Hfit). fold size in Hfit.
  pose proof (wf_layout _ Hc) as Hl. pose proof Hb as Hb'.
  apply list_elem_of_split in Hb' as (l1 & l2 & E).
  rewrite (binder_buffer_size_split p l1 b l2 E Hl) in Hfit.
  rewrite E in Hl. pose proof (around_bounds _ _ _ _ Hl) as (HN & _ & Hl2).
  pose proof (layout_next_top _ _ Hl2) as Htop.
  split; [done|]. split; [lia|]. split.
  - intros x Hx. apply (wf_pages _ Hwf). rewrite E, occ_app. apply page_used_app. right.
    simpl. apply page_used_cons. left. rewrite Hf. unfold touches, page_index, PAGE_SIZE; simpl.
    unfold buffer_data in *. Z.to_euclidean_division_equations. lia.
  - intros c Hcb Hne. rewrite E in Hcb.
    apply elem_of_app in Hcb as [Hcb|[->|Hcb]%elem_of_cons]; [right|done|left].
    + by apply (layout_before l1 b _ l2 c Hl).
    + apply layout_bounds with (top := mtop p) in Hcb; [|done]. unfold buffer_data in *. lia.
Qed.

(** [binder_buffer_lookup] finds the allocated buffer whose data is at the
    given user address (as 64-bit values), and answers NULL exactly when there
    is none; it never meets a free buffer. *)
Theorem binder_buffer_lookup_correct p user_ptr :
  mem_wf p ->
  exists o, binder_buffer_lookup p user_ptr = Ret o /\
    match o with
    | Some a => exists b, b ∈ buffers p /\ b_addr b = a /\ b_free b = false /\
        user_data p b = u64 user_ptr
    | None => forall b, b ∈ buffers p -> b_free b = false -> user_data p b <> u64 user_ptr
    end.
Proof.
  intros Hwf. pose proof (wf_core _ Hwf) as Hc. unfold binder_buffer_lookup.
  set (kern_ptr := u64 _).
  assert (forall b, b ∈ buffers p -> kern_ptr = b_addr b <-> user_data p b = u64 user_ptr) as Hk.
  { intros b Hb. destruct (buffer_range p b Hc Hb). pose proof (wf_top _ Hc).
    destruct (wf_base _ Hc) as [? _]. unfold kern_ptr, user_data, buffer_data.
    replace (user_ptr - user_buffer_offset p - sizeof_binder_buffer)
      with (user_ptr - (sizeof_binder_buffer + user_buffer_offset p)) by lia.
    rewrite <- Z.add_assoc. apply u64_sub_eq. unfold sizeof_binder_buffer, PAGE_SIZE in *. lia. }
  match goal with |- context [rb_find ?v _] =>
    destruct (rb_find_spec v (fun a => a) kern_ptr (allocated_buffers p))
      as [(a & E & Ha & <-)|[E Hn]] end.
  - intros x Hx. rewrite (wf_alloc_perm _ Hc) in Hx.
    destruct (get_buffer_alloc p x (wf_layout _ Hc) Hx) as (b & -> & Hb). simpl. by rewrite Hb.
  - apply Hc.
  - exists (Some a). split; [done|]. rewrite (wf_alloc_perm _ Hc) in Ha.
    apply elem_of_alloc_addrs in Ha as (b & Hb & Ea & Hf). exists b.
    repeat split; try done. by apply Hk.
  - exists None. split; [done|]. intros b Hb Hf Hu. apply (Hn (b_addr b)); [|symmetry; by apply Hk].
    rewrite (wf_alloc_perm _ Hc). apply elem_of_alloc_addrs. eauto.
Qed.

(** The two comparisons after the size computation in [binder_alloc_buf]
    catch every overflow: when they pass, the 64-bit request is the exact sum
    of the two sizes rounded up to pointers. *)
Theorem buffer_request_no_overflow ds os :
  0 <= ds < 2 ^ 64 -> 0 <= os < 2 ^ 64 ->
  (buffer_request ds os <? ds) || (buffer_request ds os <? os) = false <->
  ds + (- ds) mod 8 + (os + (- os) mod 8) < 2 ^ 64 /\
  buffer_request ds os = ds + (- ds) mod 8 + (os + (- os) mod 8).
Proof.
  intros Hds Hos. assert (forall x, 0 <= x < 2 ^ 64 ->
    ALIGN x 8 = if x + 7 <? 2 ^ 64 then x + (- x) mod 8 else 0) as HA.
  { intros x Hx. destruct (Z.ltb_spec (x + 7) (2 ^ 64)); [apply ALIGN_8; lia|].
    apply ALIGN_8_wrap. lia. }
  unfold buffer_request, sizeof_ptr. rewrite !HA by done.
  assert (forall x, 0 <= x < 2 ^ 64 -> exists k r, (- x) mod 8 = r /\ x + r = 8 * k /\ 0 <= r < 8)
    as Hm.
  { intros x Hx. exists (- (- x / 8)), ((- x) mod 8). Z.to_euclidean_division_equations. lia. }
  destruct (Hm ds Hds) as (kd & rd & -> & ? & ?), (Hm os Hos) as (ko & ro & -> & ? & ?).
  clear HA Hm.
  assert (forall x, 0 <= x < 2 ^ 65 -> u64 x = if x <? 2 ^ 64 then x else x - 2 ^ 64) as Hu.
  { intros x Hx. unfold u64. destruct (Z.ltb_spec x (2 ^ 64)); [apply Z.mod_small; lia|].
    symmetry. apply (Z.mod_unique _ _ 1); lia. }
  destruct (Z.ltb_spec (ds + 7) (2 ^ 64)), (Z.ltb_spec (os + 7) (2 ^ 64));
    rewrite Hu by lia; match goal with |- context [if ?c then _ else _] => destruct c eqn:? end;
    lia.
Qed.

(** [binder_mmap] on a process without a mapping: a writable request is
    refused, and so is one whose first page cannot be mapped; otherwise the
    area is clamped to four megabytes and becomes a single free buffer in a
    well-formed allocator, with half of it as the asynchronous budget.  A
    failed call leaves the process unmapped, so it can be tried again; a second
    call after success is refused with [EBUSY]. *)
Theorem binder_mmap_correct K p0 v area :
  unmapped p0 -> vma_valid v -> kernel_range area SZ_4M ->
  exists e p, binder_mmap K p0 true v (Some area) true = Ret (e, p) /\
    ((e = 0 /\ mem_wf p /\ buffers p = [new_free_buffer area] /\
      buffer_size p = Z.min (vm_end v - vm_start v) SZ_4M /\
      free_async_space p = buffer_size p / 2 /\
      forall K' v' o b, vm_write v' = false ->
        binder_mmap K' p true v' o b = Ret (- EBUSY, p)) \/
     (e <> 0 /\ unmapped p /\ (vm_write v = true \/ pages_failed K p0 (Some v)))).
Proof.
  intros Hu Hv Hk. destruct (binder_mmap_spec K p0 v area Hu Hv Hk)
    as (e & p & -> & [He|(-> & Hwf & Eb & Es & _ & _ & El & Ea)]); exists e, p || exists 0, p;
    (split; [done|]); [by right|left].
  do 4 (split; [done|]). split; [by rewrite Ea, Es|]. intros K' v' o b Hw. unfold binder_mmap. cbn [negb].
  assert (vm_write (if SZ_4M <? vm_end v' - vm_start v'
    then VmArea (vm_start v') (vm_start v' + SZ_4M) (vm_write v') (vm_mm v') else v') = false) as ->
    by (by destruct (_ <? _)).
  destruct (wf_base _ (wf_core _ Hwf)) as [Hb _].
  destruct (Z.eqb_spec (buffer p) 0); [lia|done].
Qed.

End Reach.

(** ** Witnesses

    A process that maps one megabyte at a kernel address, with a kernel that
    maps every page, and the states after one allocation. *)

#[local] Existing Instance plain_rb.

Definition sample_mm : kernel_mm := KernelMm (Some 7) (fun _ => PageMapped).
Definition sample_proc : proc_mem := ProcMem None None 0 0 [] RbLeaf RbLeaf 0 ∅ 0.
Definition sample_vma : vm_area := VmArea 0x10000000 0x10100000 false 7.
Definition sample_area : Z := 0xc0000000.

Definition state_of {A} (d : proc_mem) (m : res (A * proc_mem)) : proc_mem :=
  match m with Ret (_, p) => p | Bug _ => d end.

Definition sample_mapped : proc_mem :=
  state_of sample_proc (binder_mmap sample_mm sample_proc true sample_vma (Some sample_area) true).

Definition sample_alloc : proc_mem :=
  state_of sample_proc (binder_alloc_buf sample_mm sample_mapped 100 16 true).

Definition sample_buffer : binder_buffer :=
  BinderBuffer sample_area false false true 0 None None 100 16 [] [].

Definition sample_rest : binder_buffer :=
  new_free_buffer (sample_area + sizeof_binder_buffer + 120).

Lemma sample_mmap :
  binder_mmap sample_mm sample_proc true sample_vma (Some sample_area) true = Ret (0, sample_mapped).
Proof. vm_compute. reflexivity. Qed.

Lemma sample_mmap_hyps :
  unmapped sample_proc /\ vma_valid sample_vma /\ kernel_range sample_area SZ_4M.
Proof. by vm_compute. Qed.

Lemma sample_mapped_wf : mem_wf sample_mapped.
Proof.
  destruct sample_mmap_hyps as (Hu & Hv & Hk).
  destruct (binder_mmap_spec sample_mm sample_proc sample_vma sample_area Hu Hv Hk)
    as (e & p & E & [(He & _)|(_ & Hwf & _)]); rewrite sample_mmap in E; injection E as <- <-; done.
Qed.

Lemma sample_alloc_ok :
  binder_alloc_buf sample_mm sample_mapped 100 16 true = Ret (Some sample_area, sample_alloc).
Proof. vm_compute. reflexivity. Qed.

Lemma sample_alloc_wf : mem_wf sample_alloc.
Proof.
  apply (mem_step_wf sample_mapped); [apply sample_mapped_wf|].
  apply (step_alloc sample_mm _ 100 16 true (Some sample_area)); [lia..|apply sample_alloc_ok].
Qed.

Lemma sample_alloc_buffers : buffers sample_alloc = [sample_buffer; sample_rest].
Proof. vm_compute. reflexivity. Qed.

Lemma mem_reachable_wf_witness : mem_wf sample_alloc.
Proof.
  apply mem_reachable_wf, (reach_step sample_mapped).
  - destruct sample_mmap_hyps as (Hu & Hv & Hk).
    by apply (reach_mmap sample_mm sample_proc sample_vma sample_area).
  - apply (step_alloc sample_mm _ 100 16 true (Some sample_area)); [lia..|apply sample_alloc_ok].
Defined.

Lemma binder_alloc_buf_safe_witness :
  exists o p', binder_alloc_buf sample_mm sample_alloc 4096 0 false = Ret (o, p') /\ mem_wf p' /\
    match o with
    | None => p' = sample_alloc /\ alloc_refused sample_mm sample_alloc 4096 0 false
    | Some a => a ∈ alloc_addrs (buffers p') /\ a ∉ alloc_addrs (buffers sample_alloc)
    end.
Proof. apply binder_alloc_buf_safe; [apply sample_alloc_wf|lia..]. Defined.

Lemma binder_alloc_buf_best_fit_witness :
  exists l1 b l2, b_addr b = sample_area /\
    alloc_effect sample_mapped 100 16 true l1 b l2 sample_alloc.
Proof.
  apply (binder_alloc_buf_best_fit sample_mm);
    [apply sample_mapped_wf|lia..|apply sample_alloc_ok].
Defined.

Lemma binder_free_buf_safe_witness :
  exists p', binder_free_buf sample_mm sample_alloc sample_area = Ret p' /\ mem_wf p' /\
    freed_list [] sample_buffer [sample_rest] (buffers p') /\
    free_async_space p' = free_async_space sample_alloc + async_charge sample_buffer.
Proof.
  apply (binder_free_buf_safe sample_mm sample_alloc [] sample_buffer [sample_rest]);
    [apply sample_alloc_wf|apply sample_alloc_buffers|done..].
Defined.

Lemma alloc_free_roundtrip_witness :
  exists p2, binder_free_buf sample_mm sample_alloc sample_area = Ret p2 /\
    addrs (buffers p2) = addrs (buffers sample_mapped) /\
    free_addrs (buffers p2) = free_addrs (buffers sample_mapped) /\
    pages p2 = pages sample_mapped /\
    inorder (free_buffers p2) ≡ₚ inorder (free_buffers sample_mapped) /\
    inorder (allocated_buffers p2) ≡ₚ inorder (allocated_buffers sample_mapped) /\
    free_async_space p2 = free_async_space sample_mapped.
Proof.
  apply (alloc_free_roundtrip sample_mm sample_mm sample_mapped 100 16 true);
    [apply sample_mapped_wf|lia..| |apply sample_alloc_ok].
  assert (buffers sample_mapped = [new_free_buffer sample_area]) as -> by (vm_compute; reflexivity).
  intros b ->%list_elem_of_singleton. done.
Defined.

Lemma allocated_data_separate_witness :
  buffer_data sample_area + 120 <= mtop sample_alloc /\
  page_index sample_alloc (sample_area + 100) ∈ pages sample_alloc.
Proof.
  destruct (allocated_data_separate sample_alloc sample_buffer) as (_ & Hd & Hp & _);
    [apply sample_alloc_wf|rewrite sample_alloc_buffers; set_solver|done|].
  split; [exact Hd|]. apply Hp. vm_compute. split; congruence.
Defined.

Lemma binder_buffer_lookup_correct_witness :
  exists o, binder_buffer_lookup sample_alloc (0x10000000 + sizeof_binder_buffer) = Ret o /\
    match o with
    | Some a => exists b, b ∈ buffers sample_alloc /\ b_addr b = a /\ b_free b = false /\
        user_data sample_alloc b = u64 (0x10000000 + sizeof_binder_buffer)
    | None => forall b, b ∈ buffers sample_alloc -> b_free b = false ->
        user_data sample_alloc b <> u64 (0x10000000 + sizeof_binder_buffer)
    end.
Proof. apply binder_buffer_lookup_correct, sample_alloc_wf. Defined.

Lemma buffer_request_no_overflow_witness :
  (buffer_request (2 ^ 64 - 100) 200 <? 2 ^ 64 - 100) || (buffer_request (2 ^ 64 - 100) 200 <? 200)
  = true.
Proof.
  destruct (_ || _) eqn:E; [done|].
  apply (buffer_request_no_overflow (2 ^ 64 - 100) 200) in E; [|lia..].
  exfalso. destruct E as [E _]. vm_compute in E. discriminate E.
Defined.

Lemma binder_mmap_correct_witness :
  exists e p, binder_mmap sample_mm sample_proc true sample_vma (Some sample_area) true = Ret (e, p) /\
    ((e = 0 /\ mem_wf p /\ buffers p = [new_free_buffer sample_area] /\
      buffer_size p = Z.min (vm_end sample_vma - vm_start sample_vma) SZ_4M /\
      free_async_space p = buffer_size p / 2 /\
      forall K' v' o b, vm_write v' = false ->
        binder_mmap K' p true v' o b = Ret (- EBUSY, p)) \/
     (e <> 0 /\ unmapped p /\
       (vm_write sample_vma = true \/ pages_failed sample_mm sample_proc (Some sample_vma)))).
Proof. apply binder_mmap_correct; apply sample_mmap_hyps. Defined.
