(* ===== verification/DriverState.v ===== *)
(** * DriverState: the data of the Binder driver

    The structures of driver/binder.c with the fields its code reads, the
    driver's global variables, and access to them.  A pointer to an object is
    its address, a [Z]; a pointer that may be NULL is an [option Z].  Objects
    live in maps from addresses, so reading through a pointer to a freed object
    is [Bug 0].  A [struct list_head] of work items is named by a [list_id].
    Debug output, tracing and the counters behind debugfs are left out; locks
    are not modelled, since every entry point runs under [binder_main_lock]. *)

From S2P Require Import Prelude RbTree BufferAlloc.

(** ** Work items and work lists *)

(** [struct binder_work]: the object that embeds it tells the type, except for
    death notifications, whose type changes. *)
Inductive work : Type :=
| WTransaction (t : Z)
| WTransactionComplete (w : Z)
| WNode (n : Z)
| WDeath (d : Z).

Inductive death_work : Type :=
| BINDER_WORK_NONE
| BINDER_WORK_DEAD_BINDER
| BINDER_WORK_DEAD_BINDER_AND_CLEAR
| BINDER_WORK_CLEAR_DEATH_NOTIFICATION.

(** The list heads: a process's [todo] and [delivered_death], a thread's
    [todo], a node's [async_todo]. *)
Inductive list_id : Type :=
| ProcTodo (p : Z)
| DeliveredDeath (p : Z)
| ThreadTodo (t : Z)
| AsyncTodo (n : Z).

Inductive wait_queue : Type :=
| ProcWait (p : Z)
| ProcWaitAll (p : Z)
| ThreadWait (t : Z).

#[global] Instance work_eq_dec : EqDecision work.
Proof. solve_decision. Defined.

#[global] Instance death_work_eq_dec : EqDecision death_work.
Proof. solve_decision. Defined.

#[global] Instance list_id_eq_dec : EqDecision list_id.
Proof. solve_decision. Defined.

#[global] Instance list_id_countable : Countable list_id.
Proof.
  refine (inj_countable'
    (fun i => match i with
      | ProcTodo p => (0, p) | DeliveredDeath p => (1, p)
      | ThreadTodo t => (2, t) | AsyncTodo n => (3, n) end)
    (fun k => match k with
      | (0, p) => ProcTodo p | (1, p) => DeliveredDeath p
      | (2, t) => ThreadTodo t | (_, n) => AsyncTodo n end) _).
  by intros [].
Defined.

(** ** The structures *)

(** A binder node, [struct binder_node]; its [async_todo] list is [AsyncTodo] of
    the list table, its [work] item [WNode]. *)
Record binder_node := BinderNode {
  n_debug_id : Z;
  n_proc : option Z;
  n_refs : list Z;
  n_internal_strong_refs : Z;
  n_local_weak_refs : Z;
  n_local_strong_refs : Z;
  n_ptr : Z;
  n_cookie : Z;
  n_has_strong_ref : bool;
  n_pending_strong_ref : bool;
  n_has_weak_ref : bool;
  n_pending_weak_ref : bool;
  n_has_async_transaction : bool;
  n_accept_fds : bool;
  n_min_priority : Z
}.

(** A reference of a process to a node, [struct binder_ref]. *)
Record binder_ref := BinderRef {
  r_debug_id : Z;
  r_proc : Z;
  r_node : Z;
  r_desc : Z;
  r_strong : Z;
  r_weak : Z;
  r_death : option Z
}.

(** A death notification, [struct binder_ref_death]: its work type and cookie. *)
Record binder_ref_death := BinderRefDeath {
  d_type : death_work;
  d_cookie : Z
}.

(** [struct binder_thread]; its [todo] list is [ThreadTodo] of the list table. *)
Record binder_thread := BinderThread {
  t_proc : Z;
  t_pid : Z;
  t_looper : Z;
  t_transaction_stack : option Z;
  t_return_error : Z;
  t_return_error2 : Z
}.

(** [struct binder_transaction]; a buffer is named by its process and address. *)
Record binder_transaction := BinderTransaction {
  x_debug_id : Z;
  x_from : option Z;
  x_from_parent : option Z;
  x_to_proc : option Z;
  x_to_thread : option Z;
  x_to_parent : option Z;
  x_need_reply : bool;
  x_buffer : option (Z * Z);
  x_code : Z;
  x_flags : Z;
  x_priority : Z;
  x_saved_priority : Z;
  x_sender_euid : Z
}.

(** [struct binder_proc]; the allocator's fields are in [p_mem], the [todo] and
    [delivered_death] lists in the list table. *)
Record binder_proc := BinderProc {
  p_threads : rbtree;
  p_nodes : rbtree;
  p_refs_by_desc : rbtree;
  p_refs_by_node : rbtree;
  p_pid : Z;
  p_tsk : Z;
  p_files : bool;
  p_deferred_work : Z;
  p_mem : proc_mem;
  p_max_threads : Z;
  p_requested_threads : Z;
  p_requested_threads_started : Z;
  p_ready_threads : Z;
  p_default_priority : Z
}.

(** The driver: the objects it has allocated, by address; the work lists; and
    its global variables.  [s_wakes] records the wait queues woken, last
    first; [s_kzalloc] holds what the coming calls of [kzalloc] return;
    [s_nice] is the current task's priority, [s_installed_fds] the files the
    driver has put into processes' tables, as (process, descriptor, file). *)
Record driver := Driver {
  s_procs : gmap Z binder_proc;
  s_threads : gmap Z binder_thread;
  s_nodes : gmap Z binder_node;
  s_refs : gmap Z binder_ref;
  s_deaths : gmap Z binder_ref_death;
  s_transactions : gmap Z binder_transaction;
  s_lists : gmap list_id (list work);
  s_binder_procs : list Z;
  s_dead_nodes : list Z;
  s_deferred_list : list Z;
  s_context_mgr_node : option Z;
  s_context_mgr_uid : option Z;
  s_last_id : Z;
  s_wakes : list wait_queue;
  s_kzalloc : list (option Z);
  s_nice : Z;
  s_installed_fds : list (Z * Z * Z)
}.

(** ** Field updates *)

Definition set_n_debug_id (v : Z) (n : binder_node) : binder_node :=
  BinderNode v (n_proc n) (n_refs n) (n_internal_strong_refs n) (n_local_weak_refs n)
    (n_local_strong_refs n) (n_ptr n) (n_cookie n) (n_has_strong_ref n)
    (n_pending_strong_ref n) (n_has_weak_ref n) (n_pending_weak_ref n)
    (n_has_async_transaction n) (n_accept_fds n) (n_min_priority n).

Definition set_n_proc (v : option Z) (n : binder_node) : binder_node :=
  BinderNode (n_debug_id n) v (n_refs n) (n_internal_strong_refs n)
    (n_local_weak_refs n) (n_local_strong_refs n) (n_ptr n) (n_cookie n)
    (n_has_strong_ref n) (n_pending_strong_ref n) (n_has_weak_ref n)
    (n_pending_weak_ref n) (n_has_async_transaction n) (n_accept_fds n)
    (n_min_priority n).

Definition set_n_refs (v : list Z) (n : binder_node) : binder_node :=
  BinderNode (n_debug_id n) (n_proc n) v (n_internal_strong_refs n)
    (n_local_weak_refs n) (n_local_strong_refs n) (n_ptr n) (n_cookie n)
    (n_has_strong_ref n) (n_pending_strong_ref n) (n_has_weak_ref n)
    (n_pending_weak_ref n) (n_has_async_transaction n) (n_accept_fds n)
    (n_min_priority n).

Definition set_n_internal_strong_refs (v : Z) (n : binder_node) : binder_node :=
  BinderNode (n_debug_id n) (n_proc n) (n_refs n) v (n_local_weak_refs n)
    (n_local_strong_refs n) (n_ptr n) (n_cookie n) (n_has_strong_ref n)
    (n_pending_strong_ref n) (n_has_weak_ref n) (n_pending_weak_ref n)
    (n_has_async_transaction n) (n_accept_fds n) (n_min_priority n).

Definition set_n_local_weak_refs (v : Z) (n : binder_node) : binder_node :=
  BinderNode (n_debug_id n) (n_proc n) (n_refs n) (n_internal_strong_refs n) v
    (n_local_strong_refs n) (n_ptr n) (n_cookie n) (n_has_strong_ref n)
    (n_pending_strong_ref n) (n_has_weak_ref n) (n_pending_weak_ref n)
    (n_has_async_transaction n) (n_accept_fds n) (n_min_priority n).

Definition set_n_local_strong_refs (v : Z) (n : binder_node) : binder_node :=
  BinderNode (n_debug_id n) (n_proc n) (n_refs n) (n_internal_strong_refs n)
    (n_local_weak_refs n) v (n_ptr n) (n_cookie n) (n_has_strong_ref n)
    (n_pending_strong_ref n) (n_has_weak_ref n) (n_pending_weak_ref n)
    (n_has_async_transaction n) (n_accept_fds n) (n_min_priority n).

Definition set_n_ptr (v : Z) (n : binder_node) : binder_node :=
  BinderNode (n_debug_id n) (n_proc n) (n_refs n) (n_internal_strong_refs n)
    (n_local_weak_refs n) (n_local_strong_refs n) v (n_cookie n) (n_has_strong_ref n)
    (n_pending_strong_ref n) (n_has_weak_ref n) (n_pending_weak_ref n)
    (n_has_async_transaction n) (n_accept_fds n) (n_min_priority n).

Definition set_n_cookie (v : Z) (n : binder_node) : binder_node :=
  BinderNode (n_debug_id n) (n_proc n) (n_refs n) (n_internal_strong_refs n)
    (n_local_weak_refs n) (n_local_strong_refs n) (n_ptr n) v (n_has_strong_ref n)
    (n_pending_strong_ref n) (n_has_weak_ref n) (n_pending_weak_ref n)
    (n_has_async_transaction n) (n_accept_fds n) (n_min_priority n).

Definition set_n_has_strong_ref (v : bool) (n : binder_node) : binder_node :=
  BinderNode (n_debug_id n) (n_proc n) (n_refs n) (n_internal_strong_refs n)
    (n_local_weak_refs n) (n_local_strong_refs n) (n_ptr n) (n_cookie n) v
    (n_pending_strong_ref n) (n_has_weak_ref n) (n_pending_weak_ref n)
    (n_has_async_transaction n) (n_accept_fds n) (n_min_priority n).

Definition set_n_pending_strong_ref (v : bool) (n : binder_node) : binder_node :=
  BinderNode (n_debug_id n) (n_proc n) (n_refs n) (n_internal_strong_refs n)
    (n_local_weak_refs n) (n_local_strong_refs n) (n_ptr n) (n_cookie n)
    (n_has_strong_ref n) v (n_has_weak_ref n) (n_pending_weak_ref n)
    (n_has_async_transaction n) (n_accept_fds n) (n_min_priority n).

Definition set_n_has_weak_ref (v : bool) (n : binder_node) : binder_node :=
  BinderNode (n_debug_id n) (n_proc n) (n_refs n) (n_internal_strong_refs n)
    (n_local_weak_refs n) (n_local_strong_refs n) (n_ptr n) (n_cookie n)
    (n_has_strong_ref n) (n_pending_strong_ref n) v (n_pending_weak_ref n)
    (n_has_async_transaction n) (n_accept_fds n) (n_min_priority n).

Definition set_n_pending_weak_ref (v : bool) (n : binder_node) : binder_node :=
  BinderNode (n_debug_id n) (n_proc n) (n_refs n) (n_internal_strong_refs n)
    (n_local_weak_refs n) (n_local_strong_refs n) (n_ptr n) (n_cookie n)
    (n_has_strong_ref n) (n_pending_strong_ref n) (n_has_weak_ref n) v
    (n_has_async_transaction n) (n_accept_fds n) (n_min_priority n).

Definition set_n_has_async_transaction (v : bool) (n : binder_node) : binder_node :=
  BinderNode (n_debug_id n) (n_proc n) (n_refs n) (n_internal_strong_refs n)
    (n_local_weak_refs n) (n_local_strong_refs n) (n_ptr n) (n_cookie n)
    (n_has_strong_ref n) (n_pending_strong_ref n) (n_has_weak_ref n)
    (n_pending_weak_ref n) v (n_accept_fds n) (n_min_priority n).

Definition set_n_accept_fds (v : bool) (n : binder_node) : binder_node :=
  BinderNode (n_debug_id n) (n_proc n) (n_refs n) (n_internal_strong_refs n)
    (n_local_weak_refs n) (n_local_strong_refs n) (n_ptr n) (n_cookie n)
    (n_has_strong_ref n) (n_pending_strong_ref n) (n_has_weak_ref n)
    (n_pending_weak_ref n) (n_has_async_transaction n) v (n_min_priority n).

Definition set_n_min_priority (v : Z) (n : binder_node) : binder_node :=
  BinderNode (n_debug_id n) (n_proc n) (n_refs n) (n_internal_strong_refs n)
    (n_local_weak_refs n) (n_local_strong_refs n) (n_ptr n) (n_cookie n)
    (n_has_strong_ref n) (n_pending_strong_ref n) (n_has_weak_ref n)
    (n_pending_weak_ref n) (n_has_async_transaction n) (n_accept_fds n) v.

Definition set_r_debug_id (v : Z) (r : binder_ref) : binder_ref :=
  BinderRef v (r_proc r) (r_node r) (r_desc r) (r_strong r) (r_weak r) (r_death r).

Definition set_r_proc (v : Z) (r : binder_ref) : binder_ref :=
  BinderRef (r_debug_id r) v (r_node r) (r_desc r) (r_strong r) (r_weak r) (r_death r).

Definition set_r_node (v : Z) (r : binder_ref) : binder_ref :=
  BinderRef (r_debug_id r) (r_proc r) v (r_desc r) (r_strong r) (r_weak r) (r_death r).

Definition set_r_desc (v : Z) (r : binder_ref) : binder_ref :=
  BinderRef (r_debug_id r) (r_proc r) (r_node r) v (r_strong r) (r_weak r) (r_death r).

Definition set_r_strong (v : Z) (r : binder_ref) : binder_ref :=
  BinderRef (r_debug_id r) (r_proc r) (r_node r) (r_desc r) v (r_weak r) (r_death r).

Definition set_r_weak (v : Z) (r : binder_ref) : binder_ref :=
  BinderRef (r_debug_id r) (r_proc r) (r_node r) (r_desc r) (r_strong r) v (r_death r).

Definition set_r_death (v : option Z) (r : binder_ref) : binder_ref :=
  BinderRef (r_debug_id r) (r_proc r) (r_node r) (r_desc r) (r_strong r) (r_weak r) v.

Definition set_d_type (v : death_work) (d : binder_ref_death) : binder_ref_death :=
  BinderRefDeath v (d_cookie d).

Definition set_d_cookie (v : Z) (d : binder_ref_death) : binder_ref_death :=
  BinderRefDeath (d_type d) v.

Definition set_t_proc (v : Z) (t : binder_thread) : binder_thread :=
  BinderThread v (t_pid t) (t_looper t) (t_transaction_stack t) (t_return_error t)
    (t_return_error2 t).

Definition set_t_pid (v : Z) (t : binder_thread) : binder_thread :=
  BinderThread (t_proc t) v (t_looper t) (t_transaction_stack t) (t_return_error t)
    (t_return_error2 t).

Definition set_t_looper (v : Z) (t : binder_thread) : binder_thread :=
  BinderThread (t_proc t) (t_pid t) v (t_transaction_stack t) (t_return_error t)
    (t_return_error2 t).

Definition set_t_transaction_stack (v : option Z) (t : binder_thread) : binder_thread :=
  BinderThread (t_proc t) (t_pid t) (t_looper t) v (t_return_error t)
    (t_return_error2 t).

Definition set_t_return_error (v : Z) (t : binder_thread) : binder_thread :=
  BinderThread (t_proc t) (t_pid t) (t_looper t) (t_transaction_stack t) v
    (t_return_error2 t).

Definition set_t_return_error2 (v : Z) (t : binder_thread) : binder_thread :=
  BinderThread (t_proc t) (t_pid t) (t_looper t) (t_transaction_stack t)
    (t_return_error t) v.

Definition set_x_debug_id (v : Z) (x : binder_transaction) : binder_transaction :=
  BinderTransaction v (x_from x) (x_from_parent x) (x_to_proc x) (x_to_thread x)
    (x_to_parent x) (x_need_reply x) (x_buffer x) (x_code x) (x_flags x) (x_priority x)
    (x_saved_priority x) (x_sender_euid x).

Definition set_x_from (v : option Z) (x : binder_transaction) : binder_transaction :=
  BinderTransaction (x_debug_id x) v (x_from_parent x) (x_to_proc x) (x_to_thread x)
    (x_to_parent x) (x_need_reply x) (x_buffer x) (x_code x) (x_flags x) (x_priority x)
    (x_saved_priority x) (x_sender_euid x).

Definition set_x_from_parent (v : option Z) (x : binder_transaction) : binder_transaction :=
  BinderTransaction (x_debug_id x) (x_from x) v (x_to_proc x) (x_to_thread x)
    (x_to_parent x) (x_need_reply x) (x_buffer x) (x_code x) (x_flags x) (x_priority x)
    (x_saved_priority x) (x_sender_euid x).

Definition set_x_to_proc (v : option Z) (x : binder_transaction) : binder_transaction :=
  BinderTransaction (x_debug_id x) (x_from x) (x_from_parent x) v (x_to_thread x)
    (x_to_parent x) (x_need_reply x) (x_buffer x) (x_code x) (x_flags x) (x_priority x)
    (x_saved_priority x) (x_sender_euid x).

Definition set_x_to_thread (v : option Z) (x : binder_transaction) : binder_transaction :=
  BinderTransaction (x_debug_id x) (x_from x) (x_from_parent x) (x_to_proc x) v
    (x_to_parent x) (x_need_reply x) (x_buffer x) (x_code x) (x_flags x) (x_priority x)
    (x_saved_priority x) (x_sender_euid x).

Definition set_x_to_parent (v : option Z) (x : binder_transaction) : binder_transaction :=
  BinderTransaction (x_debug_id x) (x_from x) (x_from_parent x) (x_to_proc x)
    (x_to_thread x) v (x_need_reply x) (x_buffer x) (x_code x) (x_flags x)
    (x_priority x) (x_saved_priority x) (x_sender_euid x).

Definition set_x_need_reply (v : bool) (x : binder_transaction) : binder_transaction :=
  BinderTransaction (x_debug_id x) (x_from x) (x_from_parent x) (x_to_proc x)
    (x_to_thread x) (x_to_parent x) v (x_buffer x) (x_code x) (x_flags x) (x_priority x)
    (x_saved_priority x) (x_sender_euid x).

Definition set_x_buffer (v : option (Z * Z)) (x : binder_transaction) : binder_transaction :=
  BinderTransaction (x_debug_id x) (x_from x) (x_from_parent x) (x_to_proc x)
    (x_to_thread x) (x_to_parent x) (x_need_reply x) v (x_code x) (x_flags x)
    (x_priority x) (x_saved_priority x) (x_sender_euid x).

Definition set_x_code (v : Z) (x : binder_transaction) : binder_transaction :=
  BinderTransaction (x_debug_id x) (x_from x) (x_from_parent x) (x_to_proc x)
    (x_to_thread x) (x_to_parent x) (x_need_reply x) (x_buffer x) v (x_flags x)
    (x_priority x) (x_saved_priority x) (x_sender_euid x).

Definition set_x_flags (v : Z) (x : binder_transaction) : binder_transaction :=
  BinderTransaction (x_debug_id x) (x_from x) (x_from_parent x) (x_to_proc x)
    (x_to_thread x) (x_to_parent x) (x_need_reply x) (x_buffer x) (x_code x) v
    (x_priority x) (x_saved_priority x) (x_sender_euid x).

Definition set_x_priority (v : Z) (x : binder_transaction) : binder_transaction :=
  BinderTransaction (x_debug_id x) (x_from x) (x_from_parent x) (x_to_proc x)
    (x_to_thread x) (x_to_parent x) (x_need_reply x) (x_buffer x) (x_code x) (x_flags x)
    v (x_saved_priority x) (x_sender_euid x).

Definition set_x_saved_priority (v : Z) (x : binder_transaction) : binder_transaction :=
  BinderTransaction (x_debug_id x) (x_from x) (x_from_parent x) (x_to_proc x)
    (x_to_thread x) (x_to_parent x) (x_need_reply x) (x_buffer x) (x_code x) (x_flags x)
    (x_priority x) v (x_sender_euid x).

Definition set_x_sender_euid (v : Z) (x : binder_transaction) : binder_transaction :=
  BinderTransaction (x_debug_id x) (x_from x) (x_from_parent x) (x_to_proc x)
    (x_to_thread x) (x_to_parent x) (x_need_reply x) (x_buffer x) (x_code x) (x_flags x)
    (x_priority x) (x_saved_priority x) v.

Definition set_p_threads (v : rbtree) (p : binder_proc) : binder_proc :=
  BinderProc v (p_nodes p) (p_refs_by_desc p) (p_refs_by_node p) (p_pid p) (p_tsk p)
    (p_files p) (p_deferred_work p) (p_mem p) (p_max_threads p) (p_requested_threads p)
    (p_requested_threads_started p) (p_ready_threads p) (p_default_priority p).

Definition set_p_nodes (v : rbtree) (p : binder_proc) : binder_proc :=
  BinderProc (p_threads p) v (p_refs_by_desc p) (p_refs_by_node p) (p_pid p) (p_tsk p)
    (p_files p) (p_deferred_work p) (p_mem p) (p_max_threads p) (p_requested_threads p)
    (p_requested_threads_started p) (p_ready_threads p) (p_default_priority p).

Definition set_p_refs_by_desc (v : rbtree) (p : binder_proc) : binder_proc :=
  BinderProc (p_threads p) (p_nodes p) v (p_refs_by_node p) (p_pid p) (p_tsk p)
    (p_files p) (p_deferred_work p) (p_mem p) (p_max_threads p) (p_requested_threads p)
    (p_requested_threads_started p) (p_ready_threads p) (p_default_priority p).

Definition set_p_refs_by_node (v : rbtree) (p : binder_proc) : binder_proc :=
  BinderProc (p_threads p) (p_nodes p) (p_refs_by_desc p) v (p_pid p) (p_tsk p)
    (p_files p) (p_deferred_work p) (p_mem p) (p_max_threads p) (p_requested_threads p)
    (p_requested_threads_started p) (p_ready_threads p) (p_default_priority p).

Definition set_p_pid (v : Z) (p : binder_proc) : binder_proc :=
  BinderProc (p_threads p) (p_nodes p) (p_refs_by_desc p) (p_refs_by_node p) v (p_tsk p)
    (p_files p) (p_deferred_work p) (p_mem p) (p_max_threads p) (p_requested_threads p)
    (p_requested_threads_started p) (p_ready_threads p) (p_default_priority p).

Definition set_p_tsk (v : Z) (p : binder_proc) : binder_proc :=
  BinderProc (p_threads p) (p_nodes p) (p_refs_by_desc p) (p_refs_by_node p) (p_pid p) v
    (p_files p) (p_deferred_work p) (p_mem p) (p_max_threads p) (p_requested_threads p)
    (p_requested_threads_started p) (p_ready_threads p) (p_default_priority p).

Definition set_p_files (v : bool) (p : binder_proc) : binder_proc :=
  BinderProc (p_threads p) (p_nodes p) (p_refs_by_desc p) (p_refs_by_node p) (p_pid p)
    (p_tsk p) v (p_deferred_work p) (p_mem p) (p_max_threads p) (p_requested_threads p)
    (p_requested_threads_started p) (p_ready_threads p) (p_default_priority p).

Definition set_p_deferred_work (v : Z) (p : binder_proc) : binder_proc :=
  BinderProc (p_threads p) (p_nodes p) (p_refs_by_desc p) (p_refs_by_node p) (p_pid p)
    (p_tsk p) (p_files p) v (p_mem p) (p_max_threads p) (p_requested_threads p)
    (p_requested_threads_started p) (p_ready_threads p) (p_default_priority p).

Definition set_p_mem (v : proc_mem) (p : binder_proc) : binder_proc :=
  BinderProc (p_threads p) (p_nodes p) (p_refs_by_desc p) (p_refs_by_node p) (p_pid p)
    (p_tsk p) (p_files p) (p_deferred_work p) v (p_max_threads p)
    (p_requested_threads p) (p_requested_threads_started p) (p_ready_threads p)
    (p_default_priority p).

Definition set_p_max_threads (v : Z) (p : binder_proc) : binder_proc :=
  BinderProc (p_threads p) (p_nodes p) (p_refs_by_desc p) (p_refs_by_node p) (p_pid p)
    (p_tsk p) (p_files p) (p_deferred_work p) (p_mem p) v (p_requested_threads p)
    (p_requested_threads_started p) (p_ready_threads p) (p_default_priority p).

Definition set_p_requested_threads (v : Z) (p : binder_proc) : binder_proc :=
  BinderProc (p_threads p) (p_nodes p) (p_refs_by_desc p) (p_refs_by_node p) (p_pid p)
    (p_tsk p) (p_files p) (p_deferred_work p) (p_mem p) (p_max_threads p) v
    (p_requested_threads_started p) (p_ready_threads p) (p_default_priority p).

Definition set_p_requested_threads_started (v : Z) (p : binder_proc) : binder_proc :=
  BinderProc (p_threads p) (p_nodes p) (p_refs_by_desc p) (p_refs_by_node p) (p_pid p)
    (p_tsk p) (p_files p) (p_deferred_work p) (p_mem p) (p_max_threads p)
    (p_requested_threads p) v (p_ready_threads p) (p_default_priority p).

Definition set_p_ready_threads (v : Z) (p : binder_proc) : binder_proc :=
  BinderProc (p_threads p) (p_nodes p) (p_refs_by_desc p) (p_refs_by_node p) (p_pid p)
    (p_tsk p) (p_files p) (p_deferred_work p) (p_mem p) (p_max_threads p)
    (p_requested_threads p) (p_requested_threads_started p) v (p_default_priority p).

Definition set_p_default_priority (v : Z) (p : binder_proc) : binder_proc :=
  BinderProc (p_threads p) (p_nodes p) (p_refs_by_desc p) (p_refs_by_node p) (p_pid p)
    (p_tsk p) (p_files p) (p_deferred_work p) (p_mem p) (p_max_threads p)
    (p_requested_threads p) (p_requested_threads_started p) (p_ready_threads p) v.

Definition set_s_procs (v : gmap Z binder_proc) (s : driver) : driver :=
  Driver v (s_threads s) (s_nodes s) (s_refs s) (s_deaths s) (s_transactions s)
    (s_lists s) (s_binder_procs s) (s_dead_nodes s) (s_deferred_list s)
    (s_context_mgr_node s) (s_context_mgr_uid s) (s_last_id s) (s_wakes s) (s_kzalloc s)
    (s_nice s) (s_installed_fds s).

Definition set_s_threads (v : gmap Z binder_thread) (s : driver) : driver :=
  Driver (s_procs s) v (s_nodes s) (s_refs s) (s_deaths s) (s_transactions s)
    (s_lists s) (s_binder_procs s) (s_dead_nodes s) (s_deferred_list s)
    (s_context_mgr_node s) (s_context_mgr_uid s) (s_last_id s) (s_wakes s) (s_kzalloc s)
    (s_nice s) (s_installed_fds s).

Definition set_s_nodes (v : gmap Z binder_node) (s : driver) : driver :=
  Driver (s_procs s) (s_threads s) v (s_refs s) (s_deaths s) (s_transactions s)
    (s_lists s) (s_binder_procs s) (s_dead_nodes s) (s_deferred_list s)
    (s_context_mgr_node s) (s_context_mgr_uid s) (s_last_id s) (s_wakes s) (s_kzalloc s)
    (s_nice s) (s_installed_fds s).

Definition set_s_refs (v : gmap Z binder_ref) (s : driver) : driver :=
  Driver (s_procs s) (s_threads s) (s_nodes s) v (s_deaths s) (s_transactions s)
    (s_lists s) (s_binder_procs s) (s_dead_nodes s) (s_deferred_list s)
    (s_context_mgr_node s) (s_context_mgr_uid s) (s_last_id s) (s_wakes s) (s_kzalloc s)
    (s_nice s) (s_installed_fds s).

Definition set_s_deaths (v : gmap Z binder_ref_death) (s : driver) : driver :=
  Driver (s_procs s) (s_threads s) (s_nodes s) (s_refs s) v (s_transactions s)
    (s_lists s) (s_binder_procs s) (s_dead_nodes s) (s_deferred_list s)
    (s_context_mgr_node s) (s_context_mgr_uid s) (s_last_id s) (s_wakes s) (s_kzalloc s)
    (s_nice s) (s_installed_fds s).

Definition set_s_transactions (v : gmap Z binder_transaction) (s : driver) : driver :=
  Driver (s_procs s) (s_threads s) (s_nodes s) (s_refs s) (s_deaths s) v (s_lists s)
    (s_binder_procs s) (s_dead_nodes s) (s_deferred_list s) (s_context_mgr_node s)
    (s_context_mgr_uid s) (s_last_id s) (s_wakes s) (s_kzalloc s) (s_nice s)
    (s_installed_fds s).

Definition set_s_lists (v : gmap list_id (list work)) (s : driver) : driver :=
  Driver (s_procs s) (s_threads s) (s_nodes s) (s_refs s) (s_deaths s)
    (s_transactions s) v (s_binder_procs s) (s_dead_nodes s) (s_deferred_list s)
    (s_context_mgr_node s) (s_context_mgr_uid s) (s_last_id s) (s_wakes s) (s_kzalloc s)
    (s_nice s) (s_installed_fds s).

Definition set_s_binder_procs (v : list Z) (s : driver) : driver :=
  Driver (s_procs s) (s_threads s) (s_nodes s) (s_refs s) (s_deaths s)
    (s_transactions s) (s_lists s) v (s_dead_nodes s) (s_deferred_list s)
    (s_context_mgr_node s) (s_context_mgr_uid s) (s_last_id s) (s_wakes s) (s_kzalloc s)
    (s_nice s) (s_installed_fds s).

Definition set_s_dead_nodes (v : list Z) (s : driver) : driver :=
  Driver (s_procs s) (s_threads s) (s_nodes s) (s_refs s) (s_deaths s)
    (s_transactions s) (s_lists s) (s_binder_procs s) v (s_deferred_list s)
    (s_context_mgr_node s) (s_context_mgr_uid s) (s_last_id s) (s_wakes s) (s_kzalloc s)
    (s_nice s) (s_installed_fds s).

Definition set_s_deferred_list (v : list Z) (s : driver) : driver :=
  Driver (s_procs s) (s_threads s) (s_nodes s) (s_refs s) (s_deaths s)
    (s_transactions s) (s_lists s) (s_binder_procs s) (s_dead_nodes s) v
    (s_context_mgr_node s) (s_context_mgr_uid s) (s_last_id s) (s_wakes s) (s_kzalloc s)
    (s_nice s) (s_installed_fds s).

Definition set_s_context_mgr_node (v : option Z) (s : driver) : driver :=
  Driver (s_procs s) (s_threads s) (s_nodes s) (s_refs s) (s_deaths s)
    (s_transactions s) (s_lists s) (s_binder_procs s) (s_dead_nodes s)
    (s_deferred_list s) v (s_context_mgr_uid s) (s_last_id s) (s_wakes s) (s_kzalloc s)
    (s_nice s) (s_installed_fds s).

Definition set_s_context_mgr_uid (v : option Z) (s : driver) : driver :=
  Driver (s_procs s) (s_threads s) (s_nodes s) (s_refs s) (s_deaths s)
    (s_transactions s) (s_lists s) (s_binder_procs s) (s_dead_nodes s)
    (s_deferred_list s) (s_context_mgr_node s) v (s_last_id s) (s_wakes s) (s_kzalloc s)
    (s_nice s) (s_installed_fds s).

Definition set_s_last_id (v : Z) (s : driver) : driver :=
  Driver (s_procs s) (s_threads s) (s_nodes s) (s_refs s) (s_deaths s)
    (s_transactions s) (s_lists s) (s_binder_procs s) (s_dead_nodes s)
    (s_deferred_list s) (s_context_mgr_node s) (s_context_mgr_uid s) v (s_wakes s)
    (s_kzalloc s) (s_nice s) (s_installed_fds s).

Definition set_s_wakes (v : list wait_queue) (s : driver) : driver :=
  Driver (s_procs s) (s_threads s) (s_nodes s) (s_refs s) (s_deaths s)
    (s_transactions s) (s_lists s) (s_binder_procs s) (s_dead_nodes s)
    (s_deferred_list s) (s_context_mgr_node s) (s_context_mgr_uid s) (s_last_id s) v
    (s_kzalloc s) (s_nice s) (s_installed_fds s).

Definition set_s_kzalloc (v : list (option Z)) (s : driver) : driver :=
  Driver (s_procs s) (s_threads s) (s_nodes s) (s_refs s) (s_deaths s)
    (s_transactions s) (s_lists s) (s_binder_procs s) (s_dead_nodes s)
    (s_deferred_list s) (s_context_mgr_node s) (s_context_mgr_uid s) (s_last_id s)
    (s_wakes s) v (s_nice s) (s_installed_fds s).

Definition set_s_nice (v : Z) (s : driver) : driver :=
  Driver (s_procs s) (s_threads s) (s_nodes s) (s_refs s) (s_deaths s)
    (s_transactions s) (s_lists s) (s_binder_procs s) (s_dead_nodes s)
    (s_deferred_list s) (s_context_mgr_node s) (s_context_mgr_uid s) (s_last_id s)
    (s_wakes s) (s_kzalloc s) v (s_installed_fds s).

Definition set_s_installed_fds (v : list (Z * Z * Z)) (s : driver) : driver :=
  Driver (s_procs s) (s_threads s) (s_nodes s) (s_refs s) (s_deaths s)
    (s_transactions s) (s_lists s) (s_binder_procs s) (s_dead_nodes s)
    (s_deferred_list s) (s_context_mgr_node s) (s_context_mgr_uid s) (s_last_id s)
    (s_wakes s) (s_kzalloc s) (s_nice s) v.

(** ** Reading and writing through pointers *)

Definition deref {A} (m : gmap Z A) (a : Z) : res A :=
  match m !! a with Some x => Ret x | None => Bug 0 end.

Definition get_proc (s : driver) (a : Z) : res binder_proc := deref (s_procs s) a.
Definition get_thread (s : driver) (a : Z) : res binder_thread := deref (s_threads s) a.
Definition get_node (s : driver) (a : Z) : res binder_node := deref (s_nodes s) a.
Definition get_ref (s : driver) (a : Z) : res binder_ref := deref (s_refs s) a.
Definition get_death (s : driver) (a : Z) : res binder_ref_death := deref (s_deaths s) a.
Definition get_transaction (s : driver) (a : Z) : res binder_transaction :=
  deref (s_transactions s) a.

Definition put_proc (s : driver) (a : Z) (p : binder_proc) : driver :=
  set_s_procs (<[a := p]> (s_procs s)) s.
Definition put_thread (s : driver) (a : Z) (t : binder_thread) : driver :=
  set_s_threads (<[a := t]> (s_threads s)) s.
Definition put_node (s : driver) (a : Z) (n : binder_node) : driver :=
  set_s_nodes (<[a := n]> (s_nodes s)) s.
Definition put_ref (s : driver) (a : Z) (r : binder_ref) : driver :=
  set_s_refs (<[a := r]> (s_refs s)) s.
Definition put_death (s : driver) (a : Z) (d : binder_ref_death) : driver :=
  set_s_deaths (<[a := d]> (s_deaths s)) s.
Definition put_transaction (s : driver) (a : Z) (x : binder_transaction) : driver :=
  set_s_transactions (<[a := x]> (s_transactions s)) s.

(** [p->field = v]: write one field of the object at [a]. *)
Definition upd_proc (s : driver) (a : Z) (f : binder_proc -> binder_proc) : res driver :=
  let! p := get_proc s a in Ret (put_proc s a (f p)).
Definition upd_thread (s : driver) (a : Z) (f : binder_thread -> binder_thread) : res driver :=
  let! t := get_thread s a in Ret (put_thread s a (f t)).
Definition upd_node (s : driver) (a : Z) (f : binder_node -> binder_node) : res driver :=
  let! n := get_node s a in Ret (put_node s a (f n)).
Definition upd_ref (s : driver) (a : Z) (f : binder_ref -> binder_ref) : res driver :=
  let! r := get_ref s a in Ret (put_ref s a (f r)).
Definition upd_death (s : driver) (a : Z) (f : binder_ref_death -> binder_ref_death)
    : res driver :=
  let! d := get_death s a in Ret (put_death s a (f d)).
Definition upd_transaction (s : driver) (a : Z)
    (f : binder_transaction -> binder_transaction) : res driver :=
  let! x := get_transaction s a in Ret (put_transaction s a (f x)).

(** ** Memory *)

(** [kzalloc]: the next answer of the allocator; [None] is NULL. *)
Definition kzalloc (s : driver) : option Z * driver :=
  match s_kzalloc s with
  | [] => (None, s)
  | a :: l => (a, set_s_kzalloc l s)
  end.

(** [kfree] of a node, a reference, a death notification, a transaction, a
    thread; freeing twice is [Bug 0]. *)
Definition kfree_node (s : driver) (a : Z) : res driver :=
  let! _ := get_node s a in Ret (set_s_nodes (delete a (s_nodes s)) s).
Definition kfree_ref (s : driver) (a : Z) : res driver :=
  let! _ := get_ref s a in Ret (set_s_refs (delete a (s_refs s)) s).
Definition kfree_death (s : driver) (a : Z) : res driver :=
  let! _ := get_death s a in Ret (set_s_deaths (delete a (s_deaths s)) s).
Definition kfree_transaction (s : driver) (a : Z) : res driver :=
  let! _ := get_transaction s a in
  Ret (set_s_transactions (delete a (s_transactions s)) s).
Definition kfree_thread (s : driver) (a : Z) : res driver :=
  let! _ := get_thread s a in Ret (set_s_threads (delete a (s_threads s)) s).

(** [++binder_last_id]. *)
Definition next_id (s : driver) : Z * driver :=
  let id := i32 (s_last_id s + 1) in (id, set_s_last_id id s).

(** ** Lists of work *)

Definition work_list (s : driver) (l : list_id) : list work := s_lists s !!! l.

(** [!list_empty(&w->entry)]: the item is on some list. *)
Definition queued (s : driver) (w : work) : bool :=
  bool_decide (map_Exists (fun _ l => w ∈ l) (s_lists s)).

(** [list_del_init(&w->entry)]. *)
Definition list_del (s : driver) (w : work) : driver :=
  set_s_lists ((filter (.≠ w)) <$> s_lists s) s.

Definition list_add_tail (s : driver) (w : work) (l : list_id) : driver :=
  set_s_lists (<[l := work_list s l ++ [w]]> (s_lists s)) s.

Definition list_add (s : driver) (w : work) (l : list_id) : driver :=
  set_s_lists (<[l := w :: work_list s l]> (s_lists s)) s.

Definition wake_up (s : driver) (q : wait_queue) : driver :=
  set_s_wakes (q :: s_wakes s) s.

(** ** Lemmas *)

Lemma work_list_add_tail s w l l' :
  work_list (list_add_tail s w l) l' =
  if decide (l = l') then work_list s l' ++ [w] else work_list s l'.
Proof.
  unfold work_list, list_add_tail. simpl. case_decide as E.
  - subst. by rewrite lookup_total_insert_eq.
  - by rewrite lookup_total_insert_ne.
Qed.

Lemma work_list_del s w l : work_list (list_del s w) l = filter (.≠ w) (work_list s l).
Proof.
  unfold work_list, list_del. simpl. rewrite !lookup_total_alt, lookup_fmap.
  by destruct (s_lists s !! l).
Qed.

Lemma queued_spec s w : queued s w = true <-> exists l, w ∈ work_list s l.
Proof.
  unfold queued, work_list. rewrite bool_decide_eq_true. split.
  - intros (l & x & E & Hw). exists l. by rewrite lookup_total_alt, E.
  - intros [l Hw]. rewrite lookup_total_alt in Hw.
    destruct (s_lists s !! l) as [x|] eqn:E; [by exists l, x|]. by apply not_elem_of_nil in Hw.
Qed.

Lemma queued_del s w w' : queued (list_del s w) w' = true <-> queued s w' = true /\ w' <> w.
Proof.
  rewrite !queued_spec. setoid_rewrite work_list_del. setoid_rewrite list_elem_of_filter.
  naive_solver.
Qed.

Lemma deref_Ret {A} (m : gmap Z A) a x : deref m a = Ret x <-> m !! a = Some x.
Proof. unfold deref. destruct (m !! a); naive_solver. Qed.

Lemma deref_Some {A} (m : gmap Z A) a x : m !! a = Some x -> deref m a = Ret x.
Proof. by apply deref_Ret. Qed.

(** A read or a write that succeeds. *)
Lemma upd_proc_Ret s a f s' : upd_proc s a f = Ret s' <->
  exists p, s_procs s !! a = Some p /\ s' = put_proc s a (f p).
Proof. unfold upd_proc, get_proc, deref. destruct (s_procs s !! a); naive_solver. Qed.

Lemma upd_thread_Ret s a f s' : upd_thread s a f = Ret s' <->
  exists t, s_threads s !! a = Some t /\ s' = put_thread s a (f t).
Proof. unfold upd_thread, get_thread, deref. destruct (s_threads s !! a); naive_solver. Qed.

Lemma upd_node_Ret s a f s' : upd_node s a f = Ret s' <->
  exists n, s_nodes s !! a = Some n /\ s' = put_node s a (f n).
Proof. unfold upd_node, get_node, deref. destruct (s_nodes s !! a); naive_solver. Qed.

Lemma upd_ref_Ret s a f s' : upd_ref s a f = Ret s' <->
  exists r, s_refs s !! a = Some r /\ s' = put_ref s a (f r).
Proof. unfold upd_ref, get_ref, deref. destruct (s_refs s !! a); naive_solver. Qed.

Lemma upd_transaction_Ret s a f s' : upd_transaction s a f = Ret s' <->
  exists x, s_transactions s !! a = Some x /\ s' = put_transaction s a (f x).
Proof. unfold upd_transaction, get_transaction, deref. destruct (s_transactions s !! a); naive_solver. Qed.

Lemma kfree_transaction_Ret s a s' : kfree_transaction s a = Ret s' <->
  is_Some (s_transactions s !! a) /\ s' = set_s_transactions (delete a (s_transactions s)) s.
Proof.
  unfold kfree_transaction, get_transaction, deref.
  destruct (s_transactions s !! a); simpl; naive_solver.
Qed.

(** Reading and writing never runs out of fuel. *)
Lemma never_deref {A} k (m : gmap Z A) a : k < 0 -> never k (deref m a).
Proof. unfold never, deref. destruct (m !! a); [congruence|]. intros ? [= ?]. lia. Qed.

Ltac never_access := intros; unfold upd_proc, upd_thread, upd_node, upd_ref, upd_death,
  upd_transaction, kfree_node, kfree_ref, kfree_death, kfree_transaction, kfree_thread,
  get_proc, get_thread, get_node, get_ref, get_death, get_transaction in *;
  repeat first [apply never_deref; lia | never_step].

Lemma never_get_proc k s a : k < 0 -> never k (get_proc s a). Proof. never_access. Qed.
Lemma never_get_thread k s a : k < 0 -> never k (get_thread s a). Proof. never_access. Qed.
Lemma never_get_node k s a : k < 0 -> never k (get_node s a). Proof. never_access. Qed.
Lemma never_get_ref k s a : k < 0 -> never k (get_ref s a). Proof. never_access. Qed.
Lemma never_get_death k s a : k < 0 -> never k (get_death s a). Proof. never_access. Qed.
Lemma never_get_transaction k s a : k < 0 -> never k (get_transaction s a).
Proof. never_access. Qed.
Lemma never_upd_proc k s a f : k < 0 -> never k (upd_proc s a f). Proof. never_access. Qed.
Lemma never_upd_thread k s a f : k < 0 -> never k (upd_thread s a f). Proof. never_access. Qed.
Lemma never_upd_node k s a f : k < 0 -> never k (upd_node s a f). Proof. never_access. Qed.
Lemma never_upd_ref k s a f : k < 0 -> never k (upd_ref s a f). Proof. never_access. Qed.
Lemma never_upd_death k s a f : k < 0 -> never k (upd_death s a f). Proof. never_access. Qed.
Lemma never_upd_transaction k s a f : k < 0 -> never k (upd_transaction s a f).
Proof. never_access. Qed.
Lemma never_kfree_node k s a : k < 0 -> never k (kfree_node s a). Proof. never_access. Qed.
Lemma never_kfree_ref k s a : k < 0 -> never k (kfree_ref s a). Proof. never_access. Qed.
Lemma never_kfree_death k s a : k < 0 -> never k (kfree_death s a). Proof. never_access. Qed.
Lemma never_kfree_thread k s a : k < 0 -> never k (kfree_thread s a). Proof. never_access. Qed.
Lemma never_kfree_transaction k s a : k < 0 -> never k (kfree_transaction s a).
Proof. never_access. Qed.

#[export] Hint Resolve never_get_proc never_get_thread never_get_node never_get_ref
  never_get_death never_get_transaction never_upd_proc never_upd_thread never_upd_node
  never_upd_ref never_upd_death never_upd_transaction never_kfree_node never_kfree_ref
  never_kfree_death never_kfree_thread never_kfree_transaction : never.
