(* ===== verification/NodeRef.v ===== *)
(** * NodeRef: binder nodes and references

    Models driver/binder.c from [binder_get_node] to [binder_dec_ref]: the nodes
    a process exports, the references other processes hold to them, their
    counts, and the work queued for the owner when a count starts or stops
    being positive.  Counters are C [int]s and wrap; a descriptor is a
    [uint32_t]. *)

From S2P Require Import Prelude RbTree BufferAlloc DriverState.

Section WithTrees.
Context `{RL : RbLib}.

(** ** Nodes *)

Definition node_visit (s : driver) (ptr : Z) (y : Z) : res comparison :=
  let! n := get_node s y in Ret (ptr ?= n_ptr n).

Definition binder_get_node (s : driver) (proc ptr : Z) : res (option Z) :=
  let! p := get_proc s proc in rb_find (node_visit s ptr) (p_nodes p).

(** The new node's work item and [async_todo] start empty, as everything else
    [kzalloc] returns. *)
Definition new_node (id proc ptr cookie : Z) : binder_node :=
  BinderNode id (Some proc) [] 0 0 0 ptr cookie false false false false false false 0.

(** [kzalloc] is called after the walk; the walk needs its answer only to link
    the node. *)
Definition binder_new_node (s : driver) (proc ptr cookie : Z) : res (option Z * driver) :=
  let! p := get_proc s proc in
  let '(node, s') := kzalloc s in
  let! k := rb_link (node_visit s ptr) (default 0 node) (p_nodes p) in
  match k, node with
  | Present _, _ => Ret (None, s)
  | Linked _, None => Ret (None, s')
  | Linked t, Some node =>
      let s := put_proc s' proc (set_p_nodes (rb_insert_color node t) p) in
      let '(id, s) := next_id s in
      Ret (Some node, put_node s node (new_node id proc ptr cookie))
  end.

Definition binder_inc_node (s : driver) (node : Z) (strong internal : bool)
    (target_list : option list_id) : res (Z * driver) :=
  let! n := get_node s node in
  if strong then
    if internal then
      if bool_decide (target_list = None) && (n_internal_strong_refs n =? 0) &&
         negb (bool_decide (s_context_mgr_node s = Some node) && n_has_strong_ref n)
      then Ret (- EINVAL, s)
      else
        let s := put_node s node
                   (set_n_internal_strong_refs (i32 (n_internal_strong_refs n + 1)) n) in
        match target_list with
        | Some l => Ret (0, if n_has_strong_ref n then s
                            else list_add_tail (list_del s (WNode node)) (WNode node) l)
        | None => Ret (0, s)
        end
    else
      let s := put_node s node (set_n_local_strong_refs (i32 (n_local_strong_refs n + 1)) n) in
      match target_list with
      | Some l => Ret (0, if n_has_strong_ref n then s
                          else list_add_tail (list_del s (WNode node)) (WNode node) l)
      | None => Ret (0, s)
      end
  else
    let s := if internal then s
             else put_node s node (set_n_local_weak_refs (i32 (n_local_weak_refs n + 1)) n) in
    if negb (n_has_weak_ref n) && negb (queued s (WNode node)) then
      match target_list with
      | None => Ret (- EINVAL, s)
      | Some l => Ret (0, list_add_tail s (WNode node) l)
      end
    else Ret (0, s).

(** The end of [binder_dec_node], once no count of the kind is left. *)
Definition node_unused (s : driver) (node : Z) : res (Z * driver) :=
  let! n := get_node s node in
  match n_proc n with
  | Some proc =>
      if n_has_strong_ref n || n_has_weak_ref n then
        if queued s (WNode node) then Ret (0, s)
        else
          let! _ := get_proc s proc in
          Ret (0, wake_up (list_add_tail s (WNode node) (ProcTodo proc)) (ProcWait proc))
      else if bool_decide (n_refs n = []) && (n_local_strong_refs n =? 0) &&
              (n_local_weak_refs n =? 0) then
        let s := list_del s (WNode node) in
        let! s := upd_proc s proc (fun p => set_p_nodes (rb_erase node (p_nodes p)) p) in
        let! s := kfree_node s node in
        Ret (0, s)
      else Ret (0, s)
  | None =>
      if bool_decide (n_refs n = []) && (n_local_strong_refs n =? 0) &&
         (n_local_weak_refs n =? 0) then
        let s := list_del s (WNode node) in
        let s := set_s_dead_nodes (filter (.≠ node) (s_dead_nodes s)) s in
        let! s := kfree_node s node in
        Ret (0, s)
      else Ret (0, s)
  end.

Definition binder_dec_node (s : driver) (node : Z) (strong internal : bool)
    : res (Z * driver) :=
  let! n := get_node s node in
  if strong then
    let n := if internal
             then set_n_internal_strong_refs (i32 (n_internal_strong_refs n - 1)) n
             else set_n_local_strong_refs (i32 (n_local_strong_refs n - 1)) n in
    let s := put_node s node n in
    if negb (n_local_strong_refs n =? 0) || negb (n_internal_strong_refs n =? 0)
    then Ret (0, s)
    else node_unused s node
  else
    let n := if internal then n
             else set_n_local_weak_refs (i32 (n_local_weak_refs n - 1)) n in
    let s := put_node s node n in
    if negb (n_local_weak_refs n =? 0) || negb (bool_decide (n_refs n = []))
    then Ret (0, s)
    else node_unused s node.

(** ** References *)

Definition desc_visit (s : driver) (desc : Z) (y : Z) : res comparison :=
  let! r := get_ref s y in Ret (desc ?= r_desc r).

Definition node_of_ref_visit (s : driver) (node : Z) (y : Z) : res comparison :=
  let! r := get_ref s y in Ret (node ?= r_node r).

Definition binder_get_ref (s : driver) (proc desc : Z) : res (option Z) :=
  let! p := get_proc s proc in rb_find (desc_visit s desc) (p_refs_by_desc p).

(** The loop that picks the descriptor: walk [refs_by_desc] in order while the
    descriptors are not above the candidate. *)
Fixpoint pick_desc (s : driver) (refs : list Z) (desc : Z) : res Z :=
  match refs with
  | [] => Ret desc
  | y :: refs' =>
      let! r := get_ref s y in
      if desc <? r_desc r then Ret desc else pick_desc s refs' (u32 (r_desc r + 1))
  end.

Definition new_ref (id proc node desc : Z) : binder_ref :=
  BinderRef id proc node desc 0 0 None.

(** The pointer [node] is never NULL in the calls the driver makes. *)
Definition binder_get_ref_for_node (s : driver) (proc node : Z) : res (option Z * driver) :=
  let! p := get_proc s proc in
  let '(ref, s') := kzalloc s in
  let! k := rb_link (node_of_ref_visit s node) (default 0 ref) (p_refs_by_node p) in
  match k, ref with
  | Present ref, _ => Ret (Some ref, s)
  | Linked _, None => Ret (None, s')
  | Linked t, Some ref =>
      let '(id, s) := next_id s' in
      let p := set_p_refs_by_node (rb_insert_color ref t) p in
      let! desc := pick_desc s (inorder (p_refs_by_desc p))
                     (if decide (s_context_mgr_node s = Some node) then 0 else 1) in
      let! k := rb_link (desc_visit s desc) ref (p_refs_by_desc p) in
      match k with
      | Present _ => Bug 1070
      | Linked t =>
          let p := set_p_refs_by_desc (rb_insert_color ref t) p in
          let s := put_ref (put_proc s proc p) ref (new_ref id proc node desc) in
          let! s := upd_node s node (fun n => set_n_refs (ref :: n_refs n) n) in
          Ret (Some ref, s)
      end
  end.

Definition binder_delete_ref (s : driver) (ref : Z) : res driver :=
  let! r := get_ref s ref in
  let! s := upd_proc s (r_proc r) (fun p =>
    set_p_refs_by_node (rb_erase ref (p_refs_by_node p))
      (set_p_refs_by_desc (rb_erase ref (p_refs_by_desc p)) p)) in
  let! s := if r_strong r =? 0 then Ret s
            else let! '(_, s) := binder_dec_node s (r_node r) true true in Ret s in
  let! s := upd_node s (r_node r) (fun n => set_n_refs (filter (.≠ ref) (n_refs n)) n) in
  let! '(_, s) := binder_dec_node s (r_node r) false true in
  let! s := match r_death r with
            | Some d => kfree_death (list_del s (WDeath d)) d
            | None => Ret s
            end in
  kfree_ref s ref.

Definition binder_inc_ref (s : driver) (ref : Z) (strong : bool)
    (target_list : option list_id) : res (Z * driver) :=
  let! r := get_ref s ref in
  let count := if strong then r_strong r else r_weak r in
  let! '(ret, s) := if count =? 0
                    then binder_inc_node s (r_node r) strong true target_list
                    else Ret (0, s) in
  if negb (ret =? 0) then Ret (ret, s)
  else
    let! s := upd_ref s ref (fun r =>
      if strong then set_r_strong (i32 (r_strong r + 1)) r
      else set_r_weak (i32 (r_weak r + 1)) r) in
    Ret (0, s).

(** The tail of [binder_dec_ref]. *)
Definition ref_unused (s : driver) (ref : Z) : res (Z * driver) :=
  let! r := get_ref s ref in
  if (r_strong r =? 0) && (r_weak r =? 0) then
    let! s := binder_delete_ref s ref in Ret (0, s)
  else Ret (0, s).

Definition binder_dec_ref (s : driver) (ref : Z) (strong : bool) : res (Z * driver) :=
  let! r := get_ref s ref in
  if strong then
    if r_strong r =? 0 then Ret (- EINVAL, s)
    else
      let r := set_r_strong (i32 (r_strong r - 1)) r in
      let s := put_ref s ref r in
      let! '(ret, s) := if r_strong r =? 0 then binder_dec_node s (r_node r) strong true
                        else Ret (0, s) in
      if negb (ret =? 0) then Ret (ret, s) else ref_unused s ref
  else
    if r_weak r =? 0 then Ret (- EINVAL, s)
    else ref_unused (put_ref s ref (set_r_weak (i32 (r_weak r - 1)) r)) ref.

End WithTrees.
