(* ===== verification/NodeRefInv.v ===== *)
(** * NodeRefInv: the invariant of nodes and references

    [graph_ok] relates processes, nodes and references.  It takes the references
    seen by the per-process trees and those seen by the nodes' lists separately,
    and an offset per node between the internal strong count and the number of
    references that hold the node strongly, so that it also describes the
    states in the middle of [binder_inc_ref] and [binder_delete_ref]. *)

From S2P Require Import Prelude RbTree BufferAlloc DriverState NodeRef.

Definition node_ptr (ns : gmap Z binder_node) (n : Z) : Z := from_option n_ptr 0 (ns !! n).
Definition ref_desc (rs : gmap Z binder_ref) (r : Z) : Z := from_option r_desc 0 (rs !! r).
Definition ref_node (rs : gmap Z binder_ref) (r : Z) : Z := from_option r_node 0 (rs !! r).

(** [r] holds its node strongly. *)
Definition holds_strong (rs : gmap Z binder_ref) (r : Z) : bool :=
  from_option (fun y => negb (r_strong y =? 0)) false (rs !! r).

Definition strong_holders (rs : gmap Z binder_ref) (l : list Z) : Z :=
  Z.of_nat (length (filter (fun r => holds_strong rs r = true) l)).

(** One process and its four trees. *)
Record proc_trees (ns : gmap Z binder_node) (tr : gmap Z binder_ref) (a : Z)
    (p : binder_proc) : Prop := {
  pt_nodes n : n ∈ inorder (p_nodes p) <-> exists x, ns !! n = Some x /\ n_proc x = Some a;
  pt_nodes_sorted : sorted_by_lt (node_ptr ns) (inorder (p_nodes p));
  pt_desc r : r ∈ inorder (p_refs_by_desc p) <-> exists y, tr !! r = Some y /\ r_proc y = a;
  pt_desc_sorted : sorted_by_lt (ref_desc tr) (inorder (p_refs_by_desc p));
  pt_node r : r ∈ inorder (p_refs_by_node p) <-> exists y, tr !! r = Some y /\ r_proc y = a;
  pt_node_sorted : sorted_by_lt (ref_node tr) (inorder (p_refs_by_node p))
}.

(** One node: its owner, its list of references, its internal strong count. *)
Record node_ok (ps : gmap Z binder_proc) (nl : gmap Z binder_ref) (dead : list Z)
    (off : Z) (n : Z) (x : binder_node) : Prop := {
  no_proc a : n_proc x = Some a -> is_Some (ps !! a);
  no_dead : n_proc x = None -> n ∈ dead;
  no_refs_NoDup : NoDup (n_refs x);
  no_refs r : r ∈ n_refs x <-> exists y, nl !! r = Some y /\ r_node y = n;
  no_strong : n_internal_strong_refs x = strong_holders nl (n_refs x) + off
}.

Record graph_ok (ps : gmap Z binder_proc) (ns : gmap Z binder_node)
    (tr nl : gmap Z binder_ref) (dead : list Z) (off : Z -> Z) : Prop := {
  go_procs a p : ps !! a = Some p -> proc_trees ns tr a p;
  go_nodes n x : ns !! n = Some x -> node_ok ps nl dead (off n) n x;
  go_ref_node r y : nl !! r = Some y -> is_Some (ns !! r_node y);
  go_ref_proc r y : tr !! r = Some y -> is_Some (ps !! r_proc y);
  go_desc r y : tr !! r = Some y -> 0 <= r_desc y < 2 ^ 32;
  go_dead n : n ∈ dead -> exists x, ns !! n = Some x /\ n_proc x = None
}.

Definition off0 (n : Z) : Z := 0.

(** Death notifications: each belongs to at most one reference. *)
Record deaths_ok (rs : gmap Z binder_ref) (ds : gmap Z binder_ref_death) : Prop := {
  do_death r y d : rs !! r = Some y -> r_death y = Some d -> is_Some (ds !! d);
  do_inj r1 r2 y1 y2 d : rs !! r1 = Some y1 -> rs !! r2 = Some y2 ->
    r_death y1 = Some d -> r_death y2 = Some d -> r1 = r2
}.

(** Work on a list belongs to a live object. *)
Definition work_live (s : driver) (w : work) : Prop :=
  match w with
  | WNode n => is_Some (s_nodes s !! n)
  | WDeath d => is_Some (s_deaths s !! d)
  | WTransaction t => is_Some (s_transactions s !! t)
  | WTransactionComplete _ => True
  end.

Definition works_ok (s : driver) : Prop :=
  forall l w, w ∈ work_list s l -> work_live s w.

(** What [kzalloc] hands out is not in use, nor handed out twice. *)
Definition address_used (s : driver) (a : Z) : Prop :=
  is_Some (s_procs s !! a) \/ is_Some (s_threads s !! a) \/ is_Some (s_nodes s !! a) \/
  is_Some (s_refs s !! a) \/ is_Some (s_deaths s !! a) \/ is_Some (s_transactions s !! a).

Record supply_ok (s : driver) : Prop := {
  su_fresh a : Some a ∈ s_kzalloc s -> ~ address_used s a;
  su_NoDup : NoDup (omap id (s_kzalloc s))
}.

(** Memory bounds the number of references. *)
Definition few_refs (s : driver) : Prop := Z.of_nat (size (s_refs s)) < 2 ^ 31 - 1.

Record refs_wf (s : driver) : Prop := {
  rw_graph : graph_ok (s_procs s) (s_nodes s) (s_refs s) (s_refs s) (s_dead_nodes s) off0;
  rw_deaths : deaths_ok (s_refs s) (s_deaths s);
  rw_counts r y : s_refs s !! r = Some y -> 0 <= r_strong y < 2 ^ 31 /\ 0 <= r_weak y < 2 ^ 31;
  rw_works : works_ok s
}.

(** ** The graph under single updates *)

Lemma sorted_by_lt_key f g l :
  (forall x, x ∈ l -> f x = g x) -> sorted_by_lt f l -> sorted_by_lt g l.
Proof. apply sorted_by_lt_ext. Qed.

Lemma node_ptr_put ns n x x' m :
  ns !! n = Some x -> n_ptr x' = n_ptr x -> node_ptr (<[n := x']> ns) m = node_ptr ns m.
Proof.
  intros E Ep. unfold node_ptr. destruct (decide (n = m)) as [->|Hne].
  - by rewrite lookup_insert_eq, E.
  - by rewrite lookup_insert_ne.
Qed.

Lemma strong_holders_nonneg rs l : 0 <= strong_holders rs l.
Proof. unfold strong_holders. lia. Qed.

Lemma strong_holders_ext rs rs' l :
  (forall r, r ∈ l -> holds_strong rs r = holds_strong rs' r) ->
  strong_holders rs l = strong_holders rs' l.
Proof.
  unfold strong_holders. intros H. f_equal. f_equal.
  induction l as [|r l IH]; [done|]. rewrite !filter_cons, <- H by set_solver.
  rewrite IH by set_solver. done.
Qed.

(** Writing fields of a node other than its owner, pointer and list. *)
Lemma graph_put_node ps ns tr nl dead off n x x' :
  graph_ok ps ns tr nl dead off -> ns !! n = Some x ->
  n_proc x' = n_proc x -> n_ptr x' = n_ptr x -> n_refs x' = n_refs x ->
  graph_ok ps (<[n := x']> ns) tr nl dead
    (fun m => if decide (m = n)
              then off n + (n_internal_strong_refs x' - n_internal_strong_refs x) else off m).
Proof.
  intros [Gp Gn Gr Gq Gd Ge] E Ep Et Er. split; [| | |done|done|].
  - intros a p Hp. destruct (Gp a p Hp) as [H1 H2 H3 H4 H5 H6]. split; try done.
    + intros m. rewrite H1. destruct (decide (n = m)) as [->|Hne].
      * rewrite lookup_insert_eq, E. split; intros (y & [= <-] & ?); eexists; split; try done; congruence.
      * by rewrite lookup_insert_ne.
    + eapply sorted_by_lt_key; [|exact H2]. intros m _. symmetry. by eapply node_ptr_put.
  - intros m y. destruct (decide (m = n)) as [->|Hne].
    + rewrite lookup_insert_eq. intros [= <-]. destruct (Gn n x E) as [N1 N2 N3 N4 N5].
      split; rewrite ?Ep, ?Er; try done. lia.
    + rewrite lookup_insert_ne by congruence. apply Gn.
  - intros r y Hr. destruct (Gr r y Hr) as [z Hz]. destruct (decide (n = r_node y)) as [->|Hne].
    + rewrite lookup_insert_eq. eauto.
    + rewrite lookup_insert_ne by done. eauto.
  - intros m Hm. destruct (Ge m Hm) as (z & Hz & Hzp). destruct (decide (n = m)) as [->|Hne].
    + rewrite lookup_insert_eq. exists x'. split; [done|congruence].
    + rewrite lookup_insert_ne by done. eauto.
Qed.

Lemma graph_off_ext ps ns tr nl dead off off' :
  (forall n, is_Some (ns !! n) -> off n = off' n) ->
  graph_ok ps ns tr nl dead off -> graph_ok ps ns tr nl dead off'.
Proof.
  intros H [Gp Gn Gr Gq Gd Ge]. split; try done. intros n x E. rewrite <- H by eauto. by apply Gn.
Qed.

Lemma node_ptr_delete ns n m : m <> n -> node_ptr ns m = node_ptr (delete n ns) m.
Proof. intros. unfold node_ptr. by rewrite lookup_delete_ne. Qed.

Lemma ref_desc_delete rs r m : m <> r -> ref_desc rs m = ref_desc (delete r rs) m.
Proof. intros. unfold ref_desc. by rewrite lookup_delete_ne. Qed.

Lemma ref_node_delete rs r m : m <> r -> ref_node rs m = ref_node (delete r rs) m.
Proof. intros. unfold ref_node. by rewrite lookup_delete_ne. Qed.

Section WithTrees.
Context `{RL : RbLib}.

(** The trees of a process that forgets one of its nodes. *)
Lemma proc_trees_own_node ns tr a p n x :
  proc_trees ns tr a p -> ns !! n = Some x -> n_proc x = Some a ->
  proc_trees (delete n ns) tr a (set_p_nodes (rb_erase n (p_nodes p)) p).
Proof.
  intros [H1 H2 H3 H4 H5 H6] E Ep.
  assert (n ∈ inorder (p_nodes p)) as Hin by (apply H1; eauto).
  pose proof (sorted_by_lt_NoDup _ _ H2) as Hnd. split; try done; simpl.
  - intros m. rewrite rb_erase_member, H1 by done.
    setoid_rewrite lookup_delete_Some. naive_solver.
  - apply (rb_erase_sorted_lt (node_ptr ns)); [done|done|].
    intros m Hm. by apply node_ptr_delete.
Qed.

(** The trees of a process that does not own the node deleted. *)
Lemma proc_trees_other_node ns tr a p n x :
  proc_trees ns tr a p -> ns !! n = Some x -> n_proc x <> Some a ->
  proc_trees (delete n ns) tr a p.
Proof.
  intros [H1 H2 H3 H4 H5 H6] E Ep. split; try done.
  - intros m. rewrite H1. setoid_rewrite lookup_delete_Some. naive_solver.
  - eapply sorted_by_lt_key; [|exact H2]. intros m Hm. apply node_ptr_delete.
    apply H1 in Hm as (y & Ey & Epy). intros ->. congruence.
Qed.

(** Freeing a node no reference points to: of a live process... *)
Lemma graph_free_node ps ns tr nl dead off n x a p :
  graph_ok ps ns tr nl dead off -> ns !! n = Some x -> n_refs x = [] ->
  n_proc x = Some a -> ps !! a = Some p ->
  graph_ok (<[a := set_p_nodes (rb_erase n (p_nodes p)) p]> ps) (delete n ns) tr nl dead off.
Proof.
  intros [Gp Gn Gr Gq Gd Ge] E Er Ep Ea. split; try done.
  - intros b q. destruct (decide (a = b)) as [<-|Hne].
    + rewrite lookup_insert_eq. intros [= <-]. eapply proc_trees_own_node; eauto.
    + rewrite lookup_insert_ne by done. intros Hb.
      eapply proc_trees_other_node; [by apply Gp|done|congruence].
  - intros m y [Hne Hm]%lookup_delete_Some. destruct (Gn m y Hm) as [N1 N2 N3 N4 N5].
    split; try done. intros b Hb. destruct (decide (a = b)) as [<-|Hab].
    + rewrite lookup_insert_eq. eauto.
    + rewrite lookup_insert_ne by done. eauto.
  - intros r y Hr. destruct (Gr r y Hr) as [z Hz]. exists z. apply lookup_delete_Some.
    split; [|done]. intros ->. destruct (Gn _ _ E) as [_ _ _ N4 _].
    assert (r ∈ n_refs x) as Hin by (apply N4; eauto). rewrite Er in Hin.
    by apply not_elem_of_nil in Hin.
  - intros r y Hr. destruct (Gq r y Hr) as [q Hq]. destruct (decide (a = r_proc y)) as [->|Hab].
    + rewrite lookup_insert_eq. eauto.
    + rewrite lookup_insert_ne by done. eauto.
  - intros m Hm. destruct (Ge m Hm) as (z & Hz & Hzp). exists z.
    split; [|done]. apply lookup_delete_Some. split; [|done]. intros ->. congruence.
Qed.

(** ... and of a dead one. *)
Lemma graph_free_dead_node ps ns tr nl dead off n x :
  graph_ok ps ns tr nl dead off -> ns !! n = Some x -> n_refs x = [] -> n_proc x = None ->
  graph_ok ps (delete n ns) tr nl (filter (.≠ n) dead) off.
Proof.
  intros [Gp Gn Gr Gq Gd Ge] E Er Ep. split; try done.
  - intros b q Hb. eapply proc_trees_other_node; [by apply Gp|done|congruence].
  - intros m y [Hne Hm]%lookup_delete_Some. destruct (Gn m y Hm) as [N1 N2 N3 N4 N5].
    split; try done. rewrite list_elem_of_filter. naive_solver.
  - intros r y Hr. destruct (Gr r y Hr) as [z Hz]. exists z. apply lookup_delete_Some.
    split; [|done]. intros ->. destruct (Gn _ _ E) as [_ _ _ N4 _].
    assert (r ∈ n_refs x) as Hin by (apply N4; eauto). rewrite Er in Hin.
    by apply not_elem_of_nil in Hin.
  - intros m [Hne Hm]%list_elem_of_filter. destruct (Ge m Hm) as (z & Hz & Hzp). exists z.
    split; [|done]. apply lookup_delete_Some. naive_solver.
Qed.

(** Erasing a reference from its process's two trees. *)
Lemma graph_untree ps ns tr nl dead off r y p :
  graph_ok ps ns tr nl dead off -> tr !! r = Some y -> ps !! r_proc y = Some p ->
  graph_ok (<[r_proc y := set_p_refs_by_node (rb_erase r (p_refs_by_node p))
              (set_p_refs_by_desc (rb_erase r (p_refs_by_desc p)) p)]> ps)
    ns (delete r tr) nl dead off.
Proof.
  intros [Gp Gn Gr Gq Gd Ge] E Ep. split; try done.
  - intros b q. destruct (decide (r_proc y = b)) as [<-|Hne].
    + rewrite lookup_insert_eq. intros [= <-].
      destruct (Gp _ _ Ep) as [H1 H2 H3 H4 H5 H6].
      assert (r ∈ inorder (p_refs_by_desc p)) by (apply H3; eauto).
      assert (r ∈ inorder (p_refs_by_node p)) by (apply H5; eauto).
      pose proof (sorted_by_lt_NoDup _ _ H4). pose proof (sorted_by_lt_NoDup _ _ H6).
      split; try done; simpl.
      * intros m. rewrite rb_erase_member, H3 by done.
        setoid_rewrite lookup_delete_Some. naive_solver.
      * apply (rb_erase_sorted_lt (ref_desc tr)); [done|done|].
        intros m Hm. by apply ref_desc_delete.
      * intros m. rewrite rb_erase_member, H5 by done.
        setoid_rewrite lookup_delete_Some. naive_solver.
      * apply (rb_erase_sorted_lt (ref_node tr)); [done|done|].
        intros m Hm. by apply ref_node_delete.
    + rewrite lookup_insert_ne by done. intros Hb.
      destruct (Gp _ _ Hb) as [H1 H2 H3 H4 H5 H6]. split; try done.
      * intros m. rewrite H3. setoid_rewrite lookup_delete_Some. naive_solver.
      * eapply sorted_by_lt_key; [|exact H4]. intros m Hm. apply ref_desc_delete.
        apply H3 in Hm as (z & ? & ?). intros ->. congruence.
      * intros m. rewrite H5. setoid_rewrite lookup_delete_Some. naive_solver.
      * eapply sorted_by_lt_key; [|exact H6]. intros m Hm. apply ref_node_delete.
        apply H5 in Hm as (z & ? & ?). intros ->. congruence.
  - intros m z Hm. destruct (Gn m z Hm) as [N1 N2 N3 N4 N5]. split; try done.
    intros b Hb. destruct (decide (r_proc y = b)) as [<-|Hab].
    + rewrite lookup_insert_eq. eauto.
    + rewrite lookup_insert_ne by done. eauto.
  - intros m z [_ Hm]%lookup_delete_Some. destruct (Gq m z Hm) as [q Hq].
    destruct (decide (r_proc y = r_proc z)) as [->|Hab].
    + rewrite lookup_insert_eq. eauto.
    + rewrite lookup_insert_ne by done. eauto.
  - intros m z [_ Hm]%lookup_delete_Some. eauto.
Qed.

(** *** Strong counts under updates of the references *)

Definition strong_bit (y : binder_ref) : Z := if r_strong y =? 0 then 0 else 1.

Lemma holds_strong_bit rs r y : rs !! r = Some y ->
  Z.b2z (holds_strong rs r) = strong_bit y.
Proof. unfold holds_strong, strong_bit. intros ->. simpl. by destruct (_ =? 0). Qed.

Lemma strong_holders_cons rs r l :
  strong_holders rs (r :: l) = Z.b2z (holds_strong rs r) + strong_holders rs l.
Proof.
  unfold strong_holders. rewrite filter_cons. destruct (holds_strong rs r); simpl; lia.
Qed.

(** Changing what is known of [r] changes a count by [r]'s own share. *)
Lemma strong_holders_change rs rs' r l :
  (forall m, m <> r -> rs !! m = rs' !! m) -> NoDup l ->
  strong_holders rs' l = strong_holders rs l +
    (if decide (r ∈ l) then Z.b2z (holds_strong rs' r) - Z.b2z (holds_strong rs r) else 0).
Proof.
  intros H. induction l as [|m l IH]; intros Hnd.
  { rewrite decide_False by apply not_elem_of_nil. done. }
  apply NoDup_cons in Hnd as [Hm Hnd]. rewrite !strong_holders_cons, IH by done.
  destruct (decide (m = r)) as [->|Hne].
  - rewrite (decide_False (P := r ∈ l)), decide_True by set_solver. lia.
  - assert (holds_strong rs m = holds_strong rs' m) as -> by (unfold holds_strong; by rewrite H).
    destruct (decide (r ∈ l)), (decide (r ∈ m :: l)); set_solver || lia.
Qed.

Lemma strong_holders_remove rs r l :
  r ∈ l -> NoDup l ->
  strong_holders (delete r rs) (filter (.≠ r) l) =
    strong_holders rs l - Z.b2z (holds_strong rs r).
Proof.
  intros Hr Hnd.
  assert (strong_holders (delete r rs) (filter (.≠ r) l) = strong_holders rs (filter (.≠ r) l)) as ->.
  { apply strong_holders_ext. intros m [Hm _]%list_elem_of_filter.
    unfold holds_strong. by rewrite lookup_delete_ne. }
  induction l as [|m l IH]; [by apply not_elem_of_nil in Hr|].
  apply NoDup_cons in Hnd as [Hm Hnd]. rewrite filter_cons, strong_holders_cons.
  destruct (decide (m ≠ r)) as [Hne|Hne].
  - rewrite strong_holders_cons, IH by set_solver. lia.
  - apply dec_stable in Hne as ->. rewrite filter_all by (intros z Hz ->; done). lia.
Qed.

(** Taking a reference off its node's list. *)
Lemma graph_unlink ps ns tr nl dead off r y x :
  graph_ok ps ns tr nl dead off -> nl !! r = Some y -> tr !! r = None ->
  ns !! r_node y = Some x ->
  graph_ok ps (<[r_node y := set_n_refs (filter (.≠ r) (n_refs x)) x]> ns) tr (delete r nl) dead
    (fun m => if decide (m = r_node y) then off m + strong_bit y else off m).
Proof.
  intros Hg Er Et Ex. destruct Hg as [Gp Gn Gr Gq Gd Ge].
  assert (forall m, node_ptr ns m =
    node_ptr (<[r_node y := set_n_refs (filter (.≠ r) (n_refs x)) x]> ns) m) as Hptr
    by (intros m; symmetry; by eapply node_ptr_put).
  assert (forall m, is_Some (ns !! m) -> is_Some
    (<[r_node y := set_n_refs (filter (.≠ r) (n_refs x)) x]> ns !! m)) as Hsome.
  { intros m Hm. destruct (decide (r_node y = m)) as [<-|Hne].
    - rewrite lookup_insert_eq. eauto.
    - by rewrite lookup_insert_ne. }
  split; try done.
  - intros a p Hp. destruct (Gp a p Hp) as [H1 H2 H3 H4 H5 H6]. split; try done.
    + intros m. rewrite H1. destruct (decide (r_node y = m)) as [<-|Hne].
      * rewrite lookup_insert_eq, Ex. split; intros (z & [= <-] & ?); eexists; split; done.
      * by rewrite lookup_insert_ne.
    + eapply sorted_by_lt_key; [|exact H2]. by intros m _.
  - intros m z. destruct (decide (r_node y = m)) as [<-|Hne].
    + rewrite lookup_insert_eq, decide_True by done. intros [= <-].
      destruct (Gn _ _ Ex) as [N1 N2 N3 N4 N5]. split; try done; simpl.
      * by apply NoDup_filter.
      * intros m. rewrite list_elem_of_filter, N4. setoid_rewrite lookup_delete_Some. naive_solver.
      * rewrite strong_holders_remove; [|apply N4; eauto|done].
        rewrite (holds_strong_bit _ _ _ Er). lia.
    + rewrite lookup_insert_ne, decide_False by congruence. intros Hm.
      destruct (Gn _ _ Hm) as [N1 N2 N3 N4 N5].
      assert (r ∉ n_refs z) as Hr by (rewrite N4; intros (w & ? & ?); congruence).
      split; try done.
      * intros k. rewrite N4. setoid_rewrite lookup_delete_Some. naive_solver.
      * rewrite N5. f_equal. apply strong_holders_ext. intros k Hk.
        unfold holds_strong. rewrite lookup_delete_ne; [done|]. by intros ->.
  - intros m z [_ Hm]%lookup_delete_Some. apply Hsome. by eapply Gr.
  - intros m Hm. destruct (Ge m Hm) as (z & Hz & Hzp). destruct (decide (r_node y = m)) as [<-|Hne].
    + rewrite lookup_insert_eq. eexists. split; [done|]. simpl. congruence.
    + rewrite lookup_insert_ne by done. eauto.
Qed.

(** Changing a reference's counts or death notification. *)
Lemma graph_put_ref ps ns tr nl dead off r y y' :
  graph_ok ps ns tr nl dead off -> nl !! r = Some y -> tr !! r = Some y ->
  r_proc y' = r_proc y -> r_node y' = r_node y -> r_desc y' = r_desc y ->
  graph_ok ps ns (<[r := y']> tr) (<[r := y']> nl) dead
    (fun m => if decide (m = r_node y) then off m + strong_bit y - strong_bit y' else off m).
Proof.
  intros [Gp Gn Gr Gq Gd Ge] Er Et Ep En Ed.
  assert (forall (f : binder_ref -> Z), f y' = f y -> forall m,
    from_option f 0 (tr !! m) = from_option f 0 (<[r := y']> tr !! m)) as Hkey.
  { intros f Hf m. destruct (decide (r = m)) as [<-|Hne].
    - by rewrite lookup_insert_eq, Et.
    - by rewrite lookup_insert_ne. }
  assert (forall (m b : Z) (f : binder_ref -> Z), f y' = f y ->
    forall rs : gmap Z binder_ref, rs !! r = Some y ->
    (exists z, rs !! m = Some z /\ f z = b) <->
    (exists z, <[r := y']> rs !! m = Some z /\ f z = b)) as Hmem.
  { intros m b f Hf rs Hrs. destruct (decide (r = m)) as [<-|Hne].
    - rewrite lookup_insert_eq, Hrs. split; intros (z & [= <-] & ?); eexists; split; try done; congruence.
    - by rewrite lookup_insert_ne. }
  split; try done.
  - intros a p Hp. destruct (Gp a p Hp) as [H1 H2 H3 H4 H5 H6]. split; try done.
    + intros m. rewrite H3. by apply Hmem.
    + eapply sorted_by_lt_key; [|exact H4]. intros m _. by apply Hkey.
    + intros m. rewrite H5. by apply Hmem.
    + eapply sorted_by_lt_key; [|exact H6]. intros m _. by apply Hkey.
  - intros n x Hx. destruct (Gn n x Hx) as [N1 N2 N3 N4 N5]. split; try done.
    + intros m. rewrite N4. by apply Hmem.
    + rewrite (strong_holders_change nl _ r), (holds_strong_bit nl r y),
        (holds_strong_bit _ r y') by (done || apply lookup_insert_eq ||
          (intros; by rewrite lookup_insert_ne)).
      assert (r ∈ n_refs x <-> n = r_node y) as Hin.
      { rewrite N4. split; [intros (z & ? & ?); congruence|intros ->; eauto]. }
      destruct (decide (r ∈ n_refs x)), (decide (n = r_node y)); try tauto; lia.
  - intros m z. destruct (decide (r = m)) as [<-|Hne].
    + rewrite lookup_insert_eq. intros [= <-]. rewrite En. eauto.
    + rewrite lookup_insert_ne by done. eauto.
  - intros m z. destruct (decide (r = m)) as [<-|Hne].
    + rewrite lookup_insert_eq. intros [= <-]. rewrite Ep. eauto.
    + rewrite lookup_insert_ne by done. eauto.
  - intros m z. destruct (decide (r = m)) as [<-|Hne].
    + rewrite lookup_insert_eq. intros [= <-]. rewrite Ed. eauto.
    + rewrite lookup_insert_ne by done. eauto.
Qed.

(** *** New objects *)

(** A tree with [x] added keeps its membership and order. *)
Lemma added_tree key key' x t t' :
  sorted_by_lt key' (inorder t') -> inorder t' ≡ₚ x :: inorder t ->
  (forall y, key' y = key y) ->
  sorted_by_lt key (inorder t') /\ forall y, y ∈ inorder t' <-> y = x \/ y ∈ inorder t.
Proof.
  intros Hs Hp Hk. split.
  - eapply sorted_by_lt_key; [|exact Hs]. by intros y _.
  - intros y. by rewrite Hp, elem_of_cons.
Qed.

(** A new reference [r] of process [a] to the node [n]. *)
Lemma graph_link ps ns rs dead off r y p x td tn :
  graph_ok ps ns rs rs dead off -> rs !! r = None -> ps !! r_proc y = Some p ->
  ns !! r_node y = Some x -> r_strong y = 0 -> 0 <= r_desc y < 2 ^ 32 ->
  sorted_by_lt (ref_desc (<[r := y]> rs)) (inorder td) ->
  inorder td ≡ₚ r :: inorder (p_refs_by_desc p) ->
  sorted_by_lt (ref_node (<[r := y]> rs)) (inorder tn) ->
  inorder tn ≡ₚ r :: inorder (p_refs_by_node p) ->
  graph_ok (<[r_proc y := set_p_refs_by_desc td (set_p_refs_by_node tn p)]> ps)
    (<[r_node y := set_n_refs (r :: n_refs x) x]> ns)
    (<[r := y]> rs) (<[r := y]> rs) dead off.
Proof.
  intros [Gp Gn Gr Gq Gd Ge] Er Ea Ex Es Hd Sd Pd Sn Pn.
  assert (forall m, is_Some (ns !! m) -> is_Some
    (<[r_node y := set_n_refs (r :: n_refs x) x]> ns !! m)) as Hsome.
  { intros m Hm. destruct (decide (r_node y = m)) as [<-|Hne].
    - rewrite lookup_insert_eq. eauto.
    - by rewrite lookup_insert_ne. }
  assert (forall m, is_Some (ps !! m) -> is_Some
    (<[r_proc y := set_p_refs_by_desc td (set_p_refs_by_node tn p)]> ps !! m)) as Hsome'.
  { intros m Hm. destruct (decide (r_proc y = m)) as [<-|Hne].
    - rewrite lookup_insert_eq. eauto.
    - by rewrite lookup_insert_ne. }
  assert (forall m z, <[r := y]> rs !! m = Some z ->
    (m = r /\ z = y) \/ (m <> r /\ rs !! m = Some z)) as Hins.
  { intros m z. rewrite lookup_insert_Some. naive_solver. }
  assert (forall m (b : Z) (f : binder_ref -> Z), (exists z, <[r := y]> rs !! m = Some z /\ f z = b)
    <-> (m = r /\ f y = b) \/ (exists z, rs !! m = Some z /\ f z = b)) as Hmem.
  { intros m b f. setoid_rewrite lookup_insert_Some. split; [naive_solver|].
    intros [[-> ?]|(z & ? & ?)]; [eauto|]. exists z. split; [|done]. right.
    split; [intros ->; congruence|done]. }
  split.
  - intros a q. rewrite lookup_insert_Some. intros [[<- <-]|[Hne Hq]].
    + destruct (Gp _ _ Ea) as [H1 H2 H3 H4 H5 H6]. split; try done; simpl.
      * intros m. rewrite H1. destruct (decide (r_node y = m)) as [<-|Hne].
        -- rewrite lookup_insert_eq, Ex. split; intros (z & [= <-] & ?); eexists; split; done.
        -- by rewrite lookup_insert_ne.
      * eapply sorted_by_lt_key; [|exact H2]. intros m _. symmetry. by eapply node_ptr_put.
      * intros m. rewrite Hmem, <- H3, Pd, elem_of_cons. naive_solver.
      * intros m. rewrite Hmem, <- H5, Pn, elem_of_cons. naive_solver.
    + destruct (Gp _ _ Hq) as [H1 H2 H3 H4 H5 H6]. split.
      * intros m. rewrite H1. destruct (decide (r_node y = m)) as [<-|Hne'].
        -- rewrite lookup_insert_eq, Ex. split; intros (z & [= <-] & ?); eexists; split; done.
        -- by rewrite lookup_insert_ne.
      * eapply sorted_by_lt_key; [|exact H2]. intros m _. symmetry. by eapply node_ptr_put.
      * intros m. rewrite Hmem, <- H3. naive_solver.
      * eapply sorted_by_lt_key; [|exact H4]. intros m Hm. unfold ref_desc.
        rewrite lookup_insert_ne; [done|]. intros ->. apply H3 in Hm as (? & ? & _). congruence.
      * intros m. rewrite Hmem, <- H5. naive_solver.
      * eapply sorted_by_lt_key; [|exact H6]. intros m Hm. unfold ref_node.
        rewrite lookup_insert_ne; [done|]. intros ->. apply H5 in Hm as (? & ? & _). congruence.
  - intros n z. rewrite lookup_insert_Some. intros [[<- <-]|[Hne Hz]].
    + destruct (Gn _ _ Ex) as [N1 N2 N3 N4 N5].
      assert (r ∉ n_refs x) as Hr by (rewrite N4; intros (? & ? & _); congruence).
      split; simpl; [intros; by apply Hsome', N1|done|by apply NoDup_cons| |].
      * intros m. rewrite Hmem, elem_of_cons, N4. naive_solver.
      * rewrite N5, strong_holders_cons. unfold holds_strong at 1. rewrite lookup_insert_eq.
        simpl. rewrite Es. simpl. f_equal. apply strong_holders_ext. intros m Hm.
        unfold holds_strong. rewrite lookup_insert_ne; [done|]. by intros ->.
    + destruct (Gn _ _ Hz) as [N1 N2 N3 N4 N5]. split; try done.
      * intros; by apply Hsome', N1.
      * intros m. rewrite Hmem, N4. naive_solver.
      * rewrite N5. f_equal. apply strong_holders_ext. intros m Hm. unfold holds_strong.
        rewrite lookup_insert_ne; [done|]. intros ->. apply N4 in Hm as (? & ? & _). congruence.
  - intros m z Hm. apply Hsome. destruct (Hins m z Hm) as [[-> ->]|[_ Hm']]; eauto.
  - intros m z Hm. apply Hsome'. destruct (Hins m z Hm) as [[-> ->]|[_ Hm']]; eauto.
  - intros m z Hm. destruct (Hins m z Hm) as [[-> ->]|[_ Hm']]; eauto.
  - intros m Hm. destruct (Ge m Hm) as (z & Hz & Hzp). destruct (decide (r_node y = m)) as [<-|Hne].
    + rewrite lookup_insert_eq. eexists. split; [done|]. simpl. congruence.
    + rewrite lookup_insert_ne by done. eauto.
Qed.

(** A new node [n] of process [a]. *)
Lemma graph_new_node ps ns tr nl dead off n x a p t :
  graph_ok ps ns tr nl dead off -> ns !! n = None -> ps !! a = Some p ->
  n_proc x = Some a -> n_refs x = [] -> n_internal_strong_refs x = 0 -> off n = 0 ->
  sorted_by_lt (node_ptr (<[n := x]> ns)) (inorder t) ->
  inorder t ≡ₚ n :: inorder (p_nodes p) ->
  graph_ok (<[a := set_p_nodes t p]> ps) (<[n := x]> ns) tr nl dead off.
Proof.
  intros [Gp Gn Gr Gq Gd Ge] En Ea Ep Er Es Eo St Pt.
  assert (forall m, is_Some (ps !! m) -> is_Some (<[a := set_p_nodes t p]> ps !! m)) as Hsome.
  { intros m Hm. destruct (decide (a = m)) as [<-|Hne].
    - rewrite lookup_insert_eq. eauto.
    - by rewrite lookup_insert_ne. }
  assert (forall m b, (exists z, <[n := x]> ns !! m = Some z /\ n_proc z = Some b) <->
    (m = n /\ b = a) \/ (exists z, ns !! m = Some z /\ n_proc z = Some b)) as Hmem.
  { intros m b. setoid_rewrite lookup_insert_Some. split; [naive_solver congruence|].
    intros [[-> ->]|(z & ? & ?)]; [eauto|]. exists z. split; [|done]. right.
    split; [intros ->; congruence|done]. }
  split; try done.
  - intros b q. rewrite lookup_insert_Some. intros [[<- <-]|[Hne Hq]].
    + destruct (Gp _ _ Ea) as [H1 H2 H3 H4 H5 H6]. split; try done; simpl.
      intros m. rewrite Hmem, <- H1, Pt, elem_of_cons. naive_solver.
    + destruct (Gp _ _ Hq) as [H1 H2 H3 H4 H5 H6]. split; try done.
      * intros m. rewrite Hmem, <- H1. naive_solver.
      * eapply sorted_by_lt_key; [|exact H2]. intros m Hm. unfold node_ptr.
        rewrite lookup_insert_ne; [done|]. intros ->. apply H1 in Hm as (? & ? & _). congruence.
  - intros m z. rewrite lookup_insert_Some. intros [[<- <-]|[Hne Hz]].
    + split; try done; rewrite ?Er; try done.
      * intros b Hb. apply Hsome. rewrite Ep in Hb. injection Hb as <-. eauto.
      * congruence.
      * constructor.
      * intros m. split; [by intros ?%not_elem_of_nil|]. intros (z & Hz & Hn).
        destruct (Gr m z Hz) as [w Hw]. rewrite Hn in Hw. congruence.
      * rewrite Es, Eo. done.
    + destruct (Gn _ _ Hz) as [N1 N2 N3 N4 N5]. split; try done. intros; by apply Hsome, N1.
  - intros m z Hm. destruct (Gr m z Hm) as [w Hw]. exists w. rewrite lookup_insert_ne; [done|].
    intros ->. congruence.
  - intros m z Hm. apply Hsome. by eapply Gq.
  - intros m Hm. destruct (Ge m Hm) as (z & Hz & Hzp). exists z. split; [|done].
    rewrite lookup_insert_ne; [done|]. intros ->. congruence.
Qed.

End WithTrees.
