(* ===== verification/NodeRefOps.v ===== *)
(** * NodeRefOps: what the node and reference operations do

    For each operation of NodeRef on a state that satisfies the invariant: it
    does not trip a [BUG], it does not follow a stale pointer, and the
    invariant holds afterwards.  [same_rest] says what it leaves alone. *)

From S2P Require Import Prelude RbTree BufferAlloc DriverState NodeRef NodeRefInv.

(** ** What the operations leave alone *)

(** The fields of a process outside its node and reference trees. *)
Definition proc_rest (p : binder_proc) : binder_proc :=
  set_p_nodes RbLeaf (set_p_refs_by_desc RbLeaf (set_p_refs_by_node RbLeaf p)).

(** Everything but the graph, the lists, the wake-ups and the supply. *)
Definition same_rest (s s' : driver) : Prop :=
  proc_rest <$> s_procs s' = proc_rest <$> s_procs s /\
  s_threads s' = s_threads s /\ s_transactions s' = s_transactions s /\
  s_binder_procs s' = s_binder_procs s /\ s_deferred_list s' = s_deferred_list s /\
  s_context_mgr_node s' = s_context_mgr_node s /\
  s_context_mgr_uid s' = s_context_mgr_uid s /\ s_nice s' = s_nice s /\
  s_installed_fds s' = s_installed_fds s.

#[global] Instance same_rest_refl : Reflexive same_rest.
Proof. by intros s. Qed.

#[global] Instance same_rest_trans : Transitive same_rest.
Proof. unfold same_rest. intros s1 s2 s3. intuition congruence. Qed.

(** [same_rest], with the references and death notifications fixed too. *)
Definition same_refs (s s' : driver) : Prop :=
  same_rest s s' /\ s_refs s' = s_refs s /\ s_deaths s' = s_deaths s /\
  s_kzalloc s' = s_kzalloc s /\ s_last_id s' = s_last_id s.

#[global] Instance same_refs_refl : Reflexive same_refs.
Proof. by intros s. Qed.

#[global] Instance same_refs_trans : Transitive same_refs.
Proof.
  intros s1 s2 s3 (Ha & ? & ? & ? & ?) (Hb & ? & ? & ? & ?).
  split; [by transitivity s2|]. intuition congruence.
Qed.

Lemma same_rest_put_proc s a p p' :
  s_procs s !! a = Some p -> proc_rest p' = proc_rest p -> same_rest s (put_proc s a p').
Proof.
  intros E Er. split; [|by repeat split]. simpl. rewrite fmap_insert, Er. apply insert_id.
  by rewrite lookup_fmap, E.
Qed.

(** ** Work on lists *)

Lemma works_step s s' :
  works_ok s ->
  (forall l w, w ∈ work_list s' l -> (exists l', w ∈ work_list s l') \/ work_live s' w) ->
  (forall l w, w ∈ work_list s' l -> work_live s w -> work_live s' w) ->
  works_ok s'.
Proof.
  intros Hs Hin Hlive l w Hw. destruct (Hin l w Hw) as [[l' Hl']|H]; [|done].
  eapply Hlive; [done|]. by eapply Hs.
Qed.

(** Only the lists and the objects that embed work items matter. *)
Lemma works_same s s' :
  works_ok s -> s_lists s' = s_lists s -> s_nodes s' = s_nodes s ->
  s_deaths s' = s_deaths s -> s_transactions s' = s_transactions s -> works_ok s'.
Proof.
  intros Hs El En Ed Et l w. unfold work_list. rewrite El. intros Hw.
  specialize (Hs l w Hw). destruct w; simpl in *; congruence.
Qed.

Lemma works_add_tail s w l : works_ok s -> work_live s w -> works_ok (list_add_tail s w l).
Proof.
  intros Hs Hw. apply (works_step s); [done| |by destruct w0].
  intros l' w'. rewrite work_list_add_tail. case_decide; [|eauto].
  intros [?|E]%elem_of_app; [eauto|]. apply list_elem_of_singleton in E as ->.
  right. by destruct w.
Qed.

Lemma works_del s w : works_ok s -> works_ok (list_del s w).
Proof.
  intros Hs. apply (works_step s); [done| |by destruct w0].
  intros l' w'. rewrite work_list_del, list_elem_of_filter. naive_solver.
Qed.

Lemma works_put_node s n x : works_ok s -> works_ok (put_node s n x).
Proof.
  intros Hs. apply (works_step s); [done|naive_solver|].
  intros l [] _; try done. simpl. intros [y Hy]. destruct (decide (n = n0)) as [->|Hne].
  - rewrite lookup_insert_eq. eauto.
  - rewrite lookup_insert_ne by done. eauto.
Qed.

(** Freeing a node whose work is on no list. *)
Lemma works_free_node s n :
  works_ok s -> (forall l, WNode n ∉ work_list s l) ->
  works_ok (set_s_nodes (delete n (s_nodes s)) s).
Proof.
  intros Hs Hn l w Hw. pose proof (Hs l w Hw) as Hl. destruct w; try done. simpl in *.
  rewrite lookup_delete_ne; [done|]. intros <-. by apply (Hn l).
Qed.

Lemma not_queued_del s w l : w ∉ work_list (list_del s w) l.
Proof. rewrite work_list_del, list_elem_of_filter. tauto. Qed.

Section WithTrees.
Context `{RL : RbLib}.

(** ** [binder_dec_node] *)

(** A node may be freed when no reference and no local count keeps it, and the
    owner, if alive, holds no count of it either. *)
Definition node_free_ok (x : binder_node) : Prop :=
  n_refs x = [] /\ n_local_strong_refs x = 0 /\ n_local_weak_refs x = 0 /\
  (n_proc x = None \/ n_has_strong_ref x = false /\ n_has_weak_ref x = false).

(** Only the node at [n] may change, and only by being freed. *)
Definition node_after (n : Z) (x : binder_node) (s s' : driver) : Prop :=
  (forall m, m <> n -> s_nodes s' !! m = s_nodes s !! m) /\
  (s_nodes s' !! n = Some x \/ s_nodes s' !! n = None /\ node_free_ok x).

Lemma node_unused_spec s n x tr nl off :
  graph_ok (s_procs s) (s_nodes s) tr nl (s_dead_nodes s) off ->
  works_ok s -> s_nodes s !! n = Some x ->
  exists s', node_unused s n = Ret (0, s') /\
    graph_ok (s_procs s') (s_nodes s') tr nl (s_dead_nodes s') off /\
    works_ok s' /\ same_refs s s' /\ node_after n x s s'.
Proof.
  intros Hg Hw E. destruct (go_nodes _ _ _ _ _ _ Hg n x E) as [N1 N2 N3 N4 N5].
  unfold node_unused, get_node. rewrite (deref_Some _ _ _ E). cbn [res_bind].
  assert (exists s', Ret (0, s) = Ret (0, s') /\
    graph_ok (s_procs s') (s_nodes s') tr nl (s_dead_nodes s') off /\
    works_ok s' /\ same_refs s s' /\ node_after n x s s') as Hsame.
  { exists s. unfold node_after. by repeat (split; [done|]); auto. }
  destruct (n_proc x) as [a|] eqn:Ea.
  - destruct (N1 a eq_refl) as [p Hp]. destruct (n_has_strong_ref x || _) eqn:Eh.
    + destruct (queued s (WNode n)); [done|]. unfold get_proc.
      rewrite (deref_Some _ _ _ Hp). cbn [res_bind]. eexists. split; [reflexivity|].
      split; [done|]. split; [|split; [done|split; [done|by left]]].
      apply (works_add_tail s (WNode n) (ProcTodo a)); [done|by eexists].
    + destruct (bool_decide (n_refs x = []) && _ && _) eqn:Ef; [|done].
      rewrite !andb_true_iff, bool_decide_eq_true, !Z.eqb_eq in Ef. destruct Ef as [[Er Els] Elw].
      apply orb_false_iff in Eh as [Ehs Ehw].
      unfold upd_proc, get_proc. simpl. rewrite (deref_Some _ _ _ Hp). cbn [res_bind].
      unfold kfree_node, get_node. simpl. rewrite (deref_Some _ _ _ E). cbn [res_bind].
      eexists. split; [reflexivity|]. split; [apply (graph_free_node _ _ _ _ _ _ n x a p); done|].
      split; [|split].
      * match goal with |- works_ok (set_s_nodes _ ?q) => apply (works_free_node q) end;
          [|intros l; apply not_queued_del].
        by apply (works_same (list_del s (WNode n))); [apply works_del|..].
      * split; [|done]. by eapply (same_rest_put_proc (list_del s (WNode n))).
      * split; simpl; [intros; by rewrite lookup_delete_ne|].
        right. rewrite lookup_delete_eq. unfold node_free_ok. rewrite Ea. auto 10.
  - destruct (bool_decide (n_refs x = []) && _ && _) eqn:Ef; [|done].
    rewrite !andb_true_iff, bool_decide_eq_true, !Z.eqb_eq in Ef. destruct Ef as [[Er Els] Elw].
    unfold kfree_node, get_node. simpl. rewrite (deref_Some _ _ _ E). cbn [res_bind].
    eexists. split; [reflexivity|]. split; [by apply (graph_free_dead_node _ _ _ _ _ _ n x)|].
    split; [|split; [done|]].
    + match goal with |- works_ok (set_s_nodes _ ?q) => apply (works_free_node q) end;
          [|intros l; apply not_queued_del].
      by apply (works_same (list_del s (WNode n))); [apply works_del|..].
    + split; simpl; [intros; by rewrite lookup_delete_ne|].
      right. rewrite lookup_delete_eq. unfold node_free_ok. auto 10.
Qed.

(** The node's record after the count has been lowered. *)
Definition dec_count (strong internal : bool) (x : binder_node) : binder_node :=
  if strong then
    if internal then set_n_internal_strong_refs (i32 (n_internal_strong_refs x - 1)) x
    else set_n_local_strong_refs (i32 (n_local_strong_refs x - 1)) x
  else if internal then x
  else set_n_local_weak_refs (i32 (n_local_weak_refs x - 1)) x.

Lemma binder_dec_node_spec s n x strong internal tr nl off :
  graph_ok (s_procs s) (s_nodes s) tr nl (s_dead_nodes s) off ->
  works_ok s -> s_nodes s !! n = Some x ->
  - 2 ^ 31 < n_internal_strong_refs x <= 2 ^ 31 - 1 ->
  exists s', binder_dec_node s n strong internal = Ret (0, s') /\
    graph_ok (s_procs s') (s_nodes s') tr nl (s_dead_nodes s')
      (fun m => if decide (m = n) then off n - Z.b2z (strong && internal) else off m) /\
    works_ok s' /\ same_refs s s' /\ node_after n (dec_count strong internal x) s s'.
Proof.
  intros Hg Hw E Hi. set (x' := dec_count strong internal x).
  assert (n_proc x' = n_proc x /\ n_ptr x' = n_ptr x /\ n_refs x' = n_refs x /\
    n_internal_strong_refs x' = n_internal_strong_refs x - Z.b2z (strong && internal))
    as (Ep & Et & Er & Ei).
  { unfold x', dec_count. destruct strong, internal; simpl; repeat split; try lia.
    rewrite i32_small; lia. }
  pose proof (graph_put_node _ _ _ _ _ _ n x x' Hg E Ep Et Er) as Hg'.
  apply (graph_off_ext _ _ _ _ _ _
    (fun m => if decide (m = n) then off n - Z.b2z (strong && internal) else off m)) in Hg'.
  2:{ intros m _. simpl. case_decide; lia. }
  pose proof (works_put_node s n x' Hw) as Hw'.
  assert (s_nodes (put_node s n x') !! n = Some x') as E' by apply lookup_insert_eq.
  assert (forall s', node_after n x' (put_node s n x') s' -> node_after n x' s s') as Hna.
  { intros s' [Ha Hb]. split; [|done]. intros m Hm. rewrite Ha by done. simpl.
    by rewrite lookup_insert_ne. }
  assert (binder_dec_node s n strong internal = Ret (0, put_node s n x') \/
    binder_dec_node s n strong internal = node_unused (put_node s n x') n) as [->| ->].
  { unfold binder_dec_node, get_node. rewrite (deref_Some _ _ _ E). cbn [res_bind].
    unfold x', dec_count. destruct strong, internal; simpl;
      match goal with |- context [if ?c then Ret _ else _] => destruct c end; auto. }
  - eexists. split; [reflexivity|]. do 2 (split; [done|]). split; [done|]. apply Hna.
    split; [done|]. by left.
  - destruct (node_unused_spec (put_node s n x') n x' tr nl _ Hg' Hw' E')
      as (s' & -> & Hg2 & Hw2 & Hs2 & Hn2).
    exists s'. do 3 (split; [done|]). split; [|by apply Hna]. exact Hs2.
Qed.

(** ** [binder_inc_node] *)

Definition inc_count (strong internal : bool) (x : binder_node) : binder_node :=
  if strong then
    if internal then set_n_internal_strong_refs (i32 (n_internal_strong_refs x + 1)) x
    else set_n_local_strong_refs (i32 (n_local_strong_refs x + 1)) x
  else if internal then x
  else set_n_local_weak_refs (i32 (n_local_weak_refs x + 1)) x.

(** The increment and the list it may put the node's work on. *)
Lemma binder_inc_node_cases s n x strong internal tl :
  s_nodes s !! n = Some x ->
  let s1 := put_node s n (inc_count strong internal x) in
  (exists l, tl = Some l /\
     (binder_inc_node s n strong internal tl = Ret (0, list_add_tail s1 (WNode n) l) \/
      binder_inc_node s n strong internal tl =
        Ret (0, list_add_tail (list_del s1 (WNode n)) (WNode n) l))) \/
  binder_inc_node s n strong internal tl = Ret (0, s1) \/
  tl = None /\ (binder_inc_node s n strong internal tl = Ret (- EINVAL, s) \/
    internal = false /\ binder_inc_node s n strong internal tl = Ret (- EINVAL, s1)).
Proof.
  intros E s1. assert (put_node s n x = s) as Eself.
  { unfold put_node. rewrite insert_id by done. by destruct s. }
  unfold s1, binder_inc_node, get_node. rewrite (deref_Some _ _ _ E). cbn [res_bind].
  unfold inc_count. destruct tl as [l|], strong, internal; cbv zeta; rewrite ?Eself;
    try (rewrite (bool_decide_eq_false_2 (Some l = None)) by done; cbn [andb]);
    repeat match goal with |- context [if ?c then _ else _] => destruct c end; simpl; eauto 8.
Qed.

Lemma binder_inc_node_spec s n x strong internal tl tr nl off :
  graph_ok (s_procs s) (s_nodes s) tr nl (s_dead_nodes s) off ->
  works_ok s -> s_nodes s !! n = Some x ->
  - 2 ^ 31 <= n_internal_strong_refs x < 2 ^ 31 - 1 ->
  exists ret s', binder_inc_node s n strong internal tl = Ret (ret, s') /\
    works_ok s' /\ same_refs s s' /\ s_procs s' = s_procs s /\ s_dead_nodes s' = s_dead_nodes s /\
    (ret = 0 /\ s_nodes s' = <[n := inc_count strong internal x]> (s_nodes s) /\
       graph_ok (s_procs s') (s_nodes s') tr nl (s_dead_nodes s')
         (fun m => if decide (m = n) then off n + Z.b2z (strong && internal) else off m) \/
     ret = - EINVAL /\ tl = None /\
       graph_ok (s_procs s') (s_nodes s') tr nl (s_dead_nodes s') off /\
       (internal = true -> s' = s)).
Proof.
  intros Hg Hw E Hi. set (x' := inc_count strong internal x). set (s1 := put_node s n x').
  assert (n_proc x' = n_proc x /\ n_ptr x' = n_ptr x /\ n_refs x' = n_refs x /\
    n_internal_strong_refs x' = n_internal_strong_refs x + Z.b2z (strong && internal))
    as (Ep & Et & Er & Ei).
  { unfold x', inc_count. destruct strong, internal; simpl; repeat split; try lia.
    rewrite i32_small; lia. }
  pose proof (graph_put_node _ _ _ _ _ _ n x x' Hg E Ep Et Er) as Hg'.
  pose proof (works_put_node s n x' Hw) as Hw'. fold s1 in Hw'.
  assert (work_live s1 (WNode n)) as Hlive by (exists x'; apply lookup_insert_eq).
  assert (forall off', (forall m, off' m = if decide (m = n)
      then off n + (n_internal_strong_refs x' - n_internal_strong_refs x) else off m) ->
    graph_ok (s_procs s) (<[n := x']> (s_nodes s)) tr nl (s_dead_nodes s) off') as Hoff.
  { intros off' Ho. eapply graph_off_ext; [|exact Hg']. intros m _. by rewrite Ho. }
  assert (forall s', s' = s1 \/ (exists l, s' = list_add_tail s1 (WNode n) l \/
      s' = list_add_tail (list_del s1 (WNode n)) (WNode n) l) ->
    works_ok s' /\ same_refs s s' /\ s_procs s' = s_procs s /\ s_dead_nodes s' = s_dead_nodes s /\
    s_nodes s' = <[n := x']> (s_nodes s)) as Hs'.
  { intros s' [->|(l & [->| ->])]; (split; [|done]); [done| |].
    - by apply works_add_tail.
    - apply works_add_tail; [by apply works_del|done]. }
  destruct (binder_inc_node_cases s n x strong internal tl E)
    as [(l & -> & [-> | ->])|[->|(-> & [->|(-> & ->)])]]; fold x' s1.
  1,2,3: eexists 0, _; split; [reflexivity|];
    match goal with |- works_ok ?q /\ _ => destruct (Hs' q) as (? & ? & -> & -> & ->); [eauto|] end;
    do 4 (split; [done|]); left; split; [done|]; split; [done|]; apply Hoff;
    intros m; case_decide; lia.
  - exists (- EINVAL), s. by repeat (split; [done|]); right.
  - exists (- EINVAL), s1. split; [done|]. destruct (Hs' s1) as (? & ? & ? & ? & ?); [by left|].
    do 4 (split; [done|]). right. do 2 (split; [done|]). split; [|done]. apply Hoff.
    intros m. case_decide; [subst m|done]. rewrite Ei. by destruct strong; simpl; lia.
Qed.

(** ** Look-ups *)

Section Lookup.
Context (s : driver) (tr nl : gmap Z binder_ref) (off : Z -> Z).
Context (Hg : graph_ok (s_procs s) (s_nodes s) tr nl (s_dead_nodes s) off).

Lemma node_visit_ok a p ptr y :
  s_procs s !! a = Some p -> y ∈ inorder (p_nodes p) ->
  node_visit s ptr y = Ret (ptr ?= node_ptr (s_nodes s) y).
Proof.
  intros Hp Hy. destruct (go_procs _ _ _ _ _ _ Hg a p Hp) as [H1 _ _ _ _ _].
  apply H1 in Hy as (x & Hx & _). unfold node_visit, get_node, node_ptr.
  by rewrite (deref_Some _ _ _ Hx), Hx.
Qed.

Lemma binder_get_node_spec a p ptr :
  s_procs s !! a = Some p ->
  exists o, binder_get_node s a ptr = Ret o /\
    match o with
    | Some n => exists x, s_nodes s !! n = Some x /\ n_proc x = Some a /\ n_ptr x = ptr
    | None => forall n x, s_nodes s !! n = Some x -> n_proc x = Some a -> n_ptr x <> ptr
    end.
Proof.
  intros Hp. destruct (go_procs _ _ _ _ _ _ Hg a p Hp) as [H1 H2 _ _ _ _].
  unfold binder_get_node, get_proc. rewrite (deref_Some _ _ _ Hp). cbn [res_bind].
  destruct (rb_find_spec (node_visit s ptr) (node_ptr (s_nodes s)) ptr (p_nodes p))
    as [(n & -> & Hn & Hk)|[-> Hn]]; [intros; by eapply node_visit_ok|done| |].
  - exists (Some n). split; [done|]. apply H1 in Hn as (x & Hx & Hxp). exists x.
    unfold node_ptr in Hk. by rewrite Hx in Hk.
  - exists None. split; [done|]. intros n x Hx Hxp Hk. apply (Hn n); [apply H1; eauto|].
    unfold node_ptr. by rewrite Hx.
Qed.

Context (Htr : forall r y, tr !! r = Some y -> s_refs s !! r = Some y).

Lemma desc_visit_ok a p desc y :
  s_procs s !! a = Some p -> y ∈ inorder (p_refs_by_desc p) ->
  desc_visit s desc y = Ret (desc ?= ref_desc tr y).
Proof.
  intros Hp Hy. destruct (go_procs _ _ _ _ _ _ Hg a p Hp) as [_ _ H3 _ _ _].
  apply H3 in Hy as (x & Hx & _). unfold desc_visit, get_ref, ref_desc.
  by rewrite (deref_Some _ _ _ (Htr _ _ Hx)), Hx.
Qed.

Lemma node_of_ref_visit_ok a p node y :
  s_procs s !! a = Some p -> y ∈ inorder (p_refs_by_node p) ->
  node_of_ref_visit s node y = Ret (node ?= ref_node tr y).
Proof.
  intros Hp Hy. destruct (go_procs _ _ _ _ _ _ Hg a p Hp) as [_ _ _ _ H5 _].
  apply H5 in Hy as (x & Hx & _). unfold node_of_ref_visit, get_ref, ref_node.
  by rewrite (deref_Some _ _ _ (Htr _ _ Hx)), Hx.
Qed.

Lemma binder_get_ref_spec a p desc :
  s_procs s !! a = Some p ->
  exists o, binder_get_ref s a desc = Ret o /\
    match o with
    | Some r => exists y, tr !! r = Some y /\ r_proc y = a /\ r_desc y = desc
    | None => forall r y, tr !! r = Some y -> r_proc y = a -> r_desc y <> desc
    end.
Proof.
  intros Hp. destruct (go_procs _ _ _ _ _ _ Hg a p Hp) as [_ _ H3 H4 _ _].
  unfold binder_get_ref, get_proc. rewrite (deref_Some _ _ _ Hp). cbn [res_bind].
  destruct (rb_find_spec (desc_visit s desc) (ref_desc tr) desc (p_refs_by_desc p))
    as [(r & -> & Hr & Hk)|[-> Hr]]; [intros; by eapply desc_visit_ok|done| |].
  - exists (Some r). split; [done|]. apply H3 in Hr as (y & Hy & Hyp). exists y.
    unfold ref_desc in Hk. by rewrite Hy in Hk.
  - exists None. split; [done|]. intros r y Hy Hyp Hk. apply (Hr r); [apply H3; eauto|].
    unfold ref_desc. by rewrite Hy.
Qed.

End Lookup.

(** The descriptor picked is the smallest from the start that is not in use. *)
Lemma pick_desc_spec s key (l : list Z) : forall d,
  (forall y, y ∈ l -> exists r, s_refs s !! y = Some r /\ r_desc r = key y) ->
  sorted_by_lt key l -> (forall y, y ∈ l -> d - 1 <= key y) ->
  0 <= d -> d + Z.of_nat (length l) < 2 ^ 32 ->
  exists d', pick_desc s l d = Ret d' /\ d <= d' <= d + Z.of_nat (length l) /\
    (forall y, y ∈ l -> key y <> d') /\
    forall e, d <= e < d' -> exists y, y ∈ l /\ key y = e.
Proof.
  induction l as [|y l IH]; intros d Hin Hs Hlo Hd Hlen; simpl.
  { exists d. repeat split; try lia. by intros ? ?%not_elem_of_nil. }
  apply StronglySorted_cons_iff in Hs as [Hs Hy].
  destruct (Hin y) as (r & Er & Ek); [set_solver|]. specialize (Hlo y) as Hloy.
  unfold get_ref. rewrite (deref_Some _ _ _ Er). cbn [res_bind]. rewrite Ek.
  destruct (Z.ltb_spec d (key y)) as [Hlt|Hge].
  - exists d. split; [done|]. split; [lia|]. split; [|lia].
    intros z [->|Hz]%elem_of_cons; [lia|]. specialize (Hy z Hz). simpl in Hy. lia.
  - simpl in Hlen. assert (d - 1 <= key y) by (apply Hloy; set_solver).
    rewrite u32_small by lia. destruct (IH (key y + 1)) as (d' & E & Hd' & Hn & Hu);
      [intros; apply Hin; set_solver|done| |lia|lia|].
    { intros z Hz. specialize (Hy z Hz). simpl in Hy. lia. }
    exists d'. split; [done|]. split; [lia|]. split.
    + intros z [->|Hz]%elem_of_cons; [lia|by apply Hn].
    + intros e He. destruct (decide (e = key y)) as [->|Hne]; [exists y; set_solver|].
      destruct (Hu e) as (z & Hz & ?); [lia|]. exists z. set_solver.
Qed.

(** ** Memory *)

Lemma length_le_size {A} (m : gmap Z A) (l : list Z) :
  NoDup l -> (forall x, x ∈ l -> is_Some (m !! x)) -> (length l <= size m)%nat.
Proof.
  intros Hnd Hl. rewrite <- (size_dom m), <- (size_list_to_set (C := gset Z)) by done.
  apply subseteq_size. intros x. rewrite elem_of_list_to_set. intros Hx.
  by apply elem_of_dom, Hl.
Qed.

(** The supply stays good when only addresses outside it come into use. *)
Lemma supply_step s s' :
  supply_ok s -> s_kzalloc s' = s_kzalloc s ->
  (forall a, address_used s' a -> address_used s a \/ Some a ∉ s_kzalloc s) -> supply_ok s'.
Proof.
  intros [Hf Hn] E Hu. split; rewrite E; [|done]. intros a Ha Hused.
  destruct (Hu a Hused) as [H|H]; [by apply (Hf a)|done].
Qed.

Lemma kzalloc_spec s o s' :
  supply_ok s -> kzalloc s = (o, s') ->
  s' = set_s_kzalloc (s_kzalloc s') s /\ supply_ok s' /\
  match o with
  | Some a => ~ address_used s a /\ Some a ∉ s_kzalloc s'
  | None => head (s_kzalloc s) = None \/ head (s_kzalloc s) = Some None
  end.
Proof.
  intros [Hf Hn]. unfold kzalloc. destruct (s_kzalloc s) as [|b l] eqn:E.
  - intros [= <- <-]. split; [by destruct s|].
    split; [by split; rewrite E|by left].
  - intros [= <- <-]. simpl in Hn. split; [done|]. split.
    + split; simpl; [intros a Ha Hu; apply (Hf a); [by right|exact Hu]|].
      destruct b; simpl in Hn; [by apply NoDup_cons in Hn as [_ Hn]|done].
    + destruct b as [a|]; [|by right]. split; [apply Hf; set_solver|].
      simpl in *. apply NoDup_cons in Hn as [Hn _]. intros Ha. apply Hn.
      apply list_elem_of_omap. by exists (Some a).
Qed.

(** ** [binder_new_node] *)

Lemma binder_new_node_spec s a p ptr cookie :
  refs_wf s -> supply_ok s -> s_procs s !! a = Some p ->
  exists o s', binder_new_node s a ptr cookie = Ret (o, s') /\ refs_wf s' /\ supply_ok s' /\
    same_rest s s' /\ s_refs s' = s_refs s /\ s_deaths s' = s_deaths s /\ s_lists s' = s_lists s /\
    match o with
    | Some n => s_nodes s !! n = None /\
        (exists id, s_nodes s' = <[n := new_node id a ptr cookie]> (s_nodes s)) /\
        forall m x, s_nodes s !! m = Some x -> n_proc x = Some a -> n_ptr x <> ptr
    | None => s_nodes s' = s_nodes s /\
        ((exists m x, s_nodes s !! m = Some x /\ n_proc x = Some a /\ n_ptr x = ptr) \/
         head (s_kzalloc s) = None \/ head (s_kzalloc s) = Some None)
    end.
Proof.
  intros Hwf Hsu Hp. pose proof (rw_graph _ Hwf) as Hg.
  destruct (go_procs _ _ _ _ _ _ Hg a p Hp) as [H1 H2 _ _ _ _].
  unfold binder_new_node, get_proc. rewrite (deref_Some _ _ _ Hp). cbn [res_bind].
  destruct (kzalloc s) as [o s'] eqn:Ek.
  destruct (kzalloc_spec s o s' Hsu Ek) as (Es' & Hsu' & Ho).
  assert (refs_wf s') as Hwf' by (rewrite Es'; by destruct Hwf).
  destruct (rb_link_unique (node_visit s ptr) (node_ptr (s_nodes s)) ptr (default 0 o) (p_nodes p))
    as [(t & -> & Hne & Hpt & Hst)|(y & -> & Hy & Hky)];
    [intros y Hy; by apply (node_visit_ok s _ _ _ Hg a p)|done| |].
  - cbn [res_bind]. destruct o as [n|]; simpl in *.
    + destruct Ho as [Hnew Hnk]. set (x := new_node (i32 (s_last_id s' + 1)) a ptr cookie).
      assert (s_nodes s !! n = None) as En.
      { destruct (s_nodes s !! n) eqn:E; [|done]. exfalso. apply Hnew. unfold address_used.
        rewrite E. eauto 6. }
      eexists (Some n), _. split; [reflexivity|]. rewrite Es' in *. simpl in *.
      split; [split|split].
      * simpl. apply (graph_new_node _ _ _ _ _ _ n x a p); try done.
        apply Hst; unfold node_ptr.
        -- by rewrite lookup_insert_eq.
        -- intros y Hy. rewrite lookup_insert_ne; [done|]. intros <-.
           apply H1 in Hy as (? & ? & _). congruence.
      * apply Hwf.
      * apply Hwf.
      * apply (works_same (put_node s n x)); try done. by apply works_put_node, Hwf.
      * eapply supply_step; [exact Hsu'|done|]. intros b. unfold address_used. simpl.
        rewrite !lookup_insert_is_Some'. intros Hb.
        destruct (decide (b = n)) as [->|Hbn]; [by right|left].
        destruct (decide (b = a)) as [->|Hba]; [eauto|]. intuition congruence.
      * split; [|split; [done|split; [done|split; [done|]]]].
        -- by apply (same_rest_put_proc s a p).
        -- split; [done|]. split; [by eexists|]. intros m z Hm Hmp Hk.
           apply (Hne m); [apply H1; eauto|]. unfold node_ptr. by rewrite Hm.
    + eexists None, _. split; [reflexivity|]. split; [done|]. split; [done|]. rewrite Es'.
      split; [by split|]. do 3 (split; [done|]). split; [done|]. by right.
  - cbn [res_bind]. eexists None, s. split; [done|]. do 3 (split; [done|]).
    do 3 (split; [done|]). split; [done|]. left. apply H1 in Hy as (x & Hx & Hxp).
    exists y, x. unfold node_ptr in Hky. by rewrite Hx in Hky.
Qed.

(** ** [binder_get_ref_for_node] *)

(** The descriptors process [a] uses. *)
Definition desc_used (rs : gmap Z binder_ref) (a d : Z) : Prop :=
  exists r y, rs !! r = Some y /\ r_proc y = a /\ r_desc y = d.

Definition first_desc (s : driver) (n : Z) : Z :=
  if decide (s_context_mgr_node s = Some n) then 0 else 1.

(** The three outcomes: the reference that was there, a new one with the
    smallest descriptor, or NULL because [kzalloc] failed. *)
Definition ref_for_node (s : driver) (a n : Z) (o : option Z) (s' : driver) : Prop :=
  match o with
  | Some r =>
      (s' = s /\ exists y, s_refs s !! r = Some y /\ r_proc y = a /\ r_node y = n) \/
      (s_refs s !! r = None /\
       (forall m y, s_refs s !! m = Some y -> r_proc y = a -> r_node y <> n) /\
       exists id d, s_refs s' = <[r := new_ref id a n d]> (s_refs s) /\
         first_desc s n <= d /\ ~ desc_used (s_refs s) a d /\
         forall e, first_desc s n <= e < d -> desc_used (s_refs s) a e)
  | None =>
      s_refs s' = s_refs s /\ (head (s_kzalloc s) = None \/ head (s_kzalloc s) = Some None)
  end.

(** The references of one process are at most all of them. *)
Lemma tree_size s a p :
  graph_ok (s_procs s) (s_nodes s) (s_refs s) (s_refs s) (s_dead_nodes s) off0 ->
  s_procs s !! a = Some p -> (length (inorder (p_refs_by_desc p)) <= size (s_refs s))%nat.
Proof.
  intros Hg Hp. destruct (go_procs _ _ _ _ _ _ Hg a p Hp) as [_ _ H3 H4 _ _].
  apply length_le_size; [by eapply sorted_by_lt_NoDup|].
  intros r Hr. apply H3 in Hr as (y & Hy & _). eauto.
Qed.

(** The descriptor of a new reference, and the tree it is linked into. *)
Lemma new_desc_spec s a p n r :
  graph_ok (s_procs s) (s_nodes s) (s_refs s) (s_refs s) (s_dead_nodes s) off0 ->
  few_refs s -> s_procs s !! a = Some p ->
  exists d t, pick_desc s (inorder (p_refs_by_desc p)) (first_desc s n) = Ret d /\
    rb_link (desc_visit s d) r (p_refs_by_desc p) = Ret (Linked t) /\
    first_desc s n <= d < 2 ^ 32 /\ ~ desc_used (s_refs s) a d /\
    (forall e, first_desc s n <= e < d -> desc_used (s_refs s) a e) /\
    inorder (rb_insert_color r t) ≡ₚ r :: inorder (p_refs_by_desc p) /\
    forall key', key' r = d -> (forall y, y ∈ inorder (p_refs_by_desc p) ->
      key' y = ref_desc (s_refs s) y) -> sorted_by_lt key' (inorder (rb_insert_color r t)).
Proof.
  intros Hg Hfew Hp. destruct (go_procs _ _ _ _ _ _ Hg a p Hp) as [_ _ H3 H4 _ _].
  pose proof (tree_size s a p Hg Hp) as Hsz. unfold few_refs in Hfew.
  assert (0 <= first_desc s n <= 1) as Hfd by (unfold first_desc; case_decide; lia).
  destruct (pick_desc_spec s (ref_desc (s_refs s)) (inorder (p_refs_by_desc p)) (first_desc s n))
    as (d & Ed & Hd & Hn & Hu); [|done| |lia|lia|].
  { intros y Hy. apply H3 in Hy as (x & Hx & _). exists x. unfold ref_desc. by rewrite Hx. }
  { intros y Hy. apply H3 in Hy as (x & Hx & _). unfold ref_desc. rewrite Hx. simpl.
    pose proof (go_desc _ _ _ _ _ _ Hg y x Hx). lia. }
  destruct (rb_link_unique (desc_visit s d) (ref_desc (s_refs s)) d r (p_refs_by_desc p))
    as [(t & Et & _ & Hpt & Hst)|(y & _ & Hy & Hky)]; [|done| |].
  { intros y Hy. by apply (desc_visit_ok s _ _ _ Hg (fun _ _ H => H) a p). }
  - exists d, t. split; [done|]. split; [done|]. split; [lia|].
    split; [|split; [|done]].
    + intros (m & y & Hy & Hyp & Hyd). apply (Hn m); [apply H3; eauto|].
      unfold ref_desc. by rewrite Hy.
    + intros e He. destruct (Hu e He) as (m & Hm & Hk). apply H3 in Hm as (y & Hy & Hyp).
      exists m, y. unfold ref_desc in Hk. by rewrite Hy in Hk.
  - by apply Hn in Hy.
Qed.

Lemma binder_get_ref_for_node_spec s a p n x :
  refs_wf s -> supply_ok s -> few_refs s ->
  s_procs s !! a = Some p -> s_nodes s !! n = Some x ->
  exists o s', binder_get_ref_for_node s a n = Ret (o, s') /\ refs_wf s' /\ supply_ok s' /\
    same_rest s s' /\ s_deaths s' = s_deaths s /\ s_lists s' = s_lists s /\
    ref_for_node s a n o s'.
Proof.
  intros Hwf Hsu Hfew Hp Hx. pose proof (rw_graph _ Hwf) as Hg.
  destruct (go_procs _ _ _ _ _ _ Hg a p Hp) as [_ _ H3 H4 H5 H6].
  unfold binder_get_ref_for_node, get_proc. rewrite (deref_Some _ _ _ Hp). cbn [res_bind].
  destruct (kzalloc s) as [o s1] eqn:Ek.
  destruct (kzalloc_spec s o s1 Hsu Ek) as (Es1 & Hsu1 & Ho).
  destruct (rb_link_unique (node_of_ref_visit s n) (ref_node (s_refs s)) n (default 0 o)
    (p_refs_by_node p)) as [(tn & -> & Hne & Hptn & Hstn)|(y & -> & Hy & Hky)]; [|done| |].
  { intros y Hy. by apply (node_of_ref_visit_ok s _ _ _ Hg (fun _ _ H => H) a p). }
  2:{ cbn [res_bind]. exists (Some y), s. do 3 (split; [done|]). split; [done|].
      do 2 (split; [done|]). left. split; [done|]. apply H5 in Hy as (z & Hz & Hzp).
      exists z. unfold ref_node in Hky. by rewrite Hz in Hky. }
  assert (forall m y, s_refs s !! m = Some y -> r_proc y = a -> r_node y <> n) as Hnone.
  { intros m y Hy Hyp Hk. apply (Hne m); [apply H5; eauto|]. unfold ref_node. by rewrite Hy. }
  cbn [res_bind]. destruct o as [r|]; simpl in *.
  2:{ eexists None, s1. split; [reflexivity|]. rewrite Es1.
      split; [by destruct Hwf|]. split; [by rewrite <- Es1|]. split; [by repeat split|].
      by do 2 (split; [done|]). }
  destruct Ho as [Hnew Hnk].
  assert (s_refs s !! r = None) as Er.
  { destruct (s_refs s !! r) eqn:E; [|done]. exfalso. apply Hnew. unfold address_used.
    rewrite E. eauto 7. }
  set (id := i32 (s_last_id s1 + 1)). clearbody id.
  remember (s_kzalloc s1) as kz. subst s1. clear Heqkz Ek.
  destruct (new_desc_spec (set_s_last_id id (set_s_kzalloc kz s)) a p n r)
    as (d & td & Epick & Elink & Hd & Hunused & Hall & Hptd & Hstd); try done.
  simpl in Hunused, Hall, Hstd. unfold first_desc in Epick. simpl in Epick.
  simpl. rewrite Epick. cbn [res_bind]. rewrite Elink. cbn [res_bind].
  set (y := new_ref id a n d). change (first_desc _ n) with (first_desc s n) in *.
  unfold upd_node, get_node. simpl. rewrite (deref_Some _ _ _ Hx).
  cbn [res_bind]. eexists (Some r), _. split; [reflexivity|].
  split; [split|split].
  - apply (graph_link _ _ _ _ _ r y p x); try done.
    + simpl. unfold first_desc in Hd. case_decide; lia.
    + apply Hstd; unfold ref_desc; [by rewrite lookup_insert_eq|].
      intros z Hz. rewrite lookup_insert_ne; [done|]. intros <-.
      apply H3 in Hz as (? & ? & _). congruence.
    + apply Hstn; unfold ref_node; [by rewrite lookup_insert_eq|].
      intros z Hz. rewrite lookup_insert_ne; [done|]. intros <-.
      apply H5 in Hz as (? & ? & _). congruence.
  - destruct (rw_deaths _ Hwf) as [D1 D2]. split; simpl.
    + intros m z e. rewrite lookup_insert_Some. intros [[<- <-]|[_ Hz]]; [done|]. by apply (D1 m z).
    + intros m1 m2 z1 z2 e. rewrite !lookup_insert_Some.
      intros [[<- <-]|[_ Hz1]] [[<- <-]|[_ Hz2]]; try done. by apply (D2 _ _ z1 z2).
  - intros m z. simpl. rewrite lookup_insert_Some. intros [[<- <-]|[_ Hz]]; [done|].
    by apply (rw_counts _ Hwf m).
  - apply (works_same (put_node s n (set_n_refs (r :: n_refs x) x))); try done.
    apply works_put_node, Hwf.
  - eapply supply_step; [exact Hsu1|done|]. intros b. unfold address_used. simpl.
    rewrite !lookup_insert_is_Some'. intros Hb.
    destruct (decide (b = r)) as [->|Hbn]; [by right|left].
    destruct (decide (b = a)) as [->|Hba]; [eauto|].
    destruct (decide (b = n)) as [->|Hbn']; [eauto 6|]. intuition congruence.
  - split; [by apply (same_rest_put_proc s a p)|]. do 2 (split; [done|]). right.
    split; [done|]. split; [done|]. exists id, d. split; [done|]. split; [lia|]. by split.
Qed.

(** ** [binder_inc_ref] *)

Lemma internal_bound ps ns tr nl dead off n x :
  graph_ok ps ns tr nl dead off -> ns !! n = Some x ->
  0 <= n_internal_strong_refs x - off n <= Z.of_nat (size nl).
Proof.
  intros Hg Hx. destruct (go_nodes _ _ _ _ _ _ Hg n x Hx) as [_ _ N3 N4 N5].
  rewrite N5. unfold strong_holders.
  pose proof (length_filter (fun r => holds_strong nl r = true) (n_refs x)) as Hf.
  assert (length (n_refs x) <= size nl)%nat.
  { apply length_le_size; [done|]. intros r Hr. apply N4 in Hr as (y & Hy & _). eauto. }
  lia.
Qed.

Definition inc_ref_count (strong : bool) (y : binder_ref) : binder_ref :=
  if strong then set_r_strong (i32 (r_strong y + 1)) y
  else set_r_weak (i32 (r_weak y + 1)) y.

Definition ref_count (strong : bool) (y : binder_ref) : Z :=
  if strong then r_strong y else r_weak y.

(** Writing a reference that keeps its place in the graph. *)
Lemma refs_wf_put_ref s r y y' off :
  graph_ok (s_procs s) (s_nodes s) (s_refs s) (s_refs s) (s_dead_nodes s) off ->
  deaths_ok (s_refs s) (s_deaths s) -> works_ok s ->
  (forall m z, s_refs s !! m = Some z -> 0 <= r_strong z < 2 ^ 31 /\ 0 <= r_weak z < 2 ^ 31) ->
  s_refs s !! r = Some y ->
  r_proc y' = r_proc y -> r_node y' = r_node y -> r_desc y' = r_desc y ->
  r_death y' = r_death y -> 0 <= r_strong y' < 2 ^ 31 -> 0 <= r_weak y' < 2 ^ 31 ->
  (forall m, is_Some (s_nodes s !! m) ->
     off m = if decide (m = r_node y) then strong_bit y' - strong_bit y else 0) ->
  refs_wf (put_ref s r y').
Proof.
  intros Hg [D1 D2] Hw Hc E Ep En Ed Edt Hs Hwk Hoff. split; simpl.
  - eapply graph_off_ext; [|by eapply (graph_put_ref _ _ _ _ _ _ r y y')].
    intros m Hm. simpl. rewrite (Hoff m Hm). unfold off0. case_decide; lia.
  - assert (forall m z e, <[r := y']> (s_refs s) !! m = Some z -> r_death z = Some e ->
      exists z', s_refs s !! m = Some z' /\ r_death z' = Some e) as Hold.
    { intros m z e. rewrite lookup_insert_Some. intros [[<- <-]|[_ Hz]] He; [|eauto].
      exists y. split; [done|congruence]. }
    split.
    + intros m z e Hz He. destruct (Hold m z e Hz He) as (z' & ? & ?). by apply (D1 m z').
    + intros m1 m2 z1 z2 e Hz1 Hz2 He1 He2. destruct (Hold m1 z1 e Hz1 He1) as (z1' & ? & ?).
      destruct (Hold m2 z2 e Hz2 He2) as (z2' & ? & ?). by apply (D2 _ _ z1' z2' e).
  - intros m z. rewrite lookup_insert_Some. intros [[<- <-]|[_ Hz]]; [done|]. by apply (Hc m).
  - by apply (works_same s).
Qed.

Lemma binder_inc_ref_spec s r y strong tl :
  refs_wf s -> few_refs s -> s_refs s !! r = Some y -> ref_count strong y < 2 ^ 31 - 1 ->
  exists ret s', binder_inc_ref s r strong tl = Ret (ret, s') /\ refs_wf s' /\ same_rest s s' /\
    s_deaths s' = s_deaths s /\ s_kzalloc s' = s_kzalloc s /\
    (forall n, is_Some (s_nodes s' !! n) <-> is_Some (s_nodes s !! n)) /\
    (ret = 0 /\ s_refs s' = <[r := inc_ref_count strong y]> (s_refs s) \/
     ret = - EINVAL /\ s' = s /\ tl = None /\ ref_count strong y = 0).
Proof.
  intros Hwf Hfew E Hmax. destruct Hwf as [Hg Hd Hc Hw].
  destruct (Hc r y E) as [Hs Hk]. destruct (go_ref_node _ _ _ _ _ _ Hg r y E) as [x Hx].
  pose proof (internal_bound _ _ _ _ _ _ _ _ Hg Hx) as Hib. unfold off0, few_refs in *.
  assert (forall s1 off, s_refs s1 = s_refs s -> s_deaths s1 = s_deaths s -> works_ok s1 ->
    graph_ok (s_procs s1) (s_nodes s1) (s_refs s) (s_refs s) (s_dead_nodes s1) off ->
    (forall m, is_Some (s_nodes s1 !! m) -> off m = if decide (m = r_node y) then
      strong_bit (inc_ref_count strong y) - strong_bit y else 0) ->
    refs_wf (put_ref s1 r (inc_ref_count strong y))) as Hput.
  { intros s1 off Er Ed Hw1 Hg1 Hoff. apply (refs_wf_put_ref s1 r y _ off); rewrite ?Er, ?Ed; try done;
      unfold inc_ref_count, ref_count in *; destruct strong; simpl; try done; rewrite i32_small; lia. }
  unfold binder_inc_ref, get_ref. rewrite (deref_Some _ _ _ E). cbn [res_bind].
  change (if strong then r_strong y else r_weak y) with (ref_count strong y).
  destruct (Z.eqb_spec (ref_count strong y) 0) as [Hz|Hz].
  - destruct (binder_inc_node_spec s (r_node y) x strong true tl _ _ _ Hg Hw Hx)
      as (ret & s1 & -> & Hw1 & (Hrest & Er & Ed & Ekz & _) & Ep & Edd & Hcase); [lia|].
    cbn [res_bind]. destruct Hcase as [(-> & En & Hg1)|(-> & -> & _ & ->)]; cbn [Z.eqb negb].
    + unfold upd_ref, get_ref. rewrite Er, (deref_Some _ _ _ E). cbn [res_bind].
      eexists 0, _. split; [reflexivity|]. split; [|split; [exact Hrest|]].
      * eapply Hput; try done. intros m Hm. simpl. rewrite andb_true_r. unfold off0.
        case_decide; [|done]. unfold strong_bit, inc_ref_count, ref_count in *.
        destruct strong; simpl; [|lia]. rewrite Hz. done.
      * simpl. split; [done|]. split; [done|]. split; [|left; by rewrite Er].
        intros m. rewrite En. destruct (decide (r_node y = m)) as [<-|Hne].
        -- rewrite lookup_insert_eq, Hx. split; eauto.
        -- by rewrite lookup_insert_ne.
    + exists (- EINVAL), s. split; [done|]. split; [done|]. by repeat (split; [done|]); right.
    + done.
  - cbn [res_bind]. unfold upd_ref, get_ref. rewrite (deref_Some _ _ _ E). cbn [Z.eqb negb res_bind].
    eexists 0, _. split; [reflexivity|]. split; [|split; [done|]].
    + eapply Hput; try done. intros m _. unfold off0. case_decide; [|done].
      unfold strong_bit, inc_ref_count, ref_count in *. destruct strong; simpl; [|lia].
      rewrite i32_small by lia. destruct (Z.eqb_spec (r_strong y) 0), (Z.eqb_spec (r_strong y + 1) 0); lia.
    + do 2 (split; [done|]). split; [done|]. by left.
Qed.

(** ** [binder_delete_ref] *)

(** The nodes after an operation: only [n] may be gone, and then nothing kept it. *)
Definition nodes_kept (n : Z) (s s' : driver) : Prop :=
  (forall m, m <> n -> is_Some (s_nodes s' !! m) <-> is_Some (s_nodes s !! m)) /\
  (forall m, is_Some (s_nodes s' !! m) -> is_Some (s_nodes s !! m)).

(** Dropping the strong hold and leaving the node's list, once out of the trees. *)
Lemma drop_hold_spec s r y tr :
  graph_ok (s_procs s) (s_nodes s) tr (s_refs s) (s_dead_nodes s) off0 ->
  works_ok s -> few_refs s -> s_refs s !! r = Some y -> tr !! r = None ->
  exists s2, (let! s := if r_strong y =? 0 then Ret s
                        else let! '(_, s) := binder_dec_node s (r_node y) true true in Ret s in
              upd_node s (r_node y) (fun n => set_n_refs (filter (.≠ r) (n_refs n)) n)) = Ret s2 /\
    graph_ok (s_procs s2) (s_nodes s2) tr (delete r (s_refs s)) (s_dead_nodes s2) off0 /\
    works_ok s2 /\ same_refs s s2 /\
    (forall m, is_Some (s_nodes s2 !! m) <-> is_Some (s_nodes s !! m)).
Proof.
  intros Hg Hw Hfew Er Et. destruct (go_ref_node _ _ _ _ _ _ Hg r y Er) as [x Hx].
  pose proof (internal_bound _ _ _ _ _ _ _ _ Hg Hx) as Hib. unfold off0, few_refs in *.
  assert (r ∈ n_refs x) as Hr.
  { destruct (go_nodes _ _ _ _ _ _ Hg _ x Hx) as [_ _ _ N4 _]. apply N4. eauto. }
  assert (exists s1 x1, (if r_strong y =? 0 then Ret s
      else let! '(_, s) := binder_dec_node s (r_node y) true true in Ret s) = Ret s1 /\
    graph_ok (s_procs s1) (s_nodes s1) tr (s_refs s) (s_dead_nodes s1)
      (fun m => if decide (m = r_node y) then - strong_bit y else 0) /\
    works_ok s1 /\ same_refs s s1 /\ s_nodes s1 !! r_node y = Some x1 /\
    (forall m, m <> r_node y -> s_nodes s1 !! m = s_nodes s !! m))
    as (s1 & x1 & -> & Hg1 & Hw1 & Hr1 & Hx1 & Hm1).
  { unfold strong_bit. destruct (Z.eqb_spec (r_strong y) 0) as [Hz|Hz].
    - exists s, x. split; [done|]. split; [|done]. eapply graph_off_ext; [|exact Hg].
      intros m _. simpl. by case_decide.
    - destruct (binder_dec_node_spec s _ x true true _ _ _ Hg Hw Hx) as
        (s1 & -> & Hg1 & Hw1 & Hr1 & Hn1 & [Hx1|(_ & Hfree & _)]); [lia| |].
      + eexists s1, _. split; [done|]. split; [|done]. eapply graph_off_ext; [|exact Hg1].
        intros m _. simpl. case_decide; lia.
      + exfalso. simpl in Hfree. rewrite Hfree in Hr. by apply not_elem_of_nil in Hr. }
  cbn [res_bind]. unfold upd_node, get_node. rewrite (deref_Some _ _ _ Hx1). cbn [res_bind].
  eexists. split; [reflexivity|].
  pose proof (graph_unlink _ _ _ _ _ _ r y x1 Hg1 Er Et Hx1) as Hg2. split; [|split; [|split]].
  - eapply graph_off_ext; [|exact Hg2]. intros m _. simpl. case_decide; lia.
  - by apply works_put_node.
  - exact Hr1.
  - intros m. simpl. destruct (decide (r_node y = m)) as [<-|Hne].
    + rewrite lookup_insert_eq, Hx. split; eauto.
    + by rewrite lookup_insert_ne, Hm1 by congruence.
Qed.

Definition deaths_without (y : binder_ref) (ds : gmap Z binder_ref_death)
    : gmap Z binder_ref_death :=
  match r_death y with Some d => delete d ds | None => ds end.

(** The death notification goes with the reference. *)
Lemma drop_death_spec s r y :
  deaths_ok (s_refs s) (s_deaths s) -> works_ok s -> s_refs s !! r = Some y ->
  exists s', match r_death y with
             | Some d => kfree_death (list_del s (WDeath d)) d
             | None => Ret s
             end = Ret s' /\
    s_procs s' = s_procs s /\ s_nodes s' = s_nodes s /\ s_dead_nodes s' = s_dead_nodes s /\
    s_refs s' = s_refs s /\ s_kzalloc s' = s_kzalloc s /\ same_rest s s' /\ works_ok s' /\
    s_deaths s' = deaths_without y (s_deaths s) /\
    deaths_ok (delete r (s_refs s)) (s_deaths s').
Proof.
  intros [D1 D2] Hw Er. unfold deaths_without. destruct (r_death y) as [d|] eqn:Ed.
  - destruct (D1 r y d Er Ed) as [z Hz]. unfold kfree_death, get_death. simpl.
    rewrite (deref_Some _ _ _ Hz). cbn [res_bind]. eexists. split; [reflexivity|].
    do 6 (split; [done|]). split; [|split; [done|split; simpl]].
    + intros l w Hl. change (work_list _ l) with (work_list (list_del s (WDeath d)) l) in Hl.
      pose proof (works_del s (WDeath d) Hw l w Hl) as Hlive. destruct w; try done. simpl in *.
      rewrite lookup_delete_ne; [done|]. intros <-. by apply not_queued_del in Hl.
    + intros m u e [Hne Hm]%lookup_delete_Some He. rewrite lookup_delete_ne; [by apply (D1 m u)|].
      intros ->. apply Hne. symmetry. by apply (D2 m r u y e).
    + intros m1 m2 u1 u2 e [_ H1]%lookup_delete_Some [_ H2]%lookup_delete_Some. by apply (D2 _ _ u1 u2 e).
  - exists s. do 7 (split; [done|]). split; [done|]. split; [done|]. split.
    + intros m u e [_ Hm]%lookup_delete_Some. by apply (D1 m u).
    + intros m1 m2 u1 u2 e [_ H1]%lookup_delete_Some [_ H2]%lookup_delete_Some. by apply (D2 _ _ u1 u2 e).
Qed.

Lemma binder_delete_ref_spec s r y :
  refs_wf s -> few_refs s -> s_refs s !! r = Some y ->
  exists s', binder_delete_ref s r = Ret s' /\ refs_wf s' /\ same_rest s s' /\
    s_refs s' = delete r (s_refs s) /\ s_kzalloc s' = s_kzalloc s /\
    s_deaths s' = deaths_without y (s_deaths s) /\ nodes_kept (r_node y) s s'.
Proof.
  intros [Hg Hd Hc Hw] Hfew Er. destruct (go_ref_proc _ _ _ _ _ _ Hg r y Er) as [p Hp].
  unfold binder_delete_ref, get_ref. rewrite (deref_Some _ _ _ Er). cbn [res_bind].
  unfold upd_proc at 1, get_proc. rewrite (deref_Some _ _ _ Hp). cbn [res_bind].
  pose proof (graph_untree _ _ _ _ _ _ r y p Hg Er Hp) as Hg1.
  match goal with |- context [put_proc s ?a ?q] => set (s1 := put_proc s a q) end.
  destruct (drop_hold_spec s1 r y (delete r (s_refs s)) Hg1) as
    (s2 & E2 & Hg2 & Hw2 & (Hr2 & Rr2 & Rd2 & Rk2 & _) & Hn2);
    [by apply (works_same s)|done|done|apply lookup_delete_eq|].
  assert (forall A (f : driver -> res A), (let! s := (if r_strong y =? 0 then Ret s1
      else let! '(_, s) := binder_dec_node s1 (r_node y) true true in Ret s) in
    let! s := upd_node s (r_node y) (fun n => set_n_refs (filter (.≠ r) (n_refs n)) n) in f s) =
    f s2) as Estep.
  { intros A f. transitivity (res_bind (Ret s2) f); [|done]. rewrite <- E2.
    by destruct (if r_strong y =? 0 then _ else _). }
  rewrite Estep. clear Estep E2.
  simpl in Rr2, Rd2, Rk2.
  destruct (go_ref_node _ _ _ _ _ _ Hg r y Er) as [x Hx].
  destruct (Hn2 (r_node y)) as [_ Hx2]. destruct (Hx2 (ex_intro _ x Hx)) as [x2 Hx2'].
  pose proof (internal_bound _ _ _ _ _ _ _ _ Hg2 Hx2') as Hib. unfold off0, few_refs in *.
  assert (size (delete r (s_refs s)) <= size (s_refs s))%nat.
  { apply map_subseteq_size, delete_subseteq. }
  change (s_refs s1) with (s_refs s) in *.
  destruct (binder_dec_node_spec s2 _ x2 false true _ _ _ Hg2 Hw2 Hx2') as
    (s3 & -> & Hg3 & Hw3 & (Hr3 & Rr3 & Rd3 & Rk3 & _) & Hn3); [lia|]. cbn [res_bind].
  destruct (drop_death_spec s3 r y) as
    (s4 & -> & Ep4 & En4 & Edd4 & Er4 & Ek4 & Hr4 & Hw4 & Ed4 & Hd4);
    rewrite ?Rr3, ?Rd3, ?Rr2, ?Rd2; try done.
  cbn [res_bind]. unfold kfree_ref, get_ref.
  rewrite Er4, Rr3, Rr2, (deref_Some _ _ _ Er). cbn [res_bind].
  eexists. split; [reflexivity|]. rewrite Rr3, Rr2 in Hd4. split; [split; simpl|].
  - rewrite Ep4, En4, Edd4. eapply graph_off_ext; [|exact Hg3]. intros m _. simpl. by case_decide.
  - done.
  - intros m z [_ Hm]%lookup_delete_Some. by apply (Hc m).
  - by apply (works_same s4).
  - split; [|split; [done|split; [simpl; congruence|split]]].
    + transitivity s1; [by apply (same_rest_put_proc s (r_proc y) p)|].
      transitivity s2; [done|]. transitivity s3; [done|]. exact Hr4.
    + simpl. rewrite Ed4. congruence.
    + destruct Hn3 as [Hn3 Hn3']. split; simpl; intros m.
      * intros Hm. rewrite En4, Hn3 by done. apply Hn2.
      * rewrite En4. intros Hm. apply Hn2. destruct (decide (m = r_node y)) as [->|Hne]; [eauto|].
        by rewrite <- Hn3.
Qed.

(** ** [binder_dec_ref] *)

Definition dec_ref_count (strong : bool) (y : binder_ref) : binder_ref :=
  if strong then set_r_strong (i32 (r_strong y - 1)) y
  else set_r_weak (i32 (r_weak y - 1)) y.

(** No user of the reference is left. *)
Definition ref_idle (y : binder_ref) : bool := (r_strong y =? 0) && (r_weak y =? 0).

Definition dec_ref_effect (s : driver) (r : Z) (y : binder_ref) (s' : driver) : Prop :=
  if ref_idle y
  then s_refs s' = delete r (s_refs s) /\ s_deaths s' = deaths_without y (s_deaths s)
  else s_refs s' = <[r := y]> (s_refs s) /\ s_deaths s' = s_deaths s.

Lemma ref_unused_spec s r y :
  refs_wf s -> few_refs s -> s_refs s !! r = Some y ->
  exists s', ref_unused s r = Ret (0, s') /\ refs_wf s' /\ same_rest s s' /\
    s_kzalloc s' = s_kzalloc s /\ nodes_kept (r_node y) s s' /\ dec_ref_effect s r y s'.
Proof.
  intros Hwf Hfew E. unfold ref_unused, get_ref, dec_ref_effect, ref_idle.
  rewrite (deref_Some _ _ _ E). cbn [res_bind]. destruct (_ && _).
  - destruct (binder_delete_ref_spec s r y Hwf Hfew E) as (s' & -> & ? & ? & ? & ? & ? & ?).
    exists s'. by do 5 (split; [done|]).
  - exists s. rewrite insert_id by done. do 4 (split; [done|]). by split.
Qed.

(** After the count is lowered and, for the last strong use, the node told. *)
Lemma dec_ref_lowered s r y strong :
  refs_wf s -> few_refs s -> s_refs s !! r = Some y -> ref_count strong y <> 0 ->
  let y' := dec_ref_count strong y in
  exists s1, (if strong && (r_strong y' =? 0)
              then binder_dec_node (put_ref s r y') (r_node y) true true
              else Ret (0, put_ref s r y')) = Ret (0, s1) /\
    refs_wf s1 /\ same_rest s s1 /\ s_refs s1 = <[r := y']> (s_refs s) /\
    s_deaths s1 = s_deaths s /\ s_kzalloc s1 = s_kzalloc s /\
    (forall n, is_Some (s_nodes s1 !! n) <-> is_Some (s_nodes s !! n)).
Proof.
  intros [Hg Hd Hc Hw] Hfew E Hnz y'. destruct (Hc r y E) as [Hs Hk].
  destruct (go_ref_node _ _ _ _ _ _ Hg r y E) as [x Hx].
  pose proof (internal_bound _ _ _ _ _ _ _ _ Hg Hx) as Hib. unfold off0, few_refs in *.
  assert (r_proc y' = r_proc y /\ r_node y' = r_node y /\ r_desc y' = r_desc y /\
    r_death y' = r_death y) as (Y1 & Y2 & Y3 & Y4) by (by unfold y', dec_ref_count; destruct strong).
  assert (0 <= r_strong y' < 2 ^ 31 /\ 0 <= r_weak y' < 2 ^ 31) as [B1 B2].
  { unfold y', dec_ref_count, ref_count in *. destruct strong; simpl; rewrite i32_small; lia. }
  assert (strong_bit y - strong_bit y' = Z.b2z (strong && (r_strong y' =? 0))) as Hbit.
  { unfold y', dec_ref_count, ref_count, strong_bit in *. destruct strong; simpl; [|lia].
    rewrite !i32_small by lia.
    destruct (Z.eqb_spec (r_strong y) 0), (Z.eqb_spec (r_strong y - 1) 0); simpl; lia. }
  clearbody y'. destruct (strong && (r_strong y' =? 0)) eqn:Elast.
  2:{ exists (put_ref s r y'). split; [done|]. split; [|done].
      eapply (refs_wf_put_ref s r y); try done. intros m _. unfold off0. simpl in Hbit.
      case_decide; lia. }
  simpl in Hbit. apply andb_true_iff in Elast as [-> _].
  pose proof (graph_put_ref _ _ _ _ _ _ r y y' Hg E E Y1 Y2 Y3) as Hg1.
  assert (Z.of_nat (size (<[r := y']> (s_refs s))) < 2 ^ 31 - 1) as Hsz.
  { rewrite map_size_insert_Some; [lia|]. rewrite E. by eexists. }
  assert (r ∈ n_refs x) as Hr.
  { destruct (go_nodes _ _ _ _ _ _ Hg _ x Hx) as [_ _ _ N4 _]. apply N4. eauto. }
  destruct (binder_dec_node_spec (put_ref s r y') _ x true true _ _ _ Hg1
    (works_same s _ Hw eq_refl eq_refl eq_refl eq_refl) Hx) as
    (s1 & -> & Hg2 & Hw2 & (Hr2 & Rr2 & Rd2 & Rk2 & _) & Hn2 & [Hx1|(_ & Hfree & _)]); [lia| |].
  2:{ exfalso. simpl in Hfree. rewrite Hfree in Hr. by apply not_elem_of_nil in Hr. }
  exists s1. split; [done|]. simpl in *. split; [split|].
  - rewrite Rr2. eapply graph_off_ext; [|exact Hg2]. intros m _. simpl. unfold off0.
    destruct (decide (m = r_node y)) as [->|]; [|done]. rewrite decide_True by done. lia.
  - rewrite Rr2, Rd2. destruct Hd as [D1 D2].
    assert (forall m z e, <[r := y']> (s_refs s) !! m = Some z -> r_death z = Some e ->
      exists z', s_refs s !! m = Some z' /\ r_death z' = Some e) as Hold.
    { intros m z e. rewrite lookup_insert_Some. intros [[<- <-]|[_ Hz]] He; [|eauto].
      exists y. split; [done|congruence]. }
    split.
    + intros m z e Hz He. destruct (Hold m z e Hz He) as (z' & ? & ?). by apply (D1 m z').
    + intros m1 m2 z1 z2 e Hz1 Hz2 He1 He2. destruct (Hold m1 z1 e Hz1 He1) as (z1' & ? & ?).
      destruct (Hold m2 z2 e Hz2 He2) as (z2' & ? & ?). by apply (D2 _ _ z1' z2' e).
  - intros m z. rewrite Rr2, lookup_insert_Some.
    intros [[<- <-]|[_ Hz]]; [done|]. by apply (Hc m).
  - done.
  - split; [exact Hr2|]. do 3 (split; [done|]). intros m.
    destruct (decide (m = r_node y)) as [->|Hne]; [rewrite Hx, Hx1; split; eauto|].
    by rewrite Hn2.
Qed.

Lemma binder_dec_ref_spec s r y strong :
  refs_wf s -> few_refs s -> s_refs s !! r = Some y ->
  exists ret s', binder_dec_ref s r strong = Ret (ret, s') /\ refs_wf s' /\ same_rest s s' /\
    s_kzalloc s' = s_kzalloc s /\
    (ref_count strong y = 0 /\ ret = - EINVAL /\ s' = s \/
     ref_count strong y <> 0 /\ ret = 0 /\ nodes_kept (r_node y) s s' /\
       dec_ref_effect s r (dec_ref_count strong y) s').
Proof.
  intros Hwf Hfew E. destruct (Z.eq_dec (ref_count strong y) 0) as [Hz|Hnz].
  - exists (- EINVAL), s. split; [|by do 3 (split; [done|]); left]. unfold binder_dec_ref, get_ref.
    rewrite (deref_Some _ _ _ E). cbn [res_bind]. unfold ref_count in Hz.
    destruct strong; by rewrite Hz.
  - destruct (dec_ref_lowered s r y strong Hwf Hfew E Hnz)
      as (s1 & E1 & Hwf1 & Hr1 & Rr1 & Rd1 & Rk1 & Hn1).
    set (y' := dec_ref_count strong y) in *.
    assert (s_refs s1 !! r = Some y') as E' by (rewrite Rr1; apply lookup_insert_eq).
    assert (few_refs s1) as Hfew1.
    { unfold few_refs in *. rewrite Rr1, map_size_insert_Some; [done|]. rewrite E. by eexists. }
    assert (r_node y' = r_node y) as En by (by unfold y', dec_ref_count; destruct strong).
    destruct (ref_unused_spec s1 r y' Hwf1 Hfew1 E')
      as (s2 & E2 & Hwf2 & Hr2 & Rk2 & [Hk2 Hk2'] & Heff).
    exists 0, s2. split; [|split; [done|split; [by transitivity s1|split; [congruence|right]]]].
    + unfold binder_dec_ref, get_ref. rewrite (deref_Some _ _ _ E). cbn [res_bind].
      unfold ref_count in Hnz. unfold y', dec_ref_count in E1. destruct strong; simpl in E1.
      * rewrite (proj2 (Z.eqb_neq _ _) Hnz). simpl. rewrite E1. simpl. exact E2.
      * rewrite (proj2 (Z.eqb_neq _ _) Hnz). injection E1 as ->. exact E2.
    + split; [done|]. split; [done|]. split.
      * rewrite En in Hk2. split; intros m; rewrite <- Hn1; auto.
      * unfold dec_ref_effect in *. rewrite Rr1, Rd1 in Heff.
        destruct (ref_idle y'); [|by rewrite insert_insert_eq in Heff].
        destruct Heff as [-> ->]. split; [|done]. apply map_eq. intros m.
        destruct (decide (m = r)) as [->|Hne]; [by rewrite !lookup_delete_eq|].
        by rewrite !lookup_delete_ne, ?lookup_insert_ne by done.
Qed.

End WithTrees.
