(* ===== verification/NodeRefThms.v ===== *)
(** * NodeRefThms: nodes and references are managed safely

    The theorems about driver/binder.c's nodes and references: the graph stays
    consistent through every operation, no operation reaches a freed object or
    a [BUG], descriptors are unique and as small as possible, counts are
    balanced, and nothing a reference needs is freed before it. *)

From S2P Require Import Prelude RbTree BufferAlloc DriverState NodeRef NodeRefInv NodeRefOps.

Section Reach.
Context `{RL : RbLib}.

(** ** Steps *)

(** An operation of the driver on nodes and references.  Reference counts are
    C [int]s, which the steps keep below their maximum. *)
Inductive ref_step (s : driver) : driver -> Prop :=
| step_new_node a ptr cookie o s' :
    is_Some (s_procs s !! a) ->
    binder_new_node s a ptr cookie = Ret (o, s') -> ref_step s s'
| step_get_ref_for_node a n o s' :
    is_Some (s_procs s !! a) -> is_Some (s_nodes s !! n) ->
    binder_get_ref_for_node s a n = Ret (o, s') -> ref_step s s'
| step_inc_local n strong tl ret s' :
    is_Some (s_nodes s !! n) ->
    binder_inc_node s n strong false tl = Ret (ret, s') -> ref_step s s'
| step_dec_local n strong ret s' :
    is_Some (s_nodes s !! n) ->
    binder_dec_node s n strong false = Ret (ret, s') -> ref_step s s'
| step_inc_ref r y strong tl ret s' :
    s_refs s !! r = Some y -> ref_count strong y < 2 ^ 31 - 1 ->
    binder_inc_ref s r strong tl = Ret (ret, s') -> ref_step s s'
| step_dec_ref r strong ret s' :
    is_Some (s_refs s !! r) ->
    binder_dec_ref s r strong = Ret (ret, s') -> ref_step s s'
| step_delete_ref r s' :
    is_Some (s_refs s !! r) -> binder_delete_ref s r = Ret s' -> ref_step s s'.

(** Steps from a state, as long as memory bounds the number of references. *)
Inductive ref_steps (s0 : driver) : driver -> Prop :=
| steps_refl : ref_steps s0 s0
| steps_step s s' : ref_steps s0 s -> few_refs s -> ref_step s s' -> ref_steps s0 s'.

(** ** Shared lemmas *)

Lemma same_rest_procs s s' a :
  same_rest s s' -> is_Some (s_procs s' !! a) <-> is_Some (s_procs s !! a).
Proof.
  intros [E _]. apply (f_equal (fun m => m !! a)) in E. rewrite !lookup_fmap in E.
  rewrite <- (fmap_is_Some proc_rest (s_procs s' !! a)), E. by rewrite fmap_is_Some.
Qed.

(** The supply stays good when objects are only released. *)
Lemma supply_release s s' :
  supply_ok s -> s_kzalloc s' = s_kzalloc s -> same_rest s s' ->
  (forall n, is_Some (s_nodes s' !! n) -> is_Some (s_nodes s !! n)) ->
  (forall r, is_Some (s_refs s' !! r) -> is_Some (s_refs s !! r)) ->
  (forall d, is_Some (s_deaths s' !! d) -> is_Some (s_deaths s !! d)) -> supply_ok s'.
Proof.
  intros Hsu Ek Hr Hn Hrf Hd. apply (supply_step s); [done|done|].
  intros a Ha. left. pose proof (same_rest_procs s s' a Hr) as Hp.
  destruct Hr as (_ & Et & Ex & _). unfold address_used in *. rewrite Et, Ex in Ha. naive_solver.
Qed.

Lemma deaths_without_sub y ds d : is_Some (deaths_without y ds !! d) -> is_Some (ds !! d).
Proof.
  unfold deaths_without. destruct (r_death y); [|done]. intros [u Hu].
  apply lookup_delete_Some in Hu as [_ Hu]. eauto.
Qed.

Lemma delete_sub {A} (m : gmap Z A) r a : is_Some (delete r m !! a) -> is_Some (m !! a).
Proof. intros [z Hz]. apply lookup_delete_Some in Hz as [_ Hz]. eauto. Qed.

Lemma insert_sub {A} (m : gmap Z A) r x y a :
  m !! r = Some y -> is_Some (<[r := x]> m !! a) -> is_Some (m !! a).
Proof. intros E [u Hu]. apply lookup_insert_Some in Hu as [[<- _]|[_ Hu]]; eauto. Qed.

Lemma effect_sub s r y y' s' a :
  s_refs s !! r = Some y -> dec_ref_effect s r y' s' ->
  (is_Some (s_refs s' !! a) -> is_Some (s_refs s !! a)) /\
  (is_Some (s_deaths s' !! a) -> is_Some (s_deaths s !! a)).
Proof.
  intros E. unfold dec_ref_effect. destruct (ref_idle y'); intros [-> ->].
  - split; [apply delete_sub|apply deaths_without_sub].
  - split; [by eapply insert_sub|done].
Qed.

Lemma inc_node_dom s n x strong internal tl ret s' m :
  s_nodes s !! n = Some x -> binder_inc_node s n strong internal tl = Ret (ret, s') ->
  is_Some (s_nodes s' !! m) -> is_Some (s_nodes s !! m).
Proof.
  intros Hx E. destruct (binder_inc_node_cases s n x strong internal tl Hx)
    as [(l & -> & [E'|E'])|[E'|(-> & [E'|(-> & E')])]]; rewrite E' in E; injection E as _ <-;
    simpl; first [done|by eapply insert_sub].
Qed.

(** Local counts do not concern the references. *)
Lemma inc_local_wf s n x strong tl ret s' :
  refs_wf s -> few_refs s -> supply_ok s -> s_nodes s !! n = Some x ->
  binder_inc_node s n strong false tl = Ret (ret, s') -> refs_wf s' /\ supply_ok s'.
Proof.
  intros [Hg Hd Hc Hw] Hfew Hsu Hx E.
  pose proof (internal_bound _ _ _ _ _ _ _ _ Hg Hx) as Hib. unfold off0, few_refs in *.
  pose proof (fun m => inc_node_dom s n x strong false tl ret s' m Hx E) as Hdom.
  destruct (binder_inc_node_spec s n x strong false tl _ _ _ Hg Hw Hx)
    as (ret' & s1 & E1 & Hw1 & (Hr & Rr & Rd & Rk & _) & _ & _ & Hcase); [lia|].
  rewrite E1 in E. injection E as -> ->. rewrite andb_false_r in Hcase.
  split; [|apply (supply_release s); try done; by rewrite ?Rr, ?Rd].
  split; rewrite ?Rr, ?Rd; try done.
  destruct Hcase as [(_ & _ & H1)|(_ & _ & H1 & _)]; [|done].
  eapply graph_off_ext; [|exact H1]. intros m _. unfold off0. simpl. by case_decide.
Qed.

Lemma dec_local_wf s n x strong ret s' :
  refs_wf s -> few_refs s -> supply_ok s -> s_nodes s !! n = Some x ->
  binder_dec_node s n strong false = Ret (ret, s') -> refs_wf s' /\ supply_ok s'.
Proof.
  intros [Hg Hd Hc Hw] Hfew Hsu Hx E.
  pose proof (internal_bound _ _ _ _ _ _ _ _ Hg Hx) as Hib. unfold off0, few_refs in *.
  destruct (binder_dec_node_spec s n x strong false _ _ _ Hg Hw Hx)
    as (s1 & E1 & H1 & Hw1 & (Hr & Rr & Rd & Rk & _) & Hn & Hn'); [lia|].
  rewrite E1 in E. injection E as _ ->. rewrite andb_false_r in H1. split.
  - split; rewrite ?Rr, ?Rd; try done.
    eapply graph_off_ext; [|exact H1]. intros m _. unfold off0. simpl. by case_decide.
  - apply (supply_release s); try done; rewrite ?Rr, ?Rd; try done.
    intros m Hm. destruct (decide (m = n)) as [->|Hne]; [eauto|]. by rewrite <- Hn.
Qed.

Lemma ref_step_wf s s' :
  refs_wf s -> few_refs s -> supply_ok s -> ref_step s s' -> refs_wf s' /\ supply_ok s'.
Proof.
  intros Hwf Hfew Hsu Hs.
  destruct Hs as [a ptr cookie o s' [p Hp] E|a n o s' [p Hp] [x Hx] E|n st tl ret s' [x Hx] E
    |n st ret s' [x Hx] E|r y st tl ret s' Hy Hmax E|r st ret s' [y Hy] E|r s' [y Hy] E].
  - destruct (binder_new_node_spec s a p ptr cookie Hwf Hsu Hp) as (? & ? & E' & ? & ? & _).
    rewrite E' in E. by injection E as -> ->.
  - destruct (binder_get_ref_for_node_spec s a p n x Hwf Hsu Hfew Hp Hx) as (? & ? & E' & ? & ? & _).
    rewrite E' in E. by injection E as -> ->.
  - by eapply inc_local_wf.
  - by eapply dec_local_wf.
  - destruct (binder_inc_ref_spec s r y st tl Hwf Hfew Hy Hmax)
      as (? & ? & E' & Hwf' & Hr & Rd & Rk & Hn & Hcase).
    rewrite E' in E. injection E as -> ->. split; [done|].
    apply (supply_release s); try done; [by intros; apply Hn| |by rewrite Rd].
    destruct Hcase as [(_ & ->)|(_ & -> & _)]; [|done]. intros m. by eapply insert_sub.
  - destruct (binder_dec_ref_spec s r y st Hwf Hfew Hy) as (? & ? & E' & Hwf' & Hr & Rk & Hcase).
    rewrite E' in E. injection E as -> ->. split; [done|].
    destruct Hcase as [(_ & _ & ->)|(_ & _ & [_ Hn] & Heff)]; [done|].
    apply (supply_release s); try done; intros m; by eapply effect_sub.
  - destruct (binder_delete_ref_spec s r y Hwf Hfew Hy) as (? & E' & Hwf' & Hr & Rr & Rk & Rd & [_ Hn]).
    rewrite E' in E. injection E as ->. split; [done|].
    apply (supply_release s); try done; intros m; rewrite ?Rr, ?Rd;
      [apply delete_sub|apply deaths_without_sub].
Qed.

(** At every value of the count, the one that wraps included. *)
Lemma binder_inc_ref_returns s r y strong tl :
  refs_wf s -> few_refs s -> s_refs s !! r = Some y -> is_ret (binder_inc_ref s r strong tl) = true.
Proof.
  intros Hwf Hfew Hy. destruct (Z.ltb_spec (ref_count strong y) (2 ^ 31 - 1)) as [Hmax|Hmax].
  - by destruct (binder_inc_ref_spec s r y strong tl Hwf Hfew Hy Hmax) as (? & ? & -> & _).
  - unfold binder_inc_ref, upd_ref, get_ref. rewrite (deref_Some _ _ _ Hy). cbn [res_bind].
    unfold ref_count in Hmax. rewrite (proj2 (Z.eqb_neq _ 0)) by (destruct strong; lia).
    cbn [res_bind negb Z.eqb]. rewrite (deref_Some _ _ _ Hy). done.
Qed.

(** ** The theorems *)

(** C3: every state reached from a consistent one by the driver's operations on
    nodes and references is consistent: the four trees of each process hold
    exactly its nodes and references in key order, each node lists exactly the
    references to it and counts exactly those that hold it strongly, death
    notifications belong to one reference each, no list holds work of a freed
    object, and [kzalloc] still has only unused addresses to give. *)
Theorem ref_steps_wf s0 s :
  refs_wf s0 -> supply_ok s0 -> ref_steps s0 s -> refs_wf s /\ supply_ok s.
Proof.
  intros Hwf Hsu. induction 1 as [|s s' _ [Hwf' Hsu'] Hfew Hs]; [done|].
  by apply (ref_step_wf s).
Qed.

(** C19: in a consistent state no operation on live objects follows a stale
    pointer or hits a [BUG], the one for a descriptor already in use included:
    looking up, making, counting up and down and deleting all return. *)
Theorem ref_ops_never_fail s :
  refs_wf s -> supply_ok s -> few_refs s ->
  (forall a ptr cookie, is_Some (s_procs s !! a) ->
     is_ret (binder_get_node s a ptr) = true /\ is_ret (binder_get_ref s a ptr) = true /\
     is_ret (binder_new_node s a ptr cookie) = true) /\
  (forall a n, is_Some (s_procs s !! a) -> is_Some (s_nodes s !! n) ->
     is_ret (binder_get_ref_for_node s a n) = true) /\
  (forall n strong internal tl, is_Some (s_nodes s !! n) ->
     is_ret (binder_inc_node s n strong internal tl) = true /\
     is_ret (binder_dec_node s n strong internal) = true) /\
  (forall r strong tl, is_Some (s_refs s !! r) ->
     is_ret (binder_inc_ref s r strong tl) = true /\
     is_ret (binder_dec_ref s r strong) = true /\ is_ret (binder_delete_ref s r) = true).
Proof.
  intros Hwf Hsu Hfew. pose proof Hwf as [Hg _ _ Hw]. split; [|split; [|split]].
  - intros a ptr cookie [p Hp].
    destruct (binder_get_node_spec s _ _ _ Hg a p ptr Hp) as (? & -> & _).
    destruct (binder_get_ref_spec s _ _ _ Hg (fun _ _ H => H) a p ptr Hp) as (? & -> & _).
    by destruct (binder_new_node_spec s a p ptr cookie Hwf Hsu Hp) as (? & ? & -> & _).
  - intros a n [p Hp] [x Hx].
    by destruct (binder_get_ref_for_node_spec s a p n x Hwf Hsu Hfew Hp Hx) as (? & ? & -> & _).
  - intros n strong internal tl [x Hx].
    pose proof (internal_bound _ _ _ _ _ _ _ _ Hg Hx) as Hib. unfold off0, few_refs in *.
    destruct (binder_inc_node_spec s n x strong internal tl _ _ _ Hg Hw Hx) as (? & ? & -> & _); [lia|].
    destruct (binder_dec_node_spec s n x strong internal _ _ _ Hg Hw Hx) as (? & -> & _); [lia|done].
  - intros r strong tl [y Hy]. split; [by eapply binder_inc_ref_returns|].
    destruct (binder_dec_ref_spec s r y strong Hwf Hfew Hy) as (? & ? & -> & _).
    by destruct (binder_delete_ref_spec s r y Hwf Hfew Hy) as (? & -> & _).
Qed.

(** [binder_get_ref_for_node] answers the process's reference to the node
    when there is one; otherwise it makes one with counts zero and the smallest
    descriptor not in use, counting from 0 for the context manager's node and
    from 1 for any other; NULL means that [kzalloc] failed, and then no
    reference was added. *)
Theorem binder_get_ref_for_node_correct s a n :
  refs_wf s -> supply_ok s -> few_refs s ->
  is_Some (s_procs s !! a) -> is_Some (s_nodes s !! n) ->
  exists o s', binder_get_ref_for_node s a n = Ret (o, s') /\ refs_wf s' /\
    ref_for_node s a n o s'.
Proof.
  intros Hwf Hsu Hfew [p Hp] [x Hx].
  destruct (binder_get_ref_for_node_spec s a p n x Hwf Hsu Hfew Hp Hx)
    as (o & s' & ? & ? & _ & _ & _ & _ & ?). by exists o, s'.
Qed.

(** [binder_get_ref] finds the reference with the descriptor asked for, and
    there is at most one: two references of a process differ in descriptor and
    in node. *)
Theorem binder_get_ref_correct s a desc :
  refs_wf s -> is_Some (s_procs s !! a) ->
  exists o, binder_get_ref s a desc = Ret o /\
    (forall r y, s_refs s !! r = Some y -> r_proc y = a -> r_desc y = desc <-> o = Some r) /\
    (forall r1 r2 y1 y2, s_refs s !! r1 = Some y1 -> s_refs s !! r2 = Some y2 ->
       r_proc y1 = r_proc y2 -> r_node y1 = r_node y2 -> r1 = r2).
Proof.
  intros Hwf [p Hp]. pose proof (rw_graph _ Hwf) as Hg.
  assert (forall f (rs : gmap Z binder_ref) l, sorted_by_lt (fun r => from_option f 0 (rs !! r)) l ->
    forall (r1 r2 : Z) (y1 y2 : binder_ref), r1 ∈ l -> r2 ∈ l ->
    rs !! r1 = Some y1 -> rs !! r2 = Some y2 -> f y1 = f y2 -> r1 = r2) as Huniq.
  { intros f rs l Hs r1 r2 y1 y2 H1 H2 E1 E2 E.
    apply (sorted_by_lt_inj _ _ Hs); [done..|]. by rewrite E1, E2. }
  destruct (binder_get_ref_spec s _ _ _ Hg (fun _ _ H => H) a p desc Hp) as (o & Eo & Ho).
  exists o. split; [done|]. split.
  - intros r y Hy Ha. destruct (go_procs _ _ _ _ _ _ Hg a p Hp) as [_ _ H3 H4 _ _]. split.
    + intros Hd. destruct o as [r'|]; [|by destruct (Ho r y Hy Ha)].
      destruct Ho as (y' & Hy' & Ha' & Hd'). f_equal.
      apply (Huniq r_desc (s_refs s) _ H4 r' r y' y); try done; [apply H3; eauto..|congruence].
    + intros ->. destruct Ho as (y' & Hy' & _ & ?). congruence.
  - intros r1 r2 y1 y2 E1 E2 Ea En. destruct (go_ref_proc _ _ _ _ _ _ Hg r1 y1 E1) as [q Hq].
    destruct (go_procs _ _ _ _ _ _ Hg _ q Hq) as [_ _ _ _ H5 H6].
    apply (Huniq r_node (s_refs s) _ H6 r1 r2 y1 y2); try done; apply H5; eauto.
Qed.

(** [binder_inc_ref] adds one to the count asked for and changes no other
    reference; it fails, changing nothing, only for a first use without a list
    to tell the owner on. *)
Theorem binder_inc_ref_correct s r y strong tl :
  refs_wf s -> few_refs s -> s_refs s !! r = Some y -> ref_count strong y < 2 ^ 31 - 1 ->
  exists ret s', binder_inc_ref s r strong tl = Ret (ret, s') /\ refs_wf s' /\
    (ret = 0 /\ s_refs s' = <[r := if strong then set_r_strong (r_strong y + 1) y
                                   else set_r_weak (r_weak y + 1) y]> (s_refs s) \/
     ret = - EINVAL /\ s' = s /\ tl = None /\ ref_count strong y = 0).
Proof.
  intros Hwf Hfew Hy Hmax. destruct (rw_counts _ Hwf r y Hy).
  destruct (binder_inc_ref_spec s r y strong tl Hwf Hfew Hy Hmax)
    as (ret & s' & ? & ? & _ & _ & _ & _ & Hcase). exists ret, s'. do 2 (split; [done|]).
  destruct Hcase as [[-> E]|?]; [left|by right]. split; [done|]. rewrite E. f_equal.
  unfold inc_ref_count, ref_count in *. destruct strong; rewrite i32_small by lia; done.
Qed.

(** [binder_dec_ref] refuses a count that is zero, changing nothing;
    otherwise it takes one off, and when both counts are zero deletes the
    reference with its death notification, leaving all others as they were.
    The node survives as long as another reference points to it. *)
Theorem binder_dec_ref_correct s r y strong :
  refs_wf s -> few_refs s -> s_refs s !! r = Some y ->
  exists ret s', binder_dec_ref s r strong = Ret (ret, s') /\ refs_wf s' /\
    (ref_count strong y = 0 /\ ret = - EINVAL /\ s' = s \/
     ref_count strong y <> 0 /\ ret = 0 /\
       dec_ref_effect s r (if strong then set_r_strong (r_strong y - 1) y
                           else set_r_weak (r_weak y - 1) y) s' /\
       (forall m z, s_refs s !! m = Some z -> m <> r -> is_Some (s_nodes s' !! r_node z))).
Proof.
  intros Hwf Hfew Hy. destruct (rw_counts _ Hwf r y Hy).
  destruct (binder_dec_ref_spec s r y strong Hwf Hfew Hy)
    as (ret & s' & ? & Hwf' & _ & _ & Hcase). exists ret, s'. do 2 (split; [done|]).
  destruct Hcase as [?|(Hnz & -> & _ & Heff)]; [by left|right]. do 2 (split; [done|]).
  assert (dec_ref_count strong y = if strong then set_r_strong (r_strong y - 1) y
    else set_r_weak (r_weak y - 1) y) as E.
  { unfold dec_ref_count, ref_count in *. destruct strong; rewrite i32_small by lia; done. }
  rewrite E in Heff. split; [done|]. intros m z Hz Hne.
  apply (go_ref_node _ _ _ _ _ _ (rw_graph _ Hwf') m z). unfold dec_ref_effect in Heff.
  destruct (ref_idle _); destruct Heff as [-> _]; [by rewrite lookup_delete_ne|].
  by rewrite lookup_insert_ne.
Qed.

(** Taking a reference and dropping it again restores every reference, for
    a reference some user already holds. *)
Theorem inc_dec_ref_roundtrip s r y strong tl :
  refs_wf s -> few_refs s -> s_refs s !! r = Some y -> ref_idle y = false ->
  ref_count strong y < 2 ^ 31 - 1 -> tl <> None ->
  exists s1 s2, binder_inc_ref s r strong tl = Ret (0, s1) /\
    binder_dec_ref s1 r strong = Ret (0, s2) /\ refs_wf s2 /\ s_refs s2 = s_refs s.
Proof.
  intros Hwf Hfew Hy Hid Hmax Htl. destruct (rw_counts _ Hwf r y Hy).
  destruct (binder_inc_ref_spec s r y strong tl Hwf Hfew Hy Hmax)
    as (ret & s1 & E1 & Hwf1 & _ & _ & _ & _ & [[-> Er1]|(_ & _ & ? & _)]); [|done].
  assert (s_refs s1 !! r = Some (inc_ref_count strong y)) as Hy1 by (rewrite Er1; apply lookup_insert_eq).
  assert (few_refs s1) as Hfew1.
  { unfold few_refs in *. rewrite Er1, map_size_insert_Some; [done|]. rewrite Hy. by eexists. }
  assert (ref_count strong (inc_ref_count strong y) <> 0 /\
    dec_ref_count strong (inc_ref_count strong y) = y) as [Hnz Hback].
  { unfold ref_count, dec_ref_count, inc_ref_count in *.
    destruct strong, y; simpl in *; rewrite (i32_small (_ + 1)) by lia;
      (split; [lia|]); rewrite i32_small by lia; unfold set_r_strong, set_r_weak; simpl;
      f_equal; lia. }
  destruct (binder_dec_ref_spec s1 r _ strong Hwf1 Hfew1 Hy1)
    as (ret & s2 & E2 & Hwf2 & _ & _ & [(? & _)|(_ & -> & _ & Heff)]); [done|].
  rewrite Hback in Heff. unfold dec_ref_effect in Heff. rewrite Hid, Er1 in Heff.
  exists s1, s2. do 3 (split; [done|]). destruct Heff as [-> _].
  rewrite insert_insert_eq. by apply insert_id.
Qed.

(** No count of the kind is left. *)
Definition count_gone (strong : bool) (x : binder_node) : bool :=
  if strong then (n_local_strong_refs x =? 0) && (n_internal_strong_refs x =? 0)
  else (n_local_weak_refs x =? 0) && bool_decide (n_refs x = []).

(** The owner of the node, if alive, still counts it. *)
Definition owner_counts (x : binder_node) : bool :=
  bool_decide (is_Some (n_proc x)) && (n_has_strong_ref x || n_has_weak_ref x).

(** C39: when [binder_dec_node] takes the last count of a kind away and the
    owner still counts the node, the node's work is on a list afterwards, and if
    it was not before, it is now on the owner's [todo] and the owner is woken;
    the node is freed exactly when the owner does not count it and neither a
    reference nor a local count is left. *)
Theorem binder_dec_node_correct s n x strong internal :
  refs_wf s -> s_nodes s !! n = Some x ->
  let x' := dec_count strong internal x in
  exists s', binder_dec_node s n strong internal = Ret (0, s') /\
    (count_gone strong x' = true -> owner_counts x = true ->
       queued s' (WNode n) = true /\
       (queued s (WNode n) = false -> exists a, n_proc x = Some a /\
          WNode n ∈ work_list s' (ProcTodo a) /\ s_wakes s' = ProcWait a :: s_wakes s)) /\
    (s_nodes s' !! n = None <-> count_gone strong x' = true /\ owner_counts x = false /\
       n_refs x = [] /\ n_local_strong_refs x' = 0 /\ n_local_weak_refs x' = 0).
Proof.
  intros Hwf Hx x'. destruct (go_nodes _ _ _ _ _ _ (rw_graph _ Hwf) n x Hx) as [N1 _ _ _ _].
  assert (n_proc x' = n_proc x /\ n_refs x' = n_refs x /\ n_has_strong_ref x' = n_has_strong_ref x /\
    n_has_weak_ref x' = n_has_weak_ref x) as (Ep & Er & Es & Ew)
    by (unfold x', dec_count; by destruct strong, internal).
  set (s1 := put_node s n x').
  assert (s_nodes s1 !! n = Some x') as Hx1 by apply lookup_insert_eq.
  assert (binder_dec_node s n strong internal =
    if count_gone strong x' then node_unused s1 n else Ret (0, s1)) as ->.
  { unfold binder_dec_node, get_node, s1, x', dec_count, count_gone.
    rewrite (deref_Some _ _ _ Hx). cbn [res_bind].
    destruct strong, internal; simpl;
      repeat match goal with |- context [Z.eqb ?a 0] => destruct (Z.eqb a 0); simpl end;
      try done; by destruct (bool_decide (n_refs x = [])). }
  destruct (count_gone strong x') eqn:Eg.
  2:{ exists s1. split; [done|]. split; [done|]. rewrite Hx1. split; [done|]. by intros [? _]. }
  unfold node_unused, get_node. rewrite (deref_Some _ _ _ Hx1). cbn [res_bind].
  unfold owner_counts. rewrite Ep, Er, Es, Ew.
  destruct (n_proc x) as [a|] eqn:Ea.
  - destruct (N1 a eq_refl) as [p Hp]. rewrite (bool_decide_eq_true_2 (is_Some (Some a))) by done. cbn [andb].
    destruct (n_has_strong_ref x || n_has_weak_ref x).
    + change (queued s1 (WNode n)) with (queued s (WNode n)).
      destruct (queued s (WNode n)) eqn:Eq.
      * exists s1. split; [done|]. split; [done|]. rewrite Hx1. split; [done|]. by intros (_ & ? & _).
      * unfold get_proc. rewrite (deref_Some (s_procs s1) a p Hp). cbn [res_bind].
        eexists. split; [reflexivity|]. split.
        -- intros _ _. assert (WNode n ∈ work_list (list_add_tail s1 (WNode n) (ProcTodo a))
             (ProcTodo a)) as Hin.
           { rewrite work_list_add_tail, decide_True by done. set_solver. }
           split; [apply queued_spec; by exists (ProcTodo a)|]. intros _. by exists a.
        -- simpl. rewrite lookup_insert_eq. split; [done|]. by intros (_ & ? & _).
    + destruct (bool_decide (n_refs x = []) && _ && _) eqn:Ef.
      * rewrite !andb_true_iff, bool_decide_eq_true, !Z.eqb_eq in Ef. destruct Ef as [[? ?] ?].
        unfold upd_proc, get_proc. simpl. rewrite (deref_Some (s_procs s) a p Hp). cbn [res_bind].
        unfold kfree_node, get_node. simpl.
        match goal with |- context [deref ?m n] => change m with (s_nodes s1) end.
        rewrite (deref_Some _ _ _ Hx1). cbn [res_bind].
        eexists. split; [reflexivity|]. split; [done|]. simpl. by rewrite lookup_delete_eq.
      * exists s1. split; [done|]. split; [done|]. rewrite Hx1. split; [done|].
        intros (_ & _ & H1 & H2 & H3). rewrite H1, H2, H3 in Ef. done.
  - rewrite (bool_decide_eq_false_2 (is_Some (@None Z))) by (by intros [? ?]). cbn [andb].
    destruct (bool_decide (n_refs x = []) && _ && _) eqn:Ef.
    + rewrite !andb_true_iff, bool_decide_eq_true, !Z.eqb_eq in Ef. destruct Ef as [[? ?] ?].
      unfold kfree_node, get_node. simpl.
        match goal with |- context [deref ?m n] => change m with (s_nodes s1) end.
        rewrite (deref_Some _ _ _ Hx1). cbn [res_bind].
      eexists. split; [reflexivity|]. split; [done|]. simpl. by rewrite lookup_delete_eq.
    + exists s1. split; [done|]. split; [done|]. rewrite Hx1. split; [done|].
      intros (_ & _ & H1 & H2 & H3). rewrite H1, H2, H3 in Ef. done.
Qed.

End Reach.

(** ** Witnesses

    Two processes at 100 and 200; the first exports a node (at 1000), the second
    gets a reference to it (at 1001) and acquires it. *)

#[local] Existing Instance plain_rb.

Definition sample_binder_proc (pid : Z) : binder_proc :=
  BinderProc RbLeaf RbLeaf RbLeaf RbLeaf pid pid false 0
    (ProcMem None None 0 0 [] RbLeaf RbLeaf 0 ∅ 0) 0 0 0 0 0.

Definition sample_driver : driver :=
  Driver (<[100 := sample_binder_proc 1]> {[200 := sample_binder_proc 2]})
    ∅ ∅ ∅ ∅ ∅ ∅ [100; 200] [] [] None None 0 [] [Some 1000; Some 1001; Some 1002] 0 [].

Definition state_after {A} (m : res (A * driver)) : driver :=
  match m with Ret (_, s) => s | Bug _ => sample_driver end.

Definition sample_with_node : driver := state_after (binder_new_node sample_driver 100 16 32).
Definition sample_with_ref : driver :=
  state_after (binder_get_ref_for_node sample_with_node 200 1000).
Definition sample_held : driver :=
  state_after (binder_inc_ref sample_with_ref 1001 true (Some (ThreadTodo 300))).
Definition sample_binder_ref : binder_ref := BinderRef 2 200 1000 1 1 0 None.
Definition sample_node : binder_node :=
  BinderNode 1 (Some 100) [1001] 1 0 0 16 32 false false false false false false 0.

Lemma sample_driver_wf : refs_wf sample_driver /\ supply_ok sample_driver.
Proof.
  split; [split; [split|split|..]|split]; simpl; try done.
  - intros a p [[<- <-]|[_ [<- <-]%lookup_singleton_Some]]%lookup_insert_Some;
      split; simpl; try constructor; try (by intros ?%not_elem_of_nil);
      by intros (? & ?%lookup_empty_Some & _).
  - by intros ? ?%not_elem_of_nil.
  - intros l w. unfold work_list. simpl. rewrite lookup_total_empty.
    by intros ?%not_elem_of_nil.
  - intros a Ha. unfold address_used. simpl. rewrite !lookup_empty.
    rewrite lookup_insert_is_Some', lookup_singleton_is_Some.
    assert (a = 1000 \/ a = 1001 \/ a = 1002) as Ha' by set_solver.
    intros [[?|?]|Hn]; [lia..|]. destruct_or?; by destruct Hn.
  - apply (bool_decide_unpack _). vm_compute. done.
Qed.

Lemma sample_step_node : ref_step sample_driver sample_with_node.
Proof. apply (step_new_node _ 100 16 32 (Some 1000)); [by eexists|vm_compute; reflexivity]. Qed.

Lemma sample_step_ref : ref_step sample_with_node sample_with_ref.
Proof.
  apply (step_get_ref_for_node _ 200 1000 (Some 1001));
    [vm_compute; by eexists..|vm_compute; reflexivity].
Qed.

Lemma sample_step_held : ref_step sample_with_ref sample_held.
Proof.
  apply (step_inc_ref _ 1001 (BinderRef 2 200 1000 1 0 0 None) true (Some (ThreadTodo 300)) 0);
    [vm_compute; reflexivity|done|vm_compute; reflexivity].
Qed.

Lemma sample_node_ok : refs_wf sample_with_node /\ supply_ok sample_with_node.
Proof.
  destruct sample_driver_wf. by apply (ref_step_wf sample_driver); [..|apply sample_step_node].
Qed.

Lemma sample_held_ok : refs_wf sample_held /\ supply_ok sample_held.
Proof.
  destruct sample_node_ok as [H1 H2].
  destruct (ref_step_wf _ _ H1 ltac:(done) H2 sample_step_ref) as [H3 H4].
  by apply (ref_step_wf sample_with_ref); [..|apply sample_step_held].
Qed.

Lemma sample_held_ref : s_refs sample_held !! 1001 = Some sample_binder_ref.
Proof. vm_compute. reflexivity. Qed.

Lemma sample_held_node : s_nodes sample_held !! 1000 = Some sample_node.
Proof. vm_compute. reflexivity. Qed.

Lemma sample_held_procs : is_Some (s_procs sample_held !! 100) /\ is_Some (s_procs sample_held !! 200).
Proof. vm_compute. split; by eexists. Qed.

Lemma ref_steps_wf_witness : refs_wf sample_held /\ supply_ok sample_held.
Proof.
  apply (ref_steps_wf sample_driver); [apply sample_driver_wf..|].
  apply (steps_step _ sample_with_ref); [|done|apply sample_step_held].
  apply (steps_step _ sample_with_node); [|done|apply sample_step_ref].
  apply (steps_step _ sample_driver); [constructor|done|apply sample_step_node].
Defined.

Lemma ref_ops_never_fail_witness :
  is_ret (binder_delete_ref sample_held 1001) = true /\
  is_ret (binder_inc_ref sample_held 1001 false None) = true /\
  is_ret (binder_get_ref_for_node sample_held 100 1000) = true.
Proof.
  destruct sample_held_ok as [H1 H2].
  destruct (ref_ops_never_fail sample_held H1 H2 ltac:(done)) as (_ & Hg & _ & Hd).
  split; [|split].
  - apply (Hd 1001 true None). exists sample_binder_ref. apply sample_held_ref.
  - apply (Hd 1001 false None). exists sample_binder_ref. apply sample_held_ref.
  - apply Hg; [apply sample_held_procs|]. exists sample_node. apply sample_held_node.
Defined.

Lemma binder_get_ref_for_node_correct_witness :
  exists o s', binder_get_ref_for_node sample_held 100 1000 = Ret (o, s') /\ refs_wf s' /\
    ref_for_node sample_held 100 1000 o s'.
Proof.
  destruct sample_held_ok as [H1 H2]. apply binder_get_ref_for_node_correct;
    [done|done|done|apply sample_held_procs|exists sample_node; apply sample_held_node].
Defined.

Lemma binder_get_ref_correct_witness :
  exists o, binder_get_ref sample_held 200 1 = Ret o /\ o = Some 1001.
Proof.
  destruct (binder_get_ref_correct sample_held 200 1) as (o & E & Ho & _);
    [apply sample_held_ok|apply sample_held_procs|].
  exists o. split; [exact E|]. by apply (Ho 1001 sample_binder_ref sample_held_ref).
Defined.

Lemma binder_inc_ref_correct_witness :
  exists ret s', binder_inc_ref sample_held 1001 false None = Ret (ret, s') /\ refs_wf s' /\
    (ret = 0 /\ s_refs s' = <[1001 := set_r_weak 1 sample_binder_ref]> (s_refs sample_held) \/
     ret = - EINVAL /\ s' = sample_held /\ @None list_id = None /\ 0 = 0).
Proof.
  apply (binder_inc_ref_correct sample_held 1001 sample_binder_ref false None);
    [apply sample_held_ok|done|apply sample_held_ref|done].
Defined.

Lemma binder_dec_ref_correct_witness :
  exists ret s', binder_dec_ref sample_held 1001 true = Ret (ret, s') /\ refs_wf s' /\
    (1 = 0 /\ ret = - EINVAL /\ s' = sample_held \/
     1 <> 0 /\ ret = 0 /\ dec_ref_effect sample_held 1001 (set_r_strong 0 sample_binder_ref) s' /\
     (forall m z, s_refs sample_held !! m = Some z -> m <> 1001 -> is_Some (s_nodes s' !! r_node z))).
Proof.
  apply (binder_dec_ref_correct sample_held 1001 sample_binder_ref true);
    [apply sample_held_ok|done|apply sample_held_ref].
Defined.

Lemma inc_dec_ref_roundtrip_witness :
  exists s1 s2, binder_inc_ref sample_held 1001 true (Some (ThreadTodo 300)) = Ret (0, s1) /\
    binder_dec_ref s1 1001 true = Ret (0, s2) /\ refs_wf s2 /\ s_refs s2 = s_refs sample_held.
Proof.
  apply (inc_dec_ref_roundtrip sample_held 1001 sample_binder_ref);
    [apply sample_held_ok|done|apply sample_held_ref|done..].
Defined.

Lemma binder_dec_node_correct_witness :
  exists s', binder_dec_node sample_held 1000 true true = Ret (0, s') /\
    s_nodes s' !! 1000 <> None.
Proof.
  destruct (binder_dec_node_correct sample_held 1000 sample_node true true) as (s' & E & _ & Hf);
    [apply sample_held_ok|apply sample_held_node|].
  exists s'. split; [exact E|]. intros Hn. apply Hf in Hn as (_ & _ & Hr & _). discriminate Hr.
Defined.
