(* ===== verification/Uapi.v ===== *)
(** * Uapi: the protocol between the driver and user space

    The command numbers, flags and structures of <linux/android/binder.h>, a
    header both sides include and the repository does not contain.  They are a
    parameter of the model: [BinderUapi] states what both sides rely on, that
    commands differ from each other and that a structure read back is the one
    written.  [sample_uapi] is a concrete instance with the layout of a 64-bit
    machine.  User memory is a map of the mapped bytes. *)

From S2P Require Import Prelude.

(** ** Structures *)

(** [struct binder_transaction_data]; [td_target] is the union of the handle
    and the node's pointer. *)
Record transaction_data := TransactionData {
  td_target : Z;
  td_cookie : Z;
  td_code : Z;
  td_flags : Z;
  td_sender_pid : Z;
  td_sender_euid : Z;
  td_data_size : Z;
  td_offsets_size : Z;
  td_buffer : Z;
  td_offsets : Z
}.

(** [struct flat_binder_object]; [fo_binder] is the 64-bit union whose low half
    is the handle. *)
Record flat_binder_object := FlatBinderObject {
  fo_type : Z;
  fo_flags : Z;
  fo_binder : Z;
  fo_cookie : Z
}.

(** [struct binder_write_read]. *)
Record binder_write_read := BinderWriteRead {
  wr_write_size : Z;
  wr_write_consumed : Z;
  wr_write_buffer : Z;
  wr_read_size : Z;
  wr_read_consumed : Z;
  wr_read_buffer : Z
}.

Definition fo_handle (o : flat_binder_object) : Z := u32 (fo_binder o).

(** [fp->handle = h] leaves the upper half of the union alone. *)
Definition set_fo_handle (h : Z) (o : flat_binder_object) : flat_binder_object :=
  FlatBinderObject (fo_type o) (fo_flags o) (fo_binder o - u32 (fo_binder o) + u32 h)
    (fo_cookie o).

Definition set_fo_type (t : Z) (o : flat_binder_object) : flat_binder_object :=
  FlatBinderObject t (fo_flags o) (fo_binder o) (fo_cookie o).

Definition set_fo_binder (p c : Z) (o : flat_binder_object) : flat_binder_object :=
  FlatBinderObject (fo_type o) (fo_flags o) p c.

(** The union of [tr.target] read as a handle. *)
Definition td_handle (t : transaction_data) : Z := u32 (td_target t).

Class BinderUapi := {
  BR_ERROR : Z; BR_OK : Z; BR_TRANSACTION : Z; BR_REPLY : Z;
  BR_ACQUIRE_RESULT : Z; BR_DEAD_REPLY : Z; BR_TRANSACTION_COMPLETE : Z;
  BR_INCREFS : Z; BR_ACQUIRE : Z; BR_RELEASE : Z; BR_DECREFS : Z;
  BR_ATTEMPT_ACQUIRE : Z; BR_NOOP : Z; BR_SPAWN_LOOPER : Z; BR_FINISHED : Z;
  BR_DEAD_BINDER : Z; BR_CLEAR_DEATH_NOTIFICATION_DONE : Z; BR_FAILED_REPLY : Z;

  BC_TRANSACTION : Z; BC_REPLY : Z; BC_ACQUIRE_RESULT : Z; BC_FREE_BUFFER : Z;
  BC_INCREFS : Z; BC_ACQUIRE : Z; BC_RELEASE : Z; BC_DECREFS : Z;
  BC_INCREFS_DONE : Z; BC_ACQUIRE_DONE : Z; BC_ATTEMPT_ACQUIRE : Z;
  BC_REGISTER_LOOPER : Z; BC_ENTER_LOOPER : Z; BC_EXIT_LOOPER : Z;
  BC_REQUEST_DEATH_NOTIFICATION : Z; BC_CLEAR_DEATH_NOTIFICATION : Z;
  BC_DEAD_BINDER_DONE : Z;

  BINDER_WRITE_READ : Z; BINDER_SET_MAX_THREADS : Z; BINDER_SET_CONTEXT_MGR : Z;
  BINDER_THREAD_EXIT : Z; BINDER_VERSION : Z; BINDER_CURRENT_PROTOCOL_VERSION : Z;

  BINDER_TYPE_BINDER : Z; BINDER_TYPE_WEAK_BINDER : Z; BINDER_TYPE_HANDLE : Z;
  BINDER_TYPE_WEAK_HANDLE : Z; BINDER_TYPE_FD : Z;

  TF_ONE_WAY : Z; TF_ROOT_OBJECT : Z; TF_STATUS_CODE : Z; TF_ACCEPT_FDS : Z;
  FLAT_BINDER_FLAG_PRIORITY_MASK : Z; FLAT_BINDER_FLAG_ACCEPTS_FDS : Z;

  sizeof_transaction_data : Z;
  sizeof_flat_binder_object : Z;
  td_decode : list Z -> transaction_data;
  td_encode : transaction_data -> list Z;
  fo_decode : list Z -> flat_binder_object;
  fo_encode : flat_binder_object -> list Z;

  sizeof_write_read : Z;
  wr_decode : list Z -> binder_write_read;
  wr_encode : binder_write_read -> list Z;
  IOC_SIZE : Z -> Z;
  sizeof_version : Z;
  sizeof_ptr_cookie : Z;
  handle_cookie_encode : Z -> Z -> list Z;

  returns_distinct :
    NoDup [BR_ERROR; BR_OK; BR_TRANSACTION; BR_REPLY; BR_ACQUIRE_RESULT; BR_DEAD_REPLY;
      BR_TRANSACTION_COMPLETE; BR_INCREFS; BR_ACQUIRE; BR_RELEASE; BR_DECREFS;
      BR_ATTEMPT_ACQUIRE; BR_NOOP; BR_SPAWN_LOOPER; BR_FINISHED; BR_DEAD_BINDER;
      BR_CLEAR_DEATH_NOTIFICATION_DONE; BR_FAILED_REPLY];
  returns_range : Forall (fun c => 0 <= c < 2 ^ 32)
    [BR_ERROR; BR_OK; BR_TRANSACTION; BR_REPLY; BR_ACQUIRE_RESULT; BR_DEAD_REPLY;
      BR_TRANSACTION_COMPLETE; BR_INCREFS; BR_ACQUIRE; BR_RELEASE; BR_DECREFS;
      BR_ATTEMPT_ACQUIRE; BR_NOOP; BR_SPAWN_LOOPER; BR_FINISHED; BR_DEAD_BINDER;
      BR_CLEAR_DEATH_NOTIFICATION_DONE; BR_FAILED_REPLY];
  commands_distinct :
    NoDup [BC_TRANSACTION; BC_REPLY; BC_ACQUIRE_RESULT; BC_FREE_BUFFER; BC_INCREFS;
      BC_ACQUIRE; BC_RELEASE; BC_DECREFS; BC_INCREFS_DONE; BC_ACQUIRE_DONE;
      BC_ATTEMPT_ACQUIRE; BC_REGISTER_LOOPER; BC_ENTER_LOOPER; BC_EXIT_LOOPER;
      BC_REQUEST_DEATH_NOTIFICATION; BC_CLEAR_DEATH_NOTIFICATION; BC_DEAD_BINDER_DONE];
  types_distinct :
    NoDup [BINDER_TYPE_BINDER; BINDER_TYPE_WEAK_BINDER; BINDER_TYPE_HANDLE;
      BINDER_TYPE_WEAK_HANDLE; BINDER_TYPE_FD];
  ioctls_distinct :
    NoDup [BINDER_WRITE_READ; BINDER_SET_MAX_THREADS; BINDER_SET_CONTEXT_MGR;
      BINDER_THREAD_EXIT; BINDER_VERSION];
  ioc_size_write_read : IOC_SIZE BINDER_WRITE_READ = sizeof_write_read;
  ioc_size_version : IOC_SIZE BINDER_VERSION = sizeof_version;
  length_wr_encode w : Z.of_nat (length (wr_encode w)) = sizeof_write_read;
  wr_decode_encode w :
    0 <= wr_write_size w < 2 ^ 64 -> 0 <= wr_write_consumed w < 2 ^ 64 ->
    0 <= wr_write_buffer w < 2 ^ 64 -> 0 <= wr_read_size w < 2 ^ 64 ->
    0 <= wr_read_consumed w < 2 ^ 64 -> 0 <= wr_read_buffer w < 2 ^ 64 ->
    wr_decode (wr_encode w) = w;
  ptr_cookie_two_words : sizeof_ptr_cookie = 16;
  handle_cookie_packed h c :
    handle_cookie_encode h c = le_encode 4 h ++ le_encode 8 c;
  sizeof_flat_pos : 0 < sizeof_flat_binder_object;
  sizeof_flat_small : sizeof_flat_binder_object < 2 ^ 32;
  sizeof_td_pos : 0 < sizeof_transaction_data;
  length_fo_encode o : Z.of_nat (length (fo_encode o)) = sizeof_flat_binder_object;
  length_td_encode t : Z.of_nat (length (td_encode t)) = sizeof_transaction_data;
  fo_decode_range l : Forall byte_ok l -> 0 <= fo_binder (fo_decode l) < 2 ^ 64;
  fo_encode_bytes o : Forall byte_ok (fo_encode o);
  accepts_fds_range : 0 <= FLAT_BINDER_FLAG_ACCEPTS_FDS < 2 ^ 32;
  fo_decode_encode o :
    0 <= fo_type o < 2 ^ 32 -> 0 <= fo_flags o < 2 ^ 32 ->
    0 <= fo_binder o < 2 ^ 64 -> 0 <= fo_cookie o < 2 ^ 64 -> fo_decode (fo_encode o) = o;
  types_range : Forall (fun t => 0 <= t < 2 ^ 32)
    [BINDER_TYPE_BINDER; BINDER_TYPE_WEAK_BINDER; BINDER_TYPE_HANDLE;
     BINDER_TYPE_WEAK_HANDLE; BINDER_TYPE_FD];
  td_decode_encode t :
    0 <= td_target t < 2 ^ 64 -> 0 <= td_cookie t < 2 ^ 64 -> 0 <= td_code t < 2 ^ 32 ->
    0 <= td_flags t < 2 ^ 32 -> 0 <= td_sender_pid t < 2 ^ 32 ->
    0 <= td_sender_euid t < 2 ^ 32 -> 0 <= td_data_size t < 2 ^ 64 ->
    0 <= td_offsets_size t < 2 ^ 64 -> 0 <= td_buffer t < 2 ^ 64 ->
    0 <= td_offsets t < 2 ^ 64 -> td_decode (td_encode t) = t
}.

(** ** User memory *)

Definition user_memory := gmap Z Z.

(** [n] bytes from [a]; [None] is a fault. *)
Definition copy_from_user (m : user_memory) (a n : Z) : option (list Z) :=
  mapM (fun x => m !! x) (seqZ a n).

Definition get_user32 (m : user_memory) (a : Z) : option Z :=
  l ← copy_from_user m a 4; Some (le_decode l).

Definition get_user64 (m : user_memory) (a : Z) : option Z :=
  l ← copy_from_user m a 8; Some (le_decode l).

Fixpoint write_bytes (m : user_memory) (a : Z) (l : list Z) : user_memory :=
  match l with
  | [] => m
  | b :: l' => write_bytes (<[a := b]> m) (a + 1) l'
  end.

(** [copy_to_user]; the memory is left alone on a fault. *)
Definition copy_to_user (m : user_memory) (a : Z) (l : list Z) : option user_memory :=
  if bool_decide (is_Some (copy_from_user m a (Z.of_nat (length l))))
  then Some (write_bytes m a l) else None.

Definition put_user32 (m : user_memory) (a x : Z) : option user_memory :=
  copy_to_user m a (le_encode 4 x).

Definition put_user64 (m : user_memory) (a x : Z) : option user_memory :=
  copy_to_user m a (le_encode 8 x).

Lemma fo_handle_set h fp : 0 <= h < 2 ^ 32 -> fo_handle (set_fo_handle h fp) = h.
Proof.
  intros Hh. unfold fo_handle, set_fo_handle, u32. simpl. rewrite (Z.mod_small h) by done.
  Z.to_euclidean_division_equations. lia.
Qed.

(** What is written is read back, and the rest of the memory is as it was. *)
Lemma write_bytes_lookup l : forall m a x,
  write_bytes m a l !! x =
  if decide (a <= x < a + Z.of_nat (length l)) then l !! Z.to_nat (x - a) else m !! x.
Proof.
  induction l as [|b l IH]; intros m a x; simpl.
  { by rewrite decide_False by lia. }
  rewrite IH. case_decide as H1; case_decide as H2; try lia.
  - replace (Z.to_nat (x - a)) with (S (Z.to_nat (x - (a + 1)))) by lia. done.
  - assert (x = a) as -> by lia. rewrite Z.sub_diag. exact (lookup_insert_eq (M := gmap Z) m a b).
  - apply (lookup_insert_ne (M := gmap Z)). lia.
Qed.

Lemma copy_from_user_write m a l :
  copy_from_user (write_bytes m a l) a (Z.of_nat (length l)) = Some l.
Proof.
  unfold copy_from_user. apply mapM_Some. apply Forall2_same_length_lookup_2.
  { rewrite length_seqZ. lia. }
  intros i x y Hx Hy. apply lookup_seqZ in Hx as [-> Hi]. rewrite write_bytes_lookup.
  rewrite decide_True by lia. by replace (Z.to_nat (a + Z.of_nat i - a)) with i by lia.
Qed.

Lemma copy_from_user_ext m m' a n :
  (forall x, a <= x < a + n -> m' !! x = m !! x) -> copy_from_user m' a n = copy_from_user m a n.
Proof.
  intros H. unfold copy_from_user.
  assert (forall x, x ∈ seqZ a n -> m' !! x = m !! x) as Hl
    by (intros x Hx; apply H; apply elem_of_seqZ in Hx; lia).
  revert Hl. generalize (seqZ a n). intros l Hl. induction l as [|x l IH]; [done|].
  simpl. rewrite (Hl x), IH by set_solver. done.
Qed.

Lemma copy_to_user_ok m a l :
  is_Some (copy_from_user m a (Z.of_nat (length l))) -> copy_to_user m a l = Some (write_bytes m a l).
Proof. intros H. unfold copy_to_user. by rewrite bool_decide_eq_true_2. Qed.

Lemma copy_from_user_is_Some m a n :
  is_Some (copy_from_user m a n) <-> forall x, a <= x < a + n -> is_Some (m !! x).
Proof.
  unfold copy_from_user. rewrite mapM_is_Some, Forall_forall.
  split; intros H x Hx; apply H; [apply elem_of_seqZ; lia|]. apply elem_of_seqZ in Hx. lia.
Qed.

Lemma write_bytes_is_Some m a l x : is_Some (m !! x) -> is_Some (write_bytes m a l !! x).
Proof.
  intros H. rewrite write_bytes_lookup. case_decide as Hd; [|done].
  apply lookup_lt_is_Some. lia.
Qed.

(** ** The objects inside a buffer's data *)

Section Objects.
Context `{U : BinderUapi}.

Definition read_object (data : list Z) (off : Z) : flat_binder_object :=
  fo_decode (take (Z.to_nat sizeof_flat_binder_object) (drop (Z.to_nat off) data)).

Definition write_object (data : list Z) (off : Z) (o : flat_binder_object) : list Z :=
  take (Z.to_nat off) data ++ fo_encode o ++
  drop (Z.to_nat off + Z.to_nat sizeof_flat_binder_object) data.

(** The check both the sender's and the releasing loop make of an offset. *)
Definition bad_offset (off data_size : Z) : bool :=
  (u64 (data_size - sizeof_flat_binder_object) <? off) ||
  (data_size <? sizeof_flat_binder_object) || negb (IS_ALIGNED off 4).

Definition obj_is (o : flat_binder_object) (t : Z) : bool := fo_type o =? t.

End Objects.

(** ** A concrete instance *)

Definition word (l : list Z) (off n : nat) : Z := le_decode (take n (drop off l)).

Definition sample_fo_decode (l : list Z) : flat_binder_object :=
  FlatBinderObject (word l 0 4) (word l 4 4) (word l 8 8) (word l 16 8).

Definition sample_fo_encode (o : flat_binder_object) : list Z :=
  le_encode 4 (fo_type o) ++ le_encode 4 (fo_flags o) ++ le_encode 8 (fo_binder o) ++
  le_encode 8 (fo_cookie o).

Definition sample_td_decode (l : list Z) : transaction_data :=
  TransactionData (word l 0 8) (word l 8 8) (word l 16 4) (word l 20 4) (word l 24 4)
    (word l 28 4) (word l 32 8) (word l 40 8) (word l 48 8) (word l 56 8).

Definition sample_td_encode (t : transaction_data) : list Z :=
  le_encode 8 (td_target t) ++ le_encode 8 (td_cookie t) ++ le_encode 4 (td_code t) ++
  le_encode 4 (td_flags t) ++ le_encode 4 (td_sender_pid t) ++
  le_encode 4 (td_sender_euid t) ++ le_encode 8 (td_data_size t) ++
  le_encode 8 (td_offsets_size t) ++ le_encode 8 (td_buffer t) ++ le_encode 8 (td_offsets t).

Definition sample_wr_decode (l : list Z) : binder_write_read :=
  BinderWriteRead (word l 0 8) (word l 8 8) (word l 16 8) (word l 24 8) (word l 32 8)
    (word l 40 8).

Definition sample_wr_encode (w : binder_write_read) : list Z :=
  le_encode 8 (wr_write_size w) ++ le_encode 8 (wr_write_consumed w) ++
  le_encode 8 (wr_write_buffer w) ++ le_encode 8 (wr_read_size w) ++
  le_encode 8 (wr_read_consumed w) ++ le_encode 8 (wr_read_buffer w).

(** A word inside a concatenation of encodings. *)
Lemma word_skip l1 l2 off n :
  (length l1 <= off)%nat -> word (l1 ++ l2) off n = word l2 (off - length l1) n.
Proof. intros H. unfold word. rewrite drop_app_ge by done. done. Qed.

Lemma word_here m x l : 0 <= x < 256 ^ Z.of_nat m -> word (le_encode m x ++ l) 0 m = x.
Proof.
  intros H. unfold word. rewrite drop_0, take_app_length' by (by rewrite length_le_encode).
  by apply le_decode_encode.
Qed.

Lemma word_last m x : 0 <= x < 256 ^ Z.of_nat m -> word (le_encode m x) 0 m = x.
Proof. intros H. rewrite <- (app_nil_r (le_encode m x)). by apply word_here. Qed.

Ltac words :=
  repeat (rewrite word_skip by (rewrite length_le_encode; lia));
  rewrite ?length_le_encode; simpl Nat.sub;
  first [apply word_here | apply word_last];
  match goal with |- _ <= _ < ?b => let v := eval vm_compute in b in change b with v end; lia.

#[global] Instance sample_uapi : BinderUapi.
Proof.
  refine {|
    BR_ERROR := 0x80047200; BR_OK := 0x7201; BR_TRANSACTION := 0x80407202;
    BR_REPLY := 0x80407203; BR_ACQUIRE_RESULT := 0x80047204; BR_DEAD_REPLY := 0x7205;
    BR_TRANSACTION_COMPLETE := 0x7206; BR_INCREFS := 0x80107207; BR_ACQUIRE := 0x80107208;
    BR_RELEASE := 0x80107209; BR_DECREFS := 0x8010720a; BR_ATTEMPT_ACQUIRE := 0x8018720b;
    BR_NOOP := 0x720c; BR_SPAWN_LOOPER := 0x720d; BR_FINISHED := 0x720e;
    BR_DEAD_BINDER := 0x8008720f; BR_CLEAR_DEATH_NOTIFICATION_DONE := 0x80087210;
    BR_FAILED_REPLY := 0x7211;
    BC_TRANSACTION := 0x40406300; BC_REPLY := 0x40406301; BC_ACQUIRE_RESULT := 0x40046302;
    BC_FREE_BUFFER := 0x40086303; BC_INCREFS := 0x40046304; BC_ACQUIRE := 0x40046305;
    BC_RELEASE := 0x40046306; BC_DECREFS := 0x40046307; BC_INCREFS_DONE := 0x40106308;
    BC_ACQUIRE_DONE := 0x40106309; BC_ATTEMPT_ACQUIRE := 0x4008630a;
    BC_REGISTER_LOOPER := 0x630b; BC_ENTER_LOOPER := 0x630c; BC_EXIT_LOOPER := 0x630d;
    BC_REQUEST_DEATH_NOTIFICATION := 0x400c630e; BC_CLEAR_DEATH_NOTIFICATION := 0x400c630f;
    BC_DEAD_BINDER_DONE := 0x40086310;
    BINDER_WRITE_READ := 0xc0306201; BINDER_SET_MAX_THREADS := 0x40046205;
    BINDER_SET_CONTEXT_MGR := 0x40046207; BINDER_THREAD_EXIT := 0x40046208;
    BINDER_VERSION := 0xc0046209; BINDER_CURRENT_PROTOCOL_VERSION := 8;
    BINDER_TYPE_BINDER := 0x73622a85; BINDER_TYPE_WEAK_BINDER := 0x77622a85;
    BINDER_TYPE_HANDLE := 0x73682a85; BINDER_TYPE_WEAK_HANDLE := 0x77682a85;
    BINDER_TYPE_FD := 0x66642a85;
    TF_ONE_WAY := 1; TF_ROOT_OBJECT := 4; TF_STATUS_CODE := 8; TF_ACCEPT_FDS := 16;
    FLAT_BINDER_FLAG_PRIORITY_MASK := 0xff; FLAT_BINDER_FLAG_ACCEPTS_FDS := 0x100;
    sizeof_transaction_data := 64; sizeof_flat_binder_object := 24;
    sizeof_write_read := 48; sizeof_version := 4;
    sizeof_ptr_cookie := 16; handle_cookie_encode := fun h c => le_encode 4 h ++ le_encode 8 c;
    IOC_SIZE := fun c => Z.land (Z.shiftr c 16) 0x3fff;
    wr_decode := sample_wr_decode; wr_encode := sample_wr_encode;
    td_decode := sample_td_decode; td_encode := sample_td_encode;
    fo_decode := sample_fo_decode; fo_encode := sample_fo_encode |}.
  - apply (bool_decide_unpack _). by vm_compute.
  - apply (bool_decide_unpack _). by vm_compute.
  - apply (bool_decide_unpack _). by vm_compute.
  - apply (bool_decide_unpack _). by vm_compute.
  - apply (bool_decide_unpack _). by vm_compute.
  - done.
  - done.
  - intros w. unfold sample_wr_encode. by rewrite !length_app, !length_le_encode.
  - intros [a b c d e f]; simpl; intros. unfold sample_wr_decode, sample_wr_encode.
    cbn [wr_write_size wr_write_consumed wr_write_buffer wr_read_size wr_read_consumed
      wr_read_buffer]. f_equal; words.
  - done.
  - done.
  - done.
  - done.
  - done.
  - intros o. unfold sample_fo_encode. by rewrite !length_app, !length_le_encode.
  - intros t. unfold sample_td_encode. by rewrite !length_app, !length_le_encode.
  - intros l Hl. unfold sample_fo_decode, word. simpl fo_binder.
    pose proof (le_decode_range (take 8 (drop 8 l)) ltac:(by apply Forall_take, Forall_drop)) as H.
    pose proof (length_take_le (drop 8 l) 8).
    assert (256 ^ Z.of_nat (length (take 8 (drop 8 l))) <= 256 ^ 8).
    { apply Z.pow_le_mono_r; [lia|]. rewrite length_take. lia. }
    change (2 ^ 64) with (256 ^ 8). lia.
  - intros o. unfold sample_fo_encode. repeat (apply Forall_app; split); apply le_encode_bytes.
  - done.
  - intros [t f b c]; simpl; intros. unfold sample_fo_decode, sample_fo_encode.
    cbn [fo_type fo_flags fo_binder fo_cookie]. f_equal; words.
  - apply (bool_decide_unpack _). by vm_compute.
  - intros [a b c d e f g h i j]; simpl; intros. unfold sample_td_decode, sample_td_encode.
    cbn [td_target td_cookie td_code td_flags td_sender_pid td_sender_euid td_data_size
      td_offsets_size td_buffer td_offsets]. f_equal; words.
Defined.
