(* ===== verification/Transaction.v ===== *)
(** * Transaction: sending a transaction or a reply

    Models driver/binder.c from [task_get_unused_fd_flags] to
    [binder_set_nice] and from [binder_pop_transaction] to
    [binder_transaction].  [binder_transaction] is cut at the places the code
    jumps from: choosing the target, allocating, copying, translating the
    objects, queueing; a [failure] is a jump to an error label.  The services
    of the kernel it calls are in [kenv]. *)

From S2P Require Import Prelude RbTree BufferAlloc DriverState NodeRef Uapi.

(** ** The kernel's services *)

(** The current task's right to a priority and the lowest one its limit allows;
    a task's user; file lookup and descriptor allocation; and, per process, the
    page services of the allocator. *)
Record kenv := Kenv {
  k_mm : Z -> kernel_mm;
  k_can_nice : Z -> bool;
  k_rlimit_nice : Z;
  k_task_euid : Z -> Z;
  k_task_tgid : Z -> Z;
  k_from_kuid : Z -> Z;
  k_fget : Z -> option Z;
  k_lock_sighand : Z -> bool;
  k_rlimit_nofile : Z -> Z;
  k_alloc_fd : list (Z * Z * Z) -> Z -> Z -> Z -> Z -> Z;
  k_close_fd : list (Z * Z * Z) -> Z -> Z -> Z
}.

Definition ESRCH : Z := 3.
Definition EINTR : Z := 4.
Definition EMFILE : Z := 24.
Definition ERESTARTSYS : Z := 512.
Definition ERESTARTNOINTR : Z := 513.
Definition ERESTARTNOHAND : Z := 514.
Definition ERESTART_RESTARTBLOCK : Z := 516.
Definition O_CLOEXEC : Z := 0x80000.

Definition task_get_unused_fd_flags (E : kenv) (s : driver) (proc flags : Z) : res Z :=
  let! p := get_proc s proc in
  if negb (p_files p) then Ret (- ESRCH)
  else if negb (k_lock_sighand E (p_tsk p)) then Ret (- EMFILE)
  else Ret (k_alloc_fd E (s_installed_fds s) proc 0 (k_rlimit_nofile E (p_tsk p)) flags).

Definition task_fd_install (s : driver) (proc fd file : Z) : res driver :=
  let! p := get_proc s proc in
  Ret (if p_files p then set_s_installed_fds ((proc, fd, file) :: s_installed_fds s) s else s).

Definition task_close_fd (E : kenv) (s : driver) (proc fd : Z) : res (Z * driver) :=
  let! p := get_proc s proc in
  if negb (p_files p) then Ret (- ESRCH, s)
  else
    let retval := k_close_fd E (s_installed_fds s) proc fd in
    let s := set_s_installed_fds
               (filter (fun e => e.1 <> (proc, fd)) (s_installed_fds s)) s in
    Ret (if bool_decide (retval ∈ [- ERESTARTSYS; - ERESTARTNOINTR; - ERESTARTNOHAND;
                                   - ERESTART_RESTARTBLOCK])
         then - EINTR else retval, s).

Definition binder_set_nice (E : kenv) (s : driver) (nice : Z) : driver :=
  if k_can_nice E nice then set_s_nice nice s else set_s_nice (k_rlimit_nice E) s.

(** ** Buffers, named by their process and address *)

Definition set_b_transaction (t : option Z) (b : binder_buffer) : binder_buffer :=
  BinderBuffer (b_addr b) (b_free b) (b_allow_user_free b) (b_async_transaction b)
    (b_debug_id b) t (b_target_node b) (b_data_size b) (b_offsets_size b) (b_data b) (b_offs b).

Definition set_b_allow_user_free (v : bool) (b : binder_buffer) : binder_buffer :=
  BinderBuffer (b_addr b) (b_free b) v (b_async_transaction b)
    (b_debug_id b) (b_transaction b) (b_target_node b) (b_data_size b) (b_offsets_size b)
    (b_data b) (b_offs b).

Definition set_b_data (d : list Z) (b : binder_buffer) : binder_buffer :=
  BinderBuffer (b_addr b) (b_free b) (b_allow_user_free b) (b_async_transaction b)
    (b_debug_id b) (b_transaction b) (b_target_node b) (b_data_size b) (b_offsets_size b)
    d (b_offs b).

Definition set_b_offs (o : list Z) (b : binder_buffer) : binder_buffer :=
  BinderBuffer (b_addr b) (b_free b) (b_allow_user_free b) (b_async_transaction b)
    (b_debug_id b) (b_transaction b) (b_target_node b) (b_data_size b) (b_offsets_size b)
    (b_data b) o.

(** The four fields [binder_transaction] writes after [binder_alloc_buf]; the
    [debug_id] field has 29 bits. *)
Definition own_buffer (t debug_id : Z) (target_node : option Z) (b : binder_buffer)
    : binder_buffer :=
  BinderBuffer (b_addr b) (b_free b) false (b_async_transaction b)
    (debug_id mod 2 ^ 29) (Some t) target_node (b_data_size b) (b_offsets_size b)
    (b_data b) (b_offs b).

Definition get_buf (s : driver) (b : Z * Z) : res binder_buffer :=
  let! p := get_proc s b.1 in get_buffer (buffers (p_mem p)) b.2.

Definition upd_buf (s : driver) (b : Z * Z) (f : binder_buffer -> binder_buffer) : res driver :=
  let! p := get_proc s b.1 in
  let! _ := get_buffer (buffers (p_mem p)) b.2 in
  Ret (put_proc s b.1
         (set_p_mem (set_buffers (p_mem p) (update_buffer b.2 f (buffers (p_mem p)))) p)).

Definition has_flag (flags m : Z) : bool := negb (Z.land flags m =? 0).

Section Model.
Context `{RL : RbLib} `{U : BinderUapi}.

(** [binder_free_buf] on the driver's state. *)
Definition free_buf (E : kenv) (s : driver) (b : Z * Z) : res driver :=
  let! p := get_proc s b.1 in
  let! m := binder_free_buf (k_mm E b.1) (p_mem p) b.2 in
  Ret (put_proc s b.1 (set_p_mem m p)).

(** ** Ending a transaction *)

Definition binder_pop_transaction (s : driver) (target_thread : option Z) (t : Z)
    : res driver :=
  let! s := match target_thread with
            | Some th =>
                let! tt := get_thread s th in
                let! _ := bug_on 1173 (bool_decide (t_transaction_stack tt <> Some t)) in
                let! x := get_transaction s t in
                let! _ := bug_on 1174 (bool_decide (x_from x <> Some th)) in
                let s := put_thread s th (set_t_transaction_stack (x_from_parent x) tt) in
                upd_transaction s t (set_x_from None)
            | None => Ret s
            end in
  let! s := upd_transaction s t (set_x_need_reply false) in
  let! x := get_transaction s t in
  let! s := match x_buffer x with
            | Some b => upd_buf s b (set_b_transaction None)
            | None => Ret s
            end in
  kfree_transaction s t.

(** The first two tests of the loop: an error that waits moves to the second
    slot when that is empty. *)
Definition shift_return_error (th : binder_thread) : binder_thread :=
  if negb (t_return_error th =? BR_OK) && (t_return_error2 th =? BR_OK)
  then set_t_return_error BR_OK (set_t_return_error2 (t_return_error th) th)
  else th.

(** The loop of [binder_send_failed_reply]: up the callers until one still has
    its thread. *)
Fixpoint failed_reply_walk (fuel : nat) (s : driver) (t error_code : Z) : res driver :=
  match fuel with
  | O => Bug (-1)
  | S fuel' =>
      let! x := get_transaction s t in
      match x_from x with
      | Some th =>
          let! s := upd_thread s th shift_return_error in
          let! tt := get_thread s th in
          if t_return_error tt =? BR_OK then
            let! s := binder_pop_transaction s (Some th) t in
            let! s := upd_thread s th (set_t_return_error error_code) in
            Ret (wake_up s (ThreadWait th))
          else Ret s
      | None =>
          let next := x_from_parent x in
          let! s := binder_pop_transaction s None t in
          match next with
          | None => Ret s
          | Some t' => failed_reply_walk fuel' s t' error_code
          end
      end
  end.

(** Every turn but the last frees a transaction. *)
Definition binder_send_failed_reply (s : driver) (t error_code : Z) : res driver :=
  let! x := get_transaction s t in
  let! _ := bug_on 1192 (has_flag (x_flags x) TF_ONE_WAY) in
  failed_reply_walk (S (size (s_transactions s))) s t error_code.

(** ** Giving up the objects of a buffer *)

Definition release_object (E : kenv) (s : driver) (proc : Z) (failed : bool)
    (fp : flat_binder_object) : res driver :=
  if obj_is fp BINDER_TYPE_BINDER || obj_is fp BINDER_TYPE_WEAK_BINDER then
    let! node := binder_get_node s proc (fo_binder fp) in
    match node with
    | None => Ret s
    | Some node =>
        let! '(_, s) := binder_dec_node s node (obj_is fp BINDER_TYPE_BINDER) false in Ret s
    end
  else if obj_is fp BINDER_TYPE_HANDLE || obj_is fp BINDER_TYPE_WEAK_HANDLE then
    let! ref := binder_get_ref s proc (fo_handle fp) in
    match ref with
    | None => Ret s
    | Some ref => let! '(_, s) := binder_dec_ref s ref (obj_is fp BINDER_TYPE_HANDLE) in Ret s
    end
  else if obj_is fp BINDER_TYPE_FD && failed then
    let! '(_, s) := task_close_fd E s proc (fo_handle fp) in Ret s
  else Ret s.

Fixpoint release_objects (E : kenv) (s : driver) (proc : Z) (failed : bool)
    (data : list Z) (data_size : Z) (offs : list Z) : res driver :=
  match offs with
  | [] => Ret s
  | off :: offs' =>
      let! s := if bad_offset off data_size then Ret s
                else release_object E s proc failed (read_object data off) in
      release_objects E s proc failed data data_size offs'
  end.

(** [failed_at] is NULL or the index of the offset translation stopped at. *)
Definition binder_transaction_buffer_release (E : kenv) (s : driver) (proc : Z) (b : Z * Z)
    (failed_at : option nat) : res driver :=
  let! buffer := get_buf s b in
  let! s := match b_target_node buffer with
            | Some n => let! '(_, s) := binder_dec_node s n true false in Ret s
            | None => Ret s
            end in
  release_objects E s proc (bool_decide (is_Some failed_at)) (b_data buffer)
    (b_data_size buffer)
    match failed_at with Some k => take k (b_offs buffer) | None => b_offs buffer end.

(** ** Choosing the target *)

(** The process and thread a transaction goes to and, for a call, the node. *)
Record target := Target {
  g_proc : Z;
  g_thread : option Z;
  g_node : option Z
}.

(** A jump to an error label: the code to report, and [in_reply_to]. *)
Record failure := Failure {
  f_error : Z;
  f_in_reply_to : option Z
}.

(** The target of a reply is the thread the transaction on top of the stack
    came from; the second component of the answer is [in_reply_to]. *)
Definition reply_target (E : kenv) (s : driver) (thread : Z)
    : res ((target * Z + failure) * driver) :=
  let! th := get_thread s thread in
  match t_transaction_stack th with
  | None => Ret (inr (Failure BR_FAILED_REPLY None), s)
  | Some in_reply_to =>
      let! x := get_transaction s in_reply_to in
      let s := binder_set_nice E s (x_saved_priority x) in
      if bool_decide (x_to_thread x <> Some thread)
      then Ret (inr (Failure BR_FAILED_REPLY None), s)
      else
        let s := put_thread s thread (set_t_transaction_stack (x_to_parent x) th) in
        match x_from x with
        | None => Ret (inr (Failure BR_DEAD_REPLY (Some in_reply_to)), s)
        | Some from =>
            let! ft := get_thread s from in
            if bool_decide (t_transaction_stack ft <> Some in_reply_to)
            then Ret (inr (Failure BR_FAILED_REPLY None), s)
            else Ret (inl (Target (t_proc ft) (Some from) None, in_reply_to), s)
        end
  end.

(** The [while (tmp)] loop: the last thread of [target_proc], following the
    callers, that waits for this one. *)
Fixpoint waiting_caller (fuel : nat) (s : driver) (tmp : option Z) (target_proc : Z)
    (target_thread : option Z) : res (option Z) :=
  match tmp, fuel with
  | None, _ => Ret target_thread
  | Some _, O => Bug (-2)
  | Some t, S fuel' =>
      let! x := get_transaction s t in
      let! target_thread :=
        match x_from x with
        | None => Ret target_thread
        | Some f =>
            let! ft := get_thread s f in
            Ret (if t_proc ft =? target_proc then Some f else target_thread)
        end in
      waiting_caller fuel' s (x_from_parent x) target_proc target_thread
  end.

(** The node a call names: a handle of the caller, or the context manager. *)
Definition call_node (s : driver) (proc : Z) (tr : transaction_data) : res (Z + failure) :=
  if negb (td_handle tr =? 0) then
    let! ref := binder_get_ref s proc (td_handle tr) in
    match ref with
    | None => Ret (inr (Failure BR_FAILED_REPLY None))
    | Some ref => let! r := get_ref s ref in Ret (inl (r_node r))
    end
  else
    match s_context_mgr_node s with
    | None => Ret (inr (Failure BR_DEAD_REPLY None))
    | Some n => Ret (inl n)
    end.

Definition call_target (s : driver) (proc thread : Z) (tr : transaction_data)
    : res (target + failure) :=
  let! k := call_node s proc tr in
  match k with
  | inr e => Ret (inr e)
  | inl target_node =>
      let! n := get_node s target_node in
      match n_proc n with
      | None => Ret (inr (Failure BR_DEAD_REPLY None))
      | Some target_proc =>
          let! th := get_thread s thread in
          match t_transaction_stack th with
          | Some tmp =>
              if has_flag (td_flags tr) TF_ONE_WAY
              then Ret (inl (Target target_proc None (Some target_node)))
              else
                let! x := get_transaction s tmp in
                if bool_decide (x_to_thread x <> Some thread)
                then Ret (inr (Failure BR_FAILED_REPLY None))
                else
                  let! target_thread :=
                    waiting_caller (size (s_transactions s)) s (Some tmp) target_proc None in
                  Ret (inl (Target target_proc target_thread (Some target_node)))
          | None => Ret (inl (Target target_proc None (Some target_node)))
          end
      end
  end.

(** The list and the wait queue of the target. *)
Definition target_list (g : target) : list_id :=
  match g_thread g with Some th => ThreadTodo th | None => ProcTodo (g_proc g) end.

Definition target_wait (g : target) : wait_queue :=
  match g_thread g with Some th => ThreadWait th | None => ProcWait (g_proc g) end.

(** ** Translating an object *)

(** The sender's node with the object's pointer: found, or made and given the
    object's flags.  [None]: no memory for it. *)
Definition own_node (s : driver) (proc : Z) (fp : flat_binder_object)
    : res (option Z * driver) :=
  let! found := binder_get_node s proc (fo_binder fp) in
  match found with
  | Some node => Ret (Some node, s)
  | None =>
      let! '(node, s) := binder_new_node s proc (fo_binder fp) (fo_cookie fp) in
      match node with
      | None => Ret (None, s)
      | Some node =>
          let! s := upd_node s node (fun n =>
            set_n_accept_fds (has_flag (fo_flags fp) FLAT_BINDER_FLAG_ACCEPTS_FDS)
              (set_n_min_priority
                 (Z.land (fo_flags fp) FLAT_BINDER_FLAG_PRIORITY_MASK mod 2 ^ 8) n)) in
          Ret (Some node, s)
      end
  end.

(** The node as a handle of the target, which is counted. *)
Definition share_node (s : driver) (node thread target_proc : Z) (fp : flat_binder_object)
    : res (option flat_binder_object * driver) :=
  let! n := get_node s node in
  if negb (fo_cookie fp =? n_cookie n) then Ret (None, s)
  else
    let! '(ref, s) := binder_get_ref_for_node s target_proc node in
    match ref with
    | None => Ret (None, s)
    | Some ref =>
        let! r := get_ref s ref in
        let strong := obj_is fp BINDER_TYPE_BINDER in
        let fp := set_fo_type (if strong then BINDER_TYPE_HANDLE
                               else BINDER_TYPE_WEAK_HANDLE) fp in
        let fp := set_fo_handle (r_desc r) fp in
        let! '(_, s) := binder_inc_ref s ref strong (Some (ThreadTodo thread)) in
        Ret (Some fp, s)
    end.

(** [BINDER_TYPE_BINDER] and its weak form: the sender's node becomes a handle of
    the target.  [None] is a jump to an error label, always with
    [BR_FAILED_REPLY]. *)
Definition translate_binder (s : driver) (proc thread target_proc : Z)
    (fp : flat_binder_object) : res (option flat_binder_object * driver) :=
  let! '(node, s) := own_node s proc fp in
  match node with
  | None => Ret (None, s)
  | Some node => share_node s node thread target_proc fp
  end.

(** [BINDER_TYPE_HANDLE] and its weak form: back to the owner's pointer when the
    target owns the node, else to a handle of the target. *)
Definition translate_handle (s : driver) (proc target_proc : Z)
    (fp : flat_binder_object) : res (option flat_binder_object * driver) :=
  let strong := obj_is fp BINDER_TYPE_HANDLE in
  let! ref := binder_get_ref s proc (fo_handle fp) in
  match ref with
  | None => Ret (None, s)
  | Some ref =>
      let! r := get_ref s ref in
      let! n := get_node s (r_node r) in
      if bool_decide (n_proc n = Some target_proc) then
        let fp := set_fo_type (if strong then BINDER_TYPE_BINDER
                               else BINDER_TYPE_WEAK_BINDER) fp in
        let fp := set_fo_binder (n_ptr n) (n_cookie n) fp in
        let! '(_, s) := binder_inc_node s (r_node r) strong false None in
        Ret (Some fp, s)
      else
        let! '(new_ref, s) := binder_get_ref_for_node s target_proc (r_node r) in
        match new_ref with
        | None => Ret (None, s)
        | Some new_ref =>
            let! r' := get_ref s new_ref in
            let! '(_, s) := binder_inc_ref s new_ref strong None in
            Ret (Some (set_fo_handle (r_desc r') fp), s)
        end
  end.

(** [BINDER_TYPE_FD]: the file goes into the target's table. *)
Definition translate_fd (E : kenv) (s : driver) (g : target) (in_reply_to : option Z)
    (fp : flat_binder_object) : res (option flat_binder_object * driver) :=
  let! allowed :=
    match in_reply_to with
    | Some irt => let! x := get_transaction s irt in Ret (has_flag (x_flags x) TF_ACCEPT_FDS)
    | None =>
        match g_node g with
        | Some tn => let! n := get_node s tn in Ret (n_accept_fds n)
        | None => Bug 0
        end
    end in
  if negb allowed then Ret (None, s)
  else
    match k_fget E (fo_handle fp) with
    | None => Ret (None, s)
    | Some file =>
        let! target_fd := task_get_unused_fd_flags E s (g_proc g) O_CLOEXEC in
        if target_fd <? 0 then Ret (None, s)
        else
          let! s := task_fd_install s (g_proc g) target_fd file in
          Ret (Some (set_fo_handle target_fd fp), s)
    end.

Definition translate_object (E : kenv) (s : driver) (proc thread : Z) (g : target)
    (in_reply_to : option Z) (fp : flat_binder_object)
    : res (option flat_binder_object * driver) :=
  if obj_is fp BINDER_TYPE_BINDER || obj_is fp BINDER_TYPE_WEAK_BINDER
  then translate_binder s proc thread (g_proc g) fp
  else if obj_is fp BINDER_TYPE_HANDLE || obj_is fp BINDER_TYPE_WEAK_HANDLE
  then translate_handle s proc (g_proc g) fp
  else if obj_is fp BINDER_TYPE_FD then translate_fd E s g in_reply_to fp
  else Ret (None, s).

(** The loop over the offsets; the answer is the index it stopped at, if it
    jumped to an error label. *)
Fixpoint translate_objects (E : kenv) (s : driver) (proc thread : Z) (g : target)
    (in_reply_to : option Z) (b : Z * Z) (offs : list Z) (i : nat)
    : res (option nat * driver) :=
  match offs with
  | [] => Ret (None, s)
  | off :: offs' =>
      let! buf := get_buf s b in
      if bad_offset off (b_data_size buf) then Ret (Some i, s)
      else
        let! '(fp, s) :=
          translate_object E s proc thread g in_reply_to (read_object (b_data buf) off) in
        match fp with
        | None => Ret (Some i, s)
        | Some fp =>
            let! s := upd_buf s b (fun buf => set_b_data (write_object (b_data buf) off fp) buf) in
            translate_objects E s proc thread g in_reply_to b offs' (S i)
        end
  end.

(** ** Filling the buffer *)

(** The offsets array holds one 64-bit word per object. *)
Fixpoint words_of (n : nat) (l : list Z) : list Z :=
  match n with
  | O => []
  | S n' => le_decode (take 8 l) :: words_of n' (drop 8 l)
  end.

(** The two copies and the check of the array's size.  When a copy faults, what
    is left in the buffer is not read again. *)
Definition fill_buffer (s : driver) (m : user_memory) (b : Z * Z) (tr : transaction_data)
    : res (bool * driver) :=
  match copy_from_user m (td_buffer tr) (td_data_size tr) with
  | None => Ret (false, s)
  | Some data =>
      let! s := upd_buf s b (set_b_data data) in
      match copy_from_user m (td_offsets tr) (td_offsets_size tr) with
      | None => Ret (false, s)
      | Some offsets =>
          let n := Z.to_nat (td_offsets_size tr / 8) in
          let! s := upd_buf s b (set_b_offs (words_of n offsets)) in
          Ret (IS_ALIGNED (td_offsets_size tr) 8, s)
      end
  end.

(** The transaction as it is before its buffer is allocated. *)
Definition new_transaction (E : kenv) (s : driver) (debug_id tsk thread : Z) (g : target)
    (tr : transaction_data) (reply : bool) : binder_transaction :=
  {| x_debug_id := debug_id;
     x_from := if negb reply && negb (has_flag (td_flags tr) TF_ONE_WAY)
               then Some thread else None;
     x_from_parent := None;
     x_to_proc := Some (g_proc g);
     x_to_thread := g_thread g;
     x_to_parent := None;
     x_need_reply := false;
     x_buffer := None;
     x_code := td_code tr;
     x_flags := td_flags tr;
     x_priority := s_nice s;
     x_saved_priority := 0;
     x_sender_euid := k_task_euid E tsk |}.

(** [t->buffer = binder_alloc_buf(...)] and the fields of the buffer. *)
Definition alloc_transaction_buffer (E : kenv) (s : driver) (t : Z) (g : target)
    (tr : transaction_data) (reply : bool) : res (option (Z * Z) * driver) :=
  let! x := get_transaction s t in
  let! p := get_proc s (g_proc g) in
  let! '(a, m) := binder_alloc_buf (k_mm E (g_proc g)) (p_mem p) (td_data_size tr)
                    (td_offsets_size tr) (negb reply && has_flag (x_flags x) TF_ONE_WAY) in
  let s := put_proc s (g_proc g) (set_p_mem m p) in
  match a with
  | None => Ret (None, s)
  | Some a =>
      let b := (g_proc g, a) in
      let! s := upd_transaction s t (set_x_buffer (Some b)) in
      let! s := upd_buf s b (own_buffer t (x_debug_id x) (g_node g)) in
      let! s := match g_node g with
                | Some n => let! '(_, s) := binder_inc_node s n true false None in Ret s
                | None => Ret s
                end in
      Ret (Some b, s)
  end.

(** ** Queueing *)

(** What each kind of transaction does to the stacks and to the node; the list
    and the wait queue it ends up on. *)
Definition finish_transaction (s : driver) (thread t : Z) (b : Z * Z) (g : target)
    (in_reply_to : option Z) : res (list_id * option wait_queue * driver) :=
  let! buf := get_buf s b in
  let! x := get_transaction s t in
  match in_reply_to with
  | Some irt =>
      let! _ := bug_on 1671 (b_async_transaction buf) in
      let! s := binder_pop_transaction s (g_thread g) irt in
      Ret (target_list g, Some (target_wait g), s)
  | None =>
      if negb (has_flag (x_flags x) TF_ONE_WAY) then
        let! _ := bug_on 1674 (b_async_transaction buf) in
        let! th := get_thread s thread in
        let! s := upd_transaction s t (fun x =>
          set_x_from_parent (t_transaction_stack th) (set_x_need_reply true x)) in
        let s := put_thread s thread (set_t_transaction_stack (Some t) th) in
        Ret (target_list g, Some (target_wait g), s)
      else
        match g_node g with
        | None => Bug 1679
        | Some tn =>
            let! _ := bug_on 1680 (negb (b_async_transaction buf)) in
            let! n := get_node s tn in
            if n_has_async_transaction n then Ret (AsyncTodo tn, None, s)
            else Ret (target_list g, Some (target_wait g),
                      put_node s tn (set_n_has_async_transaction true n))
        end
  end.

Definition queue_transaction (s : driver) (thread t tcomplete : Z) (l : list_id)
    (w : option wait_queue) : driver :=
  let s := list_add_tail s (WTransaction t) l in
  let s := list_add_tail s (WTransactionComplete tcomplete) (ThreadTodo thread) in
  match w with Some q => wake_up s q | None => s end.

(** The labels from [err_get_unused_fd_failed] to [err_copy_data_failed]. *)
Definition undo_buffer (E : kenv) (s : driver) (b : Z * Z) (failed_at : nat) : res driver :=
  let! s := binder_transaction_buffer_release E s b.1 b (Some failed_at) in
  let! s := upd_buf s b (set_b_transaction None) in
  free_buf E s b.

(** The end of every failure: the sender, or the caller that waits for this
    reply, is told. *)
Definition report_failure (s : driver) (thread : Z) (f : failure) : res driver :=
  let! th := get_thread s thread in
  let! _ := bug_on 1732 (negb (t_return_error th =? BR_OK)) in
  match f_in_reply_to f with
  | Some irt =>
      let s := put_thread s thread (set_t_return_error BR_TRANSACTION_COMPLETE th) in
      binder_send_failed_reply s irt (f_error f)
  | None => Ret (put_thread s thread (set_t_return_error (f_error f) th))
  end.

(** From the two [kzalloc]s to the end: [false] when the transaction failed, and
    its memory is given back. *)
Definition send_transaction (E : kenv) (s : driver) (m : user_memory) (proc thread : Z)
    (tr : transaction_data) (g : target) (in_reply_to : option Z) : res (bool * driver) :=
  let reply := bool_decide (is_Some in_reply_to) in
  let '(t, s) := kzalloc s in
  match t with
  | None => Ret (false, s)
  | Some t =>
      let '(tcomplete, s) := kzalloc s in
      match tcomplete with
      | None => Ret (false, s)
      | Some tcomplete =>
          let '(id, s) := next_id s in
          let! p := get_proc s proc in
          let s := put_transaction s t (new_transaction E s id (p_tsk p) thread g tr reply) in
          let! '(b, s) := alloc_transaction_buffer E s t g tr reply in
          match b with
          | None => let! s := kfree_transaction s t in Ret (false, s)
          | Some b =>
              let! '(filled, s) := fill_buffer s m b tr in
              let! buf := get_buf s b in
              let! '(failed_at, s) :=
                if filled then
                  translate_objects E s proc thread g in_reply_to b (b_offs buf) 0
                else Ret (Some 0%nat, s) in
              match failed_at with
              | Some k =>
                  let! s := undo_buffer E s b k in
                  let! s := kfree_transaction s t in
                  Ret (false, s)
              | None =>
                  let! '(l, w, s) := finish_transaction s thread t b g in_reply_to in
                  Ret (true, queue_transaction s thread t tcomplete l w)
              end
          end
      end
  end.

Definition binder_transaction (E : kenv) (s : driver) (m : user_memory) (proc thread : Z)
    (tr : transaction_data) (reply : bool) : res driver :=
  if reply then
    let! '(k, s) := reply_target E s thread in
    match k with
    | inr f => report_failure s thread f
    | inl (g, irt) =>
        let! '(ok, s) := send_transaction E s m proc thread tr g (Some irt) in
        if ok : bool then Ret s
        else report_failure s thread (Failure BR_FAILED_REPLY (Some irt))
    end
  else
    let! k := call_target s proc thread tr in
    match k with
    | inr f => report_failure s thread f
    | inl g =>
        let! '(ok, s) := send_transaction E s m proc thread tr g None in
        if ok : bool then Ret s
        else report_failure s thread (Failure BR_FAILED_REPLY None)
    end.

End Model.
