(* ===== verification/ThreadWrite.v ===== *)
(** * ThreadWrite: the commands a thread writes

    Models [binder_thread_write] of driver/binder.c: one definition per group of
    commands, and the loop that reads them from the write buffer.  A pointer
    into user memory is a 64-bit address. *)

From S2P Require Import Prelude RbTree BufferAlloc DriverState NodeRef Uapi Transaction.

Definition EFAULT : Z := 14.

Definition BINDER_LOOPER_STATE_REGISTERED : Z := 0x01.
Definition BINDER_LOOPER_STATE_ENTERED : Z := 0x02.
Definition BINDER_LOOPER_STATE_EXITED : Z := 0x04.
Definition BINDER_LOOPER_STATE_INVALID : Z := 0x08.
Definition BINDER_LOOPER_STATE_WAITING : Z := 0x10.
Definition BINDER_LOOPER_STATE_NEED_RETURN : Z := 0x20.

Definition looper_has (th : binder_thread) (m : Z) : bool := has_flag (t_looper th) m.

(** [thread->looper |= m] and [thread->looper &= ~m]. *)
Definition looper_set (m : Z) (th : binder_thread) : binder_thread :=
  set_t_looper (Z.lor (t_looper th) m) th.
Definition looper_clear (m : Z) (th : binder_thread) : binder_thread :=
  set_t_looper (Z.land (t_looper th) (Z.lnot m)) th.

Definition is_looper (th : binder_thread) : bool :=
  looper_has th (Z.lor BINDER_LOOPER_STATE_REGISTERED BINDER_LOOPER_STATE_ENTERED).

(** How a command ends: the loop goes on at [ptr], or the function returns. *)
Inductive cmd_result : Type :=
| Next (ptr : Z)
| Return (ret : Z).

Definition fault {A} (s : A) : res (cmd_result * A) := Ret (Return (- EFAULT), s).

Section Model.
Context `{RL : RbLib} `{U : BinderUapi}.

(** [BC_INCREFS], [BC_ACQUIRE], [BC_RELEASE], [BC_DECREFS].  Reading [ref->desc]
    when [binder_get_ref_for_node] has failed is the NULL dereference at 1775. *)
Definition write_refs (s : driver) (m : user_memory) (proc cmd ptr : Z)
    : res (cmd_result * driver) :=
  match get_user32 m ptr with
  | None => fault s
  | Some t =>
      let! '(ref, s) :=
        if (t =? 0) && bool_decide (is_Some (s_context_mgr_node s)) &&
           ((cmd =? BC_INCREFS) || (cmd =? BC_ACQUIRE)) then
          let! '(ref, s) := binder_get_ref_for_node s proc (default 0 (s_context_mgr_node s)) in
          match ref with
          | None => Bug 1775
          | Some ref => let! _ := get_ref s ref in Ret (Some ref, s)
          end
        else let! ref := binder_get_ref s proc t in Ret (ref, s) in
      let next := Next (u64 (ptr + 4)) in
      match ref with
      | None => Ret (next, s)
      | Some ref =>
          let! '(_, s) :=
            if cmd =? BC_INCREFS then binder_inc_ref s ref false None
            else if cmd =? BC_ACQUIRE then binder_inc_ref s ref true None
            else if cmd =? BC_RELEASE then binder_dec_ref s ref true
            else binder_dec_ref s ref false in
          Ret (next, s)
      end
  end.

(** [BC_INCREFS_DONE] and [BC_ACQUIRE_DONE]. *)
Definition node_done (s : driver) (proc : Z) (strong : bool) (node_ptr cookie : Z)
    : res driver :=
  let! node := binder_get_node s proc node_ptr in
  match node with
  | None => Ret s
  | Some node =>
      let! n := get_node s node in
      if negb (cookie =? n_cookie n) then Ret s
      else if negb (if strong then n_pending_strong_ref n else n_pending_weak_ref n) then Ret s
      else
        let s := put_node s node (if strong then set_n_pending_strong_ref false n
                                  else set_n_pending_weak_ref false n) in
        let! '(_, s) := binder_dec_node s node strong false in Ret s
  end.

Definition write_done (s : driver) (m : user_memory) (proc cmd ptr : Z)
    : res (cmd_result * driver) :=
  match get_user64 m ptr with
  | None => fault s
  | Some node_ptr =>
      match get_user64 m (u64 (ptr + 8)) with
      | None => fault s
      | Some cookie =>
          let! s := node_done s proc (cmd =? BC_ACQUIRE_DONE) node_ptr cookie in
          Ret (Next (u64 (ptr + 16)), s)
      end
  end.

(** [BC_FREE_BUFFER]: the node's next asynchronous transaction is released to
    this thread. *)
Definition next_async (s : driver) (thread node : Z) : res driver :=
  let! n := get_node s node in
  let! _ := bug_on 1906 (negb (n_has_async_transaction n)) in
  match work_list s (AsyncTodo node) with
  | [] => Ret (put_node s node (set_n_has_async_transaction false n))
  | w :: _ => Ret (list_add_tail (list_del s w) w (ThreadTodo thread))
  end.

Definition free_user_buffer (E : kenv) (s : driver) (proc thread a : Z) : res driver :=
  let b := (proc, a) in
  let! buffer := get_buf s b in
  let! s := match b_transaction buffer with
            | Some t =>
                let! s := upd_transaction s t (set_x_buffer None) in
                upd_buf s b (set_b_transaction None)
            | None => Ret s
            end in
  let! s := match b_target_node buffer with
            | Some node =>
                if b_async_transaction buffer then next_async s thread node else Ret s
            | None => Ret s
            end in
  let! s := binder_transaction_buffer_release E s proc b None in
  free_buf E s b.

Definition write_free_buffer (E : kenv) (s : driver) (m : user_memory) (proc thread ptr : Z)
    : res (cmd_result * driver) :=
  match get_user64 m ptr with
  | None => fault s
  | Some data_ptr =>
      let next := Next (u64 (ptr + 8)) in
      let! p := get_proc s proc in
      let! buffer := binder_buffer_lookup (p_mem p) data_ptr in
      match buffer with
      | None => Ret (next, s)
      | Some a =>
          let! b := get_buf s (proc, a) in
          if negb (b_allow_user_free b) then Ret (next, s)
          else let! s := free_user_buffer E s proc thread a in Ret (next, s)
      end
  end.

Definition write_transaction (E : kenv) (s : driver) (m : user_memory)
    (proc thread cmd ptr : Z) : res (cmd_result * driver) :=
  match copy_from_user m ptr sizeof_transaction_data with
  | None => fault s
  | Some bytes =>
      let! s := binder_transaction E s m proc thread (td_decode bytes) (cmd =? BC_REPLY) in
      Ret (Next (u64 (ptr + sizeof_transaction_data)), s)
  end.

Definition register_looper (s : driver) (proc thread : Z) : res driver :=
  let! th := get_thread s thread in
  let! p := get_proc s proc in
  let! s := if looper_has th BINDER_LOOPER_STATE_ENTERED then
              Ret (put_thread s thread (looper_set BINDER_LOOPER_STATE_INVALID th))
            else if p_requested_threads p =? 0 then
              Ret (put_thread s thread (looper_set BINDER_LOOPER_STATE_INVALID th))
            else
              Ret (put_proc s proc
                (set_p_requested_threads_started (i32 (p_requested_threads_started p + 1))
                  (set_p_requested_threads (i32 (p_requested_threads p - 1)) p))) in
  upd_thread s thread (looper_set BINDER_LOOPER_STATE_REGISTERED).

Definition enter_looper (th : binder_thread) : binder_thread :=
  looper_set BINDER_LOOPER_STATE_ENTERED
    (if looper_has th BINDER_LOOPER_STATE_REGISTERED
     then looper_set BINDER_LOOPER_STATE_INVALID th else th).

(** Put a death notification on the thread's list, or on its process's and wake
    it when the thread is not a looper. *)
Definition queue_death (s : driver) (proc thread d : Z) : res driver :=
  let! th := get_thread s thread in
  Ret (if is_looper th then list_add_tail s (WDeath d) (ThreadTodo thread)
       else wake_up (list_add_tail s (WDeath d) (ProcTodo proc)) (ProcWait proc)).

Definition set_d_work (ty : death_work) (d : binder_ref_death) : binder_ref_death :=
  BinderRefDeath ty (d_cookie d).

Definition request_death (s : driver) (proc thread ref cookie : Z) : res driver :=
  let! r := get_ref s ref in
  match r_death r with
  | Some _ => Ret s
  | None =>
      let '(death, s) := kzalloc s in
      match death with
      | None => upd_thread s thread (set_t_return_error BR_ERROR)
      | Some d =>
          let s := put_death s d (BinderRefDeath BINDER_WORK_NONE cookie) in
          let s := put_ref s ref (set_r_death (Some d) r) in
          let! n := get_node s (r_node r) in
          match n_proc n with
          | Some _ => Ret s
          | None =>
              let! s := upd_death s d (set_d_work BINDER_WORK_DEAD_BINDER) in
              queue_death s proc thread d
          end
      end
  end.

Definition clear_death (s : driver) (proc thread ref cookie : Z) : res driver :=
  let! r := get_ref s ref in
  match r_death r with
  | None => Ret s
  | Some d =>
      let! dd := get_death s d in
      if negb (d_cookie dd =? cookie) then Ret s
      else
        let s := put_ref s ref (set_r_death None r) in
        if negb (queued s (WDeath d)) then
          let s := put_death s d (set_d_work BINDER_WORK_CLEAR_DEATH_NOTIFICATION dd) in
          queue_death s proc thread d
        else
          let! _ := bug_on 2049 (bool_decide (d_type dd <> BINDER_WORK_DEAD_BINDER)) in
          Ret (put_death s d (set_d_work BINDER_WORK_DEAD_BINDER_AND_CLEAR dd))
  end.

(** [BC_REQUEST_DEATH_NOTIFICATION] and [BC_CLEAR_DEATH_NOTIFICATION]. *)
Definition write_death (s : driver) (m : user_memory) (proc thread cmd ptr : Z)
    : res (cmd_result * driver) :=
  match get_user32 m ptr with
  | None => fault s
  | Some t =>
      match get_user64 m (u64 (ptr + 4)) with
      | None => fault s
      | Some cookie =>
          let next := Next (u64 (ptr + 12)) in
          let! ref := binder_get_ref s proc t in
          match ref with
          | None => Ret (next, s)
          | Some ref =>
              let! s := if cmd =? BC_REQUEST_DEATH_NOTIFICATION
                        then request_death s proc thread ref cookie
                        else clear_death s proc thread ref cookie in
              Ret (next, s)
          end
      end
  end.

(** The delivered notification with this cookie. *)
Fixpoint find_delivered (s : driver) (l : list work) (cookie : Z) : res (option Z) :=
  match l with
  | [] => Ret None
  | WDeath d :: l' =>
      let! dd := get_death s d in
      if d_cookie dd =? cookie then Ret (Some d) else find_delivered s l' cookie
  | _ :: _ => Bug 0
  end.

Definition dead_binder_done (s : driver) (proc thread cookie : Z) : res driver :=
  let! death := find_delivered s (work_list s (DeliveredDeath proc)) cookie in
  match death with
  | None => Ret s
  | Some d =>
      let s := list_del s (WDeath d) in
      let! dd := get_death s d in
      if decide (d_type dd = BINDER_WORK_DEAD_BINDER_AND_CLEAR) then
        let s := put_death s d (set_d_work BINDER_WORK_CLEAR_DEATH_NOTIFICATION dd) in
        queue_death s proc thread d
      else Ret s
  end.

(** [BC_DEAD_BINDER_DONE]: the pointer moves by the size of a kernel pointer. *)
Definition write_dead_done (s : driver) (m : user_memory) (proc thread ptr : Z)
    : res (cmd_result * driver) :=
  match get_user64 m ptr with
  | None => fault s
  | Some cookie =>
      let! s := dead_binder_done s proc thread cookie in
      Ret (Next (u64 (ptr + sizeof_ptr)), s)
  end.

(** The switch on the command; [ptr] is past it. *)
Definition write_command (E : kenv) (s : driver) (m : user_memory) (proc thread cmd ptr : Z)
    : res (cmd_result * driver) :=
  if bool_decide (cmd ∈ [BC_INCREFS; BC_ACQUIRE; BC_RELEASE; BC_DECREFS])
  then write_refs s m proc cmd ptr
  else if bool_decide (cmd ∈ [BC_INCREFS_DONE; BC_ACQUIRE_DONE])
  then write_done s m proc cmd ptr
  else if bool_decide (cmd ∈ [BC_ATTEMPT_ACQUIRE; BC_ACQUIRE_RESULT])
  then Ret (Return (- EINVAL), s)
  else if cmd =? BC_FREE_BUFFER then write_free_buffer E s m proc thread ptr
  else if bool_decide (cmd ∈ [BC_TRANSACTION; BC_REPLY])
  then write_transaction E s m proc thread cmd ptr
  else if cmd =? BC_REGISTER_LOOPER then
    let! s := register_looper s proc thread in Ret (Next ptr, s)
  else if cmd =? BC_ENTER_LOOPER then
    let! s := upd_thread s thread enter_looper in Ret (Next ptr, s)
  else if cmd =? BC_EXIT_LOOPER then
    let! s := upd_thread s thread (looper_set BINDER_LOOPER_STATE_EXITED) in Ret (Next ptr, s)
  else if bool_decide (cmd ∈ [BC_REQUEST_DEATH_NOTIFICATION; BC_CLEAR_DEATH_NOTIFICATION])
  then write_death s m proc thread cmd ptr
  else if cmd =? BC_DEAD_BINDER_DONE then write_dead_done s m proc thread ptr
  else Ret (Return (- EINVAL), s).

(** The loop; the answer is the return value, [*consumed] and the state. *)
Fixpoint write_loop (fuel : nat) (E : kenv) (s : driver) (m : user_memory)
    (proc thread buffer ptr end_ consumed : Z) : res (Z * Z * driver) :=
  let! th := get_thread s thread in
  if (ptr <? end_) && (t_return_error th =? BR_OK) then
    match fuel with
    | O => Bug (-3)
    | S fuel' =>
        match get_user32 m ptr with
        | None => Ret (- EFAULT, consumed, s)
        | Some cmd =>
            let! '(k, s) := write_command E s m proc thread cmd (u64 (ptr + 4)) in
            match k with
            | Return ret => Ret (ret, consumed, s)
            | Next ptr =>
                write_loop fuel' E s m proc thread buffer ptr end_ (u64 (ptr - buffer))
            end
        end
    end
  else Ret (0, consumed, s).

(** A command is at least four bytes, so [size] turns are enough. *)
Definition binder_thread_write (E : kenv) (s : driver) (m : user_memory)
    (proc thread buffer size consumed : Z) : res (Z * Z * driver) :=
  write_loop (Z.to_nat size) E s m proc thread buffer (u64 (buffer + consumed))
    (u64 (buffer + size)) consumed.

End Model.
