(* ===== verification/ThreadRead.v ===== *)
(** * ThreadRead: the returns a thread reads

    Models [binder_thread_read] of driver/binder.c.  The function gives up the
    main lock while it waits, and other threads change the driver meanwhile; so
    it is cut there: [read_start] runs up to the wait and [read_resume] from the
    wait to the end or to the next wait, which the [retry] jump leads to.  The
    frame of a waiting call is a [read_frame]. *)

From S2P Require Import Prelude RbTree BufferAlloc DriverState NodeRef Uapi Transaction ThreadWrite.

Definition EAGAIN : Z := 11.

Section Model.
Context `{RL : RbLib} `{U : BinderUapi}.

Definition binder_has_proc_work (s : driver) (proc thread : Z) : res bool :=
  let! th := get_thread s thread in
  Ret (negb (bool_decide (work_list s (ProcTodo proc) = [])) ||
       looper_has th BINDER_LOOPER_STATE_NEED_RETURN).

Definition binder_has_thread_work (s : driver) (thread : Z) : res bool :=
  let! th := get_thread s thread in
  Ret (negb (bool_decide (work_list s (ThreadTodo thread) = [])) ||
       negb (t_return_error th =? BR_OK) || looper_has th BINDER_LOOPER_STATE_NEED_RETURN).

(** The arguments and locals of a call that live across the wait. *)
Record read_frame := ReadFrame {
  fr_proc : Z;
  fr_thread : Z;
  fr_buffer : Z;
  fr_end : Z;
  fr_consumed : Z;
  fr_ptr : Z;
  fr_wait_for_proc_work : bool
}.

Definition set_fr_ptr (v : Z) (f : read_frame) : read_frame :=
  ReadFrame (fr_proc f) (fr_thread f) (fr_buffer f) (fr_end f) (fr_consumed f) v
    (fr_wait_for_proc_work f).

Definition set_fr_wait (v : bool) (f : read_frame) : read_frame :=
  ReadFrame (fr_proc f) (fr_thread f) (fr_buffer f) (fr_end f) (fr_consumed f) (fr_ptr f) v.

(** A call returns ([ret] and [*consumed]) or waits. *)
Inductive read_outcome : Type :=
| Done (ret consumed : Z) (s : driver) (m : user_memory)
| Waiting (f : read_frame) (s : driver) (m : user_memory).

(** Consecutive [put_user]s of words of the given widths; [false] at the first
    fault. *)
Fixpoint put_words (m : user_memory) (ptr : Z) (l : list (nat * Z)) : bool * Z * user_memory :=
  match l with
  | [] => (true, ptr, m)
  | (n, x) :: l' =>
      match copy_to_user m ptr (le_encode n x) with
      | None => (false, ptr, m)
      | Some m => put_words m (u64 (ptr + Z.of_nat n)) l'
      end
  end.

#[global] Arguments put_words : simpl never.

(** The label [done]: ask the process for one more thread when none is ready,
    in place of the first word of the buffer. *)
Definition read_done (s : driver) (m : user_memory) (f : read_frame) : res read_outcome :=
  let consumed := u64 (fr_ptr f - fr_buffer f) in
  let! p := get_proc s (fr_proc f) in
  let! th := get_thread s (fr_thread f) in
  if (i32 (p_requested_threads p + p_ready_threads p) =? 0) &&
     (p_requested_threads_started p <? p_max_threads p) && is_looper th then
    let s := put_proc s (fr_proc f)
               (set_p_requested_threads (i32 (p_requested_threads p + 1)) p) in
    match put_user32 m (fr_buffer f) BR_SPAWN_LOOPER with
    | None => Ret (Done (- EFAULT) consumed s m)
    | Some m => Ret (Done 0 consumed s m)
    end
  else Ret (Done 0 consumed s m).

(** The errors of the thread, first the older one. *)
Definition read_errors (s : driver) (m : user_memory) (f : read_frame) (th : binder_thread)
    : res read_outcome :=
  let efault m := Ret (Done (- EFAULT) (fr_consumed f) s m) in
  let last (s : driver) (m : user_memory) (f : read_frame) :=
    match put_user32 m (fr_ptr f) (t_return_error th) with
    | None => Ret (Done (- EFAULT) (fr_consumed f) s m)
    | Some m =>
        let! s := upd_thread s (fr_thread f) (set_t_return_error BR_OK) in
        read_done s m (set_fr_ptr (u64 (fr_ptr f + 4)) f)
    end in
  if negb (t_return_error2 th =? BR_OK) then
    match put_user32 m (fr_ptr f) (t_return_error2 th) with
    | None => efault m
    | Some m =>
        let f := set_fr_ptr (u64 (fr_ptr f + 4)) f in
        if fr_ptr f =? fr_end f then read_done s m f
        else
          let! s := upd_thread s (fr_thread f) (set_t_return_error2 BR_OK) in
          last s m f
    end
  else last s m f.

(** From the label [retry] to the wait. *)
Definition read_retry (E : kenv) (s : driver) (m : user_memory) (f : read_frame)
    : res read_outcome :=
  let! th := get_thread s (fr_thread f) in
  let wait_for_proc_work :=
    bool_decide (t_transaction_stack th = None) &&
    bool_decide (work_list s (ThreadTodo (fr_thread f)) = []) in
  if negb (t_return_error th =? BR_OK) && (fr_ptr f <? fr_end f) then read_errors s m f th
  else
    let s := put_thread s (fr_thread f) (looper_set BINDER_LOOPER_STATE_WAITING th) in
    let f := set_fr_wait wait_for_proc_work f in
    if wait_for_proc_work then
      let! p := get_proc s (fr_proc f) in
      let s := put_proc s (fr_proc f) (set_p_ready_threads (i32 (p_ready_threads p + 1)) p) in
      Ret (Waiting f (binder_set_nice E s (p_default_priority p)) m)
    else Ret (Waiting f s m).

(** The condition the wait ends on; a call that must not block fails instead of
    waiting. *)
Definition wait_ready (s : driver) (f : read_frame) : res bool :=
  if fr_wait_for_proc_work f then binder_has_proc_work s (fr_proc f) (fr_thread f)
  else binder_has_thread_work s (fr_thread f).

Definition wait_non_block (s : driver) (f : read_frame) : res Z :=
  let! r := wait_ready s f in Ret (if r : bool then 0 else - EAGAIN).

(** ** Delivering one work item *)

(** How an iteration ends: [continue], [break] or [goto done], [return]. *)
Inductive read_next : Type :=
| Continue (ptr : Z)
| Break (ptr : Z)
| Fault.

Definition node_strong (n : binder_node) : bool :=
  negb (n_internal_strong_refs n =? 0) || negb (n_local_strong_refs n =? 0).

Definition node_weak (n : binder_node) : bool :=
  negb (bool_decide (n_refs n = [])) || negb (n_local_weak_refs n =? 0) || node_strong n.

(** The command that brings the owner's view of the node up to date, and the
    node after it. *)
Definition node_command (n : binder_node) : Z * binder_node :=
  if node_weak n && negb (n_has_weak_ref n) then
    (BR_INCREFS, set_n_local_weak_refs (i32 (n_local_weak_refs n + 1))
                   (set_n_pending_weak_ref true (set_n_has_weak_ref true n)))
  else if node_strong n && negb (n_has_strong_ref n) then
    (BR_ACQUIRE, set_n_local_strong_refs (i32 (n_local_strong_refs n + 1))
                   (set_n_pending_strong_ref true (set_n_has_strong_ref true n)))
  else if negb (node_strong n) && n_has_strong_ref n then
    (BR_RELEASE, set_n_has_strong_ref false n)
  else if negb (node_weak n) && n_has_weak_ref n then
    (BR_DECREFS, set_n_has_weak_ref false n)
  else (BR_NOOP, n).

Definition read_node (s : driver) (m : user_memory) (proc node ptr : Z)
    : res (read_next * driver * user_memory) :=
  let! n := get_node s node in
  let '(cmd, n') := node_command n in
  let s := put_node s node n' in
  if negb (cmd =? BR_NOOP) then
    let '(ok, ptr, m) := put_words m ptr [(4%nat, cmd); (8%nat, n_ptr n); (8%nat, n_cookie n)] in
    Ret (if ok : bool then Continue ptr else Fault, s, m)
  else
    let s := list_del s (WNode node) in
    if negb (node_weak n) && negb (node_strong n) then
      let! s := upd_proc s proc (fun p => set_p_nodes (rb_erase node (p_nodes p)) p) in
      let! s := kfree_node s node in
      Ret (Continue ptr, s, m)
    else Ret (Continue ptr, s, m).

Definition read_death (s : driver) (m : user_memory) (proc d ptr : Z)
    : res (read_next * driver * user_memory) :=
  let! dd := get_death s d in
  let cleared := bool_decide (d_type dd = BINDER_WORK_CLEAR_DEATH_NOTIFICATION) in
  let cmd := if cleared then BR_CLEAR_DEATH_NOTIFICATION_DONE else BR_DEAD_BINDER in
  let '(ok, ptr, m) := put_words m ptr [(4%nat, cmd); (8%nat, d_cookie dd)] in
  if negb ok then Ret (Fault, s, m)
  else if cleared then
    let! s := kfree_death (list_del s (WDeath d)) d in Ret (Continue ptr, s, m)
  else
    Ret (Break ptr, list_add (list_del s (WDeath d)) (WDeath d) (DeliveredDeath proc), m).

(** The priority the server runs a transaction at. *)
Definition transaction_priority (E : kenv) (s : driver) (x : DriverState.binder_transaction)
    (n : binder_node) : driver :=
  let one_way := has_flag (x_flags x) TF_ONE_WAY in
  if (x_priority x <? n_min_priority n) && negb one_way then
    binder_set_nice E s (x_priority x)
  else if negb one_way || (n_min_priority n <? s_nice s) then
    binder_set_nice E s (n_min_priority n)
  else s.

(** The [binder_transaction_data] the reader gets, for node [(target, cookie)]. *)
Definition delivered_data (E : kenv) (p : binder_proc) (x : DriverState.binder_transaction)
    (buf : binder_buffer) (ptr cookie sender_pid : Z) : transaction_data :=
  let addr := u64 (buffer_data (b_addr buf) + user_buffer_offset (p_mem p)) in
  TransactionData ptr cookie (x_code x) (x_flags x) sender_pid
    (k_from_kuid E (x_sender_euid x)) (b_data_size buf) (b_offsets_size buf)
    addr (u64 (addr + ALIGN (b_data_size buf) sizeof_ptr)).

Definition sender_pid (E : kenv) (s : driver) (x : DriverState.binder_transaction) : res Z :=
  match x_from x with
  | None => Ret 0
  | Some f =>
      let! ft := get_thread s f in
      let! fp := get_proc s (t_proc ft) in
      Ret (k_task_tgid E (p_tsk fp))
  end.

(** After the copy to user space: the server's stack grows by a call; a reply or
    an asynchronous call is over. *)
Definition transaction_delivered (s : driver) (thread t : Z) (b : Z * Z) (is_call : bool)
    : res driver :=
  let s := list_del s (WTransaction t) in
  let! s := upd_buf s b (set_b_allow_user_free true) in
  let! x := get_transaction s t in
  if is_call && negb (has_flag (x_flags x) TF_ONE_WAY) then
    let! th := get_thread s thread in
    let s := put_transaction s t
               (set_x_to_thread (Some thread) (set_x_to_parent (t_transaction_stack th) x)) in
    Ret (put_thread s thread (set_t_transaction_stack (Some t) th))
  else
    let! s := upd_buf s b (set_b_transaction None) in
    kfree_transaction s t.

Definition read_transaction (E : kenv) (s : driver) (m : user_memory) (proc thread t ptr : Z)
    : res (read_next * driver * user_memory) :=
  let! x := get_transaction s t in
  match x_buffer x with
  | None => Bug 2360
  | Some b =>
      let! buf := get_buf s b in
      let! '(cmd, target_ptr, cookie, s) :=
        match b_target_node buf with
        | Some node =>
            let! n := get_node s node in
            let s := put_transaction s t (set_x_saved_priority (s_nice s) x) in
            Ret (BR_TRANSACTION, n_ptr n, n_cookie n, transaction_priority E s x n)
        | None => Ret (BR_REPLY, 0, 0, s)
        end in
      let! pid := sender_pid E s x in
      let! p := get_proc s proc in
      let tr := delivered_data E p x buf target_ptr cookie pid in
      match put_user32 m ptr cmd with
      | None => Ret (Fault, s, m)
      | Some m =>
          let ptr := u64 (ptr + 4) in
          match copy_to_user m ptr (td_encode tr) with
          | None => Ret (Fault, s, m)
          | Some m =>
              let! s := transaction_delivered s thread t b
                          (bool_decide (is_Some (b_target_node buf))) in
              Ret (Break (u64 (ptr + sizeof_transaction_data)), s, m)
          end
      end
  end.

(** The switch on the work's type. *)
Definition read_work (E : kenv) (s : driver) (m : user_memory) (proc thread : Z) (w : work)
    (ptr : Z) : res (read_next * driver * user_memory) :=
  match w with
  | WTransaction t => read_transaction E s m proc thread t ptr
  | WTransactionComplete _ =>
      match put_user32 m ptr BR_TRANSACTION_COMPLETE with
      | None => Ret (Fault, s, m)
      | Some m => Ret (Continue (u64 (ptr + 4)), list_del s w, m)
      end
  | WNode node => read_node s m proc node ptr
  | WDeath d => read_death s m proc d ptr
  end.

(** ** The loop *)

(** The item an iteration takes. *)
Definition next_work (s : driver) (f : read_frame) : option work :=
  match work_list s (ThreadTodo (fr_thread f)) with
  | w :: _ => Some w
  | [] => if fr_wait_for_proc_work f then head (work_list s (ProcTodo (fr_proc f))) else None
  end.

Fixpoint read_loop (fuel : nat) (E : kenv) (s : driver) (m : user_memory) (f : read_frame)
    : res read_outcome :=
  match fuel with
  | O => Bug (-4)
  | S fuel' =>
      match next_work s f with
      | None =>
          let! th := get_thread s (fr_thread f) in
          if (u64 (fr_ptr f - fr_buffer f) =? 4) &&
             negb (looper_has th BINDER_LOOPER_STATE_NEED_RETURN)
          then read_retry E s m f
          else read_done s m f
      | Some w =>
          if u64 (fr_end f - fr_ptr f) <? sizeof_transaction_data + 4 then read_done s m f
          else
            let! '(k, s, m) := read_work E s m (fr_proc f) (fr_thread f) w (fr_ptr f) in
            match k with
            | Continue ptr => read_loop fuel' E s m (set_fr_ptr ptr f)
            | Break ptr => read_done s m (set_fr_ptr ptr f)
            | Fault => Ret (Done (- EFAULT) (fr_consumed f) s m)
            end
      end
  end.

(** An item is looked at no more than five times before it leaves its list: a
    node may need four commands when its counts wrap around. *)
Definition read_fuel (s : driver) (f : read_frame) : nat :=
  S (5 * (length (work_list s (ThreadTodo (fr_thread f))) +
          length (work_list s (ProcTodo (fr_proc f))))).

(** From the end of the wait, which returned [ret]. *)
Definition read_resume (E : kenv) (s : driver) (m : user_memory) (f : read_frame) (ret : Z)
    : res read_outcome :=
  let! s := if fr_wait_for_proc_work f then
              upd_proc s (fr_proc f) (fun p =>
                set_p_ready_threads (i32 (p_ready_threads p - 1)) p)
            else Ret s in
  let! s := upd_thread s (fr_thread f) (looper_clear BINDER_LOOPER_STATE_WAITING) in
  if negb (ret =? 0) then Ret (Done ret (fr_consumed f) s m)
  else read_loop (read_fuel s f) E s m f.

(** [binder_thread_read] up to its first wait. *)
Definition binder_thread_read (E : kenv) (s : driver) (m : user_memory)
    (proc thread buffer size consumed : Z) : res read_outcome :=
  let ptr := u64 (buffer + consumed) in
  let f := ReadFrame proc thread buffer (u64 (buffer + size)) consumed ptr false in
  if consumed =? 0 then
    match put_user32 m ptr BR_NOOP with
    | None => Ret (Done (- EFAULT) consumed s m)
    | Some m => read_retry E s m (set_fr_ptr (u64 (ptr + 4)) f)
    end
  else read_retry E s m f.

End Model.
