(* ===== verification/Never.v ===== *)
(** * Never: which operations run out of fuel

    The driver's loops are modelled with fuel and end in a negative site of their
    own when it runs out.  Everything else only ever fails at a source line;
    the lemmas of this file say so for each operation, and feed the [never]
    hints the termination theorems use. *)

From S2P Require Import Prelude RbTree BufferAlloc DriverState NodeRef Uapi Transaction ThreadWrite ThreadRead.

Section Never.
Context `{RL : RbLib} `{U : BinderUapi}.
Context (k : Z) (Hk : k < 0).

Lemma never_rb_find visit t : (forall y, never k (visit y)) -> never k (rb_find visit t).
Proof. intros Hv. induction t; simpl; [never|]. apply never_bind; [apply Hv|]. never. Qed.

Lemma never_rb_link visit x t : (forall y, never k (visit y)) -> never k (rb_link visit x t).
Proof.
  intros Hv. induction t as [|l IHl y r IHr]; simpl; [never|].
  apply never_bind; [apply Hv|]. intros [] _; [never|apply never_bind; [done|]; never..].
Qed.

Lemma never_get_buffer l a : never k (get_buffer l a).
Proof. unfold get_buffer. never. Qed.

Hint Resolve never_get_buffer : never.

(** The same, through the walks of the trees. *)
Ltac nev := repeat first [solve [eauto with never] | apply never_rb_link | apply never_rb_find | never_step].

(** ** The allocator *)

Lemma never_insert_free p a : never k (binder_insert_free_buffer p a).
Proof. unfold binder_insert_free_buffer. nev. Qed.

Lemma never_insert_allocated p a : never k (binder_insert_allocated_buffer p a).
Proof. unfold binder_insert_allocated_buffer. nev. Qed.

Lemma never_buffer_lookup p a : never k (binder_buffer_lookup p a).
Proof. unfold binder_buffer_lookup. nev. Qed.

Lemma never_map_pages K n : forall p a, never k (map_pages K p a n).
Proof. induction n; intros; simpl; nev. Qed.

Lemma never_unmap_pages n : forall p a, never k (unmap_pages p a n).
Proof. induction n; intros; simpl; nev. Qed.

Hint Resolve never_insert_free never_insert_allocated never_buffer_lookup never_map_pages
  never_unmap_pages : never.

Lemma never_update_page_range K p al a b v : never k (binder_update_page_range K p al a b v).
Proof. unfold binder_update_page_range. nev. Qed.

Lemma never_best_fit p size t : forall best, never k (best_fit_walk p size t best).
Proof. induction t; intros; simpl; nev. Qed.

Hint Resolve never_update_page_range never_best_fit : never.

Lemma never_take_buffer p a b c d e f : never k (take_buffer p a b c d e f).
Proof. unfold take_buffer, claim_buffer, split_buffer. nev. Qed.

Hint Resolve never_take_buffer : never.

Lemma never_alloc_buf K p ds os async : never k (binder_alloc_buf K p ds os async).
Proof. unfold binder_alloc_buf. nev. Qed.

Lemma never_delete_free K p a : never k (binder_delete_free_buffer K p a).
Proof. unfold binder_delete_free_buffer. nev. Qed.

Hint Resolve never_delete_free : never.

Lemma never_binder_free_buf K p a : never k (binder_free_buf K p a).
Proof. unfold binder_free_buf, merge_next, merge_prev. nev. Qed.

Hint Resolve never_alloc_buf never_binder_free_buf : never.

(** ** Nodes and references *)

Lemma never_get_node_by s a p : never k (binder_get_node s a p).
Proof. unfold binder_get_node, node_visit. nev. Qed.

Lemma never_new_node s a p c : never k (binder_new_node s a p c).
Proof. unfold binder_new_node, node_visit. nev. Qed.

Lemma never_inc_node s n st i tl : never k (binder_inc_node s n st i tl).
Proof. unfold binder_inc_node. nev. Qed.

Lemma never_node_unused s n : never k (node_unused s n).
Proof. unfold node_unused. nev. Qed.

Hint Resolve never_get_node_by never_new_node never_inc_node never_node_unused : never.

Lemma never_dec_node s n st i : never k (binder_dec_node s n st i).
Proof. unfold binder_dec_node. nev. Qed.

Lemma never_get_ref_by s a d : never k (binder_get_ref s a d).
Proof. unfold binder_get_ref, desc_visit. nev. Qed.

Lemma never_pick_desc s l : forall d, never k (pick_desc s l d).
Proof. induction l; intros; simpl; nev. Qed.

Hint Resolve never_dec_node never_get_ref_by never_pick_desc : never.

Lemma never_get_ref_for_node s a n : never k (binder_get_ref_for_node s a n).
Proof. unfold binder_get_ref_for_node, node_of_ref_visit, desc_visit. nev. Qed.

Lemma never_delete_ref s r : never k (binder_delete_ref s r).
Proof. unfold binder_delete_ref. nev. Qed.

Lemma never_inc_ref s r st tl : never k (binder_inc_ref s r st tl).
Proof. unfold binder_inc_ref. nev. Qed.

Hint Resolve never_get_ref_for_node never_delete_ref never_inc_ref : never.

Lemma never_dec_ref s r st : never k (binder_dec_ref s r st).
Proof. unfold binder_dec_ref, ref_unused. nev. Qed.

Hint Resolve never_dec_ref : never.

(** ** Transactions *)

Lemma never_get_buf s b : never k (get_buf s b).
Proof. unfold get_buf. nev. Qed.

Lemma never_upd_buf s b f : never k (upd_buf s b f).
Proof. unfold upd_buf. nev. Qed.

Lemma never_free_buf E s b : never k (free_buf E s b).
Proof. unfold free_buf. nev. Qed.

Lemma never_fd_flags E s p f : never k (task_get_unused_fd_flags E s p f).
Proof. unfold task_get_unused_fd_flags. nev. Qed.

Lemma never_fd_install s p f x : never k (task_fd_install s p f x).
Proof. unfold task_fd_install. nev. Qed.

Lemma never_close_fd E s p f : never k (task_close_fd E s p f).
Proof. unfold task_close_fd. nev. Qed.

Hint Resolve never_get_buf never_upd_buf never_free_buf never_fd_flags never_fd_install
  never_close_fd : never.

Lemma never_pop_transaction s th t : never k (binder_pop_transaction s th t).
Proof. unfold binder_pop_transaction. nev. Qed.

Lemma never_release_object E s p f o : never k (release_object E s p f o).
Proof. unfold release_object. nev. Qed.

Hint Resolve never_pop_transaction never_release_object : never.

Lemma never_release_objects E p f d n l : forall s, never k (release_objects E s p f d n l).
Proof. induction l; intros; simpl; nev. Qed.

Hint Resolve never_release_objects : never.

Lemma never_buffer_release E s p b f : never k (binder_transaction_buffer_release E s p b f).
Proof. unfold binder_transaction_buffer_release. nev. Qed.

Lemma never_reply_target E s th : never k (reply_target E s th).
Proof. unfold reply_target. nev. Qed.

Lemma never_call_node s p tr : never k (call_node s p tr).
Proof. unfold call_node. nev. Qed.

Lemma never_own_node s p fp : never k (own_node s p fp).
Proof. unfold own_node. nev. Qed.

Lemma never_share_node s n th p fp : never k (share_node s n th p fp).
Proof. unfold share_node. nev. Qed.

Hint Resolve never_buffer_release never_reply_target never_call_node never_own_node
  never_share_node : never.

Lemma never_translate_object E s p th g i fp : never k (translate_object E s p th g i fp).
Proof. unfold translate_object, translate_binder, translate_handle, translate_fd. nev. Qed.

Hint Resolve never_translate_object : never.

Lemma never_translate_objects E p th g i b l : forall s n, never k (translate_objects E s p th g i b l n).
Proof. induction l; intros; simpl; nev. Qed.

Lemma never_alloc_transaction_buffer E s t g tr r : never k (alloc_transaction_buffer E s t g tr r).
Proof. unfold alloc_transaction_buffer. nev. Qed.

Lemma never_fill_buffer s m b tr : never k (fill_buffer s m b tr).
Proof. unfold fill_buffer. nev. Qed.

Lemma never_finish_transaction s th t b g i : never k (finish_transaction s th t b g i).
Proof. unfold finish_transaction. nev. Qed.

Lemma never_undo_buffer E s b n : never k (undo_buffer E s b n).
Proof. unfold undo_buffer. nev. Qed.

Hint Resolve never_translate_objects never_alloc_transaction_buffer never_fill_buffer
  never_finish_transaction never_undo_buffer : never.

Lemma never_send_transaction E s m p th tr g i : never k (send_transaction E s m p th tr g i).
Proof. unfold send_transaction. nev. Qed.

Hint Resolve never_send_transaction : never.

(** Two loops are entered on the way. *)
Context (Hk1 : k <> -1) (Hk2 : k <> -2).

Lemma never_failed_reply_walk fuel : forall s t e, never k (failed_reply_walk fuel s t e).
Proof. induction fuel; intros; simpl; [by apply never_bug|]. nev. Qed.

Lemma never_waiting_caller fuel : forall s o tp d, never k (waiting_caller fuel s o tp d).
Proof. induction fuel; intros s [] tp d; simpl; [by apply never_bug|never|nev|never]. Qed.

Hint Resolve never_failed_reply_walk never_waiting_caller : never.

Lemma never_send_failed_reply s t e : never k (binder_send_failed_reply s t e).
Proof. unfold binder_send_failed_reply. nev. Qed.

Lemma never_call_target s p th tr : never k (call_target s p th tr).
Proof. unfold call_target. nev. Qed.

Hint Resolve never_send_failed_reply never_call_target : never.

Lemma never_binder_transaction E s m p th tr r : never k (binder_transaction E s m p th tr r).
Proof. unfold binder_transaction, report_failure. nev. Qed.

Hint Resolve never_binder_transaction : never.

(** ** Commands *)

Lemma never_queue_death s p th d : never k (queue_death s p th d).
Proof. unfold queue_death. nev. Qed.

Lemma never_find_delivered s c l : never k (find_delivered s l c).
Proof. induction l as [|[] l IH]; simpl; nev. Qed.

Hint Resolve never_queue_death never_find_delivered : never.

Lemma never_write_refs s m p c ptr : never k (write_refs s m p c ptr).
Proof. unfold write_refs. nev. Qed.

Lemma never_write_done s m p c ptr : never k (write_done s m p c ptr).
Proof. unfold write_done, node_done. nev. Qed.

Lemma never_write_free_buffer E s m p th ptr : never k (write_free_buffer E s m p th ptr).
Proof. unfold write_free_buffer, free_user_buffer, next_async. nev. Qed.

Lemma never_write_transaction E s m p th c ptr : never k (write_transaction E s m p th c ptr).
Proof. unfold write_transaction. nev. Qed.

Lemma never_register_looper s p th : never k (register_looper s p th).
Proof. unfold register_looper. nev. Qed.

Lemma never_write_death s m p th c ptr : never k (write_death s m p th c ptr).
Proof. unfold write_death, request_death, clear_death. nev. Qed.

Lemma never_write_dead_done s m p th ptr : never k (write_dead_done s m p th ptr).
Proof. unfold write_dead_done, dead_binder_done. nev. Qed.

Hint Resolve never_write_refs never_write_done never_write_free_buffer never_write_transaction
  never_register_looper never_write_death never_write_dead_done : never.

Lemma never_write_command E s m p th c ptr : never k (write_command E s m p th c ptr).
Proof. unfold write_command. nev. Qed.

(** ** Returns *)

Lemma never_read_done s m f : never k (read_done s m f).
Proof. unfold read_done. nev. Qed.

Hint Resolve never_read_done : never.

Lemma never_read_errors s m f th : never k (read_errors s m f th).
Proof. unfold read_errors. nev. Qed.

Hint Resolve never_read_errors : never.

Lemma never_read_retry E s m f : never k (read_retry E s m f).
Proof. unfold read_retry. nev. Qed.

Lemma never_read_transaction E s m p th t ptr : never k (read_transaction E s m p th t ptr).
Proof. unfold read_transaction, sender_pid, transaction_delivered. nev. Qed.

Lemma never_read_work E s m p th w ptr : never k (read_work E s m p th w ptr).
Proof. unfold read_work, read_node, read_death. pose proof never_read_transaction. nev. Qed.

End Never.

#[export] Hint Resolve never_write_command never_read_done never_read_retry never_read_work
  never_send_failed_reply never_buffer_release never_free_buf never_get_buf never_upd_buf
  never_delete_ref never_dec_node never_pop_transaction : never.
