(* ===== verification/ReplyThms.v ===== *)
(** * ReplyThms: who a transaction goes to, and who hears of its failure

    Theorems about [binder_pop_transaction], [binder_send_failed_reply] and the
    choice of the target in [binder_transaction]. *)

From S2P Require Import Prelude RbTree BufferAlloc DriverState NodeRef NodeRefInv NodeRefOps NodeRefThms Uapi Transaction Never.

(** ** Buffers of processes *)

Definition buf_live (s : driver) (b : Z * Z) : Prop := exists buf, get_buf s b = Ret buf.

Lemma get_buffer_update a f l a' :
  (forall b, b_addr (f b) = b_addr b) ->
  (exists x, get_buffer (update_buffer a f l) a' = Ret x) <-> exists x, get_buffer l a' = Ret x.
Proof.
  intros Hf. induction l as [|b l IH]; [done|]. unfold get_buffer, update_buffer in *. simpl.
  assert (b_addr (if b_addr b =? a then f b else b) = b_addr b) as -> by (destruct (b_addr b =? a); auto).
  destruct (b_addr b =? a'); [|exact IH]. split; intros _; by eexists.
Qed.

Lemma upd_buf_live s b f :
  buf_live s b -> (forall x, b_addr (f x) = b_addr x) ->
  exists s', upd_buf s b f = Ret s' /\ (forall c, buf_live s' c <-> buf_live s c) /\
    exists p, s_procs s !! b.1 = Some p /\ s' = put_proc s b.1
      (set_p_mem (set_buffers (p_mem p) (update_buffer b.2 f (buffers (p_mem p)))) p).
Proof.
  intros [buf Hb] Hf. unfold upd_buf. unfold get_buf, get_proc, deref in *.
  destruct (s_procs s !! b.1) as [p|] eqn:E; [|done]. cbn [res_bind] in *. rewrite Hb. cbn [res_bind].
  eexists. split; [reflexivity|]. split; [|by exists p].
  intros c. unfold buf_live, get_buf, get_proc, deref. simpl.
  destruct (decide (b.1 = c.1)) as [Ec|Ec].
  - rewrite <- Ec, lookup_insert_eq, E. simpl. by apply get_buffer_update.
  - by rewrite lookup_insert_ne.
Qed.

Lemma upd_buf_same s b f s' : upd_buf s b f = Ret s' ->
  s_lists s' = s_lists s /\ s_nodes s' = s_nodes s /\ s_refs s' = s_refs s /\
  s_threads s' = s_threads s /\ s_transactions s' = s_transactions s.
Proof. unfold upd_buf. intros. res_inv. by simplify_eq. Qed.

Section Replies.
Context `{RL : RbLib} `{U : BinderUapi}.

(** ** Popping *)

(** The rest of the driver, with one field replaced. *)
Lemma upd_buf_transactions s b f s' : upd_buf s b f = Ret s' ->
  s_transactions s' = s_transactions s /\ s_threads s' = s_threads s /\
  s_lists s' = s_lists s /\ s_wakes s' = s_wakes s.
Proof. unfold upd_buf. intros H. res_inv. by subst s'. Qed.

Lemma binder_pop_transaction_Ret s th t s' :
  binder_pop_transaction s th t = Ret s' ->
  is_Some (s_transactions s !! t) /\ s_transactions s' = delete t (s_transactions s).
Proof.
  unfold binder_pop_transaction. intros H. res_inv.
  apply upd_transaction_Ret in E0 as (x & Hx & ->). apply kfree_transaction_Ret in H as [_ ->].
  assert (s_transactions r2 = <[t := set_x_need_reply false x]> (s_transactions r)) as E3.
  { destruct (x_buffer r1); [by apply upd_buf_transactions in E2 as [-> _]|by injection E2 as <-]. }
  simpl. rewrite E3, delete_insert_eq.
  assert (is_Some (s_transactions s !! t) /\ delete t (s_transactions r) = delete t (s_transactions s))
    as [? ->]; [|done].
  destruct th as [u|].
  - res_inv. apply upd_transaction_Ret in E as (z & Hz & ->). simpl in *.
    split; [by eexists|]. by rewrite delete_insert_eq.
  - injection E as <-. by split; [eexists|].
Qed.

(** ** Failed replies *)

Lemma failed_reply_walk_fuel fuel : forall s t code,
  (size (s_transactions s) < fuel)%nat -> never (-1) (failed_reply_walk fuel s t code).
Proof.
  induction fuel as [|fuel IH]; intros s t code Hs; [lia|]. simpl.
  apply never_bind; [eauto with never|]. intros x _. destruct (x_from x) as [th|]; [never|].
  apply never_bind; [eauto with never|]. intros s' E.
  apply binder_pop_transaction_Ret in E as [[y Hy] E].
  destruct (x_from_parent x) as [t'|]; [|never].
  apply IH. rewrite E, map_size_delete_Some by (by eexists).
  assert (size (s_transactions s) <> 0%nat) by (by eapply map_size_ne_0_lookup_2; eexists).
  lia.
Qed.

(** The transactions [binder_send_failed_reply] goes through from [t]: [l] are
    those whose sender is gone, [o] the first whose sender is alive. *)
Inductive caller_path (s : driver) : Z -> list Z -> option Z -> Prop :=
| path_end t x : s_transactions s !! t = Some x -> x_from x = None ->
    x_from_parent x = None -> caller_path s t [t] None
| path_dead t x t' l o : s_transactions s !! t = Some x -> x_from x = None ->
    x_from_parent x = Some t' -> caller_path s t' l o -> caller_path s t (t :: l) o
| path_live t x th : s_transactions s !! t = Some x -> x_from x = Some th ->
    caller_path s t [] (Some t).

Lemma caller_path_unique s t l o : caller_path s t l o ->
  forall l' o', caller_path s t l' o' -> l = l' /\ o = o'.
Proof.
  induction 1 as [t x E1 E2 E3|t x t' l o E1 E2 E3 _ IH|t x th E1 E2];
    intros l' o' H'; inversion H'; simplify_eq; try done.
  by edestruct IH as [-> ->].
Qed.

Lemma caller_path_in s t l o u : caller_path s t l o -> u ∈ l ->
  exists l', caller_path s u l' o /\ (length l' <= length l)%nat.
Proof.
  induction 1 as [t x E1 E2 E3|t x t' l o E1 E2 E3 H IH|t x th E1 E2]; intros Hu.
  - apply list_elem_of_singleton in Hu as ->. exists [t]. split; [by eapply path_end|done].
  - apply elem_of_cons in Hu as [->|Hu].
    + exists (t :: l). split; [by eapply path_dead|done].
    + destruct (IH Hu) as (l' & ? & ?). exists l'. split; [done|]. simpl. lia.
  - by apply not_elem_of_nil in Hu.
Qed.

(** A path that ends does not come back. *)
Lemma caller_path_fresh s t l o : caller_path s t (t :: l) o -> t ∉ l.
Proof.
  intros H Hin. inversion H as [|? ? t' ? ? E1 E2 E3 H'|]; subst; [by apply not_elem_of_nil in Hin|].
  destruct (caller_path_in s t' l o t H' Hin) as (l' & Hl' & Hlen).
  destruct (caller_path_unique s t _ _ H l' o Hl') as [<- _]. simpl in Hlen. lia.
Qed.

Lemma caller_path_target s t l o u : caller_path s t l o -> o = Some u ->
  exists y th, s_transactions s !! u = Some y /\ x_from y = Some th.
Proof. induction 1; intros; simplify_eq; eauto. Qed.

(** The path depends on the transactions it goes through only. *)
Lemma caller_path_delete s s' d t l o : caller_path s t l o -> d ∉ l -> o <> Some d ->
  s_transactions s' = delete d (s_transactions s) -> caller_path s' t l o.
Proof.
  induction 1 as [t x E1 E2 E3|t x t' l o E1 E2 E3 H IH|t x th E1 E2]; intros Hd Ho E.
  - apply (path_end s' t x); try done. rewrite E, lookup_delete_ne by set_solver. done.
  - apply (path_dead s' t x t' l o); try done.
    + rewrite E, lookup_delete_ne by set_solver. done.
    + apply IH; [set_solver|done|done].
  - apply (path_live s' t x th); [|done]. rewrite E, lookup_delete_ne by congruence. done.
Qed.

Definition bufs_ok (s : driver) : Prop := forall t x b,
  s_transactions s !! t = Some x -> x_buffer x = Some b -> buf_live s b.

(** Clearing the buffer's pointer and freeing the transaction. *)
Lemma pop_tail s t x :
  s_transactions s !! t = Some x -> (forall b, x_buffer x = Some b -> buf_live s b) ->
  exists s', binder_pop_transaction s None t = Ret s' /\
    s_transactions s' = delete t (s_transactions s) /\ s_threads s' = s_threads s /\
    s_lists s' = s_lists s /\ s_wakes s' = s_wakes s /\ (forall c, buf_live s' c <-> buf_live s c).
Proof.
  intros E Hb. unfold binder_pop_transaction. cbn [res_bind].
  unfold upd_transaction at 1, get_transaction. rewrite (deref_Some _ _ _ E). cbn [res_bind].
  set (s1 := put_transaction s t (set_x_need_reply false x)).
  assert (s_transactions s1 !! t = Some (set_x_need_reply false x)) as E1 by apply lookup_insert_eq.
  rewrite (deref_Some _ _ _ E1). cbn [res_bind]. simpl x_buffer.
  destruct (x_buffer x) as [b|].
  - destruct (upd_buf_live s1 b (set_b_transaction None)) as (s2 & E2 & Hl & p & _ & Es2);
      [by apply Hb|done|].
    rewrite E2. cbn [res_bind]. eexists. split; [apply kfree_transaction_Ret|].
    + split; [|reflexivity]. rewrite Es2. by eexists.
    + subst s2. simpl. rewrite delete_insert_eq. by repeat (split; [done|]).
  - cbn [res_bind]. eexists. split; [apply kfree_transaction_Ret|].
    + split; [by eexists|reflexivity].
    + simpl. rewrite delete_insert_eq. by repeat (split; [done|]).
Qed.

Lemma pop_live s t x th tt :
  s_transactions s !! t = Some x -> (forall b, x_buffer x = Some b -> buf_live s b) ->
  x_from x = Some th -> s_threads s !! th = Some tt -> t_transaction_stack tt = Some t ->
  exists s', binder_pop_transaction s (Some th) t = Ret s' /\
    s_transactions s' = delete t (s_transactions s) /\
    s_threads s' = <[th := set_t_transaction_stack (x_from_parent x) tt]> (s_threads s) /\
    s_lists s' = s_lists s /\ s_wakes s' = s_wakes s.
Proof.
  intros E Hb Ef Et Es.
  set (s1 := put_thread s th (set_t_transaction_stack (x_from_parent x) tt)).
  set (s2 := put_transaction s1 t (set_x_from None x)).
  assert (binder_pop_transaction s (Some th) t = binder_pop_transaction s2 None t) as ->.
  { unfold binder_pop_transaction, get_thread, get_transaction, upd_transaction at 1.
    rewrite (deref_Some _ _ _ Et). cbn [res_bind].
    rewrite bool_decide_eq_false_2 by (intros H; by apply H). cbn [bug_on res_bind].
    rewrite (deref_Some _ _ _ E). cbn [res_bind].
    rewrite bool_decide_eq_false_2 by (intros H; by apply H). cbn [bug_on res_bind].
    unfold get_transaction. fold s1. by rewrite (deref_Some (s_transactions s1) _ _ E). }
  destruct (pop_tail s2 t (set_x_from None x)) as (s' & -> & Ex & Eth & El & Ew & _).
  - apply lookup_insert_eq.
  - exact Hb.
  - exists s'. rewrite Ex, Eth, El, Ew. simpl. by rewrite delete_insert_eq.
Qed.

(** A thread has two places for an error; what it is left with when told one. *)
Definition error_slot (th : binder_thread) : bool :=
  (t_return_error th =? BR_OK) || (t_return_error2 th =? BR_OK).

Definition told (error_code : Z) (x : DriverState.binder_transaction) (th : binder_thread)
    : binder_thread :=
  set_t_return_error error_code
    (set_t_transaction_stack (x_from_parent x) (shift_return_error th)).

Lemma shift_return_error_slot th :
  t_return_error (shift_return_error th) =? BR_OK = error_slot th /\
  t_transaction_stack (shift_return_error th) = t_transaction_stack th /\
  (error_slot th = false -> shift_return_error th = th).
Proof.
  unfold shift_return_error, error_slot.
  destruct (Z.eqb_spec (t_return_error th) BR_OK) as [E|E]; simpl.
  { rewrite E, Z.eqb_refl. done. }
  destruct (Z.eqb_spec (t_return_error2 th) BR_OK) as [E2|E2]; simpl; [by rewrite Z.eqb_refl|].
  by destruct (Z.eqb_spec (t_return_error th) BR_OK).
Qed.

(** What the walk along a path leads to. *)
Definition told_state (s s' : driver) (l : list Z) (o : option Z) (error_code : Z) : Prop :=
  s_lists s' = s_lists s /\
  match o with
  | None =>
      s_transactions s' = foldr delete (s_transactions s) l /\
      s_threads s' = s_threads s /\ s_wakes s' = s_wakes s
  | Some u => exists y th tt, s_transactions s !! u = Some y /\ x_from y = Some th /\
      s_threads s !! th = Some tt /\
      if error_slot tt then
        s_transactions s' = delete u (foldr delete (s_transactions s) l) /\
        s_threads s' = <[th := told error_code y tt]> (s_threads s) /\
        s_wakes s' = ThreadWait th :: s_wakes s
      else
        s_transactions s' = foldr delete (s_transactions s) l /\
        s_threads s' = s_threads s /\ s_wakes s' = s_wakes s
  end.

Lemma failed_reply_walk_live s fuel t y th tt code :
  s_transactions s !! t = Some y -> x_from y = Some th -> s_threads s !! th = Some tt ->
  t_transaction_stack tt = Some t -> bufs_ok s ->
  exists s', failed_reply_walk (S fuel) s t code = Ret s' /\ told_state s s' [] (Some t) code.
Proof.
  intros Ey Ef Et Es Hb. destruct (shift_return_error_slot tt) as (Hslot & Hstack & Hkeep).
  simpl. unfold get_transaction at 1. rewrite (deref_Some _ _ _ Ey). cbn [res_bind].
  rewrite Ef. unfold upd_thread at 1, get_thread. rewrite (deref_Some _ _ _ Et). cbn [res_bind].
  set (s1 := put_thread s th (shift_return_error tt)).
  assert (s_threads s1 !! th = Some (shift_return_error tt)) as E1 by apply lookup_insert_eq.
  rewrite (deref_Some _ _ _ E1). cbn [res_bind]. rewrite Hslot. destruct (error_slot tt) eqn:Eslot.
  - destruct (pop_live s1 t y th (shift_return_error tt)) as (s2 & -> & Ex & Eth & El & Ew);
      try done; [|by rewrite Hstack|].
    { intros b Eb. exact (Hb t y b Ey Eb). }
    cbn [res_bind]. unfold upd_thread, get_thread. rewrite Eth.
    rewrite (deref_Some _ th (set_t_transaction_stack (x_from_parent y) (shift_return_error tt)))
      by apply lookup_insert_eq. cbn [res_bind].
    eexists. split; [reflexivity|]. split; [simpl; by rewrite El|]. exists y, th, tt.
    do 3 (split; [done|]). rewrite Eslot. simpl. rewrite Ex, Eth, Ew. simpl.
    by rewrite !insert_insert_eq.
  - exists s1. split; [done|]. split; [done|]. exists y, th, tt. do 3 (split; [done|]).
    rewrite Eslot. simpl. rewrite (Hkeep eq_refl). split; [done|]. split; [|done].
    by apply insert_id.
Qed.

Lemma caller_path_nodup s l : forall t o, caller_path s t l o -> NoDup l.
Proof.
  induction l as [|u l IH]; intros t o H; [constructor|].
  assert (u = t) as -> by by inversion H.
  constructor; [by eapply caller_path_fresh|].
  inversion H; subst; [constructor|by eapply IH].
Qed.

Lemma caller_path_lives s t l o u : caller_path s t l o -> u ∈ l -> is_Some (s_transactions s !! u).
Proof.
  induction 1 as [t x E1 E2 E3|t x t' l o E1 E2 E3 H IH|t x th E1 E2]; intros Hu.
  - apply list_elem_of_singleton in Hu as ->. by eexists.
  - apply elem_of_cons in Hu as [->|Hu]; [by eexists|auto].
  - by apply not_elem_of_nil in Hu.
Qed.

(** The thread that waits for [u] has it on top of its stack. *)
Definition waits_for (s : driver) (o : option Z) : Prop := forall u y th,
  o = Some u -> s_transactions s !! u = Some y -> x_from y = Some th ->
  exists tt, s_threads s !! th = Some tt /\ t_transaction_stack tt = Some u.

Lemma foldr_delete_swap {A} (m : gmap Z A) j l :
  foldr delete (delete j m) l = delete j (foldr delete m l).
Proof. induction l as [|i l IH]; simpl; [done|]. by rewrite IH, delete_delete. Qed.

Lemma failed_reply_walk_path code l : forall s t o fuel,
  caller_path s t l o -> (length l < fuel)%nat -> bufs_ok s -> waits_for s o ->
  exists s', failed_reply_walk fuel s t code = Ret s' /\ told_state s s' l o code.
Proof.
  induction l as [|u l IH]; intros s t o fuel Hp Hf Hb Hw; (destruct fuel as [|fuel]; [simpl in Hf; lia|]).
  - inversion Hp as [| |? y th Ey Ef]; subst.
    destruct (Hw t y th eq_refl Ey Ef) as (tt & Et & Es).
    by apply (failed_reply_walk_live s fuel t y th tt code).
  - assert (u = t) as -> by by inversion Hp.
    assert (exists x, s_transactions s !! t = Some x /\ x_from x = None) as (x & Ex & Ef)
      by (inversion Hp; eauto).
    destruct (pop_tail s t x Ex (fun b => Hb t x b Ex)) as (s1 & E1 & Et & Eth & El & Ew & Hl).
    simpl. unfold get_transaction. rewrite (deref_Some _ _ _ Ex). cbn [res_bind].
    rewrite Ef, E1. cbn [res_bind].
    inversion Hp as [? x' Ex' Ef' Ep|? x' t' ? ? Ex' Ef' Ep Hp'|]; subst; simplify_eq; rewrite Ep.
    + exists s1. split; [done|]. split; [done|]. simpl. by rewrite Et, Eth, Ew.
    + assert (t ∉ l) as Hfresh by by eapply caller_path_fresh.
      assert (o <> Some t) as Ho.
      { intros ->. destruct (caller_path_target _ _ _ _ t Hp eq_refl) as (? & ? & ? & ?).
        congruence. }
      destruct (IH s1 t' o fuel) as (s' & Es' & Htold).
      * by apply (caller_path_delete s s1 t).
      * simpl in Hf. lia.
      * intros v y b. rewrite Et, lookup_delete_Some. intros [_ Hy] Eb. apply Hl. by eapply Hb.
      * intros v y th -> Hy Hyf. rewrite Et in Hy. rewrite Eth.
        apply lookup_delete_Some in Hy as [_ Hy]. by eapply Hw.
      * exists s'. split; [done|]. destruct Htold as [El' Htold]. split; [by rewrite El'|].
        cbn [foldr]. rewrite Et, Eth, Ew, foldr_delete_swap in Htold.
        destruct o as [v|]; [|done].
        destruct Htold as (y & th & tt & Hy & Hyf & Htt & Hc). exists y, th, tt.
        apply lookup_delete_Some in Hy as [_ Hy]. done.
Qed.

(** [binder_send_failed_reply] always ends, whatever the state: it never
    goes around its loop more often than there are transactions. *)
Theorem binder_send_failed_reply_terminates s t error_code :
  never (-1) (binder_send_failed_reply s t error_code).
Proof.
  unfold binder_send_failed_reply. apply never_bind; [eauto with never|]. intros x _.
  apply never_bind; [never|]. intros _ _. apply failed_reply_walk_fuel. lia.
Qed.

(** C14: [binder_send_failed_reply] frees every transaction on the way up whose
    sender is gone and tells the first caller that still lives: its thread gets
    the error (an older one moves to the second place), has the transaction off
    its stack, and is woken; when both places hold errors already, it is left
    alone with its transaction.  No list is touched. *)
Theorem binder_send_failed_reply_correct s t x l o error_code :
  s_transactions s !! t = Some x -> has_flag (x_flags x) TF_ONE_WAY = false ->
  bufs_ok s -> caller_path s t l o -> waits_for s o ->
  exists s', binder_send_failed_reply s t error_code = Ret s' /\
    told_state s s' l o error_code.
Proof.
  intros Ex Hflag Hb Hp Hw. unfold binder_send_failed_reply, get_transaction.
  rewrite (deref_Some _ _ _ Ex). cbn [res_bind]. rewrite Hflag. cbn [bug_on res_bind].
  apply failed_reply_walk_path; try done.
  pose proof (length_le_size (s_transactions s) l) as Hlen.
  assert (length l <= size (s_transactions s))%nat; [|lia].
  apply Hlen; [by eapply caller_path_nodup|]. intros u Hu. by eapply caller_path_lives.
Qed.

(** ** Choosing the target of a call *)

(** The transactions the thread's stack goes through, callers after callees; the
    senders that are left are live threads. *)
Inductive call_chain (s : driver) : option Z -> list Z -> Prop :=
| chain_end : call_chain s None []
| chain_next t x l : s_transactions s !! t = Some x ->
    (forall f, x_from x = Some f -> is_Some (s_threads s !! f)) ->
    call_chain s (x_from_parent x) l -> call_chain s (Some t) (t :: l).

(** The thread of [target_proc] that waits for [t]. *)
Definition waits_in (s : driver) (target_proc t : Z) : option Z :=
  x ← s_transactions s !! t; f ← x_from x; th ← s_threads s !! f;
  if t_proc th =? target_proc then Some f else None.

Lemma call_chain_nodup s o l :
  call_chain s o l -> NoDup l /\ forall t, t ∈ l -> is_Some (s_transactions s !! t).
Proof.
  intros H. split.
  - apply (follows_NoDup (fun t => x ← s_transactions s !! t; x_from_parent x) l o).
    induction H as [|t x l E _ _ IH]; [done|]. split; [done|]. rewrite E. exact IH.
  - induction H as [|u x l E _ _ IH]; [by intros t ?%not_elem_of_nil|].
    intros t [->|Ht]%elem_of_cons; [by eexists|auto].
Qed.

Lemma waiting_caller_chain s tp l : forall o d fuel, call_chain s o l -> (length l <= fuel)%nat ->
  waiting_caller fuel s o tp d =
  Ret (match last (omap (waits_in s tp) l) with Some f => Some f | None => d end).
Proof.
  induction l as [|t l IH]; intros o d fuel H Hl; inversion H as [|? x ? Ex Hf H']; subst.
  - by destruct fuel.
  - destruct fuel as [|fuel]; simpl in Hl; [lia|]. cbn [waiting_caller].
    unfold get_transaction. rewrite (deref_Some _ _ _ Ex). cbn [res_bind].
    assert (exists d', (match x_from x with
       | Some f => let! ft := get_thread s f in Ret (if t_proc ft =? tp then Some f else d)
       | None => Ret d end) = Ret d' /\
       d' = match waits_in s tp t with Some f => Some f | None => d end) as (d' & -> & Ed').
    { unfold waits_in. rewrite Ex. simpl. destruct (x_from x) as [f|] eqn:Ef; [|by exists d].
      destruct (Hf f eq_refl) as [th Eth]. unfold get_thread. rewrite (deref_Some _ _ _ Eth).
      simpl. rewrite Eth. simpl. eexists. split; [reflexivity|]. by destruct (t_proc th =? tp). }
    cbn [res_bind]. rewrite (IH _ _ _ H') by lia. f_equal. subst d'. cbn [omap list_omap].
    destruct (waits_in s tp t); [|done]. rewrite last_cons.
    by destruct (last (omap (waits_in s tp) l)).
Qed.

(** The node a process means by a handle. *)
Definition names (s : driver) (proc handle n : Z) : Prop :=
  if handle =? 0 then s_context_mgr_node s = Some n
  else exists r y, s_refs s !! r = Some y /\ r_proc y = proc /\ r_desc y = handle /\ r_node y = n.

Lemma call_node_spec s proc tr :
  refs_wf s -> is_Some (s_procs s !! proc) ->
  exists k, call_node s proc tr = Ret k /\
    match k with
    | inl n => names s proc (td_handle tr) n
    | inr f => f = Failure (if td_handle tr =? 0 then BR_DEAD_REPLY else BR_FAILED_REPLY) None /\
               forall n, ~ names s proc (td_handle tr) n
    end.
Proof.
  intros [Hg _ _ _] [p Hp]. unfold call_node, names. destruct (td_handle tr =? 0); simpl.
  - destruct (s_context_mgr_node s) as [n|]; eexists; (split; [reflexivity|]); done.
  - destruct (binder_get_ref_spec s _ _ _ Hg (fun _ _ H => H) proc p (td_handle tr) Hp) as (o & -> & Ho).
    cbn [res_bind]. destruct o as [r|].
    + destruct Ho as (y & Ey & Hy). unfold get_ref. rewrite (deref_Some _ _ _ Ey).
      eexists. split; [reflexivity|]. destruct Hy. by exists r, y.
    + eexists. split; [reflexivity|]. split; [done|]. intros n (r & y & Ey & Hy & Hd & _).
      by apply (Ho r y).
Qed.

(** C22: a call goes to the process that owns the node the handle names; when it
    is synchronous and a thread of that process waits, however indirectly, for
    the caller, it goes to the last such thread and to no other.  A call that
    cannot be delivered is refused for one of the stated reasons: no such
    handle, no context manager, a dead node, a stack whose top is not this
    thread's.  The search up the callers ends. *)
Theorem call_target_correct s proc thread th tr l :
  refs_wf s -> is_Some (s_procs s !! proc) -> s_threads s !! thread = Some th ->
  call_chain s (t_transaction_stack th) l ->
  (forall n, s_context_mgr_node s = Some n -> is_Some (s_nodes s !! n)) ->
  match call_target s proc thread tr with
  | Bug _ => False
  | Ret (inl g) => exists n x,
      names s proc (td_handle tr) n /\ g_node g = Some n /\ s_nodes s !! n = Some x /\
      n_proc x = Some (g_proc g) /\
      g_thread g = if has_flag (td_flags tr) TF_ONE_WAY then None
                   else last (omap (waits_in s (g_proc g)) l)
  | Ret (inr f) =>
      f = Failure BR_DEAD_REPLY None /\
        (td_handle tr = 0 /\ s_context_mgr_node s = None \/
         exists n x, names s proc (td_handle tr) n /\ s_nodes s !! n = Some x /\ n_proc x = None) \/
      f = Failure BR_FAILED_REPLY None /\
        (td_handle tr <> 0 /\ (forall n, ~ names s proc (td_handle tr) n) \/
         has_flag (td_flags tr) TF_ONE_WAY = false /\
         exists t x, t_transaction_stack th = Some t /\ s_transactions s !! t = Some x /\
           x_to_thread x <> Some thread)
  end.
Proof.
  intros Hwf Hp Eth Hc Hctx. unfold call_target.
  destruct (call_node_spec s proc tr Hwf Hp) as (k & -> & Hk). cbn [res_bind].
  destruct k as [n|f].
  2:{ destruct Hk as [-> Hn]. destruct (Z.eqb_spec (td_handle tr) 0) as [E|E].
      - left. split; [done|]. left. split; [done|]. unfold names in Hn. rewrite E in Hn. simpl in Hn.
        destruct (s_context_mgr_node s) as [n|]; [by destruct (Hn n)|done].
      - right. split; [done|]. left. done. }
  assert (is_Some (s_nodes s !! n)) as [x Ex].
  { unfold names in Hk. destruct (td_handle tr =? 0); [by apply Hctx|].
    destruct Hk as (r & y & Ey & _ & _ & <-). by apply (go_ref_node _ _ _ _ _ _ (rw_graph _ Hwf) r). }
  unfold get_node, get_thread. rewrite (deref_Some _ _ _ Ex). cbn [res_bind].
  destruct (n_proc x) as [tp|] eqn:Etp; [|by left; split; [|right; exists n, x]].
  rewrite (deref_Some _ _ _ Eth). cbn [res_bind].
  inversion Hc as [Es El|t xt l' Et Hf Hc' Es El].
  { exists n, x. do 4 (split; [done|]). by destruct (has_flag _ _). }
  destruct (has_flag (td_flags tr) TF_ONE_WAY) eqn:Eone.
  { exists n, x. done. }
  unfold get_transaction. rewrite (deref_Some _ _ _ Et). cbn [res_bind].
  case_bool_decide as Hto.
  { right. split; [done|]. right. split; [done|]. by exists t, xt. }
  rewrite Es, El. rewrite (waiting_caller_chain s tp l).
  - exists n, x. do 4 (split; [done|]). simpl. by destruct (last _).
  - by rewrite <- Es, <- El, Es, El in *.
  - destruct (call_chain_nodup s _ l Hc) as [H1 H2]. by apply length_le_size.
Qed.

End Replies.

(** ** Witnesses *)

#[local] Existing Instance plain_rb.

(** Thread 300 of process 100 called process 200, whose thread 301 called on and
    is gone; transaction 501 waits for 500. *)
Definition sample_transaction (from parent to_thread : option Z) (flags : Z)
    : DriverState.binder_transaction :=
  BinderTransaction 7 from parent (Some 200) to_thread None true None 1 flags 0 0 0.

Definition sample_calls : driver :=
  set_s_threads
    (<[300 := BinderThread 100 300 0 (Some 501) 29185 29185]>
       {[302 := BinderThread 200 302 0 (Some 502) 29185 29185]})
    (set_s_transactions
       (<[500 := sample_transaction None (Some 501) None 0]>
          (<[501 := sample_transaction (Some 300) None (Some 302) 0]>
             {[502 := sample_transaction (Some 300) None (Some 302) 0]}))
       sample_held).

Lemma binder_send_failed_reply_correct_witness :
  exists s', binder_send_failed_reply sample_calls 500 29189 = Ret s' /\
    told_state sample_calls s' [500] (Some 501) 29189.
Proof.
  apply (binder_send_failed_reply_correct sample_calls 500
           (sample_transaction None (Some 501) None 0)).
  - reflexivity.
  - reflexivity.
  - intros t x b Ht Hb. simpl in Ht.
    repeat (apply lookup_insert_Some in Ht as [[_ <-]|[_ Ht]]; [done|]).
    apply lookup_singleton_Some in Ht as [_ <-]. done.
  - apply (path_dead _ 500 (sample_transaction None (Some 501) None 0) 501); [done..|].
    by apply (path_live _ 501 (sample_transaction (Some 300) None (Some 302) 0) 300).
  - intros u y th [= <-] [= <-] [= <-]. by eexists.
Defined.

Lemma sample_calls_wf : refs_wf sample_calls.
Proof.
  destruct sample_held_ok as [[H1 H2 H3 H4] _]. split; try done.
  intros l w Hw. specialize (H4 l w Hw). destruct w as [|t| |]; try exact H4.
  destruct H4 as [x Hx]. vm_compute in Hx. discriminate Hx.
Qed.

Lemma call_target_correct_witness :
  exists g, call_target sample_calls 200 302 (TransactionData 1 0 5 0 0 0 0 0 0 0) = Ret (inl g) /\
    exists n x, names sample_calls 200 1 n /\ s_nodes sample_calls !! n = Some x /\
      n_proc x = Some (g_proc g) /\ g_thread g = Some 300.
Proof.
  pose proof (call_target_correct sample_calls 200 302
    (BinderThread 200 302 0 (Some 502) 29185 29185)
    (TransactionData 1 0 5 0 0 0 0 0 0 0) [502] sample_calls_wf
    ltac:(by eexists) ltac:(reflexivity)) as H.
  assert (call_chain sample_calls (Some 502) [502]) as Hc.
  { apply (chain_next _ 502 (sample_transaction (Some 300) None (Some 302) 0)); [done| |constructor].
    intros f [= <-]. by eexists. }
  specialize (H Hc ltac:(by intros n [=])).
  assert (exists g, call_target sample_calls 200 302 (TransactionData 1 0 5 0 0 0 0 0 0 0) =
    Ret (inl g) /\ g_proc g = 100) as (g & E & Eg) by (eexists; split; vm_compute; reflexivity).
  rewrite E in H. destruct H as (n & x & Hn & _ & Hx & Hp & Ht). exists g. split; [done|].
  exists n, x. do 3 (split; [done|]). rewrite Ht, Eg. vm_compute. reflexivity.
Defined.
