(* ===== verification/ObjectThms.v ===== *)
(** * ObjectThms: objects keep their identity across processes

    Theorems about [translate_binder], [translate_handle] and the release of a
    buffer's objects: what a process is handed names the node the sender
    named, the counts behind the handle are held, and an object sent out and
    back is the object that was sent. *)

From S2P Require Import Prelude RbTree BufferAlloc BufferThms DriverState NodeRef NodeRefInv NodeRefOps NodeRefThms Uapi Transaction.

(** ** What identifies a node *)

Definition node_ident (x : binder_node) : option Z * Z * Z := (n_proc x, n_ptr x, n_cookie x).

Definition ident (s : driver) (m : Z) : option (option Z * Z * Z) := node_ident <$> s_nodes s !! m.

Lemma ident_put_node s n x x' :
  s_nodes s !! n = Some x -> node_ident x' = node_ident x ->
  forall m, ident (put_node s n x') m = ident s m.
Proof.
  intros E Ei m. unfold ident. simpl. destruct (decide (m = n)) as [->|Hm].
  - rewrite lookup_insert_eq, E. simpl. by rewrite Ei.
  - by rewrite lookup_insert_ne.
Qed.

Lemma inc_count_ident strong internal x : node_ident (inc_count strong internal x) = node_ident x.
Proof. by destruct strong, internal. Qed.

Section Objects.
Context `{RL : RbLib} `{U : BinderUapi}.

Lemma binder_inc_node_ident s n strong internal tl ret s' :
  binder_inc_node s n strong internal tl = Ret (ret, s') -> forall m, ident s' m = ident s m.
Proof.
  destruct (s_nodes s !! n) as [x|] eqn:E.
  2:{ unfold binder_inc_node, get_node, deref. by rewrite E. }
  pose proof (ident_put_node s n x _ E (inc_count_ident strong internal x)) as Hp.
  pose proof (binder_inc_node_cases s n x strong internal tl E) as H. simpl in H.
  destruct H as [(l & _ & [H|H])|[H|[_ [H|[_ H]]]]]; rewrite H; intros [= <- <-]; done.
Qed.

Lemma binder_inc_ref_ident s r strong tl ret s' :
  binder_inc_ref s r strong tl = Ret (ret, s') -> forall m, ident s' m = ident s m.
Proof.
  unfold binder_inc_ref. intros H. res_inv. destruct r1 as [ret1 s1].
  assert (forall m, ident s1 m = ident s m) as H1.
  { destruct (_ =? 0); [by eapply binder_inc_node_ident|by injection E0 as <- <-]. }
  destruct (negb (ret1 =? 0)); [by injection H as <- <-|].
  res_inv. apply upd_ref_Ret in E1 as (y & _ & ->). subst. exact H1.
Qed.

Lemma binder_get_ref_for_node_keeps {A} (g : binder_node -> A) s a n o s' :
  (forall l x, g (set_n_refs l x) = g x) ->
  binder_get_ref_for_node s a n = Ret (o, s') ->
  (forall m, g <$> s_nodes s' !! m = g <$> s_nodes s !! m) /\
  s_context_mgr_node s' = s_context_mgr_node s.
Proof.
  intros Hg. unfold binder_get_ref_for_node. intros H. res_inv. destruct (kzalloc s) as [r1 s1] eqn:Ek.
  assert (s_nodes s1 = s_nodes s /\ s_context_mgr_node s1 = s_context_mgr_node s) as [Es1 Ec1].
  { unfold kzalloc in Ek. destruct (s_kzalloc s); by injection Ek as <- <-. }
  res_inv. destruct r0 as [t|y]; [|by simplify_eq].
  destruct r1 as [r1|]; [|simplify_eq; by rewrite Es1].
  simpl in H. res_inv. destruct r2 as [t'|]; [|done]. res_inv.
  apply upd_node_Ret in E3 as (x & Ex & ->). simplify_eq. split; [|done]. intros m. simpl in *.
  rewrite Es1 in *. destruct (decide (m = n)) as [->|Hm].
  - rewrite lookup_insert_eq, Ex. simpl. by rewrite Hg.
  - by rewrite lookup_insert_ne.
Qed.

Lemma binder_get_ref_for_node_ident s a n o s' :
  binder_get_ref_for_node s a n = Ret (o, s') -> forall m, ident s' m = ident s m.
Proof. intros E. by apply (binder_get_ref_for_node_keeps node_ident s a n o s'). Qed.

(** ** Handing a node to a process *)

(** There is room for one more reference and for one more count. *)
Definition room (s : driver) : Prop :=
  Z.of_nat (size (s_refs s)) + 1 < 2 ^ 31 - 1 /\
  forall r y, s_refs s !! r = Some y -> r_strong y < 2 ^ 31 - 1 /\ r_weak y < 2 ^ 31 - 1.

Lemma room_few s : room s -> few_refs s.
Proof. unfold room, few_refs. lia. Qed.

(** One of the next two answers of the allocator is NULL. *)
Definition low_memory (s : driver) : Prop := exists k, (k < 2)%nat /\
  (s_kzalloc s !! k = None \/ s_kzalloc s !! k = Some None).

Lemma head_low_memory s :
  head (s_kzalloc s) = None \/ head (s_kzalloc s) = Some None -> low_memory s.
Proof. exists 0%nat. split; [lia|]. by destruct (s_kzalloc s). Qed.

Lemma ref_for_node_room s a n r s' :
  refs_wf s' -> room s -> ref_for_node s a n (Some r) s' ->
  few_refs s' /\ exists y, s_refs s' !! r = Some y /\ r_proc y = a /\ r_node y = n /\
    (forall strong, ref_count strong y < 2 ^ 31 - 1) /\ 0 <= r_desc y < 2 ^ 32.
Proof.
  intros Hwf [Hsz Hc] H. pose proof (go_desc _ _ _ _ _ _ (rw_graph _ Hwf)) as Hd.
  destruct H as [[-> (y & Hy & Hp & Hn)]|(Hfree & _ & id & d & Hr & _)].
  - split; [by apply room_few|]. exists y. do 3 (split; [done|]).
    split; [intros []; simpl; by apply (Hc r)|by apply (Hd r)].
  - assert (s_refs s' !! r = Some (new_ref id a n d)) as E by (rewrite Hr; apply lookup_insert_eq).
    split; [unfold few_refs; rewrite Hr, map_size_insert_None by done; lia|].
    exists (new_ref id a n d). do 3 (split; [done|]). split; [by intros []|by apply (Hd r)].
Qed.

(** A reference to [n], found or made, and counted. *)
Definition handed (s : driver) (a n : Z) (r : Z) (strong : bool) (tl : option list_id)
    (s' : driver) : Prop :=
  exists y, s_refs s' !! r = Some y /\ r_proc y = a /\ r_node y = n /\ 0 <= r_desc y < 2 ^ 32 /\
    (0 < ref_count strong y \/ tl = None /\ ref_count strong y = 0).

Lemma hand_over s a p n x strong tl :
  refs_wf s -> supply_ok s -> room s -> s_procs s !! a = Some p -> s_nodes s !! n = Some x ->
  exists o s1, binder_get_ref_for_node s a n = Ret (o, s1) /\ refs_wf s1 /\ supply_ok s1 /\
    same_rest s s1 /\
    match o with
    | None => head (s_kzalloc s) = None \/ head (s_kzalloc s) = Some None
    | Some r => exists y ret s2, s_refs s1 !! r = Some y /\
        binder_inc_ref s1 r strong tl = Ret (ret, s2) /\ refs_wf s2 /\ supply_ok s2 /\
        same_rest s s2 /\ (forall m, ident s2 m = ident s m) /\
        handed s a n r strong tl s2 /\ r_desc <$> s_refs s2 !! r = Some (r_desc y) /\
        r_node y = n /\ (forall m z, s_refs s !! m = Some z -> s_refs s1 !! m = Some z) /\
        (ret = 0 -> forall z, s_refs s2 !! r = Some z -> 0 < ref_count strong z)
    end.
Proof.
  intros Hwf Hsu Hroom Hp Hx.
  destruct (binder_get_ref_for_node_spec s a p n x Hwf Hsu (room_few _ Hroom) Hp Hx)
    as (o & s1 & E1 & Hwf1 & Hsu1 & Hr1 & _ & _ & Ho).
  exists o, s1. do 4 (split; [done|]). destruct o as [r|]; [|by destruct Ho].
  destruct (ref_for_node_room s a n r s1 Hwf1 Hroom Ho) as (Hfew1 & y & Ey & Hyp & Hyn & Hyc & Hyd).
  destruct (binder_inc_ref_spec s1 r y strong tl Hwf1 Hfew1 Ey (Hyc strong))
    as (ret & s2 & E2 & Hwf2 & Hr2 & _ & _ & _ & Hcase).
  destruct (ref_step_wf s1 s2 Hwf1 Hfew1 Hsu1) as [_ Hsu2].
  { by apply (step_inc_ref s1 r y strong tl ret). }
  exists y, ret, s2. do 4 (split; [done|]). split; [by transitivity s1|]. split.
  { intros m. rewrite (binder_inc_ref_ident _ _ _ _ _ _ E2).
    by apply (binder_get_ref_for_node_ident _ _ _ _ _ E1). }
  destruct (rw_counts _ Hwf1 r y Ey) as [Hs Hk].
  assert (forall m z, s_refs s !! m = Some z -> s_refs s1 !! m = Some z) as Hkeep.
  { destruct Ho as [[-> _]|(Hfree & _ & id & d & -> & _)]; [done|]. intros m z Hz.
    rewrite lookup_insert_ne; [done|]. congruence. }
  destruct Hcase as [[_ Hr]|(-> & -> & -> & Hz)].
  - assert (s_refs s2 !! r = Some (inc_ref_count strong y)) as E by (rewrite Hr; apply lookup_insert_eq).
    rewrite E. specialize (Hyc strong).
    assert (0 < ref_count strong (inc_ref_count strong y)).
    { destruct strong; simpl in *; rewrite i32_small; lia. }
    split; [|split; [by destruct strong|do 2 (split; [done|]); by intros _ z [= <-]]].
    exists (inc_ref_count strong y). split; [done|].
    destruct strong; simpl in *; (do 3 (split; [done|])); by left.
  - rewrite Ey. split; [|do 3 (split; [done|]); unfold EINVAL; lia].
    exists y. do 4 (split; [done|]). by right.
Qed.

(** ** The translations *)

Lemma refs_wf_put_node s n x x' :
  refs_wf s -> supply_ok s -> s_nodes s !! n = Some x -> n_proc x' = n_proc x -> n_ptr x' = n_ptr x ->
  n_refs x' = n_refs x -> n_internal_strong_refs x' = n_internal_strong_refs x ->
  refs_wf (put_node s n x') /\ supply_ok (put_node s n x').
Proof.
  intros [Hg Hd Hc Hw] Hsu E Ep Et Er Ei. split.
  - split; simpl; try done; [|by apply works_put_node].
    eapply graph_off_ext; [|by eapply (graph_put_node _ _ _ _ _ _ n x x')].
    intros m _. simpl. unfold off0. case_decide; lia.
  - apply (supply_release s); try done. intros m. by eapply insert_sub.
Qed.

(** Process [a] is handed a handle to [n] of the kind the object says. *)
Definition handle_for (s : driver) (a n : Z) (strong : bool) (tl : option list_id)
    (fp : flat_binder_object) : Prop :=
  fo_type fp = (if strong then BINDER_TYPE_HANDLE else BINDER_TYPE_WEAK_HANDLE) /\
  exists r y, s_refs s !! r = Some y /\ r_proc y = a /\ r_node y = n /\ r_desc y = fo_handle fp /\
    (0 < ref_count strong y \/ tl = None /\ ref_count strong y = 0).

Lemma handed_handle s a n r strong tl s' fp d :
  handed s a n r strong tl s' -> r_desc <$> s_refs s' !! r = Some d ->
  fo_type fp = (if strong then BINDER_TYPE_HANDLE else BINDER_TYPE_WEAK_HANDLE) ->
  handle_for s' a n strong tl (set_fo_handle d fp).
Proof.
  intros (y & Ey & Hp & Hn & Hd & Hc) Ed Et. rewrite Ey in Ed. injection Ed as <-.
  split; [done|]. exists r, y. rewrite fo_handle_set by done. done.
Qed.

(** The sender's node: found by its pointer, or made. *)
Definition sender_node (s : driver) (proc : Z) (fp : flat_binder_object) (n : Z) (s' : driver) : Prop :=
  refs_wf s' /\ supply_ok s' /\ same_rest s s' /\ s_refs s' = s_refs s /\
  (s_kzalloc s' = s_kzalloc s \/ s_kzalloc s' = tail (s_kzalloc s)) /\
  (forall m i, ident s m = Some i -> ident s' m = Some i) /\
  exists x, s_nodes s' !! n = Some x /\ n_proc x = Some proc /\ n_ptr x = fo_binder fp /\
    (s_nodes s !! n = None -> n_cookie x = fo_cookie fp) /\ (is_Some (s_nodes s !! n) -> s' = s).

Lemma binder_new_node_kzalloc s a ptr cookie o s' :
  binder_new_node s a ptr cookie = Ret (o, s') ->
  s_kzalloc s' = s_kzalloc s \/ s_kzalloc s' = tail (s_kzalloc s).
Proof.
  unfold binder_new_node. intros H. res_inv. destruct (kzalloc s) as [o1 s1] eqn:Ek. res_inv.
  assert (s_kzalloc s1 = tail (s_kzalloc s)) as Es1.
  { unfold kzalloc in Ek. destruct (s_kzalloc s) eqn:El; injection Ek as <- <-; [by rewrite El|done]. }
  destruct r0; [|by left; simplify_eq]. destruct o1; right; simplify_eq; done.
Qed.

Lemma same_rest_put_node s n x : same_rest s (put_node s n x).
Proof. done. Qed.

Lemma sender_node_found s proc fp n x :
  refs_wf s -> supply_ok s -> s_nodes s !! n = Some x -> n_proc x = Some proc ->
  n_ptr x = fo_binder fp -> sender_node s proc fp n s.
Proof.
  intros Hwf Hsu Ex Ep Et. do 4 (split; [done|]). split; [by left|]. split; [done|].
  exists x. do 3 (split; [done|]). split; [congruence|done].
Qed.

Lemma sender_node_new s proc p fp n s1 :
  refs_wf s -> supply_ok s -> s_procs s !! proc = Some p ->
  binder_new_node s proc (fo_binder fp) (fo_cookie fp) = Ret (Some n, s1) ->
  exists s2, upd_node s1 n (fun x =>
      set_n_accept_fds (has_flag (fo_flags fp) FLAT_BINDER_FLAG_ACCEPTS_FDS)
        (set_n_min_priority (Z.land (fo_flags fp) FLAT_BINDER_FLAG_PRIORITY_MASK mod 2 ^ 8) x)) = Ret s2 /\
    sender_node s proc fp n s2.
Proof.
  intros Hwf Hsu Hp E. pose proof (binder_new_node_kzalloc _ _ _ _ _ _ E) as Hk.
  destruct (binder_new_node_spec s proc p (fo_binder fp) (fo_cookie fp) Hwf Hsu Hp)
    as (? & ? & E' & Hwf1 & Hsu1 & Hr1 & Hrf1 & _ & _ & Hcase).
  rewrite E' in E. injection E as -> ->. destruct Hcase as (Hfree & (id & Hnodes) & _).
  assert (s_nodes s1 !! n = Some (new_node id proc (fo_binder fp) (fo_cookie fp))) as Ex
    by (rewrite Hnodes; apply lookup_insert_eq).
  unfold upd_node, get_node. rewrite (deref_Some _ _ _ Ex). cbn [res_bind].
  eexists. split; [reflexivity|].
  match goal with |- sender_node _ _ _ _ (put_node _ _ ?y) =>
    destruct (refs_wf_put_node s1 n _ y Hwf1 Hsu1 Ex) as [Hwf2 Hsu2]; try reflexivity end.
  split; [exact Hwf2|]. split; [exact Hsu2|]. split; [exact Hr1|]. split; [done|]. split; [done|].
  split.
  - intros m i Hm. rewrite (ident_put_node s1 n _ _ Ex) by done. unfold ident in *.
    rewrite Hnodes, lookup_insert_ne; [done|]. intros <-. by rewrite Hfree in Hm.
  - eexists. simpl. rewrite lookup_insert_eq. split; [reflexivity|]. do 3 (split; [done|]).
    intros [? Hn]. congruence.
Qed.

(** From the node on. *)
Lemma low_memory_later s s' :
  s_kzalloc s' = s_kzalloc s \/ s_kzalloc s' = tail (s_kzalloc s) ->
  head (s_kzalloc s') = None \/ head (s_kzalloc s') = Some None -> low_memory s.
Proof.
  intros [->| ->]; [by apply head_low_memory|]. intros H. exists 1%nat. split; [lia|].
  by destruct (s_kzalloc s) as [|? []].
Qed.

Definition kind_type (strong : bool) : Z := if strong then BINDER_TYPE_BINDER else BINDER_TYPE_WEAK_BINDER.
Definition kind_handle_type (strong : bool) : Z :=
  if strong then BINDER_TYPE_HANDLE else BINDER_TYPE_WEAK_HANDLE.

Lemma types_apart :
  BINDER_TYPE_BINDER <> BINDER_TYPE_WEAK_BINDER /\ BINDER_TYPE_BINDER <> BINDER_TYPE_HANDLE /\
  BINDER_TYPE_BINDER <> BINDER_TYPE_WEAK_HANDLE /\ BINDER_TYPE_WEAK_BINDER <> BINDER_TYPE_HANDLE /\
  BINDER_TYPE_WEAK_BINDER <> BINDER_TYPE_WEAK_HANDLE /\ BINDER_TYPE_HANDLE <> BINDER_TYPE_WEAK_HANDLE.
Proof.
  pose proof types_distinct as H. repeat (apply NoDup_cons in H as [? H]). set_solver.
Qed.

Lemma own_node_spec s proc fp :
  refs_wf s -> supply_ok s -> is_Some (s_procs s !! proc) ->
  exists o s1, own_node s proc fp = Ret (o, s1) /\
    match o with
    | Some n => sender_node s proc fp n s1
    | None => low_memory s /\ refs_wf s1 /\ supply_ok s1 /\ same_rest s s1
    end.
Proof.
  intros Hwf Hsu [p Hp]. unfold own_node.
  destruct (binder_get_node_spec s _ _ _ (rw_graph _ Hwf) proc p (fo_binder fp) Hp) as (found & -> & Hf).
  cbn [res_bind]. destruct found as [n|].
  { destruct Hf as (x & Ex & Ep & Et). exists (Some n), s. split; [done|].
    by apply (sender_node_found s proc fp n x). }
  destruct (binder_new_node_spec s proc p (fo_binder fp) (fo_cookie fp) Hwf Hsu Hp)
    as (o & s1 & E & Hwf1 & Hsu1 & Hr1 & _ & _ & _ & Ho).
  rewrite E. cbn [res_bind]. destruct o as [n|].
  - destruct (sender_node_new s proc p fp n s1 Hwf Hsu Hp E) as (s2 & -> & Hs2).
    by exists (Some n), s2.
  - exists None, s1. split; [done|]. split; [|done].
    destruct Ho as [_ [(m & x & Hx & Hxp & Hxt)|Hk]]; [by destruct (Hf m x)|].
    by apply head_low_memory.
Qed.

Lemma obj_is_kind fp strong : fo_type fp = kind_type strong -> obj_is fp BINDER_TYPE_BINDER = strong.
Proof.
  intros E. destruct types_apart as (? & _). unfold obj_is. rewrite E.
  destruct strong; simpl; [apply Z.eqb_refl|apply Z.eqb_neq; congruence].
Qed.

Lemma same_rest_live s s' a : same_rest s s' -> is_Some (s_procs s !! a) -> is_Some (s_procs s' !! a).
Proof. intros Hr H. by apply (same_rest_procs s s' a Hr). Qed.

Lemma translate_binder_spec s proc thread target_proc fp strong :
  refs_wf s -> supply_ok s -> room s ->
  is_Some (s_procs s !! proc) -> is_Some (s_procs s !! target_proc) ->
  fo_type fp = kind_type strong ->
  exists o s', translate_binder s proc thread target_proc fp = Ret (o, s') /\
    refs_wf s' /\ supply_ok s' /\ same_rest s s' /\
    match o with
    | Some fp' => exists n, ident s' n = Some (Some proc, fo_binder fp, fo_cookie fp) /\
        handle_for s' target_proc n strong (Some (ThreadTodo thread)) fp' /\
        fo_flags fp' = fo_flags fp
    | None => low_memory s \/ exists n x, s_nodes s !! n = Some x /\ n_proc x = Some proc /\
        n_ptr x = fo_binder fp /\ n_cookie x <> fo_cookie fp
    end.
Proof.
  intros Hwf Hsu Hroom Hp Htp Ety. unfold translate_binder.
  destruct (own_node_spec s proc fp Hwf Hsu Hp) as (o & s1 & -> & Ho). cbn [res_bind].
  destruct o as [n|]; [|exists None, s1; destruct Ho as (? & ? & ? & ?); by repeat (split; [done|]); left].
  destruct Ho as (Hwf1 & Hsu1 & Hr1 & Hrf1 & Hk1 & Hid1 & x & Ex & Ep & Et & Hnew & Hold).
  unfold share_node, get_node. rewrite (deref_Some _ _ _ Ex). cbn [res_bind].
  destruct (Z.eqb_spec (fo_cookie fp) (n_cookie x)) as [Ec|Ec]; simpl.
  2:{ exists None, s1. do 4 (split; [done|]). right. destruct (s_nodes s !! n) as [y|] eqn:Ey.
      - rewrite (Hold ltac:(by eexists)) in Ex. rewrite Ex in Ey. injection Ey as <-. eauto 8.
      - by rewrite Hnew in Ec. }
  destruct (same_rest_live s s1 target_proc Hr1 Htp) as [tp Etp].
  assert (room s1) as Hroom1 by (unfold room in *; by rewrite Hrf1).
  destruct (hand_over s1 target_proc tp n x strong (Some (ThreadTodo thread)) Hwf1 Hsu1 Hroom1 Etp Ex)
    as (o & s2 & -> & Hwf2 & Hsu2 & Hr2 & Ho).
  cbn [res_bind]. destruct o as [r|].
  2:{ exists None, s2. do 2 (split; [done|]). split; [done|]. split; [by transitivity s1|].
      left. by apply (low_memory_later s s1). }
  destruct Ho as (y & ret & s3 & Ey & E3 & Hwf3 & Hsu3 & Hr3 & Hid3 & Hh & Hd & _).
  unfold get_ref. rewrite (deref_Some _ _ _ Ey). cbn [res_bind].
  rewrite (obj_is_kind fp strong Ety), E3. cbn [res_bind].
  eexists _, s3. split; [reflexivity|]. do 2 (split; [done|]). split; [by transitivity s1|].
  exists n. split; [|split; [|done]].
  - rewrite Hid3. unfold ident. rewrite Ex. unfold node_ident. simpl. by rewrite Ep, Et, Ec.
  - by eapply handed_handle.
Qed.

(** A node some process holds strongly can be held by another, though nobody
    tells its owner. *)
Lemma strong_holders_pos rs l r y :
  r ∈ l -> rs !! r = Some y -> r_strong y <> 0 -> 0 < strong_holders rs l.
Proof.
  intros Hr E Hs. unfold strong_holders.
  assert (r ∈ filter (fun r => holds_strong rs r = true) l) as Hf.
  { apply list_elem_of_filter. split; [|done]. unfold holds_strong. rewrite E. simpl.
    by apply negb_true_iff, Z.eqb_neq. }
  destruct (filter _ l); [by apply not_elem_of_nil in Hf|]. simpl. lia.
Qed.

Lemma inc_ref_held s r y r' y' :
  refs_wf s -> s_refs s !! r = Some y -> s_refs s !! r' = Some y' -> r_node y' = r_node y ->
  r_strong y' <> 0 -> exists s', binder_inc_ref s r true None = Ret (0, s').
Proof.
  intros Hwf E E' En Hs. pose proof (rw_graph _ Hwf) as Hg.
  destruct (go_ref_node _ _ _ _ _ _ Hg r y E) as [x Ex].
  destruct (go_nodes _ _ _ _ _ _ Hg _ x Ex) as [_ _ _ Hrefs Hstrong].
  assert (n_internal_strong_refs x <> 0) as Hi.
  { unfold off0 in Hstrong. enough (0 < strong_holders (s_refs s) (n_refs x)) by lia.
    apply (strong_holders_pos _ _ r' y'); [|done..]. apply Hrefs. eauto. }
  unfold binder_inc_ref, get_ref. rewrite (deref_Some _ _ _ E). cbn [res_bind].
  destruct (r_strong y =? 0).
  - unfold binder_inc_node, get_node. rewrite (deref_Some _ _ _ Ex). cbn [res_bind].
    rewrite (proj2 (Z.eqb_neq _ _) Hi). simpl. unfold upd_ref, get_ref. simpl.
    rewrite (deref_Some _ _ _ E). simpl. by eexists.
  - simpl. unfold upd_ref, get_ref. rewrite (deref_Some _ _ _ E). simpl. by eexists.
Qed.

Lemma obj_is_kind_handle fp strong :
  fo_type fp = kind_handle_type strong -> obj_is fp BINDER_TYPE_HANDLE = strong.
Proof.
  intros E. destruct types_apart as (_ & _ & _ & _ & _ & ?). unfold obj_is. rewrite E.
  destruct strong; simpl; [apply Z.eqb_refl|apply Z.eqb_neq; congruence].
Qed.

(** The reference behind a handle of [proc]. *)
Definition handle_ref (s : driver) (proc h r : Z) (y : binder_ref) : Prop :=
  s_refs s !! r = Some y /\ r_proc y = proc /\ r_desc y = h.

Lemma handle_ref_unique s proc h r y r' y' :
  refs_wf s -> is_Some (s_procs s !! proc) ->
  handle_ref s proc h r y -> handle_ref s proc h r' y' -> y = y'.
Proof.
  intros Hwf [p Hp] (E & Ep & Ed) (E' & Ep' & Ed').
  destruct (go_procs _ _ _ _ _ _ (rw_graph _ Hwf) proc p Hp) as [_ _ H3 H4 _ _].
  assert (r = r') as <-; [|congruence].
  eapply sorted_by_lt_inj; [exact H4|apply H3; eauto|apply H3; eauto|].
  unfold ref_desc. by rewrite E, E'; simpl; congruence.
Qed.

Lemma translate_handle_spec s proc target_proc fp strong :
  refs_wf s -> supply_ok s -> room s ->
  is_Some (s_procs s !! proc) -> is_Some (s_procs s !! target_proc) ->
  fo_type fp = kind_handle_type strong ->
  exists o s', translate_handle s proc target_proc fp = Ret (o, s') /\
    refs_wf s' /\ supply_ok s' /\ same_rest s s' /\
    match o with
    | Some fp' => fo_flags fp' = fo_flags fp /\
        exists r y x, handle_ref s proc (fo_handle fp) r y /\ s_nodes s !! r_node y = Some x /\
        if decide (n_proc x = Some target_proc) then
          fo_type fp' = kind_type strong /\ fo_binder fp' = n_ptr x /\ fo_cookie fp' = n_cookie x
        else handle_for s' target_proc (r_node y) strong None fp' /\
          (strong = true -> r_strong y <> 0 -> exists r' y', handle_ref s' target_proc (fo_handle fp') r' y' /\
             0 < r_strong y')
    | None => (forall r y, ~ handle_ref s proc (fo_handle fp) r y) \/
        low_memory s /\ forall r y x, handle_ref s proc (fo_handle fp) r y ->
          s_nodes s !! r_node y = Some x -> n_proc x <> Some target_proc
    end.
Proof.
  intros Hwf Hsu Hroom [p Hp] [tp Htp] Ety. unfold translate_handle.
  destruct (binder_get_ref_spec s _ _ _ (rw_graph _ Hwf) (fun _ _ H => H) proc p (fo_handle fp) Hp)
    as (o & -> & Ho). cbn [res_bind]. rewrite (obj_is_kind_handle fp strong Ety).
  destruct o as [r|].
  2:{ exists None, s. do 4 (split; [done|]). left. intros r y (E & Ep & Ed). by apply (Ho r y). }
  destruct Ho as (y & Ey & Hyp & Hyd).
  destruct (go_ref_node _ _ _ _ _ _ (rw_graph _ Hwf) r y Ey) as [x Ex].
  unfold get_ref, get_node. rewrite (deref_Some _ _ _ Ey). cbn [res_bind].
  rewrite (deref_Some _ _ _ Ex). cbn [res_bind]. case_bool_decide as Hown.
  - pose proof (room_few _ Hroom) as Hfew.
    pose proof (internal_bound _ _ _ _ _ _ _ _ (rw_graph _ Hwf) Ex) as Hib.
    destruct (binder_inc_node_spec s (r_node y) x strong false None _ _ _ (rw_graph _ Hwf)
      (rw_works _ Hwf) Ex) as (ret & s1 & E1 & _ & (Hr1 & _) & _).
    { unfold off0, few_refs in *. lia. }
    destruct (inc_local_wf s (r_node y) x strong None ret s1 Hwf Hfew Hsu Ex E1) as [Hwf1 Hsu1].
    rewrite E1. cbn [res_bind]. eexists _, s1. split; [reflexivity|]. do 3 (split; [done|]).
    split; [done|]. exists r, y, x. split; [done|]. split; [done|]. rewrite decide_True by done. done.
  - destruct (hand_over s target_proc tp (r_node y) x strong None Hwf Hsu Hroom Htp Ex)
      as (o & s1 & E1 & Hwf1 & Hsu1 & Hr1 & Ho). rewrite E1. cbn [res_bind]. destruct o as [r'|].
    2:{ exists None, s1. do 4 (split; [done|]). right. split; [by apply head_low_memory|].
      intros r1 y1 x1 Hh Hx. rewrite (handle_ref_unique s proc (fo_handle fp) r y r1 y1) in Ex; try done.
      by simplify_eq. }
    destruct Ho as (y' & ret & s2 & Ey' & E2 & Hwf2 & Hsu2 & Hr2 & _ & Hh & Hd & Eyn & Hkeep & Hret).
    rewrite (deref_Some _ _ _ Ey'), E2. cbn [res_bind]. eexists _, s2. split; [reflexivity|].
    do 3 (split; [done|]). split; [done|]. exists r, y, x. do 2 (split; [done|]).
    rewrite decide_False by done. split; [by eapply handed_handle|]. intros -> Hs.
    destruct (inc_ref_held s1 r' y' r y Hwf1 Ey' (Hkeep r y Ey)) as [s3 E3]; [done|done|].
    rewrite E3 in E2. injection E2 as <- ->. destruct Hh as (z & Ez & Hz & _ & Hd' & _).
    rewrite Ez in Hd. injection Hd as Hd. exists r', z. split; [|by apply (Hret eq_refl)].
    split; [done|]. split; [done|]. rewrite <- Hd. by rewrite fo_handle_set.
Qed.

(** Writing to a process outside its trees. *)
Lemma refs_wf_put_proc s a p p' :
  refs_wf s -> supply_ok s -> s_procs s !! a = Some p -> p_nodes p' = p_nodes p ->
  p_refs_by_desc p' = p_refs_by_desc p -> p_refs_by_node p' = p_refs_by_node p ->
  refs_wf (put_proc s a p') /\ supply_ok (put_proc s a p').
Proof.
  intros [[G1 G2 G3 G4 G5 G6] H2 H3 H4] [S1 S2] Ep E1 E2 E3.
  assert (forall b, is_Some (s_procs s !! b) -> is_Some (<[a := p']> (s_procs s) !! b)) as Hl.
  { intros b Hb. rewrite lookup_insert_is_Some'. by right. }
  split; [split; [split|done..]|split; [|done]]; simpl; try done.
  - intros b q [[<- <-]|[_ Hq]]%lookup_insert_Some; [|by apply G1].
    destruct (G1 a p Ep). by split; rewrite ?E1, ?E2, ?E3.
  - intros n x Ex. destruct (G2 n x Ex). split; try done. intros b Hb. auto.
  - intros r y Ey. eauto.
  - intros b Hb Hu. apply (S1 b Hb). unfold address_used in *. simpl in *.
    rewrite lookup_insert_is_Some' in Hu. destruct Hu as [[<-|?]|Hu]; [left; by eexists|by left|by right].
Qed.

(** ** Giving objects up *)

(** What the release of objects keeps. *)
Definition releasable (proc : Z) (s : driver) : Prop :=
  refs_wf s /\ supply_ok s /\ few_refs s /\ is_Some (s_procs s !! proc).

(** Everything but the graph, the lists, the supply and the files. *)
Definition released (s s' : driver) : Prop :=
  proc_rest <$> s_procs s' = proc_rest <$> s_procs s /\
  s_threads s' = s_threads s /\ s_transactions s' = s_transactions s.

Lemma released_of_rest s s' : same_rest s s' -> released s s'.
Proof. intros (? & ? & ? & _). done. Qed.

Lemma released_live s s' a : released s s' -> is_Some (s_procs s !! a) -> is_Some (s_procs s' !! a).
Proof.
  intros (E & _) [p Hp]. assert (proc_rest <$> s_procs s' !! a = Some (proc_rest p)) as H.
  { by rewrite <- lookup_fmap, E, lookup_fmap, Hp. }
  destruct (s_procs s' !! a); [by eexists|done].
Qed.

Lemma dec_node_releasable proc s n x strong :
  releasable proc s -> s_nodes s !! n = Some x ->
  exists s', binder_dec_node s n strong false = Ret (0, s') /\ releasable proc s' /\ released s s'.
Proof.
  intros (Hwf & Hsu & Hfew & Hp) Ex.
  pose proof (internal_bound _ _ _ _ _ _ _ _ (rw_graph _ Hwf) Ex) as Hib.
  destruct (binder_dec_node_spec s n x strong false _ _ _ (rw_graph _ Hwf) (rw_works _ Hwf) Ex)
    as (s1 & E1 & _ & _ & (Hr & Rr & _) & _); [unfold off0, few_refs in *; lia|].
  destruct (dec_local_wf s n x strong 0 s1 Hwf Hfew Hsu Ex E1) as [Hwf1 Hsu1].
  exists s1. split; [done|]. apply released_of_rest in Hr. split; [|done].
  split; [done|]. split; [done|]. split; [unfold few_refs in *; by rewrite Rr|by eapply released_live].
Qed.

Lemma dec_ref_releasable proc s r y strong :
  releasable proc s -> s_refs s !! r = Some y ->
  exists ret s', binder_dec_ref s r strong = Ret (ret, s') /\ releasable proc s' /\ released s s'.
Proof.
  intros (Hwf & Hsu & Hfew & Hp) Ey.
  destruct (binder_dec_ref_spec s r y strong Hwf Hfew Ey) as (ret & s1 & E1 & Hwf1 & Hr & _ & Hcase).
  destruct (ref_step_wf s s1 Hwf Hfew Hsu) as [_ Hsu1].
  { apply (step_dec_ref s r strong ret); [by eexists|done]. }
  exists ret, s1. split; [done|]. apply released_of_rest in Hr. split; [|done].
  do 2 (split; [done|]). split; [|by eapply released_live].
  destruct Hcase as [(_ & _ & ->)|(_ & _ & _ & Heff)]; [done|].
  unfold few_refs in *. enough (size (s_refs s1) <= size (s_refs s))%nat by lia.
  rewrite <- !(size_dom (D := gset Z)). apply subseteq_size. intros m. rewrite !elem_of_dom.
  by eapply effect_sub.
Qed.

Lemma close_fd_releasable E proc s a fd :
  releasable proc s -> is_Some (s_procs s !! a) ->
  exists ret s', task_close_fd E s a fd = Ret (ret, s') /\ releasable proc s' /\ released s s'.
Proof.
  intros H [p Hp]. unfold task_close_fd, get_proc. rewrite (deref_Some _ _ _ Hp). cbn [res_bind].
  destruct (negb (p_files p)); [by eexists _, _|]. cbv zeta. eexists _, _. split; [reflexivity|].
  split; [|done]. destruct H as ([H1 H2 H3 H4] & [S1 S2] & Hfew & Hlive). done.
Qed.

Lemma release_object_ok E proc s failed fp :
  releasable proc s -> exists s', release_object E s proc failed fp = Ret s' /\
    releasable proc s' /\ released s s'.
Proof.
  intros H. assert (H' := H). destruct H' as (Hwf & _ & _ & Hp). destruct (Hp) as [p Ep].
  unfold release_object. destruct (obj_is fp BINDER_TYPE_BINDER || _).
  { destruct (binder_get_node_spec s _ _ _ (rw_graph _ Hwf) proc p (fo_binder fp) Ep) as (o & -> & Ho).
    cbn [res_bind]. destruct o as [n|]; [|by exists s].
    destruct Ho as (x & Ex & _).
    destruct (dec_node_releasable proc s n x (obj_is fp BINDER_TYPE_BINDER) H Ex) as (s1 & -> & ? & ?).
    by exists s1. }
  destruct (obj_is fp BINDER_TYPE_HANDLE || _).
  { destruct (binder_get_ref_spec s _ _ _ (rw_graph _ Hwf) (fun _ _ H => H) proc p (fo_handle fp) Ep)
      as (o & -> & Ho).
    cbn [res_bind]. destruct o as [r|]; [|by exists s].
    destruct Ho as (y & Ey & _).
    destruct (dec_ref_releasable proc s r y (obj_is fp BINDER_TYPE_HANDLE) H Ey) as (ret & s1 & -> & ? & ?).
    by exists s1. }
  destruct (obj_is fp BINDER_TYPE_FD && failed); [|by exists s].
  destruct (close_fd_releasable E proc s proc (fo_handle fp) H Hp) as (ret & s1 & -> & ? & ?).
  by exists s1.
Qed.

(** ** The theorems *)

(** C7: an object of the sender's own becomes a handle of the target's: after
    [translate_binder] the handle names, in the target, the node with the
    sender's pointer and cookie, is of the same kind, and is counted, so the
    node stays while the target holds it.  It is refused only when the cookie
    is not the one the pointer is known by, or memory is short.  Either way
    nodes and references stay consistent and nothing else changes. *)
Theorem translate_binder_correct s proc thread target_proc fp strong :
  refs_wf s -> supply_ok s -> room s ->
  is_Some (s_procs s !! proc) -> is_Some (s_procs s !! target_proc) ->
  fo_type fp = kind_type strong ->
  exists o s', translate_binder s proc thread target_proc fp = Ret (o, s') /\
    refs_wf s' /\ supply_ok s' /\ same_rest s s' /\
    match o with
    | Some fp' => exists n, ident s' n = Some (Some proc, fo_binder fp, fo_cookie fp) /\
        handle_for s' target_proc n strong (Some (ThreadTodo thread)) fp' /\
        fo_flags fp' = fo_flags fp
    | None => low_memory s \/ exists n x, s_nodes s !! n = Some x /\ n_proc x = Some proc /\
        n_ptr x = fo_binder fp /\ n_cookie x <> fo_cookie fp
    end.
Proof. apply translate_binder_spec. Qed.

(** C20: a handle keeps its node: after [translate_handle] the target is given the
    pointer and cookie of the node when it owns it, and else a handle of its
    own for the same node, of the same kind; and a strong handle sent by a
    process that holds the node strongly is counted.  It is refused only when
    the sender has no such handle or memory is short.  Nodes and references
    stay consistent and nothing else changes. *)
Theorem translate_handle_correct s proc target_proc fp strong :
  refs_wf s -> supply_ok s -> room s ->
  is_Some (s_procs s !! proc) -> is_Some (s_procs s !! target_proc) ->
  fo_type fp = kind_handle_type strong ->
  exists o s', translate_handle s proc target_proc fp = Ret (o, s') /\
    refs_wf s' /\ supply_ok s' /\ same_rest s s' /\
    match o with
    | Some fp' => fo_flags fp' = fo_flags fp /\
        exists r y x, handle_ref s proc (fo_handle fp) r y /\ s_nodes s !! r_node y = Some x /\
        if decide (n_proc x = Some target_proc) then
          fo_type fp' = kind_type strong /\ fo_binder fp' = n_ptr x /\ fo_cookie fp' = n_cookie x
        else handle_for s' target_proc (r_node y) strong None fp' /\
          (strong = true -> r_strong y <> 0 -> exists r' y', handle_ref s' target_proc (fo_handle fp') r' y' /\
             0 < r_strong y')
    | None => (forall r y, ~ handle_ref s proc (fo_handle fp) r y) \/
        low_memory s /\ forall r y x, handle_ref s proc (fo_handle fp) r y ->
          s_nodes s !! r_node y = Some x -> n_proc x <> Some target_proc
    end.
Proof. apply translate_handle_spec. Qed.

(** C8: an object sent to another process and sent back is the object that was
    sent: same kind, flags, pointer and cookie. *)
Theorem object_round_trip s proc thread peer fp strong fp1 s1 :
  refs_wf s -> supply_ok s -> room s -> room s1 ->
  is_Some (s_procs s !! proc) -> is_Some (s_procs s !! peer) ->
  fo_type fp = kind_type strong ->
  translate_binder s proc thread peer fp = Ret (Some fp1, s1) ->
  exists s2, translate_handle s1 peer proc fp1 = Ret (Some fp, s2) /\ refs_wf s2.
Proof.
  intros Hwf Hsu Hroom Hroom1 Hp Hq Ety E.
  destruct (translate_binder_spec s proc thread peer fp strong Hwf Hsu Hroom Hp Hq Ety)
    as (? & ? & E' & Hwf1 & Hsu1 & Hr1 & H).
  rewrite E' in E. injection E as -> ->.
  destruct H as (n & Hid & [Ety1 (r & y & Ey & Hyp & Hyn & Hyd & _)] & Hf).
  destruct (translate_handle_spec s1 peer proc fp1 strong Hwf1 Hsu1 Hroom1)
    as (o & s2 & E2 & Hwf2 & _ & _ & H2); [by eapply same_rest_live..|done|].
  destruct (same_rest_live s s1 peer Hr1 Hq) as [q Hq1].
  assert (handle_ref s1 peer (fo_handle fp1) r y) as Hh by done.
  unfold ident in Hid. destruct (s_nodes s1 !! n) as [x|] eqn:Ex; [|done].
  injection Hid as Epx Etx Ecx. destruct o as [fp2|].
  - destruct H2 as (Hf2 & r2 & y2 & x2 & Hh2 & Ex2 & H2).
    rewrite <- (handle_ref_unique s1 peer _ r y r2 y2 Hwf1 ltac:(eauto) Hh Hh2), Hyn, Ex in Ex2.
    injection Ex2 as <-. rewrite decide_True in H2 by done. destruct H2 as (Ht2 & Hb2 & Hc2).
    exists s2. split; [|done]. rewrite E2. do 3 f_equal. destruct fp, fp2. simpl in *. congruence.
  - destruct H2 as [H2|[_ H2]]; [by destruct (H2 r y)|]. destruct (H2 r y x Hh); [by rewrite Hyn|done].
Qed.

(** Nothing checks that a process holds strongly what it sends as a strong
    handle: when nobody holds the node strongly, [translate_handle] ignores
    that [binder_inc_ref] failed, and the receiver is given a handle whose
    reference counts nothing. *)
Theorem translate_handle_uncounted s proc target_proc fp r y x a l :
  refs_wf s -> supply_ok s -> room s ->
  is_Some (s_procs s !! proc) -> is_Some (s_procs s !! target_proc) ->
  fo_type fp = BINDER_TYPE_HANDLE -> handle_ref s proc (fo_handle fp) r y ->
  s_nodes s !! r_node y = Some x -> n_proc x <> Some target_proc ->
  n_internal_strong_refs x = 0 -> s_context_mgr_node s <> Some (r_node y) ->
  (forall m z, s_refs s !! m = Some z -> r_proc z = target_proc -> r_node z <> r_node y) ->
  s_kzalloc s = Some a :: l ->
  exists fp' s' r' y', translate_handle s proc target_proc fp = Ret (Some fp', s') /\ refs_wf s' /\
    handle_ref s' target_proc (fo_handle fp') r' y' /\ r_node y' = r_node y /\
    r_strong y' = 0 /\ r_weak y' = 0.
Proof.
  intros Hwf Hsu Hroom [p Hp] [tp Htp] Ety (Ey & Hyp & Hyd) Ex Hown Hi Hctx Hnone Hk.
  unfold translate_handle. rewrite (obj_is_kind_handle fp true Ety).
  destruct (binder_get_ref_spec s _ _ _ (rw_graph _ Hwf) (fun _ _ H => H) proc p (fo_handle fp) Hp)
    as (o & -> & Ho). cbn [res_bind]. destruct o as [r1|]; [|by destruct (Ho r y)].
  destruct Ho as (y1 & Ey1 & Hy1). unfold get_ref, get_node. rewrite (deref_Some _ _ _ Ey1). cbn [res_bind].
  rewrite <- (handle_ref_unique s proc (fo_handle fp) r y r1 y1) by done.
  rewrite (deref_Some _ _ _ Ex). cbn [res_bind]. rewrite bool_decide_eq_false_2 by done.
  destruct (binder_get_ref_for_node_spec s target_proc tp (r_node y) x Hwf Hsu (room_few _ Hroom) Htp Ex)
    as (o & s1 & E1 & Hwf1 & _ & _ & _ & _ & Ho). rewrite E1. cbn [res_bind].
  destruct o as [r'|]; [|destruct Ho as [_ [Ho|Ho]]; rewrite Hk in Ho; done].
  destruct Ho as [(_ & z & Hz & Hzp & Hzn)|(_ & _ & id & d & Hr1 & _)]; [by destruct (Hnone r' z)|].
  set (z := new_ref id target_proc (r_node y) d).
  assert (s_refs s1 !! r' = Some z) as Ez by (rewrite Hr1; apply lookup_insert_eq).
  destruct (binder_get_ref_for_node_keeps n_internal_strong_refs _ _ _ _ _ (fun _ _ => eq_refl) E1)
    as [Hkeep Hc1]. specialize (Hkeep (r_node y)). rewrite Ex in Hkeep.
  destruct (s_nodes s1 !! r_node y) as [x1|] eqn:Ex1; [|done]. injection Hkeep as Hi1.
  assert (binder_inc_ref s1 r' true None = Ret (- EINVAL, s1)) as ->.
  { unfold binder_inc_ref, get_ref. rewrite (deref_Some _ _ _ Ez). cbn [res_bind].
    unfold binder_inc_node, get_node. simpl. rewrite (deref_Some _ _ _ Ex1). cbn [res_bind].
    rewrite Hi1, Hi, bool_decide_eq_false_2 by by rewrite Hc1. done. }
  rewrite (deref_Some _ _ _ Ez). cbn [res_bind]. eexists _, s1, r', z. split; [reflexivity|].
  split; [done|]. split; [|done]. split; [done|]. split; [done|].
  rewrite fo_handle_set; [done|]. by apply (go_desc _ _ _ _ _ _ (rw_graph _ Hwf1) r' z).
Qed.

(** C21: giving up a buffer's objects never follows a stale pointer, whatever the
    objects say: unknown pointers and handles are skipped, counts are lowered
    for the others, nodes and references stay consistent, and threads,
    transactions and the rest of the processes are as they were. *)
Theorem binder_transaction_buffer_release_safe E s proc b buf failed_at :
  refs_wf s -> supply_ok s -> few_refs s -> is_Some (s_procs s !! proc) ->
  get_buf s b = Ret buf ->
  (forall n, b_target_node buf = Some n -> is_Some (s_nodes s !! n)) ->
  exists s', binder_transaction_buffer_release E s proc b failed_at = Ret s' /\
    refs_wf s' /\ supply_ok s' /\ few_refs s' /\ released s s'.
Proof.
  intros Hwf Hsu Hfew Hp Hb Hn. unfold binder_transaction_buffer_release.
  rewrite Hb. cbn [res_bind].
  assert (releasable proc s) as H by done.
  assert (exists s1, match b_target_node buf with
    | Some n => let! '(_, s) := binder_dec_node s n true false in Ret s
    | None => Ret s end = Ret s1 /\ releasable proc s1 /\ released s s1) as (s1 & -> & H1 & Hr1).
  { destruct (b_target_node buf) as [n|]; [|by exists s]. destruct (Hn n eq_refl) as [x Ex].
    destruct (dec_node_releasable proc s n x true H Ex) as (s1 & -> & ? & ?). by exists s1. }
  cbn [res_bind]. generalize (match failed_at with Some k => take k (b_offs buf) | None => b_offs buf end).
  generalize (bool_decide (is_Some failed_at)). intros failed offs. clear Hb H Hn Hwf Hsu Hfew Hp.
  revert s1 H1 Hr1. induction offs as [|off offs IH]; intros s1 H1 Hr1; simpl.
  { exists s1. destruct H1 as (? & ? & ? & ?). done. }
  destruct (bad_offset off (b_data_size buf)); [by apply IH|].
  destruct (release_object_ok E proc s1 failed (read_object (b_data buf) off) H1) as (s2 & -> & H2 & Hr2).
  apply IH; [done|]. destruct Hr1 as (? & ? & ?), Hr2 as (? & ? & ?). unfold released. intuition congruence.
Qed.

End Objects.

(** ** Witnesses *)

#[local] Existing Instance plain_rb.

Definition room_check (s : driver) : bool :=
  bool_decide (Z.of_nat (size (s_refs s)) + 1 < 2 ^ 31 - 1) &&
  bool_decide (map_Forall (fun _ y => r_strong y < 2 ^ 31 - 1 /\ r_weak y < 2 ^ 31 - 1) (s_refs s)).

Lemma room_checked s : room_check s = true -> room s.
Proof.
  unfold room_check. rewrite andb_true_iff, !bool_decide_eq_true. intros [H1 H2]. split; [done|].
  intros r y E. by apply (H2 r y).
Qed.

Definition sample_object : flat_binder_object := FlatBinderObject BINDER_TYPE_BINDER 0x17f 16 32.
Definition sample_handle : flat_binder_object := FlatBinderObject BINDER_TYPE_HANDLE 0x17f 1 32.

Definition sample_sent : driver := state_after (translate_binder sample_driver 100 300 200 sample_object).

Lemma sample_driver_procs :
  is_Some (s_procs sample_driver !! 100) /\ is_Some (s_procs sample_driver !! 200).
Proof. vm_compute. split; by eexists. Qed.

Lemma sample_sent_eq :
  translate_binder sample_driver 100 300 200 sample_object = Ret (Some sample_handle, sample_sent).
Proof. vm_compute. reflexivity. Qed.

Lemma translate_binder_correct_witness :
  exists n, ident sample_sent n = Some (Some 100, 16, 32) /\
    handle_for sample_sent 200 n true (Some (ThreadTodo 300)) sample_handle.
Proof.
  destruct (translate_binder_correct sample_driver 100 300 200 sample_object true) as (o & s' & E & H);
    [apply sample_driver_wf|apply sample_driver_wf|by apply room_checked|
     apply sample_driver_procs|apply sample_driver_procs|done|].
  rewrite sample_sent_eq in E. injection E as <- <-.
  destruct H as (_ & _ & _ & n & Hid & Hh & _). by exists n.
Defined.

Lemma object_round_trip_witness :
  exists s2, translate_handle sample_sent 200 100 sample_handle = Ret (Some sample_object, s2) /\
    refs_wf s2.
Proof.
  apply (object_round_trip sample_driver 100 300 200 sample_object true);
    [apply sample_driver_wf|apply sample_driver_wf|by apply room_checked|by apply room_checked|
     apply sample_driver_procs|apply sample_driver_procs|done|apply sample_sent_eq].
Defined.

Lemma translate_handle_correct_witness :
  exists o s', translate_handle sample_held 200 100 sample_handle = Ret (o, s') /\ refs_wf s'.
Proof.
  destruct (translate_handle_correct sample_held 200 100 sample_handle true) as (o & s' & E & H & _);
    [apply sample_held_ok|apply sample_held_ok|by apply room_checked|
     apply sample_held_procs|apply sample_held_procs|done|].
  by exists o, s'.
Defined.

(** Process 200 has the node of process 100 weakly and sends it to 250. *)
Definition sample_driver3 : driver := put_proc sample_driver 250 (sample_binder_proc 3).
Definition sample3_node : driver := state_after (binder_new_node sample_driver3 100 16 32).
Definition sample3_ref : driver := state_after (binder_get_ref_for_node sample3_node 200 1000).
Definition sample3_weak : driver :=
  state_after (binder_inc_ref sample3_ref 1001 false (Some (ThreadTodo 300))).

Lemma sample_driver3_wf : refs_wf sample_driver3 /\ supply_ok sample_driver3.
Proof.
  destruct sample_driver_wf as [[[G1 G2 G3 G4 G5 G6] H2 H3 H4] [S1 S2]].
  split; [split; [split|split|..]|split]; simpl; try done.
  - intros a p [[<- <-]|[_ Hp]]%lookup_insert_Some; [|by apply G1].
    split; simpl; try constructor; try (by intros ?%not_elem_of_nil);
      by intros (? & ?%lookup_empty_Some & _).
  - intros a Ha Hu. apply (S1 a Ha). unfold address_used in *. simpl in *.
    rewrite lookup_insert_is_Some' in Hu. destruct Hu as [[<-|?]|Hu]; [|by left|by right].
    assert (250 = 1000 \/ 250 = 1001 \/ 250 = 1002) by set_solver. lia.
Qed.

Lemma sample3_weak_wf : refs_wf sample3_weak /\ supply_ok sample3_weak.
Proof.
  destruct sample_driver3_wf as [H1 H2].
  destruct (ref_step_wf sample_driver3 sample3_node) as [H3 H4]; [done..| |].
  { apply (step_new_node _ 100 16 32 (Some 1000)); [by eexists|vm_compute; reflexivity]. }
  destruct (ref_step_wf sample3_node sample3_ref) as [H5 H6]; [done..| |].
  { apply (step_get_ref_for_node _ 200 1000 (Some 1001));
      [vm_compute; by eexists..|vm_compute; reflexivity]. }
  apply (ref_step_wf sample3_ref); [done..|].
  apply (step_inc_ref _ 1001 (BinderRef 2 200 1000 1 0 0 None) false (Some (ThreadTodo 300)) 0);
    [vm_compute; reflexivity|done|vm_compute; reflexivity].
Qed.

Lemma translate_handle_uncounted_witness :
  exists fp' s' r' y', translate_handle sample3_weak 200 250 sample_handle = Ret (Some fp', s') /\
    refs_wf s' /\ handle_ref s' 250 (fo_handle fp') r' y' /\ r_node y' = 1000 /\
    r_strong y' = 0 /\ r_weak y' = 0.
Proof.
  apply (translate_handle_uncounted sample3_weak 200 250 sample_handle 1001
    (BinderRef 2 200 1000 1 0 1 None)
    (BinderNode 1 (Some 100) [1001] 0 0 0 16 32 false false false false false false 0) 1002 []);
    [apply sample3_weak_wf|apply sample3_weak_wf|by apply room_checked|vm_compute; by eexists|
     vm_compute; by eexists|done|vm_compute; done|vm_compute; done|done|done|vm_compute; done| |
     vm_compute; done].
  intros m z Hz Hp. assert (map_Forall (fun _ z => r_proc z <> 250) (s_refs sample3_weak)) as H.
  { apply (bool_decide_unpack _). vm_compute. done. }
  by destruct (H m z Hz).
Defined.

(** The buffer of a transaction with two objects: one known to the process, one
    not. *)
Definition sample_release : driver :=
  put_proc sample_held 200
    (set_p_mem
       (ProcMem None None 0 0
          [BinderBuffer 4096 false true false 1 None (Some 1000) 48 16
             (fo_encode sample_handle ++ fo_encode sample_object) [0; 24]]
          RbLeaf RbLeaf 0 ∅ 0)
       (default (sample_binder_proc 2) (s_procs sample_held !! 200))).

Definition sample_kenv : kenv :=
  Kenv (fun _ => sample_mm) (fun _ => true) 0 (fun _ => 0) (fun _ => 0) (fun x => x)
    (fun _ => None) (fun _ => true) (fun _ => 0) (fun _ _ _ _ _ => 0) (fun _ _ _ => 0).

Lemma sample_release_ok : refs_wf sample_release /\ supply_ok sample_release.
Proof.
  destruct sample_held_ok. destruct sample_held_procs as [_ [p Hp]].
  unfold sample_release. rewrite Hp. by apply (refs_wf_put_proc sample_held 200 p).
Qed.

Lemma binder_transaction_buffer_release_safe_witness :
  exists s', binder_transaction_buffer_release sample_kenv sample_release 200 (200, 4096) None = Ret s' /\
    refs_wf s'.
Proof.
  edestruct (binder_transaction_buffer_release_safe sample_kenv sample_release 200 (200, 4096))
    as (s' & E & H & _); [apply sample_release_ok|apply sample_release_ok|done|vm_compute; by eexists|
    vm_compute; reflexivity| |by exists s'].
  intros n [= <-]. vm_compute. by eexists.
Defined.
