(* ===== verification/CommandThms.v ===== *)
(** * CommandThms: what a write of commands does

    Theorems about [binder_thread_write]: it ends, and what it reports as
    consumed is exactly the commands it carried out. *)

From S2P Require Import Prelude RbTree BufferAlloc DriverState NodeRef Uapi Transaction ThreadWrite ThreadRead ReplyThms ObjectThms Never.

Section Commands.
Context `{RL : RbLib} `{U : BinderUapi}.

(** The most bytes a command takes after its number. *)
Definition longest_command : Z := 16 + sizeof_transaction_data.

Lemma write_refs_advance s m p c ptr ptr' s' :
  write_refs s m p c ptr = Ret (Next ptr', s') -> ptr' = u64 (ptr + 4).
Proof. unfold write_refs, fault. intros. returns. Qed.

Lemma write_done_advance s m p c ptr ptr' s' :
  write_done s m p c ptr = Ret (Next ptr', s') -> ptr' = u64 (ptr + 16).
Proof. unfold write_done, fault. intros. returns. Qed.

Lemma write_free_buffer_advance E s m p th ptr ptr' s' :
  write_free_buffer E s m p th ptr = Ret (Next ptr', s') -> ptr' = u64 (ptr + 8).
Proof. unfold write_free_buffer, fault. intros. returns. Qed.

Lemma write_transaction_advance E s m p th c ptr ptr' s' :
  write_transaction E s m p th c ptr = Ret (Next ptr', s') ->
  ptr' = u64 (ptr + sizeof_transaction_data).
Proof. unfold write_transaction, fault. intros. returns. Qed.

Lemma write_death_advance s m p th c ptr ptr' s' :
  write_death s m p th c ptr = Ret (Next ptr', s') -> ptr' = u64 (ptr + 12).
Proof. unfold write_death, fault. intros. returns. Qed.

Lemma write_dead_done_advance s m p th ptr ptr' s' :
  write_dead_done s m p th ptr = Ret (Next ptr', s') -> ptr' = u64 (ptr + 8).
Proof. unfold write_dead_done, fault. intros. returns. Qed.

(** Where a command leaves the pointer. *)
Lemma write_command_advance E s m proc thread cmd ptr ptr' s' :
  write_command E s m proc thread cmd ptr = Ret (Next ptr', s') ->
  ptr' = ptr \/ exists d, 0 <= d <= longest_command /\ ptr' = u64 (ptr + d).
Proof.
  pose proof sizeof_td_pos as Htd. unfold longest_command, write_command. intros H.
  repeat match type of H with (if ?c then _ else _) = _ => destruct c end; try discriminate H;
    try (left; returns; done); right.
  - exists 4. apply write_refs_advance in H. split; [lia|done].
  - exists 16. apply write_done_advance in H. split; [lia|done].
  - exists 8. apply write_free_buffer_advance in H. split; [lia|done].
  - exists sizeof_transaction_data. apply write_transaction_advance in H. split; [lia|done].
  - exists 12. apply write_death_advance in H. split; [lia|done].
  - exists 8. apply write_dead_done_advance in H. split; [lia|done].
Qed.

(** One command carried out: it is only begun while the thread has no error. *)
Inductive write_step (E : kenv) (m : user_memory) (proc thread end_ : Z)
    : driver * Z -> driver * Z -> Prop :=
| a_command s ptr th cmd s' ptr' :
    s_threads s !! thread = Some th -> t_return_error th = BR_OK -> ptr < end_ ->
    get_user32 m ptr = Some cmd ->
    write_command E s m proc thread cmd (u64 (ptr + 4)) = Ret (Next ptr', s') ->
    write_step E m proc thread end_ (s, ptr) (s', ptr').

(** How the loop ends at [ptr], in state [s]. *)
Definition write_end (E : kenv) (m : user_memory) (proc thread end_ : Z) (s : driver) (ptr : Z)
    (ret : Z) (s' : driver) : Prop :=
  exists th, s_threads s !! thread = Some th /\
  if (ptr <? end_) && (t_return_error th =? BR_OK) then
    match get_user32 m ptr with
    | None => ret = - EFAULT /\ s' = s
    | Some cmd => write_command E s m proc thread cmd (u64 (ptr + 4)) = Ret (Return ret, s')
    end
  else ret = 0 /\ s' = s.

Lemma write_loop_spec E m proc thread buffer end_ fuel : forall s ptr,
  0 <= buffer -> end_ + 4 + longest_command < 2 ^ 64 ->
  buffer <= ptr < 2 ^ 64 -> end_ - ptr <= Z.of_nat fuel ->
  match write_loop fuel E s m proc thread buffer ptr end_ (ptr - buffer) with
  | Bug k => k <> -3
  | Ret (ret, consumed, s') => exists s1, write_end E m proc thread end_ s1 (buffer + consumed) ret s' /\
      rtc (write_step E m proc thread end_) (s, ptr) (s1, buffer + consumed)
  end.
Proof.
  pose proof sizeof_td_pos as Htd. assert (0 <= longest_command) as Hlc by (unfold longest_command; lia).
  induction fuel as [|fuel IH]; intros s ptr Hb Hend Hptr Hf; simpl;
    (unfold get_thread, deref; destruct (s_threads s !! thread) as [th|] eqn:Eth; simpl; [|done]).
  { rewrite (proj2 (Z.ltb_ge ptr end_)) by lia. simpl. replace (buffer + (ptr - buffer)) with ptr by lia.
    exists s. split; [|done]. exists th. split; [done|]. by rewrite (proj2 (Z.ltb_ge ptr end_)) by lia. }
  assert (forall ret s', write_end E m proc thread end_ s ptr ret s' ->
    exists s1, write_end E m proc thread end_ s1 (buffer + (ptr - buffer)) ret s' /\
      rtc (write_step E m proc thread end_) (s, ptr) (s1, buffer + (ptr - buffer))) as Hstop.
  { intros ret s' H. replace (buffer + (ptr - buffer)) with ptr by lia. by exists s. }
  destruct ((ptr <? end_) && (t_return_error th =? BR_OK)) eqn:Ec.
  2:{ apply Hstop. exists th. split; [done|]. by rewrite Ec. }
  destruct (get_user32 m ptr) as [cmd|] eqn:Ecmd.
  2:{ apply Hstop. exists th. split; [done|]. by rewrite Ec, Ecmd. }
  destruct (write_command E s m proc thread cmd (u64 (ptr + 4))) as [[[ptr'|ret] s']|k] eqn:Ew; simpl.
  - assert (Hc := Ec). apply andb_true_iff in Hc as [Hlt%Z.ltb_lt Hok%Z.eqb_eq].
    assert (exists d, 0 <= d <= longest_command /\ ptr' = ptr + 4 + d) as (d & Hd & ->).
    { destruct (write_command_advance _ _ _ _ _ _ _ _ _ Ew) as [->|(d & Hd & ->)].
      - exists 0. split; [lia|]. rewrite u64_small by lia. lia.
      - exists d. split; [lia|]. rewrite u64_add_l, u64_small; lia. }
    rewrite u64_small by lia. specialize (IH s' (ptr + 4 + d) Hb Hend ltac:(lia) ltac:(lia)).
    destruct (write_loop _ _ _ _ _ _ _ _ _ _) as [[[ret consumed] s2]|k]; [|done].
    destruct IH as (s1 & H1 & H2). exists s1. split; [done|].
    eapply rtc_l; [|exact H2]. by eapply a_command.
  - apply Hstop. exists th. split; [done|]. by rewrite Ec, Ecmd.
  - intros ->. by eapply never_write_command in Ew.
Qed.

(** C9: [binder_thread_write] ends, and [consumed] marks a command boundary:
    what the state went through is exactly the commands before it, each begun
    while the thread had no error to report; the call stops there because the
    buffer is used up, the thread has an error to read, the next command is
    unreadable, or the next command failed.  The buffer is assumed to lie in
    user space, below the end of the address range. *)
Theorem binder_thread_write_correct E s m proc thread buffer size consumed :
  0 <= buffer -> 0 <= size -> 0 <= consumed -> buffer + consumed < 2 ^ 64 ->
  buffer + size + 4 + longest_command < 2 ^ 64 ->
  match binder_thread_write E s m proc thread buffer size consumed with
  | Bug k => k <> -3
  | Ret (ret, consumed', s') => exists s1,
      write_end E m proc thread (buffer + size) s1 (buffer + consumed') ret s' /\
      rtc (write_step E m proc thread (buffer + size)) (s, buffer + consumed)
        (s1, buffer + consumed')
  end.
Proof.
  intros Hb Hs Hc Hbc Hbs. pose proof sizeof_td_pos as Htd. unfold binder_thread_write.
  assert (0 <= longest_command) as Hlc by (unfold longest_command; lia).
  rewrite !u64_small by lia.
  pose proof (write_loop_spec E m proc thread buffer (buffer + size) (Z.to_nat size) s
    (buffer + consumed)) as H.
  replace (buffer + consumed - buffer) with consumed in H by lia. apply H; lia.
Qed.

End Commands.

(** ** Witnesses *)

#[local] Existing Instance plain_rb.

(** Thread 302 of process 200 enters the looper and asks for something the
    driver does not know. *)
Definition sample_commands : user_memory :=
  write_bytes ∅ 4096 (le_encode 4 BC_ENTER_LOOPER ++ le_encode 4 BC_EXIT_LOOPER ++ le_encode 4 17).

Lemma binder_thread_write_correct_witness :
  exists s1 s', binder_thread_write sample_kenv sample_calls sample_commands 200 302 4096 12 0 =
      Ret (- EINVAL, 8, s') /\
    rtc (write_step sample_kenv sample_commands 200 302 4108) (sample_calls, 4096) (s1, 4104).
Proof.
  assert (4096 + 12 + 4 + longest_command < 2 ^ 64) as Hend by (unfold longest_command; simpl; lia).
  pose proof (binder_thread_write_correct sample_kenv sample_calls sample_commands 200 302 4096 12 0
    ltac:(lia) ltac:(lia) ltac:(lia) ltac:(lia) Hend) as H.
  assert (exists s', binder_thread_write sample_kenv sample_calls sample_commands 200 302 4096 12 0 =
    Ret (- EINVAL, 8, s')) as [s' E] by (eexists; vm_compute; reflexivity).
  rewrite E in H. destruct H as (s1 & _ & H). by exists s1, s'.
Defined.
