(* ===== verification/ReadThms.v ===== *)
(** * ReadThms: what a read delivers

    Theorems about [binder_thread_read]: the commands that keep a node's owner
    up to date, the end of the read loop, and the transaction a server is
    handed. *)

From S2P Require Import Prelude RbTree BufferAlloc DriverState NodeRef NodeRefThms Uapi Transaction ThreadWrite ThreadRead ReplyThms ObjectThms Never.

Section Reads.
Context `{RL : RbLib} `{U : BinderUapi}.

(** ** Commands about nodes *)

(** What the owner has been told agrees with the counts. *)
Definition node_settled (n : binder_node) : Prop :=
  n_has_strong_ref n = node_strong n /\ n_has_weak_ref n = node_weak n.

(** The commands still to come, at most. *)
Definition node_rank (n : binder_node) : nat :=
  let w := node_weak n in let st := node_strong n in
  let hw := n_has_weak_ref n in let hs := n_has_strong_ref n in
  if st then (if hw then 0 else 1) + (if hs then 0 else 1) + 2
  else if w then (if hw then 0 else 1) + (if hs then 1 else 0) + 1
  else (if hw then 1 else 0) + (if hs then 1 else 0).

Lemma strong_weak n : node_strong n = true -> node_weak n = true.
Proof. intros H. unfold node_weak. by rewrite H, orb_true_r. Qed.

Lemma returns_apart :
  BR_INCREFS <> BR_NOOP /\ BR_ACQUIRE <> BR_NOOP /\ BR_RELEASE <> BR_NOOP /\ BR_DECREFS <> BR_NOOP.
Proof.
  pose proof returns_distinct as H. do 7 (apply NoDup_cons in H as [_ H]).
  repeat (apply NoDup_cons in H as [? H]). set_solver.
Qed.

Lemma node_rank_bound n : (node_rank n <= 4)%nat.
Proof.
  unfold node_rank. destruct (node_strong n), (node_weak n), (n_has_weak_ref n), (n_has_strong_ref n);
    simpl; lia.
Qed.

(** What a command changes of what the owner is told. *)
Lemma node_views n v :
  node_strong (set_n_local_weak_refs v (set_n_pending_weak_ref true (set_n_has_weak_ref true n))) =
    node_strong n /\
  (node_strong (set_n_has_strong_ref false n) = node_strong n /\
   node_weak (set_n_has_strong_ref false n) = node_weak n) /\
  node_strong (set_n_has_weak_ref false n) = node_strong n /\
  node_weak (set_n_has_weak_ref false n) = node_weak n.
Proof. done. Qed.

Lemma node_command_rank n :
  (node_command n).1 <> BR_NOOP -> (node_rank (node_command n).2 < node_rank n)%nat.
Proof.
  unfold node_command. pose proof (strong_weak n) as Hsw.
  pose proof (node_views n (i32 (n_local_weak_refs n + 1))) as (V1 & (V2 & V3) & V4 & V5).
  destruct (node_weak n && negb (n_has_weak_ref n)) eqn:C1; [|
    destruct (node_strong n && negb (n_has_strong_ref n)) eqn:C2; [|
      destruct (negb (node_strong n) && n_has_strong_ref n) eqn:C3; [|
        destruct (negb (node_weak n) && n_has_weak_ref n) eqn:C4; [|done]]]];
    intros _; cbn [fst snd]; unfold node_rank; rewrite ?V1, ?V2, ?V3, ?V4, ?V5;
    cbn [n_has_weak_ref n_has_strong_ref set_n_local_weak_refs set_n_pending_weak_ref
      set_n_has_weak_ref set_n_local_strong_refs set_n_pending_strong_ref set_n_has_strong_ref].
  - destruct (node_weak n), (n_has_weak_ref n), (node_strong n), (n_has_strong_ref n); try done;
      repeat match goal with |- context [node_weak ?x] => destruct (node_weak x) end; simpl; lia.
  - match goal with |- context [node_strong ?x] => pose proof (strong_weak x); destruct (node_strong x) end;
      destruct (node_weak n), (n_has_weak_ref n), (node_strong n), (n_has_strong_ref n); try done;
      try (by specialize (Hsw eq_refl));
      repeat match goal with |- context [node_weak ?x] => destruct (node_weak x) end; simpl; lia.
  - destruct (node_weak n), (n_has_weak_ref n), (node_strong n), (n_has_strong_ref n); try done;
      simpl; lia.
  - destruct (node_weak n), (n_has_weak_ref n), (node_strong n), (n_has_strong_ref n); try done;
      try (by specialize (Hsw eq_refl)); simpl; lia.
Qed.

(** The owner's view of its node: whether it has been told to keep it weakly,
    and strongly. *)
Definition owner_view (n : binder_node) : bool * bool := (n_has_weak_ref n, n_has_strong_ref n).

Definition owner_told (cmd : Z) (v : bool * bool) : bool * bool :=
  if cmd =? BR_INCREFS then (true, v.2)
  else if cmd =? BR_ACQUIRE then (v.1, true)
  else if cmd =? BR_RELEASE then (v.1, false)
  else if cmd =? BR_DECREFS then (false, v.2)
  else v.

Lemma node_commands_apart :
  NoDup [BR_INCREFS; BR_ACQUIRE; BR_RELEASE; BR_DECREFS; BR_NOOP].
Proof.
  pose proof returns_distinct as H.
  do 7 (apply NoDup_cons in H as [_ H]). apply NoDup_cons in H as [N1 H].
  apply NoDup_cons in H as [N2 H]. apply NoDup_cons in H as [N3 H]. apply NoDup_cons in H as [N4 H].
  repeat (apply NoDup_cons; split; [set_solver|]). by apply NoDup_nil.
Qed.

Lemma owner_told_cases v :
  owner_told BR_INCREFS v = (true, v.2) /\ owner_told BR_ACQUIRE v = (v.1, true) /\
  owner_told BR_RELEASE v = (v.1, false) /\ owner_told BR_DECREFS v = (false, v.2) /\
  owner_told BR_NOOP v = v.
Proof.
  pose proof node_commands_apart as H. unfold owner_told.
  apply NoDup_cons in H as [N1 H]. apply NoDup_cons in H as [N2 H]. apply NoDup_cons in H as [N3 H].
  apply NoDup_cons in H as [N4 _]. rewrite !Z.eqb_refl.
  repeat match goal with |- context [?a =? ?b] => rewrite (proj2 (Z.eqb_neq a b)) by set_solver end.
  done.
Qed.

(** The local counts are counts, with room for [k] more. *)
Definition counts_room (k : Z) (n : binder_node) : Prop :=
  0 <= n_local_weak_refs n < 2 ^ 31 - k /\ 0 <= n_local_strong_refs n < 2 ^ 31 - k.

(** The commands as seen from outside: the counts stay positive or zero as they
    were, and one flag moves. *)
Lemma node_command_step n : counts_room 1 n ->
  let n' := (node_command n).2 in
  node_strong n' = node_strong n /\ node_weak n' = node_weak n /\ counts_room 0 n' /\
  (n_has_weak_ref n', n_has_strong_ref n') =
    if node_weak n && negb (n_has_weak_ref n) then (true, n_has_strong_ref n)
    else if node_strong n && negb (n_has_strong_ref n) then (n_has_weak_ref n, true)
    else if negb (node_strong n) && n_has_strong_ref n then (n_has_weak_ref n, false)
    else if negb (node_weak n) && n_has_weak_ref n then (false, n_has_strong_ref n)
    else (n_has_weak_ref n, n_has_strong_ref n).
Proof.
  intros [Hw Hs]. unfold node_command.
  pose proof (node_views n (i32 (n_local_weak_refs n + 1))) as (V1 & (V2 & V3) & V4 & V5).
  destruct (node_weak n && negb (n_has_weak_ref n)) eqn:C1; [|
    destruct (node_strong n && negb (n_has_strong_ref n)) eqn:C2; [|
      destruct (negb (node_strong n) && n_has_strong_ref n) eqn:C3; [|
        destruct (negb (node_weak n) && n_has_weak_ref n) eqn:C4]]]; cbn [snd]; cbv zeta.
  - apply andb_true_iff in C1 as [Ew _]. split; [done|]. split; [|split; [|done]].
    + rewrite Ew. unfold node_weak. rewrite V1. simpl. rewrite i32_small by lia.
      rewrite (proj2 (Z.eqb_neq (_ + 1) 0)) by lia. by rewrite orb_true_r.
    + unfold counts_room. simpl. rewrite i32_small by lia. lia.
  - apply andb_true_iff in C2 as [Es _].
    assert (node_strong (set_n_local_strong_refs (i32 (n_local_strong_refs n + 1))
      (set_n_pending_strong_ref true (set_n_has_strong_ref true n))) = true) as Hs'.
    { unfold node_strong. simpl. rewrite i32_small by lia.
      rewrite (proj2 (Z.eqb_neq (_ + 1) 0)) by lia. by rewrite orb_true_r. }
    split; [by rewrite Es|]. split; [by rewrite !strong_weak|]. split; [|done].
    unfold counts_room. simpl. rewrite i32_small by lia. lia.
  - do 2 (split; [done|]). split; [|done]. unfold counts_room. simpl. lia.
  - do 2 (split; [done|]). split; [|done]. unfold counts_room. simpl. lia.
  - do 2 (split; [done|]). split; [|done]. unfold counts_room. lia.
Qed.

(** C12: the commands about a node bring its owner's view up to date and keep it
    sound.  There is nothing to say exactly when the view agrees with the
    counts; otherwise one command changes one part of the view and only that;
    two commands are enough; an owner is never asked to hold a node strongly
    that it does not hold weakly; and what the driver itself knows of the
    node's identity and references is untouched. *)
Theorem node_command_protocol n : counts_room 2 n ->
  let '(cmd, n') := node_command n in
  (cmd = BR_NOOP <-> node_settled n) /\ (cmd = BR_NOOP -> n' = n) /\
  owner_view n' = owner_told cmd (owner_view n) /\
  (cmd <> BR_NOOP -> owner_view n' <> owner_view n) /\
  ((n_has_strong_ref n = true -> n_has_weak_ref n = true) ->
     n_has_strong_ref n' = true -> n_has_weak_ref n' = true) /\
  node_settled (node_command n').2 /\
  node_ident n' = node_ident n /\ n_refs n' = n_refs n /\
  n_internal_strong_refs n' = n_internal_strong_refs n.
Proof.
  intros Hc. assert (counts_room 1 n) as Hc1 by (unfold counts_room in *; lia).
  pose proof (node_command_step n Hc1) as H. cbv zeta in H. destruct H as (Hs & Hw & Hr & Hv).
  pose proof (owner_told_cases (owner_view n)) as (T1 & T2 & T3 & T4 & T5).
  pose proof returns_apart as (A1 & A2 & A3 & A4). pose proof (strong_weak n) as Hsw.
  assert (counts_room 1 (node_command n).2) as Hc'.
  { unfold node_command, counts_room in *.
    repeat match goal with |- context [if ?c then _ else _] => destruct c end; simpl;
      rewrite ?i32_small; lia. }
  pose proof (node_command_step (node_command n).2 Hc') as H2. cbv zeta in H2.
  destruct H2 as (Hs2 & Hw2 & _ & Hv2).
  assert (node_settled (node_command (node_command n).2).2) as Hset.
  { unfold node_settled. rewrite Hs2, Hw2, Hs, Hw in *.
    destruct (node_command n) as [cmd n'], (node_command n') as [cmd2 n2]. cbn [snd] in *.
    destruct (node_weak n), (node_strong n), (n_has_weak_ref n), (n_has_strong_ref n);
      try (by specialize (Hsw eq_refl)); simpl in Hv; injection Hv as E1 E2; rewrite E1, E2 in Hv2;
      by injection Hv2 as -> ->. }
  destruct (node_command n) as [cmd n'] eqn:E. cbn [snd] in *. unfold node_command in E.
  unfold node_settled, owner_view in *. unfold node_ident.
  destruct (node_weak n), (node_strong n), (n_has_weak_ref n), (n_has_strong_ref n);
    try (by specialize (Hsw eq_refl)); simpl in E; injection E as <- <-; simpl in *;
    rewrite ?T1, ?T2, ?T3, ?T4, ?T5; simpl; repeat split; try done; try congruence; try naive_solver.
Qed.

(** ** The loop ends *)

Definition total_work (s : driver) (f : read_frame) : nat :=
  length (work_list s (ThreadTodo (fr_thread f))) + length (work_list s (ProcTodo (fr_proc f))).

(** The turns the loop may still take. *)
Definition read_turns (s : driver) (f : read_frame) : nat :=
  match next_work s f with
  | None => 1
  | Some (WNode n) =>
      match s_nodes s !! n with
      | Some x => 5 * (total_work s f - 1) + node_rank x + 2
      | None => 1
      end
  | Some _ => 5 * (total_work s f - 1) + 2
  end.

Lemma next_work_in s f w : next_work s f = Some w ->
  w ∈ work_list s (ThreadTodo (fr_thread f)) \/ w ∈ work_list s (ProcTodo (fr_proc f)).
Proof.
  unfold next_work. destruct (work_list s (ThreadTodo _)) as [|v l].
  - destruct (fr_wait_for_proc_work f); [|done]. intros H. right.
    apply head_Some in H as [l ->]. by left.
  - intros [= ->]. left. by left.
Qed.

Lemma read_turns_bound s f : (read_turns s f <= 5 * total_work s f + 1)%nat.
Proof.
  unfold read_turns. destruct (next_work s f) as [w|] eqn:E; [|lia].
  assert (1 <= total_work s f)%nat.
  { unfold total_work. destruct (next_work_in s f w E) as [H|H];
      apply list_elem_of_split in H as (l1 & l2 & ->); rewrite length_app; simpl; lia. }
  destruct w; try lia. destruct (s_nodes s !! n) as [x|]; [|lia].
  pose proof (node_rank_bound x). lia.
Qed.

Lemma filter_out_length (w : work) l : (length (filter (.≠ w) l) <= length l)%nat /\
  (w ∈ l -> (length (filter (.≠ w) l) < length l)%nat).
Proof.
  split; [apply length_filter|]. intros H. apply list_elem_of_split in H as (l1 & l2 & ->).
  rewrite filter_app, filter_cons_False, !length_app by (intros H; by apply H). simpl.
  pose proof (length_filter (.≠ w) l1). pose proof (length_filter (.≠ w) l2). lia.
Qed.

(** Taking the item off its list shortens the lists. *)
Lemma read_turns_taken s f w s' f' : next_work s f = Some w ->
  s_lists s' = s_lists (list_del s w) -> fr_thread f' = fr_thread f -> fr_proc f' = fr_proc f ->
  (read_turns s' f' <= 5 * (total_work s f - 1) + 1)%nat.
Proof.
  intros E El Et Ep. pose proof (read_turns_bound s' f') as Hb.
  assert (forall l, work_list s' l = filter (.≠ w) (work_list s l)) as Hl.
  { intros l. rewrite <- work_list_del. unfold work_list. by rewrite El. }
  unfold total_work in *. rewrite Et, Ep, !Hl in Hb.
  destruct (filter_out_length w (work_list s (ThreadTodo (fr_thread f)))) as [T1 T2].
  destruct (filter_out_length w (work_list s (ProcTodo (fr_proc f)))) as [P1 P2].
  destruct (next_work_in s f w E) as [H|H]; [specialize (T2 H)|specialize (P2 H)]; lia.
Qed.

Lemma read_work_turns E s m f w ptr ptr' s' m' : next_work s f = Some w ->
  read_work E s m (fr_proc f) (fr_thread f) w ptr = Ret (Continue ptr', s', m') ->
  (read_turns s' (set_fr_ptr ptr' f) < read_turns s f)%nat.
Proof.
  intros Hw H. assert (forall s1, s_lists s1 = s_lists (list_del s w) ->
    (read_turns s1 (set_fr_ptr ptr' f) <= 5 * (total_work s f - 1) + 1)%nat) as Htaken.
  { intros s1 E1. by apply (read_turns_taken s f w). }
  assert (read_turns s f = match w with
    | WNode n => match s_nodes s !! n with
                 | Some x => 5 * (total_work s f - 1) + node_rank x + 2 | None => 1 end
    | _ => 5 * (total_work s f - 1) + 2 end)%nat as Et by (unfold read_turns; by rewrite Hw).
  destruct w as [t|c|n|d]; unfold read_work in H; simpl in H.
  - unfold read_transaction in H. returns.
  - rewrite Et. destruct (put_user32 m ptr BR_TRANSACTION_COMPLETE); simplify_eq.
    specialize (Htaken _ eq_refl). lia.
  - unfold read_node in H. res_inv. apply deref_Ret in E0. rewrite E0 in Et. rewrite Et.
    pose proof (node_command_rank r) as Hrank. destruct (node_command r) as [cmd n'].
    cbn [fst snd] in Hrank. destruct (Z.eqb_spec cmd BR_NOOP) as [Ec|Ec]; simpl in H.
    + assert (s_lists s' = s_lists (list_del s (WNode n))) as El.
      { destruct (negb (node_weak r) && negb (node_strong r)); [|by simplify_eq].
        res_inv. apply upd_proc_Ret in E1 as (p & _ & ->). unfold kfree_node in E2. res_inv.
        by simplify_eq. }
      specialize (Htaken s' El). lia.
    + destruct (put_words m ptr _) as [[ok ptr1] m1]. destruct ok; simplify_eq.
      unfold read_turns. change (next_work (put_node s n n') (set_fr_ptr ptr' f)) with (next_work s f).
      rewrite Hw. simpl. rewrite lookup_insert_eq. specialize (Hrank Ec).
      change (total_work (put_node s n n') (set_fr_ptr ptr' f)) with (total_work s f). lia.
  - rewrite Et. unfold read_death in H. res_inv. destruct (put_words m ptr _) as [[ok ptr1] m1].
    destruct ok; simpl in H; [|by simplify_eq]. case_bool_decide; [|by simplify_eq].
    unfold kfree_death in H. res_inv. simplify_eq.
    match goal with |- (read_turns ?s1 _ < _)%nat => specialize (Htaken s1 eq_refl) end. lia.
Qed.

Lemma read_loop_ends E fuel : forall s m f, (read_turns s f <= fuel)%nat ->
  never (-4) (read_loop fuel E s m f).
Proof.
  induction fuel as [|fuel IH]; intros s m f Hf.
  { unfold read_turns in Hf. exfalso. revert Hf. repeat case_match; lia. }
  simpl. destruct (next_work s f) as [w|] eqn:Ew.
  - destruct (u64 (fr_end f - fr_ptr f) <? sizeof_transaction_data + 4); [auto with never|].
    apply never_bind; [apply never_read_work; lia|]. intros [[k s1] m1] Er.
    destruct k as [ptr|ptr|]; [|auto with never|done].
    apply IH. pose proof (read_work_turns E s m f w _ _ _ _ Ew Er). lia.
  - apply never_bind; [auto with never|]. intros th _. destruct (_ && _); auto with never.
Qed.

(** C24: a call of [binder_thread_read] always comes back: it returns or waits,
    whatever is on the lists, however often the counts of a node wrap. *)
Theorem binder_thread_read_ends E s m f ret :
  never (-4) (read_resume E s m f ret) /\
  forall proc thread buffer size consumed,
    never (-4) (binder_thread_read E s m proc thread buffer size consumed).
Proof.
  split.
  - unfold read_resume. apply never_bind; [never|]. intros s1 _. apply never_bind; [auto with never|].
    intros s2 _. destruct (negb (ret =? 0)); [done|]. apply read_loop_ends.
    pose proof (read_turns_bound s2 f). unfold read_fuel, total_work in *. lia.
  - intros. unfold binder_thread_read. never.
Qed.

End Reads.

(** ** Witnesses *)

(** A node another process has just come to hold strongly, its owner untold. *)
Lemma node_command_protocol_witness :
  (node_command sample_node).1 = BR_INCREFS /\
  node_settled (node_command (node_command sample_node).2).2.
Proof.
  assert (counts_room 2 sample_node) as Hc by (unfold counts_room; simpl; lia).
  pose proof (node_command_protocol sample_node Hc) as H.
  destruct (node_command sample_node) as [cmd n] eqn:E.
  destruct H as (_ & _ & _ & _ & _ & H & _). split; [|exact H].
  vm_compute in E. by injection E as <- _.
Defined.
