(* ===== verification/Lifecycle.v ===== *)
(** * Lifecycle: threads, processes and the file operations

    Models the rest of driver/binder.c that changes state: [binder_get_thread],
    [binder_free_thread], the file operations [binder_open], [binder_poll],
    [binder_ioctl], [binder_flush], [binder_release], [binder_vma_close], and the
    work they put off, down to the release of a process.  A pointer to the
    current task's process is its address. *)

From S2P Require Import Prelude RbTree BufferAlloc DriverState NodeRef Uapi Transaction ThreadWrite ThreadRead.

Definition POLLIN : Z := 1.

Definition BINDER_DEFERRED_PUT_FILES : Z := 0x01.
Definition BINDER_DEFERRED_FLUSH : Z := 0x02.
Definition BINDER_DEFERRED_RELEASE : Z := 0x04.

Section Model.
Context `{RL : RbLib} `{U : BinderUapi}.

(** ** Work that is not delivered *)

Definition release_one (s : driver) (w : work) : res driver :=
  match w with
  | WTransaction t =>
      let! x := get_transaction s t in
      match x_buffer x with
      | None => Bug 0
      | Some b =>
          let! buf := get_buf s b in
          if bool_decide (is_Some (b_target_node buf)) && negb (has_flag (x_flags x) TF_ONE_WAY)
          then binder_send_failed_reply s t BR_DEAD_REPLY
          else
            let! s := upd_buf s b (set_b_transaction None) in
            kfree_transaction s t
      end
  | WTransactionComplete _ => Ret s
  | WDeath d =>
      let! dd := get_death s d in
      match d_type dd with
      | BINDER_WORK_DEAD_BINDER_AND_CLEAR | BINDER_WORK_CLEAR_DEATH_NOTIFICATION =>
          kfree_death s d
      | BINDER_WORK_DEAD_BINDER | BINDER_WORK_NONE => Ret s
      end
  | WNode _ => Ret s
  end.

Fixpoint release_work (fuel : nat) (s : driver) (l : list_id) : res driver :=
  match work_list s l, fuel with
  | [], _ => Ret s
  | _ :: _, O => Bug (-5)
  | w :: _, S fuel' =>
      let! s := release_one (list_del s w) w in release_work fuel' s l
  end.

(** Every turn takes an item off the list and none puts one on it. *)
Definition binder_release_work (s : driver) (l : list_id) : res driver :=
  release_work (length (work_list s l)) s l.

(** ** Threads *)

Definition thread_visit (s : driver) (pid y : Z) : res comparison :=
  let! th := get_thread s y in Ret (pid ?= t_pid th).

(** The thread of the current task [pid], made on its first call. *)
Definition binder_get_thread (s : driver) (proc pid : Z) : res (option Z * driver) :=
  let! p := get_proc s proc in
  let '(thread, s') := kzalloc s in
  let! k := rb_link (thread_visit s pid) (default 0 thread) (p_threads p) in
  match k, thread with
  | Present th, _ => Ret (Some th, s)
  | Linked _, None => Ret (None, s')
  | Linked t, Some th =>
      let s := put_proc s' proc (set_p_threads (rb_insert_color th t) p) in
      Ret (Some th, put_thread s th
             (BinderThread proc pid BINDER_LOOPER_STATE_NEED_RETURN None BR_OK BR_OK))
  end.

(** The walk over the transactions a dying thread takes part in: an incoming one
    loses its target and buffer, an outgoing one its origin. *)
Fixpoint leave_transactions (fuel : nat) (s : driver) (thread : Z) (t : option Z)
    : res driver :=
  match t, fuel with
  | None, _ => Ret s
  | Some _, O => Bug (-6)
  | Some t, S fuel' =>
      let! x := get_transaction s t in
      if bool_decide (x_to_thread x = Some thread) then
        let x := set_x_to_thread None (set_x_to_proc None x) in
        let s := put_transaction s t x in
        let! s := match x_buffer x with
                  | Some b =>
                      let! s := upd_buf s b (set_b_transaction None) in
                      upd_transaction s t (set_x_buffer None)
                  | None => Ret s
                  end in
        leave_transactions fuel' s thread (x_to_parent x)
      else if bool_decide (x_from x = Some thread) then
        let s := put_transaction s t (set_x_from None x) in
        leave_transactions fuel' s thread (x_from_parent x)
      else Bug 2569
  end.

(** A transaction is met at most twice, coming in and going out; the third time
    is the [BUG()]. *)
Definition leave_fuel (s : driver) : nat := S (2 * size (s_transactions s)).

Definition binder_free_thread (s : driver) (proc thread : Z) : res driver :=
  let! s := upd_proc s proc (fun p => set_p_threads (rb_erase thread (p_threads p)) p) in
  let! th := get_thread s thread in
  let! send_reply :=
    match t_transaction_stack th with
    | Some t =>
        let! x := get_transaction s t in
        Ret (if bool_decide (x_to_thread x = Some thread) then Some t else None)
    | None => Ret None
    end in
  let! s := leave_transactions (leave_fuel s) s thread (t_transaction_stack th) in
  let! s := match send_reply with
            | Some t => binder_send_failed_reply s t BR_DEAD_REPLY
            | None => Ret s
            end in
  let! s := binder_release_work s (ThreadTodo thread) in
  kfree_thread s thread.

(** ** Deferred work *)

Definition binder_defer_work (s : driver) (proc defer : Z) : res driver :=
  let! s := upd_proc s proc (fun p =>
    set_p_deferred_work (Z.lor (p_deferred_work p) defer) p) in
  Ret (if bool_decide (proc ∈ s_deferred_list s) then s
       else set_s_deferred_list (proc :: s_deferred_list s) s).

Definition binder_flush (s : driver) (proc : Z) : res driver :=
  binder_defer_work s proc BINDER_DEFERRED_FLUSH.

Definition binder_release (s : driver) (proc : Z) : res driver :=
  binder_defer_work s proc BINDER_DEFERRED_RELEASE.

Definition binder_vma_close (s : driver) (proc : Z) : res driver :=
  let! s := upd_proc s proc (fun p =>
    let m := p_mem p in
    set_p_mem (ProcMem None None (buffer m) (user_buffer_offset m) (buffers m)
                 (free_buffers m) (allocated_buffers m) (free_async_space m) (pages m)
                 (buffer_size m)) p) in
  binder_defer_work s proc BINDER_DEFERRED_PUT_FILES.

(** Send every thread of the process back to user space. *)
Fixpoint flush_threads (s : driver) (l : list Z) : res driver :=
  match l with
  | [] => Ret s
  | thread :: l' =>
      let! th := get_thread s thread in
      let s := put_thread s thread (looper_set BINDER_LOOPER_STATE_NEED_RETURN th) in
      let s := if looper_has th BINDER_LOOPER_STATE_WAITING
               then wake_up s (ThreadWait thread) else s in
      flush_threads s l'
  end.

Definition binder_deferred_flush (s : driver) (proc : Z) : res driver :=
  let! p := get_proc s proc in
  let! s := flush_threads s (inorder (p_threads p)) in
  Ret (wake_up s (ProcWaitAll proc)).

(** Tell each holder of the node that asked for it, and count the holders. *)
Fixpoint notify_holders (s : driver) (l : list Z) (refs : Z) : res (Z * driver) :=
  match l with
  | [] => Ret (refs, s)
  | ref :: l' =>
      let! r := get_ref s ref in
      let! s := match r_death r with
                | None => Ret s
                | Some d =>
                    if queued s (WDeath d) then Bug 3045
                    else
                      let! s := upd_death s d (set_d_work BINDER_WORK_DEAD_BINDER) in
                      Ret (wake_up (list_add_tail s (WDeath d) (ProcTodo (r_proc r)))
                             (ProcWait (r_proc r)))
                end in
      notify_holders s l' (i32 (refs + 1))
  end.

Definition binder_node_release (s : driver) (node refs : Z) : res (Z * driver) :=
  let s := list_del s (WNode node) in
  let! s := binder_release_work s (AsyncTodo node) in
  let! n := get_node s node in
  if decide (n_refs n = []) then let! s := kfree_node s node in Ret (refs, s)
  else
    let s := put_node s node
               (set_n_local_weak_refs 0 (set_n_local_strong_refs 0 (set_n_proc None n))) in
    let s := set_s_dead_nodes (node :: s_dead_nodes s) s in
    notify_holders s (n_refs n) refs.

(** The four loops [while ((n = rb_first(...)))]: each turn takes the first
    element out of its tree. *)
Fixpoint free_threads (fuel : nat) (s : driver) (proc : Z) : res driver :=
  let! p := get_proc s proc in
  match inorder (p_threads p), fuel with
  | [], _ => Ret s
  | _ :: _, O => Bug (-7)
  | th :: _, S fuel' => let! s := binder_free_thread s proc th in free_threads fuel' s proc
  end.

Fixpoint release_nodes (fuel : nat) (s : driver) (proc incoming_refs : Z) : res driver :=
  let! p := get_proc s proc in
  match inorder (p_nodes p), fuel with
  | [], _ => Ret s
  | _ :: _, O => Bug (-8)
  | node :: _, S fuel' =>
      let s := put_proc s proc (set_p_nodes (rb_erase node (p_nodes p)) p) in
      let! '(incoming_refs, s) := binder_node_release s node incoming_refs in
      release_nodes fuel' s proc incoming_refs
  end.

Fixpoint delete_refs (fuel : nat) (s : driver) (proc : Z) : res driver :=
  let! p := get_proc s proc in
  match inorder (p_refs_by_desc p), fuel with
  | [], _ => Ret s
  | _ :: _, O => Bug (-9)
  | ref :: _, S fuel' => let! s := binder_delete_ref s ref in delete_refs fuel' s proc
  end.

Fixpoint free_buffers_left (fuel : nat) (E : kenv) (s : driver) (proc : Z) : res driver :=
  let! p := get_proc s proc in
  match inorder (allocated_buffers (p_mem p)), fuel with
  | [], _ => Ret s
  | _ :: _, O => Bug (-10)
  | a :: _, S fuel' =>
      let! buf := get_buf s (proc, a) in
      let! s := match b_transaction buf with
                | Some t =>
                    let! s := upd_transaction s t (set_x_buffer None) in
                    upd_buf s (proc, a) (set_b_transaction None)
                | None => Ret s
                end in
      let! s := free_buf E s (proc, a) in
      free_buffers_left fuel' E s proc
  end.

(** The page loop of [binder_deferred_release] unmaps what is left before the
    process is freed with all it holds. *)
Definition binder_deferred_release (E : kenv) (s : driver) (proc : Z) : res driver :=
  let! p := get_proc s proc in
  let! _ := bug_on 3062 (bool_decide (is_Some (vma (p_mem p)))) in
  let! _ := bug_on 3063 (p_files p) in
  let s := set_s_binder_procs (filter (.≠ proc) (s_binder_procs s)) s in
  let! s := match s_context_mgr_node s with
            | Some n =>
                let! x := get_node s n in
                Ret (if decide (n_proc x = Some proc) then set_s_context_mgr_node None s else s)
            | None => Ret s
            end in
  let! s := free_threads (length (inorder (p_threads p))) s proc in
  let! p := get_proc s proc in
  let! s := release_nodes (length (inorder (p_nodes p))) s proc 0 in
  let! p := get_proc s proc in
  let! s := delete_refs (length (inorder (p_refs_by_desc p))) s proc in
  let! s := binder_release_work s (ProcTodo proc) in
  let! s := binder_release_work s (DeliveredDeath proc) in
  let! p := get_proc s proc in
  let! s := free_buffers_left (length (inorder (allocated_buffers (p_mem p)))) E s proc in
  let! _ := get_proc s proc in
  Ret (set_s_procs (delete proc (s_procs s)) s).

(** One turn of [binder_deferred_func]; [false] when the list was empty. *)
Definition deferred_step (E : kenv) (s : driver) : res (bool * driver) :=
  match s_deferred_list s with
  | [] => Ret (false, s)
  | proc :: l =>
      let s := set_s_deferred_list l s in
      let! p := get_proc s proc in
      let defer := p_deferred_work p in
      let p := set_p_deferred_work 0 p in
      let p := if has_flag defer BINDER_DEFERRED_PUT_FILES then set_p_files false p else p in
      let s := put_proc s proc p in
      let! s := if has_flag defer BINDER_DEFERRED_FLUSH
                then binder_deferred_flush s proc else Ret s in
      let! s := if has_flag defer BINDER_DEFERRED_RELEASE
                then binder_deferred_release E s proc else Ret s in
      Ret (true, s)
  end.

Fixpoint deferred_loop (fuel : nat) (E : kenv) (s : driver) : res driver :=
  match fuel with
  | O => Bug (-11)
  | S fuel' =>
      let! '(more, s) := deferred_step E s in
      if more : bool then deferred_loop fuel' E s else Ret s
  end.

Definition binder_deferred_func (E : kenv) (s : driver) : res driver :=
  deferred_loop (S (length (s_deferred_list s))) E s.

(** ** File operations *)

Definition empty_mem : proc_mem := ProcMem None None 0 0 [] RbLeaf RbLeaf 0 ∅ 0.

Definition new_proc (pid tsk nice : Z) : DriverState.binder_proc :=
  BinderProc RbLeaf RbLeaf RbLeaf RbLeaf pid tsk false 0 empty_mem 0 0 0 0 nice.

(** [binder_open] by task [tsk] of group [pid]; the process is the file's
    [private_data]. *)
Definition binder_open (s : driver) (tsk pid : Z) : Z * option Z * driver :=
  let '(proc, s) := kzalloc s in
  match proc with
  | None => (- ENOMEM, None, s)
  | Some proc =>
      let s := set_s_binder_procs (proc :: s_binder_procs s) s in
      (0, Some proc, put_proc s proc (new_proc pid tsk (s_nice s)))
  end.

(** [binder_poll]: [later] is what happens to the driver between the two looks,
    in [poll_wait].  A thread that could not be allocated is dereferenced. *)
Definition binder_poll (s : driver) (later : driver -> driver) (proc pid : Z)
    : res (Z * driver) :=
  let! '(thread, s) := binder_get_thread s proc pid in
  match thread with
  | None => Bug 2590
  | Some thread =>
      let! th := get_thread s thread in
      let wait_for_proc_work :=
        bool_decide (t_transaction_stack th = None) &&
        bool_decide (work_list s (ThreadTodo thread) = []) && (t_return_error th =? BR_OK) in
      let ready s := if wait_for_proc_work then binder_has_proc_work s proc thread
                     else binder_has_thread_work s thread in
      let! r := ready s in
      if r : bool then Ret (POLLIN, s)
      else let! r := ready (later s) in Ret (if r : bool then POLLIN else 0, later s)
  end.

(** An ioctl returns or waits in its read. *)
Inductive ioctl_outcome : Type :=
| IoctlDone (ret : Z) (s : driver) (m : user_memory)
| IoctlWaiting (bwr : binder_write_read) (ubuf : Z) (f : read_frame) (s : driver)
    (m : user_memory).

(** The end of [binder_ioctl]: back in user space the thread may wait again. *)
Definition ioctl_return (s : driver) (m : user_memory) (thread : option Z) (ret : Z)
    : res ioctl_outcome :=
  let! s := match thread with
            | Some th => upd_thread s th (looper_clear BINDER_LOOPER_STATE_NEED_RETURN)
            | None => Ret s
            end in
  Ret (IoctlDone ret s m).

Definition write_back (s : driver) (m : user_memory) (thread ubuf : Z)
    (bwr : binder_write_read) (ret : Z) : res ioctl_outcome :=
  match copy_to_user m ubuf (wr_encode bwr) with
  | None => ioctl_return s m (Some thread) (- EFAULT)
  | Some m => ioctl_return s m (Some thread) ret
  end.

Definition set_read_consumed (v : Z) (w : binder_write_read) : binder_write_read :=
  BinderWriteRead (wr_write_size w) (wr_write_consumed w) (wr_write_buffer w)
    (wr_read_size w) v (wr_read_buffer w).

Definition set_write_consumed (v : Z) (w : binder_write_read) : binder_write_read :=
  BinderWriteRead (wr_write_size w) v (wr_write_buffer w)
    (wr_read_size w) (wr_read_consumed w) (wr_read_buffer w).

(** What [binder_ioctl_write_read] does after its read has returned or is to wait. *)
Definition after_read (o : read_outcome) (proc thread ubuf : Z) (bwr : binder_write_read)
    : res ioctl_outcome :=
  match o with
  | Waiting f s m => Ret (IoctlWaiting bwr ubuf f s m)
  | Done ret consumed s m =>
      let bwr := set_read_consumed consumed bwr in
      let s := if decide (work_list s (ProcTodo proc) = []) then s
               else wake_up s (ProcWait proc) in
      write_back s m thread ubuf bwr ret
  end.

Definition binder_ioctl_write_read (E : kenv) (s : driver) (m : user_memory)
    (proc thread cmd ubuf : Z) : res ioctl_outcome :=
  if negb (IOC_SIZE cmd =? sizeof_write_read)
  then ioctl_return s m (Some thread) (- EINVAL)
  else
    match copy_from_user m ubuf sizeof_write_read with
    | None => ioctl_return s m (Some thread) (- EFAULT)
    | Some bytes =>
        let bwr := wr_decode bytes in
        let! '(ret, bwr, s) :=
          if 0 <? wr_write_size bwr then
            let! '(ret, consumed, s) :=
              binder_thread_write E s m proc thread (wr_write_buffer bwr) (wr_write_size bwr)
                (wr_write_consumed bwr) in
            Ret (ret, set_write_consumed consumed bwr, s)
          else Ret (0, bwr, s) in
        if ret <? 0 then write_back s m thread ubuf (set_read_consumed 0 bwr) ret
        else if 0 <? wr_read_size bwr then
          let! o := binder_thread_read E s m proc thread (wr_read_buffer bwr)
                      (wr_read_size bwr) (wr_read_consumed bwr) in
          after_read o proc thread ubuf bwr
        else write_back s m thread ubuf bwr ret
    end.

(** A waiting ioctl goes on when its wait has returned [ret]. *)
Definition ioctl_resume (E : kenv) (s : driver) (m : user_memory) (bwr : binder_write_read)
    (ubuf : Z) (f : read_frame) (ret : Z) : res ioctl_outcome :=
  let! o := read_resume E s m f ret in
  after_read o (fr_proc f) (fr_thread f) ubuf bwr.

Definition binder_ioctl_set_ctx_mgr (s : driver) (proc curr_euid : Z) : res (Z * driver) :=
  match s_context_mgr_node s with
  | Some _ => Ret (- EBUSY, s)
  | None =>
      if bool_decide (is_Some (s_context_mgr_uid s) /\ s_context_mgr_uid s <> Some curr_euid)
      then Ret (- EPERM, s)
      else
        let s := set_s_context_mgr_uid (Some curr_euid) s in
        let! '(node, s) := binder_new_node s proc 0 0 in
        let s := set_s_context_mgr_node node s in
        match node with
        | None => Ret (- ENOMEM, s)
        | Some node =>
            let! s := upd_node s node (fun n =>
              set_n_has_weak_ref true (set_n_has_strong_ref true
                (set_n_local_strong_refs (i32 (n_local_strong_refs n + 1))
                  (set_n_local_weak_refs (i32 (n_local_weak_refs n + 1)) n)))) in
            Ret (0, s)
        end
  end.

(** [binder_ioctl] by the task [pid] of user [curr_euid]. *)
Definition binder_ioctl (E : kenv) (s : driver) (m : user_memory) (proc pid curr_euid : Z)
    (cmd ubuf : Z) : res ioctl_outcome :=
  let! '(thread, s) := binder_get_thread s proc pid in
  match thread with
  | None => ioctl_return s m None (- ENOMEM)
  | Some thread =>
      if cmd =? BINDER_WRITE_READ then binder_ioctl_write_read E s m proc thread cmd ubuf
      else if cmd =? BINDER_SET_MAX_THREADS then
        match get_user32 m ubuf with
        | None => ioctl_return s m (Some thread) (- EINVAL)
        | Some n =>
            let! s := upd_proc s proc (set_p_max_threads (i32 n)) in
            ioctl_return s m (Some thread) 0
        end
      else if cmd =? BINDER_SET_CONTEXT_MGR then
        let! '(ret, s) := binder_ioctl_set_ctx_mgr s proc curr_euid in
        ioctl_return s m (Some thread) ret
      else if cmd =? BINDER_THREAD_EXIT then
        let! s := binder_free_thread s proc thread in
        ioctl_return s m None 0
      else if cmd =? BINDER_VERSION then
        if negb (IOC_SIZE cmd =? sizeof_version)
        then ioctl_return s m (Some thread) (- EINVAL)
        else
          match put_user32 m ubuf BINDER_CURRENT_PROTOCOL_VERSION with
          | None => ioctl_return s m (Some thread) (- EINVAL)
          | Some m => ioctl_return s m (Some thread) 0
          end
      else ioctl_return s m (Some thread) (- EINVAL)
  end.

End Model.
