(* ===== verification/CallGuard.v ===== *)
(** * CallGuard: what a call that is under way is safe from

    A synchronous call is on top of its caller's stack from the moment it is sent
    and on top of its server's from the moment it is taken.  Here it is shown that
    nothing other threads do changes that: [guarded] says which threads have the
    call on top and that nothing else leads to it, [quiet] which steps leave all
    stacks alone, and each of the driver's operations is shown to be quiet or to
    keep a call guarded.  [CallThms] puts the operations together. *)

From S2P Require Import Prelude RbTree BufferAlloc DriverState NodeRef Uapi Transaction ThreadWrite ThreadRead Lifecycle Never ReplyThms.

(** ** Whatever a computation returns *)

Definition post {A} (m : res A) (Q : A -> Prop) : Prop :=
  match m with Ret a => Q a | Bug _ => True end.

Lemma post_bind {A B} (m : res A) (f : A -> res B) Q :
  post m (fun a => post (f a) Q) -> post (res_bind m f) Q.
Proof. by destruct m. Qed.

Lemma post_ret {A} (a : A) (Q : A -> Prop) : Q a -> post (Ret a) Q.
Proof. done. Qed.

Lemma post_mono {A} (m : res A) (Q Q' : A -> Prop) :
  post m Q -> (forall a, Q a -> Q' a) -> post m Q'.
Proof. destruct m; simpl; auto. Qed.

Lemma post_elim {A} (m : res A) (Q : A -> Prop) a : post m Q -> m = Ret a -> Q a.
Proof. by intros H ->. Qed.

Lemma post_true {A} (m : res A) : post m (fun _ => True).
Proof. by destruct m. Qed.

Lemma post_eq {A} (m : res A) (Q : A -> Prop) : post m Q -> post m (fun a => Q a /\ m = Ret a).
Proof. by destruct m. Qed.

Lemma post_deref {A} (m : gmap Z A) a Q : (forall x, m !! a = Some x -> Q x) -> post (deref m a) Q.
Proof. intros H. unfold deref. destruct (m !! a); simpl; auto. Qed.

Lemma post_and {A} (m : res A) (Q Q' : A -> Prop) : post m Q -> post m Q' -> post m (fun a => Q a /\ Q' a).
Proof. by destruct m. Qed.

Lemma post_upd_thread s a f (Q : driver -> Prop) :
  (forall th, s_threads s !! a = Some th -> Q (put_thread s a (f th))) -> post (upd_thread s a f) Q.
Proof. intros H. unfold upd_thread. apply post_bind, post_deref. intros th E. by apply H. Qed.

Lemma post_upd_transaction s a f (Q : driver -> Prop) :
  (forall x, s_transactions s !! a = Some x -> Q (put_transaction s a (f x))) ->
  post (upd_transaction s a f) Q.
Proof. intros H. unfold upd_transaction. apply post_bind, post_deref. intros x E. by apply H. Qed.

Lemma post_bug_on k c (Q : unit -> Prop) : (c = false -> Q tt) -> post (bug_on k c) Q.
Proof. unfold bug_on. destruct c; simpl; auto. Qed.

(** ** Steps that leave all stacks alone *)

(** What of a thread and of a transaction belongs to the stacks. *)
Definition top_of (th : binder_thread) : Z * option Z := (t_proc th, t_transaction_stack th).

Definition links (x : DriverState.binder_transaction) : option Z * option Z * option Z * option Z * Z :=
  (x_from x, x_from_parent x, x_to_thread x, x_to_parent x, x_flags x).

Record quiet (s s' : driver) : Prop := {
  q_tops : top_of <$> s_threads s' = top_of <$> s_threads s;
  q_links : links <$> s_transactions s' = links <$> s_transactions s;
  q_alloc : suffix (s_kzalloc s') (s_kzalloc s)
}.

Lemma quiet_same s s' : s_threads s' = s_threads s -> s_transactions s' = s_transactions s ->
  s_kzalloc s' = s_kzalloc s -> quiet s s'.
Proof. intros E1 E2 E3. split; [by rewrite E1|by rewrite E2|by rewrite E3]. Qed.

Lemma quiet_refl s : quiet s s.
Proof. by apply quiet_same. Qed.

Lemma quiet_trans s1 s2 s3 : quiet s1 s2 -> quiet s2 s3 -> quiet s1 s3.
Proof.
  intros [A1 B1 C1] [A2 B2 C2]. split; [congruence..|]. by transitivity (s_kzalloc s2).
Qed.

Lemma fmap_insert_same {A B} (f : A -> B) (m : gmap Z A) i x y :
  m !! i = Some y -> f x = f y -> f <$> <[i := x]> m = f <$> m.
Proof.
  intros H E. rewrite fmap_insert, E. apply insert_id. by rewrite lookup_fmap, H.
Qed.

Lemma quiet_put_thread s a th th' : s_threads s !! a = Some th -> top_of th' = top_of th ->
  quiet s (put_thread s a th').
Proof. intros H E. split; [|done|done]. by eapply fmap_insert_same. Qed.

Lemma quiet_put_transaction s a x x' : s_transactions s !! a = Some x -> links x' = links x ->
  quiet s (put_transaction s a x').
Proof. intros H E. split; [done| |done]. by eapply fmap_insert_same. Qed.

Lemma quiet_kzalloc s : quiet s (kzalloc s).2.
Proof.
  unfold kzalloc. destruct (s_kzalloc s) as [|a l] eqn:E; simpl; [apply quiet_refl|].
  split; [done|done|]. simpl. rewrite E. by exists [a].
Qed.

Lemma quiet_nice E s n : quiet s (binder_set_nice E s n).
Proof. unfold binder_set_nice. by destruct (k_can_nice E n); apply quiet_same. Qed.

(** What no quiet step undoes. *)
Class Closed (G : driver -> Prop) : Prop := closed s s' : quiet s s' -> G s -> G s'.

#[export] Instance closed_quiet s : Closed (quiet s).
Proof. intros s1 s2 H1 H2. by eapply quiet_trans. Qed.

#[export] Instance closed_and G H : Closed G -> Closed H -> Closed (fun s => G s /\ H s).
Proof. intros C1 C2 s s' Hq [H1 H2]. split; [by eapply C1|by eapply C2]. Qed.

(** The thread [C] has this on its stack. *)
Definition top_is (C p : Z) (o : option Z) (s : driver) : Prop :=
  exists th, s_threads s !! C = Some th /\ t_proc th = p /\ t_transaction_stack th = o.

#[export] Instance closed_top C p o : Closed (top_is C p o).
Proof.
  intros s s' [H _ _] (th & E & Hp & Ho).
  assert ((top_of <$> s_threads s') !! C = Some (top_of th)) as H'
    by (by rewrite H, lookup_fmap, E).
  rewrite lookup_fmap in H'. apply fmap_Some in H' as (th' & E' & Et).
  injection Et as Ep Eo. exists th'. split; [done|]. split; congruence.
Qed.

(** The state an operation that may wait leaves. *)
Definition read_state (o : read_outcome) : driver :=
  match o with Done _ _ s _ => s | Waiting _ s _ => s end.
Definition ioctl_state (o : ioctl_outcome) : driver :=
  match o with IoctlDone _ s _ => s | IoctlWaiting _ _ _ s _ => s end.

(** The transaction [u] has these links. *)
Definition linked (u : Z) (k : option Z * option Z * option Z * option Z * Z) (s : driver) : Prop :=
  exists x, s_transactions s !! u = Some x /\ links x = k.

(** An entry of a map that is seen through a function. *)
Lemma fmap_lookup_back {A B} (f : A -> B) (m m' : gmap Z A) i x :
  f <$> m' = f <$> m -> m' !! i = Some x -> exists y, m !! i = Some y /\ f x = f y.
Proof.
  intros E H. assert ((f <$> m) !! i = Some (f x)) as H' by (by rewrite <- E, lookup_fmap, H).
  rewrite lookup_fmap in H'. apply fmap_Some in H' as (y & Hy & Ey). eauto.
Qed.

#[export] Instance closed_linked u k : Closed (linked u k).
Proof.
  intros s s' [_ H _] (x & E & Ek). symmetry in H.
  destruct (fmap_lookup_back _ _ _ _ _ H E) as (y & Ey & Hy). exists y. split; [done|congruence].
Qed.

#[export] Instance closed_gone u : Closed (fun s => s_transactions s !! u = None).
Proof.
  intros s s' [_ H _] E. destruct (s_transactions s' !! u) as [x|] eqn:E'; [|done].
  destruct (fmap_lookup_back _ _ _ _ _ H E') as (y & Ey & _). congruence.
Qed.

#[export] Instance closed_or G H : Closed G -> Closed H -> Closed (fun s => G s \/ H s).
Proof. intros C1 C2 s s' Hq [H1|H2]; [left; by eapply C1|right; by eapply C2]. Qed.

#[export] Instance closed_unused a : Closed (fun s => Some a ∉ s_kzalloc s).
Proof.
  intros s s' [_ _ [l El]] H Hin. apply H. rewrite El. apply elem_of_app. by right.
Qed.

Create HintDb quiet.

(** Goes through an operation; calls are left to the hints, the end to [q_close]. *)
Ltac q_close :=
  match goal with
  | |- True => exact I
  | H : ?G ?s |- ?G ?s => exact H
  | H : ?G ?s |- ?G ?s' => solve [apply (closed (G := G) s s'); [apply quiet_same; reflexivity|exact H]]
  | E : s_threads _ !! ?a = Some ?th |- ?G (put_thread ?s ?a _) =>
      solve [apply (closed (G := G) s); [apply (quiet_put_thread s a th); [exact E|reflexivity]|q_close]]
  | E : s_transactions _ !! ?a = Some ?x |- ?G (put_transaction ?s ?a _) =>
      solve [apply (closed (G := G) s); [apply (quiet_put_transaction s a x); [exact E|reflexivity]|q_close]]
  | |- ?G (binder_set_nice ?E ?s ?n) =>
      solve [apply (closed (G := G) s); [apply quiet_nice|q_close]]
  | |- ?G ?X =>
      lazymatch X with
      | put_thread _ _ _ => fail
      | put_transaction _ _ _ => fail
      | context [put_thread ?s ?a ?th] =>
          apply (closed (G := G) (put_thread s a th) X); [apply quiet_same; reflexivity|q_close]
      | context [put_transaction ?s ?a ?x] =>
          apply (closed (G := G) (put_transaction s a x) X); [apply quiet_same; reflexivity|q_close]
      | _ => fail
      end
  end.

#[export] Hint Extern 5 => q_close : quiet.

Ltac q_intro :=
  let r := fresh "r" in let H := fresh "Hg" in
  intros r H; cbv beta in H;
  repeat match type of r with
  | prod _ _ => let x := fresh "x" in let y := fresh "s" in destruct r as [x y]; cbn [fst snd] in H; rename y into r
  end.

Ltac q_step :=
  lazymatch goal with
  | |- post (Ret _) _ => apply post_ret; cbv beta; cbn [fst snd read_state ioctl_state]
  | |- post (Bug _) _ => exact I
  | |- post (bug_on _ _) _ => apply post_bug_on; intros ?
  | |- post (res_bind _ _) _ => apply post_bind; cbv beta
  | |- post (deref _ _) _ => apply post_deref; intros ? ?; cbv beta
  | |- post (get_proc _ _) _ => unfold get_proc
  | |- post (get_thread _ _) _ => unfold get_thread
  | |- post (get_node _ _) _ => unfold get_node
  | |- post (get_ref _ _) _ => unfold get_ref
  | |- post (get_death _ _) _ => unfold get_death
  | |- post (get_transaction _ _) _ => unfold get_transaction
  | |- post (upd_proc _ _ _) _ => unfold upd_proc
  | |- post (upd_thread _ _ _) _ => unfold upd_thread
  | |- post (upd_node _ _ _) _ => unfold upd_node
  | |- post (upd_ref _ _ _) _ => unfold upd_ref
  | |- post (upd_death _ _ _) _ => unfold upd_death
  | |- post (upd_transaction _ _ _) _ => unfold upd_transaction
  | |- post (kfree_node _ _) _ => unfold kfree_node
  | |- post (kfree_ref _ _) _ => unfold kfree_ref
  | |- post (kfree_death _ _) _ => unfold kfree_death
  | |- post (let '(_, _) := kzalloc ?s in _) _ =>
      let H := fresh "Hg" in
      match goal with HG : ?G s |- _ =>
        pose proof (closed (G := G) s (kzalloc s).2 (quiet_kzalloc s) HG) as H end;
      destruct (kzalloc s) as [? ?]; cbn [snd] in H
  | |- post (let '(_, _) := next_id ?s in _) _ => unfold next_id
  | |- post (match ?x with _ => _ end) _ => destruct x eqn:?
  | |- post (let '_ := ?x in _) _ => destruct x eqn:?
  | |- post (rb_find _ _) _ => eapply post_mono; [apply post_true|intros ? _; cbv beta]
  | |- post (rb_link _ _ _) _ => eapply post_mono; [apply post_true|intros ? _; cbv beta]
  | |- post (pick_desc _ _ _) _ => eapply post_mono; [apply post_true|intros ? _; cbv beta]
  | |- post (binder_alloc_buf _ _ _ _ _) _ => eapply post_mono; [apply post_true|intros [? ?] _; cbv beta iota]
  | |- post (binder_free_buf _ _ _) _ => eapply post_mono; [apply post_true|intros ? _; cbv beta]
  | |- post (binder_buffer_lookup _ _) _ => eapply post_mono; [apply post_true|intros ? _; cbv beta]
  | |- post (find_delivered _ _ _) _ => eapply post_mono; [apply post_true|intros ? _; cbv beta]
  | |- post (get_buffer _ _) _ => eapply post_mono; [apply post_true|intros ? _; cbv beta]
  | |- post ?m _ =>
      first [eapply post_mono; [solve [eauto with quiet typeclass_instances]|q_intro]
            | match m with context [if ?c then _ else _] => destruct c eqn:? end]
  | |- _ =>
      first [q_close
            | match goal with
              | |- _ ?s => match s with context [match ?x with _ => _ end] => destruct x eqn:? end
              end]
  end.
Ltac q_steps := repeat q_step.

Section Quiet.
Context `{RL : RbLib} `{U : BinderUapi}.
Context (G : driver -> Prop) {HG : Closed G}.

Implicit Types s : driver.

(** *** Nodes and references *)

Lemma q_new_node s proc ptr cookie : G s -> post (binder_new_node s proc ptr cookie) (fun r => G r.2).
Proof. intros H. unfold binder_new_node. q_steps. Qed.

Lemma q_inc_node s n a b l : G s -> post (binder_inc_node s n a b l) (fun r => G r.2).
Proof. intros H. unfold binder_inc_node. q_steps. Qed.

Lemma q_node_unused s n : G s -> post (node_unused s n) (fun r => G r.2).
Proof. intros H. unfold node_unused. q_steps. Qed.

Hint Resolve q_new_node q_inc_node q_node_unused : quiet.

Lemma q_dec_node s n a b : G s -> post (binder_dec_node s n a b) (fun r => G r.2).
Proof. intros H. unfold binder_dec_node. q_steps. Qed.

Hint Resolve q_dec_node : quiet.

Lemma q_get_ref_for_node s proc n : G s -> post (binder_get_ref_for_node s proc n) (fun r => G r.2).
Proof. intros H. unfold binder_get_ref_for_node. q_steps. Qed.

Lemma q_delete_ref s r : G s -> post (binder_delete_ref s r) G.
Proof. intros H. unfold binder_delete_ref. q_steps. Qed.

Lemma q_inc_ref s r a l : G s -> post (binder_inc_ref s r a l) (fun r => G r.2).
Proof. intros H. unfold binder_inc_ref. q_steps. Qed.

Hint Resolve q_get_ref_for_node q_delete_ref q_inc_ref : quiet.

Lemma q_dec_ref s r a : G s -> post (binder_dec_ref s r a) (fun r => G r.2).
Proof. intros H. unfold binder_dec_ref, ref_unused. q_steps. Qed.

Hint Resolve q_dec_ref : quiet.

(** *** Buffers and their objects *)

Lemma q_upd_buf s b f : G s -> post (upd_buf s b f) G.
Proof. intros H. unfold upd_buf. q_steps. Qed.

Lemma q_free_buf E s b : G s -> post (free_buf E s b) G.
Proof.
  intros H. unfold free_buf. q_steps.
Qed.

Lemma q_set_nice E s n : G s -> G (binder_set_nice E s n).
Proof. intros H. unfold binder_set_nice. q_steps. Qed.

Lemma q_close_fd E s proc fd : G s -> post (task_close_fd E s proc fd) (fun r => G r.2).
Proof. intros H. unfold task_close_fd. q_steps. Qed.

Lemma q_fd_install s proc fd file : G s -> post (task_fd_install s proc fd file) G.
Proof. intros H. unfold task_fd_install. q_steps. Qed.

Hint Resolve q_upd_buf q_free_buf q_close_fd q_fd_install q_set_nice : quiet.

Lemma q_release_object E s proc failed fp : G s -> post (release_object E s proc failed fp) G.
Proof. intros H. unfold release_object, binder_get_node, binder_get_ref. q_steps. Qed.

Hint Resolve q_release_object : quiet.

Lemma q_release_objects E proc failed data n offs : forall s, G s ->
  post (release_objects E s proc failed data n offs) G.
Proof. induction offs as [|off offs IH]; intros s H; simpl; q_steps. Qed.

Hint Resolve q_release_objects : quiet.

Lemma q_buffer_release E s proc b k : G s -> post (binder_transaction_buffer_release E s proc b k) G.
Proof. intros H. unfold binder_transaction_buffer_release, get_buf. q_steps. Qed.

Hint Resolve q_buffer_release : quiet.

Lemma q_translate_binder s proc thread tp fp : G s ->
  post (translate_binder s proc thread tp fp) (fun r => G r.2).
Proof. intros H. unfold translate_binder, own_node, share_node, binder_get_node. q_steps. Qed.

Lemma q_translate_handle s proc tp fp : G s -> post (translate_handle s proc tp fp) (fun r => G r.2).
Proof. intros H. unfold translate_handle, binder_get_ref. q_steps. Qed.

Lemma q_translate_fd E s g irt fp : G s -> post (translate_fd E s g irt fp) (fun r => G r.2).
Proof. intros H. unfold translate_fd, task_get_unused_fd_flags. q_steps. Qed.

Hint Resolve q_translate_binder q_translate_handle q_translate_fd : quiet.

Lemma q_translate_object E s proc thread g irt fp : G s ->
  post (translate_object E s proc thread g irt fp) (fun r => G r.2).
Proof. intros H. unfold translate_object. q_steps. Qed.

Hint Resolve q_translate_object : quiet.

Lemma q_translate_objects E proc thread g irt b offs : forall i s, G s ->
  post (translate_objects E s proc thread g irt b offs i) (fun r => G r.2).
Proof.
  induction offs as [|off offs IH]; intros i s H; simpl; unfold get_buf; q_steps.
Qed.

Lemma q_fill_buffer s m b tr : G s -> post (fill_buffer s m b tr) (fun r => G r.2).
Proof. intros H. unfold fill_buffer. q_steps. Qed.

Lemma q_alloc_transaction_buffer E s t g tr reply : G s ->
  post (alloc_transaction_buffer E s t g tr reply) (fun r => G r.2).
Proof.
  intros H. unfold alloc_transaction_buffer. q_steps.
Qed.

Hint Resolve q_translate_objects q_fill_buffer q_alloc_transaction_buffer : quiet.

Lemma q_undo_buffer E s b k : G s -> post (undo_buffer E s b k) G.
Proof. intros H. unfold undo_buffer. q_steps. Qed.

Lemma q_queue_transaction s thread t tc l w : G s -> G (queue_transaction s thread t tc l w).
Proof. intros H. unfold queue_transaction. q_steps. Qed.

Hint Resolve q_undo_buffer q_queue_transaction : quiet.

(** *** Commands *)

Lemma q_write_refs s m proc cmd ptr : G s -> post (write_refs s m proc cmd ptr) (fun r => G r.2).
Proof. intros H. unfold write_refs, fault, binder_get_ref. q_steps. Qed.

Lemma q_node_done s proc a p c : G s -> post (node_done s proc a p c) G.
Proof. intros H. unfold node_done, binder_get_node. q_steps. Qed.

Hint Resolve q_write_refs q_node_done : quiet.

Lemma q_write_done s m proc cmd ptr : G s -> post (write_done s m proc cmd ptr) (fun r => G r.2).
Proof. intros H. unfold write_done, fault. q_steps. Qed.

Lemma q_next_async s thread n : G s -> post (next_async s thread n) G.
Proof. intros H. unfold next_async. q_steps. Qed.

Hint Resolve q_write_done q_next_async : quiet.

Lemma q_free_user_buffer E s proc thread a : G s -> post (free_user_buffer E s proc thread a) G.
Proof. intros H. unfold free_user_buffer, get_buf. q_steps. Qed.

Hint Resolve q_free_user_buffer : quiet.

Lemma q_write_free_buffer E s m proc thread ptr : G s ->
  post (write_free_buffer E s m proc thread ptr) (fun r => G r.2).
Proof.
  intros H. unfold write_free_buffer, fault, get_buf. q_steps.
Qed.

Lemma q_register_looper s proc thread : G s -> post (register_looper s proc thread) G.
Proof. intros H. unfold register_looper. q_steps. Qed.

Lemma q_queue_death s proc thread d : G s -> post (queue_death s proc thread d) G.
Proof. intros H. unfold queue_death. q_steps. Qed.

Hint Resolve q_write_free_buffer q_register_looper q_queue_death : quiet.

Lemma q_request_death s proc thread r c : G s -> post (request_death s proc thread r c) G.
Proof. intros H. unfold request_death. q_steps. Qed.

Lemma q_clear_death s proc thread r c : G s -> post (clear_death s proc thread r c) G.
Proof. intros H. unfold clear_death. q_steps. Qed.

Hint Resolve q_request_death q_clear_death : quiet.

Lemma q_write_death s m proc thread cmd ptr : G s ->
  post (write_death s m proc thread cmd ptr) (fun r => G r.2).
Proof. intros H. unfold write_death, fault, binder_get_ref. q_steps. Qed.

Lemma q_dead_binder_done s proc thread c : G s -> post (dead_binder_done s proc thread c) G.
Proof.
  intros H. unfold dead_binder_done. q_steps.
Qed.

Hint Resolve q_write_death q_dead_binder_done : quiet.

Lemma q_write_dead_done s m proc thread ptr : G s ->
  post (write_dead_done s m proc thread ptr) (fun r => G r.2).
Proof. intros H. unfold write_dead_done, fault. q_steps. Qed.

Hint Resolve q_write_dead_done : quiet.

(** *** Returns *)

Lemma q_read_done s m f : G s -> post (read_done s m f) (fun o => G (read_state o)).
Proof. intros H. unfold read_done. cbv zeta. q_steps. Qed.

Hint Resolve q_read_done : quiet.

Lemma q_read_errors s m f th : G s -> post (read_errors s m f th) (fun o => G (read_state o)).
Proof. intros H. unfold read_errors. cbv zeta. q_steps. Qed.

Hint Resolve q_read_errors : quiet.

Lemma q_read_retry E s m f : G s -> post (read_retry E s m f) (fun o => G (read_state o)).
Proof. intros H. unfold read_retry. cbv zeta. q_steps. Qed.

Hint Resolve q_read_retry : quiet.

Lemma q_binder_thread_read E s m proc thread buffer size consumed : G s ->
  post (binder_thread_read E s m proc thread buffer size consumed) (fun o => G (read_state o)).
Proof. intros H. unfold binder_thread_read. q_steps. Qed.

Lemma q_read_node s m proc node ptr : G s -> post (read_node s m proc node ptr) (fun r => G r.1.2).
Proof. intros H. unfold read_node. q_steps. Qed.

Lemma q_read_death s m proc d ptr : G s -> post (read_death s m proc d ptr) (fun r => G r.1.2).
Proof. intros H. unfold read_death. q_steps. Qed.

Hint Resolve q_read_node q_read_death : quiet.

(** *** Processes and files *)

Lemma q_defer_work s proc d : G s -> post (binder_defer_work s proc d) G.
Proof. intros H. unfold binder_defer_work. q_steps. Qed.

Hint Resolve q_defer_work : quiet.

Lemma q_vma_close s proc : G s -> post (binder_vma_close s proc) G.
Proof. intros H. unfold binder_vma_close. q_steps. Qed.

Lemma q_flush_threads l : forall s, G s -> post (flush_threads s l) G.
Proof. induction l as [|th l IH]; intros s H; simpl; q_steps. Qed.

Hint Resolve q_flush_threads : quiet.

Lemma q_deferred_flush s proc : G s -> post (binder_deferred_flush s proc) G.
Proof. intros H. unfold binder_deferred_flush. q_steps. Qed.

Lemma q_binder_open s tsk pid : G s -> G (binder_open s tsk pid).2.
Proof.
  intros H. unfold binder_open. pose proof (closed s (kzalloc s).2 (quiet_kzalloc s) H) as Hk.
  destruct (kzalloc s) as [proc s1]. cbn [snd] in Hk. destruct proc; cbn [snd]; q_close.
Qed.

Lemma q_set_ctx_mgr s proc euid : G s -> post (binder_ioctl_set_ctx_mgr s proc euid) (fun r => G r.2).
Proof. intros H. unfold binder_ioctl_set_ctx_mgr. q_steps. Qed.

Lemma q_ioctl_return s m th ret : G s -> post (ioctl_return s m th ret) (fun o => G (ioctl_state o)).
Proof. intros H. unfold ioctl_return. q_steps. Qed.

Hint Resolve q_set_ctx_mgr q_ioctl_return : quiet.

Lemma q_write_back s m th ubuf bwr ret : G s ->
  post (write_back s m th ubuf bwr ret) (fun o => G (ioctl_state o)).
Proof. intros H. unfold write_back. q_steps. Qed.

Hint Resolve q_write_back : quiet.

Lemma q_after_read o proc th ubuf bwr : G (read_state o) ->
  post (after_read o proc th ubuf bwr) (fun o => G (ioctl_state o)).
Proof. intros H. unfold after_read. destruct o; cbn [read_state] in H; q_steps. Qed.

End Quiet.

#[export] Hint Resolve q_new_node q_inc_node q_node_unused q_dec_node q_get_ref_for_node
  q_delete_ref q_inc_ref q_dec_ref q_upd_buf q_free_buf q_close_fd q_fd_install
  q_release_object q_release_objects q_buffer_release q_translate_binder q_translate_handle
  q_translate_fd q_translate_object q_translate_objects q_fill_buffer
  q_alloc_transaction_buffer q_undo_buffer q_write_refs q_node_done
  q_write_done q_next_async q_free_user_buffer q_write_free_buffer q_register_looper
  q_queue_death q_request_death q_clear_death q_write_death q_dead_binder_done
  q_write_dead_done q_read_done q_read_errors q_read_retry q_binder_thread_read q_read_node
  q_read_death q_defer_work q_vma_close q_flush_threads q_deferred_flush
  q_set_ctx_mgr q_ioctl_return q_write_back q_after_read : quiet.

(** ** A call under way *)

(** The threads [P], of the processes [pr], have the call [t] on top, whose links are
    [k]; no other thread has, no transaction is above it, and the allocator does not
    give its address away, nor theirs. *)
Record guarded (P : list Z) (pr : Z -> Z) (t : Z)
    (k : option Z * option Z * option Z * option Z * Z) (s : driver) : Prop := {
  gd_tops C : C ∈ P -> top_is C (pr C) (Some t) s;
  gd_alone C th : C ∉ P -> s_threads s !! C = Some th -> t_transaction_stack th <> Some t;
  gd_call : linked t k s;
  gd_parents u x : u <> t -> s_transactions s !! u = Some x ->
    x_from_parent x <> Some t /\ x_to_parent x <> Some t;
  gd_fresh : Some t ∉ s_kzalloc s;
  gd_fresh_threads C : C ∈ P -> Some C ∉ s_kzalloc s
}.

#[export] Instance closed_guarded P pr t k : Closed (guarded P pr t k).
Proof.
  intros s s' Q [T A C Pa F1 F2]. pose proof Q as [Qt Ql Qa]. split.
  - intros D HD. by apply (closed_top D (pr D) (Some t) s s'); [|apply T].
  - intros D th HD E. destruct (fmap_lookup_back _ _ _ _ _ Qt E) as (th0 & E0 & Et).
    injection Et as _ ->. by eapply A.
  - by apply (closed_linked t k s s').
  - intros u x Hu E. destruct (fmap_lookup_back _ _ _ _ _ Ql E) as (y & Ey & Hy).
    unfold links in Hy. injection Hy as _ -> _ -> _. by eapply Pa.
  - intros Hin. destruct Qa as [l El]. apply F1. rewrite El. apply elem_of_app. by right.
  - intros D HD Hin. destruct Qa as [l El]. apply (F2 D HD). rewrite El. apply elem_of_app. by right.
Qed.

(** ** Sending *)

Section Send.
Context `{RL : RbLib} `{U : BinderUapi}.

Implicit Types s : driver.

Definition sent_links (C : Z) (g : target) (tr : transaction_data) (reply : bool) :
    option Z * option Z * option Z * option Z * Z :=
  (if negb reply && negb (has_flag (td_flags tr) TF_ONE_WAY) then Some C else None,
   None, g_thread g, None, td_flags tr).

(** The ways [send_transaction] can go: without memory, with a transaction that is
    given back, with one that is queued. *)
Lemma post_send E s m proc C tr g irt (G : Z -> driver -> Prop) {HG : forall u, Closed (G u)}
    (Q : bool * driver -> Prop) :
  (forall s1, quiet s s1 -> Q (false, s1)) ->
  (forall u l s1 x, s_kzalloc s = Some u :: l -> suffix (s_kzalloc s1) l -> quiet s s1 ->
     links x = sent_links C g tr (bool_decide (is_Some irt)) -> G u (put_transaction s1 u x)) ->
  (forall u s1, G u s1 -> Q (false, set_s_transactions (delete u (s_transactions s1)) s1)) ->
  (forall u tc b s1, G u s1 -> linked u (sent_links C g tr (bool_decide (is_Some irt))) s1 ->
     post (finish_transaction s1 C u b g irt) (fun r => Q (true, queue_transaction r.2 C u tc r.1.1 r.1.2))) ->
  post (send_transaction E s m proc C tr g irt) Q.
Proof.
  intros Hnone Hnew Hfail Hdone. unfold send_transaction. cbv zeta.
  destruct (kzalloc s) as [[u|] s1] eqn:E1.
  2: { apply post_ret, Hnone. change s1 with (None (A := Z), s1).2. rewrite <- E1. apply quiet_kzalloc. }
  assert (exists l, s_kzalloc s = Some u :: l /\ s_kzalloc s1 = l /\ quiet s s1) as (l & El & El1 & Q1).
  { pose proof (quiet_kzalloc s) as Hq. rewrite E1 in Hq. unfold kzalloc in E1.
    destruct (s_kzalloc s) as [|a l]; [done|]. injection E1 as -> <-. by exists l. }
  pose proof (quiet_kzalloc s1) as Q2. destruct (kzalloc s1) as [[tc|] s2] eqn:E2; cbn [snd] in Q2.
  2: { apply post_ret, Hnone. by eapply quiet_trans. }
  assert (suffix (s_kzalloc s2) l) as Hl by (rewrite <- El1; apply Q2).
  assert (quiet s s2) as Q3 by (by eapply quiet_trans). clear E1 E2 El1 Q1 Q2. unfold next_id.
  apply post_bind, post_deref. intros p Ep. cbv beta. set (s3 := put_transaction _ _ _).
  pose (F := fun s => G u s /\ linked u (sent_links C g tr (bool_decide (is_Some irt))) s).
  assert (Closed F) as HF by apply _. assert (F s3) as H3.
  { split.
    - eapply Hnew; [done|done|by eapply quiet_trans, quiet_same|done].
    - eexists. split; [apply lookup_insert_eq|done]. }
  apply post_bind. eapply post_mono; [by apply (q_alloc_transaction_buffer F)|].
  intros [b s4] H4. cbn [snd] in H4. cbv beta iota.
  assert (forall s5, F s5 -> post (let! s := kfree_transaction s5 u in Ret (false, s)) Q) as Hfree.
  { intros s5 [H5 _]. apply post_bind, post_bind, post_deref. intros x Ex. cbv beta.
    apply post_ret, post_ret. by apply Hfail. }
  destruct b as [b|]; [|by apply Hfree].
  apply post_bind. eapply post_mono; [by apply (q_fill_buffer F)|]. intros [filled s5] H5.
  cbn [snd] in H5. cbv beta iota. apply post_bind. eapply post_mono; [apply post_true|]. intros buf _.
  cbv beta. apply post_bind.
  apply (post_mono _ (fun r => F r.2)).
  { destruct filled; [by apply (q_translate_objects F)|by apply post_ret]. }
  intros [failed s6] H6. cbn [snd] in H6. cbv beta iota. destruct failed as [n|].
  - apply post_bind. eapply post_mono; [by apply (q_undo_buffer F)|]. intros s7 H7. by apply Hfree.
  - destruct H6 as [H6 L6]. apply post_bind. eapply post_mono; [by apply (Hdone u tc)|].
    intros [[ql w] s7] H7. by apply post_ret.
Qed.

End Send.

Section Guarded.
Context `{RL : RbLib} `{U : BinderUapi}.
Context (P : list Z) (pr : Z -> Z) (t : Z) (k : option Z * option Z * option Z * option Z * Z).

Implicit Types s : driver.

#[local] Notation G := (guarded P pr t k).

(** A thread that has something else on its stack. *)
Lemma g_put_thread s C th : G s -> C ∉ P -> t_transaction_stack th <> Some t -> G (put_thread s C th).
Proof.
  intros [T A Ca Pa F1 F2] HC Hs. split; try done.
  - intros D HD. destruct (T D HD) as (x & E & Ex). exists x. split; [|done]. simpl.
    by rewrite lookup_insert_ne by (intros ->; done).
  - intros D x HD. simpl. destruct (decide (D = C)) as [->|N].
    + rewrite lookup_insert_eq. by intros [= <-].
    + rewrite lookup_insert_ne by done. by apply A.
Qed.

(** Another transaction, that is not above the call. *)
Lemma g_put_transaction s u x : G s -> u <> t -> x_from_parent x <> Some t -> x_to_parent x <> Some t ->
  G (put_transaction s u x).
Proof.
  intros [T A Ca Pa F1 F2] Hu H1 H2. split; try done.
  - destruct Ca as (y & E & Ey). exists y. split; [|done]. simpl. by rewrite lookup_insert_ne.
  - intros v y Hv. simpl. destruct (decide (v = u)) as [->|N].
    + rewrite lookup_insert_eq. by intros [= <-].
    + rewrite lookup_insert_ne by done. by apply Pa.
Qed.

Lemma g_delete s u : G s -> u <> t -> G (set_s_transactions (delete u (s_transactions s)) s).
Proof.
  intros [T A Ca Pa F1 F2] Hu. split; try done.
  - destruct Ca as (y & E & Ey). exists y. split; [|done]. simpl. by rewrite lookup_delete_ne.
  - intros v y Hv. simpl. intros [_ E]%lookup_delete_Some. by eapply Pa.
Qed.

Lemma g_kfree_transaction s u : G s -> u <> t -> post (kfree_transaction s u) G.
Proof. intros H Hu. unfold kfree_transaction. q_steps. by apply g_delete. Qed.

Lemma g_kfree_thread s C : G s -> C ∉ P -> post (kfree_thread s C) G.
Proof.
  intros [T A Ca Pa F1 F2] HC. unfold kfree_thread. q_steps. split; try done.
  - intros D HD. destruct (T D HD) as (z & E & Ez). exists z. split; [|done]. simpl.
    by rewrite lookup_delete_ne by (intros ->; done).
  - intros D y HD. simpl. intros [_ E]%lookup_delete_Some. by eapply A.
Qed.

(** Nothing comes after the call but its own. *)
Lemma g_not_top s C th : G s -> C ∉ P -> s_threads s !! C = Some th -> t_transaction_stack th <> Some t.
Proof. intros H. apply H. Qed.

Lemma g_top_in s C th u : G s -> s_threads s !! C = Some th -> t_transaction_stack th = Some u ->
  u <> t -> C ∉ P.
Proof.
  intros H E Es Hu HC. destruct (gd_tops _ _ _ _ _ H C HC) as (th' & E' & _ & Es'). congruence.
Qed.

Lemma upd_buf_lists s b f : post (upd_buf s b f) (fun s' => s_lists s' = s_lists s).
Proof.
  unfold upd_buf. apply post_bind, post_deref. intros p E. cbv beta. apply post_bind.
  eapply post_mono; [apply post_true|]. intros x _. by apply post_ret.
Qed.

Definition same_lists s s' : Prop := s_lists s' = s_lists s.

(** Popping another transaction. *)
Lemma g_pop_tail s u : G s -> u <> t ->
  post (binder_pop_transaction s None u) (fun s' => G s' /\ same_lists s s').
Proof.
  intros H Hu. unfold binder_pop_transaction. cbn [res_bind]. apply post_bind.
  apply post_upd_transaction. intros x Ex. cbv beta. set (s1 := put_transaction s u _).
  assert (G s1) as H1
    by (apply (closed (G := G) s); [by apply (quiet_put_transaction s u x)|done]).
  apply post_bind, post_deref. intros y Ey. cbv beta.
  assert (forall s2, G s2 -> same_lists s s2 ->
    post (kfree_transaction s2 u) (fun s' => G s' /\ same_lists s s')) as Hk.
  { intros s2 H2 L2. eapply post_mono; [apply post_eq, g_kfree_transaction; done|].
    intros s3 [H3 E3]. apply kfree_transaction_Ret in E3 as [_ ->]. done. }
  apply post_bind. destruct (x_buffer y) as [b|]; [|apply post_ret; by apply Hk].
  eapply post_mono; [apply post_and; [by apply (q_upd_buf G)|apply upd_buf_lists]|].
  intros s2 [H2 L2]. cbv beta. by apply Hk.
Qed.

Lemma g_pop s o u : G s -> u <> t ->
  post (binder_pop_transaction s o u) (fun s' => G s' /\ same_lists s s').
Proof.
  intros H Hu. destruct o as [th|]; [|by apply g_pop_tail].
  apply post_bind. apply post_bind, post_deref. intros tt Et. cbv beta.
  apply post_bind, post_bug_on. intros Es%bool_decide_eq_false%dec_stable.
  apply post_bind, post_deref. intros x Ex. cbv beta.
  apply post_bind, post_bug_on. intros _. destruct (gd_parents _ _ _ _ _ H u x Hu Ex) as [Hp Hp2].
  pose proof (g_top_in s th tt u H Et Es Hu) as HP. set (s1 := put_thread s th _).
  assert (G s1) as H1 by (by apply g_put_thread).
  apply post_upd_transaction. intros y Ey. set (s2 := put_transaction s1 u _).
  eapply post_mono; [apply (g_pop_tail s2 u); [|done]|by intros s3 [? ?]].
  simpl in Ey. simplify_eq. by apply g_put_transaction.
Qed.

(** The walk to the caller of another transaction. *)
Lemma g_failed_reply_walk e fuel : forall s u, G s -> u <> t ->
  post (failed_reply_walk fuel s u e) (fun s' => G s' /\ same_lists s s').
Proof.
  induction fuel as [|fuel IH]; intros s u H Hu; [done|]. cbn [failed_reply_walk].
  apply post_bind, post_deref. intros x Ex. cbv beta. destruct (x_from x) as [th|].
  - apply post_bind, post_upd_thread. intros tt Et. cbv beta. set (s1 := put_thread s th _).
    assert (top_of (shift_return_error tt) = top_of tt) as Etop
      by (unfold shift_return_error; by destruct (_ && _)).
    assert (G s1) as H1
      by (apply (closed (G := G) s); [by apply (quiet_put_thread s th tt)|done]).
    apply post_bind, post_deref. intros tt1 Et1. cbv beta. destruct (_ =? _); [|by apply post_ret].
    apply post_bind. eapply post_mono; [by apply g_pop|]. intros s2 [H2 L2]. cbv beta.
    apply post_bind, post_upd_thread. intros tt2 Et2. cbv beta. apply post_ret. split; [|done]. q_close.
  - apply post_bind. eapply post_mono; [by apply g_pop|]. intros s2 [H2 L2]. cbv beta.
    destruct (gd_parents _ _ _ _ _ H u x Hu Ex) as [Hp _].
    destruct (x_from_parent x) as [v|]; [|by apply post_ret].
    eapply post_mono; [apply IH; [done|congruence]|]. intros s3 [H3 L3]. split; [done|].
    unfold same_lists in *. congruence.
Qed.

Lemma g_send_failed_reply s u e : G s -> u <> t ->
  post (binder_send_failed_reply s u e) (fun s' => G s' /\ same_lists s s').
Proof.
  intros H Hu. unfold binder_send_failed_reply. apply post_bind, post_deref. intros x Ex.
  apply post_bind, post_bug_on. intros _. by apply g_failed_reply_walk.
Qed.

(** ** A transaction of a thread that does not have the call on top *)

Lemma g_reply_target E s C : G s -> C ∉ P ->
  post (reply_target E s C) (fun r => G r.2 /\
    match r.1 with inl (_, u) => u <> t | inr f => f_in_reply_to f <> Some t end).
Proof.
  intros H HC. unfold reply_target. apply post_bind, post_deref. intros th Et. cbv beta.
  pose proof (g_not_top s C th H HC Et) as Hs. destruct (t_transaction_stack th) as [u|]; [|by apply post_ret].
  assert (u <> t) as Hu by congruence. apply post_bind, post_deref. intros x Ex. cbv beta zeta.
  destruct (gd_parents _ _ _ _ _ H u x Hu Ex) as [_ Hp].
  pose proof (q_set_nice G E s (x_saved_priority x) H) as H1. set (s1 := binder_set_nice _ _ _) in *.
  destruct (bool_decide _); [by apply post_ret|]. set (s2 := put_thread s1 C _).
  assert (G s2) as H2 by (by apply g_put_thread). destruct (x_from x) as [f|].
  - apply post_bind, post_deref. intros ft Ef. cbv beta. destruct (bool_decide _); by apply post_ret.
  - apply post_ret. split; [done|]. simpl. congruence.
Qed.

Lemma g_report_failure s C f : G s -> f_in_reply_to f <> Some t -> post (report_failure s C f) G.
Proof.
  intros H Hf. unfold report_failure. apply post_bind, post_deref. intros th Et. cbv beta.
  apply post_bind, post_bug_on. intros _. cbv beta. destruct (f_in_reply_to f) as [u|].
  - eapply post_mono; [apply g_send_failed_reply; [q_close|congruence]|]. by intros s' [? _].
  - apply post_ret. q_close.
Qed.

(** Queueing: a reply pops another call, a call is pushed on another stack. *)
Lemma g_finish_transaction s C u b g irt : G s -> u <> t -> irt <> Some t ->
  (irt = None -> C ∈ P -> forall x, s_transactions s !! u = Some x -> has_flag (x_flags x) TF_ONE_WAY = true) ->
  post (finish_transaction s C u b g irt) (fun r => G r.2).
Proof.
  intros H Hu Hi HC. unfold finish_transaction. apply post_bind.
  eapply post_mono; [apply post_true|]. intros buf _. cbv beta.
  apply post_bind, post_deref. intros x Ex. cbv beta. destruct irt as [v|].
  - apply post_bind, post_bug_on. intros _. apply post_bind.
    eapply post_mono; [apply (g_pop s (g_thread g) v H); congruence|]. intros s1 [H1 _]. by apply post_ret.
  - destruct (has_flag (x_flags x) TF_ONE_WAY) eqn:Eo; cbn [negb].
    + q_steps.
    + apply post_bind, post_bug_on. intros _. apply post_bind, post_deref. intros th Et. cbv beta.
      assert (C ∉ P) as HC' by (intros Hin; rewrite (HC eq_refl Hin x Ex) in Eo; done).
      apply post_bind, post_upd_transaction. intros y Ey. cbv beta. apply post_ret. cbn [snd].
      apply g_put_thread; [|done|simpl; congruence]. simplify_eq.
      apply g_put_transaction; [done|done| |].
      * simpl. by apply (g_not_top s C th H).
      * simpl. by apply (gd_parents _ _ _ _ _ H u x Hu Ex).
Qed.

Lemma kzalloc_other s u l : G s -> s_kzalloc s = Some u :: l -> u <> t.
Proof. intros H E ->. apply (gd_fresh _ _ _ _ _ H). rewrite E. by left. Qed.

(** Another transaction: not a call of a thread that has this one on top, and not
    its reply. *)
Lemma g_send_transaction E s m proc C tr g irt : G s -> irt <> Some t ->
  (C ∈ P -> irt = None /\ has_flag (td_flags tr) TF_ONE_WAY = true) ->
  post (send_transaction E s m proc C tr g irt) (fun r => G r.2).
Proof.
  intros H Hi HC. pose (F := fun (u : Z) s => u <> t /\ G s).
  assert (forall u, Closed (F u)) as HF.
  { intros u s1 s2 Hq [Hu H1]. split; [done|]. by apply (closed s1). }
  apply (post_send E s m proc C tr g irt F).
  - intros s1 Hq. by apply (closed s).
  - intros u l s1 x El Hl Hq Hx. pose proof (kzalloc_other s u l H El) as Hu. split; [done|].
    injection Hx as _ H1 _ H2 _. apply g_put_transaction; [by apply (closed s)|done|..]; by rewrite ?H1, ?H2.
  - intros u s1 [Hu H1]. by apply g_delete.
  - intros u tc b s1 [Hu H1] (x & Ex & Hx). injection Hx as _ _ _ _ Hf.
    eapply post_mono; [apply (g_finish_transaction s1 C u b g irt H1 Hu Hi)|].
    + intros _ HP y Ey. simplify_eq. rewrite Hf. by apply HC.
    + intros r Hr. cbv beta. cbn [snd]. by apply (q_queue_transaction G).
Qed.

Lemma call_target_failure s proc C tr : post (call_target s proc C tr)
  (fun r => forall f, r = inr f -> f_in_reply_to f = None).
Proof.
  unfold call_target, call_node, binder_get_ref.
  q_steps; try (by intros f [= <-]);
    (eapply post_mono; [apply post_true|intros th _; by apply post_ret]).
Qed.

Lemma g_binder_transaction E s m proc C tr reply : G s ->
  (C ∈ P -> reply = false /\ has_flag (td_flags tr) TF_ONE_WAY = true) ->
  post (binder_transaction E s m proc C tr reply) G.
Proof.
  intros H HC. unfold binder_transaction. destruct reply.
  - assert (C ∉ P) as HP by (intros Hin; by destruct (HC Hin)). apply post_bind.
    eapply post_mono; [by apply g_reply_target|]. intros [[[g u]|f] s1] [H1 Hu]; cbn [fst snd] in *.
    + apply post_bind. eapply post_mono; [apply g_send_transaction; [done|congruence|done]|].
      intros [[|] s2] H2; cbn [snd] in H2; cbv beta iota; [by apply post_ret|].
      apply g_report_failure; [done|]. simpl. congruence.
    + by apply g_report_failure.
  - apply post_bind. eapply post_mono; [apply call_target_failure|]. intros [g|f] Hf; cbv beta iota.
    + apply post_bind. eapply post_mono; [apply g_send_transaction; [done|done|]|].
      { intros Hin. by destruct (HC Hin). }
      intros [[|] s2] H2; cbn [snd] in H2; cbv beta iota; [by apply post_ret|].
      by apply g_report_failure.
    + apply g_report_failure; [done|]. by rewrite (Hf f eq_refl).
Qed.

(** ** Commands *)

(** The command is neither a synchronous call nor a reply. *)
Definition keeps_stack (m : user_memory) (cmd ptr : Z) : Prop :=
  cmd <> BC_REPLY /\ forall bytes, cmd = BC_TRANSACTION ->
    copy_from_user m ptr sizeof_transaction_data = Some bytes ->
    has_flag (td_flags (td_decode bytes)) TF_ONE_WAY = true.

Lemma g_write_command E s m proc C cmd ptr : G s -> (C ∈ P -> keeps_stack m cmd ptr) ->
  post (write_command E s m proc C cmd ptr) (fun r => G r.2).
Proof.
  intros H HC. unfold write_command.
  repeat match goal with |- post (if ?c then _ else _) _ => destruct c eqn:? end; try q_steps.
  - unfold write_transaction, fault.
    destruct (copy_from_user m ptr sizeof_transaction_data) as [bytes|] eqn:Em; [|by apply post_ret].
    apply post_bind. eapply post_mono; [apply g_binder_transaction; [done|]|].
    + intros Hin. destruct (HC Hin) as [Hr Ho]. apply bool_decide_eq_true in Heqb3.
      assert (cmd = BC_TRANSACTION) as Ec by set_solver. split; [|by apply Ho].
      by apply Z.eqb_neq.
    + intros s1 H1. by apply post_ret.
  - apply (closed (G := G) s); [|done]. eapply quiet_put_thread; [done|].
    unfold enter_looper. by destruct (looper_has x _).
Qed.

Lemma g_write_loop E m proc C buffer end_ fuel : C ∉ P -> forall s ptr consumed, G s ->
  post (write_loop fuel E s m proc C buffer ptr end_ consumed) (fun r => G r.2).
Proof.
  intros HC. induction fuel as [|fuel IH]; intros s ptr consumed H; cbn [write_loop].
  - q_steps.
  - apply post_bind, post_deref. intros th Et. cbv beta. destruct (_ && _); [|by apply post_ret].
    destruct (get_user32 m ptr) as [cmd|]; [|by apply post_ret]. apply post_bind.
    eapply post_mono; [by apply g_write_command|]. intros [[p|r] s1] H1; cbn [snd] in H1; cbv beta iota.
    + by apply IH.
    + by apply post_ret.
Qed.

Lemma g_binder_thread_write E s m proc C buffer size consumed : G s -> C ∉ P ->
  post (binder_thread_write E s m proc C buffer size consumed) (fun r => G r.2).
Proof. intros H HC. by apply g_write_loop. Qed.

(** ** Returns *)

Lemma transaction_priority_quiet E s x n : quiet s (transaction_priority E s x n).
Proof.
  unfold transaction_priority. repeat case_match; try apply quiet_nice; apply quiet_refl.
Qed.

Lemma g_delivered s C u b c : G s -> u <> t -> C ∉ P -> post (transaction_delivered s C u b c) G.
Proof.
  intros H Hu HC. unfold transaction_delivered. cbv zeta. apply post_bind.
  eapply post_mono; [apply (q_upd_buf G); q_close|]. intros s1 H1. cbv beta.
  apply post_bind, post_deref. intros x Ex. cbv beta. destruct (_ && _).
  - apply post_bind, post_deref. intros th Et. cbv beta. apply post_ret.
    apply g_put_thread; [|done|simpl; congruence].
    destruct (gd_parents _ _ _ _ _ H1 u x Hu Ex) as [Hp _].
    apply g_put_transaction; [done|done|done|]. simpl. by apply (g_not_top s1 C th).
  - apply post_bind. eapply post_mono; [by apply (q_upd_buf G)|]. intros s2 H2. cbv beta.
    by apply g_kfree_transaction.
Qed.

(** Whatever [transaction_delivered] keeps, [read_transaction] keeps. *)
Lemma post_read_transaction E s m proc C u ptr (F Q : driver -> Prop) {HF : Closed F} : F s ->
  (forall s1, F s1 -> Q s1) ->
  (forall s1 b c, F s1 -> post (transaction_delivered s1 C u b c) Q) ->
  post (read_transaction E s m proc C u ptr) (fun r => Q r.1.2 /\ forall p, r.1.1 <> Continue p).
Proof.
  intros H HQ HD. unfold read_transaction. apply post_bind, post_deref. intros x Ex. cbv beta.
  destruct (x_buffer x) as [b|]; [|done]. apply post_bind.
  eapply post_mono; [apply post_true|]. intros buf _. cbv beta. apply post_bind.
  apply (post_mono _ (fun r => F r.2)).
  { destruct (b_target_node buf) as [n|]; [|by apply post_ret].
    apply post_bind, post_deref. intros nd En. cbv beta. apply post_ret. cbn [snd].
    eapply closed; [apply transaction_priority_quiet|]. q_close. }
  intros [[[cmd tp] ck] s1] H1. cbn [snd] in H1. cbv beta iota.
  apply post_bind. eapply post_mono; [apply post_true|]. intros pid _. cbv beta.
  apply post_bind, post_deref. intros p Ep. cbv beta zeta.
  destruct (put_user32 m ptr cmd) as [m1|]; [|apply post_ret; split; [by apply HQ|done]].
  destruct (copy_to_user m1 _ _) as [m2|]; [|apply post_ret; split; [by apply HQ|done]].
  apply post_bind. eapply post_mono; [by apply HD|]. intros s2 H2. cbv beta. by apply post_ret.
Qed.

(** Everything but a transaction. *)
Lemma q_read_other E s m proc C w ptr (F : driver -> Prop) {HF : Closed F} : F s ->
  (forall u, w <> WTransaction u) ->
  post (read_work E s m proc C w ptr) (fun r => F r.1.2).
Proof.
  intros H Hw. destruct w as [u|u|n|d]; cbn [read_work]; [by destruct (Hw u)|q_steps..].
Qed.

(** The call once the thread [C], with [o] on its stack, has taken it. *)
Definition taken (C : Z) (o : option Z) : option Z * option Z * option Z * option Z * Z :=
  let '(f, fp, _, _, fl) := k in (f, fp, Some C, o, fl).

Definition waiting_or_taken (C : Z) (o : option Z) (s : driver) : Prop :=
  (G s \/ guarded (C :: P) pr t (taken C o) s) \/ top_is C (pr C) o s /\ s_transactions s !! t = None.

(** A thread with [o] on its stack, that stays. *)
Definition ready (C : Z) (o : option Z) (s : driver) : Prop :=
  G s /\ top_is C (pr C) o s /\ Some C ∉ s_kzalloc s.

Lemma g_take_thread s C th x : G s -> C ∉ P -> s_threads s !! C = Some th -> t_proc th = pr C ->
  Some C ∉ s_kzalloc s -> s_transactions s !! t = Some x ->
  guarded (C :: P) pr t (taken C (t_transaction_stack th))
    (put_thread (put_transaction s t (set_x_to_thread (Some C) (set_x_to_parent (t_transaction_stack th) x)))
       C (set_t_transaction_stack (Some t) th)).
Proof.
  intros [T A Ca Pa F1 F2] HC Et Ep Hf Ex. split; try done.
  - intros D HD. simpl. destruct (decide (D = C)) as [->|N].
    + eexists. split; [apply lookup_insert_eq|done].
    + apply elem_of_cons in HD as [?|HD]; [done|]. destruct (T D HD) as (z & E & Ez).
      exists z. split; [|done]. simpl. by rewrite lookup_insert_ne.
  - intros D z HD. apply not_elem_of_cons in HD as [N HD]. simpl. rewrite lookup_insert_ne by done.
    by apply A.
  - destruct Ca as (y & Ey & Hy). simplify_eq. eexists. split; [apply lookup_insert_eq|].
    unfold taken. by rewrite <- Hy.
  - intros v z Hv. simpl. rewrite lookup_insert_ne by done. by apply Pa.
  - intros D [->|HD]%elem_of_cons; [done|by apply F2].
Qed.

Lemma take_delivered s C b c o : ready C o s -> C ∉ P ->
  post (transaction_delivered s C t b c) (waiting_or_taken C o).
Proof.
  intros H HC. unfold transaction_delivered. cbv zeta. apply post_bind.
  eapply post_mono; [apply (q_upd_buf (ready C o)); q_close|]. intros s1 (H1 & (th & Et & Ep & Eo) & Hf).
  cbv beta. apply post_bind, post_deref. intros x Ex. cbv beta. destruct (_ && _).
  - apply post_bind, post_deref. intros th' Et'. simplify_eq. apply post_ret. left. right.
    by apply g_take_thread.
  - assert (top_is C (pr C) o s1) as Ht by (by exists th). apply post_bind.
    eapply post_mono; [by apply (q_upd_buf (top_is C (pr C) o))|]. intros s2 H2. cbv beta.
    unfold kfree_transaction. apply post_bind, post_deref. intros y Ey. apply post_ret. right.
    split; [exact H2|]. simpl. by rewrite lookup_delete_eq.
Qed.

(** A read hands over one transaction at the end: what holds until then, and what
    after it. *)
Lemma post_read_loop E (F Q : driver -> Prop) {HF : Closed F} {HQ : Closed Q} C fuel :
  (forall s, F s -> Q s) ->
  (forall s u b c, F s -> post (transaction_delivered s C u b c) Q) ->
  forall s m f, fr_thread f = C -> F s -> post (read_loop fuel E s m f) (fun r => Q (read_state r)).
Proof.
  intros FQ Hd. induction fuel as [|fuel IH]; intros s m f <- H; [done|]. cbn [read_loop].
  destruct (next_work s f) as [w|].
  2: { apply post_bind, post_deref. intros th Et. cbv beta.
       destruct (_ && _); [by apply (q_read_retry Q), FQ|by apply (q_read_done Q), FQ]. }
  destruct (_ <? _); [by apply (q_read_done Q), FQ|].
  assert ((exists u, w = WTransaction u) \/ forall u, w <> WTransaction u) as [[u ->]|Hw]
    by (destruct w; [left; by eexists|by right..]).
  - cbn [read_work]. apply post_bind.
    eapply post_mono; [apply (post_read_transaction E s m _ _ u _ F Q); [done|done|by intros s1 b c; apply Hd]|].
    intros [[n s1] m1] [H1 Hn]. cbn [fst snd] in *. cbv beta iota.
    destruct n as [p|p|]; [by destruct (Hn p)|by apply (q_read_done Q)|by apply post_ret].
  - apply post_bind. eapply post_mono; [by apply (q_read_other E s m _ _ w _ F)|].
    intros [[n s1] m1] H1. cbn [fst snd] in *. cbv beta iota.
    destruct n as [p|p|]; [by apply (IH s1 m1 (set_fr_ptr p f))|by apply (q_read_done Q), FQ|by apply post_ret, FQ].
Qed.

Lemma post_read_resume E (F Q : driver -> Prop) {HF : Closed F} {HQ : Closed Q} s m f ret :
  (forall s, F s -> Q s) ->
  (forall s u b c, F s -> post (transaction_delivered s (fr_thread f) u b c) Q) ->
  F s -> post (read_resume E s m f ret) (fun r => Q (read_state r)).
Proof.
  intros FQ Hd H. unfold read_resume. apply post_bind.
  apply (post_mono _ F); [q_steps|]. intros s1 H1. cbv beta. apply post_bind.
  apply (post_mono _ F); [q_steps|]. intros s2 H2. cbv beta.
  destruct (negb _); [by apply post_ret, FQ|by apply (post_read_loop E F Q (fr_thread f))].
Qed.

(** A thread that does not have the call on top reads: the call is where it was, or
    the thread has taken it and has it on top of what it had. *)
Lemma g_read_resume E s m f ret o : ready (fr_thread f) o s -> fr_thread f ∉ P ->
  post (read_resume E s m f ret) (fun r => waiting_or_taken (fr_thread f) o (read_state r)).
Proof.
  intros H HC. apply (post_read_resume E (ready (fr_thread f) o) (waiting_or_taken (fr_thread f) o));
    [| |done].
  - intros s1 [H1 _]. by left; left.
  - intros s1 u b c H1. destruct (decide (u = t)) as [->|Hu]; [by apply take_delivered|].
    eapply post_mono; [apply g_delivered; [apply H1|done|done]|]. intros s2 H2. by left; left.
Qed.

(** The thread [C] took the call, or took it away. *)
Definition took_call (C : Z) (s : driver) : Prop :=
  (exists p, top_is C p (Some t) s) \/ s_transactions s !! t = None.

#[local] Instance closed_took C : Closed (took_call C).
Proof.
  apply closed_or; [|apply _]. intros s s' Hq [p H]. exists p. by apply (closed_top C p (Some t) s s').
Qed.

Lemma g_read_resume_other E s m f ret : G s -> fr_thread f ∉ P ->
  post (read_resume E s m f ret) (fun r => G (read_state r) \/ took_call (fr_thread f) (read_state r)).
Proof.
  intros H HC. apply (post_read_resume E G (fun s => G s \/ took_call (fr_thread f) s)); [by left| |done].
  intros s1 u b c H1. destruct (decide (u = t)) as [->|Hu].
  2: { eapply post_mono; [by apply g_delivered|]. intros s2 H2. by left. }
  unfold transaction_delivered. cbv zeta. apply post_bind. eapply post_mono; [apply post_true|].
  intros s2 _. cbv beta. apply post_bind, post_deref. intros x Ex. cbv beta. destruct (_ && _).
  - apply post_bind, post_deref. intros th Et. cbv beta. apply post_ret. right. left.
    eexists _, _. split; [apply lookup_insert_eq|done].
  - apply post_bind. eapply post_mono; [apply post_true|]. intros s3 _. cbv beta.
    unfold kfree_transaction. apply post_bind, post_deref. intros y Ey. apply post_ret. right. right.
    simpl. by rewrite lookup_delete_eq.
Qed.

(** A thread that has the call on top reads what is on its own list, as long as that
    is no transaction. *)
Definition no_transaction (C : Z) (s : driver) : Prop :=
  forall u, WTransaction u ∉ work_list s (ThreadTodo C).

Lemma work_list_shrinks s w l : work_list (list_del s w) l ⊆ work_list s l.
Proof. intros v. rewrite work_list_del, list_elem_of_filter. by intros [_ H]. Qed.

Lemma no_transaction_del C s w : no_transaction C s -> no_transaction C (list_del s w).
Proof. intros H u Hin. by eapply H, work_list_shrinks. Qed.

Lemma no_transaction_read E s m proc C w ptr : (forall u, w <> WTransaction u) -> no_transaction C s ->
  post (read_work E s m proc C w ptr) (fun r => no_transaction C r.1.2).
Proof.
  intros Hw H. pose proof (no_transaction_del C s w H) as Hd. destruct w as [u|u|n|d]; cbn [read_work].
  - by destruct (Hw u).
  - destruct (put_user32 m ptr _); by apply post_ret.
  - unfold read_node. apply post_bind, post_deref. intros nd En. cbv beta.
    destruct (node_command nd) as [cmd n']. destruct (negb _).
    + destruct (put_words _ _ _) as [[ok p] m1]. by apply post_ret.
    + destruct (_ && _); [|by apply post_ret]. unfold upd_proc, kfree_node.
      repeat first [apply post_bind | apply post_deref; intros ? ?; cbv beta | apply post_ret]. exact Hd.
  - unfold read_death. apply post_bind, post_deref. intros dd Ed. cbv beta zeta.
    destruct (put_words _ _ _) as [[ok p] m1]. destruct (negb ok); [by apply post_ret|].
    destruct (bool_decide _).
    + unfold kfree_death.
      repeat first [apply post_bind | apply post_deref; intros ? ?; cbv beta | apply post_ret]. exact Hd.
    + apply post_ret. cbn [fst snd]. intros u. unfold work_list, list_add. simpl.
      rewrite lookup_total_insert_ne by done. apply Hd.
Qed.

Lemma g_read_loop_own E fuel : forall s m f, G s -> fr_wait_for_proc_work f = false ->
  no_transaction (fr_thread f) s ->
  post (read_loop fuel E s m f) (fun r => G (read_state r)).
Proof.
  induction fuel as [|fuel IH]; intros s m f H Hw Hn; [done|]. cbn [read_loop].
  destruct (next_work s f) as [w|] eqn:En.
  2: { apply post_bind, post_deref. intros th Et. cbv beta.
       destruct (_ && _); [by apply (q_read_retry G)|by apply (q_read_done G)]. }
  destruct (_ <? _); [by apply (q_read_done G)|].
  assert (forall u, w <> WTransaction u) as Hwt.
  { intros u ->. apply (Hn u). unfold next_work in En. rewrite Hw in En.
    destruct (work_list s _); [done|]. injection En as ->. by left. }
  apply post_bind. eapply post_mono;
    [apply post_and; [by apply (q_read_other E s m _ _ w _ G)|by apply no_transaction_read]|].
  intros [[n s1] m1] [H1 N1]. cbn [fst snd] in *. cbv beta iota.
  destruct n as [p|p|]; [by apply (IH s1 m1 (set_fr_ptr p f))|by apply (q_read_done G)|by apply post_ret].
Qed.

Lemma g_read_resume_own E s m f ret : G s -> fr_wait_for_proc_work f = false ->
  no_transaction (fr_thread f) s ->
  post (read_resume E s m f ret) (fun r => G (read_state r)).
Proof.
  intros H Hw Hn. unfold read_resume. rewrite Hw. cbn [res_bind]. apply post_bind, post_upd_thread.
  intros th Et. cbv beta. destruct (negb _).
  - apply post_ret. cbn [read_state]. q_close.
  - apply g_read_loop_own; [q_close|done|done].
Qed.

(** ** Threads *)

Lemma g_get_thread s proc pid : G s -> post (binder_get_thread s proc pid) (fun r => G r.2).
Proof.
  intros H. unfold binder_get_thread. apply post_bind, post_deref. intros p Ep. cbv beta.
  pose proof (quiet_kzalloc s) as Hq.
  assert (forall C, (kzalloc s).1 = Some C -> C ∉ P) as Hf.
  { unfold kzalloc. destruct (s_kzalloc s) as [|a l] eqn:El; [done|]. intros C [= ->] HC.
    apply (gd_fresh_threads _ _ _ _ _ H C HC). rewrite El. by left. }
  destruct (kzalloc s) as [o s1]. cbn [fst snd] in *. apply post_bind.
  eapply post_mono; [apply post_true|]. intros y _. cbv beta.
  assert (G s1) as H1 by (by apply (closed (G := G) s)).
  destruct y, o as [C|]; try (by apply post_ret).
  apply post_ret. cbn [snd]. apply g_put_thread; [q_close|by apply Hf|done].
Qed.

Lemma g_leave_transactions C fuel : forall s o, G s -> o <> Some t ->
  post (leave_transactions fuel s C o) (fun s' => G s' /\ same_lists s s').
Proof.
  induction fuel as [|fuel IH]; intros s [u|] H Ho; try done; cbn [leave_transactions].
  assert (u <> t) as Hu by congruence. apply post_bind, post_deref. intros x Ex. cbv beta.
  destruct (gd_parents _ _ _ _ _ H u x Hu Ex) as [Hp Hp2]. destruct (bool_decide _).
  - cbv zeta. set (s1 := put_transaction s u _). assert (G s1) as H1 by (by apply g_put_transaction).
    assert (forall s2, G s2 -> same_lists s s2 -> post (leave_transactions fuel s2 C
      (x_to_parent (set_x_to_thread None (set_x_to_proc None x)))) (fun s' => G s' /\ same_lists s s')) as Hnext.
    { intros s2 H2 L2. eapply post_mono; [by apply IH|]. intros s3 [H3 L3]. split; [done|].
      unfold same_lists in *. congruence. }
    apply post_bind. destruct (x_buffer _) as [b|]; [|by apply post_ret, Hnext].
    apply post_bind. eapply post_mono; [apply post_and; [by apply (q_upd_buf G)|apply upd_buf_lists]|].
    intros s2 [H2 L2]. cbv beta. apply post_upd_transaction. intros y Ey.
    apply Hnext; [q_close|]. exact L2.
  - destruct (bool_decide _); [|done]. cbv zeta. set (s1 := put_transaction s u _).
    assert (G s1) as H1 by (by apply g_put_transaction). by apply (IH s1).
Qed.

Lemma g_release_one s w : G s -> w <> WTransaction t ->
  post (release_one s w) (fun s' => G s' /\ same_lists s s').
Proof.
  intros H Hw. destruct w as [u|u|n|d]; cbn [release_one]; [|by apply post_ret..|].
  - assert (u <> t) as Hu by congruence. apply post_bind, post_deref. intros x Ex. cbv beta.
    destruct (x_buffer x) as [b|]; [|done]. apply post_bind. eapply post_mono; [apply post_true|].
    intros buf _. cbv beta. destruct (_ && _); [by apply g_send_failed_reply|]. apply post_bind.
    eapply post_mono; [apply post_and; [by apply (q_upd_buf G)|apply upd_buf_lists]|].
    intros s1 [H1 L1]. cbv beta. eapply post_mono; [apply post_eq, g_kfree_transaction; done|].
    intros s2 [H2 E2]. apply kfree_transaction_Ret in E2 as [_ ->]. done.
  - apply post_bind, post_deref. intros dd Ed. cbv beta.
    destruct (d_type dd); try (by apply post_ret); unfold kfree_death;
      apply post_bind, post_deref; intros d' Ed'; cbv beta; apply post_ret; (split; [q_close|done]).
Qed.

Lemma g_release_work l fuel : forall s, G s -> WTransaction t ∉ work_list s l ->
  post (release_work fuel s l) G.
Proof.
  induction fuel as [|fuel IH]; intros s H Hn; cbn [release_work];
    destruct (work_list s l) as [|w ws] eqn:El; try done.
  apply post_bind. eapply post_mono; [apply g_release_one; [q_close|]|].
  - intros ->. apply Hn. by left.
  - intros s1 [H1 L1]. cbv beta. apply IH; [done|]. unfold work_list. rewrite L1.
    intros Hin. apply Hn. rewrite <- El. by eapply work_list_shrinks.
Qed.

Lemma g_free_thread s proc C : G s -> C ∉ P -> WTransaction t ∉ work_list s (ThreadTodo C) ->
  post (binder_free_thread s proc C) G.
Proof.
  intros H HC Hn. unfold binder_free_thread. apply post_bind. unfold upd_proc at 1.
  apply post_bind, post_deref. intros p Ep. cbv beta. apply post_ret. set (s1 := put_proc _ _ _).
  assert (G s1) as H1 by (apply (closed (G := G) s); [by apply quiet_same|done]).
  apply post_bind, post_deref. intros th Et. cbv beta. pose proof (g_not_top s1 C th H1 HC Et) as Hs.
  apply post_bind.
  apply (post_mono _ (fun r : option Z => r <> Some t)).
  { destruct (t_transaction_stack th) as [u|]; [|by apply post_ret].
    apply post_bind, post_deref. intros x Ex. cbv beta. apply post_ret. by destruct (bool_decide _). }
  intros r Hr. cbv beta. apply post_bind. eapply post_mono; [by apply g_leave_transactions|].
  intros s2 [H2 L2]. cbv beta. apply post_bind.
  apply (post_mono _ (fun s' => G s' /\ same_lists s s')).
  { destruct r as [u|]; [|by apply post_ret].
    eapply post_mono; [apply g_send_failed_reply; [done|congruence]|]. intros s3 [H3 L3].
    split; [done|]. unfold same_lists in *. rewrite L3, L2. done. }
  intros s3 [H3 L3]. cbv beta. apply post_bind.
  eapply post_mono; [apply g_release_work; [done|unfold work_list; by rewrite L3]|].
  intros s4 H4. cbv beta. by apply g_kfree_thread.
Qed.

(** ** Whole calls of the driver *)

(** The current thread is another one; when it exits, the call is not on its list. *)
Definition elsewhere (s : driver) (proc pid cmd : Z) : Prop :=
  forall C s1, binder_get_thread s proc pid = Ret (Some C, s1) ->
    C ∉ P /\ (cmd = BINDER_THREAD_EXIT -> WTransaction t ∉ work_list s1 (ThreadTodo C)).

Lemma g_binder_ioctl E s m proc pid euid cmd ubuf : G s -> elsewhere s proc pid cmd ->
  post (binder_ioctl E s m proc pid euid cmd ubuf) (fun o => G (ioctl_state o)).
Proof.
  intros H He. unfold binder_ioctl. apply post_bind.
  eapply post_mono; [by apply post_eq, g_get_thread|]. intros [[C|] s1] [H1 E1]; cbn [snd] in H1; cbv beta iota.
  2: by apply (q_ioctl_return G).
  destruct (He C s1 E1) as [HC Hx]. destruct (cmd =? BINDER_WRITE_READ).
  { unfold binder_ioctl_write_read. destruct (negb _); [by apply (q_ioctl_return G)|].
    destruct (copy_from_user m ubuf _) as [bytes|]; [|by apply (q_ioctl_return G)]. cbv zeta. apply post_bind.
    apply (post_mono _ (fun r => G r.2)).
    { destruct (0 <? _); [|by apply post_ret]. apply post_bind.
      eapply post_mono; [by apply g_binder_thread_write|]. intros [[r c] s2] H2. by apply post_ret. }
    intros [[r bwr] s2] H2. cbn [snd] in H2. cbv beta iota.
    destruct (r <? 0); [by apply (q_write_back G)|]. destruct (0 <? _); [|by apply (q_write_back G)].
    apply post_bind. eapply post_mono; [by apply (q_binder_thread_read G)|]. intros o Ho. cbv beta.
    by apply (q_after_read G). }
  destruct (cmd =? BINDER_SET_MAX_THREADS).
  { destruct (get_user32 m ubuf) as [n|]; [|by apply (q_ioctl_return G)]. apply post_bind.
    unfold upd_proc. apply post_bind, post_deref. intros p Ep. cbv beta. apply post_ret.
    apply (q_ioctl_return G). q_close. }
  destruct (cmd =? BINDER_SET_CONTEXT_MGR).
  { apply post_bind. eapply post_mono; [by apply (q_set_ctx_mgr G)|]. intros [r s2] H2.
    by apply (q_ioctl_return G). }
  destruct (Z.eqb_spec cmd BINDER_THREAD_EXIT) as [Ex|].
  { apply post_bind. eapply post_mono; [apply g_free_thread; [done|done|by apply Hx]|].
    intros s2 H2. cbv beta. by apply (q_ioctl_return G). }
  repeat case_match; by apply (q_ioctl_return G).
Qed.

Lemma g_ioctl_resume_other E s m bwr ubuf f ret : G s -> fr_thread f ∉ P ->
  post (ioctl_resume E s m bwr ubuf f ret)
    (fun o => G (ioctl_state o) \/ took_call (fr_thread f) (ioctl_state o)).
Proof.
  intros H HC. unfold ioctl_resume. apply post_bind. eapply post_mono; [by apply g_read_resume_other|].
  intros o Ho. cbv beta. by apply (q_after_read (fun s => G s \/ took_call (fr_thread f) s)).
Qed.

(** What other threads do, and what those of the call do beside: a thread that has
    the call on top of its stack neither calls nor replies, and is handed no call;
    another one may do anything but take the call.  No process is torn down. *)
Inductive activity : driver -> driver -> Prop :=
| act_ioctl E s m proc pid euid cmd ubuf o :
    elsewhere s proc pid cmd ->
    binder_ioctl E s m proc pid euid cmd ubuf = Ret o -> activity s (ioctl_state o)
| act_resume E s m bwr ubuf f ret o :
    fr_thread f ∉ P -> ioctl_resume E s m bwr ubuf f ret = Ret o ->
    ~ took_call (fr_thread f) (ioctl_state o) -> activity s (ioctl_state o)
| act_thread s proc pid o s' : binder_get_thread s proc pid = Ret (o, s') -> activity s s'
| act_command E s m proc C cmd ptr r s' :
    keeps_stack m cmd ptr -> write_command E s m proc C cmd ptr = Ret (r, s') -> activity s s'
| act_read E s m proc C buffer size consumed o :
    binder_thread_read E s m proc C buffer size consumed = Ret o -> activity s (read_state o)
| act_resume_own E s m f ret o :
    fr_wait_for_proc_work f = false -> no_transaction (fr_thread f) s ->
    read_resume E s m f ret = Ret o -> activity s (read_state o)
| act_return s m C ret o : ioctl_return s m C ret = Ret o -> activity s (ioctl_state o)
| act_open s tsk pid : activity s (binder_open s tsk pid).2
| act_defer s proc d s' : binder_defer_work s proc d = Ret s' -> activity s s'
| act_vma_close s proc s' : binder_vma_close s proc = Ret s' -> activity s s'
| act_flush s proc s' : binder_deferred_flush s proc = Ret s' -> activity s s'.

Lemma activity_guarded s s' : activity s s' -> G s -> G s'.
Proof.
  intros A H. destruct A as [E s m proc pid euid cmd ubuf o He R|E s m bwr ubuf f ret o HC R N
    |s proc pid o s' R|E s m proc C cmd ptr r s' K R|E s m proc C buffer size consumed o R
    |E s m f ret o Hw Hn R|s m C ret o R|s tsk pid|s proc d s' R|s proc s' R|s proc s' R].
  - exact (post_elim _ _ _ (g_binder_ioctl E s m proc pid euid cmd ubuf H He) R).
  - by destruct (post_elim _ _ _ (g_ioctl_resume_other E s m bwr ubuf f ret H HC) R).
  - exact (post_elim _ _ _ (g_get_thread s proc pid H) R).
  - exact (post_elim _ _ _ (g_write_command E s m proc C cmd ptr H (fun _ => K)) R).
  - exact (post_elim _ _ _ (q_binder_thread_read G E s m proc C buffer size consumed H) R).
  - exact (post_elim _ _ _ (g_read_resume_own E s m f ret H Hw Hn) R).
  - exact (post_elim _ _ _ (q_ioctl_return G s m C ret H) R).
  - by apply (q_binder_open G).
  - exact (post_elim _ _ _ (q_defer_work G s proc d H) R).
  - exact (post_elim _ _ _ (q_vma_close G s proc H) R).
  - exact (post_elim _ _ _ (q_deferred_flush G s proc H) R).
Qed.

Lemma activities_guarded s s' : rtc activity s s' -> G s -> G s'.
Proof. induction 1; [done|]. intros H1. by eapply IHrtc, activity_guarded. Qed.

End Guarded.

(** ** The call is sent *)

Section Sent.
Context `{RL : RbLib} `{U : BinderUapi}.

Implicit Types s : driver.

(** Nothing leads to the memory the allocator has to give. *)
Record supply_unused (s : driver) : Prop := {
  su_nodup : NoDup (omap id (s_kzalloc s));
  su_threads a C th : Some a ∈ s_kzalloc s -> s_threads s !! C = Some th ->
    C <> a /\ t_transaction_stack th <> Some a;
  su_transactions a u x : Some a ∈ s_kzalloc s -> s_transactions s !! u = Some x ->
    x_from_parent x <> Some a /\ x_to_parent x <> Some a
}.

(** A new transaction is not on any stack. *)
Lemma supply_guarded pr s s1 u l x k : supply_unused s -> s_kzalloc s = Some u :: l ->
  suffix (s_kzalloc s1) l -> quiet s s1 -> links x = k ->
  x_from_parent x = None -> x_to_parent x = None ->
  guarded [] pr u k (put_transaction s1 u x).
Proof.
  intros [N T X] El [l' El'] [Qt Ql _] Hk H1 H2.
  assert (Some u ∈ s_kzalloc s) as Hu by (rewrite El; by left).
  split.
  - by intros C ?%not_elem_of_nil.
  - intros C th _ E. simpl in E. destruct (fmap_lookup_back _ _ _ _ _ Qt E) as (th0 & E0 & Et).
    injection Et as _ ->. by eapply T.
  - exists x. split; [apply lookup_insert_eq|done].
  - intros v y Hv. simpl. rewrite lookup_insert_ne by done. intros E.
    destruct (fmap_lookup_back _ _ _ _ _ Ql E) as (z & Ez & Hz). unfold links in Hz.
    injection Hz as _ -> _ -> _. by eapply X.
  - simpl. intros Hin. rewrite El in N. simpl in N. apply NoDup_cons in N as [N _].
    apply N, list_elem_of_omap. exists (Some u). split; [|done]. rewrite El'. apply elem_of_app. by right.
  - by intros C ?%not_elem_of_nil.
Qed.

(** Pushing it on the caller's stack. *)
Lemma guarded_push pr u f fp to tp fl s A thA x : guarded [] pr u (f, fp, to, tp, fl) s ->
  s_threads s !! A = Some thA -> t_proc thA = pr A -> Some A ∉ s_kzalloc s ->
  s_transactions s !! u = Some x ->
  guarded [A] pr u (f, t_transaction_stack thA, to, tp, fl)
    (put_thread (put_transaction s u (set_x_from_parent (t_transaction_stack thA) (set_x_need_reply true x)))
       A (set_t_transaction_stack (Some u) thA)).
Proof.
  intros [_ Al Ca Pa F1 _] Et Ep Hf Ex. split; try done.
  - intros C ->%list_elem_of_singleton. eexists. split; [apply lookup_insert_eq|done].
  - intros C th HC. rewrite list_elem_of_singleton in HC. simpl. rewrite lookup_insert_ne by done.
    apply Al, not_elem_of_nil.
  - destruct Ca as (y & Ey & Hy). simplify_eq. eexists. split; [apply lookup_insert_eq|].
    unfold links in *. simpl. congruence.
  - intros v y Hv. simpl. rewrite lookup_insert_ne by done. by apply Pa.
  - by intros C ->%list_elem_of_singleton.
Qed.

(** A synchronous call that was queued is on top of its caller's stack, with the
    old top below it; one that failed leaves the stack. *)
Lemma call_sent E s m proc A thA tr pr : supply_unused s -> s_threads s !! A = Some thA ->
  t_proc thA = pr A -> has_flag (td_flags tr) TF_ONE_WAY = false ->
  post (binder_transaction E s m proc A tr false) (fun s' =>
    top_is A (pr A) (t_transaction_stack thA) s' \/
    exists t to, top_is A (pr A) (Some t) s' /\
      guarded [A] pr t (Some A, t_transaction_stack thA, to, None, td_flags tr) s').
Proof.
  intros Hs Et Ep Ho. set (st := t_transaction_stack thA). set (Top := top_is A (pr A) st).
  assert (Top s) as Htop by (by exists thA).
  assert (Some A ∉ s_kzalloc s) as HA by (intros Hin; by destruct (su_threads _ Hs A A thA Hin Et)).
  assert (forall s1 f, Top s1 -> f_in_reply_to f = None -> post (report_failure s1 A f) Top) as Hfail.
  { intros s1 f H1 Hf. unfold report_failure. rewrite Hf. apply post_bind, post_deref. intros th E1.
    cbv beta. apply post_bind, post_bug_on. intros _. apply post_ret. q_close. }
  unfold binder_transaction. apply post_bind. eapply post_mono; [apply call_target_failure|].
  intros [g|f] Hf; cbv beta iota.
  2: { eapply post_mono; [by apply Hfail, Hf|]. intros s1 H1. by left. }
  apply post_bind.
  pose (F := fun u s => guarded [] pr u (sent_links A g tr false) s /\ Top s /\ Some A ∉ s_kzalloc s).
  assert (forall u, Closed (F u)) as HF by (intros u; apply _).
  apply (post_mono _ (fun r : bool * driver => if r.1 then
    exists t to, top_is A (pr A) (Some t) r.2 /\ guarded [A] pr t (Some A, st, to, None, td_flags tr) r.2
    else Top r.2)).
  2: { intros [[|] s1] H1; cbn [fst snd] in H1; cbv beta iota; [apply post_ret; by right|].
       eapply post_mono; [by apply Hfail|]. intros s2 H2. by left. }
  apply (post_send E s m proc A tr g None F).
  - intros s1 Hq. by apply (closed (G := Top) s).
  - intros u l s1 x El Hl Hq Hx. split; [|split].
    + pose proof Hx as Hl'. unfold links, sent_links in Hl'. injection Hl' as _ H2 _ H4 _.
      by apply (supply_guarded pr s s1 u l).
    + change (Top s1). by apply (closed (G := Top) s).
    + intros Hin. apply HA. destruct Hq as [_ _ [l' El']]. rewrite El'. apply elem_of_app. by right.
  - intros u s1 (_ & H1 & _). exact H1.
  - intros u tc b s1 (H1 & (th & E1 & P1 & S1) & N1) (x & Ex & Hx). unfold sent_links in *. simpl in Hx, H1.
    rewrite Ho in Hx, H1. simpl in Hx, H1. injection Hx as _ _ _ _ Hfl.
    unfold finish_transaction. apply post_bind. eapply post_mono; [apply post_true|]. intros buf _.
    cbv beta. apply post_bind, post_deref. intros x' Ex'. assert (x' = x) as -> by congruence. rewrite Hfl, Ho. cbn [negb].
    apply post_bind, post_bug_on. intros _. apply post_bind, post_deref. intros th' Et'.
    assert (th' = th) as -> by congruence. apply post_bind, post_upd_transaction. intros y Ey.
    assert (y = x) as -> by congruence. apply post_ret. cbn [fst snd].
    pose proof (guarded_push pr u _ _ _ _ _ s1 A th x H1 E1 P1 N1 Ex) as Hg.
    rewrite S1 in Hg. exists u, (g_thread g). split.
    + apply (q_queue_transaction (top_is A (pr A) (Some u))). eexists. split; [apply lookup_insert_eq|done].
    + apply (q_queue_transaction (guarded [A] pr u _)). rewrite S1. exact Hg.
Qed.

End Sent.

(** ** The reply *)

Section Reply.
Context `{RL : RbLib} `{U : BinderUapi}.
Context (pr : Z -> Z) (A B t : Z) (oA oB : option Z) (fl : Z) (AB : A <> B).

Implicit Types s : driver.

(** The call is gone and both stacks are as they were. *)
Definition returned s : Prop :=
  top_is A (pr A) oA s /\ top_is B (pr B) oB s /\ s_transactions s !! t = None.

(** The server has taken the call off its stack, the caller waits. *)
Definition replying s : Prop :=
  linked t (Some A, oA, Some B, oB, fl) s /\ top_is A (pr A) (Some t) s /\ top_is B (pr B) oB s.

#[local] Instance closed_returned : Closed returned.
Proof. unfold returned. apply _. Qed.
#[local] Instance closed_replying : Closed replying.
Proof. unfold replying. apply _. Qed.

(** What holds once the caller's stack is popped and the transaction is freed. *)
Lemma post_pop s x thA (F : driver -> Prop) (Q : driver -> Prop) {HF : Closed F} :
  s_transactions s !! t = Some x -> s_threads s !! A = Some thA ->
  F (put_transaction (put_thread s A (set_t_transaction_stack (x_from_parent x) thA)) t (set_x_from None x)) ->
  (forall s', F s' -> Q (set_s_transactions (delete t (s_transactions s')) s')) ->
  post (binder_pop_transaction s (Some A) t) Q.
Proof.
  intros Ex EA H2 HQ. unfold binder_pop_transaction.
  apply post_bind, post_bind, post_deref. intros th Et. assert (th = thA) as -> by congruence.
  apply post_bind, post_bug_on. intros _. apply post_bind, post_deref. intros x' Ex'.
  assert (x' = x) as -> by congruence. apply post_bind, post_bug_on. intros _. cbv zeta.
  apply post_upd_transaction. intros z Ez. assert (z = x) as -> by (simpl in Ez; congruence).
  set (s2 := put_transaction _ t _) in *. apply post_bind, post_upd_transaction. intros z2 Ez2. cbv beta.
  set (s3 := put_transaction s2 t _).
  assert (F s3) as H3 by (apply (closed (G := F) s2); [by eapply quiet_put_transaction|done]).
  apply post_bind, post_deref. intros z3 Ez3. cbv beta. apply post_bind.
  apply (post_mono _ F); [destruct (x_buffer z3); [by apply (q_upd_buf F)|by apply post_ret]|].
  intros s4 H4. cbv beta. unfold kfree_transaction. apply post_bind, post_deref. intros z4 _.
  by apply post_ret, HQ.
Qed.

Lemma pop_call s : replying s -> post (binder_pop_transaction s (Some A) t) returned.
Proof.
  intros ((x & Ex & Hx) & (thA & EA & PA & SA) & (thB & EB & PB & SB)).
  unfold links in Hx. injection Hx as X1 X2 X3 X4 X5.
  pose (F := fun s => top_is A (pr A) oA s /\ top_is B (pr B) oB s).
  assert (Closed F) as HF by apply _. apply (post_pop s x thA F _); [done|done| |].
  - split.
    + eexists. split; [apply lookup_insert_eq|]. by split.
    + exists thB. split; [|done]. simpl. by rewrite lookup_insert_ne.
  - intros s' [H1 H2]. split; [exact H1|]. split; [exact H2|]. simpl. by rewrite lookup_delete_eq.
Qed.

Lemma pop_linked s u k : replying s -> u <> t -> linked u k s ->
  post (binder_pop_transaction s (Some A) t) (linked u k).
Proof.
  intros ((x & Ex & _) & (thA & EA & _) & _) Hu (y & Ey & Hy).
  apply (post_pop s x thA (linked u k) _); [done|done| |].
  - exists y. split; [|done]. simpl. by rewrite lookup_insert_ne.
  - intros s' (w & Ew & Hw). exists w. split; [|done]. simpl. by rewrite lookup_delete_ne.
Qed.

(** The caller is told that the reply failed, if it has a place for the error. *)
Lemma failed_call s thA n : replying s -> s_threads s !! A = Some thA ->
  post (failed_reply_walk (S n) s t BR_FAILED_REPLY) (fun s' =>
    if error_slot thA then
      returned s' /\ ThreadWait A ∈ s_wakes s' /\
      exists th, s_threads s' !! A = Some th /\ t_return_error th = BR_FAILED_REPLY
    else replying s').
Proof.
  intros H EA. pose proof H as ((x & Ex & Hx) & _). unfold links in Hx. injection Hx as X1 _ _ _ _.
  cbn [failed_reply_walk]. apply post_bind, post_deref. intros x' Ex'.
  assert (x' = x) as -> by congruence. cbv beta. rewrite X1.
  destruct (shift_return_error_slot thA) as (Hslot & Hstack & _).
  apply post_bind, post_upd_thread. intros th Et. assert (th = thA) as -> by congruence. cbv beta.
  set (s1 := put_thread s A _). assert (replying s1) as H1.
  { apply (closed (G := replying) s); [|done]. eapply quiet_put_thread; [done|].
    unfold top_of. rewrite Hstack. unfold shift_return_error. by destruct (_ && _). }
  apply post_bind, post_deref. intros th1 Et1. cbv beta. simpl in Et1. rewrite lookup_insert_eq in Et1.
  injection Et1 as <-. rewrite Hslot. destruct (error_slot thA); [|by apply post_ret].
  apply post_bind. eapply post_mono; [by apply pop_call|]. intros s2 H2. cbv beta.
  apply post_bind, post_upd_thread. intros th2 Et2. cbv beta. apply post_ret. split; [|split].
  - apply (closed (G := returned) (put_thread s2 A (set_t_return_error BR_FAILED_REPLY th2)));
      [by apply quiet_same|]. apply (closed (G := returned) s2); [by eapply quiet_put_thread|done].
  - by left.
  - eexists. split; [apply lookup_insert_eq|done].
Qed.

(** The reply is queued for the caller, who is woken. *)
Definition handed (tr : transaction_data) s : Prop := exists u,
  linked u (None, None, Some A, None, td_flags tr) s /\
  WTransaction u ∈ work_list s (ThreadTodo A) /\ ThreadWait A ∈ s_wakes s.

Lemma reply_goes E s m proc tr : replying s -> Some t ∉ s_kzalloc s ->
  post (send_transaction E s m proc B tr (Target (pr A) (Some A) None) (Some t))
    (fun r => if r.1 then returned r.2 /\ handed tr r.2 else replying r.2).
Proof.
  intros H Ht. pose (F := fun u s => u <> t /\ replying s).
  assert (forall u, Closed (F u)) as HF.
  { intros u s1 s2 Hq [Hu H1]. split; [done|]. by apply (closed s1). }
  apply (post_send E s m proc B tr _ (Some t) F).
  - intros s1 Hq. by apply (closed (G := replying) s).
  - intros u l s1 x El Hl Hq Hx. assert (u <> t) as Hu by (intros ->; apply Ht; rewrite El; by left).
    split; [done|]. destruct (closed (G := replying) s s1 Hq H) as ((y & Ey & Hy) & HA & HB).
    split; [|by split]. exists y. split; [|done]. simpl. by rewrite lookup_insert_ne.
  - intros u s1 [Hu ((y & Ey & Hy) & HA & HB)]. split; [|by split]. exists y. split; [|done]. simpl.
    by rewrite lookup_delete_ne.
  - intros u tc b s1 [Hu H1] L1. unfold finish_transaction. apply post_bind.
    eapply post_mono; [apply post_true|]. intros buf _. cbv beta. apply post_bind, post_deref.
    intros x Ex. cbv beta. apply post_bind, post_bug_on. intros _. apply post_bind.
    eapply post_mono; [apply post_and; [by apply pop_call|by apply (pop_linked s1 u)]|].
    intros s2 [H2 L2]. apply post_ret. cbn [fst snd]. split.
    + by apply (q_queue_transaction returned).
    + exists u. split; [|split].
      * by apply (q_queue_transaction (linked u _)).
      * unfold queue_transaction. cbv zeta. cbn [target_wait target_list g_thread].
        unfold work_list, wake_up, list_add_tail. simpl.
        rewrite lookup_total_insert_ne by congruence. rewrite lookup_total_insert_eq.
        apply elem_of_app. right. by left.
      * unfold queue_transaction. simpl. by left.
Qed.

(** The target of the reply is the caller. *)
Lemma reply_to_caller E s : guarded [B; A] pr t (Some A, oA, Some B, oB, fl) s ->
  exists s1, reply_target E s B = Ret (inl (Target (pr A) (Some A) None, t), s1) /\
    replying s1 /\ Some t ∉ s_kzalloc s1.
Proof.
  intros [T _ (x & Ex & Hx) _ F1 _]. pose proof Hx as Hl. unfold links in Hl.
  injection Hl as X1 X2 X3 X4 X5.
  destruct (T B) as (thB & EB & PB & SB); [by left|].
  destruct (T A) as (thA & EA & PA & SA); [by right; left|].
  unfold reply_target, get_thread, get_transaction. rewrite (deref_Some _ _ _ EB). cbn [res_bind].
  rewrite SB, (deref_Some _ _ _ Ex). cbn [res_bind]. cbv zeta. rewrite X3.
  rewrite bool_decide_eq_false_2 by (intros H; by apply H). rewrite X1, X4.
  assert (exists v, binder_set_nice E s (x_saved_priority x) = set_s_nice v s) as [v ->]
    by (unfold binder_set_nice; destruct (k_can_nice E _); by eexists).
  rewrite (deref_Some _ A thA) by (simpl; by rewrite lookup_insert_ne by done). cbn [res_bind].
  rewrite bool_decide_eq_false_2 by (rewrite SA; intros H; by apply H). rewrite PA.
  eexists. split; [reflexivity|]. split; [|exact F1]. split; [|split].
  - by exists x.
  - exists thA. split; [|done]. simpl. by rewrite lookup_insert_ne by done.
  - eexists. split; [apply lookup_insert_eq|done].
Qed.

Lemma reply_failed s thA : replying s -> s_threads s !! A = Some thA ->
  post (report_failure s B (Failure BR_FAILED_REPLY (Some t))) (fun s' =>
    if error_slot thA then
      returned s' /\ ThreadWait A ∈ s_wakes s' /\
      exists th, s_threads s' !! A = Some th /\ t_return_error th = BR_FAILED_REPLY
    else replying s').
Proof.
  intros H EA. unfold report_failure. apply post_bind, post_deref. intros thB EB. cbv beta.
  apply post_bind, post_bug_on. intros _. cbn [f_in_reply_to f_error]. unfold binder_send_failed_reply.
  apply post_bind, post_deref. intros x Ex. cbv beta. apply post_bind, post_bug_on. intros _.
  apply failed_call; [|simpl; by rewrite lookup_insert_ne by done].
  apply (closed (G := replying) s); [by eapply quiet_put_thread|done].
Qed.

End Reply.
