(* ===== verification/CallThms.v ===== *)
(** * CallThms: a call from one thread to another and back

    Theorems that follow a synchronous transaction through the driver: what the
    server's thread reads, and how the stacks of both threads grow and shrink
    over the call and its reply while other threads run ([CallGuard]). *)

From S2P Require Import Prelude RbTree BufferAlloc DriverState NodeRef NodeRefThms Uapi Transaction ThreadWrite ThreadRead Lifecycle BufferThms Never ReplyThms ObjectThms CallGuard.

(** ** What is written into the reader's memory *)

Definition td_fits (t : transaction_data) : Prop :=
  0 <= td_target t < 2 ^ 64 /\ 0 <= td_cookie t < 2 ^ 64 /\ 0 <= td_code t < 2 ^ 32 /\
  0 <= td_flags t < 2 ^ 32 /\ 0 <= td_sender_pid t < 2 ^ 32 /\ 0 <= td_sender_euid t < 2 ^ 32 /\
  0 <= td_data_size t < 2 ^ 64 /\ 0 <= td_offsets_size t < 2 ^ 64 /\ 0 <= td_buffer t < 2 ^ 64 /\
  0 <= td_offsets t < 2 ^ 64.

Lemma u64_add_lt a b c : 0 <= a -> 0 <= b -> b <= c -> a + c < 2 ^ 64 -> u64 (a + b) = a + b.
Proof. intros. apply u64_small. lia. Qed.

(** Two writes in a row, both read back. *)
Lemma write_two m a l1 l2 :
  is_Some (copy_from_user m a (Z.of_nat (length l1) + Z.of_nat (length l2))) ->
  exists m1 m2, copy_to_user m a l1 = Some m1 /\
    copy_to_user m1 (a + Z.of_nat (length l1)) l2 = Some m2 /\
    copy_from_user m2 a (Z.of_nat (length l1)) = Some l1 /\
    copy_from_user m2 (a + Z.of_nat (length l1)) (Z.of_nat (length l2)) = Some l2 /\
    forall x, ~ (a <= x < a + Z.of_nat (length l1) + Z.of_nat (length l2)) -> m2 !! x = m !! x.
Proof.
  intros H. rewrite copy_from_user_is_Some in H. exists (write_bytes m a l1).
  eexists (write_bytes _ _ l2). split; [|split; [|split; [|split]]].
  - apply copy_to_user_ok, copy_from_user_is_Some. intros x Hx. apply H. lia.
  - apply copy_to_user_ok, copy_from_user_is_Some. intros x Hx. apply write_bytes_is_Some, H. lia.
  - rewrite <- (copy_from_user_write m a l1). apply copy_from_user_ext. intros x Hx.
    rewrite write_bytes_lookup, decide_False by lia. done.
  - apply copy_from_user_write.
  - intros x Hx. by rewrite !write_bytes_lookup, !decide_False by lia.
Qed.

Section Calls.
Context `{RL : RbLib} `{U : BinderUapi}.

Lemma td_decode_fits t : td_fits t -> td_decode (td_encode t) = t.
Proof. intros (? & ? & ? & ? & ? & ? & ? & ? & ? & ?). by apply td_decode_encode. Qed.

(** The command, pointer and cookie a buffer's target is delivered with. *)
Definition delivered_as (s : driver) (buf : binder_buffer) : Z * Z * Z :=
  match b_target_node buf with
  | Some node =>
      match s_nodes s !! node with
      | Some n => (BR_TRANSACTION, n_ptr n, n_cookie n)
      | None => (BR_TRANSACTION, 0, 0)
      end
  | None => (BR_REPLY, 0, 0)
  end.

(** The process id a reader is told. *)
Definition caller_pid (E : kenv) (s : driver) (x : DriverState.binder_transaction) : Z :=
  default 0 (f ← x_from x; ft ← s_threads s !! f; fp ← s_procs s !! t_proc ft;
             Some (k_task_tgid E (p_tsk fp))).

Lemma transaction_delivered_spec s thread t b x th is_call :
  s_transactions s !! t = Some x -> buf_live s b -> s_threads s !! thread = Some th ->
  exists s', transaction_delivered s thread t b is_call = Ret s' /\
    s_lists s' = s_lists (list_del s (WTransaction t)) /\ s_nodes s' = s_nodes s /\
    s_refs s' = s_refs s /\
    if is_call && negb (has_flag (x_flags x) TF_ONE_WAY) then
      s_threads s' = <[thread := set_t_transaction_stack (Some t) th]> (s_threads s) /\
      s_transactions s' =
        <[t := set_x_to_thread (Some thread) (set_x_to_parent (t_transaction_stack th) x)]>
          (s_transactions s)
    else s_threads s' = s_threads s /\ s_transactions s' = delete t (s_transactions s).
Proof.
  intros Ex Hb Eth. unfold transaction_delivered. set (s1 := list_del s (WTransaction t)).
  destruct (upd_buf_live s1 b (set_b_allow_user_free true)) as (s2 & E2 & Hl & _); [done|done|].
  rewrite E2. cbn [res_bind]. destruct (upd_buf_same _ _ _ _ E2) as (L2 & N2 & R2 & T2 & X2).
  unfold get_transaction. rewrite X2. change (s_transactions s1) with (s_transactions s).
  rewrite (deref_Some _ _ _ Ex). cbn [res_bind].
  destruct (is_call && negb (has_flag (x_flags x) TF_ONE_WAY)).
  - unfold get_thread. rewrite T2. change (s_threads s1) with (s_threads s).
    rewrite (deref_Some _ _ _ Eth). cbn [res_bind]. eexists. split; [reflexivity|]. simpl.
    by rewrite L2, N2, R2, T2, X2.
  - destruct (upd_buf_live s2 b (set_b_transaction None)) as (s3 & E3 & _); [by apply Hl|done|].
    rewrite E3. cbn [res_bind]. destruct (upd_buf_same _ _ _ _ E3) as (L3 & N3 & R3 & T3 & X3).
    eexists. split; [apply kfree_transaction_Ret; split; [|reflexivity]|].
    + rewrite X3, X2. by eexists.
    + simpl. by rewrite L3, N3, R3, T3, X3, L2, N2, R2, T2, X2.
Qed.

Lemma delivered_cmd_range s buf cmd target cookie :
  delivered_as s buf = (cmd, target, cookie) -> 0 <= cmd < 256 ^ Z.of_nat 4.
Proof.
  intros E. pose proof returns_range as H. rewrite Forall_forall in H.
  change (256 ^ Z.of_nat 4) with (2 ^ 32). apply H. unfold delivered_as in E.
  destruct (b_target_node buf) as [n|]; [destruct (s_nodes s !! n)|]; injection E as <- _ _; set_solver.
Qed.

Lemma transaction_priority_nice E s x n : exists v, transaction_priority E s x n = set_s_nice v s.
Proof.
  unfold transaction_priority, binder_set_nice.
  repeat match goal with |- context [if ?c then _ else _] => destruct c end;
    first [by eexists | exists (s_nice s); by destruct s].
Qed.

(** A reader is handed the transaction that was sent: the command says call
    or reply, and the structure after it has the node's pointer and cookie
    (none for a reply), the sender's code, flags, process and user, and the
    sizes and user-space addresses of the buffer.  Nothing else of its memory
    is touched.  The transaction leaves its list; a synchronous call goes on
    top of the reader's stack, with the old top below it, and anything else is
    freed. *)
Theorem read_transaction_correct E s m proc p thread th t x b buf ptr :
  s_transactions s !! t = Some x -> x_buffer x = Some b -> get_buf s b = Ret buf ->
  s_procs s !! proc = Some p -> s_threads s !! thread = Some th ->
  (forall n, b_target_node buf = Some n -> is_Some (s_nodes s !! n)) ->
  (forall f, x_from x = Some f -> exists ft, s_threads s !! f = Some ft /\ is_Some (s_procs s !! t_proc ft)) ->
  let '(cmd, target, cookie) := delivered_as s buf in
  let tr := delivered_data E p x buf target cookie (caller_pid E s x) in
  td_fits tr ->
  0 <= ptr -> ptr + 4 + sizeof_transaction_data < 2 ^ 64 ->
  is_Some (copy_from_user m ptr (4 + sizeof_transaction_data)) ->
  exists s' m', read_transaction E s m proc thread t ptr =
      Ret (Break (ptr + 4 + sizeof_transaction_data), s', m') /\
    get_user32 m' ptr = Some cmd /\
    td_decode <$> copy_from_user m' (ptr + 4) sizeof_transaction_data = Some tr /\
    (forall a, ~ (ptr <= a < ptr + 4 + sizeof_transaction_data) -> m' !! a = m !! a) /\
    s_lists s' = s_lists (list_del s (WTransaction t)) /\ s_nodes s' = s_nodes s /\
    if bool_decide (is_Some (b_target_node buf)) && negb (has_flag (x_flags x) TF_ONE_WAY) then
      s_threads s' = <[thread := set_t_transaction_stack (Some t) th]> (s_threads s) /\
      exists x', s_transactions s' = <[t := x']> (s_transactions s) /\
        x_from x' = x_from x /\ x_from_parent x' = x_from_parent x /\ x_flags x' = x_flags x /\
        x_buffer x' = x_buffer x /\
        x_to_thread x' = Some thread /\ x_to_parent x' = t_transaction_stack th
    else s_threads s' = s_threads s /\ s_transactions s' = delete t (s_transactions s).
Proof.
  intros Ex Eb Ebuf Ep Eth Hnode Hfrom. destruct (delivered_as s buf) as [[cmd target] cookie] eqn:Ed.
  intros tr Hfit Hptr Hend Hm. pose proof sizeof_td_pos as Htd.
  unfold read_transaction, get_transaction. rewrite (deref_Some _ _ _ Ex). cbn [res_bind].
  rewrite Eb, Ebuf. cbn [res_bind].
  assert (exists s1 x1, (match b_target_node buf with
     | Some node => let! n := get_node s node in
         Ret (BR_TRANSACTION, n_ptr n, n_cookie n,
              transaction_priority E (put_transaction s t (set_x_saved_priority (s_nice s) x)) x n)
     | None => Ret (BR_REPLY, 0, 0, s) end) = Ret (cmd, target, cookie, s1) /\
     s_procs s1 = s_procs s /\ s_threads s1 = s_threads s /\ s_lists s1 = s_lists s /\
     s_nodes s1 = s_nodes s /\ s_transactions s1 = <[t := x1]> (s_transactions s) /\
     (x1 = x \/ x1 = set_x_saved_priority (s_nice s) x)) as (s1 & x1 & -> & P1 & T1 & L1 & N1 & X1 & Ex1).
  { unfold delivered_as in Ed. destruct (b_target_node buf) as [node|].
    - destruct (Hnode node eq_refl) as [n En]. unfold get_node. rewrite En in Ed.
      rewrite (deref_Some _ _ _ En). injection Ed as <- <- <-. cbn [res_bind]. cbv zeta.
      destruct (transaction_priority_nice E (put_transaction s t (set_x_saved_priority (s_nice s) x)) x n)
        as [v ->].
      eexists _, _. split; [reflexivity|]. do 5 (split; [done|]). by right.
    - injection Ed as <- <- <-. exists s, x. split; [done|]. do 4 (split; [done|]).
      split; [by rewrite insert_id|by left]. }
  cbn [res_bind].
  assert (sender_pid E s1 x = Ret (caller_pid E s x)) as ->.
  { unfold sender_pid, caller_pid, get_thread, get_proc. rewrite P1, T1.
    destruct (x_from x) as [f|]; [|done]. destruct (Hfrom f eq_refl) as (ft & Eft & fp & Efp).
    rewrite (deref_Some _ _ _ Eft). cbn [res_bind]. rewrite (deref_Some _ _ _ Efp). simpl.
    rewrite Eft. simpl. by rewrite Efp. }
  cbn [res_bind]. unfold get_proc. rewrite P1, (deref_Some _ _ _ Ep). cbn [res_bind]. fold tr. cbv zeta.
  rewrite !u64_small by lia.
  assert (Z.of_nat (length (le_encode 4 cmd)) = 4) as Hl4 by by rewrite length_le_encode.
  destruct (write_two m ptr (le_encode 4 cmd) (td_encode tr)) as (m1 & m2 & E1 & E2 & G1 & G2 & Go);
    [by rewrite Hl4, length_td_encode|]. rewrite Hl4 in *. rewrite length_td_encode in *.
  unfold put_user32. rewrite E1. cbv iota. rewrite E2.
  destruct (transaction_delivered_spec s1 thread t b x1 th (bool_decide (is_Some (b_target_node buf))))
    as (s' & E3 & L3 & N3 & _ & H3); [by rewrite X1, lookup_insert_eq| |by rewrite T1|].
  { unfold buf_live, get_buf, get_proc in *. rewrite P1. eauto. }
  rewrite E3. cbn [res_bind]. exists s', m2. split; [done|]. split.
  { unfold get_user32. rewrite G1. unfold mbind, option_bind.
    rewrite le_decode_encode; [done|]. by apply (delivered_cmd_range s buf cmd target cookie). }
  split; [rewrite G2; simpl; by rewrite td_decode_fits|]. split; [done|].
  split; [rewrite L3; unfold list_del; simpl; by rewrite L1|]. split; [by rewrite N3|].
  assert (x_flags x1 = x_flags x /\ x_from x1 = x_from x /\ x_from_parent x1 = x_from_parent x /\
    x_buffer x1 = x_buffer x) as (F1 & F2 & F3 & F4) by (by destruct Ex1 as [-> | ->]).
  rewrite F1 in H3. destruct (_ && _); rewrite T1, X1 in H3.
  - destruct H3 as [-> ->]. split; [done|]. eexists. rewrite insert_insert_eq. split; [reflexivity|].
    simpl. by rewrite F1, F2, F3, F4.
  - destruct H3 as [-> ->]. by rewrite delete_insert_eq.
Qed.

(** ** The stacks over a call and its reply *)

(** C1: over a call and its reply both stacks return to what they were, whatever
    other threads do.  A thread [A] makes a synchronous call that is queued; other
    threads run any ioctls, threads exit, [A] goes to sleep; a thread [B] reads and
    takes the call; again others run, and [A] and [B] give commands that are
    neither calls nor replies.  Then the target of [B]'s reply is [A].  If the reply
    can be sent, it is on [A]'s list and [A] is woken, both threads have the stacks
    they had, and the call is gone; if it cannot, [A] is told so with the same
    effect on the stacks, unless both its error slots are taken: then it goes on
    waiting. *)
Theorem call_reply_stacks E s m procA A thA tr s1 t s1' E' m' f ret o B thB s2' E'' :
  supply_unused s -> s_threads s !! A = Some thA -> has_flag (td_flags tr) TF_ONE_WAY = false ->
  binder_transaction E s m procA A tr false = Ret s1 ->
  top_is A (t_proc thA) (Some t) s1 -> t_transaction_stack thA <> Some t ->
  rtc (activity [A] t) s1 s1' ->
  fr_thread f = B -> A <> B -> s_threads s1' !! B = Some thB -> Some B ∉ s_kzalloc s1' ->
  read_resume E' s1' m' f ret = Ret o -> top_is B (t_proc thB) (Some t) (read_state o) ->
  rtc (activity [B; A] t) (read_state o) s2' ->
  exists s3, reply_target E'' s2' B = Ret (inl (Target (t_proc thA) (Some A) None, t), s3) /\
    forall m'' procB tr' s4, binder_transaction E'' s2' m'' procB B tr' true = Ret s4 ->
      exists ok s5, send_transaction E'' s3 m'' procB B tr' (Target (t_proc thA) (Some A) None) (Some t)
          = Ret (ok, s5) /\
        let stacks_back := top_is A (t_proc thA) (t_transaction_stack thA) s4 /\
          top_is B (t_proc thB) (t_transaction_stack thB) s4 /\ s_transactions s4 !! t = None in
        if ok then s4 = s5 /\ stacks_back /\ handed A tr' s4
        else exists tA, s_threads s5 !! A = Some tA /\
          if error_slot tA then
            stacks_back /\ ThreadWait A ∈ s_wakes s4 /\
            exists th, s_threads s4 !! A = Some th /\ t_return_error th = BR_FAILED_REPLY
          else top_is A (t_proc thA) (Some t) s4 /\
            top_is B (t_proc thB) (t_transaction_stack thB) s4 /\ is_Some (s_transactions s4 !! t).
Proof.
  intros Hs EA Ho E1 T1 Hne Ac1 <- AB EB HB E2 T2 Ac2. set (B := fr_thread f) in *.
  pose (pr := fun C => if C =? A then t_proc thA else t_proc thB).
  assert (pr A = t_proc thA) as PA by (unfold pr; by rewrite Z.eqb_refl).
  assert (pr B = t_proc thB) as PB by (unfold pr; by rewrite (proj2 (Z.eqb_neq B A))).
  destruct (post_elim _ _ _ (call_sent E s m procA A thA tr pr Hs EA (eq_sym PA) Ho) E1)
    as [(th & E3 & _ & S3)|(t' & to & (th & E3 & _ & S3) & G1)];
    destruct T1 as (th' & E3' & _ & S3'); [congruence|].
  assert (t' = t) as -> by congruence. clear th th' E3 E3' S3 S3'.
  apply (activities_guarded _ pr _ _ _ _ Ac1) in G1.
  assert (B ∉ [A]) as HBA by (rewrite list_elem_of_singleton; congruence).
  assert (ready [A] pr t (Some A, t_transaction_stack thA, to, None, td_flags tr) B
    (t_transaction_stack thB) s1') as R1 by (split; [done|]; split; [by exists thB|done]).
  pose proof (gd_alone _ _ _ _ _ G1 B thB HBA EB) as HoB.
  destruct (post_elim _ _ _ (g_read_resume _ pr t _ E' s1' m' f ret _ R1 HBA) E2)
    as [[G2|G2]|[(th & E3 & _ & S3) _]]; destruct T2 as (th' & E3' & _ & S3').
  { by destruct (gd_alone _ _ _ _ _ G2 B th' HBA E3'). }
  2: { change (fr_thread f) with B in E3. congruence. }
  unfold taken in G2. apply (activities_guarded _ pr _ _ _ _ Ac2) in G2.
  destruct (reply_to_caller pr A B t _ _ _ AB E'' s2' G2) as (s3 & E4 & H3 & F3).
  rewrite PA in E4. exists s3. split; [exact E4|]. intros m'' procB tr' s4 E5.
  unfold binder_transaction in E5. rewrite E4 in E5. cbn [res_bind] in E5.
  destruct (send_transaction E'' s3 m'' procB B tr' _ (Some t)) as [[ok s5]|] eqn:E6; [|done].
  cbn [res_bind] in E5. exists ok, s5. split; [done|]. cbv zeta.
  pose proof (reply_goes pr A B t _ _ _ AB E'' s3 m'' procB tr' H3 F3) as H5. rewrite PA, E6 in H5.
  simpl in H5. destruct ok.
  - injection E5 as <-. destruct H5 as [Hr Hh]. unfold returned in Hr. rewrite PA, PB in Hr. done.
  - pose proof H5 as (_ & (tA & EtA & _) & _). exists tA. split; [done|].
    pose proof (post_elim _ _ _ (reply_failed pr A B t _ _ _ AB s5 tA H5 EtA) E5) as H6.
    unfold returned, replying in H6. rewrite PA, PB in H6. destruct (error_slot tA); [done|].
    destruct H6 as ((x & Ex & _) & HA & HB'). split; [done|]. split; [done|by eexists].
Qed.

End Calls.

(** ** Witnesses *)

#[local] Existing Instance plain_rb.

(** Thread 300 of process 100 calls process 200; 501 is to be the reply. *)
Definition sample_thread (proc pid : Z) : binder_thread := BinderThread proc pid 0 None BR_OK BR_OK.
Definition sample_call_x : DriverState.binder_transaction :=
  BinderTransaction 7 (Some 300) None (Some 200) None None false (Some (200, 4096)) 5 0 0 0 1000.
Definition sample_reply_x : DriverState.binder_transaction :=
  BinderTransaction 8 None None (Some 100) (Some 300) None false None 0 0 0 0 1001.

Definition sample_call : driver :=
  set_s_threads (<[300 := sample_thread 100 300]> {[302 := sample_thread 200 302]})
    (set_s_transactions (<[500 := sample_call_x]> {[501 := sample_reply_x]}) sample_release).

Definition sample_called : driver :=
  match finish_transaction sample_call 300 500 (200, 4096) (Target 200 None (Some 1000)) None with
  | Ret (_, _, s) => s
  | Bug _ => sample_call
  end.

Definition sample_taken : driver :=
  match transaction_delivered sample_called 302 500 (200, 4096) true with
  | Ret s => s
  | Bug _ => sample_call
  end.

Definition sample_call_buffer : binder_buffer :=
  BinderBuffer 4096 false true false 1 None (Some 1000) 48 16
    (fo_encode sample_handle ++ fo_encode sample_object) [0; 24].

Definition sample_room : user_memory := write_bytes ∅ 8192 (le_encode 68 0).

Lemma read_transaction_correct_witness :
  exists s' m', read_transaction sample_kenv sample_called sample_room 200 302 500 8192 =
      Ret (Break 8260, s', m') /\ get_user32 m' 8192 = Some BR_TRANSACTION /\
    (td_code <$> (td_decode <$> copy_from_user m' 8196 64) = Some 5) /\
    t_transaction_stack <$> s_threads s' !! 302 = Some (Some 500).
Proof.
  pose proof (read_transaction_correct sample_kenv sample_called sample_room 200
    (default (sample_binder_proc 2) (s_procs sample_called !! 200)) 302 (sample_thread 200 302) 500
    (set_x_need_reply true sample_call_x) (200, 4096) sample_call_buffer 8192
    ltac:(by vm_compute) ltac:(done) ltac:(by vm_compute) ltac:(by vm_compute) ltac:(by vm_compute)) as H.
  assert (delivered_as sample_called sample_call_buffer = (BR_TRANSACTION, 16, 32)) as Ed by by vm_compute.
  rewrite Ed in H. cbv zeta in H. destruct H as (s' & m' & E & G & D & _ & _ & _ & H).
  - intros n [= <-]. vm_compute. by eexists.
  - intros f [= <-]. eexists. vm_compute. split; [done|by eexists].
  - unfold td_fits. vm_compute. repeat split; discriminate.
  - lia.
  - simpl. lia.
  - vm_compute. by eexists.
  - exists s', m'. split; [exact E|]. split; [exact G|]. split.
    + change sizeof_transaction_data with 64 in D. change (8192 + 4) with 8196 in D. rewrite D. reflexivity.
    + match type of H with if ?c then _ else _ => change c with true in H end.
      destruct H as [-> _]. reflexivity.
Defined.

(** Thread 302 of process 200 calls the node of process 100, goes to sleep, a thread
    comes and goes, and thread 300 of process 100 reads the call. *)
Definition sample_empty (target : Z) : transaction_data := TransactionData target 0 5 0 0 0 0 0 0 0.

Definition sample_with_memory (a : Z) (s : driver) : driver :=
  put_proc s a (set_p_mem sample_mapped (default (sample_binder_proc 1) (s_procs s !! a))).

Definition sample_before : driver :=
  set_s_kzalloc [Some 500; Some 501; Some 502; Some 503; Some 504]
    (set_s_threads (<[300 := sample_thread 100 300]> {[302 := sample_thread 200 302]})
      (sample_with_memory 100 (sample_with_memory 200 sample_held))).

Definition sample_reading : user_memory := write_bytes ∅ 8192 (replicate 256 0).

Definition sample_read_frame : read_frame := ReadFrame 100 300 8192 8448 4 8196 true.

Definition res_or {A} (d : A) (m : res A) : A := match m with Ret a => a | Bug _ => d end.

Definition sample_sent_call : driver :=
  res_or sample_before (binder_transaction sample_kenv sample_before ∅ 200 302 (sample_empty 1) false).
Definition sample_asleep : read_outcome :=
  res_or (Done 0 0 sample_before ∅)
    (binder_thread_read sample_kenv sample_sent_call ∅ 200 302 8192 256 4).
Definition sample_other : ioctl_outcome :=
  res_or (IoctlDone 0 sample_before ∅)
    (binder_ioctl sample_kenv (read_state sample_asleep) ∅ 100 999 0 BINDER_THREAD_EXIT 0).
Definition sample_took : read_outcome :=
  res_or (Done 0 0 sample_before ∅)
    (read_resume sample_kenv (ioctl_state sample_other) sample_reading sample_read_frame 0).
Definition sample_looper : driver :=
  (res_or (Next 0, sample_before)
    (write_command sample_kenv (read_state sample_took) ∅ 100 300 BC_ENTER_LOOPER 0)).2.
Definition sample_replied : driver :=
  res_or sample_before (binder_transaction sample_kenv sample_looper ∅ 100 300 (sample_empty 0) true).

(** What a computation that returned returned. *)
Definition returned_ok {A} (m : res A) : bool := match m with Ret _ => true | Bug _ => false end.

Lemma res_or_ok {A} (d : A) (m : res A) : returned_ok m = true -> m = Ret (res_or d m).
Proof. by destruct m. Qed.

Lemma sample_supply : supply_unused sample_before.
Proof.
  assert (map_Forall (fun C th => Some C ∉ s_kzalloc sample_before /\ t_transaction_stack th = None)
    (s_threads sample_before)) as HT by (apply (bool_decide_unpack _); by vm_compute).
  assert (s_transactions sample_before = ∅) as HX by (by vm_compute).
  split.
  - apply (bool_decide_unpack _). by vm_compute.
  - intros a C th Ha E. destruct (HT C th E) as [H1 H2]. split; [by intros ->|by rewrite H2].
  - intros a u x _. rewrite HX, lookup_empty. done.
Qed.

Lemma sample_calling : rtc (activity [302] 500) sample_sent_call (ioctl_state sample_other).
Proof.
  eapply rtc_l; [apply (act_read [302] 500 sample_kenv sample_sent_call ∅ 200 302 8192 256 4 sample_asleep);
    apply res_or_ok; by vm_compute|].
  eapply rtc_l; [|apply rtc_refl].
  apply (act_ioctl [302] 500 sample_kenv (read_state sample_asleep) ∅ 100 999 0 BINDER_THREAD_EXIT 0 sample_other).
  - intros C s1 E.
    assert (match binder_get_thread (read_state sample_asleep) 100 999 with
      | Ret (Some C, s1) => bool_decide (C ∉ [302]) &&
          bool_decide (WTransaction 500 ∉ work_list s1 (ThreadTodo C))
      | _ => true end = true) as H by (by vm_compute).
    rewrite E in H. apply andb_true_iff in H as [H1%bool_decide_eq_true H2%bool_decide_eq_true]. by split.
  - apply res_or_ok. by vm_compute.
Qed.

Lemma sample_serving : rtc (activity [300; 302] 500) (read_state sample_took) sample_looper.
Proof.
  eapply rtc_l; [|apply rtc_refl].
  eapply (act_command [300; 302] 500 sample_kenv (read_state sample_took) ∅ 100 300 BC_ENTER_LOOPER 0).
  - by split.
  - unfold sample_looper. rewrite (res_or_ok (Next 0, sample_before)
      (write_command sample_kenv (read_state sample_took) ∅ 100 300 BC_ENTER_LOOPER 0)) at 1 by (by vm_compute).
    apply f_equal. apply surjective_pairing.
Qed.

Lemma call_reply_stacks_witness :
  (exists s3, reply_target sample_kenv sample_looper 300 =
     Ret (inl (Target 200 (Some 302) None, 500), s3)) /\
  top_is 302 200 None sample_replied /\ top_is 300 100 None sample_replied /\
  s_transactions sample_replied !! 500 = None /\ handed 302 (sample_empty 0) sample_replied.
Proof.
  assert (Some 300 ∉ s_kzalloc (ioctl_state sample_other)) as Hk
    by (apply (bool_decide_unpack _); by vm_compute).
  edestruct (call_reply_stacks sample_kenv sample_before ∅ 200 302 (sample_thread 200 302) (sample_empty 1)
    sample_sent_call 500 (ioctl_state sample_other) sample_kenv sample_reading sample_read_frame 0
    sample_took 300 (sample_thread 100 300) sample_looper sample_kenv) as (s3 & E3 & H).
  - exact sample_supply.
  - by vm_compute.
  - by vm_compute.
  - apply res_or_ok. by vm_compute.
  - eexists. split; [vm_compute; reflexivity|done].
  - done.
  - exact sample_calling.
  - done.
  - done.
  - by vm_compute.
  - exact Hk.
  - apply res_or_ok. by vm_compute.
  - eexists. split; [vm_compute; reflexivity|done].
  - exact sample_serving.
  - split; [by exists s3|].
    destruct (H ∅ 100 (sample_empty 0) sample_replied) as (ok & s5 & E5 & H5);
      [apply res_or_ok; by vm_compute|].
    destruct ok; cbv zeta in H5; [destruct H5 as (_ & (H1 & H2 & H3) & H4); exact (conj H1 (conj H2 (conj H3 H4)))|].
    exfalso. assert ((fun th => (t_transaction_stack th, t_return_error th)) <$>
      s_threads sample_replied !! 302 = Some (None, BR_OK)) as Hc by (by vm_compute).
    destruct H5 as (tA & _ & H5). destruct (error_slot tA).
    + destruct H5 as (_ & _ & th & Et & Er). rewrite Et in Hc. simpl in Hc. injection Hc as _ Hc.
      rewrite Er in Hc. vm_compute in Hc. discriminate Hc.
    + destruct H5 as ((th & Et & _ & Es) & _). rewrite Et in Hc. simpl in Hc. rewrite Es in Hc. discriminate Hc.
Defined.
