(* ===== verification/LifecycleThms.v ===== *)
(** * LifecycleThms: threads and processes that come and go

    Theorems about [binder_get_thread], the release of undelivered work, the
    death of a thread, the references of a dying process and the context
    manager. *)

From S2P Require Import Prelude RbTree BufferAlloc DriverState NodeRef NodeRefInv NodeRefOps NodeRefThms Uapi Transaction ThreadWrite ThreadRead Never ReplyThms ObjectThms CallThms Lifecycle.

Section Lifecycle.
Context `{RL : RbLib} `{U : BinderUapi}.

(** ** Undelivered work *)

Lemma binder_pop_transaction_lists s th t s' :
  binder_pop_transaction s th t = Ret s' -> s_lists s' = s_lists s.
Proof.
  unfold binder_pop_transaction. intros H. res_inv. apply upd_transaction_Ret in E0 as (x & _ & ->).
  apply kfree_transaction_Ret in H as [_ ->].
  assert (s_lists r = s_lists s) as E3.
  { destruct th; [|by simplify_eq]. res_inv. by apply upd_transaction_Ret in E as (y & _ & ->). }
  destruct (x_buffer r1) as [b|]; [|by simplify_eq].
  apply upd_buf_same in E2 as (E2 & _). simpl. by rewrite E2.
Qed.

Lemma failed_reply_walk_lists fuel : forall s t code s',
  failed_reply_walk fuel s t code = Ret s' -> s_lists s' = s_lists s.
Proof.
  induction fuel as [|fuel IH]; intros s t code s'; simpl; [done|]. intros H. res_inv.
  destruct (x_from r) as [th|].
  - res_inv. apply upd_thread_Ret in E0 as (y & _ & ->).
    destruct (t_return_error r1 =? BR_OK); [|by simplify_eq]. res_inv.
    apply binder_pop_transaction_lists in E0. apply upd_thread_Ret in E2 as (z & _ & ->).
    simplify_eq. simpl in *. done.
  - res_inv. apply binder_pop_transaction_lists in E0.
    destruct (x_from_parent r) as [t'|]; [|by simplify_eq]. rewrite <- E0. by eapply IH.
Qed.

Lemma send_failed_reply_lists s t code s' :
  binder_send_failed_reply s t code = Ret s' -> s_lists s' = s_lists s.
Proof.
  unfold binder_send_failed_reply. intros H. apply res_bind_ret_inv in H as (x & _ & H).
  apply res_bind_ret_inv in H as (u & _ & H). by eapply failed_reply_walk_lists.
Qed.

Lemma release_one_lists s w s' : release_one s w = Ret s' -> s_lists s' = s_lists s.
Proof.
  destruct w as [t|c|n|d]; simpl; intros H; [|by simplify_eq|by simplify_eq|].
  - res_inv. destruct (x_buffer r) as [b|]; [|done]. res_inv. destruct (_ && _).
    + by eapply send_failed_reply_lists.
    + res_inv. apply kfree_transaction_Ret in H as [_ ->]. simpl.
      by apply upd_buf_same in E1 as (-> & _).
  - res_inv. unfold kfree_death in H. destruct (d_type r); res_inv; by simplify_eq.
Qed.

Lemma never_send_failed k s t code : k < 0 -> never k (binder_send_failed_reply s t code).
Proof.
  intros Hk. unfold binder_send_failed_reply. apply never_bind; [auto with never|]. intros x _.
  apply never_bind; [apply never_bug_on; lia|]. intros _ _.
  destruct (decide (k = -1)) as [->|Hk1]; [apply failed_reply_walk_fuel; lia|].
  destruct (decide (k = -2)) as [->|Hk2]; apply never_failed_reply_walk; lia.
Qed.
Hint Resolve never_send_failed : never.

Lemma never_release_one k s w : k < 0 -> never k (release_one s w).
Proof. intros. destruct w; simpl; never. Qed.

Lemma filter_not_in_nil (l : list work) : filter (.∉ []) l = l.
Proof.
  induction l as [|v l IH]; [done|]. rewrite filter_cons_True by apply not_elem_of_nil. by rewrite IH.
Qed.

Lemma release_work_spec fuel : forall s l, (length (work_list s l) <= fuel)%nat ->
  (forall k, k < 0 -> never k (release_work fuel s l)) /\
  forall s', release_work fuel s l = Ret s' ->
    forall l', work_list s' l' = filter (.∉ work_list s l) (work_list s l').
Proof.
  induction fuel as [|fuel IH]; intros s l Hf; (destruct (work_list s l) as [|w rest] eqn:El;
    [simpl; rewrite El; split; [done|intros s' [= <-] l'; by rewrite filter_not_in_nil]|]).
  { simpl in Hf. lia. }
  simpl. rewrite El.
  assert (forall s1, s_lists s1 = s_lists (list_del s w) ->
    forall l', work_list s1 l' = filter (.≠ w) (work_list s l')) as Hdel.
  { intros s1 E l'. rewrite <- work_list_del. unfold work_list. by rewrite E. }
  assert (forall s1, release_one (list_del s w) w = Ret s1 ->
    (length (work_list s1 l) <= fuel)%nat) as Hlen.
  { intros s1 E%release_one_lists. rewrite (Hdel s1 E), El. rewrite filter_cons_False by (by intros []).
    pose proof (length_filter (.≠ w) rest). simpl in Hf. lia. }
  split.
  - intros k Hk. apply never_bind; [by apply never_release_one|]. intros s1 E. apply IH; auto.
  - intros s' H. apply res_bind_ret_inv in H as (s1 & E & H).
    destruct (IH s1 l (Hlen s1 E)) as [_ IH']. intros l'. rewrite (IH' s' H l').
    apply release_one_lists in E. rewrite !(Hdel s1 E), El, list_filter_filter.
    apply list_filter_iff. intros v. rewrite filter_cons_False by (by intros []).
    rewrite list_elem_of_filter. set_solver.
Qed.

Lemma release_work_empty s l s' :
  (forall l', work_list s' l' = filter (.∉ work_list s l) (work_list s l')) -> work_list s' l = [].
Proof.
  intros H. rewrite H. destruct (filter _ _) as [|w r] eqn:Ef; [done|].
  assert (w ∈ filter (.∉ work_list s l) (work_list s l)) as [Hn Hw]%list_elem_of_filter
    by (rewrite Ef; left). done.
Qed.

(** ** The transactions of a dying thread *)

Lemma filter_insert_drop {A} (P : Z * A -> Prop) `{!forall x, Decision (P x)} (m : gmap Z A) t x x' :
  m !! t = Some x -> P (t, x) -> ~ P (t, x') ->
  (size (filter P (<[t := x']> m)) < size (filter P m))%nat.
Proof.
  intros E Hp Hn. rewrite map_filter_insert_False, map_filter_delete by done.
  assert (filter P m !! t = Some x) as Ef by by apply map_lookup_filter_Some.
  rewrite map_size_delete_Some by (by eexists).
  assert (size (filter P m) <> 0%nat) by (by eapply map_size_ne_0_lookup_2; eexists). lia.
Qed.

Lemma filter_insert_same {A} (P : Z * A -> Prop) `{!forall x, Decision (P x)} (m : gmap Z A) t x x' :
  m !! t = Some x -> (P (t, x) <-> P (t, x')) ->
  size (filter P (<[t := x']> m)) = size (filter P m).
Proof.
  intros E Hp. destruct (decide (P (t, x'))) as [Hq|Hq].
  - rewrite map_filter_insert_True by done. apply map_size_insert_Some.
    exists x. apply map_lookup_filter_Some. split; [done|]. by apply Hp.
  - rewrite map_filter_insert_False, map_filter_delete by done. f_equal. apply delete_id.
    apply map_lookup_filter_None. right. intros y Ey. rewrite E in Ey. injection Ey as <-. by rewrite Hp.
Qed.

Notation xmap := (gmap Z DriverState.binder_transaction).

Definition coming_in (th : Z) (m : xmap) : xmap := filter (fun tx => x_to_thread tx.2 = Some th) m.
Definition going_out (th : Z) (m : xmap) : xmap := filter (fun tx => x_from tx.2 = Some th) m.

(** What a thread has to leave. *)
Definition involved (th : Z) (s : driver) : nat :=
  size (coming_in th (s_transactions s)) + size (going_out th (s_transactions s)).

Lemma involved_bound th s : (involved th s <= 2 * size (s_transactions s))%nat.
Proof.
  unfold involved, coming_in, going_out.
  pose proof (map_size_filter (fun tx : Z * DriverState.binder_transaction => x_to_thread tx.2 = Some th)
    (s_transactions s)).
  pose proof (map_size_filter (fun tx : Z * DriverState.binder_transaction => x_from tx.2 = Some th)
    (s_transactions s)). lia.
Qed.

(** One turn of the walk: what it leaves at [t], and where it goes. *)
Definition left_in (x y : DriverState.binder_transaction) : Prop :=
  x_to_thread y = None /\ x_from y = x_from x /\ x_from_parent y = x_from_parent x /\
  x_to_parent y = x_to_parent x.

Lemma leave_in s t x : s_transactions s !! t = Some x ->
  forall s', (let s1 := put_transaction s t (set_x_to_thread None (set_x_to_proc None x)) in
    match x_buffer x with
    | Some b => let! s := upd_buf s1 b (set_b_transaction None) in
                upd_transaction s t (set_x_buffer None)
    | None => Ret s1
    end) = Ret s' ->
  s_threads s' = s_threads s /\ s_lists s' = s_lists s /\
  exists y, s_transactions s' = <[t := y]> (s_transactions s) /\ left_in x y.
Proof.
  intros E s'. cbv zeta. destruct (x_buffer x) as [b|]; intros H.
  - res_inv. apply upd_buf_same in E0 as (L & _ & _ & T & X).
    apply upd_transaction_Ret in H as (y & Ey & ->). rewrite X in Ey. simpl in *.
    rewrite lookup_insert_eq in Ey. injection Ey as <-. rewrite T, L, X. split; [done|]. split; [done|].
    eexists. by rewrite insert_insert_eq.
  - simplify_eq. split; [done|]. split; [done|]. by eexists.
Qed.

Lemma leave_transactions_ends fuel : forall s th t, (involved th s < fuel)%nat ->
  forall k, k < 0 -> never k (leave_transactions fuel s th t).
Proof.
  induction fuel as [|fuel IH]; intros s th t Hf k Hk; [lia|]. destruct t as [t|]; [|done]. simpl.
  apply never_bind; [auto with never|]. intros x E%deref_Ret. case_bool_decide as Hto.
  - apply never_bind; [never|]. intros s1 E1. destruct (leave_in s t x E s1 E1) as (_ & _ & y & X & Hy).
    destruct Hy as (Y1 & Y2 & _). apply IH; [|done]. unfold involved, coming_in, going_out in *. rewrite X.
    pose proof (filter_insert_drop (fun tx => x_to_thread tx.2 = Some th) _ t x y E Hto
      ltac:(simpl; congruence)).
    rewrite (filter_insert_same (fun tx => x_from tx.2 = Some th) _ t x y E) by (simpl; by rewrite Y2).
    lia.
  - case_bool_decide as Hfrom; [|by apply never_bug; lia]. apply IH; [|done].
    unfold involved, coming_in, going_out in *. simpl.
    pose proof (filter_insert_drop (fun tx => x_from tx.2 = Some th) _ t x (set_x_from None x) E Hfrom
      ltac:(simpl; congruence)).
    rewrite (filter_insert_same (fun tx => x_to_thread tx.2 = Some th) _ t x (set_x_from None x) E) by done.
    lia.
Qed.

(** The transaction has the thread at one of its ends. *)
Definition involves (th : Z) (x : DriverState.binder_transaction) : Prop :=
  x_from x = Some th \/ x_to_thread x = Some th.

(** A thread's stack: the calls it serves and those it waits for, innermost
    first; no call goes from the thread to itself. *)
Inductive thread_stack (s : driver) (th : Z) : option Z -> list Z -> Prop :=
| stack_end : thread_stack s th None []
| stack_in t x l : s_transactions s !! t = Some x -> x_to_thread x = Some th ->
    x_from x <> Some th -> thread_stack s th (x_to_parent x) l -> thread_stack s th (Some t) (t :: l)
| stack_out t x l : s_transactions s !! t = Some x -> x_to_thread x <> Some th ->
    x_from x = Some th -> thread_stack s th (x_from_parent x) l -> thread_stack s th (Some t) (t :: l).

Lemma thread_stack_NoDup s th o l : thread_stack s th o l -> NoDup l.
Proof.
  intros H. apply (follows_NoDup (fun t => x ← s_transactions s !! t;
    if decide (x_to_thread x = Some th) then x_to_parent x else x_from_parent x) l o).
  induction H as [|t x l E Hto _ _ IH|t x l E Hto _ _ IH]; [done|..]; (split; [done|]); rewrite E; simpl.
  - by rewrite decide_True.
  - by rewrite decide_False.
Qed.

Lemma thread_stack_insert s s' th t y o l :
  thread_stack s th o l -> t ∉ l -> s_transactions s' = <[t := y]> (s_transactions s) ->
  thread_stack s' th o l.
Proof.
  intros H Ht E. induction H as [|u x l Ex Hto Hf H IH|u x l Ex Hto Hf H IH]; [constructor|..].
  - apply (stack_in _ _ u x); try done; [|apply IH; set_solver].
    rewrite E, lookup_insert_ne; [done|set_solver].
  - apply (stack_out _ _ u x); try done; [|apply IH; set_solver].
    rewrite E, lookup_insert_ne; [done|set_solver].
Qed.

(** The stack depends on the transactions only. *)
Lemma thread_stack_insert' s s' th o l :
  thread_stack s th o l -> s_transactions s' = s_transactions s -> thread_stack s' th o l.
Proof.
  intros H E. induction H; [constructor|eapply stack_in|eapply stack_out]; rewrite ?E; done.
Qed.

Lemma leave_clears th l : forall fuel s o s',
  thread_stack s th o l -> NoDup l -> leave_transactions fuel s th o = Ret s' ->
  s_threads s' = s_threads s /\ s_lists s' = s_lists s /\
  forall u y, s_transactions s' !! u = Some y -> involves th y ->
    u ∉ l /\ exists x, s_transactions s !! u = Some x /\ involves th x.
Proof.
  induction l as [|t l IH]; intros fuel s o s' Hst Hnd H; inversion Hst as [|? x ? Ex Hto Hf Hst'|
    ? x ? Ex Hto Hf Hst']; subst.
  { destruct fuel; simplify_eq/=; (do 2 (split; [done|])); intros u y Hu Hy;
      (split; [apply not_elem_of_nil|eauto]). }
  all: destruct fuel as [|fuel]; [done|]; apply NoDup_cons in Hnd as [Hnt Hnd]; cbn [leave_transactions] in H;
    unfold get_transaction at 1 in H; rewrite (deref_Some _ _ _ Ex) in H; cbn [res_bind] in H.
  - rewrite bool_decide_eq_true_2 in H by done.
    apply res_bind_ret_inv in H as (s1 & E1 & H). cbn [x_to_parent set_x_to_thread set_x_to_proc] in H.
    destruct (leave_in s t x Ex s1 E1) as (T1 & L1 & y & X1 & Y1 & Y2 & Y3 & Y4).
    destruct (IH fuel s1 (x_to_parent x) s') as (T2 & L2 & H2); [by eapply thread_stack_insert|done|done|].
    rewrite T2, L2, T1, L1. do 2 (split; [done|]). intros u z Hu Hz.
    destruct (H2 u z Hu Hz) as (Hul & v & Hv & Hvi). rewrite X1 in Hv.
    apply lookup_insert_Some in Hv as [[<- <-]|[Hne Hv]].
    + destruct Hvi as [Hvi|Hvi]; congruence.
    + split; [set_solver|eauto].
  - rewrite bool_decide_eq_false_2, bool_decide_eq_true_2 in H by done.
    cbn [x_from_parent set_x_from] in H.
    destruct (IH fuel (put_transaction s t (set_x_from None x)) (x_from_parent x) s')
      as (T2 & L2 & H2); [by eapply thread_stack_insert|done|done|].
    rewrite T2, L2. do 2 (split; [done|]). intros u z Hu Hz.
    destruct (H2 u z Hu Hz) as (Hul & v & Hv & Hvi). simpl in Hv.
    apply lookup_insert_Some in Hv as [[<- <-]|[Hne Hv]].
    + destruct Hvi as [Hvi|Hvi]; simpl in Hvi; congruence.
    + split; [set_solver|eauto].
Qed.

(** Transactions are only ever dropped by what follows the walk. *)
Definition fewer (s s' : driver) : Prop :=
  forall u y, s_transactions s' !! u = Some y -> s_transactions s !! u = Some y.

Lemma failed_reply_walk_fewer fuel : forall s t code s',
  failed_reply_walk fuel s t code = Ret s' -> fewer s s'.
Proof.
  induction fuel as [|fuel IH]; intros s t code s'; simpl; [done|]. intros H. res_inv.
  assert (forall s0 th s1, binder_pop_transaction s0 th t = Ret s1 -> fewer s0 s1) as Hpop.
  { intros s0 th s1 [_ E1]%binder_pop_transaction_Ret u y. rewrite E1. by intros [_ ?]%lookup_delete_Some. }
  destruct (x_from r) as [th|].
  - res_inv. apply upd_thread_Ret in E0 as (y & _ & ->).
    destruct (t_return_error r1 =? BR_OK); [|simplify_eq; by intros ? ?]. res_inv.
    apply Hpop in E0. apply upd_thread_Ret in E2 as (z & _ & ->). simplify_eq. exact E0.
  - res_inv. apply Hpop in E0.
    destruct (x_from_parent r) as [t'|]; [|simplify_eq; exact E0]. intros u y Hu. apply E0.
    by apply (IH _ _ _ _ H).
Qed.

Lemma send_failed_fewer s t code s' : binder_send_failed_reply s t code = Ret s' -> fewer s s'.
Proof.
  unfold binder_send_failed_reply. intros H. apply res_bind_ret_inv in H as (x & _ & H).
  apply res_bind_ret_inv in H as (u & _ & H). by eapply failed_reply_walk_fewer.
Qed.

Lemma release_one_fewer s w s' : release_one s w = Ret s' -> fewer s s'.
Proof.
  destruct w as [t|c|n|d]; simpl; intros H; [|simplify_eq; by intros ? ?|simplify_eq; by intros ? ?|].
  - res_inv. destruct (x_buffer r) as [b|]; [|done]. res_inv. destruct (_ && _).
    + by eapply send_failed_fewer.
    + res_inv. apply kfree_transaction_Ret in H as [_ ->]. apply upd_buf_same in E1 as (_ & _ & _ & _ & X).
      intros u y. simpl. rewrite X. by intros [_ ?]%lookup_delete_Some.
  - res_inv. unfold kfree_death in H. destruct (d_type r); res_inv; simplify_eq; by intros ? ?.
Qed.

Lemma release_work_fewer fuel : forall s l s', release_work fuel s l = Ret s' -> fewer s s'.
Proof.
  induction fuel as [|fuel IH]; intros s l s'; simpl; destruct (work_list s l) as [|w r]; try done;
    try by intros [= <-] ? ?.
  intros H. apply res_bind_ret_inv in H as (s1 & E & H). apply release_one_fewer in E.
  intros u y Hu. apply (E u y). by apply (IH _ _ _ H).
Qed.

(** [binder_release_work] ends with its list empty: every item is taken off
    its list, handled, and none of the other lists changes otherwise. *)
Theorem binder_release_work_correct s l :
  (forall k, k < 0 -> never k (binder_release_work s l)) /\
  forall s', binder_release_work s l = Ret s' -> work_list s' l = [] /\
    forall l', work_list s' l' = filter (.∉ work_list s l) (work_list s l').
Proof.
  destruct (release_work_spec (length (work_list s l)) s l ltac:(done)) as [H1 H2].
  split; [exact H1|]. intros s' E. specialize (H2 s' E). split; [by eapply release_work_empty|done].
Qed.

(** [binder_free_thread] ends, and a thread that is gone is gone: when its
    stack leads to every transaction it has a part in, none that is left names
    the thread, its list is empty and the thread itself is freed. *)
Theorem binder_free_thread_correct s proc thread :
  (forall k, k < 0 -> never k (binder_free_thread s proc thread)) /\
  forall th l s',
    s_threads s !! thread = Some th -> thread_stack s thread (t_transaction_stack th) l ->
    (forall t x, s_transactions s !! t = Some x -> involves thread x -> t ∈ l) ->
    binder_free_thread s proc thread = Ret s' ->
    s_threads s' !! thread = None /\ work_list s' (ThreadTodo thread) = [] /\
    forall t x, s_transactions s' !! t = Some x -> ~ involves thread x.
Proof.
  split.
  - intros k Hk. unfold binder_free_thread. apply never_bind; [auto with never|]. intros s1 _.
    apply never_bind; [auto with never|]. intros th _. apply never_bind; [never|]. intros sr _.
    apply never_bind.
    { apply leave_transactions_ends; [|done]. pose proof (involved_bound thread s1).
      unfold leave_fuel. lia. }
    intros s2 _. apply never_bind; [never|]. intros s3 _.
    apply never_bind; [by apply release_work_spec|]. auto with never.
  - intros th l s' Eth Hst Hall. unfold binder_free_thread. intros H.
    apply res_bind_ret_inv in H as (s1 & E1 & H). apply upd_proc_Ret in E1 as (p & _ & ->).
    unfold get_thread at 1 in H. cbn [put_proc s_threads set_s_procs] in H.
    rewrite (deref_Some _ _ _ Eth) in H. cbn [res_bind] in H.
    apply res_bind_ret_inv in H as (sr & _ & H). apply res_bind_ret_inv in H as (s2 & E2 & H).
    apply res_bind_ret_inv in H as (s3 & E3 & H). apply res_bind_ret_inv in H as (s4 & E4 & H).
    assert (Hst1 := thread_stack_insert' s (put_proc s proc (set_p_threads (rb_erase thread (p_threads p)) p))
      thread _ l Hst eq_refl).
    destruct (leave_clears thread l _ _ _ s2 Hst1 (thread_stack_NoDup _ _ _ _ Hst) E2) as (_ & _ & H2).
    assert (fewer s2 s3) as H3.
    { destruct sr; [by eapply send_failed_fewer|]. injection E3 as ->. by intros ? ?. }
    assert (fewer s3 s4) as H4 by by eapply release_work_fewer.
    unfold kfree_thread in H. apply res_bind_ret_inv in H as (th' & _ & H). injection H as <-. simpl.
    split; [apply lookup_delete_eq|]. split.
    + destruct (release_work_spec (length (work_list s3 (ThreadTodo thread))) s3 (ThreadTodo thread) ltac:(done))
        as [_ Hw]. exact (release_work_empty _ _ _ (Hw s4 E4)).
    + intros t x Hx Hi. apply H4, H3 in Hx. destruct (H2 t x Hx Hi) as (Hn & y & Hy & Hyi).
      by apply Hn, (Hall t y).
Qed.

(** ** The references of a dying process *)

Lemma own_refs_list s proc p :
  refs_wf s -> s_procs s !! proc = Some p ->
  NoDup (inorder (p_refs_by_desc p)) /\
  forall r, r ∈ inorder (p_refs_by_desc p) <-> exists y, s_refs s !! r = Some y /\ r_proc y = proc.
Proof.
  intros Hwf Hp. destruct (go_procs _ _ _ _ _ _ (rw_graph _ Hwf) proc p Hp) as [_ _ H3 H4 _ _].
  split; [by eapply sorted_by_lt_NoDup|exact H3].
Qed.

Lemma delete_refs_spec fuel : forall s proc p,
  refs_wf s -> supply_ok s -> few_refs s -> s_procs s !! proc = Some p ->
  (length (inorder (p_refs_by_desc p)) <= fuel)%nat ->
  exists s', delete_refs fuel s proc = Ret s' /\ refs_wf s' /\ supply_ok s' /\ same_rest s s' /\
    forall r y, s_refs s' !! r = Some y <-> s_refs s !! r = Some y /\ r_proc y <> proc.
Proof.
  induction fuel as [|fuel IH]; intros s proc p Hwf Hsu Hfew Hp Hlen;
    destruct (own_refs_list s proc p Hwf Hp) as [Hnd Hin]; simpl;
    unfold get_proc; rewrite (deref_Some _ _ _ Hp); cbn [res_bind];
    destruct (inorder (p_refs_by_desc p)) as [|r l] eqn:El.
  1,3: exists s; do 4 (split; [done|]); intros r y; split; [|by intros [? _]]; intros Hy; split; [done|];
    intros Hyp; apply (not_elem_of_nil r), Hin; by exists y.
  { simpl in Hlen. lia. }
  destruct (proj1 (Hin r) ltac:(left)) as (y & Ey & Eyp).
  destruct (binder_delete_ref_spec s r y Hwf Hfew Ey) as (s1 & E1 & Hwf1 & Hr1 & Rr1 & _).
  destruct (ref_step_wf s s1 Hwf Hfew Hsu) as [_ Hsu1];
    [apply (step_delete_ref s r); [by eexists|done]|].
  rewrite E1. cbn [res_bind].
  destruct (same_rest_live s s1 proc Hr1 ltac:(eauto)) as [p1 Hp1].
  destruct (own_refs_list s1 proc p1 Hwf1 Hp1) as [Hnd1 Hin1].
  destruct (IH s1 proc p1 Hwf1 Hsu1) as (s2 & E2 & Hwf2 & Hsu2 & Hr2 & H2); [|done| |].
  - unfold few_refs in *. rewrite Rr1.
    pose proof (map_subseteq_size _ _ (delete_subseteq (s_refs s) r)). lia.
  - assert (r :: inorder (p_refs_by_desc p1) ⊆+ r :: l) as Hsub%submseteq_length.
    { apply NoDup_submseteq.
      - constructor; [|done]. rewrite Hin1, Rr1. intros (z & Hz & _). by rewrite lookup_delete_eq in Hz.
      - intros q [->|Hq]%elem_of_cons; [by left|]. apply Hin. apply Hin1 in Hq as (z & Hz & Hzp).
        rewrite Rr1 in Hz. apply lookup_delete_Some in Hz as [_ Hz]. by exists z. }
    simpl in *. lia.
  - exists s2. do 3 (split; [done|]). split; [by transitivity s1|]. intros q z. rewrite H2, Rr1.
    rewrite lookup_delete_Some. split; [naive_solver|]. intros [Hz Hzp]. split; [|done]. split; [|done].
    intros ->. congruence.
Qed.

(** A dying process lets go of exactly its own references: the loop ends,
    the references of all other processes are as they were, and nodes and
    references stay consistent, so a node nobody else refers to is freed and
    none is freed under a reference. *)
Theorem delete_refs_correct s proc p :
  refs_wf s -> supply_ok s -> few_refs s -> s_procs s !! proc = Some p ->
  exists s', delete_refs (length (inorder (p_refs_by_desc p))) s proc = Ret s' /\
    refs_wf s' /\ supply_ok s' /\ same_rest s s' /\
    forall r y, s_refs s' !! r = Some y <-> s_refs s !! r = Some y /\ r_proc y <> proc.
Proof. intros. by apply (delete_refs_spec _ s proc p). Qed.

(** ** Finding a thread *)

Definition thread_pid (s : driver) (th : Z) : Z := from_option t_pid 0 (s_threads s !! th).

Record threads_ok (s : driver) (proc : Z) (p : binder_proc) : Prop := {
  th_proc : s_procs s !! proc = Some p;
  th_tree th : th ∈ inorder (p_threads p) <-> exists x, s_threads s !! th = Some x /\ t_proc x = proc;
  th_sorted : sorted_by_lt (thread_pid s) (inorder (p_threads p))
}.

(** A task that comes to the driver finds its own thread: the one that has
    its process and pid, of which there is never more than one, or a new one
    that is about to return to user space; it gets none only when memory is
    short. *)
Theorem binder_get_thread_correct s proc p pid :
  threads_ok s proc p -> supply_ok s ->
  exists o s', binder_get_thread s proc pid = Ret (o, s') /\ supply_ok s' /\
    (exists p', threads_ok s' proc p') /\
    match o with
    | Some th => exists x, s_threads s' !! th = Some x /\ t_proc x = proc /\ t_pid x = pid /\
        (forall th' x', s_threads s' !! th' = Some x' -> t_proc x' = proc -> t_pid x' = pid -> th' = th) /\
        (s' = s \/ s_threads s !! th = None /\ s_threads s' = <[th := x]> (s_threads s) /\
           looper_has x BINDER_LOOPER_STATE_NEED_RETURN = true)
    | None => s_threads s' = s_threads s /\
        (head (s_kzalloc s) = None \/ head (s_kzalloc s) = Some None)
    end.
Proof.
  intros [Hp Ht Hs] Hsu. unfold binder_get_thread, get_proc. rewrite (deref_Some _ _ _ Hp). cbn [res_bind].
  destruct (kzalloc s) as [o s1] eqn:Ek. destruct (kzalloc_spec s o s1 Hsu Ek) as (Es1 & Hsu1 & Ho).
  assert (forall a b xa xb, s_threads s !! a = Some xa -> s_threads s !! b = Some xb ->
    t_proc xa = proc -> t_proc xb = proc -> t_pid xa = t_pid xb -> a = b) as Huniq.
  { intros a b xa xb Ea Eb Epa Epb Epid. apply (sorted_by_lt_inj _ _ Hs); [apply Ht; eauto..|].
    unfold thread_pid. by rewrite Ea, Eb. }
  destruct (rb_link_unique (thread_visit s pid) (thread_pid s) pid (default 0 o) (p_threads p))
    as [(t & E & Hne & Hperm & Hsort)|(y & E & Hy & Hk)]; [|done| |]; rewrite ?E; cbn [res_bind].
  { intros y Hy. apply Ht in Hy as (x & Ex & _). unfold thread_visit, get_thread, thread_pid.
    rewrite (deref_Some _ _ _ Ex), Ex. done. }
  2:{ exists (Some y), s. split; [done|]. split; [done|]. split; [by exists p|].
      apply Ht in Hy as (x & Ex & Exp). unfold thread_pid in Hk. rewrite Ex in Hk. simpl in Hk.
      exists x. do 3 (split; [done|]). split; [|by left].
      intros th' x' Ex' Exp' Epid. eapply Huniq; [exact Ex'|exact Ex|congruence..]. }
  assert (s_procs s1 = s_procs s /\ s_threads s1 = s_threads s) as [P1 T1] by (by rewrite Es1).
  destruct o as [th|]; simpl in *.
  2:{ exists None, s1. split; [done|]. split; [done|]. split; [|done]. exists p.
      split; [by rewrite P1|by rewrite T1|]. eapply sorted_by_lt_ext; [|exact Hs].
      intros y _. unfold thread_pid. by rewrite T1. }
  destruct Ho as [Hfresh Hnin].
  assert (s_threads s !! th = None) as Eth.
  { destruct (s_threads s !! th) eqn:Eth; [|done]. exfalso. apply Hfresh. right. left. by eexists. }
  set (x := BinderThread proc pid BINDER_LOOPER_STATE_NEED_RETURN None BR_OK BR_OK).
  eexists (Some th), _. split; [reflexivity|]. split; [|split].
  - apply (supply_step s1); [done|done|]. intros a Ha. unfold address_used in *. simpl in Ha.
    rewrite P1, T1, !lookup_insert_is_Some' in Ha. rewrite P1, T1.
    destruct (decide (a = th)) as [->|Hne']; [by right|]. left. rewrite Es1 in *. simpl in *.
    destruct Ha as [[<-|?]|[[<-|?]|?]]; try done; [left; by eexists|by left|by right; left|by right; right].
  - exists (set_p_threads (rb_insert_color th t) p). split; simpl.
    + by rewrite lookup_insert_eq.
    + intros y. rewrite Hperm, elem_of_cons, Ht, T1. split.
      * intros [->|(z & Ez & Ezp)]; [exists x; by rewrite lookup_insert_eq|].
        exists z. rewrite lookup_insert_ne; [done|]. congruence.
      * intros (z & Ez & Ezp). apply lookup_insert_Some in Ez as [[<- _]|[_ Ez]]; [by left|right; eauto].
    + apply Hsort; unfold thread_pid; simpl.
      * by rewrite lookup_insert_eq.
      * intros y Hy. rewrite T1. apply Ht in Hy as (z & Ez & _).
        rewrite lookup_insert_ne; [done|]. congruence.
  - exists x. simpl. rewrite T1, lookup_insert_eq. do 3 (split; [done|]). split; [|by right].
    intros y z Ez Ezp Epid. apply lookup_insert_Some in Ez as [[<- _]|[_ Ez]]; [done|].
    exfalso. apply (Hne y); [apply Ht; eauto|]. unfold thread_pid. by rewrite Ez.
Qed.

End Lifecycle.

(** ** Witnesses *)

#[local] Existing Instance plain_rb.

Lemma binder_release_work_correct_witness :
  exists s', binder_release_work sample_held (ThreadTodo 300) = Ret s' /\
    work_list sample_held (ThreadTodo 300) = [WNode 1000] /\ work_list s' (ThreadTodo 300) = [].
Proof.
  destruct (binder_release_work_correct sample_held (ThreadTodo 300)) as [_ H].
  assert (exists s', binder_release_work sample_held (ThreadTodo 300) = Ret s') as [s' E]
    by (eexists; by vm_compute).
  exists s'. split; [exact E|]. split; [by vm_compute|]. apply (H s' E).
Defined.

(** Thread 300 dies while it waits for process 200. *)
Definition sample_dying : driver :=
  set_s_transactions {[500 := set_x_need_reply true sample_call_x]} sample_called.

Lemma binder_free_thread_correct_witness :
  exists s', binder_free_thread sample_dying 100 300 = Ret s' /\ s_threads s' !! 300 = None /\
    forall t x, s_transactions s' !! t = Some x -> ~ involves 300 x.
Proof.
  destruct (binder_free_thread_correct sample_dying 100 300) as [_ H].
  assert (exists s', binder_free_thread sample_dying 100 300 = Ret s') as [s' E]
    by (eexists; by vm_compute).
  exists s'. split; [exact E|].
  destruct (H (set_t_transaction_stack (Some 500) (sample_thread 100 300)) [500] s') as (H1 & _ & H2);
    [by vm_compute| | |exact E|done].
  - apply (stack_out _ _ 500 (set_x_need_reply true sample_call_x)); [done|done|done|constructor].
  - intros t x Ht _. simpl in Ht. apply lookup_singleton_Some in Ht as [<- _]. by left.
Defined.

Lemma delete_refs_correct_witness :
  exists s', delete_refs 1 sample_held 200 = Ret s' /\ refs_wf s' /\
    forall r y, s_refs s' !! r = Some y <-> s_refs sample_held !! r = Some y /\ r_proc y <> 200.
Proof.
  destruct (delete_refs_correct sample_held 200
    (default (sample_binder_proc 2) (s_procs sample_held !! 200))) as (s' & E & H & _ & _ & Hr);
    [apply sample_held_ok|apply sample_held_ok|done|by vm_compute|].
  exists s'. split; [|done]. rewrite <- E. f_equal.
Defined.

Lemma binder_get_thread_correct_witness :
  exists s', binder_get_thread sample_driver 100 77 = Ret (Some 1000, s') /\ supply_ok s'.
Proof.
  destruct (binder_get_thread_correct sample_driver 100 (sample_binder_proc 1) 77) as (o & s' & E & H & _).
  - split; [done| |constructor]. intros th. split; [by intros ?%not_elem_of_nil|].
    intros (x & Hx & _). simpl in Hx. by apply lookup_empty_Some in Hx.
  - apply sample_driver_wf.
  - exists s'. split; [|exact H]. rewrite E. f_equal.
    assert ((match binder_get_thread sample_driver 100 77 with Ret (o, _) => o | Bug _ => None end) =
      Some 1000) as Eo by by vm_compute. rewrite E in Eo. by rewrite Eo.
Defined.
