(* ===== verification/Debug.v ===== *)
(** * Debug: what the driver shows in debugfs

    The counters, the logs of transactions and the files of debugfs in
    driver/binder.c: [binder_stats], [binder_transaction_log_add] and everything from
    [print_binder_transaction] to [binder_init].  A [seq_file] is the list of what was
    printed into it, a format and its arguments; [m->count] counts these, of which
    none is empty.  The loops over trees run over their nodes in order; the walk of a
    thread's stack takes the number of transactions as fuel. *)

From stdpp Require Import strings.
From S2P Require Import Prelude RbTree BufferAlloc DriverState.

(** ** Counters *)

Inductive binder_stat_types : Type :=
| BINDER_STAT_PROC
| BINDER_STAT_THREAD
| BINDER_STAT_NODE
| BINDER_STAT_REF
| BINDER_STAT_DEATH
| BINDER_STAT_TRANSACTION
| BINDER_STAT_TRANSACTION_COMPLETE.

Definition stat_index (t : binder_stat_types) : nat :=
  match t with
  | BINDER_STAT_PROC => 0 | BINDER_STAT_THREAD => 1 | BINDER_STAT_NODE => 2
  | BINDER_STAT_REF => 3 | BINDER_STAT_DEATH => 4 | BINDER_STAT_TRANSACTION => 5
  | BINDER_STAT_TRANSACTION_COMPLETE => 6
  end.
Definition BINDER_STAT_COUNT : nat := 7.

(** [br] and [bc] have an entry per return and command, by number. *)
Record binder_stats := BinderStats {
  st_br : list Z;
  st_bc : list Z;
  obj_created : list Z;
  obj_deleted : list Z
}.

Definition no_stats : binder_stats :=
  BinderStats (replicate 18 0) (replicate 17 0) (replicate BINDER_STAT_COUNT 0)
    (replicate BINDER_STAT_COUNT 0).

(** An [int] goes up by one. *)
Definition incr (i : nat) (l : list Z) : list Z := alter (fun n => i32 (n + 1)) i l.

Definition binder_stats_deleted (t : binder_stat_types) (st : binder_stats) : binder_stats :=
  BinderStats (st_br st) (st_bc st) (obj_created st) (incr (stat_index t) (obj_deleted st)).
Definition binder_stats_created (t : binder_stat_types) (st : binder_stats) : binder_stats :=
  BinderStats (st_br st) (st_bc st) (incr (stat_index t) (obj_created st)) (obj_deleted st).

(** [_IOC_NR]: the low eight bits. *)
Definition IOC_NR (cmd : Z) : Z := Z.land cmd 255.

(** The counters of the driver, of the process and of the thread. *)
Definition binder_stat_br (cmd : Z) (sts : binder_stats * binder_stats * binder_stats)
  : binder_stats * binder_stats * binder_stats :=
  let '(g, p, t) := sts in
  let count st :=
    BinderStats (incr (Z.to_nat (IOC_NR cmd)) (st_br st)) (st_bc st) (obj_created st) (obj_deleted st) in
  if IOC_NR cmd <? Z.of_nat (length (st_br g)) then (count g, count p, count t) else sts.

(** ** Logs of transactions *)

Record log_entry := LogEntry {
  e_debug_id : Z;
  e_call_type : Z;
  e_from_proc : Z;
  e_from_thread : Z;
  e_target_handle : Z;
  e_to_proc : Z;
  e_to_thread : Z;
  e_to_node : Z;
  e_data_size : Z;
  e_offsets_size : Z
}.

Definition zero_entry : log_entry := LogEntry 0 0 0 0 0 0 0 0 0 0.

Record transaction_log := TransactionLog {
  l_next : nat;
  l_full : bool;
  l_entry : list log_entry
}.

Definition empty_log : transaction_log := TransactionLog 0 false (replicate 32 zero_entry).

(** The entry to fill in, by its index, and the log. *)
Definition binder_transaction_log_add (log : transaction_log) : nat * transaction_log :=
  let e := l_next log in
  let entry := <[e := zero_entry]> (l_entry log) in
  let next := S (l_next log) in
  if (next =? length (l_entry log))%nat
  then (e, TransactionLog 0 true entry)
  else (e, TransactionLog next (l_full log) entry).

(** The fields of an entry are filled in through the pointer to it. *)
Definition fill_entry (i : nat) (f : log_entry -> log_entry) (log : transaction_log) : transaction_log :=
  TransactionLog (l_next log) (l_full log) (alter f i (l_entry log)).

(** ** seq_file *)

Inductive seq_arg : Type :=
| AInt (n : Z)
| AStr (t : string)
| APtr (a : option Z).

Definition seq_file : Type := list (string * list seq_arg).

Definition seq_printf (m : seq_file) (fmt : string) (args : list seq_arg) : seq_file :=
  m ++ [(fmt, args)].
Definition seq_puts (m : seq_file) (t : string) : seq_file := seq_printf m t [].

(** [m->count] goes back: what was printed since is gone. *)
Definition seq_back (m : seq_file) (count : nat) : seq_file := take count m.

(** A loop that prints for every element. *)
Fixpoint each {A} (f : seq_file -> A -> res seq_file) (l : list A) (m : seq_file) : res seq_file :=
  match l with
  | [] => Ret m
  | a :: l => let! m := f m a in each f l m
  end.

Section Show.
Context (s : driver).

(** ** Objects *)

(** [th ? th->proc->pid : 0] and [th ? th->pid : 0]. *)
Definition thread_ids (th : option Z) : res (Z * Z) :=
  match th with
  | None => Ret (0, 0)
  | Some th =>
      let! t := get_thread s th in
      let! p := get_proc s (t_proc t) in
      Ret (p_pid p, t_pid t)
  end.

Definition print_binder_transaction (m : seq_file) (prefix : string) (t : Z) : res seq_file :=
  let! x := get_transaction s t in
  let! '(from_proc, from_thread) := thread_ids (x_from x) in
  let! to_proc := match x_to_proc x with
                  | None => Ret 0
                  | Some p => let! p := get_proc s p in Ret (p_pid p)
                  end in
  let! to_thread := match x_to_thread x with
                    | None => Ret 0
                    | Some th => let! th := get_thread s th in Ret (t_pid th)
                    end in
  let m := seq_printf m "%s %d: %p from %d:%d to %d:%d code %x flags %x pri %ld r%d"
    [AStr prefix; AInt (x_debug_id x); APtr (Some t); AInt from_proc; AInt from_thread;
     AInt to_proc; AInt to_thread; AInt (x_code x); AInt (x_flags x); AInt (x_priority x);
     AInt (Z.b2z (x_need_reply x))] in
  match x_buffer x with
  | None => Ret (seq_puts m " buffer free\n")
  | Some (p, b) =>
      let! p := get_proc s p in
      let! buf := get_buffer (buffers (p_mem p)) b in
      let! m := match b_target_node buf with
                | None => Ret m
                | Some n => let! n := get_node s n in
                            Ret (seq_printf m " node %d" [AInt (n_debug_id n)])
                end in
      Ret (seq_printf m " size %zd:%zd data %p\n"
        [AInt (b_data_size buf); AInt (b_offsets_size buf); APtr (Some (b + sizeof_binder_buffer))])
  end.

Definition print_binder_buffer (m : seq_file) (prefix : string) (buf : binder_buffer) : seq_file :=
  seq_printf m "%s %d: %p size %zd:%zd %s\n"
    [AStr prefix; AInt (b_debug_id buf); APtr (Some (b_addr buf + sizeof_binder_buffer));
     AInt (b_data_size buf); AInt (b_offsets_size buf);
     AStr (match b_transaction buf with Some _ => "active" | None => "delivered" end)].

Definition print_binder_work (m : seq_file) (prefix transaction_prefix : string) (w : work)
  : res seq_file :=
  match w with
  | WTransaction t => print_binder_transaction m transaction_prefix t
  | WTransactionComplete _ => Ret (seq_printf m "%stransaction complete\n" [AStr prefix])
  | WNode n =>
      let! n := get_node s n in
      Ret (seq_printf m "%snode work %d: u%016llx c%016llx\n"
        [AStr prefix; AInt (n_debug_id n); AInt (n_ptr n); AInt (n_cookie n)])
  | WDeath d =>
      let! d := get_death s d in
      Ret (match d_type d with
           | BINDER_WORK_DEAD_BINDER => seq_printf m "%shas dead binder\n" [AStr prefix]
           | BINDER_WORK_DEAD_BINDER_AND_CLEAR => seq_printf m "%shas cleared dead binder\n" [AStr prefix]
           | BINDER_WORK_CLEAR_DEATH_NOTIFICATION =>
               seq_printf m "%shas cleared death notification\n" [AStr prefix]
           | BINDER_WORK_NONE => seq_printf m "%sunknown work: type %d\n" [AStr prefix; AInt 0]
           end)
  end.

(** The walk of a thread's stack. *)
Fixpoint print_stack (fuel : nat) (thread : Z) (t : option Z) (m : seq_file) : res seq_file :=
  match t with
  | None => Ret m
  | Some t =>
      match fuel with
      | O => Bug (-13)
      | S fuel =>
          let! x := get_transaction s t in
          if bool_decide (x_from x = Some thread) then
            let! m := print_binder_transaction m "    outgoing transaction" t in
            print_stack fuel thread (x_from_parent x) m
          else if bool_decide (x_to_thread x = Some thread) then
            let! m := print_binder_transaction m "    incoming transaction" t in
            print_stack fuel thread (x_to_parent x) m
          else
            let! m := print_binder_transaction m "    bad transaction" t in
            print_stack fuel thread None m
      end
  end.

Definition print_binder_thread (m : seq_file) (thread : Z) (print_always : bool) : res seq_file :=
  let start_pos := length m in
  let! th := get_thread s thread in
  let m := seq_printf m "  thread %d: l %02x\n" [AInt (t_pid th); AInt (t_looper th)] in
  let header_pos := length m in
  let! m := print_stack (size (s_transactions s)) thread (t_transaction_stack th) m in
  let! m := each (fun m w => print_binder_work m "    " "    pending transaction" w)
    (work_list s (ThreadTodo thread)) m in
  Ret (if negb print_always && (length m =? header_pos)%nat then seq_back m start_pos else m).

Definition print_binder_node (m : seq_file) (node : Z) : res seq_file :=
  let! n := get_node s node in
  let count := length (n_refs n) in
  let m := seq_printf m "  node %d: u%016llx c%016llx hs %d hw %d ls %d lw %d is %d iw %d"
    [AInt (n_debug_id n); AInt (n_ptr n); AInt (n_cookie n); AInt (Z.b2z (n_has_strong_ref n));
     AInt (Z.b2z (n_has_weak_ref n)); AInt (n_local_strong_refs n); AInt (n_local_weak_refs n);
     AInt (n_internal_strong_refs n); AInt (Z.of_nat count)] in
  let! m := if (count =? 0)%nat then Ret m
            else each (fun m ref =>
                   let! r := get_ref s ref in
                   let! p := get_proc s (r_proc r) in
                   Ret (seq_printf m " %d" [AInt (p_pid p)])) (n_refs n) (seq_puts m " proc") in
  let m := seq_puts m "\n" in
  each (fun m w => print_binder_work m "    " "    pending async transaction" w)
    (work_list s (AsyncTodo node)) m.

Definition print_binder_ref (m : seq_file) (ref : Z) : res seq_file :=
  let! r := get_ref s ref in
  let! n := get_node s (r_node r) in
  Ret (seq_printf m "  ref %d: desc %d %snode %d s %d w %d d %p\n"
    [AInt (r_debug_id r); AInt (r_desc r); AStr (match n_proc n with Some _ => "" | None => "dead " end);
     AInt (n_debug_id n); AInt (r_strong r); AInt (r_weak r); APtr (r_death r)]).

Definition print_binder_proc (m : seq_file) (proc : Z) (print_all : bool) : res seq_file :=
  let start_pos := length m in
  let! p := get_proc s proc in
  let m := seq_printf m "proc %d\n" [AInt (p_pid p)] in
  let header_pos := length m in
  let! m := each (fun m th => print_binder_thread m th print_all) (inorder (p_threads p)) m in
  let! m := each (fun m node =>
              let! n := get_node s node in
              if print_all || n_has_async_transaction n then print_binder_node m node else Ret m)
            (inorder (p_nodes p)) m in
  let! m := if print_all then each print_binder_ref (inorder (p_refs_by_desc p)) m else Ret m in
  let! m := each (fun m b =>
              let! buf := get_buffer (buffers (p_mem p)) b in
              Ret (print_binder_buffer m "  buffer" buf))
            (inorder (allocated_buffers (p_mem p))) m in
  let! m := each (fun m w => print_binder_work m "  " "  pending transaction" w)
    (work_list s (ProcTodo proc)) m in
  let m := match work_list s (DeliveredDeath proc) with
           | [] => m
           | _ => seq_puts m "  has delivered dead binder\n"
           end in
  Ret (if negb print_all && (length m =? header_pos)%nat then seq_back m start_pos else m).

(** ** Counters *)

Definition binder_return_strings : list string := [
  "BR_ERROR"; "BR_OK"; "BR_TRANSACTION"; "BR_REPLY"; "BR_ACQUIRE_RESULT"; "BR_DEAD_REPLY";
  "BR_TRANSACTION_COMPLETE"; "BR_INCREFS"; "BR_ACQUIRE"; "BR_RELEASE"; "BR_DECREFS";
  "BR_ATTEMPT_ACQUIRE"; "BR_NOOP"; "BR_SPAWN_LOOPER"; "BR_FINISHED"; "BR_DEAD_BINDER";
  "BR_CLEAR_DEATH_NOTIFICATION_DONE"; "BR_FAILED_REPLY"].

Definition binder_command_strings : list string := [
  "BC_TRANSACTION"; "BC_REPLY"; "BC_ACQUIRE_RESULT"; "BC_FREE_BUFFER"; "BC_INCREFS"; "BC_ACQUIRE";
  "BC_RELEASE"; "BC_DECREFS"; "BC_INCREFS_DONE"; "BC_ACQUIRE_DONE"; "BC_ATTEMPT_ACQUIRE";
  "BC_REGISTER_LOOPER"; "BC_ENTER_LOOPER"; "BC_EXIT_LOOPER"; "BC_REQUEST_DEATH_NOTIFICATION";
  "BC_CLEAR_DEATH_NOTIFICATION"; "BC_DEAD_BINDER_DONE"].

Definition binder_objstat_strings : list string := [
  "proc"; "thread"; "node"; "ref"; "death"; "transaction"; "transaction_complete"].

(** The counters that are not 0, with their names. *)
Fixpoint print_counts (prefix : string) (counts : list Z) (names : list string) (m : seq_file) : seq_file :=
  match counts, names with
  | n :: counts, name :: names =>
      print_counts prefix counts names
        (if n =? 0 then m else seq_printf m "%s%s: %d\n" [AStr prefix; AStr name; AInt n])
  | _, _ => m
  end.

Fixpoint print_objects (prefix : string) (created deleted : list Z) (names : list string) (m : seq_file)
  : seq_file :=
  match created, deleted, names with
  | c :: created, d :: deleted, name :: names =>
      print_objects prefix created deleted names
        (if (c =? 0) && (d =? 0) then m
         else seq_printf m "%s%s: active %d total %d\n"
           [AStr prefix; AStr name; AInt (i32 (c - d)); AInt c])
  | _, _, _ => m
  end.

Definition print_binder_stats (m : seq_file) (prefix : string) (st : binder_stats) : seq_file :=
  let m := print_counts prefix (st_bc st) binder_command_strings m in
  let m := print_counts prefix (st_br st) binder_return_strings m in
  print_objects prefix (obj_created st) (obj_deleted st) binder_objstat_strings m.

(** [count], [strong] and [weak] of the references of a process. *)
Fixpoint sum_refs (refs : list Z) (count strong weak : Z) : res (Z * Z * Z) :=
  match refs with
  | [] => Ret (count, strong, weak)
  | ref :: refs =>
      let! r := get_ref s ref in
      sum_refs refs (i32 (count + 1)) (i32 (strong + r_strong r)) (i32 (weak + r_weak r))
  end.

Definition is_transaction (w : work) : bool :=
  match w with WTransaction _ => true | _ => false end.

Definition print_binder_proc_stats (stats : binder_stats) (m : seq_file) (proc : Z) : res seq_file :=
  let! p := get_proc s proc in
  let m := seq_printf m "proc %d\n" [AInt (p_pid p)] in
  let m := seq_printf m "  threads: %d\n" [AInt (Z.of_nat (length (inorder (p_threads p))))] in
  let m := seq_printf m "  requested threads: %d+%d/%d\n  ready threads %d\n  free async space %zd\n"
    [AInt (p_requested_threads p); AInt (p_requested_threads_started p); AInt (p_max_threads p);
     AInt (p_ready_threads p); AInt (free_async_space (p_mem p))] in
  let m := seq_printf m "  nodes: %d\n" [AInt (Z.of_nat (length (inorder (p_nodes p))))] in
  let! '(count, strong, weak) := sum_refs (inorder (p_refs_by_desc p)) 0 0 0 in
  let m := seq_printf m "  refs: %d s %d w %d\n" [AInt count; AInt strong; AInt weak] in
  let m := seq_printf m "  buffers: %d\n"
    [AInt (Z.of_nat (length (inorder (allocated_buffers (p_mem p)))))] in
  let count := length (filter (fun w => is_transaction w = true) (work_list s (ProcTodo proc))) in
  let m := seq_printf m "  pending transactions: %d\n" [AInt (Z.of_nat count)] in
  Ret (print_binder_stats m "  " stats).

(** ** The files *)

Definition binder_state_show (m : seq_file) : res seq_file :=
  let m := seq_puts m "binder state:\n" in
  let m := match s_dead_nodes s with [] => m | _ => seq_puts m "dead nodes:\n" end in
  let! m := each print_binder_node (s_dead_nodes s) m in
  each (fun m p => print_binder_proc m p true) (s_binder_procs s) m.

(** [proc_stats]: the counters of each process. *)
Definition binder_stats_show (stats : binder_stats) (proc_stats : Z -> binder_stats) (m : seq_file)
  : res seq_file :=
  let m := seq_puts m "binder stats:\n" in
  let m := print_binder_stats m "" stats in
  each (fun m p => print_binder_proc_stats (proc_stats p) m p) (s_binder_procs s) m.

Definition binder_transactions_show (m : seq_file) : res seq_file :=
  let m := seq_puts m "binder transactions:\n" in
  each (fun m p => print_binder_proc m p false) (s_binder_procs s) m.

Definition binder_proc_show (proc : Z) (m : seq_file) : res seq_file :=
  let m := seq_puts m "binder proc state:\n" in
  print_binder_proc m proc true.

End Show.

Definition print_binder_transaction_log_entry (m : seq_file) (e : log_entry) : seq_file :=
  seq_printf m "%d: %s from %d:%d to %d:%d node %d handle %d size %d:%d\n"
    [AInt (e_debug_id e);
     AStr (if e_call_type e =? 2 then "reply" else if e_call_type e =? 1 then "async" else "call ");
     AInt (e_from_proc e); AInt (e_from_thread e); AInt (e_to_proc e); AInt (e_to_thread e);
     AInt (e_to_node e); AInt (e_target_handle e); AInt (e_data_size e); AInt (e_offsets_size e)].

(** [for (i = lo; i < hi; i++)] over the entries. *)
Definition print_entries (log : transaction_log) (lo hi : nat) (m : seq_file) : seq_file :=
  fold_left print_binder_transaction_log_entry (take (hi - lo) (drop lo (l_entry log))) m.

Definition binder_transaction_log_show (log : transaction_log) (m : seq_file) : seq_file :=
  let m := if l_full log then print_entries log (l_next log) (length (l_entry log)) m else m in
  print_entries log 0 (l_next log) m.

(** ** Setting up *)

(** What [binder_init] leaves in the kernel. *)
Record module_state := ModuleState {
  ms_workqueue : bool;
  ms_dir_root : bool;
  ms_dir_proc : bool;
  ms_device : bool;
  ms_files : list string
}.

(** [workqueue], [root], [dir]: could they be created; [reg]: what registering says. *)
Definition binder_init (workqueue root dir : bool) (reg : Z) : Z * module_state :=
  if negb workqueue then (- ENOMEM, ModuleState false false false false [])
  else
    let proc := root && dir in
    let files := if root then ["state"; "stats"; "transactions"; "transaction_log";
                               "failed_transaction_log"]%string else [] in
    (reg, ModuleState true root proc (reg =? 0) files).

(** A user error stops a task only when it is asked to. *)
Definition binder_set_stop_on_user_error (param_set_int : Z * Z) : Z * Z * bool :=
  let '(ret, binder_stop_on_user_error) := param_set_int in
  (ret, binder_stop_on_user_error, binder_stop_on_user_error <? 2).

Definition binder_user_error (binder_stop_on_user_error : Z) : Z :=
  if binder_stop_on_user_error =? 0 then 0 else 2.
