(* ===== verification/DebugThms.v ===== *)
(** * DebugThms: what debugfs shows

    The log of transactions shows the last entries, in order; the files follow no stale
    pointer and end; the number of active objects is right even when counters wrap. *)

From stdpp Require Import strings.
From S2P Require Import Prelude RbTree BufferAlloc DriverState NodeRef NodeRefInv NodeRefThms LifecycleThms Debug.

(** ** The log *)

(** What the log shows, oldest first. *)
Definition shown (log : transaction_log) : list log_entry :=
  (if l_full log then drop (l_next log) (l_entry log) else []) ++ take (l_next log) (l_entry log).

Lemma log_show_shown log m : binder_transaction_log_show log m =
  fold_left print_binder_transaction_log_entry (shown log) m.
Proof.
  unfold binder_transaction_log_show, shown, print_entries. rewrite fold_left_app, drop_0, Nat.sub_0_r.
  destruct (l_full log); [|done]. by rewrite (take_ge (drop _ _)) by (by rewrite length_drop).
Qed.

(** An entry is added and filled in. *)
Definition log_record (log : transaction_log) (f : log_entry -> log_entry) : transaction_log :=
  let '(i, log) := binder_transaction_log_add log in fill_entry i f log.

Record log_ok (log : transaction_log) : Prop := {
  lo_length : length (l_entry log) = 32%nat;
  lo_next : (l_next log < 32)%nat
}.

Lemma alter_insert {A} (f : A -> A) i (x : A) l : (i < length l)%nat ->
  alter f i (<[i := x]> l) = take i l ++ f x :: drop (S i) l.
Proof.
  intros H. rewrite insert_take_drop by done. rewrite alter_app_r_alt by (rewrite length_take; lia).
  rewrite length_take, Nat.min_l, Nat.sub_diag by lia. done.
Qed.

Lemma tail_drop {A} n (l : list A) : tail (drop n l) = drop (S n) l.
Proof. revert l. induction n as [|n IH]; intros [|x l]; [done..|]. apply IH. Qed.

Lemma log_record_step log f : log_ok log -> log_ok (log_record log f) /\
  shown (log_record log f) = (if l_full log then tail (shown log) else shown log) ++ [f zero_entry] /\
  l_full (log_record log f) = l_full log || (S (l_next log) =? 32)%nat /\
  (l_full log = false -> length (shown log) = l_next log) /\
  (l_full log = true -> length (shown log) = 32%nat).
Proof.
  intros [L N]. destruct log as [n full l]; simpl in *.
  assert (alter f n (<[n := zero_entry]> l) = take n l ++ f zero_entry :: drop (S n) l) as E
    by (apply alter_insert; lia).
  assert (length (take n l) = n) as Lt by (rewrite length_take; lia).
  assert (exists y, drop n l = y :: drop (S n) l) as [y Ey].
  { destruct (lookup_lt_is_Some_2 l n) as [y Hy]; [lia|]. exists y. by apply drop_S. }
  unfold log_record, binder_transaction_log_add, shown. cbn [l_next l_entry l_full]. cbv zeta.
  rewrite L. destruct (Nat.eqb_spec (S n) 32) as [E32|N32]; cbn [fill_entry l_next l_entry l_full].
  - rewrite E, drop_0. assert (drop (S n) l = []) as Ed by (apply drop_ge; lia). rewrite Ed in *.
    split; [split; simpl; [rewrite E, length_app, Lt; simpl; lia|lia]|].
    split; [|split; [by rewrite (proj2 (Nat.eqb_eq n 31)), orb_true_r by lia|]].
    + rewrite app_nil_r. destruct full; [by rewrite Ey|done].
    + split; intros ->; rewrite ?length_app, ?Ey; simpl; lia.
  - rewrite E. split; [split; simpl; [rewrite E, length_app, Lt; simpl; rewrite length_drop; lia|lia]|].
    assert (take (S n) (take n l ++ f zero_entry :: drop (S n) l) = take n l ++ [f zero_entry]) as Et.
    { rewrite cons_middle, app_assoc, take_app_length'; [done|]. rewrite length_app, Lt. simpl. lia. }
    assert (drop (S n) (take n l ++ f zero_entry :: drop (S n) l) = drop (S n) l) as Ed.
    { rewrite cons_middle, app_assoc, drop_app_length'; [done|]. rewrite length_app, Lt. simpl. lia. }
    rewrite Et, Ed. split; [|split; [by rewrite (proj2 (Nat.eqb_neq n 31)), orb_false_r by lia|]].
    + destruct full; [|done]. rewrite Ey. simpl. by rewrite app_assoc.
    + split; intros ->; rewrite ?length_app, ?length_drop; simpl; lia.
Qed.

(** C37: the log of transactions shows, oldest first, the last 32 of the entries that were
    recorded, or all of them when there are fewer. *)
Theorem transaction_log_shows_last fs m :
  binder_transaction_log_show (fold_left log_record fs empty_log) m =
  fold_left print_binder_transaction_log_entry
    (drop (length fs - 32) ((fun f => f zero_entry) <$> fs)) m.
Proof.
  rewrite log_show_shown. f_equal. set (log := fold_left log_record fs empty_log).
  enough (log_ok log /\ shown log = drop (length fs - 32) ((fun f => f zero_entry) <$> fs) /\
    (l_full log = true <-> (32 <= length fs)%nat)) as (_ & H & _) by done.
  unfold log. clear log. induction fs as [|f fs IH] using rev_ind.
  { split; [split; simpl; lia|]. split; [done|]. simpl. split; [done|lia]. }
  rewrite fold_left_app. simpl. destruct IH as (O & S1 & F).
  destruct (log_record_step _ f O) as (O' & S' & F' & L1 & L2). split; [done|].
  rewrite S', F', S1 in *. rewrite length_app, fmap_app. simpl.
  rewrite length_drop, length_fmap in L1, L2.
  destruct (l_full _) eqn:Ef; simpl in *.
  - split; [|split; [lia|done]]. pose proof (proj1 F eq_refl) as Hl.
    rewrite tail_drop. rewrite drop_app_le by (rewrite length_fmap; lia). do 2 f_equal. lia.
  - assert (length fs < 32)%nat as Hl.
    { destruct (le_lt_dec 32 (length fs)) as [H|]; [|done]. by apply F in H. }
    specialize (L1 eq_refl). split.
    + replace (length fs - 32)%nat with 0%nat by lia.
      replace (length fs + 1 - 32)%nat with 0%nat by lia. by rewrite !drop_0.
    + rewrite Nat.eqb_eq. lia.
Qed.

(** ** Counters *)

(** An object is made or goes. *)
Inductive stat_event : Type := Created (t : binder_stat_types) | Deleted (t : binder_stat_types).

Definition count_event (st : binder_stats) (e : stat_event) : binder_stats :=
  match e with Created t => binder_stats_created t st | Deleted t => binder_stats_deleted t st end.

(** What an event changes about the objects of a kind. *)
Definition net (t : binder_stat_types) (e : stat_event) : Z :=
  match e with
  | Created t' => if decide (stat_index t' = stat_index t) then 1 else 0
  | Deleted t' => if decide (stat_index t' = stat_index t) then -1 else 0
  end.

Definition active_after (t : binder_stat_types) (es : list stat_event) : Z :=
  foldr (fun e n => net t e + n) 0 es.

Lemma i32_eq x y : i32 x = i32 y <-> x mod 2 ^ 32 = y mod 2 ^ 32.
Proof. unfold i32. split; intros H; Z.to_euclidean_division_equations; lia. Qed.

Lemma incr_at i j l n : l !! i = Some n ->
  incr j l !! i = Some (if decide (j = i) then i32 (n + 1) else n).
Proof.
  intros H. unfold incr. case_decide as E.
  - subst j. by rewrite list_lookup_alter_eq, H.
  - by rewrite list_lookup_alter_ne.
Qed.

(** The number shown as active is the number of objects there are, even when the
    counters have wrapped. *)
Lemma stats_active t es : forall st c d,
  obj_created st !! stat_index t = Some c -> obj_deleted st !! stat_index t = Some d ->
  exists c' d', obj_created (fold_left count_event es st) !! stat_index t = Some c' /\
    obj_deleted (fold_left count_event es st) !! stat_index t = Some d' /\
    i32 (c' - d') = i32 (c - d + active_after t es).
Proof.
  induction es as [|e es IH]; intros st c d Hc Hd; simpl.
  - exists c, d. by rewrite Z.add_0_r.
  - destruct e as [t'|t']; simpl.
    + destruct (IH (binder_stats_created t' st) _ d (incr_at _ (stat_index t') _ _ Hc) Hd)
        as (c' & d' & E1 & E2 & E3). exists c', d'. split; [done|]. split; [done|]. rewrite E3.
      apply i32_eq. case_decide; [|f_equal; lia]. unfold i32. Z.to_euclidean_division_equations. lia.
    + destruct (IH (binder_stats_deleted t' st) c _ Hc (incr_at _ (stat_index t') _ _ Hd))
        as (c' & d' & E1 & E2 & E3). exists c', d'. split; [done|]. split; [done|]. rewrite E3.
      apply i32_eq. case_decide; [|f_equal; lia]. unfold i32. Z.to_euclidean_division_equations. lia.
Qed.

(** ** Safety *)

(** A printer that adds to the output. *)
Definition prints (m : seq_file) (r : res seq_file) : Prop := exists m', r = Ret (m ++ m').

Lemma prints_ret m m' : prints m (Ret (m ++ m')).
Proof. by exists m'. Qed.

Lemma prints_same m : prints m (Ret m).
Proof. exists []. by rewrite app_nil_r. Qed.

Lemma prints_bind m r f : prints m r -> (forall m', prints (m ++ m') (f (m ++ m'))) -> prints m (res_bind r f).
Proof.
  intros [m1 ->] H. destruct (H m1) as [m2 E]. exists (m1 ++ m2). simpl. by rewrite E, app_assoc.
Qed.

Lemma prints_more m e r : prints (seq_printf m e.1 e.2) r -> prints m r.
Proof. intros [m' ->]. exists ((e.1, e.2) :: m'). unfold seq_printf. by rewrite <- app_assoc. Qed.

Lemma prints_each {A} (f : seq_file -> A -> res seq_file) l : forall m,
  (forall a m, a ∈ l -> prints m (f m a)) -> prints m (each f l m).
Proof.
  induction l as [|a l IH]; intros m H; simpl; [apply prints_same|].
  apply prints_bind; [apply H; by left|]. intros m'. apply IH. intros b m2 Hb. apply H. by right.
Qed.

(** What was printed since can be taken back. *)
Lemma prints_back m h r (c : bool) : prints (m ++ h) r -> forall g : seq_file -> bool,
  prints m (let! m2 := r in Ret (if c && g m2 then seq_back m2 (length m) else m2)).
Proof.
  intros [m' ->] g. simpl. destruct (c && _); [|rewrite <- app_assoc; apply prints_ret].
  unfold seq_back. rewrite <- app_assoc, take_app_length. apply prints_same.
Qed.

(** What is printed first. *)
Ltac print_first m :=
  lazymatch goal with
  | |- context [seq_printf m ?f ?a] =>
      apply (prints_more m (f, a)); cbn [fst snd];
      let m1 := fresh "m1" in set (m1 := seq_printf m f a)
  end.

(** Everything a file looks at is there. *)
Record printable (s : driver) : Prop := {
  pr_refs : refs_wf s;
  pr_procs p : p ∈ s_binder_procs s -> is_Some (s_procs s !! p);
  pr_thread th t : s_threads s !! th = Some t -> is_Some (s_procs s !! t_proc t);
  pr_threads p pr th : s_procs s !! p = Some pr -> th ∈ inorder (p_threads pr) ->
    is_Some (s_threads s !! th);
  pr_stack th t : s_threads s !! th = Some t -> exists l, thread_stack s th (t_transaction_stack t) l;
  pr_buffers p pr b : s_procs s !! p = Some pr -> b ∈ inorder (allocated_buffers (p_mem pr)) ->
    exists buf, get_buffer (buffers (p_mem pr)) b = Ret buf;
  pr_ends t x th : s_transactions s !! t = Some x -> x_from x = Some th \/ x_to_thread x = Some th ->
    is_Some (s_threads s !! th);
  pr_to t x p : s_transactions s !! t = Some x -> x_to_proc x = Some p -> is_Some (s_procs s !! p);
  pr_buffer t x p b : s_transactions s !! t = Some x -> x_buffer x = Some (p, b) ->
    exists pr buf, s_procs s !! p = Some pr /\ get_buffer (buffers (p_mem pr)) b = Ret buf /\
      forall n, b_target_node buf = Some n -> is_Some (s_nodes s !! n)
}.

Section Safe.
Context (s : driver) (P : printable s).

Lemma thread_ids_ok th : (forall t, th = Some t -> is_Some (s_threads s !! t)) ->
  exists ids, thread_ids s th = Ret ids.
Proof.
  intros H. destruct th as [th|]; [|by eexists]. destruct (H th eq_refl) as [t Ht].
  destruct (pr_thread _ P th t Ht) as [p Hp]. exists (p_pid p, t_pid t).
  unfold thread_ids, get_thread, get_proc. by rewrite (deref_Some _ _ _ Ht); simpl; rewrite (deref_Some _ _ _ Hp).
Qed.

Lemma transaction_prints m prefix t : is_Some (s_transactions s !! t) ->
  prints m (print_binder_transaction s m prefix t).
Proof.
  intros [x Hx]. unfold print_binder_transaction, get_transaction. rewrite (deref_Some _ _ _ Hx). simpl.
  destruct (thread_ids_ok (x_from x)) as [[fp ft] ->].
  { intros th E. eapply (pr_ends _ P); [exact Hx|by left]. }
  simpl. assert (exists n, (match x_to_proc x with None => Ret 0
    | Some p => let! p := get_proc s p in Ret (p_pid p) end) = Ret n) as [n1 ->].
  { destruct (x_to_proc x) as [p|] eqn:E; [|by eexists]. destruct (pr_to _ P t x p Hx E) as [pr Hp].
    unfold get_proc. rewrite (deref_Some _ _ _ Hp). by eexists. }
  simpl. assert (exists n, (match x_to_thread x with None => Ret 0
    | Some th => let! th := get_thread s th in Ret (t_pid th) end) = Ret n) as [n2 ->].
  { destruct (x_to_thread x) as [th|] eqn:E; [|by eexists].
    destruct (pr_ends _ P t x th Hx (or_intror E)) as [y Hy].
    unfold get_thread. rewrite (deref_Some _ _ _ Hy). by eexists. }
  simpl. print_first m.
  destruct (x_buffer x) as [[p b]|] eqn:E; [|apply prints_ret].
  destruct (pr_buffer _ P t x p b Hx E) as (pr & buf & Hp & Hb & Hn).
  unfold get_proc. rewrite (deref_Some _ _ _ Hp). simpl. rewrite Hb. simpl.
  apply prints_bind; [|intros m'; apply prints_ret].
  destruct (b_target_node buf) as [n|]; [|apply prints_same]. destruct (Hn n eq_refl) as [y Hy].
  unfold get_node. rewrite (deref_Some _ _ _ Hy). apply prints_ret.
Qed.

Lemma work_prints m p1 p2 w : work_live s w -> prints m (print_binder_work s m p1 p2 w).
Proof.
  destruct w as [t|c|n|d]; simpl; [apply transaction_prints|intros _; apply prints_ret| |].
  - intros [x Hx]. unfold get_node. rewrite (deref_Some _ _ _ Hx). apply prints_ret.
  - intros [x Hx]. unfold get_death. rewrite (deref_Some _ _ _ Hx). simpl.
    destruct (d_type x); apply prints_ret.
Qed.

Lemma works_print m p1 p2 q : prints m (each (fun m w => print_binder_work s m p1 p2 w) (work_list s q) m).
Proof. apply prints_each. intros w m' Hw. apply work_prints. by eapply (rw_works _ (pr_refs _ P)). Qed.

Lemma thread_stack_size th o l : thread_stack s th o l -> (length l <= size (s_transactions s))%nat.
Proof.
  intros H. pose proof (thread_stack_NoDup s th o l H) as N. rewrite <- size_dom.
  rewrite <- (size_list_to_set (C := gset Z) l N). apply subseteq_size. intros t.
  rewrite elem_of_list_to_set. clear N. induction H as [|t' x l' E _ _ _ IH|t' x l' E _ _ _ IH];
    rewrite ?elem_of_cons; [by intros ?%elem_of_nil|..];
    (intros [->|?]; [by apply elem_of_dom_2 in E|by apply IH]).
Qed.

Lemma stack_prints th l : forall fuel o m, thread_stack s th o l -> (length l <= fuel)%nat ->
  prints m (print_stack s fuel th o m).
Proof.
  induction l as [|t l IH]; intros fuel o m H Hf; inversion H as [|? x ? Ex Hto Hfr Hst|? x ? Ex Hto Hfr Hst];
    subst; [destruct fuel; apply prints_same|..]; destruct fuel as [|fuel]; simpl in Hf; try lia;
    cbn [print_stack]; unfold get_transaction; rewrite (deref_Some _ _ _ Ex); cbn [res_bind].
  - rewrite bool_decide_eq_false_2, bool_decide_eq_true_2 by done.
    apply prints_bind; [by apply transaction_prints|]. intros m'. apply IH; [done|lia].
  - rewrite bool_decide_eq_true_2 by done.
    apply prints_bind; [by apply transaction_prints|]. intros m'. apply IH; [done|lia].
Qed.

Lemma thread_prints m th always : is_Some (s_threads s !! th) ->
  prints m (print_binder_thread s m th always).
Proof.
  intros [t Ht]. unfold print_binder_thread, get_thread. rewrite (deref_Some _ _ _ Ht). cbn [res_bind].
  destruct (pr_stack _ P th t Ht) as [l Hl]. set (m1 := seq_printf m _ _).
  assert (prints m1 (let! m2 := print_stack s (size (s_transactions s)) th (t_transaction_stack t) m1 in
    each (fun m w => print_binder_work s m "    " "    pending transaction" w)
      (work_list s (ThreadTodo th)) m2)) as W.
  { apply prints_bind; [|intros; apply works_print].
    eapply stack_prints; [exact Hl|by eapply thread_stack_size]. }
  destruct (print_stack s _ th _ m1) as [m2|]; [|by destruct W]. cbn [res_bind] in *.
  apply (prints_back m _ _ (negb always) W (fun m3 => (length m3 =? length m1)%nat)).
Qed.

Lemma node_prints m n : is_Some (s_nodes s !! n) -> prints m (print_binder_node s m n).
Proof.
  intros [x Hx]. unfold print_binder_node, get_node. rewrite (deref_Some _ _ _ Hx). cbn [res_bind].
  print_first m.
  pose proof (rw_graph _ (pr_refs _ P)) as G. apply prints_bind.
  - destruct (length (n_refs x) =? 0)%nat; [apply prints_same|]. unfold seq_puts. print_first m1.
    apply prints_each. intros r m' Hr. apply (no_refs _ _ _ _ _ _ (go_nodes _ _ _ _ _ _ G n x Hx)) in Hr
      as (y & Hy & _). destruct (go_ref_proc _ _ _ _ _ _ G r y Hy) as [p Hp].
    unfold get_ref, get_proc. rewrite (deref_Some _ _ _ Hy). cbn [res_bind].
    rewrite (deref_Some _ _ _ Hp). apply prints_ret.
  - intros m'. unfold seq_puts. print_first (m1 ++ m'). by apply works_print.
Qed.

Lemma ref_prints m r : is_Some (s_refs s !! r) -> prints m (print_binder_ref s m r).
Proof.
  intros [y Hy]. unfold print_binder_ref, get_ref, get_node. rewrite (deref_Some _ _ _ Hy). cbn [res_bind].
  destruct (go_ref_node _ _ _ _ _ _ (rw_graph _ (pr_refs _ P)) r y Hy) as [n Hn].
  rewrite (deref_Some _ _ _ Hn). apply prints_ret.
Qed.

Lemma proc_prints m p all : is_Some (s_procs s !! p) -> prints m (print_binder_proc s m p all).
Proof.
  intros [x Hx]. unfold print_binder_proc, get_proc. rewrite (deref_Some _ _ _ Hx). cbn [res_bind].
  set (m1 := seq_printf m _ _).
  pose proof (rw_graph _ (pr_refs _ P)) as G. pose proof (go_procs _ _ _ _ _ _ G p x Hx) as T.
  match goal with |- prints m ?r => set (r0 := r) end.
  assert (prints m1 (
    let! m := each (fun m th => print_binder_thread s m th all) (inorder (p_threads x)) m1 in
    let! m := each (fun m node =>
                let! n := get_node s node in
                if all || n_has_async_transaction n then print_binder_node s m node else Ret m)
              (inorder (p_nodes x)) m in
    let! m := if all then each (print_binder_ref s) (inorder (p_refs_by_desc x)) m else Ret m in
    let! m := each (fun m b =>
                let! buf := get_buffer (buffers (p_mem x)) b in
                Ret (print_binder_buffer m "  buffer" buf))
              (inorder (allocated_buffers (p_mem x))) m in
    let! m := each (fun m w => print_binder_work s m "  " "  pending transaction" w)
      (work_list s (ProcTodo p)) m in
    Ret (match work_list s (DeliveredDeath p) with
         | [] => m
         | _ => seq_puts m "  has delivered dead binder\n"
         end))) as W.
  { apply prints_bind.
    { apply prints_each. intros th m' Hth. apply thread_prints. by eapply (pr_threads _ P). }
    intros m2. apply prints_bind.
    { apply prints_each. intros n m' Hn. apply (pt_nodes _ _ _ _ T) in Hn as (y & Hy & _).
      unfold get_node. rewrite (deref_Some _ _ _ Hy). cbn [res_bind].
      destruct (all || _); [|apply prints_same]. apply node_prints. by eexists. }
    intros m3. apply prints_bind.
    { destruct all; [|apply prints_same]. apply prints_each. intros r m' Hr. apply ref_prints.
      apply (pt_desc _ _ _ _ T) in Hr as (y & Hy & _). by eexists. }
    intros m4. apply prints_bind.
    { apply prints_each. intros b m' Hb. destruct (pr_buffers _ P p x b Hx Hb) as [buf ->].
      apply prints_ret. }
    intros m5. apply prints_bind; [by apply works_print|]. intros m6.
    destruct (work_list s (DeliveredDeath p)); [apply prints_same|apply prints_ret]. }
  destruct W as [m' W].
  assert (r0 = Ret (if negb all && (length (m1 ++ m') =? length m1)%nat then seq_back (m1 ++ m') (length m)
    else m1 ++ m')) as ->.
  { unfold r0. clear r0. repeat match type of W with
    | res_bind ?r _ = _ => destruct r; cbn [res_bind] in *; [|discriminate W]
    end. by injection W as ->. }
  destruct (negb all && _); unfold m1, seq_printf, seq_back; rewrite <- app_assoc;
    [rewrite take_app_length; apply prints_same|apply prints_ret].
Qed.

Lemma procs_print m all : prints m (each (fun m p => print_binder_proc s m p all) (s_binder_procs s) m).
Proof. apply prints_each. intros p m' Hp. apply proc_prints. by apply (pr_procs _ P). Qed.

Lemma sum_refs_ok l : (forall r, r ∈ l -> is_Some (s_refs s !! r)) -> forall c st w,
  exists x, sum_refs s l c st w = Ret x.
Proof.
  induction l as [|r l IH]; intros H c st w; simpl; [by eexists|].
  destruct (H r) as [y Hy]; [by left|]. unfold get_ref. rewrite (deref_Some _ _ _ Hy). simpl.
  apply IH. intros r' Hr. apply H. by right.
Qed.

Lemma counts_print prefix l : forall names m, exists m', print_counts prefix l names m = m ++ m'.
Proof.
  induction l as [|n l IH]; intros [|t names] m; simpl; try (exists []; by rewrite app_nil_r).
  destruct (IH names (if n =? 0 then m else seq_printf m "%s%s: %d\n" [AStr prefix; AStr t; AInt n]))
    as [m' ->]. destruct (n =? 0); [by eexists|]. unfold seq_printf. rewrite <- app_assoc. by eexists.
Qed.

Lemma objects_print prefix l : forall l' names m, exists m', print_objects prefix l l' names m = m ++ m'.
Proof.
  induction l as [|c l IH]; intros [|d l'] [|t names] m; simpl; try (exists []; by rewrite app_nil_r).
  destruct (IH l' names (if (c =? 0) && (d =? 0) then m else seq_printf m "%s%s: active %d total %d\n"
    [AStr prefix; AStr t; AInt (i32 (c - d)); AInt c])) as [m' ->].
  destruct (_ && _); [by eexists|]. unfold seq_printf. rewrite <- app_assoc. by eexists.
Qed.

Lemma stats_print m prefix st : exists m', print_binder_stats m prefix st = m ++ m'.
Proof.
  unfold print_binder_stats.
  destruct (counts_print prefix (st_bc st) binder_command_strings m) as [m1 ->].
  destruct (counts_print prefix (st_br st) binder_return_strings (m ++ m1)) as [m2 ->].
  destruct (objects_print prefix (obj_created st) (obj_deleted st) binder_objstat_strings ((m ++ m1) ++ m2))
    as [m3 ->]. rewrite <- !app_assoc. by eexists.
Qed.

Lemma proc_stats_prints m st p : is_Some (s_procs s !! p) -> prints m (print_binder_proc_stats s st m p).
Proof.
  intros [x Hx]. unfold print_binder_proc_stats, get_proc. rewrite (deref_Some _ _ _ Hx). cbn [res_bind].
  pose proof (go_procs _ _ _ _ _ _ (rw_graph _ (pr_refs _ P)) p x Hx) as T.
  destruct (sum_refs_ok (inorder (p_refs_by_desc x))) with (c := 0) (st := 0) (w := 0)
    as [[[c a] w] ->].
  { intros r Hr. apply (pt_desc _ _ _ _ T) in Hr as (y & Hy & _). by eexists. }
  cbn [res_bind]. unfold seq_printf. match goal with |- context [print_binder_stats ?m2 ?q st] =>
    destruct (stats_print m2 q st) as [m' ->] end.
  rewrite <- !app_assoc. apply prints_ret.
Qed.

(** In a state whose objects are all there, the files of debugfs follow no stale
    pointer and end, and only add to what was printed. *)
Theorem debug_files_safe m stats proc_stats :
  prints m (binder_state_show s m) /\ prints m (binder_transactions_show s m) /\
  prints m (binder_stats_show s stats proc_stats m) /\
  forall p, p ∈ s_binder_procs s -> prints m (binder_proc_show s p m).
Proof.
  split; [|split; [|split]].
  - unfold binder_state_show, seq_puts. print_first m. apply prints_bind; [|intros; apply procs_print].
    assert (prints m1 (Ret (match s_dead_nodes s with [] => m1 | _ => seq_printf m1 "dead nodes:\n" [] end)))
      as [h Eh]. { destruct (s_dead_nodes s); [apply prints_same|apply prints_ret]. }
    injection Eh as ->. destruct (prints_each (print_binder_node s) (s_dead_nodes s) (m1 ++ h)) as [m' E].
    { intros n m' Hn. apply node_prints.
      destruct (go_dead _ _ _ _ _ _ (rw_graph _ (pr_refs _ P)) n Hn) as (y & Hy & _). by eexists. }
    rewrite E, <- app_assoc. apply prints_ret.
  - unfold binder_transactions_show, seq_puts. print_first m. apply procs_print.
  - unfold binder_stats_show, seq_puts. print_first m. destruct (stats_print m1 "" stats) as [m2 ->].
    destruct (prints_each (fun m p => print_binder_proc_stats s (proc_stats p) m p) (s_binder_procs s)
      (m1 ++ m2)) as [m' E].
    { intros p m' Hp. apply proc_stats_prints. by apply (pr_procs _ P). }
    rewrite E, <- app_assoc. apply prints_ret.
  - intros p Hp. unfold binder_proc_show, seq_puts. print_first m. apply proc_prints. by apply (pr_procs _ P).
Qed.

End Safe.

(** ** A driver *)

(** A driver with two processes, a node of one and a reference of the other. *)
Lemma sample_held_leaves p pr : s_procs sample_held !! p = Some pr ->
  p_threads pr = RbLeaf /\ allocated_buffers (p_mem pr) = RbLeaf.
Proof.
  intros H. apply elem_of_map_to_list in H.
  assert (Forall (fun e => p_threads e.2 = RbLeaf /\ allocated_buffers (p_mem e.2) = RbLeaf)
    (map_to_list (s_procs sample_held))) as F by (vm_compute; repeat constructor).
  rewrite Forall_forall in F. exact (F (p, pr) H).
Qed.

Lemma sample_printable : printable sample_held.
Proof.
  destruct sample_held_ok as [W _].
  assert (s_threads sample_held = ∅ /\ s_transactions sample_held = ∅) as [Et Ex] by done.
  split; [exact W|..]; rewrite ?Et, ?Ex.
  - intros p Hp. change (s_binder_procs sample_held) with [100; 200] in Hp.
    repeat (apply elem_of_cons in Hp as [->|Hp]; [vm_compute; by eexists|]).
    by apply elem_of_nil in Hp.
  - by intros th t ?%lookup_empty_Some.
  - intros p pr th H Hth. destruct (sample_held_leaves p pr H) as [E _]. rewrite E in Hth.
    by apply elem_of_nil in Hth.
  - by intros th t ?%lookup_empty_Some.
  - intros p pr b H Hb. destruct (sample_held_leaves p pr H) as [_ E]. rewrite E in Hb.
    by apply elem_of_nil in Hb.
  - by intros t x th ?%lookup_empty_Some.
  - by intros t x p ?%lookup_empty_Some.
  - by intros t x p b ?%lookup_empty_Some.
Qed.

(** The node, its reference and the node's work are shown. *)
Lemma debug_files_safe_witness :
  prints [] (binder_state_show sample_held []) /\
  (length <$> match binder_state_show sample_held [] with Ret m => Some m | Bug _ => None end) = Some 8%nat.
Proof.
  split; [exact (proj1 (debug_files_safe sample_held sample_printable [] no_stats (fun _ => no_stats)))|].
  vm_compute. reflexivity.
Defined.
