(* ===== verification/Bio.v ===== *)
(** * Bio: the service manager's binder library

    Models native/binder.c and native/binder.h: reading and writing a
    [binder_io], the commands the library writes to the driver, and the parser
    of what the driver returns.  The process is 64-bit or 32-bit: [W] is the
    width of [size_t]; a [binder_size_t] always has 64 bits.  Memory is the map
    of the mapped bytes, so an access outside it, a fault, is [Bug 0].  What the
    process writes to the driver is recorded as bytes, in order. *)

From S2P Require Import Prelude Uapi.

Definition MAX_BIO_SIZE : Z := Z.shiftl 1 30.

Definition BIO_F_SHARED : Z := 0x01.
Definition BIO_F_OVERFLOW : Z := 0x02.
Definition BIO_F_IOERROR : Z := 0x04.
Definition BIO_F_MALLOCED : Z := 0x08.

(** [struct binder_io]. *)
Record binder_io := BinderIo {
  io_data : Z;
  io_offs : Z;
  io_data_avail : Z;
  io_offs_avail : Z;
  io_data0 : Z;
  io_offs0 : Z;
  io_flags : Z
}.

Definition io_has (bio : binder_io) (f : Z) : bool := negb (Z.land (io_flags bio) f =? 0).

Definition set_io_flags (v : Z) (bio : binder_io) : binder_io :=
  BinderIo (io_data bio) (io_offs bio) (io_data_avail bio) (io_offs_avail bio)
    (io_data0 bio) (io_offs0 bio) v.

Definition set_io_data_avail (v : Z) (bio : binder_io) : binder_io :=
  BinderIo (io_data bio) (io_offs bio) v (io_offs_avail bio)
    (io_data0 bio) (io_offs0 bio) (io_flags bio).

(** [bio->flags |= BIO_F_OVERFLOW]. *)
Definition overflow (bio : binder_io) : binder_io :=
  set_io_flags (Z.lor (io_flags bio) BIO_F_OVERFLOW) bio.

(** ** Memory *)

Definition load (m : user_memory) (a n : Z) : res (list Z) :=
  match copy_from_user m a n with Some l => Ret l | None => Bug 0 end.

Definition load_word (m : user_memory) (a n : Z) : res Z :=
  let! l := load m a n in Ret (le_decode l).

Definition store (m : user_memory) (a : Z) (l : list Z) : res user_memory :=
  match copy_to_user m a l with Some m => Ret m | None => Bug 0 end.

(** [len] 16-bit units at [a]. *)
Fixpoint units_of (n : nat) (l : list Z) : list Z :=
  match n with
  | O => []
  | S n' => le_decode (take 2 l) :: units_of n' (drop 2 l)
  end.

Definition load_units (m : user_memory) (a len : Z) : res (list Z) :=
  let! l := load m a (2 * len) in Ret (units_of (Z.to_nat len) l).

Definition units_bytes (l : list Z) : list Z := l ≫= le_encode 2.

(** The process: its memory, what it has written to the driver, and the state of
    the program that uses the library. *)
Record process (A : Type) := Process {
  u_mem : user_memory;
  u_sent : list (list Z);
  u_app : A
}.
Arguments Process {A}.
Arguments u_mem {A}.
Arguments u_sent {A}.
Arguments u_app {A}.

Section Width.
Context (W : Z).

Definition usize (x : Z) : Z := x mod 2 ^ W.
Definition sizeof_size_t : Z := W / 8.
Definition sizeof_binder_size : Z := 8.

(** [(size + 3) & (~3)]. *)
Definition round4 (size : Z) : Z := Z.land (usize (size + 3)) (Z.lnot 3).

(** ** Space *)

Definition bio_init (bio : binder_io) (data maxdata maxoffs : Z) : binder_io :=
  let n := usize (maxoffs * sizeof_size_t) in
  if maxdata <? n
  then BinderIo (io_data bio) (io_offs bio) 0 0 (io_data0 bio) (io_offs0 bio) BIO_F_OVERFLOW
  else BinderIo (data + n) data (usize (maxdata - n)) maxoffs (data + n) data 0.

Definition bio_init_from_txn (txn : transaction_data) : binder_io :=
  BinderIo (usize (td_buffer txn)) (usize (td_offsets txn)) (usize (td_data_size txn))
    (usize (td_offsets_size txn / sizeof_size_t))
    (usize (td_buffer txn)) (usize (td_offsets txn)) BIO_F_SHARED.

Definition advance (size : Z) (bio : binder_io) : binder_io :=
  BinderIo (io_data bio + size) (io_offs bio) (io_data_avail bio - size) (io_offs_avail bio)
    (io_data0 bio) (io_offs0 bio) (io_flags bio).

Definition bio_alloc (bio : binder_io) (size : Z) : option Z * binder_io :=
  let size := round4 size in
  if io_data_avail bio <? size then (None, overflow bio)
  else (Some (io_data bio), advance size bio).

Definition bio_get (bio : binder_io) (size : Z) : option Z * binder_io :=
  let size := round4 size in
  if io_data_avail bio <? size then (None, overflow (set_io_data_avail 0 bio))
  else (Some (io_data bio), advance size bio).

(** ** Writing *)

Definition bio_put_uint32 (m : user_memory) (bio : binder_io) (n : Z)
    : res (user_memory * binder_io) :=
  let '(ptr, bio) := bio_alloc bio 4 in
  match ptr with
  | None => Ret (m, bio)
  | Some ptr => let! m := store m ptr (le_encode 4 n) in Ret (m, bio)
  end.

Section Objects.
Context `{U : BinderUapi}.

(** A slot of the offsets array goes to the object; without one the object's
    space stays taken. *)
Definition bio_alloc_obj (m : user_memory) (bio : binder_io)
    : res (option Z * user_memory * binder_io) :=
  let '(obj, bio) := bio_alloc bio sizeof_flat_binder_object in
  match obj with
  | Some obj =>
      if negb (io_offs_avail bio =? 0) then
        let! m := store m (io_offs bio) (le_encode 8 (obj - io_data0 bio)) in
        Ret (Some obj, m,
             BinderIo (io_data bio) (io_offs bio + sizeof_binder_size) (io_data_avail bio)
               (io_offs_avail bio - 1) (io_data0 bio) (io_offs0 bio) (io_flags bio))
      else Ret (None, m, overflow bio)
  | None => Ret (None, m, overflow bio)
  end.

(** Assign fields of the object at [obj]. *)
Definition store_obj (m : user_memory) (obj : Z)
    (f : flat_binder_object -> flat_binder_object) : res user_memory :=
  let! l := load m obj sizeof_flat_binder_object in
  store m obj (fo_encode (f (fo_decode l))).

Definition obj_flags : Z := Z.lor 0x7f FLAT_BINDER_FLAG_ACCEPTS_FDS.

Definition bio_put_obj (m : user_memory) (bio : binder_io) (ptr : Z)
    : res (user_memory * binder_io) :=
  let! '(obj, m, bio) := bio_alloc_obj m bio in
  match obj with
  | None => Ret (m, bio)
  | Some obj =>
      let! m := store_obj m obj (fun _ =>
                  FlatBinderObject BINDER_TYPE_BINDER obj_flags (usize ptr) 0) in
      Ret (m, bio)
  end.

(** [obj->handle = handle] leaves the upper half of the union as it was. *)
Definition bio_put_ref (m : user_memory) (bio : binder_io) (handle : Z)
    : res (user_memory * binder_io) :=
  let! '(obj, m, bio) :=
    if negb (handle =? 0) then bio_alloc_obj m bio
    else
      let '(obj, bio) := bio_alloc bio sizeof_flat_binder_object in Ret (obj, m, bio) in
  match obj with
  | None => Ret (m, bio)
  | Some obj =>
      let! m := store_obj m obj (fun o =>
                  set_fo_handle handle
                    (FlatBinderObject BINDER_TYPE_HANDLE obj_flags (fo_binder o) 0)) in
      Ret (m, bio)
  end.

(** [while (str[len]) len++]: the units before the first zero. *)
Fixpoint str16_len (str : list Z) : Z :=
  match str with
  | [] => 0
  | c :: str' => if c =? 0 then 0 else 1 + str16_len str'
  end.

(** [str] holds the units from the pointer on; [None] is NULL. *)
Definition bio_put_string16 (m : user_memory) (bio : binder_io) (str : option (list Z))
    : res (user_memory * binder_io) :=
  match str with
  | None => bio_put_uint32 m bio 0xffffffff
  | Some str =>
      let len := str16_len str in
      if MAX_BIO_SIZE / 2 <=? len then bio_put_uint32 m bio 0xffffffff
      else
        let! '(m, bio) := bio_put_uint32 m bio (u32 len) in
        let '(ptr, bio) := bio_alloc bio (usize ((len + 1) * 2)) in
        match ptr with
        | None => Ret (m, bio)
        | Some ptr =>
            let! m := store m ptr (units_bytes (take (Z.to_nat len) str ++ [0])) in
            Ret (m, bio)
        end
  end.

(** The same for a string of bytes, widened one by one. *)
Definition bio_put_string16_x (m : user_memory) (bio : binder_io) (str : option (list Z))
    : res (user_memory * binder_io) :=
  bio_put_string16 m bio str.

(** ** Reading *)

Definition bio_get_uint32 (m : user_memory) (bio : binder_io) : res (Z * binder_io) :=
  let '(ptr, bio) := bio_get bio 4 in
  match ptr with
  | None => Ret (0, bio)
  | Some ptr => let! n := load_word m ptr 4 in Ret (n, bio)
  end.

(** The pointer to the units, the length read, and the rest. *)
Definition bio_get_string16 (m : user_memory) (bio : binder_io)
    : res (option Z * Z * binder_io) :=
  let! '(len, bio) := bio_get_uint32 m bio in
  let '(ptr, bio) := bio_get bio (usize ((len + 1) * 2)) in
  Ret (ptr, len, bio).

(** The loop over the offsets, for the current position. *)
Fixpoint find_offset (m : user_memory) (offs off : Z) (n : nat) : res bool :=
  match n with
  | O => Ret false
  | S n' =>
      let! o := load_word m offs 8 in
      if o =? off then Ret true else find_offset m (offs + sizeof_binder_size) off n'
  end.

Definition bio_get_obj (m : user_memory) (bio : binder_io) : res (option Z * binder_io) :=
  let off := usize (io_data bio - io_data0 bio) in
  let! found := find_offset m (io_offs bio) off (Z.to_nat (io_offs_avail bio)) in
  if found : bool then Ret (bio_get bio sizeof_flat_binder_object)
  else Ret (None, overflow (set_io_data_avail 0 bio)).

Definition bio_get_ref (m : user_memory) (bio : binder_io) : res (Z * binder_io) :=
  let! '(obj, bio) := bio_get_obj m bio in
  match obj with
  | None => Ret (0, bio)
  | Some obj =>
      let! l := load m obj sizeof_flat_binder_object in
      let o := fo_decode l in
      Ret (if fo_type o =? BINDER_TYPE_HANDLE then fo_handle o else 0, bio)
  end.

(** ** Talking to the driver *)

(** What the stack holds where the library leaves its locals uninitialised, and
    the addresses of the locals it takes. *)
Record stack := Stack {
  st_txn : transaction_data;
  st_rdata : Z;
  st_status : Z;
  st_reply : binder_io;
  st_msg : binder_io
}.

Section Program.
Context {A : Type}.

Definition set_u_mem (m : user_memory) (p : process A) : process A :=
  Process m (u_sent p) (u_app p).

Definition set_u_app (a : A) (p : process A) : process A :=
  Process (u_mem p) (u_sent p) a.

(** [binder_write]; none of its callers here looks at the result. *)
Definition binder_write (p : process A) (data : list Z) : process A :=
  Process (u_mem p) (u_sent p ++ [data]) (u_app p).

Definition binder_free_buffer (p : process A) (buffer_to_free : Z) : process A :=
  binder_write p (le_encode 4 BC_FREE_BUFFER ++ le_encode 8 buffer_to_free).

(** The reply's transaction: the status word, or what has been put in [reply]. *)
Definition reply_txn (K : stack) (reply : binder_io) (status : Z) : transaction_data :=
  let g := st_txn K in
  if negb (status =? 0)
  then TransactionData 0 0 0 TF_STATUS_CODE (td_sender_pid g) (td_sender_euid g) 4 0
         (st_status K) 0
  else TransactionData 0 0 0 0 (td_sender_pid g) (td_sender_euid g)
         (u64 (io_data reply - io_data0 reply)) (u64 (io_offs reply - io_offs0 reply))
         (io_data0 reply) (io_offs0 reply).

Definition binder_send_reply (K : stack) (p : process A) (reply : binder_io)
    (buffer_to_free status : Z) : res (process A) :=
  let! m := store (u_mem p) (st_status K) (le_encode 4 (u32 status)) in
  Ret (binder_write (set_u_mem m p)
         (le_encode 4 BC_FREE_BUFFER ++ le_encode 8 buffer_to_free ++
          le_encode 4 BC_REPLY ++ td_encode (reply_txn K reply status))).

Definition binder_acquire (p : process A) (handle : Z) : process A :=
  binder_write p (le_encode 4 BC_ACQUIRE ++ le_encode 4 handle).

Definition binder_release (p : process A) (handle : Z) : process A :=
  binder_write p (le_encode 4 BC_RELEASE ++ le_encode 4 handle).

Definition binder_link_to_death (p : process A) (handle death : Z) : process A :=
  binder_write p (le_encode 4 BC_REQUEST_DEATH_NOTIFICATION ++ handle_cookie_encode handle death).

Definition binder_done (p : process A) (reply : binder_io) : process A * binder_io :=
  if io_has reply BIO_F_SHARED
  then (binder_write p (le_encode 4 BC_FREE_BUFFER ++ le_encode (Z.to_nat sizeof_size_t)
          (io_data0 reply)), set_io_flags 0 reply)
  else (p, reply).

(** A [binder_handler]: the status, the reply and the process after it. *)
Definition handler : Type :=
  process A -> transaction_data -> binder_io -> binder_io -> res (Z * binder_io * process A).

(** The call through [death->func] with the [struct binder_death] at an address. *)
Definition death_func : Type := Z -> process A -> res (process A).

(** One [BR_TRANSACTION]. *)
Definition serve (K : stack) (p : process A) (func : handler) (txn : transaction_data)
    : res (process A) :=
  let reply := bio_init (st_reply K) (st_rdata K) 256 4 in
  let msg := bio_init_from_txn txn in
  let! '(r, reply, p) := func p txn msg reply in
  if negb (Z.land (td_flags txn) TF_ONE_WAY =? 0)
  then Ret (binder_free_buffer p (td_buffer txn))
  else binder_send_reply K p reply (td_buffer txn) r.

(** How one command of the read buffer ends. *)
Inductive parsed : Type :=
| ParseNext (ptr r : Z) (bio : option binder_io) (p : process A)
| ParseFail (p : process A).

Definition parse_command (K : stack) (p : process A) (func : option handler)
    (death : death_func) (wants_reply : bool) (cmd ptr end_ r : Z) (bio : option binder_io)
    : res parsed :=
  if bool_decide (cmd ∈ [BR_NOOP; BR_TRANSACTION_COMPLETE])
  then Ret (ParseNext ptr r bio p)
  else if bool_decide (cmd ∈ [BR_INCREFS; BR_ACQUIRE; BR_RELEASE; BR_DECREFS])
  then Ret (ParseNext (usize (ptr + sizeof_ptr_cookie)) r bio p)
  else if cmd =? BR_TRANSACTION then
    if usize (end_ - ptr) <? sizeof_transaction_data then Ret (ParseFail p)
    else
      let! p := match func with
                | Some f =>
                    let! l := load (u_mem p) ptr sizeof_transaction_data in
                    serve K p f (td_decode l)
                | None => Ret p
                end in
      Ret (ParseNext (usize (ptr + sizeof_transaction_data)) r bio p)
  else if cmd =? BR_REPLY then
    if usize (end_ - ptr) <? sizeof_transaction_data then Ret (ParseFail p)
    else
      let! bio := if wants_reply && bool_decide (bio = None) then
                    let! l := load (u_mem p) ptr sizeof_transaction_data in
                    Ret (Some (bio_init_from_txn (td_decode l)))
                  else Ret bio in
      Ret (ParseNext (usize (ptr + sizeof_transaction_data)) 0 bio p)
  else if cmd =? BR_DEAD_BINDER then
    let! d := load_word (u_mem p) ptr 8 in
    let! p := death (usize d) p in
    Ret (ParseNext (usize (ptr + 8)) r bio p)
  else if bool_decide (cmd ∈ [BR_FAILED_REPLY; BR_DEAD_REPLY])
  then Ret (ParseNext ptr (-1) bio p)
  else Ret (ParseFail p).

(** [binder_parse]: [bio] becomes the first reply, when the caller gave a place
    for one. *)
Fixpoint parse_loop (fuel : nat) (K : stack) (p : process A) (func : option handler)
    (death : death_func) (wants_reply : bool) (ptr end_ r : Z) (bio : option binder_io)
    : res (Z * option binder_io * process A) :=
  if ptr <? end_ then
    match fuel with
    | O => Bug (-12)
    | S fuel' =>
        let! cmd := load_word (u_mem p) ptr 4 in
        let! k := parse_command K p func death wants_reply cmd (usize (ptr + 4)) end_ r bio in
        match k with
        | ParseNext ptr r bio p => parse_loop fuel' K p func death wants_reply ptr end_ r bio
        | ParseFail p => Ret (-1, bio, p)
        end
    end
  else Ret (r, bio, p).

(** A command has at least four bytes. *)
Definition binder_parse (K : stack) (p : process A) (func : option handler)
    (death : death_func) (wants_reply : bool) (ptr size : Z)
    : res (Z * option binder_io * process A) :=
  parse_loop (Z.to_nat size) K p func death wants_reply ptr (usize (ptr + size)) 1 None.

(** The driver's side of an [ioctl(BINDER_WRITE_READ)]: the result and the bytes
    put into the read buffer. *)
Definition driver_answers : Type := list (Z * list Z).

Definition call_txn (K : stack) (msg : binder_io) (handle code : Z) : transaction_data :=
  let g := st_txn K in
  TransactionData (td_target g - u32 (td_target g) + handle) (td_cookie g) code 0
    (td_sender_pid g) (td_sender_euid g)
    (u64 (io_data msg - io_data0 msg)) (u64 (io_offs msg - io_offs0 msg))
    (io_data0 msg) (io_offs0 msg).

(** The label [fail] of [binder_call]. *)
Definition failed_reply : binder_io := BinderIo 0 0 0 0 0 0 BIO_F_IOERROR.

Fixpoint call_loop (K : stack) (p : process A) (answers : driver_answers) (readbuf : Z)
    (death : death_func) (bio : binder_io) : res (option (Z * binder_io * process A)) :=
  match answers with
  | [] => Ret None
  | (r, bytes) :: answers' =>
      if r <? 0 then Ret (Some (-1, failed_reply, p))
      else
        let! m := store (u_mem p) readbuf bytes in
        let! '(k, b, p) := binder_parse K (set_u_mem m p) None death true readbuf
                             (Z.of_nat (length bytes)) in
        if k =? 0 then Ret (Some (0, default bio b, p))
        else if k <? 0 then Ret (Some (-1, failed_reply, p))
        else call_loop K p answers' readbuf death (default bio b)
  end.

(** [binder_call] against a driver that answers in this way; [None] is a call
    that still waits for an answer.  Only the first ioctl has something to
    write, the driver having consumed it. *)
Definition binder_call (K : stack) (p : process A) (answers : driver_answers) (readbuf : Z)
    (death : death_func) (msg bio : binder_io) (handle code : Z)
    : res (option (Z * binder_io * process A)) :=
  if io_has msg BIO_F_OVERFLOW then Ret (Some (-1, failed_reply, p))
  else
    call_loop K (binder_write p (le_encode 4 BC_TRANSACTION ++
                                 td_encode (call_txn K msg handle code)))
      answers readbuf death bio.

(** [binder_loop]: [true] when it has left its loop. *)
Fixpoint loop_answers (K : stack) (p : process A) (answers : driver_answers) (readbuf : Z)
    (death : death_func) (func : handler) : res (bool * process A) :=
  match answers with
  | [] => Ret (false, p)
  | (r, bytes) :: answers' =>
      if r <? 0 then Ret (true, p)
      else
        let! m := store (u_mem p) readbuf bytes in
        let! '(k, _, p) := binder_parse K (set_u_mem m p) (Some func) death false readbuf
                             (Z.of_nat (length bytes)) in
        if k <=? 0 then Ret (true, p) else loop_answers K p answers' readbuf death func
  end.

Definition binder_loop (K : stack) (p : process A) (answers : driver_answers) (readbuf : Z)
    (death : death_func) (func : handler) : res (bool * process A) :=
  loop_answers K (binder_write p (le_encode 4 BC_ENTER_LOOPER)) answers readbuf death func.

End Program.
End Objects.
End Width.
