(* ===== verification/BioThms.v ===== *)
(** * BioThms: messages are read as they were written, and inside their bounds

    Theorems about the [binder_io] routines of native/binder.c in a 64-bit
    process: reading never leaves the message whatever is in it, writing never
    leaves the area given to [bio_init], and a reader of what was written gets
    back the values that were put. *)

From S2P Require Import Prelude Uapi Bio.

(** The bytes from [a] on, [n] of them, are mapped. *)
Definition mapped (m : user_memory) (a n : Z) : Prop := forall x, a <= x < a + n -> is_Some (m !! x).

(** The two memories hold the same bytes there. *)
Definition same_bytes (m m' : user_memory) (a n : Z) : Prop :=
  forall x, a <= x < a + n -> m' !! x = m !! x.

Lemma load_mapped m a n : mapped m a n -> exists l, load m a n = Ret l /\ Z.of_nat (length l) = Z.max 0 n.
Proof.
  intros H. unfold load. destruct (copy_from_user m a n) as [l|] eqn:E.
  - exists l. split; [done|]. unfold copy_from_user in E. apply mapM_Some, Forall2_length in E.
    rewrite length_seqZ in E. lia.
  - apply copy_from_user_is_Some in H as [l Hl]. congruence.
Qed.

Definition bytes_ok (m : user_memory) : Prop := forall x b, m !! x = Some b -> byte_ok b.

Lemma copy_from_user_bytes m a n l : bytes_ok m -> copy_from_user m a n = Some l -> Forall byte_ok l.
Proof.
  intros Hb E. unfold copy_from_user in E. apply mapM_Some in E.
  induction E as [|x b xs bs Hx _ IH]; constructor; [by apply (Hb x)|done].
Qed.

Lemma load_word_mapped m a n : bytes_ok m -> mapped m a n ->
  exists x, load_word m a n = Ret x /\ 0 <= x < 256 ^ Z.max 0 n.
Proof.
  intros Hb H. unfold load_word. destruct (load_mapped m a n H) as (l & E & Hl). rewrite E.
  exists (le_decode l). split; [done|]. rewrite <- Hl. apply le_decode_range.
  unfold load in E. destruct (copy_from_user m a n) eqn:Ec; [|done]. injection E as ->.
  by eapply copy_from_user_bytes.
Qed.

Lemma write_bytes_ok m a l : bytes_ok m -> Forall byte_ok l -> bytes_ok (write_bytes m a l).
Proof.
  intros Hm Hl x b. rewrite write_bytes_lookup. case_decide; [|apply Hm].
  rewrite Forall_lookup in Hl. apply Hl.
Qed.

Lemma store_mapped m a l : mapped m a (Z.of_nat (length l)) -> store m a l = Ret (write_bytes m a l).
Proof. intros H. unfold store. by rewrite copy_to_user_ok by by apply copy_from_user_is_Some. Qed.

Lemma store_Ret m a l m' : store m a l = Ret m' -> m' = write_bytes m a l.
Proof. unfold store, copy_to_user. destruct (bool_decide _); congruence. Qed.

Lemma mapped_write m a l b n : mapped m b n -> mapped (write_bytes m a l) b n.
Proof. intros H x Hx. by apply write_bytes_is_Some, H. Qed.

Lemma mapped_sub m a n b k : mapped m a n -> a <= b -> b + k <= a + n -> mapped m b k.
Proof. intros H Hb Hk x Hx. apply H. lia. Qed.

Lemma load_same m m' a n : same_bytes m m' a n -> load m' a n = load m a n.
Proof. intros H. unfold load. by rewrite (copy_from_user_ext m m'). Qed.

Lemma load_word_same m m' a n : same_bytes m m' a n -> load_word m' a n = load_word m a n.
Proof. intros H. unfold load_word. by rewrite (load_same m m'). Qed.

Lemma load_written m a l : load (write_bytes m a l) a (Z.of_nat (length l)) = Ret l.
Proof. unfold load. by rewrite copy_from_user_write. Qed.

(** ** Sizes *)

Lemma land_lnot_3 v : Z.land v (Z.lnot 3) = v - v mod 4.
Proof. change 3 with (2 ^ 2 - 1). by rewrite land_lnot_ones. Qed.

Lemma round4_spec n : 0 <= n < 2 ^ 64 - 3 -> round4 64 n = n + (- n) mod 4.
Proof.
  intros Hn. unfold round4, usize. rewrite Z.mod_small, land_lnot_3 by lia.
  Z.to_euclidean_division_equations. lia.
Qed.

Lemma round4_bounds n : 0 <= n < 2 ^ 64 - 3 -> n <= round4 64 n < n + 4 /\ (4 | round4 64 n).
Proof.
  intros Hn. rewrite round4_spec by done. split; [Z.to_euclidean_division_equations; lia|].
  exists ((n + (- n) mod 4) / 4). Z.to_euclidean_division_equations. lia.
Qed.

Lemma round4_range n : 0 <= round4 64 n < 2 ^ 64.
Proof.
  unfold round4, usize. rewrite land_lnot_3.
  pose proof (Z.mod_pos_bound (n + 3) (2 ^ 64) ltac:(lia)) as H.
  pose proof (Z.mod_pos_bound ((n + 3) mod 2 ^ 64) 4 ltac:(lia)).
  pose proof (Z.mod_le ((n + 3) mod 2 ^ 64) 4 ltac:(lia) ltac:(lia)). lia.
Qed.

(** ** Flags *)

Lemma overflow_has bio : io_has (overflow bio) BIO_F_OVERFLOW = true.
Proof.
  unfold io_has, overflow. simpl. rewrite negb_true_iff. apply Z.eqb_neq. unfold BIO_F_OVERFLOW.
  intros E. assert (Z.testbit (Z.land (Z.lor (io_flags bio) 2) 2) 1 = false) as Hb by (by rewrite E).
  rewrite Z.land_spec, Z.lor_spec in Hb. simpl in Hb. by rewrite orb_true_r in Hb.
Qed.

(** ** Reading stays inside the message *)

(** The message that is left and the array of offsets are in memory. *)
Record reader_ok (m : user_memory) (bio : binder_io) : Prop := {
  rd_bytes : bytes_ok m;
  rd_avail : 0 <= io_data_avail bio < 2 ^ 64;
  rd_offs : 0 <= io_offs_avail bio;
  rd_data_mapped : mapped m (io_data bio) (io_data_avail bio);
  rd_offs_mapped : mapped m (io_offs bio) (8 * io_offs_avail bio)
}.

(** What a read leaves: the rest of the same message. *)
Definition reads_on (bio bio' : binder_io) : Prop :=
  io_data bio <= io_data bio' /\
  io_data bio' + io_data_avail bio' <= io_data bio + io_data_avail bio /\
  io_offs bio' = io_offs bio /\ io_offs_avail bio' = io_offs_avail bio.

Lemma reads_on_ok m bio bio' : reader_ok m bio -> reads_on bio bio' -> 0 <= io_data_avail bio' ->
  reader_ok m bio'.
Proof.
  intros [H0 H1 H2 H3 H4] (E1 & E2 & E3 & E4) H. split; rewrite ?E3, ?E4; try done; [lia|].
  eapply mapped_sub; [exact H3|lia|lia].
Qed.

Lemma bio_get_spec m bio size ptr bio' : reader_ok m bio -> bio_get 64 bio size = (ptr, bio') ->
  reader_ok m bio' /\ reads_on bio bio' /\
  match ptr with
  | Some p => p = io_data bio /\ round4 64 size <= io_data_avail bio /\
      bio' = advance (round4 64 size) bio /\ mapped m p (round4 64 size)
  | None => io_has bio' BIO_F_OVERFLOW = true /\ io_data_avail bio' = 0
  end.
Proof.
  intros Hok. pose proof (round4_range size) as Hr. unfold bio_get.
  destruct (Z.ltb_spec (io_data_avail bio) (round4 64 size)); intros [= <- <-].
  - assert (reads_on bio (overflow (set_io_data_avail 0 bio))) as Ho.
    { destruct Hok. unfold reads_on. simpl. lia. }
    split; [by eapply reads_on_ok|]. split; [done|]. split; [|done]. apply overflow_has.
  - assert (reads_on bio (advance (round4 64 size) bio)) as Ho.
    { destruct Hok. unfold reads_on. simpl. lia. }
    split; [apply (reads_on_ok m bio); [done|done|simpl; lia]|]. split; [done|].
    split; [done|]. split; [done|]. split; [done|]. destruct Hok. by apply (mapped_sub m (io_data bio) (io_data_avail bio)); [|lia|lia].
Qed.

Lemma reads_on_refl bio : reads_on bio bio.
Proof. unfold reads_on. lia. Qed.

Lemma reads_on_trans b1 b2 b3 : reads_on b1 b2 -> reads_on b2 b3 -> reads_on b1 b3.
Proof. intros (? & ? & E1 & E2) (? & ? & E3 & E4). unfold reads_on. rewrite E3, E4. lia. Qed.

Lemma bio_get_uint32_spec m bio : reader_ok m bio ->
  exists n bio', bio_get_uint32 64 m bio = Ret (n, bio') /\ reader_ok m bio' /\ reads_on bio bio' /\
    0 <= n < 2 ^ 32.
Proof.
  intros Hok. unfold bio_get_uint32. destruct (bio_get 64 bio 4) as [ptr bio'] eqn:E.
  destruct (bio_get_spec m bio 4 ptr bio' Hok E) as (Hok' & Hon & H). destruct ptr as [p|].
  - destruct H as (_ & _ & _ & Hm). change (round4 64 4) with 4 in Hm.
    destruct (load_word_mapped m p 4 (rd_bytes _ _ Hok) Hm) as (x & Ex & Hx). rewrite Ex. cbn [res_bind].
    exists x, bio'. done.
  - exists 0, bio'. done.
Qed.

(** The units behind the pointer, and the zero after them, are in the message. *)
Lemma bio_get_string16_spec m bio : reader_ok m bio ->
  exists ptr len bio', bio_get_string16 64 m bio = Ret (ptr, len, bio') /\ reader_ok m bio' /\
    reads_on bio bio' /\ 0 <= len < 2 ^ 32 /\
    forall p, ptr = Some p -> io_data bio <= p /\ p + 2 * (len + 1) <= io_data bio' /\
      mapped m p (2 * (len + 1)).
Proof.
  intros Hok. unfold bio_get_string16.
  destruct (bio_get_uint32_spec m bio Hok) as (len & b1 & -> & Hok1 & Hon1 & Hlen). cbn [res_bind].
  destruct (bio_get 64 b1 (usize 64 ((len + 1) * 2))) as [ptr b2] eqn:E.
  destruct (bio_get_spec m b1 _ ptr b2 Hok1 E) as (Hok2 & Hon2 & H).
  exists ptr, len, b2. split; [done|]. split; [done|]. split; [by eapply reads_on_trans|].
  split; [done|]. intros p ->. destruct H as (-> & Hle & -> & Hm).
  assert (usize 64 ((len + 1) * 2) = (len + 1) * 2) as Eu by (apply Z.mod_small; lia).
  rewrite Eu in *. destruct (round4_bounds ((len + 1) * 2)) as [Hb _]; [lia|].
  destruct Hon1 as (? & ? & _). simpl. split; [lia|]. split; [lia|].
  apply (mapped_sub _ _ _ _ _ Hm); lia.
Qed.

Lemma find_offset_spec m off n : forall offs, bytes_ok m -> mapped m offs (8 * Z.of_nat n) ->
  exists b, find_offset m offs off n = Ret b /\
    (b = true <-> exists i, (i < n)%nat /\ load_word m (offs + 8 * Z.of_nat i) 8 = Ret off).
Proof.
  induction n as [|n IH]; intros offs Hb Hm; simpl.
  { exists false. split; [done|]. split; [done|]. intros (i & Hi & _). lia. }
  destruct (load_word_mapped m offs 8 Hb) as (x & Ex & _).
  { eapply mapped_sub; [exact Hm|lia|lia]. }
  rewrite Ex. cbn [res_bind]. destruct (Z.eqb_spec x off) as [->|Hne].
  - exists true. split; [done|]. split; [|done]. intros _. exists 0%nat.
    split; [lia|]. by rewrite Z.add_0_r.
  - destruct (IH (offs + sizeof_binder_size) Hb) as (b & Eb & Hbi).
    { unfold sizeof_binder_size. eapply mapped_sub; [exact Hm|lia|lia]. }
    exists b. split; [done|]. rewrite Hbi. unfold sizeof_binder_size. split.
    + intros (i & Hi & E). exists (S i). split; [lia|]. rewrite <- E. f_equal. lia.
    + intros (i & Hi & E). destruct i as [|i].
      * rewrite Z.add_0_r, Ex in E. congruence.
      * exists i. split; [lia|]. rewrite <- E. f_equal. lia.
Qed.

(** ** Writing stays inside the area *)

(** A writer made by [bio_init] over the [M] bytes at [D], with [N] slots. *)
Record writer_ok (m : user_memory) (D M N : Z) (bio : binder_io) : Prop := {
  wr_bytes : bytes_ok m;
  wr_mapped : mapped m D M;
  wr_top : 0 <= D /\ D + M < 2 ^ 64;
  wr_slots : 0 <= N /\ 8 * N <= M;
  wr_data0 : io_data0 bio = D + 8 * N /\ io_offs0 bio = D;
  wr_data : D + 8 * N <= io_data bio /\ io_data bio + io_data_avail bio = D + M /\
            0 <= io_data_avail bio;
  wr_offs : D <= io_offs bio /\ io_offs bio + 8 * io_offs_avail bio = D + 8 * N /\
            0 <= io_offs_avail bio
}.

(** What a write may have done: only bytes past the current ends, inside the
    area; an overflow is never forgotten. *)
Definition wrote (D M N : Z) (m : user_memory) (bio : binder_io) (m' : user_memory)
    (bio' : binder_io) : Prop :=
  io_data bio <= io_data bio' /\ io_offs bio <= io_offs bio' /\
  (forall x, ~ (io_data bio <= x < D + M) -> ~ (io_offs bio <= x < D + 8 * N) -> m' !! x = m !! x) /\
  (io_has bio' BIO_F_OVERFLOW = false -> io_has bio BIO_F_OVERFLOW = false).

Lemma wrote_refl D M N m bio : wrote D M N m bio m bio.
Proof. unfold wrote. split; [lia|]. split; [lia|]. done. Qed.

Lemma wrote_trans D M N m1 b1 m2 b2 m3 b3 :
  wrote D M N m1 b1 m2 b2 -> wrote D M N m2 b2 m3 b3 -> wrote D M N m1 b1 m3 b3.
Proof.
  intros (A1 & A2 & A3 & A4) (B1 & B2 & B3 & B4). split; [lia|]. split; [lia|]. split; [|auto].
  intros x Hx Hy. rewrite B3, A3 by lia. done.
Qed.

Lemma writer_ok_overflow m D M N bio : writer_ok m D M N bio -> writer_ok m D M N (overflow bio).
Proof. intros [? ? ? ? ? ? ?]. by split. Qed.

Lemma wrote_overflow D M N m bio m' bio' :
  wrote D M N m bio m' bio' -> wrote D M N m bio m' (overflow bio').
Proof. intros (? & ? & ? & _). split; [done|]. split; [done|]. by rewrite overflow_has. Qed.

Lemma bio_init_writer m bio D M N :
  bytes_ok m -> mapped m D M -> 0 <= D -> D + M < 2 ^ 64 -> 0 <= N -> 8 * N <= M ->
  writer_ok m D M N (bio_init 64 bio D M N) /\ io_has (bio_init 64 bio D M N) BIO_F_OVERFLOW = false.
Proof.
  intros Hb Hm HD HM HN HNM. unfold bio_init, sizeof_size_t, usize. change (64 / 8) with 8.
  rewrite (Z.mod_small (N * 8)) by lia. rewrite (proj2 (Z.ltb_ge M (N * 8))) by lia.
  rewrite Z.mod_small by lia. split; [|done]. split; simpl; try done; lia.
Qed.

Lemma bio_alloc_spec m D M N bio size ptr bio' :
  writer_ok m D M N bio -> bio_alloc 64 bio size = (ptr, bio') ->
  writer_ok m D M N bio' /\ wrote D M N m bio m bio' /\ io_offs bio' = io_offs bio /\
  io_offs_avail bio' = io_offs_avail bio /\
  match ptr with
  | Some p => p = io_data bio /\ io_data bio' = p + round4 64 size /\ p + round4 64 size <= D + M /\
      io_flags bio' = io_flags bio
  | None => io_has bio' BIO_F_OVERFLOW = true /\ io_data_avail bio < round4 64 size
  end.
Proof.
  intros Hok. pose proof (round4_range size) as Hr. unfold bio_alloc.
  destruct (Z.ltb_spec (io_data_avail bio) (round4 64 size)); intros [= <- <-].
  - split; [by apply writer_ok_overflow|]. split; [by apply wrote_overflow, wrote_refl|].
    do 2 (split; [done|]). split; [apply overflow_has|done].
  - destruct Hok as [H1 H2 H3 H4 H5 (H6 & H7 & H8) H9].
    split; [split; simpl; try done; lia|]. simpl. split; [|lia].
    split; simpl; [lia|]. split; [lia|]. done.
Qed.

(** A store past the ends [bio] had. *)
Lemma store_spec D M N m m1 bio bio' p l :
  writer_ok m1 D M N bio' -> wrote D M N m bio m1 bio' -> Forall byte_ok l ->
  (D <= io_data bio <= p /\ p + Z.of_nat (length l) <= D + M) \/
  (D <= io_offs bio <= p /\ p + Z.of_nat (length l) <= D + 8 * N) ->
  store m1 p l = Ret (write_bytes m1 p l) /\
  writer_ok (write_bytes m1 p l) D M N bio' /\ wrote D M N m bio (write_bytes m1 p l) bio'.
Proof.
  intros [H1 H2 H3 H4 H5 H6 H7] (W1 & W2 & W3 & W4) Hl Hp. split; [|split].
  - apply store_mapped. apply (mapped_sub _ _ _ _ _ H2); lia.
  - split; try done; [by apply write_bytes_ok|by apply mapped_write].
  - split; [done|]. split; [done|]. split; [|done]. intros x Hx Hy.
    rewrite write_bytes_lookup, decide_False by lia. by apply W3.
Qed.

(** ** Values *)

Inductive value : Type :=
| VUint32 (n : Z)
| VString16 (s : list Z)
| VRef (handle : Z).

(** A string is without zeros and not too long; no handle is the service
    manager's, which [bio_put_ref] gives no slot. *)
Definition value_ok (v : value) : Prop :=
  match v with
  | VUint32 n => 0 <= n < 2 ^ 32
  | VString16 s => Forall (fun u => 0 < u < 2 ^ 16) s /\ Z.of_nat (length s) < MAX_BIO_SIZE / 2
  | VRef h => 0 < h < 2 ^ 32
  end.

Lemma set_fo_handle_range h b t f c : 0 <= h < 2 ^ 32 -> 0 <= b < 2 ^ 64 ->
  0 <= fo_binder (set_fo_handle h (FlatBinderObject t f b c)) < 2 ^ 64.
Proof.
  intros Hh Hb. simpl. rewrite (u32_small h) by lia. unfold u32.
  Z.to_euclidean_division_equations. lia.
Qed.

Section Readers.
Context `{U : BinderUapi}.

Lemma bio_get_obj_spec m bio : reader_ok m bio ->
  exists ptr bio', bio_get_obj 64 m bio = Ret (ptr, bio') /\ reader_ok m bio' /\ reads_on bio bio' /\
    forall p, ptr = Some p -> io_data bio <= p /\ p + sizeof_flat_binder_object <= io_data bio' /\
      mapped m p sizeof_flat_binder_object.
Proof.
  intros Hok. unfold bio_get_obj.
  destruct (find_offset_spec m (usize 64 (io_data bio - io_data0 bio)) (Z.to_nat (io_offs_avail bio))
    (io_offs bio)) as (b & -> & _); [by destruct Hok| |].
  { destruct Hok. by rewrite Z2Nat.id. }
  cbn [res_bind]. destruct b.
  - destruct (bio_get 64 bio sizeof_flat_binder_object) as [ptr bio'] eqn:E.
    destruct (bio_get_spec m bio _ ptr bio' Hok E) as (Hok' & Hon & H). exists ptr, bio'.
    do 3 (split; [done|]). intros p ->. destruct H as (-> & Hle & -> & Hm).
    pose proof sizeof_flat_pos. pose proof sizeof_flat_small. destruct (round4_bounds sizeof_flat_binder_object) as [Hb _]; [lia|].
    simpl. split; [lia|]. split; [lia|]. apply (mapped_sub _ _ _ _ _ Hm); lia.
  - eexists None, _. split; [reflexivity|].
    assert (reads_on bio (overflow (set_io_data_avail 0 bio))) as Ho.
    { destruct Hok. unfold reads_on. simpl. lia. }
    split; [by apply (reads_on_ok m bio)|]. done.
Qed.

Lemma bio_get_ref_spec m bio : reader_ok m bio ->
  exists h bio', bio_get_ref 64 m bio = Ret (h, bio') /\ reader_ok m bio' /\ reads_on bio bio' /\
    0 <= h < 2 ^ 32.
Proof.
  intros Hok. unfold bio_get_ref.
  destruct (bio_get_obj_spec m bio Hok) as (ptr & bio' & -> & Hok' & Hon & Hp). cbn [res_bind].
  destruct ptr as [p|]; [|by exists 0, bio'].
  destruct (Hp p eq_refl) as (_ & _ & Hm). destruct (load_mapped m p _ Hm) as (l & -> & _).
  cbn [res_bind]. eexists _, bio'. split; [reflexivity|]. do 2 (split; [done|]).
  destruct (_ =? _); [apply u32_range|lia].
Qed.

Definition put_value (m : user_memory) (bio : binder_io) (v : value) : res (user_memory * binder_io) :=
  match v with
  | VUint32 n => bio_put_uint32 64 m bio n
  | VString16 s => bio_put_string16 64 m bio (Some (s ++ [0]))
  | VRef h => bio_put_ref 64 m bio h
  end.

(** The value is what the reader is given. *)
Definition gets (m : user_memory) (bio : binder_io) (v : value) (bio' : binder_io) : Prop :=
  match v with
  | VUint32 n => bio_get_uint32 64 m bio = Ret (n, bio')
  | VString16 s => exists p, bio_get_string16 64 m bio = Ret (Some p, Z.of_nat (length s), bio') /\
      load_units m p (Z.of_nat (length s) + 1) = Ret (s ++ [0])
  | VRef h => bio_get_ref 64 m bio = Ret (h, bio')
  end.

(** A reader of the area, at the place [bio] is at. *)
Definition reader_at (D N : Z) (bio r : binder_io) : Prop :=
  io_data r = io_data bio /\ io_data0 r = D + 8 * N /\ io_offs r = D /\ io_offs_avail r <= N.

(** The value put from [bio] to [bio'] can be read by any reader of a memory
    that still holds it. *)
Definition readable (D M N : Z) (bio : binder_io) (m' : user_memory) (bio' : binder_io)
    (v : value) : Prop :=
  forall mf r, bytes_ok mf -> mapped mf D M -> reader_at D N bio r ->
    io_data bio' - io_data bio <= io_data_avail r < 2 ^ 64 ->
    io_offs bio' - D <= 8 * io_offs_avail r ->
    same_bytes m' mf (D + 8 * N) (io_data bio' - (D + 8 * N)) ->
    same_bytes m' mf D (io_offs bio' - D) ->
    gets mf r v (advance (io_data bio' - io_data bio) r).

Definition value_size (v : value) : Z :=
  match v with
  | VUint32 _ => 4
  | VString16 s => 4 + round4 64 ((Z.of_nat (length s) + 1) * 2)
  | VRef _ => round4 64 sizeof_flat_binder_object
  end.

Definition value_slots (v : value) : Z := match v with VRef _ => 1 | _ => 0 end.

(** With room for the value, it is put and nothing overflows. *)
Definition fits (bio bio' : binder_io) (v : value) : Prop :=
  value_size v <= io_data_avail bio -> value_slots v <= io_offs_avail bio ->
  io_flags bio' = io_flags bio /\ io_data bio' = io_data bio + value_size v /\
  io_offs bio' = io_offs bio + 8 * value_slots v.

Definition put_ok (D M N : Z) (m : user_memory) (bio : binder_io) (v : value) : Prop :=
  exists m' bio', put_value m bio v = Ret (m', bio') /\ writer_ok m' D M N bio' /\
    wrote D M N m bio m' bio' /\ fits bio bio' v /\
    (io_has bio' BIO_F_OVERFLOW = false -> readable D M N bio m' bio' v).

Lemma load_word_sub D M m mf a n k :
  same_bytes m mf D M -> D <= a -> a + n <= D + M -> n = k -> load_word mf a k = load_word m a k.
Proof. intros H Ha Hn <-. apply load_word_same. intros x Hx. apply H. lia. Qed.

Lemma load_word_le_encode m a n x : 0 <= x < 256 ^ Z.of_nat n ->
  load_word (write_bytes m a (le_encode n x)) a (Z.of_nat n) = Ret x.
Proof.
  intros Hx. unfold load_word. rewrite <- (length_le_encode n x) at 2. rewrite load_written.
  cbn [res_bind]. by rewrite le_decode_encode.
Qed.

Lemma put_uint32_ok D M N m bio n :
  writer_ok m D M N bio -> 0 <= n < 2 ^ 32 -> put_ok D M N m bio (VUint32 n).
Proof.
  intros Hok Hn. unfold put_ok. simpl. unfold bio_put_uint32.
  destruct (bio_alloc 64 bio 4) as [ptr b1] eqn:E.
  destruct (bio_alloc_spec m D M N bio 4 ptr b1 Hok E) as (Hok1 & Hw & Eo & _ & H).
  destruct ptr as [p|].
  2:{ exists m, b1. do 3 (split; [done|]). destruct H as [? Hsm]. split; [|congruence].
      unfold fits. simpl. change (round4 64 4) with 4 in Hsm. lia. }
  destruct H as (-> & Ed & Hle & Ef). change (round4 64 4) with 4 in *.
  pose proof (length_le_encode 4 n) as Hlen.
  destruct (store_spec D M N m m bio b1 (io_data bio) (le_encode 4 n) Hok1 Hw (le_encode_bytes 4 n))
    as (-> & Hok2 & Hw2).
  { left. destruct Hok as [_ _ ? ? _ ? _]. rewrite Hlen. lia. }
  cbn [res_bind]. eexists _, b1. split; [reflexivity|]. do 2 (split; [done|]).
  split; [unfold fits; simpl; lia|].
  intros _ mf r Hb Hm (R1 & R2 & R3 & R4) Hav _ Hs _. simpl. unfold bio_get_uint32, bio_get.
  change (round4 64 4) with 4. rewrite (proj2 (Z.ltb_ge _ _)) by lia.
  rewrite R1. destruct Hok as [_ _ _ _ _ (? & _) _].
  rewrite (load_word_sub _ _ _ mf (io_data bio) 4 4 Hs) by lia.
  pose proof (load_word_le_encode m (io_data bio) 4 n Hn) as Hw4. change (Z.of_nat 4) with 4 in Hw4.
  rewrite Hw4. cbn [res_bind]. do 2 f_equal. f_equal. lia.
Qed.

Lemma str16_len_app s : Forall (fun u => 0 < u < 2 ^ 16) s -> str16_len (s ++ [0]) = Z.of_nat (length s).
Proof.
  induction 1 as [|u s Hu _ IH]; [done|]. cbn [app str16_len length].
  rewrite (proj2 (Z.eqb_neq u 0)), IH by lia. lia.
Qed.

Lemma units_bytes_spec l : Forall (fun u => 0 <= u < 2 ^ 16) l ->
  length (units_bytes l) = (2 * length l)%nat /\ Forall byte_ok (units_bytes l) /\
  units_of (length l) (units_bytes l) = l.
Proof.
  induction 1 as [|u l Hu _ (IH1 & IH2 & IH3)]; [done|]. unfold units_bytes in *.
  cbn [mbind list_bind]. rewrite length_app, IH1, length_le_encode. split; [simpl; lia|].
  split; [apply Forall_app; split; [apply le_encode_bytes|done]|].
  cbn [length units_of]. rewrite take_app_length', drop_app_length' by by rewrite length_le_encode.
  rewrite le_decode_encode by (change (256 ^ Z.of_nat 2) with (2 ^ 16); lia). by rewrite IH3.
Qed.

(** What is written later leaves the earlier part of the data. *)
Lemma same_bytes_earlier D M N m1 b1 m2 b2 mf n :
  wrote D M N m1 b1 m2 b2 -> same_bytes m2 mf (D + 8 * N) n ->
  io_data b1 - (D + 8 * N) <= n -> same_bytes m1 mf (D + 8 * N) (io_data b1 - (D + 8 * N)).
Proof. intros (_ & _ & W & _) Hs Hn x Hx. rewrite Hs, W by lia. done. Qed.

Lemma same_slots_earlier D M N m1 b1 m2 b2 mf n :
  D + 8 * N <= io_data b1 -> io_offs b1 <= D + 8 * N ->
  wrote D M N m1 b1 m2 b2 -> same_bytes m2 mf D n ->
  io_offs b1 - D <= n -> same_bytes m1 mf D (io_offs b1 - D).
Proof. intros Hd Ho (_ & _ & W & _) Hs Hn x Hx. rewrite Hs, W by lia. done. Qed.

Lemma put_string16_ok D M N m bio s :
  writer_ok m D M N bio -> value_ok (VString16 s) -> put_ok D M N m bio (VString16 s).
Proof.
  intros Hok [Hs Hlen]. unfold put_ok. simpl. unfold bio_put_string16. rewrite (str16_len_app s Hs).
  set (len := Z.of_nat (length s)) in *. change (MAX_BIO_SIZE / 2) with (2 ^ 29) in *.
  rewrite (proj2 (Z.leb_gt (2 ^ 29) len)), u32_small by lia.
  destruct (put_uint32_ok D M N m bio len Hok ltac:(lia)) as (m1 & b1 & E1 & Hok1 & Hw1 & Hf1 & Hr1).
  simpl in E1. rewrite E1. cbn [res_bind]. unfold usize. rewrite Z.mod_small by lia.
  destruct (bio_alloc 64 b1 ((len + 1) * 2)) as [ptr b2] eqn:E.
  destruct (bio_alloc_spec m1 D M N b1 _ ptr b2 Hok1 E) as (Hok2 & Hw2 & Eo & _ & H).
  destruct ptr as [p|].
  2:{ exists m1, b2. split; [done|]. split; [done|]. split; [by eapply wrote_trans|].
      destruct H as [? Hsm]. split; [|congruence].
      destruct Hok as [_ _ _ _ _ (? & ? & _) (? & ? & _)], Hok1 as [_ _ _ _ _ (? & ? & _) (? & ? & _)].
      unfold fits in *. cbn [value_size value_slots] in *. fold len.
      pose proof (round4_range ((len + 1) * 2)). intros. destruct Hf1; lia. }
  destruct H as (-> & Ed & Hle & Ef). destruct (round4_bounds ((len + 1) * 2)) as [Hb _]; [lia|].
  assert (take (Z.to_nat len) (s ++ [0]) ++ [0] = s ++ [0]) as ->.
  { unfold len. by rewrite Nat2Z.id, take_app_length. }
  destruct (units_bytes_spec (s ++ [0])) as (U1 & U2 & U3).
  { apply Forall_app. split; [|by repeat constructor]. eapply Forall_impl; [exact Hs|]. simpl. lia. }
  assert (Z.of_nat (length (units_bytes (s ++ [0]))) = 2 * (len + 1)) as Hul.
  { rewrite U1, length_app. unfold len. simpl. lia. }
  assert (Hok1' := Hok1). destruct Hok1' as [_ _ HD HN _ (Hd & _) (_ & Hso & Hsa)].
  destruct (store_spec D M N m1 m1 b1 b2 (io_data b1) (units_bytes (s ++ [0])) Hok2 Hw2 U2)
    as (-> & Hok3 & Hw3); [left; lia|].
  cbn [res_bind]. set (m3 := write_bytes m1 (io_data b1) (units_bytes (s ++ [0]))) in *.
  exists m3, b2. split; [done|]. split; [done|]. split; [by eapply wrote_trans|].
  split.
  { pose proof (round4_range ((len + 1) * 2)).
    destruct Hok as [_ _ _ _ _ (? & ? & _) (? & ? & _)]. unfold fits in *.
    cbn [value_size value_slots] in *. fold len. intros. destruct Hf1; [lia|lia|].
    split; [congruence|lia]. }
  intros Hf mf r Hb' Hm Hat Hav Hoav Hsame Hslots.
  assert (io_has b1 BIO_F_OVERFLOW = false) as Hov by by apply Hw2.
  assert (Hw1' := Hw1). destruct Hw1' as (Hd1 & Ho1 & _).
  specialize (Hr1 Hov mf r Hb' Hm Hat ltac:(lia) ltac:(lia)). cbn [gets] in *.
  unfold bio_get_string16. rewrite Hr1.
  2:{ eapply same_bytes_earlier; [exact Hw3|exact Hsame|lia]. }
  2:{ eapply same_slots_earlier; [exact Hd|lia|exact Hw3|exact Hslots|lia]. }
  cbn [res_bind]. destruct Hat as (R1 & R2 & R3 & R4). exists (io_data b1). unfold bio_get, usize.
  rewrite Z.mod_small by lia. cbn [advance io_data io_data_avail].
  rewrite (proj2 (Z.ltb_ge _ _)) by lia. split.
  { unfold advance. simpl. rewrite R1.
    replace (io_data bio + (io_data b1 - io_data bio)) with (io_data b1) by lia.
    replace (io_data bio + (io_data b2 - io_data bio)) with (io_data b1 + round4 64 ((len + 1) * 2)) by lia.
    replace (io_data_avail r - (io_data b2 - io_data bio)) with
      (io_data_avail r - (io_data b1 - io_data bio) - round4 64 ((len + 1) * 2)) by lia. done. }
  unfold load_units. rewrite (load_same m3).
  2:{ intros x Hx. apply Hsame. lia. }
  fold len. unfold m3. rewrite <- Hul, load_written. cbn [res_bind]. f_equal.
  replace (Z.to_nat (len + 1)) with (length (s ++ [0])) by (rewrite length_app; unfold len; simpl; lia).
  done.
Qed.

(** An object takes a slot: its place goes into the offsets. *)
Lemma bio_alloc_obj_spec D M N m bio :
  writer_ok m D M N bio ->
  exists ptr m1 b1, bio_alloc_obj 64 m bio = Ret (ptr, m1, b1) /\ writer_ok m1 D M N b1 /\
    wrote D M N m bio m1 b1 /\
    match ptr with
    | Some p => p = io_data bio /\ io_data b1 = p + round4 64 sizeof_flat_binder_object /\
        io_data b1 <= D + M /\ io_offs b1 = io_offs bio + 8 /\
        load_word m1 (io_offs bio) 8 = Ret (p - (D + 8 * N)) /\ io_flags b1 = io_flags bio
    | None => io_has b1 BIO_F_OVERFLOW = true /\
        (io_data_avail bio < round4 64 sizeof_flat_binder_object \/ io_offs_avail bio = 0)
    end.
Proof.
  intros Hok. unfold bio_alloc_obj.
  destruct (bio_alloc 64 bio sizeof_flat_binder_object) as [ptr b1] eqn:E.
  destruct (bio_alloc_spec m D M N bio _ ptr b1 Hok E) as (Hok1 & Hw & Eo & Ea & H).
  destruct Hok as [_ _ [HD HM] [HN HNM] _ (Hd & Hda & _) (Ho & Hoa & Han)].
  destruct ptr as [p|].
  2:{ exists None, m, (overflow b1). split; [done|]. split; [by apply writer_ok_overflow|].
      split; [by apply wrote_overflow|]. split; [apply overflow_has|]. left. apply H. }
  destruct H as (-> & Ed & Hle & Ef). destruct (Z.eqb_spec (io_offs_avail b1) 0) as [Ez|Ez]; cbn [negb].
  { exists None, m, (overflow b1). split; [done|]. split; [by apply writer_ok_overflow|].
    split; [by apply wrote_overflow|]. split; [apply overflow_has|]. right. congruence. }
  assert (Hok1' := Hok1). destruct Hok1' as [_ _ _ _ [H0 _] _ (_ & Hoa1 & Han1)]. rewrite H0, Eo.
  set (w := io_data bio - (D + 8 * N)).
  destruct (store_spec D M N m m bio b1 (io_offs bio) (le_encode 8 w) Hok1 Hw (le_encode_bytes 8 w))
    as (-> & Hok2 & Hw2); [right; rewrite length_le_encode; lia|].
  cbn [res_bind]. eexists (Some (io_data bio)), _, _. split; [reflexivity|]. unfold sizeof_binder_size.
  split; [destruct Hok2 as [? ? ? ? ? ? (? & ? & ?)]; split; simpl; try done; lia|].
  destruct Hw2 as (W1 & W2 & W3 & W4).
  split; [split; simpl; [done|]; split; [lia|]; split; [exact W3|exact W4]|]. simpl.
  do 4 (split; [lia|]). split; [|done]. apply (load_word_le_encode m (io_offs bio) 8 w). simpl. lia.
Qed.

Lemma obj_flags_range : 0 <= obj_flags < 2 ^ 32.
Proof.
  pose proof accepts_fds_range as Hf. unfold obj_flags.
  assert (0 <= Z.lor 0x7f FLAT_BINDER_FLAG_ACCEPTS_FDS) as Hn by (apply Z.lor_nonneg; lia).
  split; [done|]. apply (Z.log2_lt_cancel _ (2 ^ 32)). rewrite Z.log2_lor, Z.log2_pow2 by lia.
  apply Z.max_lub_lt; [reflexivity|].
  destruct (Z.eq_dec FLAT_BINDER_FLAG_ACCEPTS_FDS 0) as [->|]; [reflexivity|].
  apply Z.log2_lt_pow2; lia.
Qed.

Lemma put_ref_ok D M N m bio h :
  writer_ok m D M N bio -> 0 < h < 2 ^ 32 -> put_ok D M N m bio (VRef h).
Proof.
  intros Hok Hh. unfold put_ok. simpl. unfold bio_put_ref.
  rewrite (proj2 (Z.eqb_neq h 0)) by lia. cbn [negb].
  destruct (bio_alloc_obj_spec D M N m bio Hok) as (ptr & m1 & b1 & -> & Hok1 & Hw & H). cbn [res_bind].
  destruct ptr as [p|].
  2:{ exists m1, b1. do 3 (split; [done|]). destruct H as [? Hsm]. split; [|congruence].
      unfold fits. simpl. lia. }
  destruct H as (-> & Ed & Hle & Eo & Hslot & Ef).
  pose proof sizeof_flat_pos as Hsz. pose proof sizeof_flat_small as Hsm.
  destruct (round4_bounds sizeof_flat_binder_object) as [Hrd _]; [lia|].
  destruct Hok as [_ _ [HD HM] [HN HNM] _ (Hd & _) (Ho & _)].
  unfold store_obj. assert (Hok1' := Hok1). destruct Hok1' as [Hb1 Hm1 _ _ _ (Hd1 & Hda1 & Hav1) (_ & Hoa1 & Han1)].
  destruct (load_mapped m1 (io_data bio) sizeof_flat_binder_object) as (l & El & Hl).
  { apply (mapped_sub _ _ _ _ _ Hm1); lia. }
  rewrite El. cbn [res_bind].
  assert (Forall byte_ok l) as Hlb.
  { unfold load in El. destruct (copy_from_user m1 _ _) eqn:Ec; [|done]. injection El as ->.
    by eapply copy_from_user_bytes. }
  pose proof (fo_decode_range l Hlb) as Hbr.
  set (o := set_fo_handle h (FlatBinderObject BINDER_TYPE_HANDLE obj_flags (fo_binder (fo_decode l)) 0)).
  pose proof (length_fo_encode o) as Hlo.
  destruct (store_spec D M N m m1 bio b1 (io_data bio) (fo_encode o) Hok1 Hw (fo_encode_bytes o))
    as (-> & Hok2 & Hw2); [left; lia|].
  cbn [res_bind]. eexists _, b1. split; [reflexivity|]. do 2 (split; [done|]).
  split; [unfold fits; simpl; lia|].
  intros _ mf r Hb Hm (R1 & R2 & R3 & R4) Hav Hoav Hs Hso. simpl. unfold bio_get_ref, bio_get_obj.
  rewrite R1, R2, R3. unfold usize at 1. rewrite Z.mod_small by lia.
  destruct (find_offset_spec mf (io_data bio - (D + 8 * N)) (Z.to_nat (io_offs_avail r)) D Hb)
    as (b & -> & Hfound); [apply (mapped_sub _ _ _ _ _ Hm); lia|].
  assert (b = true) as ->.
  { apply Hfound. exists (Z.to_nat (N - io_offs_avail b1 - 1)).
    split; [lia|]. rewrite Z2Nat.id by lia. replace (D + 8 * _) with (io_offs bio) by lia.
    rewrite <- Hslot. apply load_word_same. intros x Hx. rewrite Hso by lia.
    rewrite write_bytes_lookup, decide_False by lia. done. }
  cbn [res_bind]. unfold bio_get. rewrite R1, (proj2 (Z.ltb_ge _ _)) by lia. cbn [res_bind].
  rewrite (load_same (write_bytes m1 (io_data bio) (fo_encode o))).
  2:{ intros x Hx. apply Hs. lia. }
  rewrite <- Hlo, load_written. cbn [res_bind]. rewrite Hlo.
  pose proof types_range as Ht. rewrite Forall_forall in Ht.
  pose proof (set_fo_handle_range h (fo_binder (fo_decode l)) BINDER_TYPE_HANDLE obj_flags 0 ltac:(lia) Hbr) as Hhr.
  assert (fo_decode (fo_encode o) = o) as ->.
  { apply fo_decode_encode; [apply Ht; set_solver|apply obj_flags_range|exact Hhr|simpl; lia]. }
  assert (fo_type o = BINDER_TYPE_HANDLE) as -> by done. rewrite Z.eqb_refl.
  assert (fo_handle o = h) as -> by (apply fo_handle_set; lia).
  do 3 f_equal; lia.
Qed.

Lemma put_value_ok D M N m bio v : writer_ok m D M N bio -> value_ok v -> put_ok D M N m bio v.
Proof.
  destruct v; intros Hok Hv; [by apply put_uint32_ok|by apply put_string16_ok|by apply put_ref_ok].
Qed.

(** ** Whole messages *)

Fixpoint put_values (m : user_memory) (bio : binder_io) (vs : list value)
    : res (user_memory * binder_io) :=
  match vs with
  | [] => Ret (m, bio)
  | v :: vs' => let! '(m, bio) := put_value m bio v in put_values m bio vs'
  end.

(** Reading one after the other gives these values. *)
Fixpoint reads_back (m : user_memory) (r : binder_io) (vs : list value) (r' : binder_io) : Prop :=
  match vs with
  | [] => r' = r
  | v :: vs' => exists r1, gets m r v r1 /\ reads_back m r1 vs' r'
  end.

Definition total (f : value -> Z) (vs : list value) : Z := foldr (fun v n => f v + n) 0 vs.

Lemma value_size_nonneg v : 0 <= value_size v /\ 0 <= value_slots v.
Proof.
  destruct v; simpl; [lia| |].
  - pose proof (round4_range ((Z.of_nat (length s) + 1) * 2)). lia.
  - pose proof (round4_range sizeof_flat_binder_object). lia.
Qed.

Lemma total_nonneg vs : 0 <= total value_size vs /\ 0 <= total value_slots vs.
Proof.
  unfold total. induction vs as [|v vs IH]; cbn [foldr]; [lia|]. pose proof (value_size_nonneg v). lia.
Qed.

Lemma advance_add a b r : advance b (advance a r) = advance (a + b) r.
Proof. unfold advance. simpl. f_equal; lia. Qed.

Lemma advance_zero r : advance 0 r = r.
Proof. unfold advance. destruct r. simpl. f_equal; lia. Qed.

Lemma put_values_spec D M N vs : forall m bio,
  writer_ok m D M N bio -> Forall value_ok vs ->
  exists m' bio', put_values m bio vs = Ret (m', bio') /\ writer_ok m' D M N bio' /\
    wrote D M N m bio m' bio' /\
    (total value_size vs <= io_data_avail bio -> total value_slots vs <= io_offs_avail bio ->
     io_flags bio' = io_flags bio) /\
    (io_has bio' BIO_F_OVERFLOW = false -> forall mf r, bytes_ok mf -> mapped mf D M ->
      reader_at D N bio r -> io_data bio' - io_data bio <= io_data_avail r < 2 ^ 64 ->
      io_offs bio' - D <= 8 * io_offs_avail r ->
      same_bytes m' mf (D + 8 * N) (io_data bio' - (D + 8 * N)) ->
      same_bytes m' mf D (io_offs bio' - D) ->
      reads_back mf r vs (advance (io_data bio' - io_data bio) r)).
Proof.
  induction vs as [|v vs IH]; intros m bio Hok Hvs; simpl.
  { exists m, bio. do 2 (split; [done|]). split; [apply wrote_refl|]. split; [done|].
    intros. by rewrite Z.sub_diag, advance_zero. }
  apply Forall_cons in Hvs as [Hv Hvs].
  destruct (put_value_ok D M N m bio v Hok Hv) as (m1 & b1 & -> & Hok1 & Hw1 & Hf1 & Hr1).
  cbn [res_bind]. destruct (IH m1 b1 Hok1 Hvs) as (m2 & b2 & -> & Hok2 & Hw2 & Hf2 & Hr2).
  exists m2, b2. split; [done|]. split; [done|]. split; [by eapply wrote_trans|].
  assert (Hok' := Hok). destruct Hok' as [_ _ _ _ _ (? & ? & _) (? & ? & _)].
  assert (Hok1' := Hok1). destruct Hok1' as [_ _ _ _ _ (? & ? & _) (? & ? & ?)]. split.
  { unfold fits in Hf1. pose proof (value_size_nonneg v).
    pose proof (total_nonneg vs) as Hn. unfold total in *. cbn [foldr]. intros Hs Ho.
    destruct Hf1 as (<- & ? & ?); [lia|lia|]. apply Hf2; lia. }
  intros Hov mf r Hb Hm (R1 & R2 & R3 & R4) Hav Hoav Hs Hso.
  assert (Hw2' := Hw2). destruct Hw2' as (Hd2 & Ho2 & _ & Hov2). assert (Hw1' := Hw1).
  destruct Hw1' as (Hd1 & Ho1 & _).
  exists (advance (io_data b1 - io_data bio) r). split.
  - apply Hr1; try done; [by apply Hov2|lia|lia| |].
    + eapply same_bytes_earlier; [exact Hw2|exact Hs|lia].
    + eapply same_slots_earlier; [| |exact Hw2|exact Hso|]; lia.
  - replace (advance (io_data b2 - io_data bio) r) with
      (advance (io_data b2 - io_data b1) (advance (io_data b1 - io_data bio) r))
      by (rewrite advance_add; f_equal; lia).
    apply Hr2; try done; [unfold reader_at|]; simpl; rewrite ?R1, ?R2, ?R3; lia.
Qed.

(** ** Arbitrary messages *)

Inductive read_op : Type := GetUint32 | GetString16 | GetObj | GetRef.

(** One read, with the bytes the caller is pointed to. *)
Definition do_read (m : user_memory) (bio : binder_io) (op : read_op)
    : res (option (Z * Z) * binder_io) :=
  match op with
  | GetUint32 => let! '(_, b) := bio_get_uint32 64 m bio in Ret (None, b)
  | GetString16 =>
      let! '(p, len, b) := bio_get_string16 64 m bio in
      Ret ((fun p => (p, 2 * (len + 1))) <$> p, b)
  | GetObj =>
      let! '(p, b) := bio_get_obj 64 m bio in
      Ret ((fun p => (p, sizeof_flat_binder_object)) <$> p, b)
  | GetRef => let! '(_, b) := bio_get_ref 64 m bio in Ret (None, b)
  end.

Fixpoint do_reads (m : user_memory) (bio : binder_io) (ops : list read_op)
    : res (list (Z * Z) * binder_io) :=
  match ops with
  | [] => Ret ([], bio)
  | op :: ops' =>
      let! '(g, bio) := do_read m bio op in
      let! '(gs, bio) := do_reads m bio ops' in
      Ret (option_list g ++ gs, bio)
  end.

(** The [n] bytes at [p] are in the message from [a] to [b], and mapped. *)
Definition inside (m : user_memory) (a b : Z) (g : Z * Z) : Prop :=
  a <= g.1 /\ g.1 + g.2 <= b /\ mapped m g.1 g.2.

Lemma Forall_inside m a b a' b' gs :
  Forall (inside m a b) gs -> a' <= a -> b <= b' -> Forall (inside m a' b') gs.
Proof.
  intros H Ha Hb. eapply Forall_impl; [exact H|]. intros g (? & ? & ?). unfold inside.
  split; [lia|]. split; [lia|done].
Qed.

Lemma do_read_spec m bio op : reader_ok m bio ->
  exists g bio', do_read m bio op = Ret (g, bio') /\ reader_ok m bio' /\ reads_on bio bio' /\
    Forall (inside m (io_data bio) (io_data bio')) (option_list g).
Proof.
  intros Hok. destruct op; simpl.
  - destruct (bio_get_uint32_spec m bio Hok) as (n & b & -> & ? & ? & _). cbn [res_bind].
    exists None, b. do 3 (split; [done|]). constructor.
  - destruct (bio_get_string16_spec m bio Hok) as (p & n & b & -> & ? & ? & _ & Hp). cbn [res_bind].
    eexists _, b. split; [done|]. do 2 (split; [done|]). destruct p as [p|]; simpl; [|constructor].
    apply Forall_singleton, (Hp p eq_refl).
  - destruct (bio_get_obj_spec m bio Hok) as (p & b & -> & ? & ? & Hp). cbn [res_bind].
    eexists _, b. split; [done|]. do 2 (split; [done|]). destruct p as [p|]; simpl; [|constructor].
    apply Forall_singleton, (Hp p eq_refl).
  - destruct (bio_get_ref_spec m bio Hok) as (n & b & -> & ? & ? & _). cbn [res_bind].
    exists None, b. do 3 (split; [done|]). constructor.
Qed.

Lemma do_reads_spec m ops : forall bio, reader_ok m bio ->
  exists gs bio', do_reads m bio ops = Ret (gs, bio') /\ reader_ok m bio' /\ reads_on bio bio' /\
    Forall (inside m (io_data bio) (io_data bio + io_data_avail bio)) gs.
Proof.
  induction ops as [|op ops IH]; intros bio Hok; simpl.
  { exists [], bio. do 2 (split; [done|]). split; [apply reads_on_refl|done]. }
  destruct (do_read_spec m bio op Hok) as (g & b1 & -> & Hok1 & Hon1 & Hg). cbn [res_bind].
  destruct (IH b1 Hok1) as (gs & b2 & -> & Hok2 & Hon2 & Hgs). cbn [res_bind].
  exists (option_list g ++ gs), b2. do 2 (split; [done|]). split; [by eapply reads_on_trans|].
  destruct Hon1 as (? & ? & _). pose proof (rd_avail _ _ Hok1).
  apply Forall_app. split; [eapply (Forall_inside m (io_data bio) (io_data b1))|
    eapply (Forall_inside m (io_data b1) (io_data b1 + io_data_avail b1))]; try done; lia.
Qed.

Lemma bio_init_from_txn_reader m t :
  bytes_ok m -> 0 <= td_buffer t < 2 ^ 64 -> 0 <= td_offsets t < 2 ^ 64 ->
  0 <= td_data_size t < 2 ^ 64 -> 0 <= td_offsets_size t < 2 ^ 64 ->
  mapped m (td_buffer t) (td_data_size t) -> mapped m (td_offsets t) (td_offsets_size t) ->
  reader_ok m (bio_init_from_txn 64 t) /\
  io_data (bio_init_from_txn 64 t) = td_buffer t /\
  io_data_avail (bio_init_from_txn 64 t) = td_data_size t.
Proof.
  intros Hb H1 H2 H3 H4 M1 M2. unfold bio_init_from_txn, usize, sizeof_size_t. change (64 / 8) with 8.
  rewrite !(Z.mod_small _ (2 ^ 64)) by (try done; Z.to_euclidean_division_equations; lia).
  split; [|done]. split; simpl; try done; [Z.to_euclidean_division_equations; lia|].
  apply (mapped_sub _ _ _ _ _ M2); Z.to_euclidean_division_equations; lia.
Qed.

(** What is put into an area can be read by the receiver of any transaction that
    is about what was put. *)
Definition about (w : binder_io) (t : transaction_data) : Prop :=
  td_buffer t = io_data0 w /\ td_offsets t = io_offs0 w /\
  td_data_size t = u64 (io_data w - io_data0 w) /\ td_offsets_size t = u64 (io_offs w - io_offs0 w).

Lemma message_spec m bio D M N vs :
  bytes_ok m -> mapped m D M -> 0 <= D -> D + M < 2 ^ 64 -> 0 <= N -> 8 * N <= M ->
  Forall value_ok vs ->
  exists m' w, put_values m (bio_init 64 bio D M N) vs = Ret (m', w) /\ writer_ok m' D M N w /\
    wrote D M N m (bio_init 64 bio D M N) m' w /\
    (io_has w BIO_F_OVERFLOW = false -> forall t, about w t ->
     exists r, reads_back m' (bio_init_from_txn 64 t) vs r /\ io_data_avail r = 0) /\
    (total value_size vs <= M - 8 * N -> total value_slots vs <= N ->
     io_has w BIO_F_OVERFLOW = false) /\
    (forall x, ~ (D <= x < D + M) -> m' !! x = m !! x).
Proof.
  intros Hb Hm HD HM HN HNM Hvs. destruct (bio_init_writer m bio D M N Hb Hm HD HM HN HNM) as [Hok Hf].
  destruct (put_values_spec D M N vs m _ Hok Hvs) as (m' & w & -> & Hok' & Hw & Hfit & Hr).
  exists m', w. do 3 (split; [done|]).
  assert (Ho0 : D <= io_offs (bio_init 64 bio D M N)) by apply Hok.
  destruct Hok as [_ _ _ _ _ (Hd & Hda & _) (_ & Hoa & _)].
  destruct Hok' as [Hb' Hm' _ _ [E1 E2] (Hd' & Hda' & Hav) (Ho' & Hoa' & Han')]. split; [|split].
  - intros Hov t (T1 & T2 & T3 & T4). set (r := bio_init_from_txn 64 t).
    assert (r = BinderIo (D + 8 * N) D (io_data w - (D + 8 * N)) (N - io_offs_avail w)
                  (D + 8 * N) D BIO_F_SHARED) as Er.
    { unfold r, bio_init_from_txn, usize, sizeof_size_t. rewrite T1, T2, T3, T4. unfold u64.
      change (64 / 8) with 8. rewrite E1, E2.
      rewrite !(Z.mod_small _ (2 ^ 64)) by (try rewrite Z.mod_small; lia).
      f_equal; Z.to_euclidean_division_equations; lia. }
    assert (io_data (bio_init 64 bio D M N) = D + 8 * N /\ io_offs (bio_init 64 bio D M N) = D) as [Ei Ej].
    { unfold bio_init, usize, sizeof_size_t. change (64 / 8) with 8. rewrite Z.mod_small by lia.
      rewrite (proj2 (Z.ltb_ge M (N * 8))) by lia. simpl. lia. }
    eexists. split; [apply (Hr Hov m' r Hb' Hm'); rewrite ?Er; unfold reader_at; simpl; try done; lia|].
    rewrite Er. simpl. lia.
  - intros Hs Ho. unfold io_has in *. rewrite Hfit; [exact Hf| |];
      unfold bio_init, usize, sizeof_size_t; change (64 / 8) with 8; rewrite Z.mod_small by lia;
      rewrite (proj2 (Z.ltb_ge M (N * 8))) by lia; simpl; rewrite ?Z.mod_small; lia.
  - intros x Hx. destruct Hw as (_ & _ & W & _). apply W; lia.
Qed.

(** C6: what is written with [bio_put_uint32], [bio_put_string16] and
    [bio_put_ref] into the area given to [bio_init] is read back by the [bio_get]
    functions from the transaction made of it, value by value and to its last
    byte, unless the writer says [BIO_F_OVERFLOW]; it does not when the values
    fit; and no byte outside the area is written, overflow or not. *)
Theorem bio_round_trip K m bio D M N vs :
  bytes_ok m -> mapped m D M -> 0 <= D -> D + M < 2 ^ 64 -> 0 <= N -> 8 * N <= M ->
  Forall value_ok vs ->
  exists m' w, put_values m (bio_init 64 bio D M N) vs = Ret (m', w) /\
    (io_has w BIO_F_OVERFLOW = false ->
     exists r, reads_back m' (bio_init_from_txn 64 (reply_txn K w 0)) vs r /\ io_data_avail r = 0) /\
    (total value_size vs <= M - 8 * N -> total value_slots vs <= N ->
     io_has w BIO_F_OVERFLOW = false) /\
    (forall x, ~ (D <= x < D + M) -> m' !! x = m !! x).
Proof.
  intros Hb Hm HD HM HN HNM Hvs.
  destruct (message_spec m bio D M N vs Hb Hm HD HM HN HNM Hvs) as (m' & w & E & _ & _ & Hr & Hrest).
  exists m', w. split; [done|]. split; [|done]. intros Hov. by apply Hr.
Qed.

(** C25: whatever a message and its array of offsets hold, reading it with any
    sequence of [bio_get_uint32], [bio_get_string16], [bio_get_obj] and
    [bio_get_ref] does not fault; each string, with the zero after it, and each
    object a caller is pointed to lies in the message; and what is left is again
    the rest of the message. *)
Theorem bio_reads_inside m t ops :
  bytes_ok m -> 0 <= td_buffer t < 2 ^ 64 -> 0 <= td_offsets t < 2 ^ 64 ->
  0 <= td_data_size t < 2 ^ 64 -> 0 <= td_offsets_size t < 2 ^ 64 ->
  mapped m (td_buffer t) (td_data_size t) -> mapped m (td_offsets t) (td_offsets_size t) ->
  exists gs r, do_reads m (bio_init_from_txn 64 t) ops = Ret (gs, r) /\
    Forall (inside m (td_buffer t) (td_buffer t + td_data_size t)) gs /\
    td_buffer t <= io_data r /\ 0 <= io_data_avail r /\
    io_data r + io_data_avail r <= td_buffer t + td_data_size t.
Proof.
  intros Hb H1 H2 H3 H4 M1 M2. destruct (bio_init_from_txn_reader m t Hb H1 H2 H3 H4 M1 M2) as (Hok & Ed & Ea).
  destruct (do_reads_spec m ops _ Hok) as (gs & r & -> & Hok' & (O1 & O2 & _) & Hg).
  exists gs, r. rewrite Ed, Ea in *. pose proof (rd_avail _ _ Hok'). split; [done|]. split; [exact Hg|]. lia.
Qed.

End Readers.

(** ** Examples *)

Definition sample_memory (a : Z) (n : nat) : user_memory := write_bytes ∅ a (repeat 0 n).

Lemma sample_memory_ok a n : bytes_ok (sample_memory a n) /\ mapped (sample_memory a n) a (Z.of_nat n).
Proof.
  split.
  - apply write_bytes_ok; [by intros x b H|]. apply Forall_forall. intros x Hx.
    apply list_elem_of_In, repeat_spec in Hx as ->. done.
  - intros x Hx. unfold sample_memory. rewrite write_bytes_lookup, decide_True by (rewrite repeat_length; lia).
    apply lookup_lt_is_Some. rewrite repeat_length. lia.
Qed.

Definition sample_txn : transaction_data := TransactionData 0 0 0 0 0 0 0 0 0 0.
Definition sample_bio : binder_io := BinderIo 0 0 0 0 0 0 0.
Definition sample_stack : stack := Stack sample_txn 4096 8192 sample_bio sample_bio.

Lemma bio_round_trip_witness :
  let m := sample_memory 4096 256 in
  let vs := [VUint32 5; VString16 [104; 105]; VRef 7; VUint32 6] in
  exists m' w r, put_values m (bio_init 64 sample_bio 4096 256 4) vs = Ret (m', w) /\
    reads_back m' (bio_init_from_txn 64 (reply_txn sample_stack w 0)) vs r /\ io_data_avail r = 0 /\
    io_has w BIO_F_OVERFLOW = false /\ forall x, ~ (4096 <= x < 4096 + 256) -> m' !! x = m !! x.
Proof.
  intros m vs. destruct (sample_memory_ok 4096 256) as [Hb Hm].
  destruct (bio_round_trip sample_stack m sample_bio 4096 256 4 vs Hb Hm) as (m' & w & E & H1 & H2 & H3);
    try lia.
  { repeat constructor; simpl; lia. }
  assert (io_has w BIO_F_OVERFLOW = false) as Hf by (apply H2; vm_compute; discriminate).
  destruct (H1 Hf) as (r & Hr & Ha). exists m', w, r.
  exact (conj E (conj Hr (conj Ha (conj Hf H3)))).
Defined.

Lemma bio_reads_inside_witness :
  let m := sample_memory 4096 64 in
  let t := TransactionData 0 0 0 0 0 0 40 16 4096 4136 in
  exists gs r, do_reads m (bio_init_from_txn 64 t) [GetString16; GetObj; GetRef; GetUint32] = Ret (gs, r) /\
    Forall (inside m 4096 4136) gs.
Proof.
  intros m t. destruct (sample_memory_ok 4096 64) as [Hb Hm]. fold m in Hb, Hm. clearbody m.
  destruct (bio_reads_inside m t [GetString16; GetObj; GetRef; GetUint32] Hb) as (gs & r & E & Hg & _);
    try (simpl; lia); [apply (mapped_sub _ _ _ _ _ Hm); simpl; lia..|].
  exists gs, r. exact (conj E Hg).
Defined.

(** In a 32-bit process [bio_init] reserves [maxoffs * sizeof(size_t)] bytes, 4 a
    slot, while a slot takes 8: the third reference's slot lies on the first
    object. *)
Definition three_refs (W : Z) : res (user_memory * binder_io) :=
  let! '(m, bio) := bio_put_ref W (sample_memory 4096 256) (bio_init W sample_bio 4096 256 4) 7 in
  let! '(m, bio) := bio_put_ref W m bio 8 in
  bio_put_ref W m bio 9.

(** The first handle read back, the number of slots told, and the writer's flags. *)
Definition three_refs_read (W : Z) : res (Z * Z * Z) :=
  let! '(m, bio) := three_refs W in
  let! '(h, _) := bio_get_ref W m (bio_init_from_txn W (reply_txn sample_stack bio 0)) in
  Ret (h, td_offsets_size (reply_txn sample_stack bio 0), io_flags bio).

(** In a 32-bit process three references put into the 256 bytes and 4 slots
    of a reply do not come back, although nothing overflowed: the first one is
    read as 0.  In a 64-bit process it is read as it was put. *)
Theorem bio_init_slots_too_small :
  three_refs_read 64 = Ret (7, 24, 0) /\ three_refs_read 32 = Ret (0, 24, 0).
Proof. split; by vm_compute. Qed.

(** There the size of a string wraps as well: four bytes are left, and the reader
    is given a string of 2147483647 units in them. *)
Theorem bio_get_string16_overflow :
  let m := write_bytes (sample_memory 4096 8) 4096 (le_encode 4 0x7fffffff) in
  (let! '(p, len, b) := bio_get_string16 32 m (BinderIo 4096 0 8 0 4096 0 BIO_F_SHARED) in
   Ret (p, len, io_data_avail b, io_has b BIO_F_OVERFLOW)) = Ret (Some 4100, 2147483647, 4, false).
Proof. by vm_compute. Qed.
