(* ===== verification/ParseThms.v ===== *)
(** * ParseThms: the parser carries out the driver's returns

    A theorem about [binder_parse] of native/binder.c in a 64-bit process: on the
    bytes of a sequence of returns it does what the returns say, one after the
    other, and comes to an end. *)

From S2P Require Import Prelude Uapi Bio BioThms.

(** ** Bytes in memory *)

Definition holds (m : user_memory) (a : Z) (l : list Z) : Prop :=
  forall i b, l !! i = Some b -> m !! (a + Z.of_nat i) = Some b.

Lemma holds_app m a l1 l2 :
  holds m a (l1 ++ l2) <-> holds m a l1 /\ holds m (a + Z.of_nat (length l1)) l2.
Proof.
  split.
  - intros H. split; intros i b Hi; [apply H; by apply lookup_app_l_Some|].
    rewrite <- Z.add_assoc, <- Nat2Z.inj_add. apply H. by rewrite lookup_app_r, Nat.add_comm, Nat.add_sub by lia.
  - intros [H1 H2] i b Hi. apply lookup_app_Some in Hi as [Hi|[Hle Hi]]; [by apply H1|].
    specialize (H2 _ _ Hi). rewrite <- H2. f_equal. lia.
Qed.

Lemma holds_load m a l : holds m a l -> load m a (Z.of_nat (length l)) = Ret l.
Proof.
  intros H. unfold load. assert (copy_from_user m a (Z.of_nat (length l)) = Some l) as ->; [|done].
  unfold copy_from_user. apply mapM_Some. apply Forall2_same_length_lookup. rewrite length_seqZ.
  split; [lia|]. intros i x b Hx Hb. apply lookup_seqZ in Hx as [-> _]. by apply H.
Qed.

Lemma holds_same m m' a l n : holds m a l -> same_bytes m m' a n -> Z.of_nat (length l) <= n -> holds m' a l.
Proof.
  intros H Hs Hn i b Hi. pose proof (lookup_lt_Some _ _ _ Hi). rewrite Hs by lia. by apply H.
Qed.

(** ** The returns *)

Inductive return_ : Type :=
| RNothing (cmd : Z)
| RRef (cmd ptr cookie : Z)
| RTransaction (t : transaction_data)
| RReply (t : transaction_data)
| RDead (cookie : Z)
| RFailed (cmd : Z).

Section Parse.
Context `{U : BinderUapi}.

Definition return_ok (r : return_) : Prop :=
  match r with
  | RNothing cmd => cmd ∈ [BR_NOOP; BR_TRANSACTION_COMPLETE]
  | RRef cmd _ _ => cmd ∈ [BR_INCREFS; BR_ACQUIRE; BR_RELEASE; BR_DECREFS]
  | RTransaction t | RReply t => td_decode (td_encode t) = t
  | RDead cookie => 0 <= cookie < 2 ^ 64
  | RFailed cmd => cmd ∈ [BR_FAILED_REPLY; BR_DEAD_REPLY]
  end.

Definition return_code (r : return_) : Z :=
  match r with
  | RNothing cmd | RRef cmd _ _ | RFailed cmd => cmd
  | RTransaction _ => BR_TRANSACTION
  | RReply _ => BR_REPLY
  | RDead _ => BR_DEAD_BINDER
  end.

Definition return_data (r : return_) : list Z :=
  match r with
  | RRef _ ptr cookie => le_encode 8 ptr ++ le_encode 8 cookie
  | RTransaction t | RReply t => td_encode t
  | RDead cookie => le_encode 8 cookie
  | RNothing _ | RFailed _ => []
  end.

(** As the driver writes it. *)
Definition return_bytes (r : return_) : list Z := le_encode 4 (return_code r) ++ return_data r.

Lemma codes_at i j a b :
  let l := [BR_ERROR; BR_OK; BR_TRANSACTION; BR_REPLY; BR_ACQUIRE_RESULT; BR_DEAD_REPLY;
    BR_TRANSACTION_COMPLETE; BR_INCREFS; BR_ACQUIRE; BR_RELEASE; BR_DECREFS; BR_ATTEMPT_ACQUIRE;
    BR_NOOP; BR_SPAWN_LOOPER; BR_FINISHED; BR_DEAD_BINDER; BR_CLEAR_DEATH_NOTIFICATION_DONE;
    BR_FAILED_REPLY] in
  i <> j -> l !! i = Some a -> l !! j = Some b -> a <> b.
Proof. intros l Hne Hi Hj ->. apply Hne. by eapply (NoDup_lookup l); [exact returns_distinct| |]. Qed.

Ltac code_index c :=
  match c with
  | @BR_TRANSACTION _ => constr:(2%nat) | @BR_REPLY _ => constr:(3%nat)
  | @BR_DEAD_REPLY _ => constr:(5%nat) | @BR_TRANSACTION_COMPLETE _ => constr:(6%nat)
  | @BR_INCREFS _ => constr:(7%nat) | @BR_ACQUIRE _ => constr:(8%nat)
  | @BR_RELEASE _ => constr:(9%nat) | @BR_DECREFS _ => constr:(10%nat)
  | @BR_NOOP _ => constr:(12%nat) | @BR_DEAD_BINDER _ => constr:(15%nat)
  | @BR_FAILED_REPLY _ => constr:(17%nat)
  end.

(** Two codes differ. *)
Ltac codes_differ :=
  match goal with |- ?a <> ?b =>
    let i := code_index a in let j := code_index b in
    exact (codes_at i j a b ltac:(discriminate) eq_refl eq_refl)
  end.

(** A code is not among others. *)
Ltac not_among := repeat (apply not_elem_of_cons; split; [codes_differ|]); apply not_elem_of_nil.

Section Program.
Context {A : Type} (K : stack) (func : option (@handler A)) (death : @death_func A) (wants_reply : bool).

(** The answer so far, the reply, and the process. *)
Definition parse_state : Type := Z * option binder_io * process A.

(** What a return asks for. *)
Definition carry_out (x : parse_state) (r : return_) : res parse_state :=
  let '(k, bio, p) := x in
  match r with
  | RNothing _ | RRef _ _ _ => Ret (k, bio, p)
  | RTransaction t =>
      match func with
      | Some f => let! p := serve 64 K p f t in Ret (k, bio, p)
      | None => Ret (k, bio, p)
      end
  | RReply t =>
      Ret (0, if wants_reply && bool_decide (bio = None) then Some (bio_init_from_txn 64 t) else bio, p)
  | RDead cookie => let! p := death cookie p in Ret (k, bio, p)
  | RFailed _ => Ret (-1, bio, p)
  end.

Fixpoint carry_out_all (x : parse_state) (rs : list return_) : res parse_state :=
  match rs with
  | [] => Ret x
  | r :: rs' => let! x := carry_out x r in carry_out_all x rs'
  end.

Notation parse := (parse_command 64 K).

(** One command of the parser, on the code and what follows it. *)
Lemma parse_command_return p r k bio a end_ :
  return_ok r -> holds (u_mem p) (a + 4) (return_data r) ->
  0 <= a -> a + Z.of_nat (length (return_bytes r)) <= end_ < 2 ^ 64 ->
  parse p func death wants_reply (return_code r) (a + 4) end_ k bio =
    let! '(k, bio, p) := carry_out (k, bio, p) r in
    Ret (ParseNext (a + Z.of_nat (length (return_bytes r))) k bio p).
Proof.
  intros Hr Hm Ha He. unfold return_bytes in *. rewrite length_app, length_le_encode in *.
  pose proof ptr_cookie_two_words as Hpc. pose proof sizeof_td_pos.
  assert (forall n, 0 <= n -> a + 4 + n <= end_ -> usize 64 (a + 4 + n) = a + 4 + n) as Hu.
  { intros n Hn Hle. apply Z.mod_small. lia. }
  unfold parse_command. destruct r as [cmd|cmd q c|t|t|c|cmd]; cbn [return_code return_data] in *.
  - rewrite bool_decide_eq_true_2 by done. cbn [carry_out res_bind length]. do 2 f_equal; lia.
  - rewrite bool_decide_eq_false_2.
    2:{ repeat (apply elem_of_cons in Hr as [->|Hr]; [not_among|]). by apply not_elem_of_nil in Hr. }
    rewrite bool_decide_eq_true_2 by done. cbn [carry_out res_bind].
    rewrite length_app, !length_le_encode in *. rewrite Hpc, Hu by lia. do 2 f_equal; lia.
  - do 2 (rewrite bool_decide_eq_false_2 by not_among). rewrite Z.eqb_refl.
    pose proof (length_td_encode t) as Hl. unfold usize at 1. rewrite Z.mod_small by lia.
    rewrite (proj2 (Z.ltb_ge _ _)) by lia. rewrite Hu by lia. cbn [carry_out].
    rewrite <- Hl. destruct func as [f|]; cbn [res_bind].
    + rewrite (holds_load _ _ _ Hm). cbn [res_bind]. rewrite Hr.
      destruct (serve 64 K p f t); cbn [res_bind]; [|done]. do 2 f_equal; lia.
    + do 2 f_equal; lia.
  - do 2 (rewrite bool_decide_eq_false_2 by not_among).
    rewrite (proj2 (Z.eqb_neq _ _)) by codes_differ. rewrite Z.eqb_refl.
    pose proof (length_td_encode t) as Hl. unfold usize at 1. rewrite Z.mod_small by lia.
    rewrite (proj2 (Z.ltb_ge _ _)) by lia. rewrite Hu by lia. cbn [carry_out res_bind].
    rewrite <- Hl. destruct (wants_reply && bool_decide (bio = None)); cbn [res_bind].
    + rewrite (holds_load _ _ _ Hm). cbn [res_bind]. rewrite Hr. do 2 f_equal; lia.
    + do 2 f_equal; lia.
  - do 2 (rewrite bool_decide_eq_false_2 by not_among).
    do 2 (rewrite (proj2 (Z.eqb_neq _ _)) by codes_differ). rewrite Z.eqb_refl.
    pose proof (length_le_encode 8 c) as Hl. unfold load_word. change 8 with (Z.of_nat 8) at 1.
    rewrite <- Hl at 1. rewrite (holds_load _ _ _ Hm). cbn [res_bind].
    rewrite le_decode_encode by exact Hr. unfold usize at 1. rewrite Z.mod_small by exact Hr.
    cbn [carry_out]. destruct (death c p); cbn [res_bind]; [|done]. rewrite Hu by lia. do 2 f_equal; lia.
  - rewrite bool_decide_eq_false_2.
    2:{ repeat (apply elem_of_cons in Hr as [->|Hr]; [not_among|]). by apply not_elem_of_nil in Hr. }
    rewrite bool_decide_eq_false_2.
    2:{ repeat (apply elem_of_cons in Hr as [->|Hr]; [not_among|]). by apply not_elem_of_nil in Hr. }
    assert (cmd <> BR_TRANSACTION /\ cmd <> BR_REPLY /\ cmd <> BR_DEAD_BINDER) as (N1 & N2 & N3).
    { assert (cmd = BR_FAILED_REPLY \/ cmd = BR_DEAD_REPLY) as [->| ->] by set_solver;
        (split; [codes_differ|split; codes_differ]). }
    rewrite !(proj2 (Z.eqb_neq _ _)) by done. rewrite bool_decide_eq_true_2 by done.
    cbn [carry_out res_bind length]. do 2 f_equal; lia.
Qed.

Lemma return_code_range r : return_ok r -> 0 <= return_code r < 2 ^ 32.
Proof.
  intros Hr. pose proof returns_range as H. rewrite Forall_forall in H. apply H.
  destruct r; cbn [return_ok return_code] in *;
    repeat (apply elem_of_cons in Hr as [->|Hr]; [|]); try (by apply not_elem_of_nil in Hr);
    repeat (first [apply list_elem_of_here | apply list_elem_of_further]).
Qed.

Lemma length_return_bytes r : (4 <= length (return_bytes r))%nat.
Proof. unfold return_bytes. rewrite length_app, length_le_encode. lia. Qed.

(** The bytes of a sequence of returns. *)
Definition returns_bytes (rs : list return_) : list Z := rs ≫= return_bytes.

Context (ptr size : Z).

(** Carrying out one of these returns keeps an invariant of the process and does
    not write into the read buffer. *)
Definition keeps_buffer (I : process A -> Prop) (rs : list return_) : Prop :=
  forall r k bio p k' bio' p', r ∈ rs -> I p -> carry_out (k, bio, p) r = Ret (k', bio', p') ->
    I p' /\ same_bytes (u_mem p) (u_mem p') ptr size.

Lemma keeps_buffer_intro (I : process A -> Prop) rs :
  (forall f t p p', func = Some f -> RTransaction t ∈ rs -> I p -> serve 64 K p f t = Ret p' ->
    I p' /\ same_bytes (u_mem p) (u_mem p') ptr size) ->
  (forall c p p', RDead c ∈ rs -> I p -> death c p = Ret p' ->
    I p' /\ same_bytes (u_mem p) (u_mem p') ptr size) ->
  keeps_buffer I rs.
Proof.
  intros Hs Hd r k bio p k' bio' p' Hin HI. destruct r as [| |t|t|c|]; cbn [carry_out]; intros E;
    try (by injection E as <- <- <-).
  - destruct func as [f|]; [|by injection E as <- <- <-].
    destruct (serve 64 K p f t) eqn:Es; [|done]. injection E as <- <- <-. by apply (Hs f t).
  - destruct (death c p) eqn:Ed; [|done]. injection E as <- <- <-. by apply (Hd c).
Qed.

Lemma same_bytes_sub m m' a n b k : same_bytes m m' a n -> a <= b -> b + k <= a + n -> same_bytes m m' b k.
Proof. intros H Hb Hk x Hx. apply H. lia. Qed.

Lemma parse_loop_returns I rs : forall fuel p k bio a,
  keeps_buffer I rs -> I p -> Forall return_ok rs -> holds (u_mem p) a (returns_bytes rs) ->
  0 <= ptr <= a -> a + Z.of_nat (length (returns_bytes rs)) = ptr + size -> ptr + size < 2 ^ 64 ->
  (length (returns_bytes rs) <= fuel)%nat ->
  parse_loop 64 fuel K p func death wants_reply a (ptr + size) k bio = carry_out_all (k, bio, p) rs.
Proof.
  induction rs as [|r rs IH]; intros fuel p k bio a Hk HI Hr Hm Ha He Hlt Hf.
  { destruct fuel; cbn [parse_loop]; rewrite (proj2 (Z.ltb_ge _ _)) by (simpl in He; lia); done. }
  unfold returns_bytes in *. cbn [mbind list_bind] in *. rewrite length_app in *.
  pose proof (length_return_bytes r) as Hl. destruct fuel as [|fuel]; [lia|]. cbn [parse_loop].
  rewrite (proj2 (Z.ltb_lt _ _)) by lia. apply Forall_cons in Hr as [Hr Hrs].
  apply holds_app in Hm as [Hm1 Hm2]. assert (Hm1' := Hm1). unfold return_bytes in Hm1.
  apply holds_app in Hm1 as [Hc Hd]. rewrite length_le_encode in Hd.
  assert (load_word (u_mem p) a 4 = Ret (return_code r)) as ->.
  { pose proof (holds_load _ _ _ Hc) as E. rewrite length_le_encode in E. unfold load_word.
    change 4 with (Z.of_nat 4) at 1. rewrite E. cbn [res_bind]. rewrite le_decode_encode; [done|].
    by apply return_code_range. }
  cbn [res_bind]. assert (usize 64 (a + 4) = a + 4) as -> by (apply Z.mod_small; lia).
  rewrite parse_command_return by (try done; lia). cbn [carry_out_all].
  destruct (carry_out (k, bio, p) r) as [[[k' bio'] p']|] eqn:E; cbn [res_bind]; [|done].
  destruct (Hk _ _ _ _ _ _ _ (list_elem_of_here _ _) HI E) as [HI' Hs].
  apply IH; try done; try lia.
  { intros r1 ? ? ? ? ? ? Hin. apply Hk. by apply list_elem_of_further. }
  eapply holds_same; [exact Hm2| |reflexivity]. eapply same_bytes_sub; [exact Hs|lia|lia].
Qed.

(** C26: on the bytes of a sequence of returns [binder_parse] does what they ask
    for, in order: each transaction goes to the handler and is answered, the
    first reply becomes the caller's, each dead binder's callback runs; it ends
    with the result of the last return that has one, and it fails only where
    the handler or a callback does. *)
Theorem binder_parse_correct I rs p :
  keeps_buffer I rs -> I p -> Forall return_ok rs -> holds (u_mem p) ptr (returns_bytes rs) ->
  0 <= ptr -> Z.of_nat (length (returns_bytes rs)) = size -> ptr + size < 2 ^ 64 ->
  binder_parse 64 K p func death wants_reply ptr size = carry_out_all (1, None, p) rs.
Proof.
  intros Hk HI Hr Hm Hp Hl Hlt. unfold binder_parse. unfold usize. rewrite Z.mod_small by lia.
  apply (parse_loop_returns I); try done; lia.
Qed.

End Program.
End Parse.

(** ** Example *)

Lemma holds_written m a l : holds (write_bytes m a l) a l.
Proof.
  intros i b Hi. pose proof (lookup_lt_Some _ _ _ Hi).
  rewrite write_bytes_lookup, decide_True by lia.
  replace (Z.to_nat (a + Z.of_nat i - a)) with i by lia. exact Hi.
Qed.

Definition sample_txn_in : transaction_data := TransactionData 0 0 7 0 100 1000 0 0 16384 16384.

Definition sample_returns : list return_ :=
  [RNothing BR_NOOP; RRef BR_INCREFS 5 6; RTransaction sample_txn_in; RDead 9; RFailed BR_DEAD_REPLY].

Definition sample_handler : @handler unit := fun p _ _ reply => Ret (0, reply, p).

Lemma sample_serve_keeps t (p p' : process unit) :
  serve 64 sample_stack p sample_handler t = Ret p' -> same_bytes (u_mem p) (u_mem p') 4096 108.
Proof.
  unfold serve, sample_handler. cbn [res_bind]. destruct (negb _).
  - intros [= <-]. done.
  - unfold binder_send_reply. destruct (store _ _ _) as [m|] eqn:E; [|done]. intros [= <-].
    apply store_Ret in E as ->. intros x Hx. cbn [u_mem binder_write set_u_mem].
    rewrite write_bytes_lookup, decide_False; [done|]. rewrite length_le_encode. simpl. lia.
Qed.

Lemma binder_parse_correct_witness :
  let p := Process (write_bytes (sample_memory 8192 16) 4096 (returns_bytes sample_returns)) [] tt in
  exists p', binder_parse 64 sample_stack p (Some sample_handler) (fun _ p => Ret p) false 4096 108 =
    Ret (-1, None, p') /\ length (u_sent p') = 1%nat.
Proof.
  intros p. pose proof (binder_parse_correct sample_stack (Some sample_handler) (fun _ p => Ret p) false
      4096 108 (fun _ => True) sample_returns p) as H.
  eexists. split.
  - eapply eq_trans; [apply H|vm_compute; reflexivity].
    + apply keeps_buffer_intro.
      * intros f t q q' [= <-] _ _ E. split; [exact I|]. exact (sample_serve_keeps t q q' E).
      * intros c q q' _ _ [= <-]. split; [exact I|]. intros x _. reflexivity.
    + exact I.
    + apply Forall_cons; split; [apply list_elem_of_here|].
      apply Forall_cons; split; [apply list_elem_of_here|].
      apply Forall_cons; split; [by vm_compute|].
      apply Forall_cons; split; [simpl; lia|].
      apply Forall_cons; split; [apply list_elem_of_further, list_elem_of_here|].
      apply Forall_nil_2.
    + apply holds_written.
    + lia.
    + by vm_compute.
    + lia.
  - by vm_compute.
Defined.
