(* ===== verification/SvcMgr.v ===== *)
(** * SvcMgr: the service manager

    Models native/service_manager.c: the list of services, the permission
    checks, and the handler of the transactions clients send.  SELinux, the
    multi-user policy and malloc are parameters, in [policy] and [g_malloc].  The
    process is a 64-bit one: there the [len + 1] units behind a string that
    [bio_get_string16] returns are inside the message, so the handler may read
    them at once. *)

From S2P Require Import Prelude Uapi Bio.

(** ** What the service manager asks other libraries *)

(** SELinux contexts are opaque; [None] is a lookup that failed.  [k_app_id] is
    [multiuser_get_app_id]; the bounds of the uid ranges come from
    android_filesystem_config.h. *)
Record policy := Policy {
  k_getpidcon : Z -> option Z;
  k_selinux_check_access : Z -> Z -> list Z -> list Z -> Z;
  k_selabel_lookup : Z -> list Z -> option Z;
  k_selinux_status_updated : Z;
  k_service_context_handle : option Z;
  k_app_id : Z -> Z;
  AID_APP : Z;
  AID_USER : Z;
  AID_ISOLATED_START : Z;
  AID_ISOLATED_END : Z
}.

(** ** Data *)

(** [struct svcinfo], with the address [malloc] gave it; [si_name] holds [si_len]
    units and the terminating zero. *)
Record svcinfo := Svcinfo {
  si_addr : Z;
  si_handle : Z;
  si_allow_isolated : bool;
  si_len : Z;
  si_name : list Z
}.

Definition set_si_handle (h : Z) (si : svcinfo) : svcinfo :=
  Svcinfo (si_addr si) h (si_allow_isolated si) (si_len si) (si_name si).

(** The globals: [svclist], [sehandle], [service_manager_context]; and what the
    coming calls of [malloc] return. *)
Record svcmgr := Svcmgr {
  svclist : list svcinfo;
  sehandle : option Z;
  service_manager_context : Z;
  g_malloc : list (option Z)
}.

Definition set_svclist (l : list svcinfo) (g : svcmgr) : svcmgr :=
  Svcmgr l (sehandle g) (service_manager_context g) (g_malloc g).

Definition set_sehandle (h : option Z) (g : svcmgr) : svcmgr :=
  Svcmgr (svclist g) h (service_manager_context g) (g_malloc g).

(** [&si->death] and back: the offset of the member [death]. *)
Definition death_offset : Z := 16.
Definition si_death (si : svcinfo) : Z := si_addr si + death_offset.

Definition PING_TRANSACTION : Z :=
  95 * 2 ^ 24 + 80 * 2 ^ 16 + 78 * 2 ^ 8 + 71.
Definition SVC_MGR_GET_SERVICE : Z := 1.
Definition SVC_MGR_CHECK_SERVICE : Z := 2.
Definition SVC_MGR_ADD_SERVICE : Z := 3.
Definition SVC_MGR_LIST_SERVICES : Z := 4.
Definition BINDER_SERVICE_MANAGER : Z := 0.

(** "android.os.IServiceManager". *)
Definition svcmgr_id : list Z :=
  [97; 110; 100; 114; 111; 105; 100; 46; 111; 115; 46;
   73; 83; 101; 114; 118; 105; 99; 101; 77; 97; 110; 97; 103; 101; 114].

(** ** Strings *)

(** At most [max] units, up to a zero, each cut to a [char]. *)
Fixpoint str8_copy (x : list Z) (max : nat) : list Z :=
  match x, max with
  | c :: x', S max' => if c =? 0 then [] else c mod 256 :: str8_copy x' max'
  | _, _ => []
  end.

Definition str8 (x : option (list Z)) (x_len : Z) : list Z :=
  let max := if x_len <? 127 then x_len else 127 in
  match x with Some x => str8_copy x (Z.to_nat max) | None => [] end.

(** Both strings with their terminating zeros. *)
Fixpoint str16eq (a b : list Z) : bool :=
  match a, b with
  | x :: a', y :: b' =>
      if negb (x =? 0) && negb (y =? 0) then
        if negb (x =? y) then false else str16eq a' b'
      else (x =? 0) && (y =? 0)
  | _, _ => false
  end.

(** ** Permissions *)

Definition PERM_ADD : list Z := [97; 100; 100].
Definition PERM_FIND : list Z := [102; 105; 110; 100].
Definition PERM_LIST : list Z := [108; 105; 115; 116].

Section Permissions.
Context (P : policy).

Definition check_mac_perms (spid tctx : Z) (perm name : list Z) : bool :=
  match k_getpidcon P spid with
  | None => false
  | Some sctx => k_selinux_check_access P sctx tctx perm name =? 0
  end.

Definition check_mac_perms_from_getcon (g : svcmgr) (spid : Z) (perm : list Z) : bool :=
  check_mac_perms spid (service_manager_context g) perm [].

(** Without a handle the service manager aborts. *)
Definition check_mac_perms_from_lookup (g : svcmgr) (spid : Z) (perm name : list Z)
    : res bool :=
  match sehandle g with
  | None => Bug 100
  | Some h =>
      match k_selabel_lookup P h name with
      | None => Ret false
      | Some tctx => Ret (check_mac_perms spid tctx perm name)
      end
  end.

Definition svc_can_register (g : svcmgr) (name : list Z) (name_len spid uid : Z) : res bool :=
  if AID_APP P <=? k_app_id P uid then Ret false
  else check_mac_perms_from_lookup g spid PERM_ADD (str8 (Some name) name_len).

Definition svc_can_list (g : svcmgr) (spid : Z) : bool :=
  check_mac_perms_from_getcon g spid PERM_LIST.

Definition svc_can_find (g : svcmgr) (name : list Z) (name_len spid : Z) : res bool :=
  check_mac_perms_from_lookup g spid PERM_FIND (str8 (Some name) name_len).

(** ** The list of services *)

(** The first service with these [len] units. *)
Definition svc_named (s16 : list Z) (len : Z) (si : svcinfo) : bool :=
  (len =? si_len si) &&
  bool_decide (take (Z.to_nat len) s16 = take (Z.to_nat len) (si_name si)).

Definition find_svc (l : list svcinfo) (s16 : list Z) (len : Z) : option svcinfo :=
  find (svc_named s16 len) l.

Definition update_svc (a : Z) (f : svcinfo -> svcinfo) (l : list svcinfo) : list svcinfo :=
  map (fun si => if si_addr si =? a then f si else si) l.

Section Calls.
Context `{U : BinderUapi}.

Notation proc := (process svcmgr).

Definition set_list (l : list svcinfo) (p : proc) : proc :=
  set_u_app (set_svclist l (u_app p)) p.

Definition svcinfo_death (p : proc) (si : svcinfo) : proc :=
  if negb (si_handle si =? 0) then
    let p := binder_release p (si_handle si) in
    set_list (update_svc (si_addr si) (set_si_handle 0) (svclist (u_app p))) p
  else p.

(** The call through [death->func]: the address is that of the [death] member of
    a service. *)
Definition svcmgr_death : @death_func svcmgr := fun a p =>
  match find (fun si => si_death si =? a) (svclist (u_app p)) with
  | None => Bug 0
  | Some si => Ret (svcinfo_death p si)
  end.

Definition do_find_service (g : svcmgr) (s : list Z) (len uid spid : Z) : res Z :=
  match find_svc (svclist g) s len with
  | None => Ret 0
  | Some si =>
      if si_handle si =? 0 then Ret 0
      else
        let appid := uid mod AID_USER P in
        if negb (si_allow_isolated si) &&
           ((AID_ISOLATED_START P <=? appid) && (appid <=? AID_ISOLATED_END P)) then Ret 0
        else
          let! ok := svc_can_find g s len spid in
          if negb ok then Ret 0 else Ret (si_handle si)
  end.

Definition svc_malloc (p : proc) : option Z * proc :=
  let g := u_app p in
  match g_malloc g with
  | [] => (None, p)
  | a :: l =>
      (a, set_u_app (Svcmgr (svclist g) (sehandle g) (service_manager_context g) l) p)
  end.

(** [s] holds the [len + 1] units at the pointer. *)
Definition do_add_service (p : proc) (s : list Z) (len handle uid : Z)
    (allow_isolated : bool) (spid : Z) : res (Z * proc) :=
  if (handle =? 0) || (len =? 0) || (127 <? len) then Ret (-1, p)
  else
    let! ok := svc_can_register (u_app p) s len spid uid in
    if negb ok then Ret (-1, p)
    else
      let '(si, p) :=
        match find_svc (svclist (u_app p)) s len with
        | Some si =>
            let p := svcinfo_death p si in
            (Some si,
             set_list (update_svc (si_addr si) (set_si_handle handle) (svclist (u_app p))) p)
        | None =>
            let '(a, p) := svc_malloc p in
            match a with
            | None => (None, p)
            | Some a =>
                let si := Svcinfo a handle allow_isolated len (take (Z.to_nat len) s ++ [0]) in
                (Some si, set_list (si :: svclist (u_app p)) p)
            end
        end in
      match si with
      | None => Ret (-1, p)
      | Some si =>
          let p := binder_acquire p handle in
          Ret (0, binder_link_to_death p handle (si_death si))
      end.

(** ** The handler *)

(** The units behind a string the library has just read: [len + 1] of them. *)
Definition read_string16 (p : proc) (msg : binder_io)
    : res (option (list Z) * Z * binder_io) :=
  let! '(ptr, len, msg) := bio_get_string16 64 (u_mem p) msg in
  match ptr with
  | None => Ret (None, len, msg)
  | Some a => let! s := load_units (u_mem p) a (len + 1) in Ret (Some s, len, msg)
  end.

(** A new SELinux policy replaces the handle. *)
Definition refresh_sehandle (p : proc) : proc :=
  match sehandle (u_app p) with
  | Some _ =>
      if 0 <? k_selinux_status_updated P then
        match k_service_context_handle P with
        | Some h => set_u_app (set_sehandle (Some h) (u_app p)) p
        | None => p
        end
      else p
  | None => p
  end.

Definition put_uint32 (p : proc) (reply : binder_io) (n : Z) : res (binder_io * proc) :=
  let! '(m, reply) := bio_put_uint32 64 (u_mem p) reply n in Ret (reply, set_u_mem m p).

Definition handle_find (p : proc) (txn : transaction_data) (msg reply : binder_io)
    : res (Z * binder_io * proc) :=
  let! '(s, len, msg) := read_string16 p msg in
  match s with
  | None => Ret (-1, reply, p)
  | Some s =>
      let! handle := do_find_service (u_app p) s len (td_sender_euid txn) (td_sender_pid txn) in
      if handle =? 0 then
        let! '(reply, p) := put_uint32 p reply 0 in Ret (0, reply, p)
      else
        let! '(m, reply) := bio_put_ref 64 (u_mem p) reply handle in
        Ret (0, reply, set_u_mem m p)
  end.

Definition handle_add (p : proc) (txn : transaction_data) (msg reply : binder_io)
    : res (Z * binder_io * proc) :=
  let! '(s, len, msg) := read_string16 p msg in
  match s with
  | None => Ret (-1, reply, p)
  | Some s =>
      let! '(handle, msg) := bio_get_ref 64 (u_mem p) msg in
      let! '(allow, msg) := bio_get_uint32 64 (u_mem p) msg in
      let! '(r, p) := do_add_service p s len handle (td_sender_euid txn)
                        (negb (allow =? 0)) (td_sender_pid txn) in
      if negb (r =? 0) then Ret (-1, reply, p)
      else let! '(reply, p) := put_uint32 p reply 0 in Ret (0, reply, p)
  end.

Definition handle_list (p : proc) (txn : transaction_data) (msg reply : binder_io)
    : res (Z * binder_io * proc) :=
  let! '(n, msg) := bio_get_uint32 64 (u_mem p) msg in
  if negb (svc_can_list (u_app p) (td_sender_pid txn)) then Ret (-1, reply, p)
  else
    match svclist (u_app p) !! Z.to_nat n with
    | Some si =>
        let! '(m, reply) := bio_put_string16 64 (u_mem p) reply (Some (si_name si)) in
        Ret (0, reply, set_u_mem m p)
    | None => Ret (-1, reply, p)
    end.

Definition svcmgr_handler : @handler svcmgr := fun p txn msg reply =>
  if negb (td_target txn =? BINDER_SERVICE_MANAGER) then Ret (-1, reply, p)
  else if td_code txn =? PING_TRANSACTION then Ret (0, reply, p)
  else
    let! '(_, msg) := bio_get_uint32 64 (u_mem p) msg in
    let! '(s, len, msg) := read_string16 p msg in
    match s with
    | None => Ret (-1, reply, p)
    | Some s =>
        if negb (len =? 26) || bool_decide (take 26 s <> svcmgr_id) then Ret (-1, reply, p)
        else
          let p := refresh_sehandle p in
          if (td_code txn =? SVC_MGR_GET_SERVICE) || (td_code txn =? SVC_MGR_CHECK_SERVICE)
          then handle_find p txn msg reply
          else if td_code txn =? SVC_MGR_ADD_SERVICE then handle_add p txn msg reply
          else if td_code txn =? SVC_MGR_LIST_SERVICES then handle_list p txn msg reply
          else Ret (-1, reply, p)
    end.

End Calls.
End Permissions.
