(* ===== verification/SvcMgrThms.v ===== *)
(** * SvcMgrThms: the service manager is a registry

    What service_manager.c promises, as operations on a map from names to
    entries, and that its handler implements them on every request; and that no
    message, well formed or not, makes the handler fault or breaks its list. *)

From S2P Require Import Prelude Uapi Bio BioThms SvcMgr.

(** ** The registry *)

Record entry := Entry { e_handle : Z; e_isolated : bool; e_death : Z }.

(** The names, the latest first, and what each is registered for.  The entry of a
    service that died keeps its place with handle 0. *)
Record registry := Registry {
  r_names : list (list Z);
  r_entries : gmap (list Z) entry
}.

(** What the service manager tells the driver. *)
Inductive effect : Type :=
| Release (h : Z)
| Acquire (h : Z)
| Watch (h cookie : Z).

Definition set_e_handle (h : Z) (e : entry) : entry := Entry h (e_isolated e) (e_death e).

(** The units before the first zero. *)
Fixpoint c_string (n : list Z) : list Z :=
  match n with
  | [] => []
  | u :: n' => if u =? 0 then [] else u :: c_string n'
  end.

Section Registry.
Context (P : policy).

(** The permission, on the first 127 characters of the name. *)
Definition may (k pid : Z) (perm name : list Z) : bool :=
  let s := map (fun u => u mod 256) (take 127 (c_string name)) in
  match k_selabel_lookup P k s with
  | None => false
  | Some tctx => check_mac_perms P pid tctx perm s
  end.

Definition is_isolated (uid : Z) : bool :=
  (AID_ISOLATED_START P <=? uid mod AID_USER P) && (uid mod AID_USER P <=? AID_ISOLATED_END P).

Definition reg_find (k : Z) (R : registry) (name : list Z) (uid pid : Z) : Z :=
  match r_entries R !! name with
  | None => 0
  | Some e =>
      if (e_handle e =? 0) || (negb (e_isolated e) && is_isolated uid) then 0
      else if may k pid PERM_FIND name then e_handle e else 0
  end.

Definition may_add (k : Z) (name : list Z) (h uid pid : Z) : bool :=
  negb (h =? 0) && negb (bool_decide (name = [])) && (Z.of_nat (length name) <=? 127) &&
  (k_app_id P uid <? AID_APP P) && may k pid PERM_ADD name.

(** [fresh] is the address of a new entry's [death], when there is memory. *)
Definition reg_add (k : Z) (R : registry) (fresh : option Z) (name : list Z) (h : Z)
    (allow : bool) (uid pid : Z) : Z * list effect * registry :=
  if negb (may_add k name h uid pid) then (-1, [], R)
  else
    match r_entries R !! name with
    | Some e =>
        (0, (if e_handle e =? 0 then [] else [Release (e_handle e)]) ++
            [Acquire h; Watch h (e_death e)],
         Registry (r_names R) (<[name := set_e_handle h e]> (r_entries R)))
    | None =>
        match fresh with
        | None => (-1, [], R)
        | Some d =>
            (0, [Acquire h; Watch h d],
             Registry (name :: r_names R) (<[name := Entry h allow d]> (r_entries R)))
        end
    end.

(** The service [name] died. *)
Definition reg_died (R : registry) (name : list Z) : list effect * registry :=
  match r_entries R !! name with
  | None => ([], R)
  | Some e =>
      if e_handle e =? 0 then ([], R)
      else ([Release (e_handle e)],
            Registry (r_names R) (<[name := set_e_handle 0 e]> (r_entries R)))
  end.

(** An entry waits for this death. *)
Definition watched (R : registry) (d : Z) : Prop :=
  exists name e, r_entries R !! name = Some e /\ e_death e = d.

(** ** Requests *)

Inductive request : Type :=
| FindService (name : list Z)
| AddService (name : list Z) (h : Z) (allow : Z)
| ListServices (n : Z).

Definition request_values (strict : Z) (q : request) : list value :=
  VUint32 strict :: VString16 svcmgr_id ::
  match q with
  | FindService name => [VString16 name]
  | AddService name h allow => [VString16 name; VRef h; VUint32 allow]
  | ListServices n => [VUint32 n]
  end.

(** The status, what goes into the reply, what the driver is told, and the
    registry after it. *)
Definition answer (k ctx : Z) (R : registry) (fresh : option Z) (uid pid : Z) (q : request)
    : Z * option value * list effect * registry :=
  match q with
  | FindService name =>
      let h := reg_find k R name uid pid in
      (0, Some (if h =? 0 then VUint32 0 else VRef h), [], R)
  | AddService name h allow =>
      let '(r, es, R) := reg_add k R fresh name h (negb (allow =? 0)) uid pid in
      (r, if r =? 0 then Some (VUint32 0) else None, es, R)
  | ListServices n =>
      if check_mac_perms P pid ctx PERM_LIST [] then
        match r_names R !! Z.to_nat n with
        | Some name => (0, Some (VString16 (c_string name)), [], R)
        | None => (-1, None, [], R)
        end
      else (-1, None, [], R)
  end.

End Registry.

(** ** The list of services as a registry *)

Definition si_key (si : svcinfo) : list Z := take (Z.to_nat (si_len si)) (si_name si).

Definition si_entry (si : svcinfo) : entry :=
  Entry (si_handle si) (si_allow_isolated si) (si_death si).

Definition entries (l : list svcinfo) : gmap (list Z) entry :=
  list_to_map (map (fun si => (si_key si, si_entry si)) l).

Definition registry_of (g : svcmgr) : registry :=
  Registry (map si_key (svclist g)) (entries (svclist g)).

(** The name ends in a zero; a name may hold zeros, as the message did. *)
Definition svc_ok (si : svcinfo) : Prop :=
  exists n, si_name si = n ++ [0] /\ si_len si = Z.of_nat (length n) /\ 0 < si_len si <= 127 /\
    Forall (fun u => 0 <= u < 2 ^ 16) n /\ 0 <= si_handle si < 2 ^ 32.

Record svc_wf (g : svcmgr) : Prop := {
  wf_addrs : NoDup (map si_addr (svclist g) ++ omap id (g_malloc g));
  wf_keys : NoDup (map si_key (svclist g));
  wf_each : Forall svc_ok (svclist g)
}.

Lemma svc_ok_key si : svc_ok si -> si_name si = si_key si ++ [0] /\ si_len si = Z.of_nat (length (si_key si)).
Proof.
  intros (n & E & El & _). unfold si_key. rewrite E, El, Nat2Z.id, take_app_length. done.
Qed.

Lemma entries_lookup l name e : NoDup (map si_key l) ->
  entries l !! name = Some e <-> exists si, si ∈ l /\ si_key si = name /\ si_entry si = e.
Proof.
  intros Hn. unfold entries. rewrite <- elem_of_list_to_map.
  - rewrite list_elem_of_fmap. split; [intros (si & [= -> ->] & H)|intros (si & H & <- & <-)]; by exists si.
  - rewrite <- list_fmap_compose. exact Hn.
Qed.

Lemma update_svc_other a f l : a ∉ map si_addr l -> update_svc a f l = l.
Proof.
  unfold update_svc. induction l as [|s l IH]; [done|]. cbn [map]. rewrite not_elem_of_cons.
  intros [Hs Hl]. by rewrite IH, (proj2 (Z.eqb_neq (si_addr s) a)) by done.
Qed.

Lemma entries_update l si h : NoDup (map si_key l) -> NoDup (map si_addr l) -> si ∈ l ->
  entries (update_svc (si_addr si) (set_si_handle h) l) =
    <[si_key si := set_e_handle h (si_entry si)]> (entries l) /\
  map si_key (update_svc (si_addr si) (set_si_handle h) l) = map si_key l /\
  map si_addr (update_svc (si_addr si) (set_si_handle h) l) = map si_addr l.
Proof.
  intros Hk Ha Hin. unfold update_svc.
  induction l as [|s l IH]; [by apply not_elem_of_nil in Hin|].
  cbn [map] in *. apply NoDup_cons in Hk as [Hk1 Hk2], Ha as [Ha1 Ha2].
  apply elem_of_cons in Hin as [->|Hin].
  - fold (update_svc (si_addr s) (set_si_handle h) l). rewrite Z.eqb_refl, update_svc_other by done. split; [|done]. unfold entries. cbn [map].
    rewrite !list_to_map_cons. change (si_key (set_si_handle h s)) with (si_key s).
    by rewrite insert_insert_eq.
  - destruct (IH Hk2 Ha2 Hin) as (E1 & E2 & E3).
    rewrite (proj2 (Z.eqb_neq (si_addr s) (si_addr si))).
    2:{ intros E. apply Ha1. rewrite E. by apply list_elem_of_fmap_2. }
    rewrite E2, E3. split; [|done]. unfold entries in *. cbn [map]. rewrite !list_to_map_cons, E1.
    apply insert_insert_ne. intros E. apply Hk1. rewrite E. by apply list_elem_of_fmap_2.
Qed.

Lemma c_string_length n : (length (c_string n) <= length n)%nat.
Proof. induction n as [|u n IH]; simpl; [lia|]. destruct (u =? 0); simpl; lia. Qed.

Lemma str8_copy_spec c n : forall max, (max <= length n)%nat ->
  str8_copy (n ++ [c]) max = map (fun u => u mod 256) (take max (c_string n)).
Proof.
  induction n as [|u n IH]; intros [|max] H; try done; cbn [length] in H; [lia|].
  cbn [app str8_copy c_string]. destruct (u =? 0); [done|]. cbn [take map]. by rewrite IH by lia.
Qed.

Section Refinement.
Context (P : policy) `{U : BinderUapi}.

Notation proc := (process svcmgr).

Definition name_ok (n : list Z) : Prop := Forall (fun u => 0 <= u < 2 ^ 16) n.

Lemma may_lookup g k pid perm n c : sehandle g = Some k ->
  check_mac_perms_from_lookup P g pid perm (str8 (Some (n ++ [c])) (Z.of_nat (length n))) =
    Ret (may P k pid perm n).
Proof.
  intros Hk. unfold check_mac_perms_from_lookup, may, str8. rewrite Hk.
  assert (str8_copy (n ++ [c]) (Z.to_nat (if Z.of_nat (length n) <? 127 then Z.of_nat (length n) else 127)) =
          map (fun u => u mod 256) (take 127 (c_string n))) as ->.
  { pose proof (c_string_length n). destruct (Z.ltb_spec (Z.of_nat (length n)) 127).
    - rewrite Nat2Z.id, str8_copy_spec, !take_ge by lia. done.
    - rewrite str8_copy_spec by lia. done. }
  by destruct (k_selabel_lookup P k _).
Qed.

(** Looking a name up in the list, with the unit after it. *)
Lemma find_svc_spec l n c : NoDup (map si_key l) -> Forall svc_ok l ->
  match find_svc l (n ++ [c]) (Z.of_nat (length n)) with
  | Some si => si ∈ l /\ si_key si = n /\ entries l !! n = Some (si_entry si)
  | None => entries l !! n = None /\ n ∉ map si_key l
  end.
Proof.
  intros Hn Hok. unfold find_svc. destruct (find _ l) as [si|] eqn:E.
  - apply find_some in E as [Hin Hs]. apply list_elem_of_In in Hin. unfold svc_named in Hs.
    apply andb_true_iff in Hs as [Hl Hs]. apply Z.eqb_eq in Hl. apply bool_decide_eq_true in Hs.
    rewrite Nat2Z.id, take_app_length in Hs.
    assert (si_key si = n) as Hk by (unfold si_key; rewrite <- Hl, Nat2Z.id; done).
    split; [done|]. split; [done|]. apply entries_lookup; [done|]. by exists si.
  - assert (n ∉ map si_key l) as Hnot.
    { intros (si & -> & Hin)%list_elem_of_fmap. pose proof (find_none _ _ E si) as Hf.
      rewrite <- list_elem_of_In in Hf. specialize (Hf Hin). rewrite Forall_forall in Hok.
      destruct (svc_ok_key si (Hok si Hin)) as [En El]. unfold svc_named in Hf.
      rewrite <- El, Z.eqb_refl in Hf. cbn [andb] in Hf. apply bool_decide_eq_false in Hf. apply Hf.
      rewrite El, Nat2Z.id, take_app_length. unfold si_key at 1. by rewrite El, Nat2Z.id. }
    split; [|done]. destruct (entries l !! n) as [e|] eqn:Ee; [|done]. exfalso.
    apply entries_lookup in Ee as (si & Hin & <- & _); [|done]. apply Hnot. by apply list_elem_of_fmap_2.
Qed.

Lemma do_find_service_spec g k n c uid pid : svc_wf g -> sehandle g = Some k ->
  do_find_service P g (n ++ [c]) (Z.of_nat (length n)) uid pid =
    Ret (reg_find P k (registry_of g) n uid pid).
Proof.
  intros [_ Hn Hok] Hk. unfold do_find_service, reg_find. cbn [r_entries registry_of].
  pose proof (find_svc_spec (svclist g) n c Hn Hok) as Hf.
  destruct (find_svc _ _ _) as [si|]; [|by destruct Hf as [-> _]].
  destruct Hf as (Hin & Hkey & ->). unfold is_isolated. cbn [si_entry e_handle e_isolated].
  destruct (si_handle si =? 0); [done|]. cbn [orb]. destruct (negb _ && _); [done|].
  unfold svc_can_find. rewrite (may_lookup g k) by done. cbn [res_bind].
  by destruct (may P k pid PERM_FIND n).
Qed.

(** ** What the driver is told *)

Definition effect_bytes (e : effect) : list Z :=
  match e with
  | Release h => le_encode 4 BC_RELEASE ++ le_encode 4 h
  | Acquire h => le_encode 4 BC_ACQUIRE ++ le_encode 4 h
  | Watch h c => le_encode 4 BC_REQUEST_DEATH_NOTIFICATION ++ handle_cookie_encode h c
  end.

(** The process afterwards: the same memory, these messages to the driver, and
    this registry. *)
Definition becomes (p : proc) (es : list effect) (R : registry) (p' : proc) : Prop :=
  u_mem p' = u_mem p /\ u_sent p' = u_sent p ++ map effect_bytes es /\
  registry_of (u_app p') = R /\ svc_wf (u_app p') /\ sehandle (u_app p') = sehandle (u_app p) /\
  service_manager_context (u_app p') = service_manager_context (u_app p).

Lemma set_handle_wf (g : svcmgr) si h : svc_wf g -> si ∈ svclist g -> 0 <= h < 2 ^ 32 ->
  let g' := set_svclist (update_svc (si_addr si) (set_si_handle h) (svclist g)) g in
  svc_wf g' /\
  registry_of g' = Registry (r_names (registry_of g))
    (<[si_key si := set_e_handle h (si_entry si)]> (r_entries (registry_of g))).
Proof.
  intros [Ha Hk Hok] Hin Hh g'. apply NoDup_app in Ha as Ha'. destruct Ha' as [Ha' _].
  destruct (entries_update (svclist g) si h Hk Ha' Hin) as (E1 & E2 & E3).
  split; [split|]; unfold g'; cbn [svclist g_malloc set_svclist].
  - by rewrite E3.
  - by rewrite E2.
  - unfold update_svc. apply Forall_fmap. eapply Forall_impl; [exact Hok|]. intros s Hs. cbn.
    destruct (_ =? _); [|done]. destruct Hs as (n & ? & ? & ? & ? & _). by exists n.
  - unfold registry_of. cbn [svclist set_svclist r_names r_entries]. by rewrite E1, E2.
Qed.

Lemma svcinfo_death_spec (p : proc) si : svc_wf (u_app p) -> si ∈ svclist (u_app p) ->
  let '(es, R) := reg_died (registry_of (u_app p)) (si_key si) in
  becomes p es R (svcinfo_death p si).
Proof.
  intros Hwf Hin. unfold reg_died.
  assert (r_entries (registry_of (u_app p)) !! si_key si = Some (si_entry si)) as ->.
  { apply entries_lookup; [apply Hwf|]. by exists si. }
  cbn [e_handle si_entry]. unfold svcinfo_death. destruct (Z.eqb_spec (si_handle si) 0); cbn [negb].
  - unfold becomes. rewrite app_nil_r. done.
  - unfold becomes. cbn -[registry_of]. split; [done|]. split; [done|].
    destruct (set_handle_wf (u_app p) si 0 Hwf Hin ltac:(lia)) as [H1 H2]. done.
Qed.

Definition fresh_death (g : svcmgr) : option Z :=
  match g_malloc g with Some a :: _ => Some (a + death_offset) | _ => None end.

(** A new entry in front. *)
Lemma new_svc_wf (g : svcmgr) a l n h allow :
  svc_wf g -> g_malloc g = Some a :: l -> n ∉ map si_key (svclist g) -> name_ok n ->
  0 < Z.of_nat (length n) <= 127 -> 0 <= h < 2 ^ 32 ->
  let si := Svcinfo a h allow (Z.of_nat (length n)) (n ++ [0]) in
  let g' := Svcmgr (si :: svclist g) (sehandle g) (service_manager_context g) l in
  svc_wf g' /\
  registry_of g' = Registry (n :: r_names (registry_of g))
    (<[n := Entry h allow (a + death_offset)]> (r_entries (registry_of g))).
Proof.
  intros [Ha Hk Hok] Em Hn Hname Hlen Hh si g'.
  assert (si_key si = n) as Hkey by (unfold si_key; simpl; by rewrite Nat2Z.id, take_app_length).
  rewrite Em in Ha. cbn [omap list_omap id] in Ha. split; [split|]; unfold g'; cbn [svclist g_malloc map].
  - rewrite <- Permutation_middle in Ha. exact Ha.
  - rewrite Hkey. by constructor.
  - constructor; [|done]. by exists n.
  - unfold registry_of. cbn [svclist map r_names r_entries]. rewrite Hkey. f_equal.
    unfold entries. cbn [map]. rewrite list_to_map_cons, Hkey. done.
Qed.

(** The guards and the permission of [do_add_service]. *)
Lemma add_guards (p : proc) k n c h uid pid {A} (no : A) (yes : res A) :
  sehandle (u_app p) = Some k ->
  (if (h =? 0) || (Z.of_nat (length n) =? 0) || (127 <? Z.of_nat (length n)) then Ret no
   else let! ok := svc_can_register P (u_app p) (n ++ [c]) (Z.of_nat (length n)) pid uid in
        if negb ok then Ret no else yes) =
  (if negb (may_add P k n h uid pid) then Ret no else yes).
Proof.
  intros Hk. unfold may_add, svc_can_register. rewrite (may_lookup (u_app p) k) by done.
  rewrite Z.ltb_antisym, (Z.ltb_antisym (AID_APP P)).
  assert ((Z.of_nat (length n) =? 0) = bool_decide (n = [])) as -> by by destruct n.
  destruct (h =? 0), (bool_decide (n = [])), (_ <=? 127), (AID_APP P <=? _), (may P k pid PERM_ADD n); done.
Qed.

Lemma may_add_true k n h uid pid : may_add P k n h uid pid = true ->
  h <> 0 /\ 0 < Z.of_nat (length n) <= 127.
Proof.
  unfold may_add. intros ((((Hh & Hn)%andb_true_iff & Hl)%andb_true_iff & _)%andb_true_iff & _)%andb_true_iff.
  apply negb_true_iff in Hh, Hn. apply bool_decide_eq_false in Hn.
  apply Z.eqb_neq in Hh. apply Z.leb_le in Hl. destruct n; [done|]. simpl length in *. lia.
Qed.

Lemma becomes_told (p p1 : proc) es es' R :
  becomes p es R p1 ->
  becomes p (es ++ es') R (foldl (fun p e => binder_write p (effect_bytes e)) p1 es').
Proof.
  revert es p1. induction es' as [|e es' IH]; intros es p1 H; [by rewrite app_nil_r|]. cbn [foldl].
  rewrite cons_middle, app_assoc. apply IH. destruct H as (? & E & ? & ? & ?).
  unfold becomes. cbn [binder_write u_mem u_sent u_app]. rewrite E, map_app, app_assoc. done.
Qed.

(** A name registered again: the old handle is released, the entry keeps its
    place, its [death] and its [allow_isolated]. *)
Lemma replace_spec (p : proc) si h :
  svc_wf (u_app p) -> si ∈ svclist (u_app p) -> 0 <= h < 2 ^ 32 ->
  becomes p (if si_handle si =? 0 then [] else [Release (si_handle si)])
    (Registry (r_names (registry_of (u_app p)))
       (<[si_key si := set_e_handle h (si_entry si)]> (r_entries (registry_of (u_app p)))))
    (set_list (update_svc (si_addr si) (set_si_handle h) (svclist (u_app (svcinfo_death p si))))
       (svcinfo_death p si)).
Proof.
  intros Hwf Hin Hh. unfold svcinfo_death. destruct (si_handle si =? 0) eqn:E0; cbn [negb].
  - destruct (set_handle_wf (u_app p) si h Hwf Hin Hh) as [H1 H2].
    unfold becomes. rewrite app_nil_r. done.
  - destruct (set_handle_wf (u_app p) si 0 Hwf Hin ltac:(lia)) as [H1 H2].
    set (g1 := set_svclist _ (u_app p)) in *.
    assert (set_si_handle 0 si ∈ svclist g1) as Hin1.
    { unfold g1, update_svc. cbn [svclist set_svclist]. apply list_elem_of_fmap. exists si.
      by rewrite Z.eqb_refl. }
    destruct (set_handle_wf g1 (set_si_handle 0 si) h H1 Hin1 Hh) as [H3 H4].
    rewrite H2 in H4. cbn [r_entries r_names] in H4. rewrite insert_insert_eq in H4.
    unfold becomes. do 2 (split; [done|]). split; [exact H4|]. by split.
Qed.

Lemma do_add_service_spec (p : proc) k n c h allow uid pid :
  svc_wf (u_app p) -> sehandle (u_app p) = Some k -> name_ok n -> 0 <= h < 2 ^ 32 ->
  let '(r, es, R) := reg_add P k (registry_of (u_app p)) (fresh_death (u_app p)) n h allow uid pid in
  exists p', do_add_service P p (n ++ [c]) (Z.of_nat (length n)) h uid allow pid = Ret (r, p') /\
    becomes p es R p'.
Proof.
  intros Hwf Hk Hname Hh. unfold reg_add, do_add_service. rewrite (add_guards p k) by done.
  assert (becomes p [] (registry_of (u_app p)) p) as Hsame by (unfold becomes; by rewrite app_nil_r).
  destruct (may_add P k n h uid pid) eqn:Em; cbn [negb]; [|by exists p].
  apply may_add_true in Em as [Hh0 Hlen].
  pose proof (find_svc_spec (svclist (u_app p)) n c (wf_keys _ Hwf) (wf_each _ Hwf)) as Hf.
  destruct (find_svc _ _ _) as [si|].
  - destruct Hf as (Hin & Hkey & He). cbn [r_entries registry_of]. rewrite He. cbn [e_handle si_entry].
    eexists. split; [reflexivity|]. subst n.
    apply (becomes_told p _ _ [Acquire h; Watch h (si_death si)]). by apply replace_spec.
  - destruct Hf as [He Hn]. cbn [r_entries registry_of]. rewrite He. unfold svc_malloc, fresh_death.
    destruct (g_malloc (u_app p)) as [|[a|] l] eqn:Eg; [by exists p| |].
    + eexists. split; [reflexivity|].
      apply (becomes_told p _ [] [Acquire h; Watch h (a + death_offset)]).
      destruct (new_svc_wf (u_app p) a l n h allow Hwf Eg Hn Hname Hlen Hh) as [H1 H2].
      unfold becomes. rewrite app_nil_r, Nat2Z.id, take_app_length. done.
    + eexists. split; [reflexivity|]. unfold becomes. rewrite app_nil_r. cbn.
      split; [done|]. split; [done|]. split; [done|]. split; [|done].
      destruct Hwf as [Ha ? ?]. rewrite Eg in Ha. by split.
Qed.

(** ** The handler *)

(** The handler's result is this answer: the status, the reply with the value put
    into it, the driver told, and the registry. *)
Definition answers (k : Z) (p : proc) (reply : binder_io)
    (a : Z * option value * list effect * registry) (x : res (Z * binder_io * proc)) : Prop :=
  let '(r, out, es, R) := a in
  exists reply' p', x = Ret (r, reply', p') /\
    match out with
    | None => u_mem p' = u_mem p /\ reply' = reply
    | Some v => put_value (u_mem p) reply v = Ret (u_mem p', reply') /\ value_ok v
    end /\
    u_sent p' = u_sent p ++ map effect_bytes es /\
    registry_of (u_app p') = R /\ svc_wf (u_app p') /\ sehandle (u_app p') = Some k /\
    service_manager_context (u_app p') = service_manager_context (u_app p).

(** The handle the permissions are looked up in. *)
Definition current_handle (k : Z) : Z :=
  if 0 <? k_selinux_status_updated P then default k (k_service_context_handle P) else k.

Lemma refresh_spec (p : proc) k : sehandle (u_app p) = Some k ->
  let p' := refresh_sehandle P p in
  u_mem p' = u_mem p /\ u_sent p' = u_sent p /\ registry_of (u_app p') = registry_of (u_app p) /\
  (svc_wf (u_app p) -> svc_wf (u_app p')) /\ sehandle (u_app p') = Some (current_handle k) /\
  service_manager_context (u_app p') = service_manager_context (u_app p) /\
  fresh_death (u_app p') = fresh_death (u_app p).
Proof.
  intros Hk. unfold refresh_sehandle, current_handle. rewrite Hk.
  destruct (0 <? _); [|done]. destruct (k_service_context_handle P); [|done]. simpl.
  do 3 (split; [done|]). split; [|done]. intros []. by split.
Qed.

Lemma answers_refused k (p : proc) reply : sehandle (u_app p) = Some k -> svc_wf (u_app p) ->
  answers k p reply (-1, None, [], registry_of (u_app p)) (Ret (-1, reply, p)).
Proof. intros Hk Hwf. exists reply, p. rewrite app_nil_r. done. Qed.

Lemma answers_put k D M N (p p1 : proc) reply v es R :
  becomes p es R p1 -> sehandle (u_app p) = Some k -> writer_ok (u_mem p) D M N reply -> value_ok v ->
  answers k p reply (0, Some v, es, R)
    (let! '(m, b) := put_value (u_mem p1) reply v in Ret (0, b, set_u_mem m p1)).
Proof.
  intros (Em & Es & ER & Hwf & Eh & Ec) Hk Hw Hv. rewrite Em.
  destruct (put_value_ok D M N _ _ v Hw Hv) as (m & b & E & _). rewrite E. cbn [res_bind].
  exists b, (set_u_mem m p1). split; [done|]. split; [done|]. simpl. rewrite Eh. done.
Qed.

Lemma put_uint32_bind (p : proc) reply n :
  (let! '(reply, p) := put_uint32 p reply n in Ret (0, reply, p)) =
  (let! '(m, b) := put_value (u_mem p) reply (VUint32 n) in Ret (0, b, set_u_mem m p)).
Proof. unfold put_uint32. simpl. by destruct (bio_put_uint32 64 (u_mem p) reply n) as [[]|]. Qed.

Lemma becomes_same (p : proc) : svc_wf (u_app p) -> becomes p [] (registry_of (u_app p)) p.
Proof. intros H. unfold becomes. by rewrite app_nil_r. Qed.

Lemma reg_find_range g k n uid pid : svc_wf g ->
  0 <= reg_find P k (registry_of g) n uid pid < 2 ^ 32.
Proof.
  intros [_ Hn Hok]. unfold reg_find. destruct (r_entries _ !! n) as [e|] eqn:E; [|lia].
  apply entries_lookup in E as (si & Hin & _ & <-); [|done]. rewrite Forall_forall in Hok.
  destruct (Hok si Hin) as (? & _ & _ & _ & _ & Hh). cbn [e_handle si_entry].
  destruct (_ || _); [lia|]. destruct (may _ _ _ _ _); lia.
Qed.

Lemma handle_find_spec k D M N (p : proc) txn msg reply n c msg' :
  svc_wf (u_app p) -> sehandle (u_app p) = Some k -> writer_ok (u_mem p) D M N reply ->
  read_string16 p msg = Ret (Some (n ++ [c]), Z.of_nat (length n), msg') ->
  answers k p reply
    (answer P k (service_manager_context (u_app p)) (registry_of (u_app p)) (fresh_death (u_app p)) (td_sender_euid txn)
       (td_sender_pid txn) (FindService n))
    (handle_find P p txn msg reply).
Proof.
  intros Hwf Hk Hw Hr. unfold handle_find. rewrite Hr. cbn [res_bind].
  rewrite (do_find_service_spec (u_app p) k) by done. cbn [res_bind answer].
  pose proof (reg_find_range (u_app p) k n (td_sender_euid txn) (td_sender_pid txn) Hwf) as Hrg.
  destruct (Z.eqb_spec (reg_find P k (registry_of (u_app p)) n (td_sender_euid txn) (td_sender_pid txn)) 0).
  - rewrite put_uint32_bind. by eapply (answers_put k D M N p p _ (VUint32 0)); [apply becomes_same| | |].
  - eapply (answers_put k D M N p p _ (VRef _)); [by apply becomes_same|done|done|simpl; lia].
Qed.

Lemma handle_add_spec k D M N (p : proc) txn msg reply n c h a msg1 msg2 msg3 :
  svc_wf (u_app p) -> sehandle (u_app p) = Some k -> writer_ok (u_mem p) D M N reply ->
  name_ok n -> 0 <= h < 2 ^ 32 ->
  read_string16 p msg = Ret (Some (n ++ [c]), Z.of_nat (length n), msg1) ->
  bio_get_ref 64 (u_mem p) msg1 = Ret (h, msg2) ->
  bio_get_uint32 64 (u_mem p) msg2 = Ret (a, msg3) ->
  answers k p reply
    (answer P k (service_manager_context (u_app p)) (registry_of (u_app p)) (fresh_death (u_app p)) (td_sender_euid txn)
       (td_sender_pid txn) (AddService n h a))
    (handle_add P p txn msg reply).
Proof.
  intros Hwf Hk Hw Hn Hh Hr Hr1 Hr2. unfold handle_add. rewrite Hr. cbn [res_bind].
  rewrite Hr1. cbn [res_bind]. rewrite Hr2. cbn [res_bind answer].
  pose proof (do_add_service_spec p k n c h (negb (a =? 0)) (td_sender_euid txn) (td_sender_pid txn)
    Hwf Hk Hn Hh) as Hadd.
  destruct (reg_add _ _ _ _ _ _ _ _) as [[r es] R] eqn:Ea.
  destruct Hadd as (p1 & -> & Hb). cbn [res_bind].
  assert (r = 0 \/ r = -1) as [-> | ->].
  { unfold reg_add in Ea. destruct (negb _); [simplify_eq; lia|].
    destruct (r_entries _ !! n); [simplify_eq; lia|]. destruct (fresh_death _); simplify_eq; lia. }
  - cbn [Z.eqb negb]. rewrite put_uint32_bind.
    by eapply (answers_put k D M N p p1 _ (VUint32 0)).
  - cbn [Z.eqb negb]. destruct Hb as (Em & Es & ER & Hwf1 & Eh & Ec). exists reply, p1.
    rewrite Eh. done.
Qed.

(** A string with zeros in it is sent up to the first one. *)
Lemma put_c_string m bio n :
  bio_put_string16 64 m bio (Some (n ++ [0])) = put_value m bio (VString16 (c_string n)).
Proof.
  simpl. unfold bio_put_string16.
  assert (str16_len (n ++ [0]) = Z.of_nat (length (c_string n)) /\
          str16_len (c_string n ++ [0]) = Z.of_nat (length (c_string n)) /\
          take (length (c_string n)) (n ++ [0]) = c_string n) as (E1 & E2 & E3).
  { induction n as [|u n IH]; [done|]. cbn [app str16_len c_string].
    destruct (u =? 0) eqn:Eu; [done|]. cbn [app str16_len length take]. rewrite Eu.
    destruct IH as (-> & -> & ->). split; [lia|]. split; [lia|done]. }
  rewrite E1, E2, Nat2Z.id, E3, take_app_length. done.
Qed.

Lemma c_string_ok n : name_ok n -> Z.of_nat (length n) <= 127 -> value_ok (VString16 (c_string n)).
Proof.
  intros Hn Hl. split.
  - induction Hn as [|u n Hu _ IH]; [constructor|]. cbn [c_string length] in *.
    destruct (Z.eqb_spec u 0); [constructor|]. constructor; [lia|]. apply IH. lia.
  - pose proof (c_string_length n). change (MAX_BIO_SIZE / 2) with (2 ^ 29). lia.
Qed.

Lemma handle_list_spec k D M N (p : proc) txn msg reply n msg1 :
  svc_wf (u_app p) -> sehandle (u_app p) = Some k -> writer_ok (u_mem p) D M N reply ->
  bio_get_uint32 64 (u_mem p) msg = Ret (n, msg1) ->
  answers k p reply
    (answer P k (service_manager_context (u_app p)) (registry_of (u_app p)) (fresh_death (u_app p)) (td_sender_euid txn)
       (td_sender_pid txn) (ListServices n))
    (handle_list P p txn msg reply).
Proof.
  intros Hwf Hk Hw Hr. unfold handle_list. rewrite Hr. cbn [res_bind answer].
  unfold svc_can_list, check_mac_perms_from_getcon.
  destruct (check_mac_perms P _ _ PERM_LIST []); cbn [negb]; [|by apply answers_refused].
  cbn [r_names registry_of]. rewrite list_lookup_fmap.
  destruct (svclist (u_app p) !! Z.to_nat n) as [si|] eqn:Es; cbn [fmap option_fmap option_map];
    [|by apply answers_refused].
  pose proof (wf_each _ Hwf) as Hok. rewrite Forall_forall in Hok.
  specialize (Hok si (list_elem_of_lookup_2 _ _ _ Es)). destruct (svc_ok_key si Hok) as [-> _].
  rewrite put_c_string. eapply (answers_put k D M N p p); [by apply becomes_same|done|done|].
  destruct Hok as (m & En & El & Hlen & Hm & _). unfold si_key. rewrite En, El, Nat2Z.id, take_app_length.
  apply c_string_ok; [done|lia].
Qed.

Lemma gets_read_string16 (p : proc) msg n msg' : gets (u_mem p) msg (VString16 n) msg' ->
  read_string16 p msg = Ret (Some (n ++ [0]), Z.of_nat (length n), msg').
Proof. intros (a & Ea & El). unfold read_string16. rewrite Ea. cbn [res_bind]. by rewrite El. Qed.

(** The answer of the process with the refreshed handle. *)
Lemma answers_refreshed k (p : proc) reply uid pid q x :
  svc_wf (u_app p) -> sehandle (u_app p) = Some k ->
  (let p := refresh_sehandle P p in
   svc_wf (u_app p) -> sehandle (u_app p) = Some (current_handle k) ->
   answers (current_handle k) p reply
     (answer P (current_handle k) (service_manager_context (u_app p)) (registry_of (u_app p))
        (fresh_death (u_app p)) uid pid q) x) ->
  answers (current_handle k) p reply
    (answer P (current_handle k) (service_manager_context (u_app p)) (registry_of (u_app p))
       (fresh_death (u_app p)) uid pid q) x.
Proof.
  intros Hwf Hk H. destruct (refresh_spec p k Hk) as (E1 & E2 & E3 & E4 & E5 & E6 & E7).
  specialize (H (E4 Hwf) E5). unfold answers in *. by rewrite E1, E2, E3, E6, E7 in H.
Qed.

(** The transaction codes of a request. *)
Definition request_codes (q : request) : list Z :=
  match q with
  | FindService _ => [SVC_MGR_GET_SERVICE; SVC_MGR_CHECK_SERVICE]
  | AddService _ _ _ => [SVC_MGR_ADD_SERVICE]
  | ListServices _ => [SVC_MGR_LIST_SERVICES]
  end.

(** The part of the handler after the header of the message. *)
Definition dispatch (p : proc) (txn : transaction_data) (msg reply : binder_io)
    : res (Z * binder_io * proc) :=
  if (td_code txn =? SVC_MGR_GET_SERVICE) || (td_code txn =? SVC_MGR_CHECK_SERVICE)
  then handle_find P p txn msg reply
  else if td_code txn =? SVC_MGR_ADD_SERVICE then handle_add P p txn msg reply
  else if td_code txn =? SVC_MGR_LIST_SERVICES then handle_list P p txn msg reply
  else Ret (-1, reply, p).

Lemma handler_dispatch (p : proc) txn msg reply strict msg1 c msg2 :
  td_target txn = BINDER_SERVICE_MANAGER -> td_code txn <> PING_TRANSACTION ->
  bio_get_uint32 64 (u_mem p) msg = Ret (strict, msg1) ->
  read_string16 p msg1 = Ret (Some (svcmgr_id ++ [c]), 26, msg2) ->
  svcmgr_handler P p txn msg reply = dispatch (refresh_sehandle P p) txn msg2 reply.
Proof.
  intros Ht Hc H1 H2. unfold svcmgr_handler. rewrite Ht, Z.eqb_refl. cbn [negb].
  rewrite (proj2 (Z.eqb_neq _ _) Hc), H1. cbn [res_bind]. by rewrite H2.
Qed.

(** C2: the service manager's handler implements the registry: a request that
    reads back from the message as an [addService], [getService], [checkService]
    or [listServices] gets the status and the reply of the registry's answer, the
    driver is told what it says (the old handle released, the new one acquired
    and watched), and the list afterwards is its registry and still well formed. *)
Theorem svcmgr_handler_refines (p : proc) txn msg reply k D M N strict q r :
  svc_wf (u_app p) -> sehandle (u_app p) = Some k -> writer_ok (u_mem p) D M N reply ->
  td_target txn = BINDER_SERVICE_MANAGER -> td_code txn ∈ request_codes q ->
  Forall value_ok (request_values strict q) ->
  reads_back (u_mem p) msg (request_values strict q) r ->
  answers (current_handle k) p reply
    (answer P (current_handle k) (service_manager_context (u_app p)) (registry_of (u_app p))
       (fresh_death (u_app p)) (td_sender_euid txn) (td_sender_pid txn) q)
    (svcmgr_handler P p txn msg reply).
Proof.
  intros Hwf Hk Hw Ht Hc Hv Hr. unfold request_values in Hr.
  destruct Hr as (m1 & H1 & m2 & H2 & Hr). apply gets_read_string16 in H2.
  rewrite (handler_dispatch p txn msg reply strict m1 0 m2) by
    (try done; intros E; rewrite E in Hc; destruct q; vm_compute in Hc; set_solver).
  apply answers_refreshed; [done|done|]. destruct (refresh_spec p k Hk) as (Em & _).
  rewrite <- Em in Hw, Hr. intros p0 Hwf0 Hk0. unfold dispatch.
  destruct q as [n|n h a|n]; cbn [request_codes] in Hc; simpl in Hr.
  - destruct Hr as (m3 & H3 & _). apply gets_read_string16 in H3.
    assert ((td_code txn =? SVC_MGR_GET_SERVICE) || (td_code txn =? SVC_MGR_CHECK_SERVICE) = true) as ->.
    { apply orb_true_iff. rewrite !Z.eqb_eq. set_solver. }
    by eapply handle_find_spec.
  - destruct Hr as (m3 & H3 & m4 & H4 & m5 & H5 & _). apply gets_read_string16 in H3.
    apply list_elem_of_singleton in Hc. rewrite Hc. simpl.
    do 2 apply Forall_cons in Hv as [_ Hv]. apply Forall_cons in Hv as [Hn [Hh Hv]%Forall_cons].
    eapply handle_add_spec; try done; [|simpl in Hh; lia].
    destruct Hn as [Hn _]. eapply Forall_impl; [exact Hn|]. simpl. lia.
  - destruct Hr as (m3 & H3 & _). apply list_elem_of_singleton in Hc. rewrite Hc. simpl.
    by eapply handle_list_spec.
Qed.

(** ** Any message *)

Lemma units_of_range n : forall l, Forall byte_ok l -> name_ok (units_of n l).
Proof.
  induction n as [|n IH]; intros l Hl; [constructor|]. cbn [units_of]. constructor.
  - pose proof (le_decode_range (take 2 l) (Forall_take _ _ _ Hl)) as Hr.
    assert (256 ^ Z.of_nat (length (take 2 l)) <= 256 ^ 2); [|change (256 ^ 2) with (2 ^ 16) in *; lia].
    apply Z.pow_le_mono_r; [lia|]. rewrite length_take. lia.
  - apply IH. by apply Forall_drop.
Qed.

Lemma length_units_of n l : length (units_of n l) = n.
Proof. revert l. induction n; intros l; simpl; [done|]. by rewrite IHn. Qed.

Lemma read_string16_total (p : proc) msg : reader_ok (u_mem p) msg ->
  exists s len msg', read_string16 p msg = Ret (s, len, msg') /\ reader_ok (u_mem p) msg' /\
    forall s', s = Some s' -> exists n c, s' = n ++ [c] /\ len = Z.of_nat (length n) /\ name_ok n.
Proof.
  intros Hok. unfold read_string16.
  destruct (bio_get_string16_spec _ msg Hok) as (a & len & b & -> & Hok' & _ & Hlen & Ha). cbn [res_bind].
  destruct a as [a|]; [|by exists None, len, b]. destruct (Ha a eq_refl) as (_ & _ & Hm).
  unfold load_units. destruct (load_mapped _ _ _ Hm) as (l & El & Hl). rewrite El. cbn [res_bind].
  eexists _, len, b. split; [reflexivity|]. split; [done|]. intros s' [= <-].
  assert (name_ok (units_of (Z.to_nat (len + 1)) l)) as Hu.
  { apply units_of_range. unfold load in El. destruct (copy_from_user _ _ _) eqn:Ec; [|done].
    injection El as ->. eapply copy_from_user_bytes; [apply Hok|exact Ec]. }
  pose proof (length_units_of (Z.to_nat (len + 1)) l) as Hul.
  destruct (units_of _ l) as [|c n _] using rev_ind; [simpl in Hul; lia|].
  rewrite length_app in Hul. simpl in Hul. exists n, c. split; [done|]. split; [lia|].
  by apply Forall_app in Hu as [Hu _].
Qed.

(** What holds of the handler's result whatever it was sent. *)
Definition safe (D M N : Z) (p : proc) (reply : binder_io) (x : res (Z * binder_io * proc)) : Prop :=
  exists r reply' p', x = Ret (r, reply', p') /\ (r = 0 \/ r = -1) /\
    svc_wf (u_app p') /\ is_Some (sehandle (u_app p')) /\
    writer_ok (u_mem p') D M N reply' /\ wrote D M N (u_mem p) reply (u_mem p') reply' /\
    u_sent p `prefix_of` u_sent p' /\
    forall d, watched (registry_of (u_app p)) d -> watched (registry_of (u_app p')) d.

Lemma answers_safe k D M N (p : proc) reply r out es R x :
  writer_ok (u_mem p) D M N reply -> r = 0 \/ r = -1 ->
  (forall d, watched (registry_of (u_app p)) d -> watched R d) ->
  answers k p reply (r, out, es, R) x -> safe D M N p reply x.
Proof.
  intros Hw Hr Hd (reply' & p' & -> & Hout & Es & ER & Hwf & Hk & _). rewrite <- ER in Hd. exists r, reply', p'.
  split; [done|]. split; [done|]. split; [done|]. split; [by rewrite Hk|].
  assert (u_sent p `prefix_of` u_sent p') as Hp by by exists (map effect_bytes es).
  destruct out as [v|].
  - destruct Hout as [E Hv]. destruct (put_value_ok D M N _ _ v Hw Hv) as (m & b & E' & Hok & Hwr & _).
    rewrite E in E'. injection E' as -> ->. done.
  - destruct Hout as [-> ->]. split; [done|]. split; [apply wrote_refl|done].
Qed.

Lemma watched_insert R name e e' names : r_entries R !! name = Some e -> e_death e' = e_death e ->
  forall d, watched R d -> watched (Registry names (<[name := e']> (r_entries R))) d.
Proof.
  intros He Hd d (n & e1 & Hn & <-). destruct (decide (n = name)) as [->|Hne].
  - exists name, e'. rewrite He in Hn. injection Hn as <-. split; [apply lookup_insert_eq|done].
  - exists n, e1. split; [|done]. simpl. by rewrite lookup_insert_ne.
Qed.

Lemma watched_new R name e names : r_entries R !! name = None ->
  forall d, watched R d -> watched (Registry names (<[name := e]> (r_entries R))) d.
Proof.
  intros He d (n & e1 & Hn & <-). exists n, e1. split; [|done]. simpl.
  rewrite lookup_insert_ne; [done|]. congruence.
Qed.

Lemma reg_add_status k R fresh n h allow uid pid r es R' :
  reg_add P k R fresh n h allow uid pid = (r, es, R') ->
  (r = 0 \/ r = -1) /\ forall d, watched R d -> watched R' d.
Proof.
  unfold reg_add. destruct (negb _); [intros; simplify_eq; auto|].
  destruct (r_entries R !! n) as [e|] eqn:En.
  - intros [= <- _ <-]. split; [by left|]. by apply (watched_insert _ _ e).
  - destruct fresh; intros [= <- _ <-]; split; auto. by apply watched_new.
Qed.

Lemma answer_status k ctx R fresh uid pid q r out es R' :
  answer P k ctx R fresh uid pid q = (r, out, es, R') ->
  (r = 0 \/ r = -1) /\ forall d, watched R d -> watched R' d.
Proof.
  destruct q as [n|n h a|n]; simpl.
  - intros. simplify_eq. auto.
  - destruct (reg_add _ _ _ _ _ _ _ _) as [[r1 es1] R1] eqn:E. intros [= <- _ _ <-].
    by eapply reg_add_status.
  - repeat case_match; intros; simplify_eq; auto.
Qed.

Lemma answer_safe k D M N (p : proc) reply q uid pid x :
  writer_ok (u_mem p) D M N reply ->
  answers k p reply (answer P k (service_manager_context (u_app p)) (registry_of (u_app p))
                       (fresh_death (u_app p)) uid pid q) x ->
  safe D M N p reply x.
Proof.
  intros Hw. destruct (answer _ _ _ _ _ _ _ _) as [[[r out] es] R] eqn:E.
  apply answer_status in E as [Hr Hd]. by apply answers_safe.
Qed.

Lemma refused_safe k D M N (p : proc) reply :
  writer_ok (u_mem p) D M N reply -> svc_wf (u_app p) -> sehandle (u_app p) = Some k ->
  safe D M N p reply (Ret (-1, reply, p)).
Proof. intros Hw Hwf Hk. eapply answers_safe; [exact Hw|by right| |by apply (answers_refused k)]; done. Qed.

Lemma dispatch_safe k D M N (p : proc) txn msg reply :
  svc_wf (u_app p) -> sehandle (u_app p) = Some k -> writer_ok (u_mem p) D M N reply ->
  reader_ok (u_mem p) msg -> safe D M N p reply (dispatch p txn msg reply).
Proof.
  intros Hwf Hk Hw Hmsg. unfold dispatch. pose proof (refused_safe k D M N p reply Hw Hwf Hk) as Hno.
  destruct (read_string16_total p msg Hmsg) as (s & len & m1 & E1 & Hok1 & Hs).
  destruct (_ || _).
  { destruct s as [s|]; [|unfold handle_find; by rewrite E1].
    destruct (Hs s eq_refl) as (n & c & -> & -> & Hn).
    eapply answer_safe; [exact Hw|]. by eapply handle_find_spec. }
  destruct (_ =? SVC_MGR_ADD_SERVICE).
  { destruct s as [s|]; [|unfold handle_add; by rewrite E1].
    destruct (Hs s eq_refl) as (n & c & -> & -> & Hn).
    destruct (bio_get_ref_spec _ m1 Hok1) as (h & m2 & E2 & Hok2 & _ & Hh).
    destruct (bio_get_uint32_spec _ m2 Hok2) as (a & m3 & E3 & _).
    eapply answer_safe; [exact Hw|]. by eapply handle_add_spec. }
  destruct (_ =? SVC_MGR_LIST_SERVICES); [|done].
  destruct (bio_get_uint32_spec _ msg Hmsg) as (n & m2 & E2 & _).
  eapply answer_safe; [exact Hw|]. by eapply handle_list_spec.
Qed.

(** Whatever bytes a client's message and offsets hold, the handler of the
    service manager does not fault: it returns 0 or -1, writes only into the area
    of the reply, forgets no message to the driver, and leaves a well-formed list
    of services in which every service that was watched still is. *)
Lemma handler_safe (p : proc) txn reply D M N k :
  svc_wf (u_app p) -> sehandle (u_app p) = Some k -> writer_ok (u_mem p) D M N reply ->
  0 <= td_buffer txn < 2 ^ 64 -> 0 <= td_offsets txn < 2 ^ 64 ->
  0 <= td_data_size txn < 2 ^ 64 -> 0 <= td_offsets_size txn < 2 ^ 64 ->
  mapped (u_mem p) (td_buffer txn) (td_data_size txn) ->
  mapped (u_mem p) (td_offsets txn) (td_offsets_size txn) ->
  safe D M N p reply (svcmgr_handler P p txn (bio_init_from_txn 64 txn) reply).
Proof.
  intros Hwf Hk Hw R1 R2 R3 R4 M1 M2.
  destruct (bio_init_from_txn_reader (u_mem p) txn (wr_bytes _ _ _ _ _ Hw) R1 R2 R3 R4 M1 M2) as [Hmsg _].
  pose proof (refused_safe k D M N p reply Hw Hwf Hk) as Hno. unfold svcmgr_handler.
  destruct (negb _); [done|]. destruct (_ =? PING_TRANSACTION).
  { exists 0, reply, p. split; [done|]. split; [by left|]. split; [done|]. split; [by rewrite Hk|].
    split; [done|]. split; [apply wrote_refl|]. by split. }
  destruct (bio_get_uint32_spec _ _ Hmsg) as (st & m1 & -> & Hok1 & _). cbn [res_bind].
  destruct (read_string16_total p m1 Hok1) as (s & len & m2 & -> & Hok2 & Hs). cbn [res_bind].
  destruct s as [s|]; [|done]. destruct (_ || _); [done|].
  destruct (refresh_spec p k Hk) as (Em & Es & ER & Hwf' & Hk' & _).
  rewrite <- Em in Hw, Hok2. fold (dispatch (refresh_sehandle P p) txn m2 reply).
  destruct (dispatch_safe (current_handle k) D M N _ txn m2 reply (Hwf' Hwf) Hk' Hw Hok2)
    as (r & reply' & p' & H). rewrite Em, Es, ER in H. by exists r, reply', p'.
Qed.

End Refinement.

(** ** Examples *)

Definition sample_policy : policy :=
  Policy (fun _ => Some 1) (fun _ _ _ _ => 0) (fun _ _ => Some 2) 1 (Some 6) (fun uid => uid mod 100000)
    10000 100000 99000 99999.

(** The service "a" is registered with handle 3; one more allocation succeeds. *)
Definition sample_svcmgr : svcmgr :=
  Svcmgr [Svcinfo 20480 3 false 1 [97; 0]] (Some 5) 9 [Some 24576].

Lemma sample_svcmgr_wf : svc_wf sample_svcmgr.
Proof.
  split; simpl; [by apply (bool_decide_unpack _)|by apply NoDup_singleton|].
  apply Forall_singleton. exists [97]. split; [done|]. split; [done|]. split; [done|].
  split; [by repeat constructor|simpl; lia].
Qed.

(** Areas for a message at 4096 and for a reply at 8192. *)
Definition sample_areas : user_memory := write_bytes (sample_memory 4096 256) 8192 (repeat 0 256).

Lemma sample_areas_ok : bytes_ok sample_areas /\ mapped sample_areas 4096 256 /\ mapped sample_areas 8192 256.
Proof.
  destruct (sample_memory_ok 4096 256) as [Hb Hm]. destruct (sample_memory_ok 8192 256) as [_ Hm2].
  split; [|split].
  - apply write_bytes_ok; [done|]. apply Forall_forall. intros x Hx.
    apply list_elem_of_In, repeat_spec in Hx as ->. done.
  - by apply mapped_write.
  - intros x Hx. unfold sample_areas. rewrite write_bytes_lookup, decide_True by (rewrite repeat_length; lia).
    apply lookup_lt_is_Some. rewrite repeat_length. lia.
Qed.

(** A client re-registers "a" with handle 7: what its library writes is served. *)
Lemma svcmgr_handler_refines_witness :
  let q := AddService [97] 7 1 in
  let txn := TransactionData 0 0 SVC_MGR_ADD_SERVICE 0 100 1000 0 0 0 0 in
  exists (p : process svcmgr) msg r, u_app p = sample_svcmgr /\
    reads_back (u_mem p) msg (request_values 0 q) r /\
    answers 6 p (bio_init 64 sample_bio 8192 256 4)
      (0, Some (VUint32 0), [Release 3; Acquire 7; Watch 7 20496],
       Registry [[97]] {[ [97] := Entry 7 false 20496 ]})
      (svcmgr_handler sample_policy p txn msg (bio_init 64 sample_bio 8192 256 4)).
Proof.
  intros q txn. destruct sample_areas_ok as (Hb & Hm & Hm2).
  destruct (bio_init_writer sample_areas sample_bio 4096 256 4 Hb Hm) as [Hw _]; try lia.
  assert (Forall value_ok (request_values 0 q)) as Hv.
  { repeat constructor; simpl; lia. }
  destruct (put_values_spec 4096 256 4 (request_values 0 q) sample_areas _ Hw Hv)
    as (m & w & _ & Hok & (_ & _ & Hsame & _) & Hfit & Hr).
  assert (io_flags w = 0) as Hf by (apply Hfit; vm_compute; discriminate).
  set (msg := BinderIo 4128 4096 224 4 4128 4096 BIO_F_SHARED).
  assert (mapped m 8192 256) as Hm3.
  { intros x Hx. rewrite Hsame by lia. by apply Hm2. }
  destruct Hok as [Hb' Hm' _ _ _ (Hd & Hda & Hav) (_ & Ho & Hoa)].
  pose proof (Hr ltac:(unfold io_has; by rewrite Hf) m msg Hb' Hm' ltac:(by vm_compute)) as Hrb.
  destruct (bio_init_writer m sample_bio 8192 256 4 Hb' Hm3) as [Hwr _]; try lia.
  exists (Process m [] sample_svcmgr), msg. eexists. split; [done|].
  assert (reads_back m msg (request_values 0 q)
            (advance (io_data w - io_data (bio_init 64 sample_bio 4096 256 4)) msg)) as Hback.
  { apply Hrb; [change (io_data (bio_init 64 sample_bio 4096 256 4)) with 4128; simpl; lia|simpl; lia|done|done]. }
  split; [exact Hback|].
  refine (svcmgr_handler_refines sample_policy (Process m [] sample_svcmgr) txn msg _ 5 8192 256 4 0 q _
    sample_svcmgr_wf eq_refl Hwr eq_refl _ Hv Hback).
  by apply list_elem_of_singleton.
Defined.
