(* ===== verification/SvcLoopThms.v ===== *)
(** * SvcLoopThms: the service manager's loop

    The parser of native/binder.c with the handler and the death callback of
    native/service_manager.c: whatever clients send and whenever services die,
    the service manager goes on. *)

From S2P Require Import Prelude Uapi Bio BioThms ParseThms SvcMgr SvcMgrThms.

Section Loop.
Context (P : policy) `{U : BinderUapi} (K : stack) (ptr size : Z).

Notation proc := (process svcmgr).

(** A transaction as the driver delivers it: its data and offsets are mapped. *)
Definition delivered (m : user_memory) (t : transaction_data) : Prop :=
  0 <= td_buffer t < 2 ^ 64 /\ 0 <= td_offsets t < 2 ^ 64 /\
  0 <= td_data_size t < 2 ^ 64 /\ 0 <= td_offsets_size t < 2 ^ 64 /\
  mapped m (td_buffer t) (td_data_size t) /\ mapped m (td_offsets t) (td_offsets_size t).

(** What the driver may return: transactions it delivered, deaths it was asked
    to tell. *)
Definition served_return (p : proc) (r : return_) : Prop :=
  match r with
  | RTransaction t => delivered (u_mem p) t
  | RDead c => watched (registry_of (u_app p)) c
  | _ => True
  end.

(** The stack of the loop: the reply's 256 bytes and the status word lie apart
    from each other's memory and from the read buffer. *)
Definition apart (a n b k : Z) : Prop := a + n <= b \/ b + k <= a.

Definition stack_ok : Prop :=
  0 <= st_rdata K /\ st_rdata K + 256 < 2 ^ 64 /\
  apart (st_rdata K) 256 ptr size /\ apart (st_status K) 4 ptr size.

(** The service manager between two returns. *)
Record manager_ok (rs : list return_) (p : proc) : Prop := {
  mg_list : svc_wf (u_app p);
  mg_handle : is_Some (sehandle (u_app p));
  mg_bytes : bytes_ok (u_mem p);
  mg_reply : mapped (u_mem p) (st_rdata K) 256;
  mg_status : mapped (u_mem p) (st_status K) 4;
  mg_returns : Forall (served_return p) rs
}.

(** Memory stays mapped, and only the reply and the status are written. *)
Definition writes_stack (m m' : user_memory) : Prop :=
  (forall x, is_Some (m !! x) -> is_Some (m' !! x)) /\
  same_bytes m m' ptr size.

Lemma mapped_later m m' a n : writes_stack m m' -> mapped m a n -> mapped m' a n.
Proof. intros [H _] Hm x Hx. apply H, Hm, Hx. Qed.

Lemma manager_later rs (p p' : proc) :
  manager_ok rs p -> svc_wf (u_app p') -> is_Some (sehandle (u_app p')) -> bytes_ok (u_mem p') ->
  writes_stack (u_mem p) (u_mem p') ->
  (forall d, watched (registry_of (u_app p)) d -> watched (registry_of (u_app p')) d) ->
  manager_ok rs p'.
Proof.
  intros [H1 H2 H3 H4 H5 H6] Hwf Hh Hb Hw Hd. split; try done; [by eapply mapped_later..|].
  eapply Forall_impl; [exact H6|]. intros [] Hr; try done; simpl in *; [|by apply Hd].
  destruct Hr as (? & ? & ? & ? & ? & ?). repeat (split; [done|]). split; by eapply mapped_later.
Qed.

(** The reply's writer touches only its area. *)
Lemma wrote_stack m reply m' reply' :
  stack_ok -> writer_ok m (st_rdata K) 256 4 reply -> writer_ok m' (st_rdata K) 256 4 reply' ->
  wrote (st_rdata K) 256 4 m reply m' reply' -> writes_stack m m'.
Proof.
  intros (_ & _ & Ha & _) Hw Hw' (_ & _ & Hs & _).
  destruct Hw as [_ Hm _ _ _ (Hd & _) (Ho & _)], Hw' as [_ Hm' _ _ _ _ _].
  assert (forall x, ~ (st_rdata K <= x < st_rdata K + 256) -> m' !! x = m !! x) as Hout.
  { intros x Hx. apply Hs; lia. }
  split.
  - intros x Hx. destruct (decide (st_rdata K <= x < st_rdata K + 256)); [by apply Hm'|].
    by rewrite Hout.
  - intros x Hx. apply Hout. unfold apart in Ha. lia.
Qed.

Lemma status_stack m w : stack_ok -> writes_stack m (write_bytes m (st_status K) (le_encode 4 w)).
Proof.
  intros (_ & _ & _ & Ha). split; [intros x; apply write_bytes_is_Some|].
  intros x Hx. unfold apart in Ha. rewrite write_bytes_lookup, decide_False; [done|].
  rewrite length_le_encode. lia.
Qed.

Lemma writes_stack_trans m1 m2 m3 : writes_stack m1 m2 -> writes_stack m2 m3 -> writes_stack m1 m3.
Proof.
  intros [A1 A2] [B1 B2]. split; [auto|]. intros x Hx. by rewrite B2, A2.
Qed.

Lemma writes_stack_refl m : writes_stack m m.
Proof. split; [done|by intros x _]. Qed.

(** One transaction. *)
Lemma serve_ok rs (p : proc) t :
  stack_ok -> manager_ok rs p -> RTransaction t ∈ rs ->
  exists p', serve 64 K p (svcmgr_handler P) t = Ret p' /\ manager_ok rs p' /\
    writes_stack (u_mem p) (u_mem p').
Proof.
  intros HK Hp Hin. assert (Hp' := Hp). destruct Hp' as [Hwf [k Hk] Hb Hr Hs Hrs].
  rewrite Forall_forall in Hrs. destruct (Hrs _ Hin) as (R1 & R2 & R3 & R4 & M1 & M2).
  assert (HK' := HK). destruct HK' as (K1 & K2 & _).
  destruct (bio_init_writer (u_mem p) (st_reply K) (st_rdata K) 256 4 Hb Hr K1 K2) as [Hw _]; try lia.
  destruct (handler_safe P p t _ (st_rdata K) 256 4 k Hwf Hk Hw R1 R2 R3 R4 M1 M2)
    as (r & reply & p1 & E & _ & Hwf1 & Hk1 & Hw1 & Hwr & _ & Hd1).
  pose proof (wrote_stack _ _ _ _ HK Hw Hw1 Hwr) as Hst.
  pose proof (manager_later rs p p1 Hp Hwf1 Hk1 (wr_bytes _ _ _ _ _ Hw1) Hst Hd1) as Hp1.
  unfold serve. rewrite E. cbn [res_bind]. destruct (negb _).
  - exists (binder_free_buffer p1 (td_buffer t)). split; [done|]. split; [|exact Hst].
    by destruct Hp1; split.
  - unfold binder_send_reply. rewrite store_mapped by (rewrite length_le_encode; apply Hp1).
    cbn [res_bind]. eexists. split; [reflexivity|].
    pose proof (status_stack (u_mem p1) (u32 r) HK) as Hst2. split.
    + apply (manager_later rs p1); try done; [apply Hp1..|].
      apply write_bytes_ok; [apply Hp1|apply le_encode_bytes].
    + exact (writes_stack_trans _ _ _ Hst Hst2).
Qed.

(** One death. *)
Lemma death_ok rs (p : proc) c :
  manager_ok rs p -> RDead c ∈ rs ->
  exists p', svcmgr_death c p = Ret p' /\ manager_ok rs p' /\ writes_stack (u_mem p) (u_mem p').
Proof.
  intros Hp Hin. assert (Hp' := Hp). destruct Hp' as [Hwf Hk Hb _ _ Hrs].
  rewrite Forall_forall in Hrs. destruct (Hrs _ Hin) as (n & e & He & Hd).
  apply entries_lookup in He as (si & Hsi & _ & <-); [|apply Hwf]. unfold svcmgr_death.
  destruct (find _ (svclist (u_app p))) as [si'|] eqn:Ef.
  2:{ pose proof (find_none _ _ Ef si (proj1 (list_elem_of_In _ _) Hsi)) as H. simpl in H, Hd.
      by rewrite Hd, Z.eqb_refl in H. }
  apply find_some in Ef as [Hin' _]. apply list_elem_of_In in Hin'.
  pose proof (svcinfo_death_spec p si' Hwf Hin') as H.
  destruct (reg_died (registry_of (u_app p)) (si_key si')) as [es R] eqn:Er.
  destruct H as (Em & _ & ER & Hwf' & Eh & _). eexists. split; [reflexivity|]. rewrite Em.
  split; [|apply writes_stack_refl]. apply (manager_later rs p); rewrite ?Em, ?Eh, ?ER; try done.
  unfold reg_died in Er. destruct (r_entries _ !! si_key si') as [e'|] eqn:Ee; [|by injection Er as _ <-].
  destruct (e_handle e' =? 0); injection Er as _ <-; [done|].
  by apply (watched_insert (registry_of (u_app p)) _ e' (set_e_handle 0 e')).
Qed.

Lemma served_keeps rs :
  stack_ok -> keeps_buffer K (Some (svcmgr_handler P)) svcmgr_death false ptr size (manager_ok rs) rs.
Proof.
  intros HK. apply keeps_buffer_intro.
  - intros f t p p' [= <-] Hin Hp E. destruct (serve_ok rs p t HK Hp Hin) as (p1 & E1 & H1 & _ & H2).
    rewrite E in E1. injection E1 as ->. done.
  - intros c p p' Hin Hp E. destruct (death_ok rs p c Hp Hin) as (p1 & E1 & H1 & _ & H2).
    rewrite E in E1. injection E1 as ->. done.
Qed.

Lemma carry_out_all_ok rs0 rs : forall k p,
  stack_ok -> manager_ok rs0 p -> (forall r, r ∈ rs -> r ∈ rs0) ->
  exists k' p', carry_out_all K (Some (svcmgr_handler P)) svcmgr_death false (k, None, p) rs =
    Ret (k', None, p') /\ manager_ok rs0 p' /\ writes_stack (u_mem p) (u_mem p').
Proof.
  induction rs as [|r rs IH]; intros k p HK Hp Hin.
  { exists k, p. split; [done|]. split; [done|apply writes_stack_refl]. }
  cbn [carry_out_all].
  assert (exists k1 p1, carry_out K (Some (svcmgr_handler P)) svcmgr_death false (k, None, p) r =
    Ret (k1, None, p1) /\ manager_ok rs0 p1 /\ writes_stack (u_mem p) (u_mem p1))
    as (k1 & p1 & -> & Hp1 & Hw1).
  { pose proof (Hin r (list_elem_of_here _ _)) as Hr. pose proof (writes_stack_refl (u_mem p)).
    destruct r; cbn [carry_out andb]; try by eexists _, p.
    - destruct (serve_ok rs0 p t HK Hp Hr) as (p1 & -> & H1 & H2). by exists k, p1.
    - destruct (death_ok rs0 p cookie Hp Hr) as (p1 & -> & H1 & H2). by exists k, p1. }
  cbn [res_bind]. destruct (IH k1 p1 HK Hp1) as (k' & p' & E & Hp' & Hw').
  { intros r' Hr'. apply Hin. by apply list_elem_of_further. }
  exists k', p'. split; [done|]. split; [done|]. by eapply writes_stack_trans.
Qed.

(** The result [binder_parse] takes from a return: only a reply and a failure
    have one. *)
Definition return_result (r : return_) : option Z :=
  match r with RReply _ => Some 0 | RFailed _ => Some (-1) | _ => None end.

(** The result of all of them: the last that there is, and 1 without one. *)
Definition returns_result (rs : list return_) : Z := default 1 (last (omap return_result rs)).

Lemma carry_out_result f death w k bio (p : proc) r k' bio' p' :
  carry_out K f death w (k, bio, p) r = Ret (k', bio', p') -> k' = default k (return_result r).
Proof.
  destruct r; cbn [carry_out return_result default]; try (by intros [= <- _ _]).
  - destruct f as [f|]; [destruct (serve 64 K p f t); [|done]|]; by intros [= <- _ _].
  - destruct (death cookie p); [|done]. by intros [= <- _ _].
Qed.

Lemma carry_out_all_result f death w rs : forall k bio (p : proc) k' bio' p',
  carry_out_all K f death w (k, bio, p) rs = Ret (k', bio', p') ->
  k' = default k (last (omap return_result rs)).
Proof.
  induction rs as [|r rs IH]; intros k bio p k' bio' p'; [by intros [= <- _ _]|]. cbn [carry_out_all].
  destruct (carry_out _ _ _ _ _ _) as [[[k1 bio1] p1]|] eqn:E; cbn [res_bind]; [|done].
  intros H. apply IH in H as ->. apply carry_out_result in E as ->. cbn [omap list_omap].
  destruct (return_result r) as [v|]; cbn [default]; [|done].
  rewrite last_cons. by destruct (last (omap return_result rs)).
Qed.

(** The loop goes on exactly when there is none. *)
Lemma returns_result_pos rs : returns_result rs <= 0 <-> Exists (fun r => is_Some (return_result r)) rs.
Proof.
  assert (Forall (fun v => v <= 0) (omap return_result rs)) as Hneg.
  { apply Forall_forall. intros v (r & _ & E)%list_elem_of_omap. destruct r; simplify_eq/=; lia. }
  unfold returns_result. rewrite Exists_exists. destruct (last (omap return_result rs)) as [v|] eqn:E; simpl.
  - apply last_Some_elem_of in E. split.
    + intros _. apply list_elem_of_omap in E as (r & Hr & Ev). exists r. split; [done|by eexists].
    + intros _. rewrite Forall_forall in Hneg. by apply Hneg.
  - apply last_None in E. split; [lia|]. intros (r & Hr & v & Ev).
    assert (v ∈ omap return_result rs) as Hv by (apply list_elem_of_omap; eauto).
    rewrite E in Hv. by apply not_elem_of_nil in Hv.
Qed.

(** One read buffer. *)
Lemma buffer_served rs (p : proc) :
  stack_ok -> manager_ok rs p -> Forall return_ok rs -> holds (u_mem p) ptr (returns_bytes rs) ->
  0 <= ptr -> Z.of_nat (length (returns_bytes rs)) = size -> ptr + size < 2 ^ 64 ->
  exists k p', binder_parse 64 K p (Some (svcmgr_handler P)) svcmgr_death false ptr size =
    Ret (k, None, p') /\ manager_ok rs p' /\ writes_stack (u_mem p) (u_mem p') /\
    k = returns_result rs.
Proof.
  intros HK Hp Hr Hm Hptr Hl Hlt. destruct (carry_out_all_ok rs rs 1 p HK Hp (fun _ H => H)) as (k & p' & E & Hp' & Hw).
  exists k, p'. split; [|do 2 (split; [done|]); by apply carry_out_all_result in E as ->]. rewrite <- E. unfold binder_parse, usize. rewrite Z.mod_small by lia.
  apply (parse_loop_returns K _ _ _ ptr size (manager_ok rs)); try done; try lia. by apply served_keeps.
Qed.

(** C23: the service manager survives its clients.  Whatever bytes the transactions
    in the read buffer carry, and whichever watched services have died,
    [binder_parse] with the service manager's handler and death callback carries
    out every return without a fault: the list of services is well formed
    afterwards, every service that was watched still is, and only the reply and
    the status on the stack have been written. *)
Theorem svcmgr_loop_safe rs (p : proc) :
  stack_ok -> manager_ok rs p -> Forall return_ok rs -> holds (u_mem p) ptr (returns_bytes rs) ->
  0 <= ptr -> Z.of_nat (length (returns_bytes rs)) = size -> ptr + size < 2 ^ 64 ->
  exists k p', binder_parse 64 K p (Some (svcmgr_handler P)) svcmgr_death false ptr size =
    Ret (k, None, p') /\ manager_ok rs p'.
Proof.
  intros HK Hp Hr Hm Hptr Hl Hlt.
  destruct (buffer_served rs p HK Hp Hr Hm Hptr Hl Hlt) as (k & p' & E & Hp' & _). by exists k, p'.
Qed.

End Loop.

(** ** Example *)

(** The read buffer is at 512, a message at 4096, the reply at 8192 and the status
    at 8704.  A client's message is all zeros; then the service "a" dies. *)
Definition sample_loop_returns : list return_ :=
  [RNothing BR_NOOP;
   RTransaction (TransactionData 0 0 SVC_MGR_ADD_SERVICE 0 100 1000 64 16 4096 4160);
   RDead 20496].

Definition sample_loop_stack : stack := Stack sample_txn 8192 8704 sample_bio sample_bio.

Definition sample_loop_memory : user_memory :=
  write_bytes (write_bytes sample_areas 8704 [0; 0; 0; 0]) 512 (returns_bytes sample_loop_returns).

Lemma svcmgr_loop_safe_witness :
  exists k p', binder_parse 64 sample_loop_stack (Process sample_loop_memory [] sample_svcmgr)
    (Some (svcmgr_handler sample_policy)) svcmgr_death false 512 84 = Ret (k, None, p') /\
    svc_wf (u_app p').
Proof.
  destruct sample_areas_ok as (Hb & Hm & Hm2).
  set (p := Process sample_loop_memory [] sample_svcmgr).
  assert (bytes_ok (u_mem p)) as Hb'.
  { apply write_bytes_ok; [by apply write_bytes_ok; [|repeat constructor]|].
    apply (bool_decide_unpack _). by vm_compute. }
  assert (mapped (u_mem p) 4096 256) as M1 by by apply mapped_write, mapped_write.
  assert (mapped (u_mem p) 8192 256) as M2 by by apply mapped_write, mapped_write.
  assert (mapped (u_mem p) 8704 4) as M3.
  { apply mapped_write. intros x Hx. rewrite write_bytes_lookup, decide_True by (simpl; lia).
    apply lookup_lt_is_Some. simpl. lia. }
  destruct (svcmgr_loop_safe sample_policy sample_loop_stack 512 84 sample_loop_returns p)
    as (k & p' & E & Hp').
  - unfold stack_ok, apart. simpl. lia.
  - split; [exact sample_svcmgr_wf|by eexists|exact Hb'|exact M2|exact M3|].
    apply Forall_cons; split; [exact I|]. apply Forall_cons; split.
    + cbn [served_return]. unfold delivered. cbn [td_buffer td_offsets td_data_size td_offsets_size].
      do 4 (split; [lia|]). split; apply (mapped_sub _ _ _ _ _ M1); lia.
    + apply Forall_singleton. exists [97], (Entry 3 false 20496). split; [by vm_compute|done].
  - apply Forall_cons; split; [apply list_elem_of_here|]. apply Forall_cons; split; [by vm_compute|].
    apply Forall_singleton. simpl. lia.
  - apply holds_written.
  - lia.
  - by vm_compute.
  - lia.
  - exists k, p'. exact (conj E (mg_list _ _ _ Hp')).
Defined.
