(* ===== verification/SvcMain.v ===== *)
(** * SvcMain: opening the driver, and the start of the service manager

    Models the part of native/binder.c that makes and takes down the connection
    with the driver, and [main] and [audit_callback] of native/service_manager.c.
    What the system calls and SELinux answer is a parameter; what they give the
    process is in its state: descriptors, mappings, the heap. *)

From Stdlib Require Import Ascii.
From Stdlib Require Strings.String.
From stdpp Require Import pretty.
From S2P Require Import Prelude Uapi Bio SvcMgr.

(** What the kernel and the C library answer. *)
Record os := Os {
  os_malloc : option Z;
  (** A descriptor, or -1. *)
  os_open : list Z -> Z;
  (** The result of the ioctl and the version. *)
  os_version : Z -> Z * Z;
  (** [None] is MAP_FAILED. *)
  os_mmap : Z -> Z -> option Z;
  os_set_context_mgr : Z -> Z;
  (** [getcon]'s context, if it finds one. *)
  os_getcon : option Z;
  os_service_context_handle : option Z
}.

Inductive selinux_call : Type :=
| SetAuditCallback
| SetLogCallback
| StatusOpen (fallback : bool).

(** What the process holds. *)
Record os_state := OsState {
  h_fds : gset Z;
  h_maps : gmap Z Z;
  h_heap : gset Z;
  h_selinux : list selinux_call
}.

Definition open_fd (fd : Z) (h : os_state) : os_state :=
  OsState ({[fd]} ∪ h_fds h) (h_maps h) (h_heap h) (h_selinux h).
Definition close_fd (fd : Z) (h : os_state) : os_state :=
  OsState (h_fds h ∖ {[fd]}) (h_maps h) (h_heap h) (h_selinux h).
Definition map_at (a size : Z) (h : os_state) : os_state :=
  OsState (h_fds h) (<[a := size]> (h_maps h)) (h_heap h) (h_selinux h).
Definition unmap (a : Z) (h : os_state) : os_state :=
  OsState (h_fds h) (delete a (h_maps h)) (h_heap h) (h_selinux h).
Definition take_block (a : Z) (h : os_state) : os_state :=
  OsState (h_fds h) (h_maps h) ({[a]} ∪ h_heap h) (h_selinux h).
Definition free_block (a : Z) (h : os_state) : os_state :=
  OsState (h_fds h) (h_maps h) (h_heap h ∖ {[a]}) (h_selinux h).
Definition selinux (c : selinux_call) (h : os_state) : os_state :=
  OsState (h_fds h) (h_maps h) (h_heap h) (h_selinux h ++ [c]).

(** [struct binder_state], with its address. *)
Record binder_state := BinderState {
  bs_addr : Z;
  bs_fd : Z;
  bs_mapped : Z;
  bs_mapsize : Z
}.

Section Driver.
Context `{U : BinderUapi} (K : os).

(** A version that does not fit ends like a failed [open]: the descriptor stays
    open. *)
Definition binder_open (driver : list Z) (mapsize : Z) (h : os_state)
    : option binder_state * os_state :=
  match os_malloc K with
  | None => (None, h)
  | Some bs =>
      let h := take_block bs h in
      let fail_open h := (None, free_block bs h) in
      let fd := os_open K driver in
      if fd <? 0 then fail_open h
      else
        let h := open_fd fd h in
        let '(r, protocol_version) := os_version K fd in
        if (r =? -1) || negb (protocol_version =? BINDER_CURRENT_PROTOCOL_VERSION)
        then fail_open h
        else
          match os_mmap K mapsize fd with
          | None => fail_open (close_fd fd h)
          | Some mapped => (Some (BinderState bs fd mapped mapsize), map_at mapped mapsize h)
          end
  end.

Definition binder_close (bs : binder_state) (h : os_state) : os_state :=
  free_block (bs_addr bs) (close_fd (bs_fd bs) (unmap (bs_mapped bs) h)).

Definition binder_become_context_manager (bs : binder_state) : Z :=
  os_set_context_mgr K (bs_fd bs).

(** ** The start *)

(** [struct audit_data]. *)
Record audit_data := AuditData {
  ad_pid : Z;
  ad_uid : Z;
  ad_name : option (list Z)
}.

Definition chars (s : string) : list Z := map (fun c => Z.of_N (N_of_ascii c)) (Strings.String.list_ascii_of_string s).

(** [snprintf]: what fits, and a zero behind it; nothing when [len] is 0. *)
Definition snprintf (len : nat) (text : list Z) : list Z :=
  match len with O => [] | S n => take n text ++ [0] end.

(** The result, and what is written to [buf], if anything. *)
Definition audit_callback (data : option audit_data) (len : nat) : Z * option (list Z) :=
  match data with
  | Some ad =>
      match ad_name ad with
      | Some name =>
          (0, Some (snprintf len (chars "service=" ++ name ++ chars " pid=" ++
                 chars (pretty (i32 (ad_pid ad))) ++ chars " uid=" ++ chars (pretty (i32 (ad_uid ad))))))
      | None => (0, None)
      end
  | None => (0, None)
  end.

(** How [main] ends. *)
Inductive main_end (A : Type) : Type :=
| MainReturns (status : Z) (p : process A)
| MainSleeps
| MainAborts
(** The last answer of the driver was served; the thread waits for the next. *)
| MainWaits (p : process A).
#[global] Arguments MainReturns {A}.
#[global] Arguments MainSleeps {A}.
#[global] Arguments MainAborts {A}.
#[global] Arguments MainWaits {A}.

Definition dev_binder : list Z := chars "/dev/binder".

(** [vendor] is VENDORSERVICEMANAGER; [st], [answers] and [readbuf] are what
    [binder_loop] finds. *)
Definition svcmgr_main (vendor : bool) (P : policy) (argv : list (list Z)) (mallocs : list (option Z))
    (st : stack) (m : user_memory) (answers : driver_answers) (readbuf : Z) (h : os_state)
    : res (main_end svcmgr * os_state) :=
  let p0 := Process m [] (Svcmgr [] None 0 mallocs) in
  let driver := match argv with _ :: d :: _ => d | _ => dev_binder end in
  let '(bs, h) := binder_open driver (128 * 1024) h in
  match bs with
  | None => Ret (if vendor then MainSleeps else MainReturns (-1) p0, h)
  | Some bs =>
      if negb (binder_become_context_manager bs =? 0) then Ret (MainReturns (-1) p0, h)
      else
        let h := selinux (StatusOpen true) (selinux SetLogCallback (selinux SetAuditCallback h)) in
        match os_service_context_handle K with
        | None => Ret (MainAborts, h)
        | Some sehandle =>
            match os_getcon K with
            | None => Ret (MainAborts, h)
            | Some context =>
                let p := Process m [] (Svcmgr [] (Some sehandle) context mallocs) in
                let! '(ended, p) := binder_loop 64 st p answers readbuf svcmgr_death (svcmgr_handler P) in
                Ret (if ended : bool then MainReturns 0 p else MainWaits p, h)
            end
        end
  end.

End Driver.
