(* ===== verification/SvcMainThms.v ===== *)
(** * SvcMainThms: the service manager from its start

    What opening and closing the driver leaves in the process, what the audit
    callback writes, and that the service manager serves whatever a fair driver
    delivers until the driver fails. *)

From S2P Require Import Prelude Uapi Bio BioThms ParseThms SvcMgr SvcMgrThms SvcLoopThms SvcMain.

Section Open.
Context `{U : BinderUapi} (K : os).

(** The kernel gives what is not in use. *)
Record fresh_answers (driver : list Z) (mapsize : Z) (h : os_state) : Prop := {
  fa_block a : os_malloc K = Some a -> a ∉ h_heap h;
  fa_fd : 0 <= os_open K driver -> os_open K driver ∉ h_fds h;
  fa_map fd m : os_mmap K mapsize fd = Some m -> h_maps h !! m = None
}.

(** The version test of [binder_open] fails. *)
Definition version_refused (driver : list Z) : bool :=
  bool_decide (is_Some (os_malloc K)) && (0 <=? os_open K driver) &&
  (((os_version K (os_open K driver)).1 =? -1) ||
   negb ((os_version K (os_open K driver)).2 =? BINDER_CURRENT_PROTOCOL_VERSION)).

(** C30: what [binder_open] gives [binder_close] takes back: the process then holds
    what it held before.  A failure leaves no block and no mapping, and no
    descriptor either, unless the driver's version was refused: then its
    descriptor stays open. *)
Theorem binder_open_close driver mapsize h bs h' :
  fresh_answers driver mapsize h -> binder_open K driver mapsize h = (bs, h') ->
  match bs with
  | Some bs =>
      bs_mapsize bs = mapsize /\ bs_fd bs ∈ h_fds h' /\ h_maps h' !! bs_mapped bs = Some mapsize /\
      version_refused driver = false /\ binder_close bs h' = h
  | None => h' = if version_refused driver then open_fd (os_open K driver) h else h
  end.
Proof.
  intros [Fb Ff Fm]. unfold binder_open, version_refused.
  destruct (os_malloc K) as [a|] eqn:Em; [|by intros [= <- <-]]. specialize (Fb a eq_refl).
  rewrite bool_decide_eq_true_2 by (by eexists). cbn [andb].
  assert (forall h0, h_heap h0 = h_heap h -> free_block a (take_block a h0) = h0) as Hfree.
  { intros [f m b l] E. simpl in E. unfold free_block, take_block. simpl. f_equal. set_solver. }
  destruct (Z.ltb_spec (os_open K driver) 0) as [L|L].
  { intros [= <- <-]. rewrite (proj2 (Z.leb_gt _ _)) by lia. by apply Hfree. }
  rewrite (proj2 (Z.leb_le _ _)) by lia. specialize (Ff L). cbn [andb].
  destruct (os_version K (os_open K driver)) as [r v]. cbn [fst snd].
  destruct ((r =? -1) || _).
  { intros [= <- <-]. apply (Hfree (open_fd _ h)). done. }
  destruct (os_mmap K mapsize (os_open K driver)) as [m|] eqn:Emm.
  - intros [= <- <-]. cbn [bs_mapsize bs_fd bs_mapped]. specialize (Fm _ m Emm).
    split; [done|]. split; [simpl; set_solver|]. split; [apply lookup_insert_eq|]. split; [done|].
    unfold binder_close. cbn [bs_addr bs_fd bs_mapped].
    assert (unmap m (map_at m mapsize (open_fd (os_open K driver) (take_block a h))) =
      open_fd (os_open K driver) (take_block a h)) as ->.
    { unfold unmap, map_at. simpl. rewrite delete_insert_id by done. done. }
    destruct h as [f mm b l]. unfold free_block, close_fd, open_fd, take_block. simpl in *.
    f_equal; set_solver.
  - intros [= <- <-]. destruct h as [f mm b l]. unfold free_block, close_fd, open_fd, take_block.
    simpl in *. f_equal; set_solver.
Qed.

End Open.

(** The text fits, with its terminating zero, in the buffer SELinux gives. *)
Lemma audit_callback_fits data n : (0 < n)%nat ->
  (audit_callback data n).1 = 0 /\
  forall l, (audit_callback data n).2 = Some l -> (length l <= n)%nat /\ last l = Some 0.
Proof.
  intros Hn. unfold audit_callback. destruct data as [[pid uid [name|]]|]; simpl; try done.
  split; [done|]. intros l [= <-]. destruct n as [|n]; [lia|]. unfold snprintf.
  rewrite length_app, length_take, last_snoc. simpl. split; [lia|done].
Qed.

(** ** The loop *)

Section Loop.
Context (P : policy) `{U : BinderUapi} (K : stack) (readbuf : Z).

Notation proc := (process svcmgr).

(** [readbuf] holds 32 words; it and the rest of the stack are apart. *)
Definition loop_stack : Prop :=
  stack_ok K readbuf 128 /\ 0 <= readbuf /\ readbuf + 128 < 2 ^ 64.

(** What the driver may answer to a read in this state of the process, and after
    what the process does with it: an error, or returns that fit in the buffer,
    with transactions it has delivered and deaths it was asked to tell. *)
Inductive fair : proc -> driver_answers -> Prop :=
| fair_end p : fair p []
| fair_error p r bytes l : r < 0 -> fair p ((r, bytes) :: l)
| fair_returns p r rs l : 0 <= r ->
    Forall return_ok rs -> Forall byte_ok (returns_bytes rs) ->
    (length (returns_bytes rs) <= 128)%nat -> Forall (served_return p) rs ->
    (forall k b p', binder_parse 64 K
       (set_u_mem (write_bytes (u_mem p) readbuf (returns_bytes rs)) p) (Some (svcmgr_handler P))
       svcmgr_death false readbuf (Z.of_nat (length (returns_bytes rs))) = Ret (k, b, p') -> fair p' l) ->
    fair p ((r, returns_bytes rs) :: l).

(** The service manager between two reads. *)
Definition manager_waits (p : proc) : Prop :=
  manager_ok K [] p /\ mapped (u_mem p) readbuf 128.

Lemma stack_part n : loop_stack -> 0 <= n <= 128 -> stack_ok K readbuf n.
Proof. intros [(H1 & H2 & H3 & H4) _] Hn. unfold stack_ok, apart in *. lia. Qed.

Lemma served_written p l rs : Forall (served_return p) rs ->
  Forall (served_return (set_u_mem (write_bytes (u_mem p) readbuf l) p)) rs.
Proof.
  intros H. eapply Forall_impl; [exact H|]. intros [] Hr; try done. simpl in *.
  destruct Hr as (? & ? & ? & ? & ? & ?). repeat (split; [done|]). split; by apply mapped_write.
Qed.

(** An answer after which the loop goes on: returns, none of them a reply or a
    failure. *)
Definition goes_on (answer : Z * list Z) : Prop :=
  0 <= answer.1 /\ (length answer.2 <= 128)%nat /\
  exists rs, answer.2 = returns_bytes rs /\ Forall return_ok rs /\
    Forall (fun r => return_result r = None) rs.

(** An answer that ends it: the read fails, or among the returns is a reply,
    which the service manager never waits for, or a failure. *)
Definition ends_loop (answer : Z * list Z) : Prop :=
  answer.1 < 0 \/
  exists rs, answer.2 = returns_bytes rs /\ Forall return_ok rs /\
    Exists (fun r => is_Some (return_result r)) rs.

(** The first answer that does not let the loop go on ends it. *)
Definition driver_ended (answers : driver_answers) : Prop :=
  exists before answer after, answers = before ++ answer :: after /\ Forall goes_on before /\
    ends_loop answer.

(** The result does not depend on how the bytes are read as returns. *)
Lemma returns_result_unique rs rs' :
  Forall return_ok rs -> Forall return_ok rs' -> returns_bytes rs = returns_bytes rs' ->
  Z.of_nat (length (returns_bytes rs)) < 2 ^ 64 -> returns_result rs = returns_result rs'.
Proof.
  intros H1 H2 Eb Hl. set (death := fun (_ : Z) (p : process unit) => Ret p).
  set (p := Process (write_bytes ∅ 0 (returns_bytes rs)) [] tt).
  assert (forall l, keeps_buffer K None death false 0 (Z.of_nat (length (returns_bytes rs))) (fun _ => True) l)
    as Hk by (intros l; apply keeps_buffer_intro; [done|by intros c q q' _ _ [= <-]]).
  assert (forall l, exists q, carry_out_all K None death false (1, None, p) l = Ret (returns_result l, None, q)) as Hc.
  { intros l. unfold returns_result. generalize 1, p. induction l as [|r l IH]; intros k q; [by exists q|].
    cbn [carry_out_all]. assert (carry_out K None death false (k, None, q) r =
      Ret (default k (return_result r), None, q)) as -> by by destruct r.
    cbn [res_bind omap list_omap]. destruct (IH (default k (return_result r)) q) as [q' E]. exists q'. rewrite E.
    destruct (return_result r); [|done]. rewrite last_cons. by destruct (last (omap return_result l)). }
  destruct (Hc rs) as [q Eq], (Hc rs') as [q' Eq'].
  pose proof (parse_loop_returns K None death false 0 (Z.of_nat (length (returns_bytes rs))) (fun _ => True)) as HL.
  rewrite <- (HL rs (length (returns_bytes rs)) p 1 None 0) in Eq; try done; try lia; [|apply holds_written].
  rewrite <- (HL rs' (length (returns_bytes rs)) p 1 None 0) in Eq'; try done; try lia;
    [|rewrite <- Eb; apply holds_written|by rewrite <- Eb|by rewrite <- Eb].
  rewrite Eq in Eq'. by injection Eq'.
Qed.

(** No driver does both. *)
Lemma goes_on_not_ended answers : Forall goes_on answers -> ~ driver_ended answers.
Proof.
  intros Hall (l1 & a & l2 & -> & _ & He). apply Forall_app in Hall as [_ Hall].
  apply Forall_cons in Hall as [(Hr & Hl & rs & Ers & Hok & Hnone) _].
  destruct He as [?|(rs' & Ers' & Hok' & Hex)]; [lia|]. rewrite Ers in Ers', Hl.
  apply returns_result_pos in Hex. rewrite <- (returns_result_unique rs rs') in Hex by (done || lia).
  apply returns_result_pos, Exists_exists in Hex as (r & Hin & [v Hv]).
  rewrite Forall_forall in Hnone. by rewrite (Hnone r Hin) in Hv.
Qed.

Lemma loop_runs p answers : loop_stack -> manager_waits p -> fair p answers ->
  exists ended p', loop_answers 64 K p answers readbuf svcmgr_death (svcmgr_handler P) = Ret (ended, p') /\
    manager_waits p' /\ if ended : bool then driver_ended answers else Forall goes_on answers.
Proof.
  intros HK Hp Hf. induction Hf as [p|p r bytes l Hr|p r rs l Hr Hrs Hb Hl Hs Hnext IH].
  - by exists false, p.
  - exists true, p. cbn [loop_answers]. rewrite (proj2 (Z.ltb_lt _ _) Hr). do 2 (split; [done|]).
    exists [], (r, bytes), l. split; [done|]. split; [constructor|by left].
  - cbn [loop_answers]. rewrite (proj2 (Z.ltb_ge _ _)) by lia. destruct Hp as [Hp Hm].
    set (n := Z.of_nat (length (returns_bytes rs))) in *.
    rewrite store_mapped by (apply (mapped_sub _ _ _ _ _ Hm); lia). cbn [res_bind].
    set (p1 := set_u_mem _ p) in *.
    assert (manager_ok K rs p1) as Hp1.
    { destruct Hp as [G1 G2 G3 G4 G5 _]. split; simpl; try done; [by apply write_bytes_ok|by apply mapped_write..|].
      by apply served_written. }
    destruct (buffer_served P K readbuf n rs p1) as (k & p2 & E & Hp2 & Hw & Hk); try done.
    + apply stack_part; [done|lia].
    + apply holds_written.
    + apply HK.
    + destruct HK as (_ & _ & ?). lia.
    + rewrite E. cbn [res_bind].
      assert (manager_waits p2) as Hw2.
      { split; [by destruct Hp2; split|]. apply (mapped_later _ _ _ _ _ _ Hw). by apply mapped_write. }
      pose proof (returns_result_pos rs) as Hres. rewrite <- Hk in Hres.
      destruct (Z.leb_spec k 0) as [Hneg|Hpos].
      * exists true, p2. do 2 (split; [done|]). exists [], (r, returns_bytes rs), l.
        split; [done|]. split; [constructor|]. right. exists rs. by rewrite <- Hres.
      * assert (goes_on (r, returns_bytes rs)) as Hgo.
        { do 2 (split; [done|]). exists rs. do 2 (split; [done|]). apply Forall_forall. intros r0 Hr0.
          destruct (return_result r0) eqn:Er; [|done]. assert (k <= 0) by (apply Hres, Exists_exists; eauto). lia. }
        destruct (IH k None p2 E Hw2) as (ended & p' & E' & Hp' & Hend). exists ended, p'.
        do 2 (split; [done|]). destruct ended; [|by constructor].
        destruct Hend as (l1 & a & l2 & -> & H1 & H2).
        exists ((r, returns_bytes rs) :: l1), a, l2. split; [done|]. split; [by constructor|done].
Qed.

End Loop.

(** ** The program *)

(** What the kernel and SELinux answer decides how [main] starts. *)
Section Start.
Context `{U : BinderUapi} (O : os) (driver : list Z).

(** There is memory for the connection, the driver opens, has the version the
    program was built for, and its memory can be mapped. *)
Definition driver_opens : Prop :=
  is_Some (os_malloc O) /\ 0 <= os_open O driver /\
  (os_version O (os_open O driver)).1 <> -1 /\
  (os_version O (os_open O driver)).2 = BINDER_CURRENT_PROTOCOL_VERSION /\
  is_Some (os_mmap O (128 * 1024) (os_open O driver)).

(** The driver takes the process as its context manager. *)
Definition becomes_manager : Prop := os_set_context_mgr O (os_open O driver) = 0.

Definition selinux_answers : Prop :=
  is_Some (os_service_context_handle O) /\ is_Some (os_getcon O).

Lemma binder_open_opens h bs h' : binder_open O driver (128 * 1024) h = (bs, h') ->
  h_selinux h' = h_selinux h /\
  match bs with
  | Some bs => driver_opens /\ bs_fd bs = os_open O driver
  | None => ~ driver_opens
  end.
Proof.
  unfold binder_open, driver_opens.
  destruct (os_malloc O) as [a|]; [|by intros [= <- <-]; split; [|intros ([? [=]] & _)]].
  destruct (Z.ltb_spec (os_open O driver) 0); [intros [= <- <-]; split; [done|lia]|].
  destruct (os_version O (os_open O driver)) as [r v]. cbn [fst snd].
  destruct (Z.eqb_spec r (-1)) as [|Hr]; [intros [= <- <-]; by split; [|intros (_ & _ & ? & _)]|].
  destruct (Z.eqb_spec v BINDER_CURRENT_PROTOCOL_VERSION) as [|Hv]; cbn [negb orb];
    [|intros [= <- <-]; by split; [|intros (_ & _ & _ & ? & _)]].
  destruct (os_mmap O (128 * 1024) _) as [mapped|];
    [|intros [= <- <-]; split; [done|by intros (_ & _ & _ & _ & [? [=]])]].
  intros [= <- <-]. split; [done|]. split; [|done]. by repeat split; try eexists.
Qed.

End Start.

(** C11: the service manager from its start.  On whatever a fair driver delivers
    it never faults, and how it ends is decided by what it was answered.  When the
    driver cannot be opened it returns -1 having sent nothing, or sleeps if it is
    the vendor's; when the driver opened but has a context manager it returns -1;
    when SELinux then gives no handle or no context it aborts.  Otherwise it
    serves: it returns 0 exactly when the driver ended the loop, by failing or by
    a reply that nobody asked for, and else waits for the next answer, its list of
    services well formed. *)
Theorem svcmgr_main_safe `{U : BinderUapi} (O : os) (P : policy) vendor argv mallocs K m answers readbuf h :
  loop_stack K readbuf -> bytes_ok m -> mapped m readbuf 128 -> mapped m (st_rdata K) 256 ->
  mapped m (st_status K) 4 ->
  NoDup (omap id mallocs) ->
  (forall handle context,
     fair P K readbuf (Process m [le_encode 4 BC_ENTER_LOOPER] (Svcmgr [] (Some handle) context mallocs))
       answers) ->
  let driver := match argv with _ :: d :: _ => d | _ => dev_binder end in
  exists e h', svcmgr_main O vendor P argv mallocs K m answers readbuf h = Ret (e, h') /\
    match e with
    | MainSleeps => vendor = true /\ ~ driver_opens O driver /\ h_selinux h' = h_selinux h
    | MainReturns status p =>
        status = -1 /\ u_sent p = [] /\ svclist (u_app p) = [] /\ h_selinux h' = h_selinux h /\
          (vendor = false /\ ~ driver_opens O driver \/
           driver_opens O driver /\ ~ becomes_manager O driver) \/
        status = 0 /\ driver_opens O driver /\ becomes_manager O driver /\ selinux_answers O /\
          manager_waits K readbuf p /\ driver_ended answers
    | MainAborts => driver_opens O driver /\ becomes_manager O driver /\ ~ selinux_answers O
    | MainWaits p =>
        driver_opens O driver /\ becomes_manager O driver /\ selinux_answers O /\
          manager_waits K readbuf p /\ ~ driver_ended answers
    end.
Proof.
  intros HK Hb Hr Hd Hs Hwf Hf driver. unfold svcmgr_main. fold driver.
  destruct (binder_open O driver (128 * 1024) h) as [[bs|] h'] eqn:Eo;
    destruct (binder_open_opens O driver _ _ _ Eo) as [Hse Hop].
  2: { eexists _, h'. split; [reflexivity|]. destruct vendor; [done|left]. by repeat (split; [done|]); left. }
  destruct Hop as [Hop Hfd]. unfold binder_become_context_manager. rewrite Hfd.
  destruct (Z.eqb_spec (os_set_context_mgr O (os_open O driver)) 0) as [Hcm|Hcm]; cbn [negb].
  2: { eexists _, h'. split; [reflexivity|]. left. by repeat (split; [done|]); right. }
  destruct (os_service_context_handle O) as [handle|] eqn:Eh.
  2: { eexists _, _. split; [reflexivity|]. do 2 (split; [done|]). intros [[? E] _]. congruence. }
  destruct (os_getcon O) as [context|] eqn:Ec.
  2: { eexists _, _. split; [reflexivity|]. do 2 (split; [done|]). intros [_ [? E]]. congruence. }
  assert (selinux_answers O) as Hsel by (split; by eexists).
  set (p := Process m [] (Svcmgr [] (Some handle) context mallocs)).
  destruct (loop_runs P K readbuf (binder_write p (le_encode 4 BC_ENTER_LOOPER)) answers HK)
    as (ended & p' & E & Hp' & Hend).
  - split; [|done]. split; simpl; try done.
    split; simpl; [done|constructor|constructor].
  - apply Hf.
  - unfold binder_loop. rewrite E. cbn [res_bind]. eexists _, _. split; [reflexivity|].
    destruct ended; [by right|]. do 4 (split; [done|]). by apply (goes_on_not_ended K).
Qed.

(** ** Examples *)

Definition sample_os (version : Z) : os :=
  Os (Some 16) (fun _ => 3) (fun _ => (0, version)) (fun _ _ => Some 65536) (fun _ => 0) (Some 70)
    (Some 7).
Definition sample_held : os_state := OsState {[0; 1; 2]} ∅ ∅ [].

Lemma sample_fresh v : fresh_answers (sample_os v) dev_binder 131072 sample_held.
Proof.
  split; simpl.
  - intros a _. apply not_elem_of_empty.
  - intros _. set_solver.
  - done.
Qed.

(** Opened and closed; and refused with a descriptor left. *)
Lemma binder_open_close_witness :
  (exists bs h', binder_open (sample_os 8) dev_binder 131072 sample_held = (Some bs, h') /\
     binder_close bs h' = sample_held) /\
  binder_open (sample_os 7) dev_binder 131072 sample_held = (None, open_fd 3 sample_held).
Proof.
  split.
  - pose proof (binder_open_close (sample_os 8) dev_binder 131072 sample_held _ _ (sample_fresh 8)
      eq_refl) as H. cbv beta iota zeta in H. eexists _, _. split; [reflexivity|]. apply H.
  - assert ((binder_open (sample_os 7) dev_binder 131072 sample_held).1 = None) as E1 by by vm_compute.
    destruct (binder_open (sample_os 7) dev_binder 131072 sample_held) as [bs h'] eqn:E.
    simpl in E1. subst bs.
    pose proof (binder_open_close (sample_os 7) _ _ _ _ _ (sample_fresh 7) E) as H. cbv beta iota in H.
    assert (version_refused (sample_os 7) dev_binder = true) as Hv by by vm_compute.
    rewrite Hv in H. rewrite H. reflexivity.
Defined.

(** A client's message of zeros, delivered to the read buffer at 512. *)
Definition sample_main_returns : list return_ :=
  [RNothing BR_NOOP;
   RTransaction (TransactionData 0 0 SVC_MGR_ADD_SERVICE 0 100 1000 64 16 4096 4160)].
Definition sample_main_memory : user_memory :=
  write_bytes (write_bytes sample_areas 8704 [0; 0; 0; 0]) 512 (replicate 128 0).

Lemma sample_main_mapped a n : mapped sample_areas a n -> mapped sample_main_memory a n.
Proof. intros H. by apply mapped_write, mapped_write. Qed.

Lemma sample_written m a l n : Z.of_nat (length l) = n -> mapped (write_bytes m a l) a n.
Proof.
  intros <- x Hx. rewrite write_bytes_lookup, decide_True by lia. apply lookup_lt_is_Some. lia.
Qed.

Lemma svcmgr_main_safe_witness : exists p h',
  svcmgr_main (sample_os 8) false sample_policy [] [Some 20480] sample_loop_stack sample_main_memory
    [(0, returns_bytes sample_main_returns)] 512 sample_held = Ret (MainWaits p, h') /\
  manager_waits sample_loop_stack 512 p /\ driver_opens (sample_os 8) dev_binder.
Proof.
  destruct sample_areas_ok as (Hb & Hm & Hm2).
  destruct (svcmgr_main_safe (sample_os 8) sample_policy false [] [Some 20480] sample_loop_stack
    sample_main_memory [(0, returns_bytes sample_main_returns)] 512 sample_held) as (e & h' & E & He).
  - unfold loop_stack, stack_ok, apart. simpl. lia.
  - apply write_bytes_ok; [by apply write_bytes_ok; [|repeat constructor]|].
    apply Forall_replicate. unfold byte_ok. lia.
  - by apply sample_written.
  - by apply sample_main_mapped.
  - apply mapped_write. by apply sample_written.
  - apply NoDup_singleton.
  - intros handle context. apply fair_returns; [done| | |by apply (bool_decide_unpack _); vm_compute| |].
    + apply Forall_cons; split; [apply list_elem_of_here|]. apply Forall_singleton. by vm_compute.
    + unfold byte_ok. apply (bool_decide_unpack _). by vm_compute.
    + apply Forall_cons; split; [exact I|]. apply Forall_singleton. cbn [served_return]. unfold delivered.
      cbn [td_buffer td_offsets td_data_size td_offsets_size u_mem].
      do 4 (split; [lia|]). split; apply sample_main_mapped, (mapped_sub _ _ _ _ _ Hm); lia.
    + intros k b p' _. apply fair_end.
  - assert (match svcmgr_main (sample_os 8) false sample_policy [] [Some 20480] sample_loop_stack
      sample_main_memory [(0, returns_bytes sample_main_returns)] 512 sample_held with
      | Ret (MainWaits _, _) => true | _ => false end = true) as Hw by by vm_compute.
    rewrite E in Hw. destruct e as [| | |p]; [done..|]. exists p, h'.
    destruct He as (Ho & _ & _ & Hw' & _). exact (conj E (conj Hw' Ho)).
Defined.
