(* ===== verification/Bctest.v ===== *)
(** * Bctest: the client of the service manager

    Models native/bctest.c: looking a service up, publishing one, and the test
    program's [main], in a 64-bit process.  What the driver answers is a
    parameter, a list for every call; a call whose answers run out still waits,
    and so does the program.  What the program writes to stderr is its own state. *)

From stdpp Require Import strings.
From S2P Require Import Prelude Uapi Bio SvcMgr SvcMain.

(** The lines on stderr. *)
Inductive line : Type :=
| FailedToOpen
| CannotFindAlt
| Via (handle : Z)
| ArgumentRequired
| Looked (name : list Z) (handle : Z)
| UnknownCommand (word : list Z).

Definition SVC_MGR_NAME : list Z := svcmgr_id.

Section Client.
Context `{U : BinderUapi} {A : Type}.

(** The locals of a call: the stack, [iodata] and the read buffer of [binder_call];
    and the death callback, which the driver may ask for at any time. *)
Context (K : stack) (iodata readbuf : Z) (death : @death_func A).

Definition sizeof_iodata : Z := 512 / 4 * 4.

(** What both messages begin with. *)
Definition put_header (m : user_memory) (name : list Z) : res (user_memory * binder_io) :=
  let msg := bio_init 64 (st_msg K) iodata sizeof_iodata 4 in
  let! '(m, msg) := bio_put_uint32 64 m msg 0 in
  let! '(m, msg) := bio_put_string16_x 64 m msg (Some (SVC_MGR_NAME ++ [0])) in
  bio_put_string16_x 64 m msg (Some (name ++ [0])).

(** [None]: the call still waits. *)
Definition svcmgr_lookup (p : process A) (answers : driver_answers) (target : Z) (name : list Z)
    : res (option (Z * process A)) :=
  let! '(m, msg) := put_header (u_mem p) name in
  let! r := binder_call 64 K (set_u_mem m p) answers readbuf death msg (st_reply K) target
              SVC_MGR_CHECK_SERVICE in
  match r with
  | None => Ret None
  | Some (failed, reply, p) =>
      if negb (failed =? 0) then Ret (Some (0, p))
      else
        let! '(handle, reply) := bio_get_ref 64 (u_mem p) reply in
        let p := if negb (handle =? 0) then binder_acquire p handle else p in
        let '(p, reply) := binder_done 64 p reply in
        Ret (Some (handle, p))
  end.

Definition svcmgr_publish (p : process A) (answers : driver_answers) (target : Z) (name : list Z)
    (ptr : Z) : res (option (Z * process A)) :=
  let! '(m, msg) := put_header (u_mem p) name in
  let! '(m, msg) := bio_put_obj 64 m msg ptr in
  let! r := binder_call 64 K (set_u_mem m p) answers readbuf death msg (st_reply K) target
              SVC_MGR_ADD_SERVICE in
  match r with
  | None => Ret None
  | Some (failed, reply, p) =>
      if negb (failed =? 0) then Ret (Some (-1, p))
      else
        let! '(status, reply) := bio_get_uint32 64 (u_mem p) reply in
        let '(p, reply) := binder_done 64 p reply in
        Ret (Some (i32 status, p))
  end.

End Client.

(** ** The program *)

Section Program.
Context `{U : BinderUapi} (O : os) (K : stack) (iodata readbuf : Z).
Context (death : @death_func (list line)) (token : Z).

Notation proc := (process (list line)).

Definition fprintf (l : line) (p : proc) : proc := set_u_app (u_app p ++ [l]) p.

(** The loop over the words; [calls] has the driver's answers to every call. *)
Fixpoint run_words (argv : list (list Z)) (svcmgr : Z) (calls : list driver_answers) (p : proc)
    : res (option (Z * proc)) :=
  match argv with
  | [] => Ret (Some (0, p))
  | word :: argv =>
      if bool_decide (word = chars "alt") then
        let! r := svcmgr_lookup K iodata readbuf death p (hd [] calls) svcmgr (chars "alt_svc_mgr") in
        match r with
        | None => Ret None
        | Some (handle, p) =>
            if handle =? 0 then Ret (Some (-1, fprintf CannotFindAlt p))
            else run_words argv handle (tail calls) (fprintf (Via handle) p)
        end
      else if bool_decide (word = chars "lookup") then
        match argv with
        | [] => Ret (Some (-1, fprintf ArgumentRequired p))
        | name :: argv =>
            let! r := svcmgr_lookup K iodata readbuf death p (hd [] calls) svcmgr name in
            match r with
            | None => Ret None
            | Some (handle, p) => run_words argv svcmgr (tail calls) (fprintf (Looked name handle) p)
            end
        end
      else if bool_decide (word = chars "publish") then
        match argv with
        | [] => Ret (Some (-1, fprintf ArgumentRequired p))
        | name :: argv =>
            let! r := svcmgr_publish K iodata readbuf death p (hd [] calls) svcmgr name token in
            match r with
            | None => Ret None
            | Some (_, p) => run_words argv svcmgr (tail calls) p
            end
        end
      else Ret (Some (-1, fprintf (UnknownCommand word) p))
  end.

(** [argv] with the name of the program. *)
Definition bctest_main (argv : list (list Z)) (m : user_memory) (calls : list driver_answers)
    (h : os_state) : res (option (Z * proc) * os_state) :=
  let p := Process m [] [] in
  let '(bs, h) := binder_open O dev_binder (128 * 1024) h in
  match bs with
  | None => Ret (Some (-1, fprintf FailedToOpen p), h)
  | Some _ =>
      let! r := run_words (tail argv) BINDER_SERVICE_MANAGER calls p in
      Ret (r, h)
  end.

End Program.
