(* ===== verification/BctestThms.v ===== *)
(** * BctestThms: a client and the service manager

    The messages native/bctest.c sends are understood by native/service_manager.c
    in the copy the driver makes of them; what the client makes of the answers;
    and the test program from its start. *)

From stdpp Require Import strings.
From S2P Require Import Prelude Uapi Bio BioThms ParseThms SvcMgr SvcMgrThms SvcLoopThms SvcMain Bctest.

(** ** A message in another memory *)

(** The same message, read so far to the same place, elsewhere. *)
Record moved (m1 : user_memory) (r1 : binder_io) (m2 : user_memory) (r2 : binder_io) : Prop := {
  mv_avail : io_data_avail r2 = io_data_avail r1;
  mv_slots : io_offs_avail r2 = io_offs_avail r1;
  mv_place : io_data r2 - io_data0 r2 = io_data r1 - io_data0 r1;
  mv_bytes i : 0 <= i < io_data_avail r1 -> m2 !! (io_data r2 + i) = m1 !! (io_data r1 + i);
  mv_offs i : 0 <= i < 8 * io_offs_avail r1 -> m2 !! (io_offs r2 + i) = m1 !! (io_offs r1 + i)
}.

Lemma load_moved m1 m2 a b n :
  (forall i, 0 <= i < n -> m2 !! (b + i) = m1 !! (a + i)) -> load m2 b n = load m1 a n.
Proof.
  intros H. unfold load, copy_from_user.
  assert (forall l, (forall i, i ∈ l -> 0 <= i < n) ->
    mapM (fun x => m2 !! x) (Z.add b <$> l) = mapM (fun x => m1 !! x) (Z.add a <$> l)) as E.
  { induction l as [|i l IH]; intros Hl; [done|]. rewrite !fmap_cons. simpl.
    rewrite H by (apply Hl; by left). rewrite IH; [done|]. intros j Hj. apply Hl. by right. }
  pose proof (fmap_add_seqZ a 0 n) as Ea. pose proof (fmap_add_seqZ b 0 n) as Eb.
  rewrite Z.add_0_r in Ea, Eb. rewrite <- Ea, <- Eb, E; [done|].
  intros i Hi. apply elem_of_seqZ in Hi. lia.
Qed.

Section Moved.
Context `{U : BinderUapi} (m1 m2 : user_memory).

Lemma moved_get r1 r2 size p r1' : moved m1 r1 m2 r2 -> 0 <= io_data_avail r1 ->
  bio_get 64 r1 size = (p, r1') ->
  exists p2 r2', bio_get 64 r2 size = (p2, r2') /\ moved m1 r1' m2 r2' /\ 0 <= io_data_avail r1' /\
    match p with
    | Some a => a = io_data r1 /\ p2 = Some (io_data r2) /\ round4 64 size <= io_data_avail r1
    | None => p2 = None
    end.
Proof.
  intros [A S D B O] Ha. unfold bio_get. rewrite A. pose proof (round4_range size) as Hr.
  destruct (Z.ltb_spec (io_data_avail r1) (round4 64 size)); intros [= <- <-].
  - eexists None, _. split; [reflexivity|]. split; [split; simpl; try done; intros; lia|done].
  - eexists (Some _), _. split; [reflexivity|]. split; [|split; [simpl; lia|done]].
    split; simpl; try lia; try done. intros i Hi.
    replace (io_data r2 + _ + i) with (io_data r2 + (round4 64 size + i)) by lia.
    rewrite B by lia. f_equal. lia.
Qed.

Lemma moved_uint32 r1 r2 n r1' : moved m1 r1 m2 r2 -> 0 <= io_data_avail r1 ->
  bio_get_uint32 64 m1 r1 = Ret (n, r1') ->
  exists r2', bio_get_uint32 64 m2 r2 = Ret (n, r2') /\ moved m1 r1' m2 r2' /\ 0 <= io_data_avail r1'.
Proof.
  intros H Ha. unfold bio_get_uint32. destruct (bio_get 64 r1 4) as [p b] eqn:E.
  destruct (moved_get r1 r2 4 p b H Ha E) as (p2 & b2 & -> & Hm & Ha' & Hp).
  destruct p as [a|]; [destruct Hp as (-> & -> & Hle)|subst p2; intros [= <- <-]; by exists b2].
  unfold load_word. rewrite (load_moved m1 m2 (io_data r1) (io_data r2)).
  2:{ change (round4 64 4) with 4 in Hle. intros i Hi. apply H. lia. }
  destruct (load m1 _ 4); [|done]. cbn [res_bind]. intros [= <- <-]. by exists b2.
Qed.

Lemma moved_offsets a1 a2 off n :
  (forall i, 0 <= i < 8 * Z.of_nat n -> m2 !! (a2 + i) = m1 !! (a1 + i)) ->
  find_offset m2 a2 off n = find_offset m1 a1 off n.
Proof.
  revert a1 a2. induction n as [|n IH]; intros a1 a2 H; [done|]. cbn [find_offset].
  unfold load_word at 1 2. rewrite (load_moved m1 m2 a1 a2) by (intros; apply H; lia).
  destruct (load m1 a1 8); [|done]. cbn [res_bind]. destruct (_ =? _); [done|].
  apply IH. unfold sizeof_binder_size. intros i Hi.
  replace (a2 + 8 + i) with (a2 + (8 + i)) by lia. rewrite H by lia. f_equal. lia.
Qed.

Lemma moved_ref r1 r2 h r1' : moved m1 r1 m2 r2 -> 0 <= io_data_avail r1 ->
  bio_get_ref 64 m1 r1 = Ret (h, r1') ->
  exists r2', bio_get_ref 64 m2 r2 = Ret (h, r2') /\ moved m1 r1' m2 r2' /\ 0 <= io_data_avail r1'.
Proof.
  intros H Ha. unfold bio_get_ref, bio_get_obj. destruct H as [A S D B O]. rewrite D, S.
  rewrite (moved_offsets (io_offs r1) (io_offs r2)) by (intros; apply O; lia).
  destruct (find_offset m1 _ _ _) as [[]|]; [| |done]; cbn [res_bind].
  - destruct (bio_get 64 r1 sizeof_flat_binder_object) as [p b] eqn:E.
    destruct (moved_get r1 r2 _ p b ltac:(by split) Ha E) as (p2 & b2 & -> & Hm & Ha' & Hp). cbn [res_bind].
    destruct p as [a|]; [destruct Hp as (-> & -> & Hle)|subst p2; intros [= <- <-]; by exists b2].
    rewrite (load_moved m1 m2 (io_data r1) (io_data r2)).
    2:{ pose proof sizeof_flat_pos. pose proof sizeof_flat_small.
        destruct (round4_bounds sizeof_flat_binder_object) as [Hb _]; [lia|]. intros i Hi. apply B. lia. }
    destruct (load m1 _ _); [|done]. cbn [res_bind]. intros [= <- <-]. by exists b2.
  - intros [= <- <-]. eexists. split; [reflexivity|]. split; [split; simpl; try done; intros; lia|done].
Qed.

Lemma moved_gets r1 r2 v r1' : moved m1 r1 m2 r2 -> 0 <= io_data_avail r1 -> value_ok v ->
  gets m1 r1 v r1' ->
  exists r2', gets m2 r2 v r2' /\ moved m1 r1' m2 r2' /\ 0 <= io_data_avail r1'.
Proof.
  intros H Ha Hv. destruct v as [n|s|h]; cbn [gets]; [by apply moved_uint32| |by apply moved_ref].
  intros (a & E & El). unfold bio_get_string16 in *.
  destruct (bio_get_uint32 64 m1 r1) as [[n b]|] eqn:En; [|done].
  destruct (moved_uint32 r1 r2 n b H Ha En) as (b2 & -> & Hm & Hb). cbn [res_bind] in *.
  destruct (bio_get 64 b _) as [p c] eqn:Ec.
  destruct (moved_get b b2 _ p c Hm Hb Ec) as (p2 & c2 & -> & Hm' & Hc & Hp).
  injection E as -> -> ->. destruct Hp as (-> & -> & Hle).
  exists c2. split; [|done]. exists (io_data b2). split; [done|].
  rewrite <- El. unfold load_units. rewrite (load_moved m1 m2 (io_data b) (io_data b2)); [done|].
  destruct Hv as [_ Hs]. change (MAX_BIO_SIZE / 2) with (2 ^ 29) in Hs. unfold usize in Hle.
  rewrite Z.mod_small in Hle by lia.
  destruct (round4_bounds ((Z.of_nat (length s) + 1) * 2)) as [Hb' _]; [lia|].
  intros i Hi. apply Hm. lia.
Qed.

(** A copy of a message reads like the message. *)
Lemma moved_reads_back vs : forall r1 r2 r1', moved m1 r1 m2 r2 -> 0 <= io_data_avail r1 ->
  Forall value_ok vs -> reads_back m1 r1 vs r1' ->
  exists r2', reads_back m2 r2 vs r2' /\ moved m1 r1' m2 r2'.
Proof.
  induction vs as [|v vs IH]; intros r1 r2 r1' H Ha Hv; cbn [reads_back].
  - intros ->. by exists r2.
  - intros (b & Hb & Hr). apply Forall_cons in Hv as [Hv Hvs].
    destruct (moved_gets r1 r2 v b H Ha Hv Hb) as (b2 & Hb2 & Hm & Ha').
    destruct (IH b b2 r1' Hm Ha' Hvs Hr) as (r2' & Hr2 & Hm2). exists r2'. split; [by exists b2|done].
Qed.

End Moved.

(** ** A call and its answers *)

(** Only these bytes may have changed. *)
Record writes_in (a n : Z) (m m' : user_memory) : Prop := {
  wi_mapped x : is_Some (m !! x) -> is_Some (m' !! x);
  wi_same x : ~ (a <= x < a + n) -> m' !! x = m !! x;
  wi_bytes : bytes_ok m -> bytes_ok m'
}.

Lemma writes_in_refl a n m : writes_in a n m m.
Proof. by split. Qed.

Lemma writes_in_trans a n m1 m2 m3 : writes_in a n m1 m2 -> writes_in a n m2 m3 -> writes_in a n m1 m3.
Proof. intros [A1 A2 A3] [B1 B2 B3]. split; auto. intros x Hx. by rewrite B2, A2. Qed.

Lemma writes_in_bytes a n m l : Forall byte_ok l -> Z.of_nat (length l) <= n ->
  writes_in a n m (write_bytes m a l).
Proof.
  intros Hl Hn. split; [intros x; apply write_bytes_is_Some| |intros Hb; by apply write_bytes_ok].
  intros x Hx. rewrite write_bytes_lookup, decide_False by lia. done.
Qed.

Lemma writes_in_mapped a n m m' b k : writes_in a n m m' -> mapped m b k -> mapped m' b k.
Proof. intros [H _ _] Hm x Hx. apply H, Hm, Hx. Qed.

Lemma writes_in_same a n m m' b k : writes_in a n m m' -> apart a n b k -> same_bytes m m' b k.
Proof. intros [_ H _] Ha x Hx. apply H. unfold apart in Ha. lia. Qed.

(** How a call ends. *)
Inductive call_end : Type := Waits | Fails | Replies (t : transaction_data).

Section Calls.
Context `{U : BinderUapi} {A : Type} (K : stack) (readbuf : Z) (death : @death_func A).

(** What one read of the driver gives: an error, or returns. *)
Definition batch : Type := option (list return_).

Definition driver_answer (b : batch) : Z * list Z :=
  match b with None => (-1, []) | Some rs => (0, returns_bytes rs) end.

(** Nobody tells a client without death notifications of deaths. *)
Definition plain (r : return_) : Prop :=
  return_ok r /\ match r with RDead _ => False | _ => True end.

Definition batch_ok (b : batch) : Prop :=
  match b with
  | None => True
  | Some rs => Forall plain rs /\ (length (returns_bytes rs) <= 128)%nat /\ Forall byte_ok (returns_bytes rs)
  end.

(** The last return with a result decides; the first reply is the one that counts. *)
Definition verdict (k : Z) (rs : list return_) : Z :=
  fold_left (fun k r => match r with RReply _ => 0 | RFailed _ => -1 | _ => k end) rs k.

Definition first_reply (rs : list return_) : option transaction_data :=
  head (omap (fun r => match r with RReply t => Some t | _ => None end) rs).

Fixpoint call_end_of (bs : list batch) : call_end :=
  match bs with
  | [] => Waits
  | None :: _ => Fails
  | Some rs :: bs =>
      if verdict 1 rs =? 1 then call_end_of bs
      else if verdict 1 rs =? 0 then
        match first_reply rs with Some t => Replies t | None => Fails end
      else Fails
  end.

Lemma carry_plain rs : forall k bio p, Forall plain rs ->
  carry_out_all K None death true (k, bio, p) rs =
  Ret (verdict k rs, match bio with Some b => Some b | None => bio_init_from_txn 64 <$> first_reply rs end, p).
Proof.
  induction rs as [|r rs IH]; intros k bio p H; [by destruct bio|].
  apply Forall_cons in H as [[_ Hr] H].
  destruct r; try done; cbn [carry_out_all carry_out res_bind]; rewrite IH by done; try done.
  by destruct bio.
Qed.

Lemma verdict_cases rs : forall k,
  verdict k rs = k /\ first_reply rs = None \/ verdict k rs = 0 /\ is_Some (first_reply rs) \/
  verdict k rs = -1.
Proof.
  induction rs as [|r rs IH]; intros k; [by left|].
  destruct r; unfold verdict in *; cbn [fold_left]; try exact (IH k).
  - change (first_reply (RReply t :: rs)) with (Some t).
    destruct (IH 0) as [[-> _]|[[-> _]| ->]]; eauto.
  - change (first_reply (RFailed cmd :: rs)) with (first_reply rs).
    destruct (IH (-1)) as [[-> _]|[H| ->]]; eauto.
Qed.

Lemma parse_plain rs p : Forall plain rs ->
  holds (u_mem p) readbuf (returns_bytes rs) -> 0 <= readbuf ->
  readbuf + Z.of_nat (length (returns_bytes rs)) < 2 ^ 64 ->
  binder_parse 64 K p None death true readbuf (Z.of_nat (length (returns_bytes rs))) =
  Ret (verdict 1 rs, bio_init_from_txn 64 <$> first_reply rs, p).
Proof.
  intros Hp Hm H0 Hlt. rewrite <- (carry_plain rs 1 None p Hp).
  unfold binder_parse, usize. rewrite Z.mod_small by lia.
  apply (parse_loop_returns K _ _ _ readbuf (Z.of_nat (length (returns_bytes rs))) (fun _ => True));
    try done; try lia.
  - apply keeps_buffer_intro; [done|]. intros c ? ? Hin. rewrite Forall_forall in Hp. by destruct (Hp _ Hin).
  - eapply Forall_impl; [exact Hp|]. by intros r [? _].
Qed.

(** The result of a call, in a memory in which the read buffer may have changed. *)
Definition call_result (e : call_end) (p : process A) : option (Z * binder_io * process A) :=
  match e with
  | Waits => None
  | Fails => Some (-1, failed_reply, p)
  | Replies t => Some (0, bio_init_from_txn 64 t, p)
  end.

Lemma call_loop_end bs : forall p bio, Forall batch_ok bs -> mapped (u_mem p) readbuf 128 ->
  0 <= readbuf -> readbuf + 128 < 2 ^ 64 ->
  exists m', writes_in readbuf 128 (u_mem p) m' /\
    call_loop 64 K p (map driver_answer bs) readbuf death bio =
    Ret (call_result (call_end_of bs) (set_u_mem m' p)).
Proof.
  induction bs as [|b bs IH]; intros p bio Hb Hm H0 Hlt.
  { exists (u_mem p). split; [apply writes_in_refl|done]. }
  apply Forall_cons in Hb as [Hb Hbs]. destruct b as [rs|].
  2:{ exists (u_mem p). split; [apply writes_in_refl|]. by destruct p. }
  destruct Hb as (Hp & Hl & Hby). cbn [map driver_answer call_loop call_end_of].
  rewrite store_mapped by (apply (mapped_sub _ _ _ _ _ Hm); lia).
  set (m1 := write_bytes (u_mem p) readbuf (returns_bytes rs)).
  assert (writes_in readbuf 128 (u_mem p) m1) as Hw by (apply writes_in_bytes; [done|lia]).
  change (0 <? 0) with false. cbn [res_bind]. cbn iota.
  rewrite (parse_plain rs (set_u_mem m1 p)) by first [done|apply holds_written|lia]. cbn [res_bind].
  destruct (verdict_cases rs 1) as [[-> ->]|[[-> [t ->]]| ->]].
  - change (1 =? 0) with false. change (1 <? 0) with false. change (1 =? 1) with true. cbn iota.
    destruct (IH (set_u_mem m1 p) bio Hbs (writes_in_mapped _ _ _ _ _ _ Hw Hm) H0 Hlt) as (m' & Hw' & E).
    exists m'. split; [by eapply writes_in_trans|exact E].
  - exists m1. done.
  - exists m1. done.
Qed.

End Calls.

(** ** Looking up *)

Section Lookup.
Context `{U : BinderUapi} (K : stack) (iodata readbuf : Z).

(** The stack of a call. *)
Record client_ok (m : user_memory) : Prop := {
  cl_bytes : bytes_ok m;
  cl_iodata : mapped m iodata 512;
  cl_readbuf : mapped m readbuf 128;
  cl_data : 0 <= iodata /\ iodata + 512 < 2 ^ 64;
  cl_read : 0 <= readbuf /\ readbuf + 128 < 2 ^ 64
}.

(** A reply as the driver delivers it, apart from the stack. *)
Definition arrives (m : user_memory) (t : transaction_data) : Prop :=
  delivered m t /\
  apart iodata 512 (td_buffer t) (td_data_size t) /\ apart readbuf 128 (td_buffer t) (td_data_size t) /\
  apart iodata 512 (td_offsets t) (td_offsets_size t) /\ apart readbuf 128 (td_offsets t) (td_offsets_size t).

Definition arrives_all (m : user_memory) (bs : list batch) : Prop :=
  Forall batch_ok bs /\ forall t, call_end_of bs = Replies t -> arrives m t.

(** Only the stack may have changed. *)
Definition writes_locals (m m' : user_memory) : Prop :=
  exists m1, writes_in iodata 512 m m1 /\ writes_in readbuf 128 m1 m'.

Lemma arrives_moved m m' t : writes_locals m m' -> arrives m t ->
  reader_ok m (bio_init_from_txn 64 t) ->
  moved m (bio_init_from_txn 64 t) m' (bio_init_from_txn 64 t).
Proof.
  intros (m1 & W1 & W2) ((B1 & B2 & B3 & B4 & _) & A1 & A2 & A3 & A4) Hr.
  unfold bio_init_from_txn, usize, sizeof_size_t in *. change (64 / 8) with 8 in *.
  rewrite !(Z.mod_small _ (2 ^ 64)) in * by (try done; Z.to_euclidean_division_equations; lia).
  split; try done; simpl; intros i Hi.
  - rewrite (writes_in_same _ _ _ _ _ _ W2 A2) by lia. by rewrite (writes_in_same _ _ _ _ _ _ W1 A1) by lia.
  - assert (td_offsets t <= td_offsets t + i < td_offsets t + td_offsets_size t) as Hx
      by (Z.to_euclidean_division_equations; lia).
    rewrite (writes_in_same _ _ _ _ _ _ W2 A4) by done. by rewrite (writes_in_same _ _ _ _ _ _ W1 A3).
Qed.

(** Reading leaves the start and the flag the library frees the message by. *)
Definition kept (b b' : binder_io) : Prop :=
  io_data0 b' = io_data0 b /\ (io_has b BIO_F_SHARED = true -> io_has b' BIO_F_SHARED = true).

Lemma kept_overflow b n : kept b (overflow (set_io_data_avail n b)).
Proof.
  split; [done|]. unfold io_has, overflow. simpl. rewrite !negb_true_iff, !Z.eqb_neq. intros H E. apply H.
  apply Z.bits_inj_0. intros i. pose proof (f_equal (fun x => Z.testbit x i) E) as Ei.
  simpl in Ei. rewrite Z.land_spec, Z.lor_spec, Z.bits_0 in Ei. rewrite Z.land_spec.
  destruct (Z.testbit (io_flags b) i); [|done]. simpl in *. done.
Qed.

Lemma kept_get b size p b' : bio_get 64 b size = (p, b') -> kept b b'.
Proof.
  unfold bio_get. destruct (_ <? _); intros [= <- <-]; [apply kept_overflow|done].
Qed.

Lemma kept_ref m b h b' : bio_get_ref 64 m b = Ret (h, b') -> kept b b'.
Proof.
  unfold bio_get_ref, bio_get_obj. destruct (find_offset _ _ _ _) as [[]|]; [| |done]; cbn [res_bind].
  - destruct (bio_get 64 b _) as [p b1] eqn:E. apply kept_get in E. destruct p as [a|].
    + destruct (load m a _); [|done]. by intros [= _ <-].
    + by intros [= _ <-].
  - intros [= _ <-]. apply kept_overflow.
Qed.

Lemma kept_uint32 m b n b' : bio_get_uint32 64 m b = Ret (n, b') -> kept b b'.
Proof.
  unfold bio_get_uint32. destruct (bio_get 64 b 4) as [[a|] b1] eqn:E; apply kept_get in E.
  - destruct (load_word m a 4); [|done]. by intros [= _ <-].
  - by intros [= _ <-].
Qed.

Lemma put_header_values m name :
  put_header K iodata m name =
  put_values m (bio_init 64 (st_msg K) iodata 512 4) (request_values 0 (FindService name)).
Proof.
  unfold put_header, sizeof_iodata, SVC_MGR_NAME, bio_put_string16_x. change (512 / 4 * 4) with 512.
  cbn [request_values put_values put_value].
  destruct (bio_put_uint32 64 m _ 0) as [[m1 b1]|]; [|done]. cbn [res_bind].
  destruct (bio_put_string16 64 m1 b1 _) as [[m2 b2]|]; [|done]. cbn [res_bind].
  by destruct (bio_put_string16 64 m2 b2 _) as [[m3 b3]|].
Qed.

(** A name the message has room for. *)
Definition name_fits (name : list Z) : Prop := (length name <= 205)%nat.

Lemma request_size name : total value_size (request_values 0 (FindService name)) =
  68 + round4 64 ((Z.of_nat (length name) + 1) * 2).
Proof.
  unfold total. cbn [request_values foldr value_size length svcmgr_id].
  change (round4 64 ((Z.of_nat 26 + 1) * 2)) with 56. lia.
Qed.

Lemma request_ok name : value_ok (VString16 name) ->
  Forall value_ok (request_values 0 (FindService name)).
Proof.
  intros H. unfold request_values. rewrite !Forall_cons. split; [simpl; lia|].
  split; [split; [repeat constructor; lia|done]|]. split; [done|constructor].
Qed.

(** The message is made on the stack. *)
Lemma put_header_spec m name : client_ok m -> value_ok (VString16 name) ->
  exists m1 msg, put_header K iodata m name = Ret (m1, msg) /\ writes_in iodata 512 m m1 /\
    writer_ok m1 iodata 512 4 msg /\
    (name_fits name -> io_has msg BIO_F_OVERFLOW = false) /\
    (io_has msg BIO_F_OVERFLOW = false -> forall t, about msg t ->
     exists r, reads_back m1 (bio_init_from_txn 64 t) (request_values 0 (FindService name)) r /\
       io_data_avail r = 0).
Proof.
  intros [Hb Hi _ [H0 H1] _] Hn. rewrite put_header_values.
  destruct (message_spec m (st_msg K) iodata 512 4 (request_values 0 (FindService name)) Hb Hi)
    as (m1 & w & E & Hw & _ & Hr & Hf & Hs); try lia; [by apply request_ok|].
  exists m1, w. split; [done|]. split; [|split; [done|]; split; [|done]].
  - split; [|done|intros _; apply Hw]. intros x Hx.
    destruct (decide (iodata <= x < iodata + 512)) as [Hin|Hout]; [by apply Hw|by rewrite Hs].
  - intros Hfit. apply Hf; [|simpl; lia]. rewrite request_size. unfold name_fits in Hfit.
    destruct (round4_bounds ((Z.of_nat (length name) + 1) * 2)) as [Hrd [c Hc]]; lia.
Qed.

(** *** The call *)

Context {A : Type} (death : @death_func A).
Notation proc := (process A).

(** What the client sends for this message. *)
Definition call_bytes (msg : binder_io) (target code : Z) : list Z :=
  le_encode 4 BC_TRANSACTION ++ td_encode (call_txn K msg target code).

Lemma binder_call_end (p : proc) bs msg bio target code :
  client_ok (u_mem p) -> Forall batch_ok bs ->
  exists m', writes_in readbuf 128 (u_mem p) m' /\
    binder_call 64 K p (map driver_answer bs) readbuf death msg bio target code =
    Ret (if io_has msg BIO_F_OVERFLOW then Some (-1, failed_reply, p)
         else call_result (call_end_of bs)
                (Process m' (u_sent p ++ [call_bytes msg target code]) (u_app p))).
Proof.
  intros [_ _ Hr _ [H0 H1]] Hb. unfold binder_call. destruct (io_has msg _).
  { exists (u_mem p). split; [apply writes_in_refl|done]. }
  destruct (call_loop_end K readbuf death bs (binder_write p (call_bytes msg target code)) bio Hb)
    as (m' & Hw & E); try done. by exists m'.
Qed.

(** What a reply's buffer is freed with. *)
Definition free_bytes (t : transaction_data) : list Z :=
  le_encode 4 BC_FREE_BUFFER ++ le_encode 8 (td_buffer t).

Lemma binder_done_reply (p : proc) t b :
  0 <= td_buffer t < 2 ^ 64 -> kept (bio_init_from_txn 64 t) b ->
  (binder_done 64 p b).1 = binder_write p (free_bytes t).
Proof.
  intros Ht [E Hs]. unfold binder_done. rewrite Hs by done. rewrite E. unfold free_bytes, bio_init_from_txn, usize.
  cbn [fst io_data0]. by rewrite Z.mod_small.
Qed.

Lemma client_later m m' : writes_locals m m' -> client_ok m -> client_ok m'.
Proof.
  intros (m1 & W1 & W2) [Hb Hi Hr ? ?]. split; try done; [by apply W2, W1|..];
    by do 2 (eapply writes_in_mapped; [done|]).
Qed.

(** What a reply says to [svcmgr_lookup]. *)
Definition handle_in (m : user_memory) (t : transaction_data) (h : Z) : Prop :=
  exists b, bio_get_ref 64 m (bio_init_from_txn 64 t) = Ret (h, b).

Lemma lookup_spec (p : proc) bs target name :
  client_ok (u_mem p) -> value_ok (VString16 name) -> arrives_all (u_mem p) bs ->
  exists m1 msg m2, put_header K iodata (u_mem p) name = Ret (m1, msg) /\ writes_locals (u_mem p) m2 /\
    let request := call_bytes msg target SVC_MGR_CHECK_SERVICE in
    exists r, svcmgr_lookup K iodata readbuf death p (map driver_answer bs) target name = Ret r /\
    if io_has msg BIO_F_OVERFLOW then r = Some (0, Process m2 (u_sent p) (u_app p))
    else match call_end_of bs with
    | Waits => r = None
    | Fails => r = Some (0, Process m2 (u_sent p ++ [request]) (u_app p))
    | Replies t => exists h, handle_in (u_mem p) t h /\
        r = Some (h, Process m2 (u_sent p ++ request ::
              (if h =? 0 then [] else [le_encode 4 BC_ACQUIRE ++ le_encode 4 h]) ++ [free_bytes t]) (u_app p))
    end.
Proof.
  intros Hc Hn [Hbs Ha]. destruct (put_header_spec (u_mem p) name Hc Hn)
    as (m1 & msg & E & W1 & _). exists m1, msg.
  assert (client_ok (u_mem (set_u_mem m1 p))) as Hc1.
  { eapply client_later; [|exact Hc]. exists m1. split; [done|apply writes_in_refl]. }
  destruct (binder_call_end (set_u_mem m1 p) bs msg (st_reply K) target SVC_MGR_CHECK_SERVICE Hc1 Hbs)
    as (m2 & W2 & E2). unfold svcmgr_lookup. rewrite E. cbn [res_bind]. rewrite E2. cbn [res_bind].
  destruct (io_has msg BIO_F_OVERFLOW).
  { exists m1. split; [done|]. split; [exists m1; split; [done|apply writes_in_refl]|]. by eexists. }
  exists m2. split; [done|]. split; [by exists m1|]. destruct (call_end_of bs) as [| |t]; [by eexists..|].
  cbn [call_result set_u_mem u_mem u_sent u_app]. change (negb (0 =? 0)) with false. cbn iota.
  destruct (Ha t eq_refl) as [Hd Hap]. assert (Hd' := Hd). destruct Hd' as (B1 & B2 & B3 & B4 & M1 & M2).
  destruct (bio_init_from_txn_reader (u_mem p) t) as (Hr & _); try done; [apply Hc|].
  destruct (bio_get_ref_spec (u_mem p) _ Hr) as (h & b & Eh & _).
  assert (moved (u_mem p) (bio_init_from_txn 64 t) m2 (bio_init_from_txn 64 t)) as Hm
    by (apply arrives_moved; [by exists m1|done|done]).
  destruct (moved_ref _ _ _ _ h b Hm (proj1 (rd_avail _ _ Hr)) Eh) as (b2 & Eh2 & _).
  rewrite Eh2. cbn [res_bind]. destruct (binder_done 64 _ b2) as [p' b'] eqn:Ed.
  eexists. split; [reflexivity|]. exists h. split; [by exists b|].
  pose proof (f_equal fst Ed) as Ed1. rewrite (binder_done_reply _ t) in Ed1 by (try done; by eapply kept_ref).
  cbn [fst] in Ed1. subst p'. do 2 f_equal. destruct (h =? 0); cbn [negb app];
    unfold binder_acquire, binder_write; cbn [u_mem u_sent u_app]; by rewrite <- ?app_assoc.
Qed.

End Lookup.

(** ** The service manager's side *)

(** What the driver copies from one process to another: the data and the offsets. *)
Record copied (m1 : user_memory) (t1 : transaction_data) (m2 : user_memory) (t2 : transaction_data) : Prop := {
  cp_data_size : td_data_size t2 = td_data_size t1;
  cp_offsets_size : td_offsets_size t2 = td_offsets_size t1;
  cp_data i : 0 <= i < td_data_size t1 -> m2 !! (td_buffer t2 + i) = m1 !! (td_buffer t1 + i);
  cp_offsets i : 0 <= i < td_offsets_size t1 -> m2 !! (td_offsets t2 + i) = m1 !! (td_offsets t1 + i)
}.

(** The addresses and sizes of a transaction are 64 bits wide. *)
Definition txn_range (t : transaction_data) : Prop :=
  0 <= td_buffer t < 2 ^ 64 /\ 0 <= td_offsets t < 2 ^ 64 /\
  0 <= td_data_size t < 2 ^ 64 /\ 0 <= td_offsets_size t < 2 ^ 64.

Lemma from_txn_small t : txn_range t ->
  bio_init_from_txn 64 t = BinderIo (td_buffer t) (td_offsets t) (td_data_size t) (td_offsets_size t / 8)
    (td_buffer t) (td_offsets t) BIO_F_SHARED.
Proof.
  intros (H1 & H2 & H3 & H4). unfold bio_init_from_txn, usize, sizeof_size_t. change (64 / 8) with 8.
  by rewrite !(Z.mod_small _ (2 ^ 64)) by (try done; Z.to_euclidean_division_equations; lia).
Qed.

Lemma copied_moved m1 t1 m2 t2 : txn_range t1 -> txn_range t2 -> copied m1 t1 m2 t2 ->
  moved m1 (bio_init_from_txn 64 t1) m2 (bio_init_from_txn 64 t2).
Proof.
  intros R1 R2 [D O Bd Bo]. rewrite !from_txn_small by done. split; simpl; try congruence; try lia; [done|].
  intros i Hi. apply Bo. Z.to_euclidean_division_equations. lia.
Qed.

Lemma about_range m D M N w t : writer_ok m D M N w -> about w t -> txn_range t.
Proof.
  intros [_ _ ? ? [E1 E2] ? ?] (T1 & T2 & T3 & T4). unfold txn_range. rewrite T1, T2, T3, T4, E1, E2.
  unfold u64. do 2 (split; [lia|]). split; apply Z.mod_pos_bound; lia.
Qed.

(** Without offsets there is no reference. *)
Lemma no_offsets `{U : BinderUapi} m t : td_offsets_size t = 0 -> handle_in m t 0.
Proof.
  intros E. unfold handle_in, bio_get_ref, bio_get_obj, bio_init_from_txn. rewrite E. simpl. by eexists.
Qed.

Section Served.
Context (P : policy) `{U : BinderUapi} (K : stack).

Notation proc := (process svcmgr).

(** The service manager before a transaction. *)
Record server_ok (k : Z) (q : proc) : Prop := {
  sv_list : svc_wf (u_app q);
  sv_handle : sehandle (u_app q) = Some k;
  sv_bytes : bytes_ok (u_mem q);
  sv_reply : mapped (u_mem q) (st_rdata K) 256;
  sv_status : mapped (u_mem q) (st_status K) 4;
  sv_data : 0 <= st_rdata K /\ st_rdata K + 256 < 2 ^ 64;
  sv_apart : apart (st_rdata K) 256 (st_status K) 4
}.

(** The answer to a client: the reply goes out as a transaction that reads as the value. *)
Lemma reply_sent (q : proc) v m w : bytes_ok (u_mem q) -> mapped (u_mem q) (st_rdata K) 256 ->
  0 <= st_rdata K -> st_rdata K + 256 < 2 ^ 64 -> value_ok v -> value_size v <= 224 -> value_slots v <= 4 ->
  put_value (u_mem q) (bio_init 64 (st_reply K) (st_rdata K) 256 4) v = Ret (m, w) ->
  let t := reply_txn K w 0 in
  txn_range t /\ io_has w BIO_F_OVERFLOW = false /\
  (st_rdata K <= td_buffer t /\ td_buffer t + td_data_size t <= st_rdata K + 256) /\
  (st_rdata K <= td_offsets t /\ td_offsets t + td_offsets_size t <= st_rdata K + 256) /\
  exists r, reads_back m (bio_init_from_txn 64 t) [v] r.
Proof.
  intros Hb Hm H0 H1 Hv Hs Hsl E t.
  destruct (message_spec (u_mem q) (st_reply K) (st_rdata K) 256 4 [v] Hb Hm)
    as (m' & w' & E' & Hw & _ & Hr & Hf & _); try lia; [by constructor|].
  cbn [put_values] in E'. rewrite E in E'. cbn [res_bind] in E'. injection E' as <- <-.
  assert (about w t) as Ha by done.
  assert (txn_range t) as Hrg by by eapply about_range.
  assert (io_has w BIO_F_OVERFLOW = false) as Hov by (apply Hf; unfold total; simpl; lia).
  split; [exact Hrg|]. split; [exact Hov|].
  destruct Hw as [_ _ _ _ [E1 E2] (? & ? & ?) (? & ? & ?)]. destruct Ha as (T1 & T2 & T3 & T4).
  rewrite T1, T2, T3, T4, E1, E2. unfold u64. rewrite !Z.mod_small by lia.
  split; [lia|]. split; [lia|]. destruct (Hr Hov t) as (r & Hrb & _); [done|]. by exists r.
Qed.

Lemma uint32_no_offsets m b n m' b' : bio_put_uint32 64 m b n = Ret (m', b') -> io_offs b' = io_offs b /\ io_offs0 b' = io_offs0 b.
Proof.
  unfold bio_put_uint32, bio_alloc. destruct (_ <? _); [by intros [= _ <-]|].
  destruct (store m _ _); [|done]. by intros [= _ <-].
Qed.

(** The reply to a request for a service, as the transaction that carries it. *)
Definition reply_bytes (t2 t3 : transaction_data) : list Z :=
  le_encode 4 BC_FREE_BUFFER ++ le_encode 8 (td_buffer t2) ++ le_encode 4 BC_REPLY ++ td_encode t3.

(** The handler finds the service. *)
Lemma find_answered k (q : proc) t2 r name : server_ok k q ->
  td_target t2 = BINDER_SERVICE_MANAGER -> td_code t2 = SVC_MGR_CHECK_SERVICE ->
  reads_back (u_mem q) (bio_init_from_txn 64 t2) (request_values 0 (FindService name)) r ->
  let h := reg_find P (current_handle P k) (registry_of (u_app q)) name (td_sender_euid t2) (td_sender_pid t2) in
  let reply := bio_init 64 (st_reply K) (st_rdata K) 256 4 in
  writer_ok (u_mem q) (st_rdata K) 256 4 reply /\
  answers (current_handle P k) q reply
    (0, Some (if h =? 0 then VUint32 0 else VRef h), [], registry_of (u_app q))
    (svcmgr_handler P q t2 (bio_init_from_txn 64 t2) reply).
Proof.
  intros [Hwf Hk Hb Hr _ [H0 H1] _] Ht Hc Hrb h reply.
  destruct (bio_init_writer (u_mem q) (st_reply K) (st_rdata K) 256 4 Hb Hr H0 H1) as [Hw _]; try lia.
  split; [exact Hw|].
  destruct Hrb as (b1 & G1 & b2 & G2 & b3 & G3 & _). apply gets_read_string16 in G2.
  rewrite (handler_dispatch P q t2 _ reply 0 b1 0 b2) by (try done; by rewrite Hc).
  apply (answers_refreshed P k q reply (td_sender_euid t2) (td_sender_pid t2) (FindService name)); [done|done|].
  destruct (refresh_spec P q k Hk) as (Em & _). intros q0 Hwf0 Hk0.
  unfold dispatch. rewrite Hc. change (_ || _) with true. cbn iota.
  eapply (handle_find_spec P _ (st_rdata K) 256 4); try done; [by rewrite Em|].
  apply gets_read_string16. rewrite Em. exact G3.
Qed.

(** The handle in a reply; without an object there is none. *)
Definition reply_holds (m : user_memory) (t : transaction_data) (h : Z) : Prop :=
  if h =? 0 then td_offsets_size t = 0 else exists r, reads_back m (bio_init_from_txn 64 t) [VRef h] r.

Lemma reply_holds_in m t h : reply_holds m t h -> handle_in m t h.
Proof.
  unfold reply_holds. destruct (Z.eqb_spec h 0) as [->|]; [apply no_offsets|].
  intros (r & b & E & _). by exists b.
Qed.

Lemma handle_in_det m t h h' : handle_in m t h -> handle_in m t h' -> h = h'.
Proof. intros [b E] [b' E']. congruence. Qed.

Lemma find_served k (q : proc) t2 r name :
  server_ok k q -> sizeof_flat_binder_object <= 224 ->
  td_target t2 = BINDER_SERVICE_MANAGER -> td_code t2 = SVC_MGR_CHECK_SERVICE -> td_flags t2 = 0 ->
  value_ok (VString16 name) ->
  reads_back (u_mem q) (bio_init_from_txn 64 t2) (request_values 0 (FindService name)) r ->
  let h := reg_find P (current_handle P k) (registry_of (u_app q)) name (td_sender_euid t2) (td_sender_pid t2) in
  exists q' t3, serve 64 K q (svcmgr_handler P) t2 = Ret q' /\
    u_sent q' = u_sent q ++ [reply_bytes t2 t3] /\ registry_of (u_app q') = registry_of (u_app q) /\
    reply_holds (u_mem q') t3 h.
Proof.
  intros [Hwf Hk Hb Hr Hs [H0 H1] Hap] Hsz Ht Hc Hfl Hn Hrb h.
  destruct (find_answered k q t2 r name ltac:(by split) Ht Hc Hrb)
    as (Hw & w & q1 & E & [Eput Hv] & Es & ER & _). fold h in E, Eput, Hv.
  set (reply := bio_init 64 (st_reply K) (st_rdata K) 256 4) in *.
  set (v := if h =? 0 then VUint32 0 else VRef h) in *.
  assert (value_size v <= 224 /\ value_slots v <= 4) as [Hvs Hvo].
  { unfold v. pose proof sizeof_flat_pos. destruct (round4_bounds sizeof_flat_binder_object) as [Hrd [c Hcd]]; [lia|].
    destruct (h =? 0); simpl; lia. }
  destruct (reply_sent q v (u_mem q1) w Hb Hr H0 H1 Hv Hvs Hvo Eput) as (Hrg & Hov & Hd & Ho & r3 & Hr3).
  set (t3 := reply_txn K w 0) in *.
  unfold serve. fold reply. rewrite E. cbn [res_bind]. rewrite Hfl. change (negb (Z.land 0 TF_ONE_WAY =? 0)) with false.
  cbn iota. unfold binder_send_reply.
  destruct (put_value_ok (st_rdata K) 256 4 _ _ v Hw Hv) as (m' & w' & E' & Hw' & Hwr & _).
  assert (Ret (u_mem q1, w) = Ret (m', w')) as E2 by (rewrite <- Eput; exact E'). injection E2 as <- <-.
  assert (mapped (u_mem q1) (st_status K) 4) as Hs1.
  { intros x Hx. destruct Hwr as (_ & _ & Hsame & _). rewrite Hsame; [by apply Hs|unfold apart in Hap|unfold apart in Hap];
      destruct Hw as [_ _ _ _ _ (? & ? & ?) (? & ? & ?)]; lia. }
  rewrite store_mapped by (rewrite length_le_encode; exact Hs1). cbn [res_bind].
  eexists _, t3. split; [reflexivity|]. cbn [binder_write set_u_mem u_mem u_sent u_app].
  split; [by rewrite Es, app_nil_r|]. split; [exact ER|]. unfold reply_holds, v in *.
  destruct (Z.eqb_spec h 0).
  - destruct (uint32_no_offsets _ _ _ _ _ Eput) as [Eo Eo0]. unfold t3, reply_txn. simpl.
    rewrite Eo, Eo0. unfold reply, bio_init, usize, sizeof_size_t, u64. change (64 / 8) with 8.
    rewrite (Z.mod_small (4 * 8)) by lia. cbn [Z.ltb]. simpl. by rewrite Z.sub_diag.
  - eapply moved_reads_back in Hr3 as (r' & Hr' & _);
      [by exists r'| |rewrite from_txn_small by done; apply Hrg|by constructor].
    rewrite from_txn_small by done. unfold apart in Hap.
    split; cbn [io_data io_offs io_data_avail io_offs_avail io_data0]; try done; intros i Hi;
      rewrite write_bytes_lookup, decide_False; try done; rewrite length_le_encode; Z.to_euclidean_division_equations; lia.
Qed.

End Served.

(** ** From end to end *)

Section EndToEnd.
Context (P : policy) `{U : BinderUapi} (Kc Ks : stack) (iodata readbuf : Z).
Context {A : Type} (death : @death_func A).

(** The driver's part of a reply: the same object under the receiver's handle. *)
Definition hands_over (tr : Z -> Z) (m3 : user_memory) (t3 : transaction_data) (m4 : user_memory)
    (t4 : transaction_data) : Prop :=
  forall h, reply_holds m3 t3 h -> reply_holds m4 t4 (tr h).

(** The client's effects: the request, the reference taken, the reply freed. *)
Definition lookup_sent (t1 t4 : transaction_data) (h : Z) : list (list Z) :=
  [le_encode 4 BC_TRANSACTION ++ td_encode t1] ++
  (if h =? 0 then [] else [le_encode 4 BC_ACQUIRE ++ le_encode 4 h]) ++ [free_bytes t4].

Lemma call_txn_handle msg target code : 0 <= target < 2 ^ 32 ->
  td_handle (call_txn Kc msg target code) = target.
Proof.
  intros Ht. unfold td_handle, call_txn. cbn [td_target]. unfold u32. Z.to_euclidean_division_equations. lia.
Qed.

(** C10: a lookup from end to end.  The client's message goes to the handle it was
    given; in any copy the driver makes of it the service manager's handler finds a
    request for this name and answers with what its registry says; and when the
    driver hands that reply over, whatever else it returned before,
    [svcmgr_lookup] returns the handle, having taken a reference unless it is 0, and
    has freed the reply. *)
Theorem lookup_end_to_end (p : process A) (q : process svcmgr) k name target :
  client_ok iodata readbuf (u_mem p) -> server_ok Ks k q -> sizeof_flat_binder_object <= 224 ->
  value_ok (VString16 name) -> name_fits name -> 0 <= target < 2 ^ 32 ->
  exists m1 msg, put_header Kc iodata (u_mem p) name = Ret (m1, msg) /\
    let t1 := call_txn Kc msg target SVC_MGR_CHECK_SERVICE in
    td_handle t1 = target /\
    forall t2, txn_range t2 -> copied m1 t1 (u_mem q) t2 ->
      td_target t2 = BINDER_SERVICE_MANAGER -> td_code t2 = td_code t1 -> td_flags t2 = td_flags t1 ->
      let h := reg_find P (current_handle P k) (registry_of (u_app q)) name
                 (td_sender_euid t2) (td_sender_pid t2) in
      exists q' t3, serve 64 Ks q (svcmgr_handler P) t2 = Ret q' /\
        u_sent q' = u_sent q ++ [reply_bytes t2 t3] /\ registry_of (u_app q') = registry_of (u_app q) /\
        reply_holds (u_mem q') t3 h /\
        forall tr bs t4, arrives_all iodata readbuf (u_mem p) bs -> call_end_of bs = Replies t4 ->
          hands_over tr (u_mem q') t3 (u_mem p) t4 ->
          exists m', svcmgr_lookup Kc iodata readbuf death p (map driver_answer bs) target name =
            Ret (Some (tr h, Process m' (u_sent p ++ lookup_sent t1 t4 (tr h)) (u_app p))).
Proof.
  intros Hc Hq Hsz Hn Hfit Ht.
  destruct (put_header_spec Kc iodata readbuf (u_mem p) name Hc Hn) as (m1 & msg & E & W1 & Hw & Hov & Hr).
  exists m1, msg. split; [exact E|]. intros t1. split; [by apply call_txn_handle|].
  intros t2 Hrg Hcp Htt Htc Htf h.
  assert (about msg t1) as Hab by done. destruct (Hr (Hov Hfit) t1 Hab) as (r & Hrb & _).
  assert (txn_range t1) as Hrg1 by by eapply about_range.
  destruct (moved_reads_back m1 (u_mem q) (request_values 0 (FindService name)) _
    (bio_init_from_txn 64 t2) r (copied_moved _ _ _ _ Hrg1 Hrg Hcp)) as (r2 & Hrb2 & _); [rewrite from_txn_small by done; apply Hrg1|by apply request_ok|exact Hrb|].
  destruct (find_served P Ks k q t2 r2 name Hq Hsz Htt Htc Htf Hn Hrb2) as (q' & t3 & Eq & Es & ER & Hh).
  fold h in Hh. exists q', t3. split; [exact Eq|]. split; [exact Es|]. split; [exact ER|]. split; [exact Hh|].
  intros tr bs t4 Ha Hend Hho.
  destruct (lookup_spec Kc iodata readbuf death p bs target name Hc Hn Ha)
    as (m1' & msg' & m2 & E' & _ & x & Ex & Hx).
  rewrite E in E'. injection E' as <- <-. rewrite (Hov Hfit), Hend in Hx.
  destruct Hx as (h' & Hh' & ->). exists m2. rewrite Ex.
  assert (h' = tr h) as -> by (eapply handle_in_det; [exact Hh'|]; by apply reply_holds_in, Hho).
  done.
Qed.

End EndToEnd.

(** ** Publishing, and the program *)

Section Main.
Context `{U : BinderUapi} (K : stack) (iodata readbuf : Z).

Lemma put_obj_writer m D M N bio ptr : writer_ok m D M N bio ->
  exists m' bio', bio_put_obj 64 m bio ptr = Ret (m', bio') /\ writer_ok m' D M N bio' /\
    wrote D M N m bio m' bio'.
Proof.
  intros Hok. unfold bio_put_obj.
  destruct (bio_alloc_obj_spec D M N m bio Hok) as (o & m1 & b1 & -> & Hok1 & Hw & H). cbn [res_bind].
  destruct o as [a|]; [|by exists m1, b1]. destruct H as (-> & Ed & Hle & _).
  pose proof sizeof_flat_pos. pose proof sizeof_flat_small.
  destruct (round4_bounds sizeof_flat_binder_object) as [Hrd _]; [lia|].
  assert (Hok' := Hok). destruct Hok' as [_ _ [HD HM] [HN _] _ (Hd & _) _].
  unfold store_obj. destruct (load_mapped m1 (io_data bio) sizeof_flat_binder_object) as (l & -> & _).
  { destruct Hok1 as [_ Hm1 _ _ _ (? & ? & ?) _]. apply (mapped_sub _ _ _ _ _ Hm1); lia. }
  cbn [res_bind].
  set (o := FlatBinderObject BINDER_TYPE_BINDER obj_flags (usize 64 ptr) 0). pose proof (length_fo_encode o).
  destruct (store_spec D M N m m1 bio b1 (io_data bio) (fo_encode o) Hok1 Hw (fo_encode_bytes o))
    as (-> & Hok2 & Hw2); [left; destruct Hok1 as [_ _ _ _ _ (? & ? & ?) _]; lia|].
  cbn [res_bind]. eexists _, b1. split; [reflexivity|]. done.
Qed.

Lemma writer_writes m D M N bio m' bio' : writer_ok m D M N bio -> writer_ok m' D M N bio' ->
  wrote D M N m bio m' bio' -> writes_in D M m m'.
Proof.
  intros [_ _ _ _ _ (Hd & _) (Ho & _)] Hw' (_ & _ & Hs & _).
  assert (forall x, ~ (D <= x < D + M) -> m' !! x = m !! x) as Hout.
  { intros x Hx. destruct Hw' as [_ _ ? ? _ ? ?]. apply Hs; lia. }
  split; [|exact Hout|intros _; apply Hw'].
  intros x Hx. destruct (decide (D <= x < D + M)) as [Hin|]; [by apply Hw'|by rewrite Hout].
Qed.

Context {A : Type} (death : @death_func A).
Notation proc := (process A).

Lemma publish_spec (p : proc) bs target name ptr :
  client_ok iodata readbuf (u_mem p) -> value_ok (VString16 name) -> arrives_all iodata readbuf (u_mem p) bs ->
  exists m1 b1 m2 msg m3, put_header K iodata (u_mem p) name = Ret (m1, b1) /\
    bio_put_obj 64 m1 b1 ptr = Ret (m2, msg) /\ writes_locals iodata readbuf (u_mem p) m3 /\
    let request := call_bytes K msg target SVC_MGR_ADD_SERVICE in
    exists r, svcmgr_publish K iodata readbuf death p (map driver_answer bs) target name ptr = Ret r /\
    if io_has msg BIO_F_OVERFLOW then r = Some (-1, Process m3 (u_sent p) (u_app p))
    else match call_end_of bs with
    | Waits => r = None
    | Fails => r = Some (-1, Process m3 (u_sent p ++ [request]) (u_app p))
    | Replies t => exists n b, bio_get_uint32 64 (u_mem p) (bio_init_from_txn 64 t) = Ret (n, b) /\
        r = Some (i32 n, Process m3 (u_sent p ++ [request; free_bytes t]) (u_app p))
    end.
Proof.
  intros Hc Hn [Hbs Ha]. destruct (put_header_spec K iodata readbuf (u_mem p) name Hc Hn)
    as (m1 & b1 & E & W1 & Hw1 & _). exists m1, b1.
  destruct (put_obj_writer m1 iodata 512 4 b1 ptr Hw1) as (m2 & msg & E2 & Hw2 & Hwr).
  exists m2, msg. assert (writes_in iodata 512 (u_mem p) m2) as W2
    by (eapply writes_in_trans; [exact W1|by eapply writer_writes]).
  assert (client_ok iodata readbuf (u_mem (set_u_mem m2 p))) as Hc2.
  { eapply client_later; [|exact Hc]. exists m2. split; [done|apply writes_in_refl]. }
  destruct (binder_call_end K iodata readbuf death (set_u_mem m2 p) bs msg (st_reply K) target
    SVC_MGR_ADD_SERVICE Hc2 Hbs) as (m3 & W3 & E3).
  unfold svcmgr_publish. rewrite E. cbn [res_bind]. rewrite E2. cbn [res_bind]. rewrite E3. cbn [res_bind].
  destruct (io_has msg BIO_F_OVERFLOW).
  { exists m2. do 2 (split; [done|]). split; [exists m2; split; [done|apply writes_in_refl]|]. by eexists. }
  exists m3. do 2 (split; [done|]). split; [by exists m2|]. destruct (call_end_of bs) as [| |t]; [by eexists..|].
  cbn [call_result set_u_mem u_mem u_sent u_app]. change (negb (0 =? 0)) with false. cbn iota.
  destruct (Ha t eq_refl) as [Hd Hap]. assert (Hd' := Hd). destruct Hd' as (B1 & B2 & B3 & B4 & M1 & M2).
  destruct (bio_init_from_txn_reader (u_mem p) t) as (Hr & _); try done; [apply Hc|].
  destruct (bio_get_uint32_spec (u_mem p) _ Hr) as (n & b & En & _).
  assert (moved (u_mem p) (bio_init_from_txn 64 t) m3 (bio_init_from_txn 64 t)) as Hm
    by (eapply arrives_moved; [by exists m2|done|done]).
  destruct (moved_uint32 _ _ _ _ n b Hm (proj1 (rd_avail _ _ Hr)) En) as (b2 & En2 & _).
  rewrite En2. cbn [res_bind]. destruct (binder_done 64 _ b2) as [p' b'] eqn:Ed.
  eexists. split; [reflexivity|]. exists n, b. split; [done|].
  pose proof (f_equal fst Ed) as Ed1. rewrite (binder_done_reply _ t) in Ed1 by (try done; by eapply kept_uint32).
  cbn [fst] in Ed1. subst p'. unfold binder_write. cbn [u_mem u_sent u_app]. by rewrite <- app_assoc.
Qed.

Lemma arrives_later m m' bs : writes_locals iodata readbuf m m' ->
  arrives_all iodata readbuf m bs -> arrives_all iodata readbuf m' bs.
Proof.
  intros (m1 & W1 & W2) [Hb Ha]. split; [done|]. intros t Et.
  destruct (Ha t Et) as [(? & ? & ? & ? & M1 & M2) Hap]. split; [|done]. repeat (split; [done|]).
  split; do 2 (eapply writes_in_mapped; [eassumption|]); done.
Qed.

(** A call comes back, unless it waits, with only the stack written. *)
Definition call_returns (p : proc) (x : res (option (Z * proc))) : Prop :=
  exists r, x = Ret r /\
    match r with
    | None => True
    | Some (_, p') => writes_locals iodata readbuf (u_mem p) (u_mem p') /\ u_app p' = u_app p
    end.

Lemma lookup_returns (p : proc) bs target name :
  client_ok iodata readbuf (u_mem p) -> value_ok (VString16 name) -> arrives_all iodata readbuf (u_mem p) bs ->
  call_returns p (svcmgr_lookup K iodata readbuf death p (map driver_answer bs) target name).
Proof.
  intros Hc Hn Ha. destruct (lookup_spec K iodata readbuf death p bs target name Hc Hn Ha)
    as (m1 & msg & m2 & _ & Hw & r & E & Hr). exists r. split; [done|].
  destruct (io_has msg _); [by subst r|]. destruct (call_end_of bs) as [| |t]; [by subst r..|].
  by destruct Hr as (h & _ & ->).
Qed.

Lemma publish_returns (p : proc) bs target name ptr :
  client_ok iodata readbuf (u_mem p) -> value_ok (VString16 name) -> arrives_all iodata readbuf (u_mem p) bs ->
  call_returns p (svcmgr_publish K iodata readbuf death p (map driver_answer bs) target name ptr).
Proof.
  intros Hc Hn Ha. destruct (publish_spec p bs target name ptr Hc Hn Ha)
    as (m1 & b1 & m2 & msg & m3 & _ & _ & Hw & r & E & Hr). exists r. split; [done|].
  destruct (io_has msg _); [by subst r|]. destruct (call_end_of bs) as [| |t]; [by subst r..|].
  by destruct Hr as (n & b & _ & ->).
Qed.

End Main.

Section Words.
Context `{U : BinderUapi} (O : os) (K : stack) (iodata readbuf : Z).
Context (death : @death_func (list line)) (token : Z).

Notation proc := (process (list line)).

(** Why the program gives up. *)
Definition complaint (l : line) : bool :=
  match l with
  | FailedToOpen | CannotFindAlt | ArgumentRequired | UnknownCommand _ => true
  | Via _ | Looked _ _ => false
  end.

(** How it ends: 0 without a complaint, -1 with one as its last line. *)
Definition ends_well (r : option (Z * proc)) : Prop :=
  match r with
  | None => True
  | Some (status, p) =>
      status = 0 /\ Forall (fun l => complaint l = false) (u_app p) \/
      status = -1 /\ exists ls l, u_app p = ls ++ [l] /\ complaint l = true /\
        Forall (fun l => complaint l = false) ls
  end.

(** Before a word. *)
Record words_ok (argv : list (list Z)) (calls : list (list batch)) (p : proc) : Prop := {
  wo_stack : client_ok iodata readbuf (u_mem p);
  wo_calls : Forall (arrives_all iodata readbuf (u_mem p)) calls;
  wo_names : Forall (fun w => value_ok (VString16 w)) argv;
  wo_lines : Forall (fun l => complaint l = false) (u_app p)
}.

Lemma gives_up argv calls p l : words_ok argv calls p -> complaint l = true ->
  ends_well (Some (-1, fprintf l p)).
Proof. intros H Hl. right. split; [done|]. exists (u_app p), l. split; [done|]. by split; [|apply H]. Qed.

Lemma words_next argv argv' calls p p' ls : words_ok argv calls p ->
  writes_locals iodata readbuf (u_mem p) (u_mem p') -> u_app p' = u_app p ++ ls ->
  Forall (fun l => complaint l = false) ls -> (exists ws, argv = ws ++ argv') ->
  words_ok argv' (tail calls) p'.
Proof.
  intros [Hs Hc Hn Hl] Hw Ea Hls [ws ->]. split.
  - by eapply client_later.
  - destruct Hc as [|bs calls _ Hc]; [constructor|]. eapply Forall_impl; [exact Hc|]. intros bs'.
    by apply arrives_later.
  - by apply Forall_app in Hn as [_ Hn].
  - rewrite Ea. by apply Forall_app.
Qed.

(** The answers to the next call. *)
Lemma next_call argv calls p : words_ok argv calls p ->
  exists bs, hd [] (map (map driver_answer) calls) = map driver_answer bs /\
    arrives_all iodata readbuf (u_mem p) bs.
Proof.
  intros [_ Hc _ _]. destruct Hc as [|bs calls Hb _]; [|by exists bs].
  exists []. split; [done|]. by split.
Qed.

Lemma run_words_safe n : forall argv svcmgr calls p, (length argv <= n)%nat -> words_ok argv calls p ->
  exists r, run_words K iodata readbuf death token argv svcmgr (map (map driver_answer) calls) p = Ret r /\
    ends_well r.
Proof.
  induction n as [|n IH]; intros argv svcmgr calls p Hl Hw.
  { destruct argv; [|simpl in Hl; lia]. eexists. split; [reflexivity|]. left. split; [done|apply Hw]. }
  destruct argv as [|w argv]; [eexists; split; [reflexivity|]; left; split; [done|apply Hw]|].
  simpl in Hl. assert (tail (map (map driver_answer) calls) = map (map driver_answer) (tail calls)) as Et
    by by destruct calls.
  destruct (next_call _ _ _ Hw) as (bs & Ebs & Ha). cbn [run_words]. unfold driver_answers in *. rewrite Ebs, Et.
  pose proof (wo_names _ _ _ Hw) as Hnames. apply Forall_cons in Hnames as [_ Hnames].
  assert (forall ls argv' p', writes_locals iodata readbuf (u_mem p) (u_mem p') ->
    u_app p' = u_app p -> Forall (fun l => complaint l = false) ls -> (exists ws, w :: argv = ws ++ argv') ->
    words_ok argv' (tail calls) (set_u_app (u_app p' ++ ls) p')) as Hnext.
  { intros ls argv' p' H1 H2 H3 H4. apply (words_next (w :: argv) argv' calls p _ ls); try done.
    simpl. by rewrite H2. }
  assert (forall argv' p', writes_locals iodata readbuf (u_mem p) (u_mem p') -> u_app p' = u_app p ->
    (exists ws, w :: argv = ws ++ argv') -> words_ok argv' (tail calls) p') as Hnext0.
  { intros argv' p' H1 H2 H3. apply (words_next (w :: argv) argv' calls p _ []); try done.
    by rewrite app_nil_r. }
  case_bool_decide.
  { destruct (lookup_returns K iodata readbuf death p bs svcmgr (chars "alt_svc_mgr")) as (r & -> & Hr);
      [apply Hw|split; [apply (bool_decide_unpack _); by vm_compute|done]|done|]. cbn [res_bind].
    destruct r as [[h p']|]; [|by eexists]. destruct Hr as [Hm Hu].
    destruct (h =? 0).
    - eexists. split; [reflexivity|]. eapply (gives_up argv (tail calls)); [|done].
      apply Hnext0; [done|done|by exists [w]].
    - apply IH; [lia|]. apply Hnext; [done|done|by repeat constructor|by exists [w]]. }
  case_bool_decide.
  { destruct argv as [|name argv]; [eexists; split; [reflexivity|]; by eapply gives_up|].
    apply Forall_cons in Hnames as [Hname _]. simpl in Hl.
    destruct (lookup_returns K iodata readbuf death p bs svcmgr name) as (r & -> & Hr); [apply Hw|done..|].
    cbn [res_bind]. destruct r as [[h p']|]; [|by eexists]. destruct Hr as [Hm Hu].
    apply IH; [lia|]. apply Hnext; [done|done|by repeat constructor|by exists [w; name]]. }
  case_bool_decide.
  { destruct argv as [|name argv]; [eexists; split; [reflexivity|]; by eapply gives_up|].
    apply Forall_cons in Hnames as [Hname _]. simpl in Hl.
    destruct (publish_returns K iodata readbuf death p bs svcmgr name token) as (r & -> & Hr); [apply Hw|done..|].
    cbn [res_bind]. destruct r as [[h p']|]; [|by eexists]. destruct Hr as [Hm Hu].
    apply IH; [lia|]. apply Hnext0; [done|done|by exists [w; name]]. }
  eexists. split; [reflexivity|]. by eapply gives_up.
Qed.

(** The test program carries out its words, whatever the service manager answers:
    it does not fault, it may wait for an answer that does not come, and otherwise
    says 0, or -1 with the reason as its last line. *)
Theorem bctest_main_safe argv m calls h :
  client_ok iodata readbuf m -> Forall (arrives_all iodata readbuf m) calls ->
  Forall (fun w => value_ok (VString16 w)) argv ->
  exists r h', bctest_main O K iodata readbuf death token argv m (map (map driver_answer) calls) h = Ret (r, h') /\
    ends_well r.
Proof.
  intros Hc Ha Hn. unfold bctest_main. destruct (binder_open O _ _ h) as [[bs|] h'].
  - destruct (run_words_safe (length (tail argv)) (tail argv) BINDER_SERVICE_MANAGER calls (Process m [] []))
      as (r & E & Hr); [done|split; simpl; try done|].
    { by destruct Hn. }
    { rewrite E. cbn [res_bind]. by exists r, h'. }
  - eexists _, h'. split; [reflexivity|]. right. split; [done|]. exists [], FailedToOpen. done.
Qed.

End Words.

(** ** Example *)

(** A client's stack at 4096 and 8192, and a reply at 12288 with the handle 9; the
    service manager has a copy of the client's message at 16384, its own stack at
    8192 and 8704, and the service "a" under the handle 3. *)
Definition sample_reply : transaction_data := TransactionData 0 0 0 0 0 0 24 8 12288 12312.

Definition sample_client : user_memory :=
  write_bytes (write_bytes (write_bytes (sample_memory 4096 512) 8192 (repeat 0 128))
    12288 (fo_encode (FlatBinderObject BINDER_TYPE_HANDLE 0 9 0))) 12312 (le_encode 8 0).

Definition sample_request : user_memory * binder_io :=
  match put_header sample_stack 4096 sample_client [97] with Ret x => x | Bug _ => (∅, sample_bio) end.

Definition sample_request_txn : transaction_data :=
  call_txn sample_stack sample_request.2 0 SVC_MGR_CHECK_SERVICE.

(** As the driver delivers it. *)
Definition sample_delivered : transaction_data :=
  TransactionData 0 0 SVC_MGR_CHECK_SERVICE 0 100 1000 (td_data_size sample_request_txn) 0 16384 0.

Definition sample_server : process svcmgr :=
  Process
    (write_bytes (write_bytes (sample_memory 8192 256) 8704 [0; 0; 0; 0]) 16384
       (match load sample_request.1 (td_buffer sample_request_txn) (td_data_size sample_request_txn) with
        | Ret l => l | Bug _ => [] end))
    [] sample_svcmgr.

(** The client's handle for the service. *)
Definition sample_translation (h : Z) : Z := if h =? 0 then 0 else 9.

Lemma bytes_ok_check m : bool_decide (map_Forall (fun _ b => byte_ok b) m) = true -> bytes_ok m.
Proof. intros H x b E. apply bool_decide_eq_true in H. by apply (H x). Qed.

Lemma mapped_check m a n : bool_decide (Forall (fun x => is_Some (m !! x)) (seqZ a n)) = true -> mapped m a n.
Proof.
  intros H x Hx. apply bool_decide_eq_true in H. rewrite Forall_forall in H. apply H.
  apply elem_of_seqZ. lia.
Qed.

Lemma sample_client_ok : client_ok 4096 8192 sample_client.
Proof.
  split; [apply bytes_ok_check; by vm_compute|apply mapped_check; by vm_compute..|lia|lia].
Qed.

Lemma sample_server_ok : server_ok sample_loop_stack 5 sample_server.
Proof.
  split; [exact sample_svcmgr_wf|done|apply bytes_ok_check; by vm_compute|
    apply mapped_check; by vm_compute..|simpl; lia|unfold apart; simpl; lia].
Qed.

Lemma sample_copied : copied sample_request.1 sample_request_txn (u_mem sample_server) sample_delivered.
Proof.
  split; [done|done| |].
  - assert (Forall (fun i => u_mem sample_server !! (16384 + i) = sample_request.1 !! (4128 + i)) (seqZ 0 72)) as H
      by (apply (bool_decide_unpack _); by vm_compute).
    rewrite Forall_forall in H. change (td_data_size sample_request_txn) with 72. intros i Hi. apply H.
    apply elem_of_seqZ. lia.
  - change (td_offsets_size sample_request_txn) with 0. lia.
Qed.

Lemma sample_arrives bs : call_end_of bs = Replies sample_reply -> Forall batch_ok bs ->
  arrives_all 4096 8192 sample_client bs.
Proof.
  intros E Hb. split; [done|]. intros t Et. rewrite E in Et. injection Et as <-.
  unfold arrives, delivered, apart. cbn [td_buffer td_offsets td_data_size td_offsets_size sample_reply].
  do 1 (split; [do 4 (split; [lia|]); split; apply mapped_check; by vm_compute|]). lia.
Qed.

(** The driver says that the call is under way, and then brings the reply. *)
Definition sample_batches : list batch :=
  [Some [RNothing BR_NOOP; RNothing BR_TRANSACTION_COMPLETE]; Some [RNothing BR_NOOP; RReply sample_reply]].

Lemma sample_batches_ok : Forall batch_ok sample_batches.
Proof.
  repeat constructor; try (apply (bool_decide_unpack _); by vm_compute); by vm_compute.
Qed.

Definition sample_lookup : res (option (Z * process unit)) :=
  svcmgr_lookup sample_stack 4096 8192 (fun _ p => Ret p) (Process sample_client [] tt)
    (map driver_answer sample_batches) 0 [97].

Lemma lookup_end_to_end_witness :
  (exists q', serve 64 sample_loop_stack sample_server (svcmgr_handler sample_policy) sample_delivered = Ret q') /\
  exists m', sample_lookup =
    Ret (Some (9, Process m' (lookup_sent sample_request_txn sample_reply 9) tt)).
Proof.
  destruct (lookup_end_to_end sample_policy sample_stack sample_loop_stack 4096 8192 (fun _ p => Ret p)
    (Process sample_client [] tt) sample_server 5 [97] 0 sample_client_ok sample_server_ok)
    as (m1 & msg & E & _ & H); [discriminate|split; [by repeat constructor|done]|unfold name_fits; simpl; lia|lia|].
  assert (sample_request = (m1, msg)) as Ereq by (cbn [u_mem] in E; unfold sample_request; by rewrite E).
  assert (sample_request.1 = m1) as Em1 by exact (f_equal fst Ereq).
  assert (sample_request.2 = msg) as Emsg by exact (f_equal snd Ereq).
  clear E Ereq. subst m1 msg.
  destruct (H sample_delivered) as (q' & t3 & Eq & _ & _ & Hh & Hc);
    [|exact sample_copied|reflexivity|reflexivity|reflexivity|].
  { unfold txn_range. change (td_data_size sample_delivered) with 72. cbn [td_buffer td_offsets td_offsets_size
      sample_delivered]. lia. }
  split; [by exists q'|].
  destruct (Hc sample_translation sample_batches sample_reply) as (m' & Em).
  - apply sample_arrives; [reflexivity|exact sample_batches_ok].
  - reflexivity.
  - intros h Hr. change (reg_find _ _ _ _ _ _) with 3 in Hh.
    assert (h = 3) as -> by (eapply handle_in_det; by apply reply_holds_in).
    change (sample_translation 3) with 9. unfold reply_holds. change (9 =? 0) with false. cbn iota.
    eexists. cbn [reads_back gets]. eexists. split; [|reflexivity]. by vm_compute.
  - exists m'. exact Em.
Defined.
