(* ===== verification/Parcel.v ===== *)
(** * Parcel: what the C++ code relies on from libbinder and libutils

    [Parcel] and [RefBase] are not part of the repository.  [ParcelLib] is the
    interface the C++ code uses: a growing array of bytes with a position, an
    error status, and, for a parcel that is sent, the address of its data.  The
    laws are those of the class's documentation, for parcels of commands, that
    are written at their end.  [sample_parcel] is an instance. *)

From S2P Require Import Prelude.

Definition NO_ERROR : Z := 0.

Class ParcelLib := {
  parcel : Type;
  parcel_new : parcel;

  (** The bytes up to [dataSize()]. *)
  p_bytes : parcel -> list Z;
  dataPosition : parcel -> Z;
  dataCapacity : parcel -> Z;
  errorCheck : parcel -> Z;
  setError : Z -> parcel -> parcel;
  setDataSize : Z -> parcel -> parcel;
  setDataPosition : Z -> parcel -> parcel;
  setDataCapacity : Z -> parcel -> parcel;
  (** [remove(start, amt)]. *)
  p_remove : Z -> Z -> parcel -> parcel;
  (** Someone else writes at [data()]. *)
  p_fill : list Z -> parcel -> parcel;

  writeInt32 : Z -> parcel -> parcel;
  writePointer : Z -> parcel -> parcel;
  p_write : list Z -> parcel -> parcel;
  readInt32 : parcel -> Z * parcel;
  readPointer : parcel -> Z * parcel;
  (** [read(p, n)]: the status, the bytes. *)
  p_read : Z -> parcel -> Z * list Z * parcel;

  (** The parcel as it is handed to the driver and taken from it. *)
  ipcData : parcel -> Z;
  ipcDataSize : parcel -> Z;
  ipcObjects : parcel -> Z;
  ipcObjectsCount : parcel -> Z;
  ipcSetDataReference : Z -> Z -> Z -> Z -> parcel -> parcel;

  readStrongBinder : parcel -> option Z * parcel;
  writeStrongBinder : option Z -> parcel -> parcel;
  readString16 : parcel -> list Z * parcel;
  writeString16 : list Z -> parcel -> parcel;
  writeFileDescriptor : Z -> parcel -> parcel;

  (** ** Laws *)

  at_end (p : parcel) : Prop := dataPosition p = Z.of_nat (length (p_bytes p));

  p_bytes_new : p_bytes parcel_new = [];
  dataPosition_new : dataPosition parcel_new = 0;
  writeInt32_bytes x p : at_end p -> p_bytes (writeInt32 x p) = p_bytes p ++ le_encode 4 (u32 x);
  writeInt32_end x p : at_end p -> at_end (writeInt32 x p);
  writePointer_bytes x p : at_end p -> p_bytes (writePointer x p) = p_bytes p ++ le_encode 8 (u64 x);
  writePointer_end x p : at_end p -> at_end (writePointer x p);
  write_bytes_law l p : at_end p -> (4 | Z.of_nat (length l)) ->
    p_bytes (p_write l p) = p_bytes p ++ l;
  write_end l p : at_end p -> (4 | Z.of_nat (length l)) -> at_end (p_write l p);
  setDataSize_0 p : p_bytes (setDataSize 0 p) = [];
  setDataSize_0_end p : at_end p -> at_end (setDataSize 0 p);
  setDataCapacity_bytes n p : p_bytes (setDataCapacity n p) = p_bytes p;
  setDataCapacity_pos n p : dataPosition (setDataCapacity n p) = dataPosition p;
  setDataCapacity_cap n p : n <= dataCapacity (setDataCapacity n p);

  (** The driver's bytes become the parcel's. *)
  fill_bytes l p : Z.of_nat (length l) <= dataCapacity p ->
    p_bytes (setDataPosition 0 (setDataSize (Z.of_nat (length l)) (p_fill l p))) = l;
  fill_pos p : dataPosition (setDataPosition 0 p) = 0;
  fill_cap l p : Z.of_nat (length l) <= dataCapacity p ->
    dataCapacity (setDataPosition 0 (setDataSize (Z.of_nat (length l)) (p_fill l p))) =
    dataCapacity p;
  fill_error l p : Z.of_nat (length l) <= dataCapacity p ->
    errorCheck (setDataPosition 0 (setDataSize (Z.of_nat (length l)) (p_fill l p))) = errorCheck p;

  readInt32_value p : 0 <= dataPosition p ->
    dataPosition p + 4 <= Z.of_nat (length (p_bytes p)) ->
    (readInt32 p).1 = i32 (le_decode (take 4 (drop (Z.to_nat (dataPosition p)) (p_bytes p))));
  readInt32_pos p : 0 <= dataPosition p ->
    dataPosition p + 4 <= Z.of_nat (length (p_bytes p)) ->
    dataPosition (readInt32 p).2 = dataPosition p + 4;
  readInt32_bytes p : p_bytes (readInt32 p).2 = p_bytes p;
  readInt32_cap p : dataCapacity (readInt32 p).2 = dataCapacity p;
  readInt32_error p : errorCheck (readInt32 p).2 = errorCheck p;
  readPointer_value p : 0 <= dataPosition p ->
    dataPosition p + 8 <= Z.of_nat (length (p_bytes p)) ->
    (readPointer p).1 = le_decode (take 8 (drop (Z.to_nat (dataPosition p)) (p_bytes p)));
  readPointer_pos p : 0 <= dataPosition p ->
    dataPosition p + 8 <= Z.of_nat (length (p_bytes p)) ->
    dataPosition (readPointer p).2 = dataPosition p + 8;
  readPointer_bytes p : p_bytes (readPointer p).2 = p_bytes p;
  readPointer_cap p : dataCapacity (readPointer p).2 = dataCapacity p;

  (** A read never goes back, and reading past the end gives an error. *)
  read_value n p : 0 <= dataPosition p -> 0 <= n ->
    dataPosition p + n <= Z.of_nat (length (p_bytes p)) ->
    p_read n p = (NO_ERROR, take (Z.to_nat n) (drop (Z.to_nat (dataPosition p)) (p_bytes p)),
                  (p_read n p).2);
  read_pos n p : 0 <= dataPosition p -> 0 <= n ->
    dataPosition p + n <= Z.of_nat (length (p_bytes p)) -> (4 | n) ->
    dataPosition (p_read n p).2 = dataPosition p + n;
  read_bytes n p : p_bytes (p_read n p).2 = p_bytes p;
  errorCheck_setError e p : errorCheck (setError e p) = e
}.

Definition dataSize `{ParcelLib} (p : parcel) : Z := Z.of_nat (length (p_bytes p)).

Definition dataAvail `{ParcelLib} (p : parcel) : Z := dataSize p - dataPosition p.

(** ** A concrete instance *)

Record sample := Sample {
  sa_bytes : list Z;
  sa_pos : Z;
  sa_cap : Z;
  sa_err : Z;
  sa_store : list Z;
  sa_ref : Z * Z * Z * Z
}.

Definition sa_set (l : list Z) (pos : Z) (p : sample) : sample :=
  Sample l pos (sa_cap p) (sa_err p) (sa_store p) (sa_ref p).

Definition sa_append (l : list Z) (p : sample) : sample :=
  sa_set (sa_bytes p ++ l) (sa_pos p + Z.of_nat (length l)) p.

Definition sa_take (n : nat) (p : sample) : list Z :=
  take n (drop (Z.to_nat (sa_pos p)) (sa_bytes p)).

Definition sa_read (n : nat) (p : sample) : sample :=
  if sa_pos p + Z.of_nat n <=? Z.of_nat (length (sa_bytes p))
  then sa_set (sa_bytes p) (sa_pos p + Z.of_nat n) p else p.

#[global] Instance sample_parcel : ParcelLib.
Proof.
  refine {|
    parcel := sample;
    parcel_new := Sample [] 0 0 0 [] (0, 0, 0, 0);
    p_bytes := sa_bytes; dataPosition := sa_pos; dataCapacity := sa_cap; errorCheck := sa_err;
    setError := fun e p => Sample (sa_bytes p) (sa_pos p) (sa_cap p) e (sa_store p) (sa_ref p);
    setDataSize := fun n p =>
      let l := take (Z.to_nat n) (sa_store p ++ sa_bytes p) in
      sa_set l (Z.min (sa_pos p) (Z.of_nat (length l))) p;
    setDataPosition := fun n p => sa_set (sa_bytes p) n p;
    setDataCapacity := fun n p =>
      Sample (sa_bytes p) (sa_pos p) (Z.max n (sa_cap p)) (sa_err p) (sa_store p) (sa_ref p);
    p_remove := fun a n p => sa_set (take (Z.to_nat a) (sa_bytes p) ++
                                     drop (Z.to_nat (a + n)) (sa_bytes p)) (sa_pos p - n) p;
    p_fill := fun l p => Sample (sa_bytes p) (sa_pos p) (sa_cap p) (sa_err p) l (sa_ref p);
    writeInt32 := fun x => sa_append (le_encode 4 (u32 x));
    writePointer := fun x => sa_append (le_encode 8 (u64 x));
    p_write := sa_append;
    readInt32 := fun p => (i32 (le_decode (sa_take 4 p)), sa_read 4 p);
    readPointer := fun p => (le_decode (sa_take 8 p), sa_read 8 p);
    p_read := fun n p =>
      (if sa_pos p + n <=? Z.of_nat (length (sa_bytes p)) then 0 else -61,
       sa_take (Z.to_nat n) p, sa_read (Z.to_nat n) p);
    ipcData := fun p => (sa_ref p).1.1.1; ipcDataSize := fun p => (sa_ref p).1.1.2;
    ipcObjects := fun p => (sa_ref p).1.2; ipcObjectsCount := fun p => (sa_ref p).2;
    ipcSetDataReference := fun d n o k p =>
      Sample (sa_bytes p) 0 (sa_cap p) 0 (sa_store p) (d, n, o, k);
    readStrongBinder := fun p => (Some (le_decode (sa_take 8 p)), sa_read 8 p);
    writeStrongBinder := fun b => sa_append (le_encode 8 (default 0 b));
    readString16 := fun p => (sa_bytes p, p);
    writeString16 := sa_append;
    writeFileDescriptor := fun fd => sa_append (le_encode 4 fd) |}.
  all: cbn -[le_encode le_decode u32 u64 i32 Z.of_nat Z.min Z.max];
    unfold sa_read, sa_take, sa_append, sa_set;
    cbn -[le_encode le_decode u32 u64 i32 Z.of_nat Z.min Z.max]; try done.
  all: try (intros; rewrite ?length_app, ?length_le_encode; lia).
  all: intros; rewrite ?Nat2Z.id, ?take_app_length; try done.
  all: try (simpl; lia).
  all: match goal with |- context [?a <=? ?b] => destruct (Z.leb_spec a b) end.
  all: cbn [sa_bytes sa_pos sa_cap]; try done; lia.
Defined.
