(* ===== verification/CppWorld.v ===== *)
(** * CppWorld: the state of a process that uses the C++ library

    The objects of native/IPCThreadState.cpp, native/ProcessState.cpp,
    native/BpBinder.h and native/BpBinder.cpp, the monad their methods run in, and the outside world
    they act on: ioctls are answered from a list, so a call with no answer left
    is still waiting; actions on code that is not modelled (reference counts,
    threads, callbacks) are logged in order. *)

From S2P Require Import Prelude Parcel.

(** ** The monad *)

Inductive outcome (W A : Type) : Type :=
| Value (a : A) (w : W)
| Blocked (w : W)
| Crash (line : Z)
| NoFuel.
Arguments Value {W A}.
Arguments Blocked {W A}.
Arguments Crash {W A}.
Arguments NoFuel {W A}.

Definition prog (W A : Type) : Type := W -> outcome W A.

Definition ret {W A} (a : A) : prog W A := fun w => Value a w.

Definition bind {W A B} (m : prog W A) (f : A -> prog W B) : prog W B := fun w =>
  match m w with
  | Value a w => f a w
  | Blocked w => Blocked w
  | Crash l => Crash l
  | NoFuel => NoFuel
  end.

Declare Scope cpp_scope.
Delimit Scope cpp_scope with cpp.
Notation "'do!' x ':=' m 'in' k" := (bind m (fun x => k))
  (at level 10, x name, m at level 100, k at level 200) : cpp_scope.
Notation "'do!' ' x ':=' m 'in' k" := (bind m (fun x => k))
  (at level 10, x strict pattern, m at level 100, k at level 200) : cpp_scope.
Notation "m ';;;' k" := (bind m (fun _ => k))
  (at level 60, right associativity) : cpp_scope.
#[global] Open Scope cpp_scope.

Definition gets {W A} (f : W -> A) : prog W A := fun w => Value (f w) w.
Definition modify {W} (f : W -> W) : prog W unit := fun w => Value tt (f w).
Definition crash {W A} (line : Z) : prog W A := fun _ => Crash line.
Definition out_of_fuel {W A} : prog W A := fun _ => NoFuel.

Definition when {W} (c : bool) (m : prog W unit) : prog W unit := if c then m else ret tt.

(** ** Status codes, <utils/Errors.h> and errno *)

Record errors := Errors {
  DEAD_OBJECT : Z;
  FAILED_TRANSACTION : Z;
  INVALID_OPERATION : Z;
  UNKNOWN_ERROR : Z;
  NOT_ENOUGH_DATA : Z;
  NAME_NOT_FOUND : Z;
  NO_MEMORY : Z;
  TIMED_OUT : Z
}.

(** The values on Linux. *)
Definition linux_errors : errors :=
  Errors (-32) (-2147483646) (-38) (-2147483648) (-61) (-2) (-12) (-110).

Definition EBADF : Z := 9.
Definition EINTR : Z := 4.
Definition ECONNREFUSED : Z := 111.

(** ** Objects *)

Section Lib.
Context `{PL : ParcelLib}.

Record ipc_thread := IpcThread {
  mIn : parcel;
  mOut : parcel;
  mCallingPid : Z;
  mCallingUid : Z;
  mStrictModePolicy : Z;
  mLastTransactionBinderFlags : Z;
  mLastError : Z;
  mPendingWeakDerefs : list Z;
  mPendingStrongDerefs : list Z
}.

(** [struct handle_entry]: the proxy, and its weak count. *)
Record handle_entry := HandleEntry {
  e_binder : option Z;
  e_refs : option Z
}.

Record process_state := ProcessSt {
  mDriverFD : Z;
  mVMStart : Z;
  mManagesContexts : bool;
  mBinderContextCheckFunc : option Z;
  mBinderContextUserData : option Z;
  mContexts : list (list Z * option Z);
  mHandleToObject : list handle_entry;
  mThreadPoolStarted : bool;
  mThreadPoolSeq : Z
}.

(** [struct Obituary]; a recipient is a weak pointer. *)
Record obituary := Obituary {
  o_recipient : option Z;
  o_cookie : Z;
  o_flags : Z
}.

(** [struct entry_t] of the object manager. *)
Record object_entry := ObjectEntry {
  oe_object : Z;
  oe_cleanupCookie : Z;
  oe_func : option Z
}.

Record bp_binder := BpBinderObj {
  mHandle : Z;
  mAlive : bool;
  mObitsSent : bool;
  mObituaries : option (list obituary);
  mObjects : list (Z * object_entry);
  mDescriptorCache : list Z
}.

(** What a call of [ioctl] on the driver is asked to do, and what it answers. *)
Inductive ioctl_call : Type :=
| IoWriteRead (written : list Z) (read_size : Z)
| IoSetContextMgr
| IoSetMaxThreads (n : Z)
| IoThreadExit
| IoVersion.

Record ioctl_answer := IoctlAnswer {
  io_ret : Z;
  io_errno : Z;
  io_write_consumed : Z;
  io_read : list Z
}.

(** What the code does to the code that is not modelled. *)
Inductive event : Type :=
| EvIoctl (fd : Z) (c : ioctl_call)
| EvIncStrong (obj : Z)
| EvDecStrong (obj : Z)
| EvIncWeak (refs : Z)
| EvDecWeak (refs : Z)
| EvForceSet (obj : Z)
| EvCloseFds (data : Z)
| EvSpawnThread (isMain : bool) (name : Z)
| EvSetSchedPolicy (foreground : bool)
| EvSetPriority (prio : Z)
| EvBinderDied (recipient proxy : Z)
| EvCleanup (func objectID object cookie : Z)
| EvThreadName (seq : Z)
| EvClose (fd : Z).

Record world := World {
  w_tid : Z;
  w_threads : gmap Z ipc_thread;
  w_have_tls : bool;
  w_shutdown : bool;
  w_disable_bg : bool;
  w_process : option process_state;
  w_proxies : gmap Z bp_binder;
  w_context_object : Z;
  w_answers : list ioctl_answer;
  w_new : list Z;
  w_log : list event
}.

Definition set_threads (v : gmap Z ipc_thread) (w : world) : world :=
  World (w_tid w) v (w_have_tls w) (w_shutdown w) (w_disable_bg w) (w_process w)
    (w_proxies w) (w_context_object w) (w_answers w) (w_new w) (w_log w).
Definition set_tls (v : bool) (w : world) : world :=
  World (w_tid w) (w_threads w) v (w_shutdown w) (w_disable_bg w) (w_process w)
    (w_proxies w) (w_context_object w) (w_answers w) (w_new w) (w_log w).
Definition set_shutdown (v : bool) (w : world) : world :=
  World (w_tid w) (w_threads w) (w_have_tls w) v (w_disable_bg w) (w_process w)
    (w_proxies w) (w_context_object w) (w_answers w) (w_new w) (w_log w).
Definition set_disable_bg (v : bool) (w : world) : world :=
  World (w_tid w) (w_threads w) (w_have_tls w) (w_shutdown w) v (w_process w)
    (w_proxies w) (w_context_object w) (w_answers w) (w_new w) (w_log w).
Definition set_process (v : option process_state) (w : world) : world :=
  World (w_tid w) (w_threads w) (w_have_tls w) (w_shutdown w) (w_disable_bg w) v
    (w_proxies w) (w_context_object w) (w_answers w) (w_new w) (w_log w).
Definition set_proxies (v : gmap Z bp_binder) (w : world) : world :=
  World (w_tid w) (w_threads w) (w_have_tls w) (w_shutdown w) (w_disable_bg w) (w_process w)
    v (w_context_object w) (w_answers w) (w_new w) (w_log w).
Definition set_context_object (v : Z) (w : world) : world :=
  World (w_tid w) (w_threads w) (w_have_tls w) (w_shutdown w) (w_disable_bg w) (w_process w)
    (w_proxies w) v (w_answers w) (w_new w) (w_log w).
Definition set_answers (v : list ioctl_answer) (w : world) : world :=
  World (w_tid w) (w_threads w) (w_have_tls w) (w_shutdown w) (w_disable_bg w) (w_process w)
    (w_proxies w) (w_context_object w) v (w_new w) (w_log w).
Definition set_new (v : list Z) (w : world) : world :=
  World (w_tid w) (w_threads w) (w_have_tls w) (w_shutdown w) (w_disable_bg w) (w_process w)
    (w_proxies w) (w_context_object w) (w_answers w) v (w_log w).
Definition add_log (e : event) (w : world) : world :=
  World (w_tid w) (w_threads w) (w_have_tls w) (w_shutdown w) (w_disable_bg w) (w_process w)
    (w_proxies w) (w_context_object w) (w_answers w) (w_new w) (w_log w ++ [e]).

Definition M (A : Type) : Type := prog world A.

Definition log (e : event) : M unit := modify (add_log e).

(** ** Field updates *)

Definition set_mIn (v : parcel) (t : ipc_thread) : ipc_thread :=
  IpcThread v (mOut t) (mCallingPid t) (mCallingUid t) (mStrictModePolicy t)
    (mLastTransactionBinderFlags t) (mLastError t) (mPendingWeakDerefs t)
    (mPendingStrongDerefs t).
Definition set_mOut (v : parcel) (t : ipc_thread) : ipc_thread :=
  IpcThread (mIn t) v (mCallingPid t) (mCallingUid t) (mStrictModePolicy t)
    (mLastTransactionBinderFlags t) (mLastError t) (mPendingWeakDerefs t)
    (mPendingStrongDerefs t).
Definition set_caller (pid uid : Z) (t : ipc_thread) : ipc_thread :=
  IpcThread (mIn t) (mOut t) pid uid (mStrictModePolicy t)
    (mLastTransactionBinderFlags t) (mLastError t) (mPendingWeakDerefs t)
    (mPendingStrongDerefs t).
Definition set_mStrictModePolicy (v : Z) (t : ipc_thread) : ipc_thread :=
  IpcThread (mIn t) (mOut t) (mCallingPid t) (mCallingUid t) v
    (mLastTransactionBinderFlags t) (mLastError t) (mPendingWeakDerefs t)
    (mPendingStrongDerefs t).
Definition set_mLastTransactionBinderFlags (v : Z) (t : ipc_thread) : ipc_thread :=
  IpcThread (mIn t) (mOut t) (mCallingPid t) (mCallingUid t) (mStrictModePolicy t)
    v (mLastError t) (mPendingWeakDerefs t) (mPendingStrongDerefs t).
Definition set_mLastError (v : Z) (t : ipc_thread) : ipc_thread :=
  IpcThread (mIn t) (mOut t) (mCallingPid t) (mCallingUid t) (mStrictModePolicy t)
    (mLastTransactionBinderFlags t) v (mPendingWeakDerefs t) (mPendingStrongDerefs t).
Definition set_mPendingWeakDerefs (v : list Z) (t : ipc_thread) : ipc_thread :=
  IpcThread (mIn t) (mOut t) (mCallingPid t) (mCallingUid t) (mStrictModePolicy t)
    (mLastTransactionBinderFlags t) (mLastError t) v (mPendingStrongDerefs t).
Definition set_mPendingStrongDerefs (v : list Z) (t : ipc_thread) : ipc_thread :=
  IpcThread (mIn t) (mOut t) (mCallingPid t) (mCallingUid t) (mStrictModePolicy t)
    (mLastTransactionBinderFlags t) (mLastError t) (mPendingWeakDerefs t) v.

Definition set_mDriverFD (v : Z) (p : process_state) : process_state :=
  ProcessSt v (mVMStart p) (mManagesContexts p) (mBinderContextCheckFunc p)
    (mBinderContextUserData p) (mContexts p) (mHandleToObject p) (mThreadPoolStarted p)
    (mThreadPoolSeq p).
Definition set_manager (v : bool) (func data : option Z) (p : process_state) : process_state :=
  ProcessSt (mDriverFD p) (mVMStart p) v func data (mContexts p) (mHandleToObject p)
    (mThreadPoolStarted p) (mThreadPoolSeq p).
Definition set_mContexts (v : list (list Z * option Z)) (p : process_state) : process_state :=
  ProcessSt (mDriverFD p) (mVMStart p) (mManagesContexts p) (mBinderContextCheckFunc p)
    (mBinderContextUserData p) v (mHandleToObject p) (mThreadPoolStarted p)
    (mThreadPoolSeq p).
Definition set_mHandleToObject (v : list handle_entry) (p : process_state) : process_state :=
  ProcessSt (mDriverFD p) (mVMStart p) (mManagesContexts p) (mBinderContextCheckFunc p)
    (mBinderContextUserData p) (mContexts p) v (mThreadPoolStarted p) (mThreadPoolSeq p).
Definition set_mThreadPoolStarted (v : bool) (p : process_state) : process_state :=
  ProcessSt (mDriverFD p) (mVMStart p) (mManagesContexts p) (mBinderContextCheckFunc p)
    (mBinderContextUserData p) (mContexts p) (mHandleToObject p) v (mThreadPoolSeq p).
Definition set_mThreadPoolSeq (v : Z) (p : process_state) : process_state :=
  ProcessSt (mDriverFD p) (mVMStart p) (mManagesContexts p) (mBinderContextCheckFunc p)
    (mBinderContextUserData p) (mContexts p) (mHandleToObject p) (mThreadPoolStarted p) v.

Definition set_mAlive (v : bool) (b : bp_binder) : bp_binder :=
  BpBinderObj (mHandle b) v (mObitsSent b) (mObituaries b) (mObjects b) (mDescriptorCache b).
Definition set_mObitsSent (v : bool) (b : bp_binder) : bp_binder :=
  BpBinderObj (mHandle b) (mAlive b) v (mObituaries b) (mObjects b) (mDescriptorCache b).
Definition set_mObituaries (v : option (list obituary)) (b : bp_binder) : bp_binder :=
  BpBinderObj (mHandle b) (mAlive b) (mObitsSent b) v (mObjects b) (mDescriptorCache b).
Definition set_mObjects (v : list (Z * object_entry)) (b : bp_binder) : bp_binder :=
  BpBinderObj (mHandle b) (mAlive b) (mObitsSent b) (mObituaries b) v (mDescriptorCache b).
Definition set_mDescriptorCache (v : list Z) (b : bp_binder) : bp_binder :=
  BpBinderObj (mHandle b) (mAlive b) (mObitsSent b) (mObituaries b) (mObjects b) v.

(** ** Access *)

(** [this], for the methods of the current thread's [IPCThreadState]; a NULL
    one crashes. *)
Definition this : M ipc_thread := fun w =>
  match w_threads w !! w_tid w with Some t => Value t w | None => Crash 0 end.

Definition put_this (t : ipc_thread) : M unit :=
  modify (fun w => set_threads (<[w_tid w := t]> (w_threads w)) w).

Definition upd_this (f : ipc_thread -> ipc_thread) : M unit :=
  do! t := this in put_this (f t).

(** [mProcess], the one [ProcessState]. *)
Definition process : M process_state := fun w =>
  match w_process w with Some p => Value p w | None => Crash 0 end.

Definition upd_process (f : process_state -> process_state) : M unit :=
  do! p := process in modify (set_process (Some (f p))).

Definition proxy (a : Z) : M bp_binder := fun w =>
  match w_proxies w !! a with Some b => Value b w | None => Crash 0 end.

Definition upd_proxy (a : Z) (f : bp_binder -> bp_binder) : M unit :=
  do! b := proxy a in modify (fun w => set_proxies (<[a := f b]> (w_proxies w)) w).

(** An ioctl on [fd]: logged, and answered from the list. *)
Definition ioctl (fd : Z) (c : ioctl_call) : M ioctl_answer := fun w =>
  let w := add_log (EvIoctl fd c) w in
  match w_answers w with
  | [] => Blocked w
  | a :: l => Value a (set_answers l w)
  end.

(** [new]: the address of a new object; [operator new] does not fail here. *)
Definition new_object : M Z := fun w =>
  match w_new w with [] => Blocked w | a :: l => Value a (set_new l w) end.

End Lib.

(** What the methods ask the system and the libraries: the identity of the
    process, priorities, the weak references that can still be taken, the weak
    pointers that can still be promoted. *)
Record cpp_env `{PL : ParcelLib} := CppEnv {
  k_getpid : Z;
  k_getuid : Z;
  k_getpriority : world -> Z;
  k_attemptIncWeak : world -> Z -> bool;
  k_attemptIncStrong : world -> Z -> bool;
  k_promote : world -> Z -> bool;
  k_weak_refs : Z -> Z;
  k_key_create : Z;
  k_errors : errors;
  k_android : bool
}.
