(* ===== verification/ProcessState.v ===== *)
(** * ProcessState: one per process

    Models the part of native/ProcessState.cpp that does not send transactions:
    opening and mapping the driver, the table of proxies, the contexts, the
    thread pool.  The methods hold the process's lock from end to end. *)

From S2P Require Import Prelude Uapi Parcel CppWorld.

Definition BINDER_VM_SIZE : Z := 1 * 1024 * 1024 - 4096 * 2.

Section Model.
Context `{PL : ParcelLib} `{U : BinderUapi} (E : cpp_env).

(** What [open] and [mmap] answer: a descriptor or -1; an address or MAP_FAILED. *)
Record system := System {
  sys_open : Z;
  sys_mmap : option Z
}.

(** [open_driver].  A failed version call closes the descriptor twice, the second
    time as -1, and the thread limit is set on what is left. *)
Definition open_driver (Sys : system) : M Z :=
  let fd := sys_open Sys in
  if 0 <=? fd then
    do! a := ioctl fd IoVersion in
    let result := io_ret a in
    let vers := i32 (le_decode (take 4 (io_read a))) in
    do! fd := (if result =? -1 then log (EvClose fd) ;;; ret (-1) else ret fd) in
    do! fd := (if negb (result =? 0) || negb (vers =? BINDER_CURRENT_PROTOCOL_VERSION)
               then log (EvClose fd) ;;; ret (-1) else ret fd) in
    do! _ := ioctl fd (IoSetMaxThreads 15) in
    ret fd
  else ret fd.

(** The constructor; without a descriptor the process dies. *)
Definition ProcessState_new (Sys : system) : M process_state :=
  do! fd := open_driver Sys in
  let st fd start := ProcessSt fd start false None None [] [] false 1 in
  if 0 <=? fd then
    match sys_mmap Sys with
    | None => log (EvClose fd) ;;; crash 363
    | Some start => ret (st fd start)
    end
  else crash 363.

Definition ProcessState_self (Sys : system) : M process_state :=
  do! p := gets w_process in
  match p with
  | Some p => ret p
  | None =>
      do! p := ProcessState_new Sys in
      modify (set_process (Some p)) ;;; ret p
  end.

(** ** Contexts *)

(** [KeyedVector::add] replaces the value of a key that is present. *)
Fixpoint contexts_add (name : list Z) (b : option Z) (l : list (list Z * option Z))
    : list (list Z * option Z) :=
  match l with
  | [] => [(name, b)]
  | (n, c) :: l' => if decide (n = name) then (n, b) :: l' else (n, c) :: contexts_add name b l'
  end.

Fixpoint contexts_find (name : list Z) (l : list (list Z * option Z)) : option (option Z) :=
  match l with
  | [] => None
  | (n, c) :: l' => if decide (n = name) then Some c else contexts_find name l'
  end.

(** "default". *)
Definition default_name : list Z := [100; 101; 102; 97; 117; 108; 116].

Definition setContextObject (object : option Z) (name : list Z) : M unit :=
  upd_process (fun p => set_mContexts (contexts_add name object (mContexts p)) p).

Definition setContextObject_default (object : option Z) : M unit :=
  setContextObject object default_name.

Definition isContextManager : M bool := do! p := process in ret (mManagesContexts p).

Definition becomeContextManager (checkFunc userData : option Z) : M bool :=
  do! p := process in
  (if negb (mManagesContexts p) then
     upd_process (set_manager false checkFunc userData) ;;;
     (do! a := ioctl (mDriverFD p) IoSetContextMgr in
      if io_ret a =? 0 then upd_process (set_manager true checkFunc userData)
      else when (io_ret a =? -1) (upd_process (set_manager false None None)))
   else ret tt) ;;;
  isContextManager.

(** ** The table of proxies *)

Definition empty_entry : handle_entry := HandleEntry None None.

(** The entry of a handle, after growing the table up to it.  [size_t] makes a
    negative handle too large for the vector; [grows] is whether the vector can
    grow that much. *)
Definition lookupHandleLocked (grows : Z -> bool) (handle : Z) : M (option handle_entry) :=
  do! p := process in
  let l := mHandleToObject p in
  let N := Z.of_nat (length l) in
  let h := u64 handle in
  if N <=? h then
    if negb (grows (u64 (h + 1 - N))) then ret None
    else
      upd_process (set_mHandleToObject (l ++ repeat empty_entry (Z.to_nat (u64 (h + 1 - N))))) ;;;
      ret (Some empty_entry)
  else ret (l !! Z.to_nat h).

(** A write through the entry. *)
Definition set_entry (handle : Z) (e : handle_entry) : M unit :=
  upd_process (fun p =>
    set_mHandleToObject (<[Z.to_nat (u64 handle) := e]> (mHandleToObject p)) p).

Definition ProcessState_expungeHandle (grows : Z -> bool) (handle binder : Z) : M unit :=
  do! e := lookupHandleLocked grows handle in
  match e with
  | None => ret tt
  | Some e =>
      when (bool_decide (e_binder e = Some binder))
           (set_entry handle (HandleEntry None (e_refs e)))
  end.

(** ** The thread pool *)

(** [makeBinderThreadName]: the number of the name. *)
Definition makeBinderThreadName : M Z :=
  do! p := process in
  upd_process (set_mThreadPoolSeq (i32 (mThreadPoolSeq p + 1))) ;;;
  ret (mThreadPoolSeq p).

Definition spawnPooledThread (isMain : bool) : M unit :=
  do! p := process in
  if mThreadPoolStarted p then
    do! name := makeBinderThreadName in log (EvSpawnThread isMain name)
  else ret tt.

Definition startThreadPool : M unit :=
  do! p := process in
  if negb (mThreadPoolStarted p) then
    upd_process (set_mThreadPoolStarted true) ;;; spawnPooledThread true
  else ret tt.

Definition setThreadPoolMaxThreadCount (maxThreads : Z) : M Z :=
  do! p := process in
  do! a := ioctl (mDriverFD p) (IoSetMaxThreads maxThreads) in
  ret (if io_ret a =? -1 then - io_errno a else NO_ERROR).

Definition giveThreadPoolName : M unit :=
  do! name := makeBinderThreadName in log (EvThreadName name).

End Model.
