(* ===== verification/IpcCore.v ===== *)
(** * IpcCore: the thread's channel to the driver

    Models the part of native/IPCThreadState.cpp that other methods build on:
    the state of a thread, the commands it queues in [mOut], and the exchange
    with the driver. *)

From S2P Require Import Prelude Uapi Parcel CppWorld ProcessState.

Section Model.
Context `{PL : ParcelLib} `{U : BinderUapi} (E : cpp_env).

(** ** The state of a thread *)

Definition clearCaller : M unit := upd_this (set_caller (k_getpid E) (k_getuid E)).

(** The constructor; [mLastError] is left as the memory was. *)
Definition IPCThreadState_new (Sys : system) (garbage : Z) : M unit :=
  ProcessState_self Sys ;;;
  put_this (IpcThread (setDataCapacity 256 parcel_new) (setDataCapacity 256 parcel_new)
              0 0 0 0 garbage [] []) ;;;
  clearCaller.

(** [self]: [false] is NULL. *)
Definition IPCThreadState_self (Sys : system) (garbage : Z) : M bool :=
  do! tls := gets w_have_tls in
  let current :=
    do! w := gets id in
    match w_threads w !! w_tid w with
    | Some _ => ret true
    | None => IPCThreadState_new Sys garbage ;;; ret true
    end in
  if tls then current
  else
    do! down := gets w_shutdown in
    if down then ret false
    else if negb (k_key_create E =? 0) then ret false
    else modify (set_tls true) ;;; current.

Definition IPCThreadState_selfOrNull : M bool :=
  do! w := gets id in
  ret (w_have_tls w && bool_decide (is_Some (w_threads w !! w_tid w))).

Definition IPCThreadState_shutdown : M unit :=
  modify (set_shutdown true) ;;;
  (do! tls := gets w_have_tls in
   when tls (modify (fun w => set_tls false (set_threads (delete (w_tid w) (w_threads w)) w)))).

Definition disableBackgroundScheduling (disable : bool) : M unit :=
  modify (set_disable_bg disable).

Definition clearLastError : M Z :=
  do! t := this in upd_this (set_mLastError NO_ERROR) ;;; ret (mLastError t).

Definition getCallingPid : M Z := do! t := this in ret (mCallingPid t).
Definition getCallingUid : M Z := do! t := this in ret (i32 (mCallingUid t)).

(** The token packs the uid, which is unsigned, and the pid, a negative pid
    sign-extended over the uid. *)
Definition identity_token (pid uid : Z) : Z := Z.lor (i64 (Z.shiftl uid 32)) pid.

Definition clearCallingIdentity : M Z :=
  do! t := this in
  clearCaller ;;; ret (identity_token (mCallingPid t) (mCallingUid t)).

Definition restoreCallingIdentity (token : Z) : M unit :=
  upd_this (set_caller (i32 token) (u32 (Z.shiftr token 32))).

Definition setStrictModePolicy (policy : Z) : M unit := upd_this (set_mStrictModePolicy policy).
Definition getStrictModePolicy : M Z := do! t := this in ret (mStrictModePolicy t).
Definition setLastTransactionBinderFlags (flags : Z) : M unit :=
  upd_this (set_mLastTransactionBinderFlags flags).
Definition getLastTransactionBinderFlags : M Z :=
  do! t := this in ret (mLastTransactionBinderFlags t).

(** ** Queued commands *)

Definition out_int (x : Z) : M unit := upd_this (fun t => set_mOut (writeInt32 x (mOut t)) t).
Definition out_pointer (x : Z) : M unit :=
  upd_this (fun t => set_mOut (writePointer x (mOut t)) t).

Definition incStrongHandle (handle : Z) : M unit := out_int BC_ACQUIRE ;;; out_int handle.
Definition decStrongHandle (handle : Z) : M unit := out_int BC_RELEASE ;;; out_int handle.
Definition incWeakHandle (handle : Z) : M unit := out_int BC_INCREFS ;;; out_int handle.
Definition decWeakHandle (handle : Z) : M unit := out_int BC_DECREFS ;;; out_int handle.

Definition requestDeathNotification (handle proxy : Z) : M Z :=
  out_int BC_REQUEST_DEATH_NOTIFICATION ;;; out_int handle ;;; out_pointer proxy ;;;
  ret NO_ERROR.

Definition clearDeathNotification (handle proxy : Z) : M Z :=
  out_int BC_CLEAR_DEATH_NOTIFICATION ;;; out_int handle ;;; out_pointer proxy ;;;
  ret NO_ERROR.

(** [freeBuffer]; [parcel] is whether it was called for a parcel, whose file
    descriptors are closed. *)
Definition freeBuffer (parcel : bool) (data : Z) : M unit :=
  when parcel (log (EvCloseFds data)) ;;;
  out_int BC_FREE_BUFFER ;;; out_pointer data.

(** ** The exchange with the driver *)

(** The [do ... while (err == -EINTR)] loop. *)
Fixpoint ioctl_loop (fuel : nat) (fd : Z) (c : ioctl_call) : M (Z * ioctl_answer) :=
  match fuel with
  | O => out_of_fuel
  | S fuel' =>
      do! a := ioctl fd c in
      do! p := process in
      let err := if mDriverFD p <=? 0 then - EBADF
                 else if 0 <=? io_ret a then NO_ERROR else - io_errno a in
      if err =? - EINTR then ioctl_loop fuel' fd c else ret (err, a)
  end.

(** Every turn takes an answer. *)
Definition ioctl_retry (fd : Z) (c : ioctl_call) : M (Z * ioctl_answer) :=
  do! w := gets id in ioctl_loop (S (length (w_answers w))) fd c.

(** What a successful exchange does to the two parcels. *)
Definition exchanged (a : ioctl_answer) (t : ipc_thread) : ipc_thread :=
  let t :=
    if 0 <? io_write_consumed a then
      set_mOut (if io_write_consumed a <? dataSize (mOut t)
                then p_remove 0 (io_write_consumed a) (mOut t)
                else setDataSize 0 (mOut t)) t
    else t in
  let n := Z.of_nat (length (io_read a)) in
  if 0 <? n
  then set_mIn (setDataPosition 0 (setDataSize n (p_fill (io_read a) (mIn t)))) t
  else t.

Definition talkWithDriver (doReceive : bool) : M Z :=
  do! p := process in
  if mDriverFD p <=? 0 then ret (- EBADF)
  else
    do! t := this in
    let needRead := dataSize (mIn t) <=? dataPosition (mIn t) in
    let outAvail := if negb doReceive || needRead then dataSize (mOut t) else 0 in
    let read_size := if doReceive && needRead then dataCapacity (mIn t) else 0 in
    if (outAvail =? 0) && (read_size =? 0) then ret NO_ERROR
    else if negb (k_android E) then ret (INVALID_OPERATION (k_errors E))
    else
      do! '(err, a) := ioctl_retry (mDriverFD p)
        (IoWriteRead (if outAvail =? 0 then [] else p_bytes (mOut t)) read_size) in
      if NO_ERROR <=? err then upd_this (exchanged a) ;;; ret NO_ERROR
      else ret err.

Definition flushCommands : M unit :=
  do! p := process in
  if mDriverFD p <=? 0 then ret tt
  else talkWithDriver false ;;; ret tt.

Definition stopProcess : M unit :=
  flushCommands ;;;
  (do! p := process in
   upd_process (set_mDriverFD (-1)) ;;; log (EvClose (mDriverFD p))).

(** [setupPolling]: the status and the descriptor. *)
Definition setupPolling : M (Z * option Z) :=
  do! p := process in
  if mDriverFD p <=? 0 then ret (- EBADF, None)
  else out_int BC_ENTER_LOOPER ;;; ret (0, Some (mDriverFD p)).

(** [threadDestructor], for a thread that has a state. *)
Definition threadDestructor : M unit :=
  flushCommands ;;;
  (do! p := process in
   (if k_android E && (0 <? mDriverFD p)
    then (do! _ := ioctl (mDriverFD p) IoThreadExit in ret tt) else ret tt) ;;;
   modify (fun w => set_threads (delete (w_tid w) (w_threads w)) w)).

End Model.
