(* ===== verification/BpBinder.v ===== *)
(** * BpBinder: a proxy's objects and death recipients

    Models the part of native/BpBinder.cpp that sends no transaction: the object
    manager, linking to death, obituaries, the life of the proxy.  A proxy is
    named by its address; a recipient is a weak pointer. *)

From S2P Require Import Prelude Uapi Parcel CppWorld ProcessState IpcCore.

Section Model.
Context `{PL : ParcelLib} `{U : BinderUapi} (E : cpp_env).

(** ** The object manager *)

(** [KeyedVector::add] of a new key keeps the keys in order. *)
Fixpoint objects_add (objectID : Z) (e : object_entry) (l : list (Z * object_entry))
    : list (Z * object_entry) :=
  match l with
  | [] => [(objectID, e)]
  | (id, e') :: l' =>
      if objectID <? id then (objectID, e) :: (id, e') :: l'
      else (id, e') :: objects_add objectID e l'
  end.

Definition ObjectManager_attach (objectID object cleanupCookie : Z) (func : option Z)
    (l : list (Z * object_entry)) : list (Z * object_entry) :=
  if bool_decide (objectID ∈ l.*1) then l
  else objects_add objectID (ObjectEntry object cleanupCookie func) l.

Fixpoint ObjectManager_find (objectID : Z) (l : list (Z * object_entry)) : option Z :=
  match l with
  | [] => None
  | (id, e) :: l' =>
      if id =? objectID then Some (oe_object e) else ObjectManager_find objectID l'
  end.

Definition ObjectManager_detach (objectID : Z) (l : list (Z * object_entry))
    : list (Z * object_entry) :=
  filter (fun e => e.1 <> objectID) l.

(** The cleanup functions of [kill], in order. *)
Fixpoint ObjectManager_kill (l : list (Z * object_entry)) : M unit :=
  match l with
  | [] => ret tt
  | (id, e) :: l' =>
      match oe_func e with
      | Some f => log (EvCleanup f id (oe_object e) (oe_cleanupCookie e))
      | None => ret tt
      end ;;;
      ObjectManager_kill l'
  end.

Definition attachObject (b objectID object cleanupCookie : Z) (func : option Z) : M unit :=
  upd_proxy b (fun p =>
    set_mObjects (ObjectManager_attach objectID object cleanupCookie func (mObjects p)) p).

Definition findObject (b objectID : Z) : M (option Z) :=
  do! p := proxy b in ret (ObjectManager_find objectID (mObjects p)).

Definition detachObject (b objectID : Z) : M unit :=
  upd_proxy b (fun p => set_mObjects (ObjectManager_detach objectID (mObjects p)) p).

(** ** Life *)

Context (Sys : system) (garbage : Z).

(** [IPCThreadState* ipc = IPCThreadState::self(); if (ipc) ...]. *)
Definition if_ipc (m : M unit) : M unit :=
  do! some := IPCThreadState_self E Sys garbage in when some m.

(** [IPCThreadState::self()->...]; a NULL state crashes. *)
Definition with_ipc {A} (m : M A) : M A :=
  do! some := IPCThreadState_self E Sys garbage in if some : bool then m else crash 0.

(** The constructor: a weak reference of the driver to the handle. *)
Definition BpBinder_new (handle : Z) : M Z :=
  do! b := new_object in
  modify (fun w => set_proxies
    (<[b := BpBinderObj handle true false None [] []]> (w_proxies w)) w) ;;;
  (do! some := IPCThreadState_self E Sys garbage in
   if some : bool then incWeakHandle handle else crash 98) ;;;
  ret b.

Definition isDescriptorCached (b : Z) : M bool :=
  do! p := proxy b in ret (negb (bool_decide (mDescriptorCache p = []))).

Definition isBinderAlive (b : Z) : M bool := do! p := proxy b in ret (mAlive p).

Definition remoteBinder (b : Z) : Z := b.

Definition onFirstRef (b : Z) : M unit :=
  do! p := proxy b in if_ipc (incStrongHandle (mHandle p)).

Definition onLastStrongRef (b : Z) : M unit :=
  do! p := proxy b in if_ipc (decStrongHandle (mHandle p)).

(** [attemptIncStrongHandle] in this configuration: the driver has no such
    command. *)
Definition attemptIncStrongHandle (handle : Z) : M Z := ret (INVALID_OPERATION (k_errors E)).

Definition onIncStrongAttempted (b : Z) : M bool :=
  do! p := proxy b in
  do! some := IPCThreadState_self E Sys garbage in
  if some : bool then do! r := attemptIncStrongHandle (mHandle p) in ret (r =? NO_ERROR)
  else ret false.

(** The destructor, which ends with the object manager's. *)
Definition BpBinder_destroy (grows : Z -> bool) (b : Z) : M unit :=
  do! p := proxy b in
  match mObituaries p with
  | Some _ =>
      if_ipc (do! _ := clearDeathNotification (mHandle p) b in ret tt) ;;;
      upd_proxy b (set_mObituaries None)
  | None => ret tt
  end ;;;
  if_ipc (ProcessState_expungeHandle grows (mHandle p) b ;;; decWeakHandle (mHandle p)) ;;;
  ObjectManager_kill (mObjects p) ;;;
  modify (fun w => set_proxies (delete b (w_proxies w)) w).

(** ** Death recipients *)

(** [linkToDeath]; the first recipient makes the driver watch the handle. *)
Definition linkToDeath (b : Z) (recipient : option Z) (cookie flags : Z) : M Z :=
  match recipient with
  | None => crash 181
  | Some _ =>
      do! p := proxy b in
      if negb (mObitsSent p) then
        match mObituaries p with
        | None =>
            log (EvIncWeak (k_weak_refs E b)) ;;;
            with_ipc ((do! _ := requestDeathNotification (mHandle p) b in ret tt) ;;;
                      flushCommands E)
        | Some _ => ret tt
        end ;;;
        upd_proxy b (fun p => set_mObituaries
          (Some (default [] (mObituaries p) ++ [Obituary recipient cookie flags])) p) ;;;
        ret NO_ERROR
      else ret (DEAD_OBJECT (k_errors E))
  end.

(** The test of the loop. *)
Definition obit_matches (recipient : option Z) (cookie flags : Z) (o : obituary) : bool :=
  (bool_decide (o_recipient o = recipient) ||
   (bool_decide (recipient = None) && (o_cookie o =? cookie))) && (o_flags o =? flags).

(** The index of the first match. *)
Fixpoint find_obit (recipient : option Z) (cookie flags : Z) (l : list obituary) : option nat :=
  match l with
  | [] => None
  | o :: l' =>
      if obit_matches recipient cookie flags o then Some 0%nat
      else S <$> find_obit recipient cookie flags l'
  end.

(** [unlinkToDeath]: the status and what goes to [outRecipient]. *)
Definition unlinkToDeath (b : Z) (recipient : option Z) (cookie flags : Z)
    : M (Z * option (option Z)) :=
  do! p := proxy b in
  if mObitsSent p then ret (DEAD_OBJECT (k_errors E), None)
  else
    let l := default [] (mObituaries p) in
    match find_obit recipient cookie flags l with
    | None => ret (NAME_NOT_FOUND (k_errors E), None)
    | Some i =>
        let out := o_recipient <$> (l !! i) in
        let l := delete i l in
        (if decide (l = []) then
           with_ipc ((do! _ := clearDeathNotification (mHandle p) b in ret tt) ;;;
                     flushCommands E) ;;;
           upd_proxy b (set_mObituaries None)
         else upd_proxy b (set_mObituaries (Some l))) ;;;
        ret (NO_ERROR, out)
    end.

(** [recipient->binderDied(this)], user code. *)
Context (binderDied : Z -> Z -> M unit).

Definition reportOneDeath (b : Z) (o : obituary) : M unit :=
  match o_recipient o with
  | None => ret tt
  | Some r =>
      do! w := gets id in
      if k_promote E w r then
        log (EvBinderDied r b) ;;; binderDied r b
      else ret tt
  end.

Fixpoint report_deaths (b : Z) (l : list obituary) : M unit :=
  match l with
  | [] => ret tt
  | o :: l' => reportOneDeath b o ;;; report_deaths b l'
  end.

(** [sendObituary]: the recipients are taken under the lock and told outside. *)
Definition sendObituary (b : Z) : M unit :=
  upd_proxy b (set_mAlive false) ;;;
  (do! p := proxy b in
   if mObitsSent p then ret tt
   else
     match mObituaries p with
     | Some _ =>
         with_ipc ((do! _ := clearDeathNotification (mHandle p) b in ret tt) ;;;
                   flushCommands E) ;;;
         upd_proxy b (set_mObituaries None)
     | None => ret tt
     end ;;;
     upd_proxy b (set_mObitsSent true) ;;;
     report_deaths b (default [] (mObituaries p))).

End Model.
