(* ===== verification/IpcThread.v ===== *)
(** * IpcThread: executing what the driver returns

    Models the rest of native/IPCThreadState.cpp: the commands of the driver,
    waiting for a reply, sending transactions and replies, the thread pool.
    [BR_TRANSACTION] runs user code, whose reply is sent while still inside it,
    so [executeCommand] and [waitForResponse] call each other; the recursion is
    bounded by fuel, one unit per turn of the loop of [waitForResponse]. *)

From S2P Require Import Prelude Uapi Parcel CppWorld ProcessState IpcCore BpBinder.

Definition ANDROID_PRIORITY_NORMAL : Z := 0.
Definition ANDROID_PRIORITY_BACKGROUND : Z := 10.

Section Model.
Context `{PL : ParcelLib} `{U : BinderUapi} (E : cpp_env).

(** User code: [transact] of the object at a cookie, given the code, the data
    and the flags; and [binderDied]. *)
Context (onTransact : Z -> Z -> parcel -> Z -> M (Z * parcel)).
Context (binderDied : Z -> Z -> M unit).
(** For [IPCThreadState::self()] in the proxies. *)
Context (Sys : system) (garbage : Z).

(** A command as [readInt32] yields it, compared with a [BR_] constant. *)
Definition is_cmd (cmd br : Z) : bool := cmd =? i32 br.

(** ** Reading from [mIn] *)

Definition in_int : M Z :=
  do! t := this in
  let '(x, p) := readInt32 (mIn t) in put_this (set_mIn p t) ;;; ret x.

Definition in_pointer : M Z :=
  do! t := this in
  let '(x, p) := readPointer (mIn t) in put_this (set_mIn p t) ;;; ret x.

Definition in_read (n : Z) : M (Z * list Z) :=
  do! t := this in
  let '(err, l, p) := p_read n (mIn t) in put_this (set_mIn p t) ;;; ret (err, l).

(** ** Sending *)

(** The transaction for a parcel: its data, or its error. *)
Definition transaction_for (cmd binderFlags handle code : Z) (data : parcel)
    (statusBuffer : option Z) : option transaction_data :=
  let err := errorCheck data in
  if err =? NO_ERROR then
    Some (TransactionData (u32 handle) 0 code binderFlags 0 0 (u64 (ipcDataSize data))
            (u64 (ipcObjectsCount data * 8)) (ipcData data) (ipcObjects data))
  else
    match statusBuffer with
    | Some a => Some (TransactionData (u32 handle) 0 code (Z.lor binderFlags TF_STATUS_CODE)
                        0 0 4 0 a 0)
    | None => None
    end.

Definition writeTransactionData (cmd binderFlags handle code : Z) (data : parcel)
    (statusBuffer : option Z) : M Z :=
  match transaction_for cmd binderFlags handle code data statusBuffer with
  | None => upd_this (set_mLastError (errorCheck data)) ;;; ret (errorCheck data)
  | Some tr =>
      out_int cmd ;;;
      upd_this (fun t => set_mOut (p_write (td_encode tr) (mOut t)) t) ;;;
      ret NO_ERROR
  end.

(** ** Executing a command *)

(** The scheduling a transaction runs under. *)
Definition inherit_priority : M unit :=
  do! w := gets id in
  let curPrio := k_getpriority E w in
  if w_disable_bg w then
    when (ANDROID_PRIORITY_NORMAL <? curPrio) (log (EvSetPriority ANDROID_PRIORITY_NORMAL))
  else when (ANDROID_PRIORITY_BACKGROUND <=? curPrio) (log (EvSetSchedPolicy false)).

(** The object a transaction is for; a strong pointer to it is held meanwhile. *)
Definition run_transaction (tr : transaction_data) (buffer : parcel) : M (Z * parcel) :=
  if negb (td_target tr =? 0) then
    log (EvIncStrong (td_cookie tr)) ;;;
    (do! r := onTransact (td_cookie tr) (td_code tr) buffer (td_flags tr) in
     log (EvDecStrong (td_cookie tr)) ;;; ret r)
  else
    do! w := gets id in
    onTransact (w_context_object w) (td_code tr) buffer (td_flags tr).

(** [BR_TRANSACTION].  The caller's identity, the strict mode policy and the
    flags are those of the transaction meanwhile; the buffer goes back to the
    driver when the parcel that refers to it goes out of scope. *)
Definition execute_transaction (sendReply : parcel -> Z -> M Z) (tr : transaction_data)
    : M unit :=
  let buffer := ipcSetDataReference (td_buffer tr) (td_data_size tr) (td_offsets tr)
                  (td_offsets_size tr / 8) parcel_new in
  do! t := this in
  let restore (t' : ipc_thread) :=
    set_mLastTransactionBinderFlags (mLastTransactionBinderFlags t)
      (set_mStrictModePolicy (mStrictModePolicy t)
        (set_caller (mCallingPid t) (mCallingUid t) t')) in
  upd_this (fun t => set_mLastTransactionBinderFlags (td_flags tr)
                       (set_caller (i32 (td_sender_pid tr)) (td_sender_euid tr) t)) ;;;
  inherit_priority ;;;
  (do! '(error, reply) := run_transaction tr buffer in
   (if Z.land (td_flags tr) TF_ONE_WAY =? 0 then
      let reply := if error <? NO_ERROR then setError error reply else reply in
      (do! _ := sendReply reply 0 in ret tt)
    else ret tt) ;;;
   upd_this restore ;;;
   freeBuffer true (td_buffer tr)).

Definition execute_ref (cmd : Z) : M Z :=
  do! refs := in_pointer in
  do! obj := in_pointer in
  (if is_cmd cmd BR_ACQUIRE then
     log (EvIncStrong obj) ;;;
     out_int BC_ACQUIRE_DONE ;;; out_pointer refs ;;; out_pointer obj
   else if is_cmd cmd BR_RELEASE then
     upd_this (fun t => set_mPendingStrongDerefs (mPendingStrongDerefs t ++ [obj]) t)
   else if is_cmd cmd BR_INCREFS then
     log (EvIncWeak refs) ;;;
     out_int BC_INCREFS_DONE ;;; out_pointer refs ;;; out_pointer obj
   else if is_cmd cmd BR_DECREFS then
     upd_this (fun t => set_mPendingWeakDerefs (mPendingWeakDerefs t ++ [refs]) t)
   else
     do! w := gets id in
     out_int BC_ACQUIRE_RESULT ;;;
     out_int (if k_attemptIncStrong E w refs then 1 else 0)) ;;;
  ret NO_ERROR.

Definition executeCommand (sendReply : parcel -> Z -> M Z) (cmd : Z) : M Z :=
  do! result :=
    (if is_cmd cmd BR_ERROR then in_int
     else if is_cmd cmd BR_OK then ret NO_ERROR
     else if is_cmd cmd BR_ACQUIRE || is_cmd cmd BR_RELEASE || is_cmd cmd BR_INCREFS ||
             is_cmd cmd BR_DECREFS || is_cmd cmd BR_ATTEMPT_ACQUIRE
     then execute_ref cmd
     else if is_cmd cmd BR_TRANSACTION then
       do! '(result, bytes) := in_read sizeof_transaction_data in
       if negb (result =? NO_ERROR) then ret result
       else execute_transaction sendReply (td_decode bytes) ;;; ret NO_ERROR
     else if is_cmd cmd BR_DEAD_BINDER then
       do! b := in_pointer in
       sendObituary E Sys garbage binderDied b ;;;
       out_int BC_DEAD_BINDER_DONE ;;; out_pointer b ;;; ret NO_ERROR
     else if is_cmd cmd BR_CLEAR_DEATH_NOTIFICATION_DONE then
       do! b := in_pointer in log (EvDecWeak (k_weak_refs E b)) ;;; ret NO_ERROR
     else if is_cmd cmd BR_FINISHED then ret (TIMED_OUT (k_errors E))
     else if is_cmd cmd BR_NOOP then ret NO_ERROR
     else if is_cmd cmd BR_SPAWN_LOOPER then spawnPooledThread false ;;; ret NO_ERROR
     else ret (UNKNOWN_ERROR (k_errors E))) in
  when (negb (result =? NO_ERROR)) (upd_this (set_mLastError result)) ;;;
  ret result.

(** ** Waiting for a reply *)

(** What [waitForResponse] fills in: the reply parcel and the buffer it refers
    to, and [*acquireResult]. *)
Record response := Response {
  rs_reply : option parcel;
  rs_owned : option Z;
  rs_acquired : option Z
}.

(** The label [finish]. *)
Definition finish_wait (err : Z) (r : response) : M (Z * response) :=
  if negb (err =? NO_ERROR) then
    upd_this (set_mLastError err) ;;;
    ret (err, Response (setError err <$> rs_reply r) (rs_owned r)
                (match rs_acquired r with Some _ => Some err | None => None end))
  else ret (err, r).

(** [BR_REPLY]: [None] when the loop goes on.  A status comes instead of data,
    [k_status] being the word at the buffer's address. *)
Definition receive_reply (k_status : Z -> Z) (r : response) : M (option (Z * response)) :=
  do! '(err, bytes) := in_read sizeof_transaction_data in
  if negb (err =? NO_ERROR) then ret (Some (err, r))
  else
    let tr := td_decode bytes in
    match rs_reply r with
    | Some p =>
        if Z.land (td_flags tr) TF_STATUS_CODE =? 0 then
          let p := ipcSetDataReference (td_buffer tr) (td_data_size tr) (td_offsets tr)
                     (td_offsets_size tr / 8) p in
          ret (Some (NO_ERROR, Response (Some p) (Some (td_buffer tr)) (rs_acquired r)))
        else
          freeBuffer false (td_buffer tr) ;;; ret (Some (i32 (k_status (td_buffer tr)), r))
    | None => freeBuffer false (td_buffer tr) ;;; ret None
    end.

Context (k_status : Z -> Z) (statusBuffer : Z).

Fixpoint waitForResponse (fuel : nat) (r : response) : M (Z * response) :=
  match fuel with
  | O => out_of_fuel
  | S fuel' =>
      (* [sendReply], for the commands executed here *)
      let sendReply reply flags :=
        do! err := writeTransactionData BC_REPLY flags (-1) 0 reply (Some statusBuffer) in
        if err <? NO_ERROR then ret err
        else do! '(err, _) := waitForResponse fuel' (Response None None None) in ret err in
      do! err := talkWithDriver E true in
      if err <? NO_ERROR then finish_wait err r
      else
        do! t := this in
        let err := errorCheck (mIn t) in
        if err <? NO_ERROR then finish_wait err r
        else if dataAvail (mIn t) =? 0 then waitForResponse fuel' r
        else
          do! cmd := in_int in
          if is_cmd cmd BR_TRANSACTION_COMPLETE then
            match rs_reply r, rs_acquired r with
            | None, None => finish_wait err r
            | _, _ => waitForResponse fuel' r
            end
          else if is_cmd cmd BR_DEAD_REPLY then finish_wait (DEAD_OBJECT (k_errors E)) r
          else if is_cmd cmd BR_FAILED_REPLY then
            finish_wait (FAILED_TRANSACTION (k_errors E)) r
          else if is_cmd cmd BR_ACQUIRE_RESULT then
            do! result := in_int in
            match rs_acquired r with
            | None => waitForResponse fuel' r
            | Some _ =>
                finish_wait err (Response (rs_reply r) (rs_owned r)
                  (Some (if result =? 0 then INVALID_OPERATION (k_errors E) else NO_ERROR)))
            end
          else if is_cmd cmd BR_REPLY then
            do! k := receive_reply k_status r in
            match k with
            | Some (err, r) => finish_wait err r
            | None => waitForResponse fuel' r
            end
          else
            do! err := executeCommand sendReply cmd in
            if negb (err =? NO_ERROR) then finish_wait err r else waitForResponse fuel' r
  end.

Definition sendReply (fuel : nat) (reply : parcel) (flags : Z) : M Z :=
  do! err := writeTransactionData BC_REPLY flags (-1) 0 reply (Some statusBuffer) in
  if err <? NO_ERROR then ret err
  else do! '(err, _) := waitForResponse fuel (Response None None None) in ret err.

(** [transact]: the status, the reply parcel and the buffer it refers to.  The
    fake reply of a caller that wants none dies at once. *)
Definition IPCThreadState_transact (fuel : nat) (handle code : Z) (data : parcel)
    (reply : option parcel) (flags : Z) : M (Z * option parcel * option Z) :=
  let err := errorCheck data in
  let flags := Z.lor flags TF_ACCEPT_FDS in
  do! err := (if err =? NO_ERROR
              then writeTransactionData BC_TRANSACTION flags handle code data None
              else ret err) in
  if negb (err =? NO_ERROR) then
    upd_this (set_mLastError err) ;;; ret (err, setError err <$> reply, None)
  else if Z.land flags TF_ONE_WAY =? 0 then
    match reply with
    | Some _ =>
        do! '(err, r) := waitForResponse fuel (Response reply None None) in
        ret (err, rs_reply r, rs_owned r)
    | None =>
        do! '(err, r) := waitForResponse fuel (Response (Some parcel_new) None None) in
        match rs_owned r with Some b => freeBuffer true b | None => ret tt end ;;;
        ret (err, None, None)
    end
  else
    do! '(err, _) := waitForResponse fuel (Response None None None) in
    ret (err, reply, None).

(** ** The thread pool *)

Definition getAndExecuteCommand (fuel : nat) : M Z :=
  do! result := talkWithDriver E true in
  if NO_ERROR <=? result then
    do! t := this in
    if dataAvail (mIn t) <? 4 then ret result
    else
      do! cmd := in_int in
      do! result := executeCommand (sendReply fuel) cmd in
      log (EvSetSchedPolicy true) ;;; ret result
  else ret result.

Definition log_all {A} (f : A -> event) (l : list A) : M unit :=
  foldr (fun x m => log (f x) ;;; m) (ret tt) l.

(** The derefs wait until every command of the buffer has been executed. *)
Definition processPendingDerefs : M unit :=
  do! t := this in
  if dataSize (mIn t) <=? dataPosition (mIn t) then
    log_all EvDecWeak (mPendingWeakDerefs t) ;;;
    upd_this (set_mPendingWeakDerefs []) ;;;
    log_all EvDecStrong (mPendingStrongDerefs t) ;;;
    upd_this (set_mPendingStrongDerefs [])
  else ret tt.

(** The loop of [joinThreadPool]; one unit of fuel per turn. *)
Fixpoint join_loop (turns fuel : nat) (isMain : bool) : M unit :=
  match turns with
  | O => out_of_fuel
  | S turns' =>
      processPendingDerefs ;;;
      (do! result := getAndExecuteCommand fuel in
       let gone := (result =? - ECONNREFUSED) || (result =? - EBADF) in
       if (result <? NO_ERROR) && negb (result =? TIMED_OUT (k_errors E)) && negb gone
       then crash 494
       else if (result =? TIMED_OUT (k_errors E)) && negb isMain then ret tt
       else if gone then ret tt
       else join_loop turns' fuel isMain)
  end.

Definition joinThreadPool (turns fuel : nat) (isMain : bool) : M unit :=
  out_int (if isMain then BC_ENTER_LOOPER else BC_REGISTER_LOOPER) ;;;
  log (EvSetSchedPolicy true) ;;;
  join_loop turns fuel isMain ;;;
  out_int BC_EXIT_LOOPER ;;;
  (do! _ := talkWithDriver E false in ret tt).

Fixpoint poll_loop (turns fuel : nat) : M Z :=
  match turns with
  | O => out_of_fuel
  | S turns' =>
      do! result := getAndExecuteCommand fuel in
      do! t := this in
      if dataPosition (mIn t) <? dataSize (mIn t) then poll_loop turns' fuel else ret result
  end.

Definition handlePolledCommands (turns fuel : nat) : M Z :=
  do! result := poll_loop turns fuel in
  processPendingDerefs ;;; flushCommands E ;;; ret result.

End Model.
