(* ===== verification/IpcPrint.v ===== *)
(** * IpcPrint: commands as text

    Models the functions native/IPCThreadState.cpp prints commands and returns
    with when its logs are compiled in.  A [TextOutput] is the list of what was
    put into it; memory and the addresses of a 64-bit process are those of [Bio].
    Then: where the printers stay in step with what the driver and the process
    write, and where they do not. *)

From stdpp Require Import strings.
From S2P Require Import Prelude Uapi Bio BioThms ParseThms.

(** What is put into a [TextOutput]: text, numbers, pointers, a code as four
    characters, and the changes of line and indentation. *)
Inductive text_item : Type :=
| TText (t : string)
| TInt (n : Z)
| TPtr (a : Z)
| TTypeCode (code : Z)
| TEndl
| TIndent
| TDedent.

Definition TextOutput : Type := list text_item.

Definition kReturnStrings : list string := [
  "BR_ERROR"; "BR_OK"; "BR_TRANSACTION"; "BR_REPLY"; "BR_ACQUIRE_RESULT"; "BR_DEAD_REPLY";
  "BR_TRANSACTION_COMPLETE"; "BR_INCREFS"; "BR_ACQUIRE"; "BR_RELEASE"; "BR_DECREFS";
  "BR_ATTEMPT_ACQUIRE"; "BR_NOOP"; "BR_SPAWN_LOOPER"; "BR_FINISHED"; "BR_DEAD_BINDER";
  "BR_CLEAR_DEATH_NOTIFICATION_DONE"; "BR_FAILED_REPLY"].

Definition kCommandStrings : list string := [
  "BC_TRANSACTION"; "BC_REPLY"; "BC_ACQUIRE_RESULT"; "BC_FREE_BUFFER"; "BC_INCREFS"; "BC_ACQUIRE";
  "BC_RELEASE"; "BC_DECREFS"; "BC_INCREFS_DONE"; "BC_ACQUIRE_DONE"; "BC_ATTEMPT_ACQUIRE";
  "BC_REGISTER_LOOPER"; "BC_ENTER_LOOPER"; "BC_EXIT_LOOPER"; "BC_REQUEST_DEATH_NOTIFICATION";
  "BC_CLEAR_DEATH_NOTIFICATION"; "BC_DEAD_BINDER_DONE"].

Definition getReturnString (idx : Z) : string :=
  match kReturnStrings !! Z.to_nat idx with Some t => t | None => "unknown" end.
Definition getCommandString (idx : Z) : string :=
  match kCommandStrings !! Z.to_nat idx with Some t => t | None => "unknown" end.

(** [*cmd++]: an [int32_t]. *)
Definition next_int (m : user_memory) (cmd : Z) : res (Z * Z) :=
  let! x := load_word m cmd 4 in Ret (i32 x, cmd + 4).

(** An [int32_t] made a pointer. *)
Definition int_ptr (x : Z) : text_item := TPtr (u64 x).

Section Print.
Context `{U : BinderUapi} (m : user_memory).

(** [btd+1] is where the printing went to. *)
Definition printBinderTransactionData (out : TextOutput) (data : Z) : res (TextOutput * Z) :=
  let! l := load m data sizeof_transaction_data in
  let btd := td_decode l in
  let target :=
    if td_handle btd <? 1024 then [TText "target.desc="; TInt (td_handle btd)]
    else [TText "target.ptr="; TInt (td_target btd)] in
  Ret (out ++ target ++
       [TText " (cookie "; TInt (td_cookie btd); TText ")"; TEndl;
        TText "code="; TTypeCode (td_code btd); TText ", flags="; TPtr (td_flags btd); TEndl;
        TText "data="; TInt (td_buffer btd); TText " ("; TPtr (td_data_size btd); TText " bytes)"; TEndl;
        TText "offsets="; TInt (td_offsets btd); TText " ("; TPtr (td_offsets_size btd); TText " bytes)"],
       data + sizeof_transaction_data).

(** The indented transaction after a name. *)
Definition print_transaction (out : TextOutput) (cmd : Z) : res (TextOutput * Z) :=
  let! '(out, cmd) := printBinderTransactionData (out ++ [TText ": "; TIndent]) cmd in
  Ret (out ++ [TDedent], cmd).

Definition print_result (out : TextOutput) (cmd : Z) : res (TextOutput * Z) :=
  let! '(r, cmd) := next_int m cmd in
  Ret (out ++ [TText ": "; TInt r; TText (if negb (r =? 0) then " (SUCCESS)" else " (FAILURE)")], cmd).

Definition print_target (out : TextOutput) (cmd : Z) : res (TextOutput * Z) :=
  let! '(b, cmd) := next_int m cmd in
  let! '(c, cmd) := next_int m cmd in
  Ret (out ++ [TText ": target="; int_ptr b; TText " (cookie "; int_ptr c; TText ")"], cmd).

Definition print_death_cookie (out : TextOutput) (cmd : Z) : res (TextOutput * Z) :=
  let! '(c, cmd) := next_int m cmd in
  Ret (out ++ [TText ": death cookie "; int_ptr c], cmd).

(** The switch over the returns that have details. *)
Definition print_return_details (out : TextOutput) (code cmd : Z) : res (TextOutput * Z) :=
  if bool_decide (code ∈ [BR_TRANSACTION; BR_REPLY]) then print_transaction out cmd
  else if code =? BR_ACQUIRE_RESULT then print_result out cmd
  else if bool_decide (code ∈ [BR_INCREFS; BR_ACQUIRE; BR_RELEASE; BR_DECREFS]) then print_target out cmd
  else if code =? BR_ATTEMPT_ACQUIRE then
    let! '(p, cmd) := next_int m cmd in
    let! '(b, cmd) := next_int m cmd in
    let! '(c, cmd) := next_int m cmd in
    Ret (out ++ [TText ": target="; int_ptr b; TText " (cookie "; int_ptr c; TText "), pri="; TInt p], cmd)
  else if bool_decide (code ∈ [BR_DEAD_BINDER; BR_CLEAR_DEATH_NOTIFICATION_DONE])
  then print_death_cookie out cmd
  else Ret (out, cmd).

Definition printReturnCommand (out : TextOutput) (_cmd : Z) : res (TextOutput * Z) :=
  let! code := load_word m _cmd 4 in
  let cmd := _cmd + 4 in
  let cmdIndex := Z.land code 0xff in
  if code =? BR_ERROR then
    let! '(e, cmd) := next_int m cmd in
    Ret (out ++ [TText "BR_ERROR: "; int_ptr e; TEndl], cmd)
  else
    match kReturnStrings !! Z.to_nat cmdIndex with
    | None => Ret (out ++ [TText "Unknown reply: "; TInt (i32 code); TEndl], cmd)
    | Some name =>
        let! '(out, cmd) := print_return_details (out ++ [TText name]) code cmd in
        Ret (out ++ [TEndl], cmd)
    end.

Definition print_command_details (out : TextOutput) (code cmd : Z) : res (TextOutput * Z) :=
  if bool_decide (code ∈ [BC_TRANSACTION; BC_REPLY]) then print_transaction out cmd
  else if code =? BC_ACQUIRE_RESULT then print_result out cmd
  else if code =? BC_FREE_BUFFER then
    let! '(buf, cmd) := next_int m cmd in Ret (out ++ [TText ": buffer="; int_ptr buf], cmd)
  else if bool_decide (code ∈ [BC_INCREFS; BC_ACQUIRE; BC_RELEASE; BC_DECREFS]) then
    let! '(d, cmd) := next_int m cmd in Ret (out ++ [TText ": desc="; TInt d], cmd)
  else if bool_decide (code ∈ [BC_INCREFS_DONE; BC_ACQUIRE_DONE]) then print_target out cmd
  else if code =? BC_ATTEMPT_ACQUIRE then
    let! '(p, cmd) := next_int m cmd in
    let! '(d, cmd) := next_int m cmd in
    Ret (out ++ [TText ": desc="; TInt d; TText ", pri="; TInt p], cmd)
  else if bool_decide (code ∈ [BC_REQUEST_DEATH_NOTIFICATION; BC_CLEAR_DEATH_NOTIFICATION]) then
    let! '(h, cmd) := next_int m cmd in
    let! '(c, cmd) := next_int m cmd in
    Ret (out ++ [TText ": handle="; TInt h; TText " (death cookie "; int_ptr c; TText ")"], cmd)
  else if code =? BC_DEAD_BINDER_DONE then print_death_cookie out cmd
  else Ret (out, cmd).

Definition printCommand (out : TextOutput) (_cmd : Z) : res (TextOutput * Z) :=
  let! code := load_word m _cmd 4 in
  let cmd := _cmd + 4 in
  match kCommandStrings !! Z.to_nat (Z.land code 0xff) with
  | None => Ret (out ++ [TText "Unknown command: "; TInt (i32 code); TEndl], cmd)
  | Some name =>
      let! '(out, cmd) := print_command_details (out ++ [TText name]) code cmd in
      Ret (out ++ [TEndl], cmd)
  end.

End Print.

(** [while (cmds < end) cmds = print(alog, cmds)]; a command has at least four bytes. *)
Fixpoint print_loop (print : TextOutput -> Z -> res (TextOutput * Z)) (fuel : nat) (out : TextOutput)
    (cmds end_ : Z) : res TextOutput :=
  if cmds <? end_ then
    match fuel with
    | O => Bug (-14)
    | S fuel => let! '(out, cmds) := print out cmds in print_loop print fuel out cmds end_
    end
  else Ret out.

(** The dump of [len] bytes of returns. *)
Definition print_returns `{U : BinderUapi} (m : user_memory) (out : TextOutput) (cmds len : Z) : res TextOutput :=
  print_loop (printReturnCommand m) (Z.to_nat len) out cmds (cmds + len).

Definition print_commands `{U : BinderUapi} (m : user_memory) (out : TextOutput) (cmds len : Z) : res TextOutput :=
  print_loop (printCommand m) (Z.to_nat len) out cmds (cmds + len).

(** ** In step with the driver *)

Section Step.
Context `{U : BinderUapi}.

Definition return_codes : list Z :=
  [BR_ERROR; BR_OK; BR_TRANSACTION; BR_REPLY; BR_ACQUIRE_RESULT; BR_DEAD_REPLY;
   BR_TRANSACTION_COMPLETE; BR_INCREFS; BR_ACQUIRE; BR_RELEASE; BR_DECREFS;
   BR_ATTEMPT_ACQUIRE; BR_NOOP; BR_SPAWN_LOOPER; BR_FINISHED; BR_DEAD_BINDER;
   BR_CLEAR_DEATH_NOTIFICATION_DONE; BR_FAILED_REPLY].

(** The header numbers the returns in this order, in their low eight bits. *)
Definition returns_numbered : Prop :=
  forall i c, return_codes !! i = Some c -> Z.land c 255 = Z.of_nat i.

(** How far the printer goes over a return, and what it should. *)
Definition printed_size (r : return_) : Z :=
  match r with
  | RTransaction _ | RReply _ => 4 + sizeof_transaction_data
  | RRef _ _ _ => 4 + 8
  | RDead _ => 4 + 4
  | RNothing _ | RFailed _ => 4
  end.

Definition stays_in_step (r : return_) : bool :=
  match r with RRef _ _ _ | RDead _ => false | _ => true end.

Definition return_name (r : return_) : string := getReturnString (Z.land (return_code r) 255).

Lemma in_step r : Z.of_nat (length (return_bytes r)) = printed_size r <-> stays_in_step r = true.
Proof.
  unfold return_bytes. rewrite length_app, length_le_encode, Nat2Z.inj_add.
  pose proof length_td_encode as Ht. destruct r; cbn [return_data printed_size stays_in_step];
    rewrite ?length_app, ?length_le_encode, ?Ht; simpl; lia.
Qed.

Lemma holds_word m a n x l : holds m a (le_encode n x ++ l) -> 0 <= x < 256 ^ Z.of_nat n ->
  load_word m a (Z.of_nat n) = Ret x.
Proof.
  intros H Hx. apply holds_app in H as [H _]. apply holds_load in H. rewrite length_le_encode in H.
  unfold load_word. rewrite H. cbn [res_bind]. by rewrite le_decode_encode.
Qed.

(** Any four bytes of what is there are a number. *)
Lemma holds_int m a l : holds m a l -> (4 <= length l)%nat -> exists x, next_int m a = Ret (x, a + 4).
Proof.
  intros H Hl. rewrite <- (take_drop 4 l) in H. apply holds_app in H as [H _]. apply holds_load in H.
  rewrite length_take, Nat.min_l in H by lia. unfold next_int, load_word. change 4 with (Z.of_nat 4) at 1.
  rewrite H. by eexists.
Qed.

Context (N : returns_numbered).

Ltac numbers :=
  pose proof (N 0%nat _ eq_refl); pose proof (N 2%nat _ eq_refl); pose proof (N 3%nat _ eq_refl);
  pose proof (N 4%nat _ eq_refl); pose proof (N 5%nat _ eq_refl); pose proof (N 6%nat _ eq_refl);
  pose proof (N 7%nat _ eq_refl); pose proof (N 8%nat _ eq_refl); pose proof (N 9%nat _ eq_refl);
  pose proof (N 10%nat _ eq_refl); pose proof (N 11%nat _ eq_refl); pose proof (N 12%nat _ eq_refl);
  pose proof (N 15%nat _ eq_refl); pose proof (N 16%nat _ eq_refl); pose proof (N 17%nat _ eq_refl);
  repeat match goal with H : _ = Z.of_nat ?k |- _ =>
    let v := eval vm_compute in (Z.of_nat k) in change (Z.of_nat k) with v in H end.

(** Decide the tests of the switch. *)
Ltac not_in := rewrite !not_elem_of_cons; repeat split; try congruence; apply not_elem_of_nil.
Ltac is_in := repeat first [apply list_elem_of_here | apply list_elem_of_further].
Ltac switch :=
  repeat first
    [ rewrite (proj2 (Z.eqb_neq _ _)) by congruence
    | rewrite bool_decide_eq_true_2 by is_in
    | rewrite bool_decide_eq_false_2 by not_in ].

(** A returned transaction is printed to its end. *)
Lemma print_transaction_step m a t out : holds m a (td_encode t) ->
  exists text, print_transaction m out a = Ret (out ++ text, a + sizeof_transaction_data).
Proof.
  intros H. apply holds_load in H. rewrite length_td_encode in H.
  unfold print_transaction, printBinderTransactionData. rewrite H. cbn [res_bind].
  eexists. rewrite <- !app_assoc. reflexivity.
Qed.

Lemma details_step m r a out : return_ok r -> holds m a (return_data r) ->
  exists text, print_return_details m out (return_code r) a = Ret (out ++ text, a + (printed_size r - 4)).
Proof.
  intros Hr H. numbers. unfold print_return_details.
  destruct r as [cmd|cmd b c|t|t|c|cmd]; cbn [return_ok return_code return_data printed_size] in *.
  - repeat (apply elem_of_cons in Hr as [->|Hr]; [switch; exists []; rewrite app_nil_r; do 2 f_equal; lia|]).
    by apply elem_of_nil in Hr.
  - assert (exists text, print_target m out a = Ret (out ++ text, a + 8)) as [text E].
    { unfold print_target. destruct (holds_int m a _ H) as [x ->];
        [rewrite length_app, length_le_encode; lia|]. cbn [res_bind].
      assert (holds m (a + 4) (drop 4 (le_encode 8 b ++ le_encode 8 c))) as H'.
      { rewrite <- (take_drop 4 (le_encode 8 b ++ _)) in H. apply holds_app in H as [_ H].
        by rewrite length_take, Nat.min_l in H by (rewrite length_app, length_le_encode; lia). }
      destruct (holds_int m _ _ H') as [y ->];
        [rewrite length_drop, length_app, !length_le_encode; lia|]. cbn [res_bind].
      eexists. do 2 f_equal. lia. }
    exists text. replace (a + (4 + 8 - 4)) with (a + 8) by lia.
    repeat (apply elem_of_cons in Hr as [->|Hr]; [switch; exact E|]). by apply elem_of_nil in Hr.
  - switch. replace (4 + _ - 4) with sizeof_transaction_data by lia. by apply (print_transaction_step m a t).
  - switch. replace (4 + _ - 4) with sizeof_transaction_data by lia. by apply (print_transaction_step m a t).
  - switch. unfold print_death_cookie. destruct (holds_int m a _ H) as [x ->]; [rewrite length_le_encode; lia|].
    cbn [res_bind]. by eexists.
  - repeat (apply elem_of_cons in Hr as [->|Hr]; [switch; exists []; rewrite app_nil_r; do 2 f_equal; lia|]).
    by apply elem_of_nil in Hr.
Qed.

Lemma return_codes_ok r : return_ok r -> exists i name, return_codes !! i = Some (return_code r) /\
  kReturnStrings !! i = Some name /\ i <> 0%nat.
Proof.
  intros Hr. destruct r as [cmd| | | | |cmd]; cbn [return_ok return_code] in *;
    try (by exists 2%nat; eexists); try (by exists 3%nat; eexists); try (by exists 15%nat; eexists);
    repeat (apply elem_of_cons in Hr as [->|Hr];
      [first [by exists 12%nat; eexists|by exists 6%nat; eexists|by exists 7%nat; eexists
             |by exists 8%nat; eexists|by exists 9%nat; eexists|by exists 10%nat; eexists
             |by exists 17%nat; eexists|by exists 5%nat; eexists]|]); by apply elem_of_nil in Hr.
Qed.

(** One return: its name is printed, and the printer goes on where its size says. *)
Lemma return_step m r a out : return_ok r -> holds m a (return_bytes r) ->
  exists text, printReturnCommand m out a = Ret (out ++ TText (return_name r) :: text, a + printed_size r).
Proof.
  intros Hr H. unfold printReturnCommand. unfold return_bytes in H.
  pose proof (holds_word m a 4 (return_code r) _ H (return_code_range r Hr)) as Hw.
  change (Z.of_nat 4) with 4 in Hw. rewrite Hw. cbn [res_bind].
  apply holds_app in H as [_ H]. rewrite length_le_encode in H.
  destruct (return_codes_ok r Hr) as (i & name & Hi & Hname & H0).
  pose proof (N i _ Hi) as Ei. pose proof (N 0%nat BR_ERROR eq_refl) as E0.
  rewrite (proj2 (Z.eqb_neq _ _)) by (intros E; rewrite E, E0 in Ei; lia).
  unfold return_name, getReturnString. change 0xff with 255. rewrite Ei, Nat2Z.id, Hname.
  destruct (details_step m r (a + 4) (out ++ [TText name]) Hr H) as [text ->]. cbn [res_bind].
  exists (text ++ [TEndl]). rewrite <- !app_assoc. do 2 f_equal. lia.
Qed.

(** The names in a dump. *)
Definition prints_names (rs : list return_) (out : TextOutput) : Prop :=
  exists texts, length texts = length rs /\
    out = concat (zip_with (fun r text => TText (return_name r) :: text) rs texts).

(** Printing what the driver returned: one return at a time the printer goes on to
    the next exactly when the return carries no pointer and no cookie, whose eight
    bytes it reads as four; and a dump of returns it stays in step with names them
    all, in order, and ends at their end. *)
Theorem print_returns_correct m rs a :
  Forall return_ok rs -> holds m a (returns_bytes rs) ->
  (forall r out, rs = [r] -> exists text n,
     printReturnCommand m out a = Ret (out ++ TText (return_name r) :: text, a + n) /\
     (n = Z.of_nat (length (return_bytes r)) <-> stays_in_step r = true)) /\
  (Forall (fun r => stays_in_step r = true) rs ->
   exists out, print_returns m [] a (Z.of_nat (length (returns_bytes rs))) = Ret out /\ prints_names rs out).
Proof.
  intros Hr H. split.
  - intros r out ->. apply Forall_cons in Hr as [Hr _].
    change (returns_bytes [r]) with (return_bytes r ++ []) in H. rewrite app_nil_r in H.
    destruct (return_step m r a out Hr H) as [text E]. exists text, (printed_size r). split; [exact E|].
    rewrite <- in_step. done.
  - intros Hs. unfold print_returns. rewrite Nat2Z.id.
    enough (forall fuel out0, (length (returns_bytes rs) <= fuel)%nat -> exists out,
      print_loop (printReturnCommand m) fuel out0 a (a + Z.of_nat (length (returns_bytes rs))) = Ret (out0 ++ out) /\
      prints_names rs out) as Hloop by (destruct (Hloop _ [] (le_n _)) as (out & E & Hn); by exists out).
    revert a H. induction rs as [|r rs IH]; intros a H fuel out0 Hf.
    { exists []. split; [|by exists []]. destruct fuel; simpl;
        rewrite (proj2 (Z.ltb_ge _ _)) by lia; by rewrite app_nil_r. }
    apply Forall_cons in Hr as [Hr Hrs]. apply Forall_cons in Hs as [Hsr Hs].
    unfold returns_bytes in *. cbn [mbind list_bind] in *. rewrite length_app in *.
    pose proof (length_return_bytes r) as Hl. destruct fuel as [|fuel]; [lia|]. cbn [print_loop].
    rewrite (proj2 (Z.ltb_lt _ _)) by lia. apply holds_app in H as [H1 H2].
    destruct (return_step m r a out0 Hr H1) as [text ->]. cbn [res_bind].
    apply in_step in Hsr. rewrite <- Hsr.
    destruct (IH Hrs Hs _ H2 fuel (out0 ++ TText (return_name r) :: text)) as (out & E & texts & El & ->); [lia|].
    replace (a + Z.of_nat (length (return_bytes r) + _)) with
      (a + Z.of_nat (length (return_bytes r)) + Z.of_nat (length (rs ≫= return_bytes))) by lia.
    rewrite E. eexists. rewrite <- app_assoc. split; [reflexivity|]. exists (text :: texts). split; [simpl; lia|done].
Qed.

End Step.

(** The name logged for a return that is being executed is never its name: the
    whole code is taken for the index, not its low eight bits. *)
Lemma logged_name_unknown `{U : BinderUapi} : Forall (fun c => 18 <= c) return_codes ->
  Forall (fun c => getReturnString c = "unknown") return_codes.
Proof.
  intros H. eapply Forall_impl; [exact H|]. intros c Hc. cbn beta in Hc. unfold getReturnString. rewrite lookup_ge_None_2; [done|]. simpl. lia.
Qed.

(** ** Example *)

Lemma sample_numbered : returns_numbered.
Proof.
  intros i c H. do 18 (destruct i as [|i]; [injection H as <-; reflexivity|]). by destruct i.
Qed.

Lemma sample_codes_high : Forall (fun c => getReturnString c = "unknown") return_codes.
Proof. apply logged_name_unknown. apply (bool_decide_unpack _). by vm_compute. Qed.

(** A reply is dumped; of a death notification four bytes are left over. *)
Lemma print_returns_correct_witness :
  let rs := [RNothing BR_NOOP; RReply sample_txn_in] in
  let m := write_bytes ∅ 4096 (returns_bytes rs) in
  let m2 := write_bytes ∅ 4096 (returns_bytes [RDead 9]) in
  (exists out, print_returns m [] 4096 72 = Ret out /\ prints_names rs out) /\
  exists text n, printReturnCommand m2 [] 4096 = Ret (TText "BR_DEAD_BINDER" :: text, 4096 + n) /\ n <> 12.
Proof.
  intros rs m m2. split.
  - apply (print_returns_correct sample_numbered m rs 4096); [|apply holds_written|by repeat constructor].
    apply Forall_cons; split; [apply list_elem_of_here|]. apply Forall_singleton. by vm_compute.
  - destruct (print_returns_correct sample_numbered m2 [RDead 9] 4096) as [H _];
      [apply Forall_singleton; simpl; lia|apply holds_written|].
    destruct (H (RDead 9) [] eq_refl) as (text & n & E & Hn). exists text, n. split; [exact E|].
    intros ->. assert (stays_in_step (RDead 9) = true) as Hs by by apply Hn. discriminate Hs.
Defined.
