(* ===== verification/Proxy.v ===== *)
(** * Proxy: calls through a proxy, and the proxies of a process

    Models the methods of native/BpBinder.cpp and native/ProcessState.cpp that
    send transactions. *)

From S2P Require Import Prelude Uapi Parcel CppWorld ProcessState IpcCore BpBinder IpcThread.

(** [B_PACK_CHARS('_', a, b, c)], the codes of <binder/IBinder.h>. *)
Record codes := Codes {
  IB_PING_TRANSACTION : Z;
  IB_INTERFACE_TRANSACTION : Z;
  IB_DUMP_TRANSACTION : Z
}.

Section Model.
Context `{PL : ParcelLib} `{U : BinderUapi} (E : cpp_env).
Context (onTransact : Z -> Z -> parcel -> Z -> M (Z * parcel)).
Context (binderDied : Z -> Z -> M unit).
Context (k_status : Z -> Z) (statusBuffer : Z) (C : codes).
Context (Sys : system) (garbage : Z) (fuel : nat).

Notation ipc_transact :=
  (IPCThreadState_transact E onTransact binderDied Sys garbage k_status statusBuffer fuel).

(** The parcels of a method die at its end, and give back the buffer a reply
    refers to. *)
Definition drop_reply (owned : option Z) : M unit :=
  match owned with Some b => freeBuffer true b | None => ret tt end.

(** ** Calls *)

(** [transact]: once dead, a proxy stays dead. *)
Definition BpBinder_transact (b code : Z) (data : parcel) (reply : option parcel) (flags : Z)
    : M (Z * option parcel * option Z) :=
  do! p := proxy b in
  if mAlive p then
    do! '(status, reply, owned) := with_ipc E Sys garbage (ipc_transact (mHandle p) code data reply flags) in
    when (status =? DEAD_OBJECT (k_errors E)) (upd_proxy b (set_mAlive false)) ;;;
    ret (status, reply, owned)
  else ret (DEAD_OBJECT (k_errors E), reply, None).

Definition getInterfaceDescriptor (b : Z) : M (list Z) :=
  do! cached := isDescriptorCached b in
  (if negb cached then
     do! '(err, reply, owned) :=
       BpBinder_transact b (IB_INTERFACE_TRANSACTION C) parcel_new (Some parcel_new) 0 in
     (if err =? NO_ERROR then
        let '(res, _) := readString16 (default parcel_new reply) in
        do! p := proxy b in
        when (bool_decide (mDescriptorCache p = [])) (upd_proxy b (set_mDescriptorCache res))
      else ret tt) ;;;
     drop_reply owned
   else ret tt) ;;;
  (do! p := proxy b in ret (mDescriptorCache p)).

Definition pingBinder (b : Z) : M Z :=
  do! '(err, reply, owned) :=
    BpBinder_transact b (IB_PING_TRANSACTION C) parcel_new (Some parcel_new) 0 in
  let reply := default parcel_new reply in
  let status := if negb (err =? NO_ERROR) then err
                else if ipcDataSize reply <? 4 then NOT_ENOUGH_DATA (k_errors E)
                else (readInt32 reply).1 in
  drop_reply owned ;;; ret status.

Definition dump (b fd : Z) (args : list (list Z)) : M Z :=
  let send := writeInt32 (Z.of_nat (length args)) (writeFileDescriptor fd parcel_new) in
  let send := fold_left (fun p a => writeString16 a p) args send in
  do! '(err, _, owned) :=
    BpBinder_transact b (IB_DUMP_TRANSACTION C) send (Some parcel_new) 0 in
  drop_reply owned ;;; ret err.

(** ** Proxies *)

(** The test both look-ups make: is there no proxy, or is it past saving? *)
Definition needs_proxy (e : handle_entry) : M bool :=
  match e_binder e, e_refs e with
  | Some _, Some refs => do! w := gets id in ret (negb (k_attemptIncWeak E w refs))
  | Some _, None => crash 191
  | None, _ => ret true
  end.

(** [e->binder = b = new BpBinder(handle)]. *)
Definition new_proxy (handle : Z) : M Z :=
  do! b := BpBinder_new E Sys garbage handle in
  set_entry handle (HandleEntry (Some b) (Some (k_weak_refs E b))) ;;; ret b.

Definition dec_entry_weak (e : handle_entry) : M unit :=
  match e_refs e with Some r => log (EvDecWeak r) | None => crash 228 end.

(** [getStrongProxyForHandle]; the first strong pointer to a proxy runs
    [onFirstRef]. *)
Definition getStrongProxyForHandle (grows : Z -> bool) (handle : Z) : M (option Z) :=
  do! e := lookupHandleLocked grows handle in
  match e with
  | None => ret None
  | Some e =>
      do! fresh := needs_proxy e in
      if fresh : bool then
        do! status :=
          (if handle =? 0 then
             do! '(status, _, _) :=
               with_ipc E Sys garbage (ipc_transact 0 (IB_PING_TRANSACTION C) parcel_new None 0) in ret status
           else ret NO_ERROR) in
        if (handle =? 0) && (status =? DEAD_OBJECT (k_errors E)) then ret None
        else
          do! b := new_proxy handle in
          log (EvIncStrong b) ;;; onFirstRef E Sys garbage b ;;; ret (Some b)
      else
        match e_binder e with
        | Some b => log (EvForceSet b) ;;; dec_entry_weak e ;;; ret (Some b)
        | None => ret None
        end
  end.

Definition getWeakProxyForHandle (grows : Z -> bool) (handle : Z) : M (option Z) :=
  do! e := lookupHandleLocked grows handle in
  match e with
  | None => ret None
  | Some e =>
      do! fresh := needs_proxy e in
      if fresh : bool then
        do! b := new_proxy handle in log (EvIncWeak (k_weak_refs E b)) ;;; ret (Some b)
      else
        match e_binder e with
        | Some b => log (EvIncWeak (k_weak_refs E b)) ;;; dec_entry_weak e ;;; ret (Some b)
        | None => ret None
        end
  end.

(** [getContextObject] of the default context, and of a name: one that is known,
    or one the context manager knows. *)
Definition getContextObject_default (grows : Z -> bool) : M (option Z) :=
  getStrongProxyForHandle grows 0.

Definition getContextObject (name : list Z) (caller : option Z) : M (option Z) :=
  do! p := process in
  match mjoin (contexts_find name (mContexts p)) with
  | Some object => ret (Some object)
  | None =>
      if mManagesContexts p then ret None
      else
        do! object := with_ipc E Sys garbage (
          let data := writeStrongBinder caller (writeString16 name parcel_new) in
          do! '(result, reply, owned) := ipc_transact 0 0 data (Some parcel_new) 0 in
          let object := if result =? NO_ERROR
                        then (readStrongBinder (default parcel_new reply)).1 else None in
          drop_reply owned ;;; flushCommands E ;;; ret object) in
        match object with
        | Some _ => setContextObject object name
        | None => ret tt
        end ;;;
        ret object
  end.

End Model.
