(* ===== verification/CppThms.v ===== *)
(** * CppThms: proxies, death recipients and the calling identity

    Theorems about the C++ library: what the methods queue for the driver, which
    proxy a handle has, who is told of a death, and that serving a transaction
    gives the thread its caller back. *)

From S2P Require Import Prelude Uapi Parcel CppWorld ProcessState IpcCore BpBinder IpcThread Proxy.

Section Cpp.
Context `{PL : ParcelLib} `{U : BinderUapi}.

(** ** One thread *)

Definition has_thread (w : world) (t : ipc_thread) : Prop := w_threads w !! w_tid w = Some t.

Definition with_this (t : ipc_thread) (w : world) : world :=
  set_threads (<[w_tid w := t]> (w_threads w)) w.

Lemma has_with_this t w : has_thread (with_this t w) t.
Proof. apply lookup_insert_eq. Qed.

Lemma with_this_twice t1 t2 w : with_this t2 (with_this t1 w) = with_this t2 w.
Proof. unfold with_this, set_threads. simpl. by rewrite insert_insert_eq. Qed.

Lemma this_run w t : has_thread w t -> this w = Value t w.
Proof. intros H. unfold this. by rewrite H. Qed.

Lemma upd_this_run f w t : has_thread w t -> upd_this f w = Value tt (with_this (f t) w).
Proof. intros H. unfold upd_this, bind. by rewrite (this_run w t H). Qed.

Lemma bind_value {A B} (m : M A) (f : A -> M B) w a w' : m w = Value a w' -> bind m f w = f a w'.
Proof. intros H. unfold bind. by rewrite H. Qed.

Lemma seq_value {A B C} (m : M A) (k : M B) (k2 : M C) w a w' :
  (m ;;; k) w = Value a w' -> (m ;;; k ;;; k2) w = k2 w'.
Proof. unfold bind. destruct (m w); [|done..]. by intros ->. Qed.

(** ** Commands in [mOut] *)

(** Running [m] queues these bytes, and nothing else happens. *)
Definition queues {A} (m : M A) (a : A) (l : list Z) : Prop :=
  forall w t, has_thread w t -> at_end (mOut t) ->
    exists q, m w = Value a (with_this (set_mOut q t) w) /\ p_bytes q = p_bytes (mOut t) ++ l /\ at_end q.

Lemma out_int_queues x : queues (out_int x) tt (le_encode 4 (u32 x)).
Proof.
  intros w t Ht He. exists (writeInt32 x (mOut t)). split; [by apply (upd_this_run (fun t => _))|].
  split; [by apply writeInt32_bytes|by apply writeInt32_end].
Qed.

Lemma out_pointer_queues x : queues (out_pointer x) tt (le_encode 8 (u64 x)).
Proof.
  intros w t Ht He. exists (writePointer x (mOut t)). split; [by apply (upd_this_run (fun t => _))|].
  split; [by apply writePointer_bytes|by apply writePointer_end].
Qed.

Lemma queues_seq {A} (m : M unit) (k : M A) a l1 l2 :
  queues m tt l1 -> queues k a l2 -> queues (m ;;; k) a (l1 ++ l2).
Proof.
  intros H1 H2 w t Ht He. destruct (H1 w t Ht He) as (q1 & E1 & B1 & A1).
  destruct (H2 (with_this (set_mOut q1 t) w) (set_mOut q1 t)) as (q2 & E2 & B2 & A2);
    [apply has_with_this|done|].
  exists q2. rewrite (bind_value _ _ _ _ _ E1), E2, with_this_twice.
  split; [done|]. split; [|done]. rewrite B2. cbn [mOut set_mOut].
  by rewrite B1, app_assoc.
Qed.

Lemma queues_ret {A} (m : M unit) (a : A) l : queues m tt l -> queues (m ;;; ret a) a l.
Proof.
  intros H w t Ht He. destruct (H w t Ht He) as (q & E & B). exists q.
  by rewrite (bind_value _ _ _ _ _ E).
Qed.

Definition handle_command (c h : Z) : list Z := le_encode 4 (u32 c) ++ le_encode 4 (u32 h).
Definition death_command (c h b : Z) : list Z :=
  le_encode 4 (u32 c) ++ le_encode 4 (u32 h) ++ le_encode 8 (u64 b).

Lemma incWeakHandle_queues h : queues (incWeakHandle h) tt (handle_command BC_INCREFS h).
Proof. apply queues_seq; apply out_int_queues. Qed.
Lemma incStrongHandle_queues h : queues (incStrongHandle h) tt (handle_command BC_ACQUIRE h).
Proof. apply queues_seq; apply out_int_queues. Qed.

Lemma requestDeathNotification_queues h b :
  queues (requestDeathNotification h b) NO_ERROR (death_command BC_REQUEST_DEATH_NOTIFICATION h b).
Proof.
  apply queues_seq; [apply out_int_queues|]. apply queues_seq; [apply out_int_queues|].
  apply queues_ret, out_pointer_queues.
Qed.

Lemma clearDeathNotification_queues h b :
  queues (clearDeathNotification h b) NO_ERROR (death_command BC_CLEAR_DEATH_NOTIFICATION h b).
Proof.
  apply queues_seq; [apply out_int_queues|]. apply queues_seq; [apply out_int_queues|].
  apply queues_ret, out_pointer_queues.
Qed.

(** ** Flushing *)

Context (E : cpp_env) (Sys : system) (garbage : Z).

Lemma self_run w t : w_have_tls w = true -> has_thread w t ->
  IPCThreadState_self E Sys garbage w = Value true w.
Proof.
  intros Htls Ht. unfold IPCThreadState_self, bind at 1, gets. rewrite Htls.
  unfold bind, id. by rewrite Ht.
Qed.

Lemma with_ipc_run {A} (m : M A) w t : w_have_tls w = true -> has_thread w t ->
  with_ipc E Sys garbage m w = m w.
Proof. intros Htls Ht. unfold with_ipc. by rewrite (bind_value _ _ _ _ _ (self_run w t Htls Ht)). Qed.

(** The thread finds its state, and the driver answers the next ioctl with
    success. *)
Record driver_ready (w : world) (P : process_state) (a : ioctl_answer) (rest : list ioctl_answer)
    : Prop := {
  dr_tls : w_have_tls w = true;
  dr_process : w_process w = Some P;
  dr_fd : 0 < mDriverFD P;
  dr_android : k_android E = true;
  dr_answers : w_answers w = a :: rest;
  dr_ok : 0 <= io_ret a
}.

(** The bytes of [mOut] have gone to the driver, which answered [a]. *)
Definition flushed (P : process_state) (a : ioctl_answer) (rest : list ioctl_answer)
    (t : ipc_thread) (w : world) : world :=
  with_this (exchanged a t)
    (set_answers rest (add_log (EvIoctl (mDriverFD P) (IoWriteRead (p_bytes (mOut t)) 0)) w)).

Lemma flush_run w t P a rest :
  has_thread w t -> driver_ready w P a rest -> p_bytes (mOut t) <> [] ->
  flushCommands E w = Value tt (flushed P a rest t w).
Proof.
  intros Ht [_ HP Hfd Han Ha Hok] Hout. unfold flushCommands, talkWithDriver, process.
  unfold bind at 1. rewrite HP. rewrite (proj2 (Z.leb_gt (mDriverFD P) 0)) by lia.
  unfold bind at 1 2. rewrite HP. rewrite (proj2 (Z.leb_gt (mDriverFD P) 0)) by lia.
  unfold bind at 1. rewrite (this_run w t Ht). cbn [negb orb andb].
  assert (dataSize (mOut t) <> 0) as Hn.
  { unfold dataSize. destruct (p_bytes (mOut t)); [done|]. simpl. lia. }
  rewrite (proj2 (Z.eqb_neq _ _) Hn), Han. cbn [negb andb].
  unfold ioctl_retry, bind, gets, id. rewrite Ha. cbn [length ioctl_loop]. unfold bind, ioctl.
  cbn [w_answers add_log]. rewrite Ha. unfold process. cbn [w_process set_answers add_log]. rewrite HP.
  rewrite (proj2 (Z.leb_gt (mDriverFD P) 0)), (proj2 (Z.leb_le 0 (io_ret a))) by lia.
  change (NO_ERROR =? - EINTR) with false. cbn [ret].
  change (NO_ERROR <=? NO_ERROR) with true. cbn match.
  unfold ret. rewrite (upd_this_run _ _ t) by exact Ht. done.
Qed.

(** ** Death recipients *)

Lemma proxy_run w b p : w_proxies w !! b = Some p -> proxy b w = Value p w.
Proof. intros H. unfold proxy. by rewrite H. Qed.

Lemma upd_proxy_run w b p f : w_proxies w !! b = Some p ->
  upd_proxy b f w = Value tt (set_proxies (<[b := f p]> (w_proxies w)) w).
Proof. intros H. unfold upd_proxy, bind. by rewrite (proxy_run w b p H). Qed.

(** A command for the driver, sent at once, after what was queued before it. *)
Lemma send_run (m : M Z) x l w t P a rest :
  queues m x l -> l <> [] -> has_thread w t -> at_end (mOut t) -> driver_ready w P a rest ->
  exists w', with_ipc E Sys garbage ((do! _ := m in ret tt) ;;; flushCommands E) w = Value tt w' /\
    w_proxies w' = w_proxies w /\
    w_log w' = w_log w ++ [EvIoctl (mDriverFD P) (IoWriteRead (p_bytes (mOut t) ++ l) 0)].
Proof.
  intros Hq Hl Ht He Hd. destruct (Hq w t Ht He) as (q & Em & Eq & _).
  rewrite (with_ipc_run _ w t (dr_tls _ _ _ _ Hd) Ht). eexists. split; [|split].
  - erewrite bind_value by (erewrite bind_value by exact Em; reflexivity).
    apply flush_run; [apply has_with_this| |].
    + destruct Hd. by split.
    + cbn [mOut set_mOut]. rewrite Eq. destruct (p_bytes (mOut t)); [done|discriminate].
  - done.
  - cbn [mOut set_mOut]. simpl. by rewrite Eq.
Qed.

Lemma death_command_nonempty c h b : death_command c h b <> [].
Proof. intros E0. apply (f_equal length) in E0. unfold death_command in E0.
  rewrite !length_app, !length_le_encode in E0. done. Qed.

(** Who waits for the death of a proxy; [None] once they have been told. *)
Definition watchers (p : bp_binder) : option (list obituary) :=
  if mObitsSent p then None else Some (default [] (mObituaries p)).

(** The list is there only when somebody is in it, and after the death there is
    none. *)
Definition proxy_ok (p : bp_binder) : Prop :=
  mObituaries p <> Some [] /\ (mObitsSent p = true -> mObituaries p = None /\ mAlive p = false).

(** The proxy is [p'] now, and these are the new events. *)
Definition proxy_after (w : world) (b : Z) (p' : bp_binder) (l : list event) (w' : world) : Prop :=
  w_proxies w' = <[b := p']> (w_proxies w) /\ proxy_ok p' /\ w_log w' = w_log w ++ l.

Lemma link_run w t P a rest b p r cookie flags :
  has_thread w t -> at_end (mOut t) -> driver_ready w P a rest ->
  w_proxies w !! b = Some p -> proxy_ok p ->
  match watchers p with
  | None => linkToDeath E Sys garbage b (Some r) cookie flags w = Value (DEAD_OBJECT (k_errors E)) w
  | Some l =>
      exists p' w', linkToDeath E Sys garbage b (Some r) cookie flags w = Value NO_ERROR w' /\
        watchers p' = Some (l ++ [Obituary (Some r) cookie flags]) /\ mAlive p' = mAlive p /\
        proxy_after w b p' (if decide (l = []) then
          [EvIncWeak (k_weak_refs E b);
           EvIoctl (mDriverFD P) (IoWriteRead (p_bytes (mOut t) ++
             death_command BC_REQUEST_DEATH_NOTIFICATION (mHandle p) b) 0)] else []) w'
  end.
Proof.
  intros Ht He Hd Hp [Hne Hdead]. unfold watchers at 1. unfold linkToDeath.
  rewrite (bind_value _ _ _ _ _ (proxy_run w b p Hp)).
  destruct (mObitsSent p) eqn:Es; cbn [negb]; [done|].
  set (p' := set_mObituaries (Some (default [] (mObituaries p) ++ [Obituary (Some r) cookie flags])) p).
  assert (watchers p' = Some (default [] (mObituaries p) ++ [Obituary (Some r) cookie flags])) as Hw'.
  { unfold watchers, p'. simpl. by rewrite Es. }
  assert (proxy_ok p') as Hok'.
  { split; simpl; [|by rewrite Es]. intros [= E0]. by destruct (default [] (mObituaries p)). }
  destruct (mObituaries p) as [l|] eqn:El; cbn [default from_option id] in *.
  - rewrite decide_False by congruence. eexists p', _. split; [|split; [exact Hw'|]].
    + erewrite bind_value by reflexivity. rewrite (bind_value _ _ _ _ _ (upd_proxy_run w b p _ Hp)).
      rewrite El. reflexivity.
    + split; [done|]. split; [done|]. split; [done|]. by rewrite app_nil_r.
  - rewrite decide_True by done.
    destruct (send_run _ _ _ (add_log (EvIncWeak (k_weak_refs E b)) w) t P a rest
      (requestDeathNotification_queues (mHandle p) b) (death_command_nonempty _ _ _) Ht He)
      as (w1 & E1 & Ep1 & El1); [by destruct Hd|].
    eexists p', _. split; [|split; [exact Hw'|]].
    + erewrite bind_value by (erewrite bind_value by reflexivity; exact E1).
      rewrite (bind_value _ _ _ _ _ (upd_proxy_run w1 b p _ ltac:(by rewrite Ep1))). rewrite El. reflexivity.
    + split; [done|]. split; [by simpl; rewrite Ep1|]. split; [done|]. simpl. rewrite El1. simpl.
      by rewrite <- app_assoc.
Qed.

Lemma find_obit_split r c f l1 o l2 :
  Forall (fun o => obit_matches r c f o = false) l1 -> obit_matches r c f o = true ->
  find_obit r c f (l1 ++ o :: l2) = Some (length l1).
Proof.
  intros H Ho. induction H as [|x l Hx _ IH]; simpl; [by rewrite Ho|]. by rewrite Hx, IH.
Qed.

Lemma find_obit_none r c f l :
  Forall (fun o => obit_matches r c f o = false) l -> find_obit r c f l = None.
Proof. induction 1 as [|x l Hx _ IH]; simpl; [done|]. by rewrite Hx, IH. Qed.

Lemma unlink_run w t P a rest b p r cookie flags l1 o l2 :
  has_thread w t -> at_end (mOut t) -> driver_ready w P a rest ->
  w_proxies w !! b = Some p -> proxy_ok p -> watchers p = Some (l1 ++ o :: l2) ->
  Forall (fun o => obit_matches r cookie flags o = false) l1 ->
  obit_matches r cookie flags o = true ->
  exists p' w', unlinkToDeath E Sys garbage b r cookie flags w = Value (NO_ERROR, Some (o_recipient o)) w' /\
    watchers p' = Some (l1 ++ l2) /\ mAlive p' = mAlive p /\
    proxy_after w b p' (if decide (l1 ++ l2 = []) then
      [EvIoctl (mDriverFD P) (IoWriteRead (p_bytes (mOut t) ++
         death_command BC_CLEAR_DEATH_NOTIFICATION (mHandle p) b) 0)] else []) w'.
Proof.
  intros Ht He Hd Hp [_ Hdead] Hl H1 Ho. unfold watchers in Hl.
  destruct (mObitsSent p) eqn:Es; [done|]. injection Hl as Hl. unfold unlinkToDeath.
  rewrite (bind_value _ _ _ _ _ (proxy_run w b p Hp)), Es, Hl, find_obit_split by done.
  rewrite list_lookup_middle, delete_middle by done. cbn [fmap option_fmap option_map].
  assert (forall v, v <> Some [] -> proxy_ok (set_mObituaries v p)) as Hok'.
  { intros v Hv. split; simpl; [done|by rewrite Es]. }
  destruct (decide (l1 ++ l2 = [])) as [E0|E0].
  - destruct (send_run _ _ _ w t P a rest
      (clearDeathNotification_queues (mHandle p) b) (death_command_nonempty _ _ _) Ht He Hd)
      as (w1 & E1 & Ep1 & El1).
    eexists (set_mObituaries None p), _. split; [|split; [unfold watchers; simpl; by rewrite Es, E0|]].
    + rewrite (bind_value _ _ w tt (set_proxies (<[b := set_mObituaries None p]> (w_proxies w1)) w1));
        [reflexivity|]. rewrite (bind_value _ _ _ _ _ E1). apply upd_proxy_run. by rewrite Ep1.
    + split; [done|]. split; [by simpl; rewrite Ep1|]. split; [by apply Hok'|]. exact El1.
  - eexists (set_mObituaries (Some (l1 ++ l2)) p), _.
    split; [|split; [unfold watchers; simpl; by rewrite Es|]].
    + rewrite (bind_value _ _ _ _ _ (upd_proxy_run w b p _ Hp)). reflexivity.
    + split; [done|]. split; [done|]. split; [apply Hok'; congruence|]. by rewrite app_nil_r.
Qed.

Lemma died_run binderDied w t P a rest b p :
  has_thread w t -> at_end (mOut t) -> driver_ready w P a rest ->
  w_proxies w !! b = Some p -> proxy_ok p ->
  match watchers p with
  | None => sendObituary E Sys garbage binderDied b w = Value tt w
  | Some l =>
      exists p' w', sendObituary E Sys garbage binderDied b w = report_deaths E binderDied b l w' /\
        watchers p' = None /\ mAlive p' = false /\
        proxy_after w b p' (if decide (l = []) then [] else
          [EvIoctl (mDriverFD P) (IoWriteRead (p_bytes (mOut t) ++
             death_command BC_CLEAR_DEATH_NOTIFICATION (mHandle p) b) 0)]) w'
  end.
Proof.
  intros Ht He Hd Hp [Hne Hdead]. unfold watchers at 1, sendObituary.
  rewrite (bind_value _ _ _ _ _ (upd_proxy_run w b p _ Hp)).
  set (w0 := set_proxies _ w). set (p0 := set_mAlive false p) in *.
  assert (w_proxies w0 !! b = Some p0) as Hp0 by apply lookup_insert_eq.
  rewrite (bind_value _ _ _ _ _ (proxy_run w0 b p0 Hp0)). change (mObitsSent p0) with (mObitsSent p).
  destruct (mObitsSent p) eqn:Es.
  { destruct (Hdead eq_refl) as [_ Ha]. unfold ret, w0. f_equal. unfold p0.
    assert (set_mAlive false p = p) as -> by (destruct p; simpl in Ha; by subst). rewrite insert_id by done.
    by destruct w. }
  change (mObituaries p0) with (mObituaries p).
  destruct (mObituaries p) as [l|] eqn:El; cbn [default from_option id].
  - assert (driver_ready w0 P a rest) as Hd0 by (destruct Hd; by split).
    destruct (send_run _ _ _ w0 t P a rest
      (clearDeathNotification_queues (mHandle p) b) (death_command_nonempty _ _ _) Ht He Hd0)
      as (w1 & E1 & Ep1 & El1).
    set (p1 := set_mObituaries None p0). set (w2 := set_proxies (<[b := p1]> (w_proxies w1)) w1).
    eexists (set_mObitsSent true p1), (set_proxies _ w2). split; [|split; [done|split; [done|]]].
    + rewrite (bind_value _ _ w0 tt w2).
      * rewrite (bind_value _ _ _ _ _ (upd_proxy_run w2 b p1 _ (lookup_insert_eq _ _ _))). reflexivity.
      * rewrite (bind_value _ _ _ _ _ E1). apply upd_proxy_run. by rewrite Ep1.
    + rewrite decide_False by congruence. split; [|split; [done|exact El1]]. simpl.
      rewrite Ep1, insert_insert_eq. apply insert_insert_eq.
  - eexists (set_mObitsSent true p0), _. split; [|split; [unfold watchers; done|split; [done|]]].
    + rewrite (bind_value _ _ w0 tt w0) by done.
      rewrite (bind_value _ _ _ _ _ (upd_proxy_run w0 b p0 _ Hp0)). reflexivity.
    + rewrite decide_True by done. split; [|split; [|by rewrite app_nil_r]]; [|split; simpl; by rewrite El]. simpl.
      by rewrite insert_insert_eq.
Qed.

(** *** Who is told *)

(** The event that somebody is told of this proxy's death. *)
Definition tells_death (b : Z) (e : event) : Prop :=
  match e with EvBinderDied _ b' => b' = b | _ => False end.

#[export] Instance tells_death_dec b e : Decision (tells_death b e).
Proof. destruct e; simpl; apply _. Defined.

(** User code that returns, keeps [I], and tells nobody of this death itself. *)
Definition user_code_returns (I : world -> Prop) (binderDied : Z -> Z -> M unit) (b : Z) : Prop :=
  forall r w, I w -> exists w' evs,
    binderDied r b (add_log (EvBinderDied r b) w) = Value tt w' /\ I w' /\
    w_log w' = w_log w ++ EvBinderDied r b :: evs /\ Forall (fun e => ~ tells_death b e) evs.

(** Of the recipients [rs], [told] are called: in their order and once each; all
    that somebody holds, and none that is gone. *)
Record told_of (I : world -> Prop) (rs told : list Z) : Prop := {
  to_order : told `sublist_of` rs;
  to_held (held : gset Z) : (forall r w, I w -> r ∈ held -> k_promote E w r = true) ->
    filter (fun r => r ∈ held) told = filter (fun r => r ∈ held) rs;
  to_gone r : (forall w, I w -> k_promote E w r = false) -> r ∉ told
}.

Lemma told_of_nil I : told_of I [] [].
Proof. split; [constructor|done|by intros r _ ?%not_elem_of_nil]. Qed.

Lemma told_of_cons I rs told r w : I w -> k_promote E w r = true -> told_of I rs told ->
  told_of I (r :: rs) (r :: told).
Proof.
  intros HI Hr [H1 H2 H3]. split.
  - by constructor.
  - intros held Hh. rewrite !filter_cons. by rewrite (H2 held Hh).
  - intros x Hx [->|Hin]%elem_of_cons; [|by apply (H3 x)]. by rewrite (Hx w HI) in Hr.
Qed.

Lemma told_of_skip I rs told r w : I w -> k_promote E w r = false -> told_of I rs told ->
  told_of I (r :: rs) told.
Proof.
  intros HI Hr [H1 H2 H3]. split.
  - by constructor.
  - intros held Hh. rewrite filter_cons, decide_False by (intros Hin; rewrite (Hh r w HI Hin) in Hr; done).
    by apply H2.
  - done.
Qed.

Lemma report_run I binderDied b l : user_code_returns I binderDied b -> forall w, I w ->
  exists w' evs told, report_deaths E binderDied b l w = Value tt w' /\ w_log w' = w_log w ++ evs /\
    filter (tells_death b) evs = (fun r => EvBinderDied r b) <$> told /\
    told_of I (omap o_recipient l) told.
Proof.
  intros Hu. induction l as [|o l IH]; intros w HI.
  { exists w, [], []. split; [done|]. split; [by rewrite app_nil_r|]. split; [done|]. apply told_of_nil. }
  cbn [report_deaths omap list_omap]. unfold reportOneDeath. destruct (o_recipient o) as [r|] eqn:Er.
  2: { destruct (IH w HI) as (w' & evs & told & E1 & H). exists w', evs, told. by rewrite <- E1. }
  destruct (k_promote E w r) eqn:Ep.
  - destruct (Hu r w HI) as (w1 & evs1 & E1 & HI1 & L1 & F1).
    destruct (IH w1 HI1) as (w' & evs & told & E2 & L2 & F2 & T2).
    exists w', (EvBinderDied r b :: evs1 ++ evs), (r :: told). split.
    { rewrite (bind_value _ _ w tt w1); [exact E2|]. unfold bind at 1, gets, id. rewrite Ep. exact E1. }
    split; [by rewrite L2, L1, <- app_assoc|]. split; [|by apply (told_of_cons I _ _ r w)].
    rewrite filter_cons_True by done. rewrite filter_app, F2.
    assert (filter (tells_death b) evs1 = []) as ->; [|done].
    clear -F1. induction F1 as [|x l Hx _ IH]; [done|]. by rewrite filter_cons_False.
  - destruct (IH w HI) as (w' & evs & told & E1 & L1 & F1 & T1). exists w', evs, told.
    split; [|split; [done|split; [done|by apply (told_of_skip I _ _ r w)]]].
    rewrite (bind_value _ _ w tt w); [exact E1|]. unfold bind at 1, gets, id. by rewrite Ep.
Qed.

(** C15: the death of a proxy.  Whoever links gets told, in the order of linking,
    unless unlinked before; the driver is asked to watch the handle with the first
    recipient and to stop with the last, at once.  After the proxy is marked dead
    the recipients that still exist are called, each link once and in order, all
    that somebody holds and none that is gone; from then on nobody is told, and
    linking and unlinking say [DEAD_OBJECT]. *)
Theorem death_recipients_correct binderDied w t P a rest b p :
  has_thread w t -> at_end (mOut t) -> driver_ready w P a rest ->
  w_proxies w !! b = Some p -> proxy_ok p ->
  let asked c := [EvIoctl (mDriverFD P)
    (IoWriteRead (p_bytes (mOut t) ++ death_command c (mHandle p) b) 0)] in
  match watchers p with
  | None =>
      (forall r cookie flags,
        linkToDeath E Sys garbage b (Some r) cookie flags w = Value (DEAD_OBJECT (k_errors E)) w) /\
      (forall r cookie flags,
        unlinkToDeath E Sys garbage b r cookie flags w = Value (DEAD_OBJECT (k_errors E), None) w) /\
      sendObituary E Sys garbage binderDied b w = Value tt w
  | Some l =>
      (forall r cookie flags, exists p' w',
        linkToDeath E Sys garbage b (Some r) cookie flags w = Value NO_ERROR w' /\
        watchers p' = Some (l ++ [Obituary (Some r) cookie flags]) /\ mAlive p' = mAlive p /\
        proxy_after w b p' (if decide (l = []) then
          EvIncWeak (k_weak_refs E b) :: asked BC_REQUEST_DEATH_NOTIFICATION else []) w') /\
      (forall r cookie flags l1 o l2, l = l1 ++ o :: l2 ->
        Forall (fun o => obit_matches r cookie flags o = false) l1 ->
        obit_matches r cookie flags o = true -> exists p' w',
        unlinkToDeath E Sys garbage b r cookie flags w = Value (NO_ERROR, Some (o_recipient o)) w' /\
        watchers p' = Some (l1 ++ l2) /\ mAlive p' = mAlive p /\
        proxy_after w b p' (if decide (l1 ++ l2 = []) then
          asked BC_CLEAR_DEATH_NOTIFICATION else []) w') /\
      (forall r cookie flags, Forall (fun o => obit_matches r cookie flags o = false) l ->
        unlinkToDeath E Sys garbage b r cookie flags w = Value (NAME_NOT_FOUND (k_errors E), None) w) /\
      exists p' w', sendObituary E Sys garbage binderDied b w = report_deaths E binderDied b l w' /\
        watchers p' = None /\ mAlive p' = false /\
        proxy_after w b p' (if decide (l = []) then [] else
          asked BC_CLEAR_DEATH_NOTIFICATION) w' /\
        forall I, user_code_returns I binderDied b -> I w' -> exists w'' evs told,
          sendObituary E Sys garbage binderDied b w = Value tt w'' /\ w_log w'' = w_log w' ++ evs /\
          filter (tells_death b) evs = (fun r => EvBinderDied r b) <$> told /\
          told_of I (omap o_recipient l) told
  end.
Proof.
  intros Ht He Hd Hp Hok asked. unfold asked.
  pose proof (fun r c f => link_run w t P a rest b p r c f Ht He Hd Hp Hok) as Hlink.
  pose proof (died_run binderDied w t P a rest b p Ht He Hd Hp Hok) as Hdied.
  destruct (watchers p) as [l|] eqn:El.
  - split; [exact Hlink|]. split; [|split].
    + intros r c f l1 o l2 -> H1 Ho. by eapply unlink_run.
    + intros r c f Hn. unfold watchers in El. destruct (mObitsSent p) eqn:Es; [done|].
      injection El as El. unfold unlinkToDeath. rewrite (bind_value _ _ _ _ _ (proxy_run w b p Hp)).
      by rewrite Es, El, find_obit_none.
    + destruct Hdied as (p' & w' & Hs & Hw' & Ha & Hpa). exists p', w'. do 4 (split; [done|]).
      intros I Hu HI. rewrite Hs. by apply report_run.
  - split; [exact Hlink|]. split; [|exact Hdied]. intros r c f. unfold watchers in El.
    destruct (mObitsSent p) eqn:Es; [|done]. unfold unlinkToDeath.
    rewrite (bind_value _ _ _ _ _ (proxy_run w b p Hp)). by rewrite Es.
Qed.

(** ** The table of proxies *)

(** Every entry is the proxy of its handle. *)
Definition table_ok (w : world) (l : list handle_entry) : Prop :=
  forall i e b, l !! i = Some e -> e_binder e = Some b ->
    e_refs e = Some (k_weak_refs E b) /\
    exists p, w_proxies w !! b = Some p /\ mHandle p = Z.of_nat i.

(** The entry of a handle, in a table that may be too short for it. *)
Definition entry_at (l : list handle_entry) (h : Z) : handle_entry :=
  default empty_entry (l !! Z.to_nat h).

(** The table with an entry for the handle. *)
Definition grown (l : list handle_entry) (h : Z) : list handle_entry :=
  l ++ repeat empty_entry (Z.to_nat (h + 1) - length l).

Lemma process_run w P : w_process w = Some P -> process w = Value P w.
Proof. intros H. unfold process. by rewrite H. Qed.

Lemma upd_process_run w P f : w_process w = Some P ->
  upd_process f w = Value tt (set_process (Some (f P)) w).
Proof. intros H. unfold upd_process, bind. by rewrite (process_run w P H). Qed.

Lemma lookup_run grows w P h :
  w_process w = Some P -> 0 <= h < 2 ^ 31 -> Z.of_nat (length (mHandleToObject P)) < 2 ^ 32 ->
  (forall n, 0 <= n <= 2 ^ 31 -> grows n = true) ->
  exists w', lookupHandleLocked grows h w = Value (Some (entry_at (mHandleToObject P) h)) w' /\
    w' = set_process (Some (set_mHandleToObject (grown (mHandleToObject P) h) P)) w.
Proof.
  intros HP Hh Hn Hg. unfold lookupHandleLocked, entry_at, grown.
  rewrite (bind_value _ _ _ _ _ (process_run w P HP)). rewrite u64_small by lia.
  destruct (Z.leb_spec (Z.of_nat (length (mHandleToObject P))) h).
  - rewrite u64_small, Hg by lia. cbn [negb].
    rewrite (bind_value _ _ _ _ _ (upd_process_run w P _ HP)).
    rewrite (lookup_ge_None_2 (mHandleToObject P)) by lia. eexists. split; [reflexivity|].
    by replace (Z.to_nat (h + 1) - length (mHandleToObject P))%nat with
      (Z.to_nat (h + 1 - Z.of_nat (length (mHandleToObject P)))) by lia.
  - eexists. destruct (lookup_lt_is_Some_2 (mHandleToObject P) (Z.to_nat h)) as [e Ee]; [lia|].
    rewrite Ee. split; [reflexivity|].
    replace (_ - _)%nat with 0%nat by lia. rewrite app_nil_r. destruct w as [], P as []. simpl in *. by rewrite HP.
Qed.

(** A new proxy: the driver is told of the weak and then of the strong reference. *)
Lemma new_proxy_run w t b rest P h :
  w_have_tls w = true -> has_thread w t -> at_end (mOut t) -> w_process w = Some P ->
  w_new w = b :: rest -> w_proxies w !! b = None -> 0 <= h < 2 ^ 31 ->
  exists w' q, (do! b := new_proxy E Sys garbage h in
                log (EvIncStrong b) ;;; onFirstRef E Sys garbage b ;;; ret (Some b)) w = Value (Some b) w' /\
    w_process w' = Some (set_mHandleToObject
      (<[Z.to_nat h := HandleEntry (Some b) (Some (k_weak_refs E b))]> (mHandleToObject P)) P) /\
    w_proxies w' = <[b := BpBinderObj h true false None [] []]> (w_proxies w) /\
    has_thread w' (set_mOut q t) /\
    p_bytes q = p_bytes (mOut t) ++ handle_command BC_INCREFS h ++ handle_command BC_ACQUIRE h.
Proof.
  intros Htls Ht He HP Hnew Hb Hh.
  set (w1 := set_proxies (<[b := BpBinderObj h true false None [] []]> (w_proxies w)) (set_new rest w)).
  destruct (incWeakHandle_queues h w1 t Ht He) as (q1 & E1 & B1 & A1).
  set (w2 := with_this (set_mOut q1 t) w1) in *.
  assert (new_proxy E Sys garbage h w = Value b (set_process (Some (set_mHandleToObject
      (<[Z.to_nat h := HandleEntry (Some b) (Some (k_weak_refs E b))]> (mHandleToObject P)) P)) w2)) as Enew.
  { unfold new_proxy, BpBinder_new. erewrite bind_value.
    2:{ erewrite bind_value by (unfold new_object; rewrite Hnew; reflexivity).
        erewrite bind_value by reflexivity.
        erewrite bind_value by (erewrite bind_value by (by apply (self_run w1 t)); exact E1).
        reflexivity. }
    unfold set_entry. rewrite u64_small by lia.
    erewrite bind_value by (by apply (upd_process_run w2 P)). reflexivity. }
  rewrite (bind_value _ _ _ _ _ Enew). set (w3 := set_process _ w2).
  erewrite bind_value by reflexivity. set (w4 := add_log _ w3).
  assert (has_thread w4 (set_mOut q1 t)) as Ht4 by apply has_with_this.
  destruct (incStrongHandle_queues h w4 (set_mOut q1 t) Ht4 A1) as (q & E2 & B2 & _).
  eexists _, q. split.
  { erewrite bind_value; [reflexivity|]. unfold onFirstRef.
    erewrite bind_value by (apply proxy_run, lookup_insert_eq). unfold if_ipc.
    erewrite bind_value by (by apply (self_run w4 (set_mOut q1 t))). exact E2. }
  split; [done|]. split; [done|]. split; [apply has_with_this|].
  rewrite B2. cbn [mOut set_mOut]. by rewrite B1, app_assoc.
Qed.

Lemma entry_at_grown l h i : entry_at (grown l h) i = entry_at l i.
Proof.
  unfold entry_at, grown. destruct (decide (Z.to_nat i < length l)%nat).
  - by rewrite lookup_app_l by done.
  - rewrite lookup_app_r, (lookup_ge_None_2 l) by lia. cbn [default from_option].
    destruct (repeat _ _ !! _) as [e|] eqn:Ee; [|done].
    apply list_elem_of_lookup_2, list_elem_of_In, repeat_spec in Ee. by subst.
Qed.

Lemma length_grown l h : 0 <= h -> (Z.to_nat h < length (grown l h))%nat.
Proof. intros Hh. unfold grown. rewrite length_app, repeat_length. lia. Qed.

Lemma table_ok_insert w w' l h b p :
  table_ok w l -> w_proxies w !! b = None -> w_proxies w' = <[b := p]> (w_proxies w) ->
  mHandle p = h -> 0 <= h ->
  table_ok w' (<[Z.to_nat h := HandleEntry (Some b) (Some (k_weak_refs E b))]> (grown l h)).
Proof.
  intros Hl Hb Ew Hp Hh i e b' Hi Hb'. rewrite Ew. destruct (decide (i = Z.to_nat h)) as [->|Hne].
  - rewrite list_lookup_insert_eq in Hi by (by apply length_grown). injection Hi as <-.
    injection Hb' as <-. split; [done|]. exists p. split; [apply lookup_insert_eq|lia].
  - rewrite list_lookup_insert_ne in Hi by done.
    assert (l !! i = Some e) as Hi'.
    { unfold grown in Hi. apply lookup_app_Some in Hi as [Hi|[_ Hi]]; [done|].
      apply list_elem_of_lookup_2, list_elem_of_In, repeat_spec in Hi. by subst. }
    destruct (Hl i e b' Hi' Hb') as (Er & p' & Hp' & Eh). split; [done|]. exists p'.
    split; [|done]. rewrite lookup_insert_ne; [done|]. intros ->. congruence.
Qed.

(** A proxy that is made in the world [w2], whose thread is [t2] and whose table
    is [l2]: it is in the table, which changes nowhere else, and the driver is
    sent its two references. *)
Definition proxy_made (h b : Z) (w2 : world) (t2 : ipc_thread) (l2 : list handle_entry) (w' : world) : Prop :=
  exists P' q, w_process w' = Some P' /\ table_ok w' (mHandleToObject P') /\
    e_binder (entry_at (mHandleToObject P') h) = Some b /\
    (forall i, 0 <= i -> i <> h -> entry_at (mHandleToObject P') i = entry_at l2 i) /\
    w_proxies w' = <[b := BpBinderObj h true false None [] []]> (w_proxies w2) /\
    has_thread w' (set_mOut q t2) /\
    p_bytes q = p_bytes (mOut t2) ++ handle_command BC_INCREFS h ++ handle_command BC_ACQUIRE h.

Lemma grown_long l h : (Z.to_nat h < length l)%nat -> grown l h = l.
Proof. intros H. unfold grown. replace (_ - _)%nat with 0%nat by lia. apply app_nil_r. Qed.

Lemma make_proxy_run w t b rest P l h :
  w_have_tls w = true -> has_thread w t -> at_end (mOut t) -> w_process w = Some P ->
  mHandleToObject P = grown l h -> table_ok w l ->
  w_new w = b :: rest -> w_proxies w !! b = None -> 0 <= h < 2 ^ 31 ->
  exists w', (do! b := new_proxy E Sys garbage h in
              log (EvIncStrong b) ;;; onFirstRef E Sys garbage b ;;; ret (Some b)) w = Value (Some b) w' /\
    proxy_made h b w t l w'.
Proof.
  intros Htls Ht He HP El Htab Hnew Hb Hh.
  destruct (new_proxy_run w t b rest P h Htls Ht He HP Hnew Hb Hh) as (w' & q & Er & EP & Ex & Et & Eq).
  exists w'. split; [exact Er|]. eexists _, q. split; [exact EP|]. cbn [mHandleToObject set_mHandleToObject].
  rewrite El. split; [eapply table_ok_insert; [exact Htab|exact Hb|exact Ex|done|lia]|].
  split; [unfold entry_at; by rewrite list_lookup_insert_eq by (apply length_grown; lia)|].
  split; [|done]. intros i Hi Hne. unfold entry_at. rewrite list_lookup_insert_ne by lia.
  apply entry_at_grown.
Qed.

(** C27: one proxy for a handle.  [getStrongProxyForHandle] gives the proxy in the
    table while it can still be referenced, changing nothing else.  Otherwise it
    makes one, for which the driver is sent [BC_INCREFS] and [BC_ACQUIRE] of the
    handle, and puts it into the table, growing it when needed; the entries of
    other handles stay, and every entry is a proxy of its handle.  For handle 0 it
    first pings the context manager: when that answers [DEAD_OBJECT] there is no
    proxy, and on any other answer one is made as for other handles. *)
Theorem strong_proxy_correct onTransact binderDied k_status statusBuffer C fuel grows w t P h :
  has_thread w t -> w_have_tls w = true -> at_end (mOut t) -> w_process w = Some P ->
  table_ok w (mHandleToObject P) -> 0 <= h < 2 ^ 31 ->
  Z.of_nat (length (mHandleToObject P)) < 2 ^ 32 ->
  (forall n, 0 <= n <= 2 ^ 31 -> grows n = true) ->
  let get := getStrongProxyForHandle E onTransact binderDied k_status statusBuffer C Sys garbage fuel
               grows h in
  let ping := IPCThreadState_transact E onTransact binderDied Sys garbage k_status statusBuffer fuel
                0 (IB_PING_TRANSACTION C) parcel_new None 0 in
  let e := entry_at (mHandleToObject P) h in
  let w1 := set_process (Some (set_mHandleToObject (grown (mHandleToObject P) h) P)) w in
  (forall b, e_binder e = Some b -> k_attemptIncWeak E w1 (k_weak_refs E b) = true ->
    get w = Value (Some b) (add_log (EvDecWeak (k_weak_refs E b)) (add_log (EvForceSet b) w))) /\
  ((forall b', e_binder e = Some b' -> k_attemptIncWeak E w1 (k_weak_refs E b') = false) ->
    (0 < h -> forall b rest, w_new w = b :: rest -> w_proxies w !! b = None ->
      exists w', get w = Value (Some b) w' /\ proxy_made h b w t (mHandleToObject P) w') /\
    (h = 0 -> forall status reply owned w2, ping w1 = Value (status, reply, owned) w2 ->
      (status = DEAD_OBJECT (k_errors E) -> get w = Value None w2) /\
      (status <> DEAD_OBJECT (k_errors E) ->
        forall t2 P2 b rest, has_thread w2 t2 -> w_have_tls w2 = true -> at_end (mOut t2) ->
          w_process w2 = Some P2 -> table_ok w2 (mHandleToObject P2) -> mHandleToObject P2 <> [] ->
          w_new w2 = b :: rest -> w_proxies w2 !! b = None ->
          exists w', get w = Value (Some b) w' /\ proxy_made 0 b w2 t2 (mHandleToObject P2) w'))).
Proof.
  intros Ht Htls He HP Htab Hh Hlen Hg get ping e w1.
  destruct (lookup_run grows w P h HP ltac:(lia) Hlen Hg) as (w1' & Elk & Ew1). fold w1 in Ew1. subst w1'.
  unfold get, getStrongProxyForHandle. rewrite (bind_value _ _ _ _ _ Elk). fold e.
  assert (forall b, e_binder e = Some b -> e_refs e = Some (k_weak_refs E b) /\
    (Z.to_nat h < length (mHandleToObject P))%nat) as Hr.
  { intros b Hb. unfold e, entry_at in *. destruct (mHandleToObject P !! Z.to_nat h) as [e0|] eqn:El; [|done].
    simpl in *. split; [by destruct (Htab _ _ _ El Hb)|by eapply lookup_lt_Some]. }
  assert (forall b, e_binder e = Some b -> needs_proxy E e w1 =
    Value (negb (k_attemptIncWeak E w1 (k_weak_refs E b))) w1) as Hneed.
  { intros b Hb. unfold needs_proxy. destruct (Hr b Hb) as [-> _]. by rewrite Hb. }
  split.
  - intros b Hb Hinc. destruct (Hr b Hb) as [Er Hl].
    assert (w1 = w) as Ew.
    { unfold w1. rewrite grown_long by done. destruct w as [], P as []. simpl in *. by rewrite HP. }
    rewrite (bind_value _ _ _ _ _ (Hneed b Hb)), Hinc. cbn [negb].
    rewrite Hb. unfold dec_entry_weak. rewrite Er, Ew. done.
  - intros Hno. assert (needs_proxy E e w1 = Value true w1) as En.
    { destruct (e_binder e) as [b'|] eqn:Eb.
      - by rewrite (Hneed b' eq_refl), (Hno b' eq_refl).
      - unfold needs_proxy. by rewrite Eb. }
    rewrite (bind_value _ _ _ _ _ En). split.
    + intros Hpos b rest Hnew Hb. rewrite (proj2 (Z.eqb_neq h 0)) by lia.
      erewrite bind_value by reflexivity. cbn [andb]. by apply (make_proxy_run w1 t b rest (set_mHandleToObject (grown (mHandleToObject P) h) P) (mHandleToObject P) h).
    + intros -> status reply owned w2 Hping. cbn [Z.eqb].
      rewrite (bind_value _ _ w1 status w2).
      2:{ rewrite (bind_value _ _ _ _ _ (eq_trans (with_ipc_run _ w1 t Htls Ht) Hping)). done. }
      cbn [andb]. destruct (Z.eqb_spec status (DEAD_OBJECT (k_errors E))) as [Es|Es]; split; try done.
      intros _ t2 P2 b rest Ht2 Htls2 He2 HP2 Htab2 Hne Hnew Hb.
      eapply make_proxy_run; try done. rewrite grown_long; [done|].
      destruct (mHandleToObject P2); [done|simpl; lia].
Qed.

(** ** The calling identity *)

(** [restoreCallingIdentity] of the token of [clearCallingIdentity]: the caller
    comes back when its pid is not negative. *)
Lemma shiftl_uid uid : i64 (Z.shiftl uid 32) = i32 uid * 2 ^ 32.
Proof.
  unfold i64, i32. rewrite Z.shiftl_mul_pow2 by lia.
  replace (uid * 2 ^ 32 + 2 ^ 63) with ((uid + 2 ^ 31) * 2 ^ 32) by lia.
  change (2 ^ 64) with (2 ^ 32 * 2 ^ 32). rewrite Zmult_mod_distr_r. lia.
Qed.

Lemma identity_token_split pid uid : 0 <= pid < 2 ^ 31 -> 0 <= uid < 2 ^ 32 ->
  i32 (identity_token pid uid) = pid /\ u32 (Z.shiftr (identity_token pid uid) 32) = uid.
Proof.
  intros Hp Hu. assert (identity_token pid uid = pid + i32 uid * 2 ^ 32) as ->.
  { unfold identity_token. rewrite shiftl_uid, <- Z.shiftl_mul_pow2 by lia.
    assert (Z.land pid (Z.shiftl (i32 uid) 32) = 0) as Hl.
    { apply Z.bits_inj'. intros n Hn. rewrite Z.land_spec, Z.bits_0.
      destruct (Z.lt_ge_cases n 32); [by rewrite Z.shiftl_spec_low, andb_false_r|].
      rewrite (proj1 (Z.bounded_iff_bits_nonneg 32 pid ltac:(lia) ltac:(lia)) ltac:(lia) n) by lia. done. }
    by rewrite Z.add_nocarry_lxor, Z.lxor_lor, Z.lor_comm. }
  rewrite Z.shiftr_div_pow2, Z.div_add by lia. split.
  - unfold i32 at 1. replace (pid + i32 uid * 2 ^ 32 + 2 ^ 31) with (pid + 2 ^ 31 + i32 uid * 2 ^ 32) by lia.
    rewrite Z.mod_add, Z.mod_small by lia. lia.
  - rewrite Z.div_small by lia. unfold u32, i32. rewrite Z.add_0_l, Zminus_mod_idemp_l.
    replace (uid + 2 ^ 31 - 2 ^ 31) with uid by lia. by apply Z.mod_small.
Qed.

Lemma identity_round_trip w t : has_thread w t -> 0 <= mCallingPid t < 2 ^ 31 ->
  0 <= mCallingUid t < 2 ^ 32 ->
  (do! token := clearCallingIdentity E in restoreCallingIdentity token) w =
    Value tt (with_this (set_caller (mCallingPid t) (mCallingUid t) t) w).
Proof.
  intros Ht Hp Hu. unfold clearCallingIdentity, restoreCallingIdentity, clearCaller.
  erewrite bind_value.
  2:{ rewrite (bind_value _ _ _ _ _ (this_run w t Ht)).
      rewrite (bind_value _ _ _ _ _ (upd_this_run _ w t Ht)). reflexivity. }
  rewrite (upd_this_run _ _ _ (has_with_this _ _)), with_this_twice.
  by destruct (identity_token_split (mCallingPid t) (mCallingUid t) Hp Hu) as [-> ->].
Qed.

(** A negative pid loses the uid: its sign covers it. *)
Lemma identity_negative_pid : u32 (Z.shiftr (identity_token (-1) 1000) 32) = 2 ^ 32 - 1.
Proof. reflexivity. Qed.

End Cpp.

(** ** Examples *)

Definition sample_env : cpp_env :=
  CppEnv _ 77 1000 (fun _ => 0) (fun _ _ => false) (fun _ _ => true) (fun _ _ => true) (fun b => b + 1) 0
    linux_errors true.

Definition sample_thread : ipc_thread := IpcThread parcel_new parcel_new 31 1031 2 1 0 [] [].

(** One proxy, at 500, for handle 5, with one recipient. *)
Definition sample_proxy : bp_binder :=
  BpBinderObj 5 true false (Some [Obituary (Some 900) 1 0]) [] [].

Definition sample_process : process_state :=
  ProcessSt 3 4096 false None None []
    (repeat empty_entry 5 ++ [HandleEntry (Some 500) (Some 501)]) false 1.

Definition sample_world : world :=
  World 1 {[1 := sample_thread]} true false false (Some sample_process) {[500 := sample_proxy]} 0
    [IoctlAnswer 0 0 16 []] [600] [].

Definition sample_system : system := System 3 None.

Lemma sample_ready : driver_ready sample_env sample_world sample_process (IoctlAnswer 0 0 16 []) [].
Proof. by split. Qed.

(** The only recipient unlinks: the driver is told to stop watching handle 5.  Or
    it stays, and is told. *)
Lemma death_recipients_correct_witness :
  let died r _ := log (EvThreadName r) in
  (exists p' w', unlinkToDeath sample_env sample_system 0 500 (Some 900) 0 0 sample_world =
       Value (NO_ERROR, Some (Some 900)) w' /\
     watchers p' = Some [] /\
     proxy_after sample_world 500 p' [EvIoctl 3 (IoWriteRead (death_command BC_CLEAR_DEATH_NOTIFICATION 5 500) 0)] w') /\
  exists w'' told, sendObituary sample_env sample_system 0 died 500 sample_world = Value tt w'' /\
    filter (tells_death 500) (w_log w'') = (fun r => EvBinderDied r 500) <$> told /\ told = [900].
Proof.
  intros died. assert (proxy_ok sample_proxy) as Hok by (split; [discriminate|done]).
  destruct (death_recipients_correct sample_env sample_system 0 died sample_world sample_thread sample_process
    (IoctlAnswer 0 0 16 []) [] 500 sample_proxy eq_refl eq_refl sample_ready eq_refl Hok)
    as (_ & Hun & _ & p' & w' & _ & _ & _ & (_ & _ & El) & Htell). split.
  - destruct (Hun (Some 900) 0 0 [] (Obituary (Some 900) 1 0) [] eq_refl (Forall_nil_2 _) eq_refl)
      as (p1 & w1 & E1 & E2 & _ & E3).
    exists p1, w1. split; [exact E1|]. split; [exact E2|]. exact E3.
  - destruct (Htell (fun _ => True)) as (w'' & evs & told & E1 & E2 & E3 & [Ho Hh _]); [|exact I|].
    + intros r w _. exists (add_log (EvThreadName r) (add_log (EvBinderDied r 500) w)), [EvThreadName r].
      split; [reflexivity|]. split; [exact I|]. split; [simpl; by rewrite <- app_assoc|].
      apply Forall_singleton. exact (fun H => H).
    + exists w'', told. split; [exact E1|]. split.
      * rewrite E2, filter_app, E3, El. reflexivity.
      * specialize (Hh {[900]} (fun _ _ _ _ => eq_refl)).
        inversion Ho as [|? ? ? Hn|? ? ? Hn]; inversion Hn; subst; [reflexivity|discriminate Hh].
Defined.

Lemma sample_table_ok : table_ok sample_env sample_world (mHandleToObject sample_process).
Proof.
  intros i e b Hi Hb. do 5 (destruct i as [|i]; [by injection Hi as <-|]).
  destruct i as [|i]; [|done]. injection Hi as <-. injection Hb as <-. split; [done|].
  by exists sample_proxy.
Qed.

(** The old proxy of handle 5 is dying, so a new one takes its place; handle 9 is
    past the end of the table; and without a context manager handle 0 has no
    proxy. *)
Definition sample_get (h : Z) : M (option Z) :=
  getStrongProxyForHandle sample_env (fun _ _ p _ => ret (0, p)) (fun _ _ => ret tt) (fun _ => 0) 64
    (Codes 1 2 3) sample_system 0 4 (fun _ => true) h.

(** The driver's answer to the ping. *)
Definition sample_no_manager : world :=
  set_answers [IoctlAnswer 0 0 68 (le_encode 4 BR_NOOP ++ le_encode 4 BR_DEAD_REPLY)]
    (set_threads {[1 := set_mIn (setDataCapacity 256 parcel_new) sample_thread]} sample_world).

Lemma sample_table_ok_there w : w_proxies w = w_proxies sample_world ->
  table_ok sample_env w (mHandleToObject sample_process).
Proof. intros E i e b Hi Hb. rewrite E. by apply (sample_table_ok i e b). Qed.

Definition sample_ping : outcome world (Z * option parcel * option Z) :=
  IPCThreadState_transact sample_env (fun _ _ p _ => ret (0, p)) (fun _ _ => ret tt) sample_system 0
    (fun _ => 0) 64 4 0 1 parcel_new None 0
    (set_process (Some (set_mHandleToObject (grown (mHandleToObject sample_process) 0) sample_process))
       sample_no_manager).

Lemma sample_ping_dead : exists reply owned w2,
  sample_ping = Value (DEAD_OBJECT linux_errors, reply, owned) w2.
Proof.
  assert (match sample_ping with Value (s, _, _) _ => s | _ => 0 end = DEAD_OBJECT linux_errors) as H
    by by vm_compute.
  destruct sample_ping as [[[s reply] owned] w2| | |]; [|done..]. rewrite <- H. by exists reply, owned, w2.
Qed.

Lemma strong_proxy_correct_witness :
  (exists w', sample_get 5 sample_world = Value (Some 600) w') /\
  (exists w', sample_get 9 sample_world = Value (Some 600) w' /\
     proxy_made sample_env 9 600 sample_world sample_thread (mHandleToObject sample_process) w') /\
  (exists w', sample_get 0 sample_no_manager = Value None w').
Proof.
  pose proof (fun h => strong_proxy_correct sample_env sample_system 0 (fun _ _ p _ => ret (0, p))
    (fun _ _ => ret tt) (fun _ => 0) 64 (Codes 1 2 3) 4 (fun _ => true) sample_world sample_thread
    sample_process h eq_refl eq_refl eq_refl eq_refl sample_table_ok) as Hs.
  split; [|split].
  - destruct (Hs 5 ltac:(lia) ltac:(simpl; lia) (fun _ _ => eq_refl)) as [_ H].
    destruct (proj1 (H (fun _ _ => eq_refl)) ltac:(lia) 600 [] eq_refl eq_refl) as (w' & Eg & _). by exists w'.
  - destruct (Hs 9 ltac:(lia) ltac:(simpl; lia) (fun _ _ => eq_refl)) as [_ H].
    exact (proj1 (H (fun _ _ => eq_refl)) ltac:(lia) 600 [] eq_refl eq_refl).
  - destruct (strong_proxy_correct sample_env sample_system 0 (fun _ _ p _ => ret (0, p))
      (fun _ _ => ret tt) (fun _ => 0) 64 (Codes 1 2 3) 4 (fun _ => true) sample_no_manager
      (set_mIn (setDataCapacity 256 parcel_new) sample_thread) sample_process 0 eq_refl eq_refl eq_refl eq_refl
      (sample_table_ok_there sample_no_manager eq_refl) ltac:(lia) ltac:(simpl; lia)
      (fun _ _ => eq_refl)) as [_ H].
    destruct (H (fun _ _ => eq_refl)) as [_ H0].
    destruct sample_ping_dead as (reply & owned & w2 & Ep).
    exists w2. exact (proj1 (H0 eq_refl _ _ _ _ Ep) eq_refl).
Defined.
