(* ===== verification/IpcThms.v ===== *)
(** * IpcThms: the thread a command runs on

    What the methods of native/IPCThreadState.cpp keep when they return: the
    thread still has its state, whatever commands of the driver and whatever user
    code ran in between.  Then: serving a transaction, with the reply sent the way
    [sendReply] sends it, gives the thread its caller back. *)

From S2P Require Import Prelude Uapi Parcel CppWorld ProcessState IpcCore BpBinder IpcThread Proxy CppThms.

Section Ipc.
Context `{PL : ParcelLib} `{U : BinderUapi} (E : cpp_env).

(** ** What a method keeps *)

Definition here (w : world) : Prop := exists t, has_thread w t.

(** When it returns it does so on the same thread, which still has a state. *)
Definition keeps {A} (m : M A) : Prop := forall w a w',
  here w -> m w = Value a w' -> w_tid w' = w_tid w /\ here w'.

Lemma bind_inv {A B} (m : M A) (f : A -> M B) w b w' : bind m f w = Value b w' ->
  exists a w1, m w = Value a w1 /\ f a w1 = Value b w'.
Proof. unfold bind. destruct (m w) as [a w1| | |]; [|done..]. by exists a, w1. Qed.

Lemma keeps_bind {A B} (m : M A) (f : A -> M B) : keeps m -> (forall a, keeps (f a)) -> keeps (bind m f).
Proof.
  intros Hm Hf w b w' Hw (a & w1 & E1 & E2)%bind_inv. destruct (Hm _ _ _ Hw E1) as [T1 H1].
  destruct (Hf a _ _ _ H1 E2) as [T2 H2]. by rewrite T2, T1.
Qed.

Lemma keeps_ret {A} (a : A) : keeps (ret a).
Proof. by intros w b w' Hw [= _ <-]. Qed.
Lemma keeps_gets {A} (f : world -> A) : keeps (gets f).
Proof. by intros w b w' Hw [= _ <-]. Qed.
Lemma keeps_crash {A} n : keeps (crash n : M A).
Proof. by intros w b w' Hw. Qed.
Lemma keeps_fuel {A} : keeps (out_of_fuel : M A).
Proof. by intros w b w' Hw. Qed.
Lemma keeps_modify f : (forall w, w_tid (f w) = w_tid w /\ w_threads (f w) = w_threads w) -> keeps (modify f).
Proof.
  intros Hf w b w' [t Ht] [= _ <-]. destruct (Hf w) as [H1 H2]. split; [done|]. exists t.
  unfold has_thread. by rewrite H1, H2.
Qed.
Lemma keeps_log e : keeps (log e).
Proof. by apply keeps_modify. Qed.
Lemma keeps_put t : keeps (put_this t).
Proof. intros w b w' Hw [= _ <-]. split; [done|]. exists t. apply lookup_insert_eq. Qed.
Lemma keeps_this : keeps this.
Proof. intros w b w' Hw H. unfold this in H. destruct (_ !! _); [by injection H as _ <-|done]. Qed.
Lemma keeps_process : keeps process.
Proof. intros w b w' Hw H. unfold process in H. destruct (w_process w); [by injection H as _ <-|done]. Qed.
Lemma keeps_proxy b : keeps (proxy b).
Proof. intros w x w' Hw H. unfold proxy in H. destruct (_ !! _); [by injection H as _ <-|done]. Qed.
Lemma keeps_ioctl fd c : keeps (ioctl fd c).
Proof.
  intros w x w' [t Ht] H. unfold ioctl in H. destruct (w_answers _); [done|]. injection H as _ <-.
  split; [done|]. by exists t.
Qed.

Create HintDb keeps.
#[local] Hint Resolve keeps_ret keeps_gets keeps_crash keeps_fuel keeps_log keeps_put keeps_this
  keeps_process keeps_proxy keeps_ioctl : keeps.

(** Go through binds and case distinctions; the calls are left to the hints. *)
Ltac keeps_step :=
  match goal with
  | |- keeps (bind _ _) => apply keeps_bind
  | |- keeps (modify _) => apply keeps_modify; intros; split; reflexivity
  | |- keeps (match ?x with _ => _ end) => destruct x
  | |- keeps (let '_ := ?x in _) => destruct x
  | |- forall _, _ => intros ?
  | |- _ => progress (cbn beta iota zeta; unfold when)
  end.
Ltac keeps := repeat first [solve [eauto with keeps] | keeps_step].

Lemma keeps_upd_this f : keeps (upd_this f).
Proof. unfold upd_this. keeps. Qed.
Lemma keeps_upd_process f : keeps (upd_process f).
Proof. unfold upd_process. keeps. Qed.
Lemma keeps_upd_proxy b f : keeps (upd_proxy b f).
Proof. unfold upd_proxy. keeps. Qed.
#[local] Hint Resolve keeps_upd_this keeps_upd_process keeps_upd_proxy : keeps.

Lemma keeps_self Sys garbage : keeps (IPCThreadState_self E Sys garbage).
Proof.
  unfold IPCThreadState_self, IPCThreadState_new, ProcessState_self, ProcessState_new, open_driver, clearCaller.
  keeps.
Qed.

Lemma keeps_ioctl_loop fuel : forall fd c, keeps (ioctl_loop fuel fd c).
Proof. induction fuel as [|fuel IH]; intros fd c; cbn [ioctl_loop]; keeps. Qed.
#[local] Hint Resolve keeps_self keeps_ioctl_loop : keeps.

Lemma keeps_talk r : keeps (talkWithDriver E r).
Proof. unfold talkWithDriver, ioctl_retry. keeps. Qed.
#[local] Hint Resolve keeps_talk : keeps.

Lemma keeps_flush : keeps (flushCommands E).
Proof. unfold flushCommands. keeps. Qed.
Lemma keeps_out_int x : keeps (out_int x).
Proof. unfold out_int. keeps. Qed.
Lemma keeps_out_pointer x : keeps (out_pointer x).
Proof. unfold out_pointer. keeps. Qed.
Lemma keeps_in_int : keeps in_int.
Proof. unfold in_int. keeps. Qed.
Lemma keeps_in_pointer : keeps in_pointer.
Proof. unfold in_pointer. keeps. Qed.
Lemma keeps_in_read n : keeps (in_read n).
Proof. unfold in_read. keeps. Qed.
#[local] Hint Resolve keeps_flush keeps_out_int keeps_out_pointer keeps_in_int keeps_in_pointer
  keeps_in_read : keeps.

Lemma keeps_free p d : keeps (freeBuffer p d).
Proof. unfold freeBuffer. keeps. Qed.
Lemma keeps_write cmd flags h code data st : keeps (writeTransactionData cmd flags h code data st).
Proof. unfold writeTransactionData. keeps. Qed.
Lemma keeps_spawn m : keeps (spawnPooledThread m).
Proof. unfold spawnPooledThread, makeBinderThreadName. keeps. Qed.
#[local] Hint Resolve keeps_free keeps_write keeps_spawn : keeps.

(** ** Commands *)

(** User code keeps its thread. *)
Context (onTransact : Z -> Z -> parcel -> Z -> M (Z * parcel)) (binderDied : Z -> Z -> M unit).
Context (Sys : system) (garbage : Z) (k_status : Z -> Z) (statusBuffer : Z).
Context (user_transact : forall obj code data flags, keeps (onTransact obj code data flags)).
Context (user_died : forall r b, keeps (binderDied r b)).
#[local] Hint Resolve user_transact user_died : keeps.

Lemma keeps_report b l : keeps (report_deaths E binderDied b l).
Proof. induction l as [|o l IH]; cbn [report_deaths]; unfold reportOneDeath; keeps. Qed.
#[local] Hint Resolve keeps_report : keeps.

Lemma keeps_obituary b : keeps (sendObituary E Sys garbage binderDied b).
Proof. unfold sendObituary, with_ipc, clearDeathNotification. keeps. Qed.
#[local] Hint Resolve keeps_obituary : keeps.

Lemma keeps_ref cmd : keeps (execute_ref E cmd).
Proof. unfold execute_ref. keeps. Qed.
Lemma keeps_run tr data : keeps (run_transaction onTransact tr data).
Proof. unfold run_transaction. keeps. Qed.
#[local] Hint Resolve keeps_ref keeps_run : keeps.

Lemma keeps_transaction reply tr : (forall p f, keeps (reply p f)) ->
  keeps (execute_transaction E onTransact reply tr).
Proof. intros Hr. unfold execute_transaction, inherit_priority. keeps. Qed.

Lemma keeps_command reply cmd : (forall p f, keeps (reply p f)) ->
  keeps (executeCommand E onTransact binderDied Sys garbage reply cmd).
Proof. intros Hr. pose proof (fun tr => keeps_transaction reply tr Hr). unfold executeCommand. keeps. Qed.

Lemma keeps_receive r : keeps (receive_reply k_status r).
Proof. unfold receive_reply. keeps. Qed.
Lemma keeps_finish err r : keeps (finish_wait err r).
Proof. unfold finish_wait. keeps. Qed.
#[local] Hint Resolve keeps_receive keeps_finish : keeps.

Notation wait := (waitForResponse E onTransact binderDied Sys garbage k_status statusBuffer).
Notation send := (sendReply E onTransact binderDied Sys garbage k_status statusBuffer).

Lemma keeps_wait fuel : forall r, keeps (wait fuel r).
Proof.
  induction fuel as [|fuel IH]; intros r; cbn [waitForResponse]; [keeps|].
  match goal with |- context [executeCommand E onTransact binderDied Sys garbage ?f] =>
    assert (forall p fl, keeps (f p fl)) as Hf by keeps;
    pose proof (fun cmd => keeps_command f cmd Hf) as Hc
  end.
  keeps.
Qed.

Lemma keeps_send fuel reply flags : keeps (send fuel reply flags).
Proof. pose proof keeps_wait. unfold sendReply. keeps. Qed.

(** ** The driver takes a reply *)

Definition all_returns : list Z :=
  [BR_ERROR; BR_OK; BR_TRANSACTION; BR_REPLY; BR_ACQUIRE_RESULT; BR_DEAD_REPLY;
   BR_TRANSACTION_COMPLETE; BR_INCREFS; BR_ACQUIRE; BR_RELEASE; BR_DECREFS;
   BR_ATTEMPT_ACQUIRE; BR_NOOP; BR_SPAWN_LOOPER; BR_FINISHED; BR_DEAD_BINDER;
   BR_CLEAR_DEATH_NOTIFICATION_DONE; BR_FAILED_REPLY].

Lemma is_cmd_at i j a b : all_returns !! i = Some a -> all_returns !! j = Some b ->
  is_cmd (i32 a) b = bool_decide (i = j).
Proof.
  intros Hi Hj. unfold is_cmd. pose proof returns_range as Hr. fold all_returns in Hr.
  pose proof (Forall_lookup_1 _ _ _ _ Hr Hi) as Ra. pose proof (Forall_lookup_1 _ _ _ _ Hr Hj) as Rb.
  destruct (decide (i = j)) as [->|Hne].
  - rewrite bool_decide_eq_true_2 by done. rewrite Hi in Hj. injection Hj as ->. apply Z.eqb_refl.
  - rewrite bool_decide_eq_false_2 by done. apply Z.eqb_neq. intros He. apply Hne.
    eapply (NoDup_lookup all_returns); [exact returns_distinct|exact Hi|]. rewrite Hj. f_equal.
    unfold i32 in He. simpl in Ra, Rb.
    rewrite <- (Z.mod_small a (2 ^ 32)), <- (Z.mod_small b (2 ^ 32)) by lia.
    replace a with (a + 2 ^ 31 - 2 ^ 31) by lia. replace b with (b + 2 ^ 31 - 2 ^ 31) by lia.
    rewrite <- (Zminus_mod_idemp_l (a + _)), <- (Zminus_mod_idemp_l (b + _)). f_equal. lia.
Qed.

Ltac code_at c :=
  match c with
  | @BR_ERROR _ => constr:(0%nat) | @BR_OK _ => constr:(1%nat)
  | @BR_TRANSACTION _ => constr:(2%nat) | @BR_REPLY _ => constr:(3%nat)
  | @BR_ACQUIRE_RESULT _ => constr:(4%nat) | @BR_DEAD_REPLY _ => constr:(5%nat)
  | @BR_TRANSACTION_COMPLETE _ => constr:(6%nat) | @BR_INCREFS _ => constr:(7%nat)
  | @BR_ACQUIRE _ => constr:(8%nat) | @BR_RELEASE _ => constr:(9%nat)
  | @BR_DECREFS _ => constr:(10%nat) | @BR_ATTEMPT_ACQUIRE _ => constr:(11%nat)
  | @BR_NOOP _ => constr:(12%nat) | @BR_SPAWN_LOOPER _ => constr:(13%nat)
  | @BR_FINISHED _ => constr:(14%nat) | @BR_DEAD_BINDER _ => constr:(15%nat)
  | @BR_CLEAR_DEATH_NOTIFICATION_DONE _ => constr:(16%nat) | @BR_FAILED_REPLY _ => constr:(17%nat)
  end.

(** Decide which command it is. *)
Ltac which_cmd :=
  repeat match goal with
  | |- context [is_cmd (i32 ?a) ?b] =>
      let i := code_at a in let j := code_at b in
      let v := eval vm_compute in (bool_decide (i = j)) in
      replace (is_cmd (i32 a) b) with v by (by rewrite (is_cmd_at i j a b eq_refl eq_refl))
  end; cbn [orb andb]; cbv iota.

Lemma execute_noop reply w :
  executeCommand E onTransact binderDied Sys garbage reply (i32 BR_NOOP) w = Value NO_ERROR w.
Proof. unfold executeCommand. which_cmd. reflexivity. Qed.

(** The thread has read everything it was given, and the driver will answer that
    it took the reply. *)
Record driver_takes (w : world) (t : ipc_thread) (P : process_state) (a : ioctl_answer)
    (rest : list ioctl_answer) : Prop := {
  dt_thread : has_thread w t;
  dt_process : w_process w = Some P;
  dt_fd : 0 < mDriverFD P;
  dt_android : k_android E = true;
  dt_read : dataSize (mIn t) <= dataPosition (mIn t);
  dt_room : 8 <= dataCapacity (mIn t);
  dt_error : errorCheck (mIn t) = NO_ERROR;
  dt_answers : w_answers w = a :: rest;
  dt_ok : 0 <= io_ret a;
  dt_bytes : io_read a = le_encode 4 BR_NOOP ++ le_encode 4 BR_TRANSACTION_COMPLETE
}.

Definition takes_reply (w : world) : Prop := exists t P a rest, driver_takes w t P a rest.

Lemma talk_run w t P a rest : driver_takes w t P a rest ->
  exists w', talkWithDriver E true w = Value NO_ERROR w' /\ has_thread w' (exchanged a t) /\
    w_process w' = Some P.
Proof.
  intros [Ht HP Hfd Han Hrd Hroom _ Ha Hok _]. unfold talkWithDriver, process. unfold bind at 1. rewrite HP.
  rewrite (proj2 (Z.leb_gt _ _)) by lia. rewrite (bind_value _ _ _ _ _ (this_run w t Ht)).
  rewrite (proj2 (Z.leb_le _ _) Hrd). cbn [negb orb andb].
  rewrite (proj2 (Z.eqb_neq (dataCapacity (mIn t)) 0)), andb_false_r, Han by lia. cbn [negb].
  unfold ioctl_retry, bind, gets, id. rewrite Ha. cbn [length ioctl_loop]. unfold bind, ioctl.
  cbn [w_answers add_log]. rewrite Ha. unfold process. cbn [w_process set_answers add_log]. rewrite HP.
  rewrite (proj2 (Z.leb_gt (mDriverFD P) 0)), (proj2 (Z.leb_le 0 (io_ret a))) by lia.
  change (NO_ERROR =? - EINTR) with false. cbn [ret].
  change (NO_ERROR <=? NO_ERROR) with true. cbn match. unfold ret.
  rewrite (upd_this_run _ _ t) by exact Ht. eexists. split; [reflexivity|]. by split; [apply has_with_this|].
Qed.

(** What the thread has to read then: the two commands. *)
Definition has_commands (t : ipc_thread) (pos : Z) : Prop :=
  p_bytes (mIn t) = le_encode 4 BR_NOOP ++ le_encode 4 BR_TRANSACTION_COMPLETE /\
  dataPosition (mIn t) = pos /\ errorCheck (mIn t) = NO_ERROR.

Lemma exchanged_commands w t P a rest : driver_takes w t P a rest -> has_commands (exchanged a t) 0.
Proof.
  intros [_ _ _ _ _ Hroom Herr _ _ Hb]. unfold has_commands, exchanged. cbv zeta.
  assert (Z.of_nat (length (io_read a)) = 8) as Hl by (by rewrite Hb, length_app, !length_le_encode).
  rewrite (proj2 (Z.ltb_lt _ _)) by lia. set (t1 := if 0 <? _ then _ else t).
  assert (mIn t1 = mIn t) as -> by (unfold t1; by destruct (_ <? _)). cbn [mIn set_mIn].
  rewrite fill_bytes, fill_pos, fill_error by lia. by rewrite Hb.
Qed.

Lemma in_int_run w t pos code rest : has_thread w t -> 0 <= pos ->
  dataPosition (mIn t) = pos -> pos + 4 <= dataSize (mIn t) ->
  drop (Z.to_nat pos) (p_bytes (mIn t)) = le_encode 4 code ++ rest -> 0 <= code < 2 ^ 32 ->
  in_int w = Value (i32 code) (with_this (set_mIn (readInt32 (mIn t)).2 t) w).
Proof.
  intros Ht Hp Epos Hs Hd Hc. unfold in_int. rewrite (bind_value _ _ _ _ _ (this_run w t Ht)).
  pose proof (readInt32_value (mIn t)) as Hv. unfold dataSize in Hs. rewrite Epos, Hd in Hv.
  rewrite take_app_length' in Hv by (by rewrite length_le_encode). rewrite le_decode_encode in Hv by done.
  specialize (Hv Hp Hs). destruct (readInt32 (mIn t)) as [x p]. simpl in *. by subst x.
Qed.

(** With the commands before it the method returns, in two turns. *)
Lemma wait_completes fuel w t P a rest : driver_takes w t P a rest ->
  exists x w', wait (S (S fuel)) (Response None None None) w = Value x w'.
Proof.
  intros Hd. destruct (talk_run w t P a rest Hd) as (w1 & E1 & Ht1 & HP1).
  pose proof (exchanged_commands w t P a rest Hd) as (B1 & Q1 & R1). set (t1 := exchanged a t) in *.
  pose proof (dt_fd _ _ _ _ _ Hd) as Hfd.
  pose proof returns_range as Hrange. fold all_returns in Hrange. rewrite Forall_forall in Hrange.
  assert (dataSize (mIn t1) = 8) as S1 by (unfold dataSize; by rewrite B1, length_app, !length_le_encode).
  (* first turn *)
  remember (S fuel) as fuel1 eqn:Ef. cbn [waitForResponse].
  rewrite (bind_value _ _ _ _ _ E1). change (NO_ERROR <? NO_ERROR) with false. cbv iota.
  rewrite (bind_value _ _ _ _ _ (this_run w1 t1 Ht1)), R1. change (NO_ERROR <? NO_ERROR) with false. cbv iota.
  unfold dataAvail at 1. rewrite S1, Q1. change (8 - 0 =? 0) with false. cbv iota.
  assert (0 <= BR_NOOP < 2 ^ 32) as Hn by (apply Hrange; by apply (list_elem_of_lookup_2 _ 12)).
  rewrite (bind_value _ _ _ _ _ (in_int_run w1 t1 0 BR_NOOP _ Ht1 ltac:(lia) Q1 ltac:(lia) B1 Hn)).
  set (t2 := set_mIn (readInt32 (mIn t1)).2 t1). set (w2 := with_this t2 w1). which_cmd.
  rewrite (bind_value _ _ _ _ _ (execute_noop _ w2)). cbn [negb Z.eqb NO_ERROR].
  (* second turn *)
  subst fuel1. cbn [waitForResponse].
  assert (has_thread w2 t2) as Ht2 by apply has_with_this.
  assert (p_bytes (mIn t2) = p_bytes (mIn t1)) as B2 by apply readInt32_bytes.
  assert (dataSize (mIn t2) = 8) as S2 by (unfold dataSize; by rewrite B2).
  assert (dataPosition (mIn t2) = 4) as Q2.
  { unfold t2. cbn [mIn set_mIn]. rewrite readInt32_pos by (unfold dataSize in S1; lia). lia. }
  assert (talkWithDriver E true w2 = Value NO_ERROR w2) as E2.
  { unfold talkWithDriver, process. unfold bind at 1. cbn [w_process w2 with_this set_threads].
    rewrite HP1, (proj2 (Z.leb_gt _ _)) by lia. rewrite (bind_value _ _ _ _ _ (this_run w2 t2 Ht2)).
    rewrite S2, Q2. reflexivity. }
  rewrite (bind_value _ _ _ _ _ E2). change (NO_ERROR <? NO_ERROR) with false. cbv iota.
  rewrite (bind_value _ _ _ _ _ (this_run w2 t2 Ht2)).
  assert (errorCheck (mIn t2) = NO_ERROR) as -> by (unfold t2; cbn [mIn set_mIn]; by rewrite readInt32_error).
  change (NO_ERROR <? NO_ERROR) with false. cbv iota.
  unfold dataAvail at 1. rewrite S2, Q2. change (8 - 4 =? 0) with false. cbv iota.
  assert (0 <= BR_TRANSACTION_COMPLETE < 2 ^ 32) as Hc by (apply Hrange; by apply (list_elem_of_lookup_2 _ 6)).
  rewrite (bind_value _ _ _ _ _ (in_int_run w2 t2 4 BR_TRANSACTION_COMPLETE [] Ht2 ltac:(lia) Q2 ltac:(lia)
    ltac:(by rewrite B2, B1, app_nil_r) Hc)).
  which_cmd. cbn [rs_reply rs_acquired]. unfold finish_wait. change (NO_ERROR =? NO_ERROR) with true.
  cbn [negb]. eexists _, _. reflexivity.
Qed.

Lemma send_completes fuel reply w : takes_reply w -> exists x w', send (S (S fuel)) reply 0 w = Value x w'.
Proof.
  intros (t & P & a & rest & Hd). unfold sendReply, writeTransactionData, transaction_for. cbv zeta.
  pose proof (dt_thread _ _ _ _ _ Hd) as Ht.
  match goal with |- context [match (if ?c then Some ?x else Some ?y) with _ => _ end] =>
    set (tr := if c then Some x else Some y); assert (exists d, tr = Some d) as [d ->]
      by (unfold tr; destruct c; by eexists) end.
  rewrite (bind_value _ _ w NO_ERROR
    (with_this (set_mOut (p_write (td_encode d) (writeInt32 BC_REPLY (mOut t))) t) w)).
  2:{ unfold out_int. rewrite (bind_value _ _ _ _ _ (upd_this_run (fun t => _) w t Ht)).
      rewrite (bind_value _ _ _ _ _ (upd_this_run (fun t => set_mOut (p_write (td_encode d) (mOut t)) t) _ _
        (has_with_this _ _))). by rewrite with_this_twice. }
  change (NO_ERROR <? NO_ERROR) with false. cbv iota.
  match goal with |- context [bind _ _ ?w1] => destruct (wait_completes fuel w1 
    (set_mOut (p_write (td_encode d) (writeInt32 BC_REPLY (mOut t))) t) P a rest) as ([err r] & w' & Ew) end.
  { destruct Hd. split; try done. apply has_with_this. }
  rewrite (bind_value _ _ _ _ _ Ew). eexists _, _. reflexivity.
Qed.

(** ** Serving a transaction *)

Lemma inherit_run w : exists w', inherit_priority E w = Value tt w' /\
  w_tid w' = w_tid w /\ w_threads w' = w_threads w /\ w_process w' = w_process w /\
  w_answers w' = w_answers w.
Proof.
  unfold inherit_priority, bind, gets, id, when.
  destruct (w_disable_bg w); destruct (_ <? _) || destruct (_ <=? _); by eexists.
Qed.

(** The end of [execute_transaction]: the caller is put back, the buffer freed. *)
Lemma restore_run w t f data : has_thread w t ->
  exists w', (upd_this f ;;; freeBuffer true data) w = Value tt w' /\ w_tid w' = w_tid w /\
    has_thread w' (set_mOut (writePointer data (writeInt32 BC_FREE_BUFFER (mOut (f t)))) (f t)).
Proof.
  intros Ht. rewrite (bind_value _ _ _ _ _ (upd_this_run f w t Ht)). unfold freeBuffer, when, out_int, out_pointer.
  set (w1 := add_log (EvCloseFds data) (with_this (f t) w)).
  rewrite (bind_value _ _ _ tt w1) by done.
  assert (has_thread w1 (f t)) as H1 by apply has_with_this.
  rewrite (bind_value _ _ _ _ _ (upd_this_run (fun t => set_mOut (writeInt32 BC_FREE_BUFFER (mOut t)) t) w1 (f t) H1)).
  eexists. split; [by apply (upd_this_run (fun t => _)), has_with_this|]. split; [done|].
  apply has_with_this.
Qed.

(** The thread while it serves a transaction. *)
Definition serving (tr : transaction_data) (t : ipc_thread) : ipc_thread :=
  set_mLastTransactionBinderFlags (td_flags tr)
    (set_caller (i32 (td_sender_pid tr)) (td_sender_euid tr) t).

(** The thread with the caller of [t] again. *)
Definition restored_to (t t' : ipc_thread) : ipc_thread :=
  set_mLastTransactionBinderFlags (mLastTransactionBinderFlags t)
    (set_mStrictModePolicy (mStrictModePolicy t) (set_caller (mCallingPid t) (mCallingUid t) t')).

(** The thread that was [t] in [w] has its caller back in [w'], and the last command
    queued frees the transaction's buffer. *)
Definition caller_restored (tr : transaction_data) (t : ipc_thread) (w w' : world) : Prop :=
  w_tid w' = w_tid w /\ exists t' out, has_thread w' t' /\
    mCallingPid t' = mCallingPid t /\ mCallingUid t' = mCallingUid t /\
    mStrictModePolicy t' = mStrictModePolicy t /\
    mLastTransactionBinderFlags t' = mLastTransactionBinderFlags t /\
    mOut t' = writePointer (td_buffer tr) (writeInt32 BC_FREE_BUFFER out).

(** The start: the object's code runs in [w1], and then [reply_part]. *)
Lemma execute_start reply tr w t : has_thread w t ->
  exists w1, w_tid w1 = w_tid w /\ has_thread w1 (serving tr t) /\ w_process w1 = w_process w /\
    w_answers w1 = w_answers w /\
    execute_transaction E onTransact reply tr w =
      bind (run_transaction onTransact tr
              (ipcSetDataReference (td_buffer tr) (td_data_size tr) (td_offsets tr)
                 (td_offsets_size tr / 8) parcel_new))
        (fun r =>
          (if Z.land (td_flags tr) TF_ONE_WAY =? 0 then
             do! _ := reply (if r.1 <? NO_ERROR then setError r.1 r.2 else r.2) 0 in ret tt
           else ret tt) ;;;
          upd_this (restored_to t) ;;;
          freeBuffer true (td_buffer tr)) w1.
Proof.
  intros Ht. unfold execute_transaction. rewrite (bind_value _ _ _ _ _ (this_run w t Ht)).
  erewrite bind_value by (by apply (upd_this_run (fun t => _) w t)). fold (serving tr t).
  destruct (inherit_run (with_this (serving tr t) w)) as (w1 & E1 & T1 & H1 & P1 & A1).
  rewrite (bind_value _ _ _ _ _ E1). exists w1. split; [done|].
  split; [unfold has_thread; rewrite T1, H1; apply has_with_this|]. split; [done|]. split; [done|].
  unfold bind at 1. symmetry. unfold bind at 1. destruct (run_transaction _ _ _ w1) as [[error r] w2| | |]; done.
Qed.

Lemma takes_reply_log e w : takes_reply w -> takes_reply (add_log e w).
Proof. intros (t & P & a & rest & []). exists t, P, a, rest. by split. Qed.

(** C28: serving a transaction, the reply included, gives the thread its caller
    back.  However nested the commands it executes meanwhile, when
    [execute_transaction] returns the thread has the pid, the uid, the strict mode
    policy and the flags it had, and the last command queued frees the buffer.  And
    it does return when the object's code does, running as the sender of the
    transaction, and, for a call that is not one-way, the driver takes the
    reply. *)
Theorem served_transaction_restores_caller fuel tr w t :
  has_thread w t ->
  let execute := execute_transaction E onTransact (send fuel) tr in
  (forall w', execute w = Value tt w' -> caller_restored tr t w w') /\
  ((2 <= fuel)%nat ->
   (forall obj data w1, w_tid w1 = w_tid w -> has_thread w1 (serving tr t) ->
      w_process w1 = w_process w -> w_answers w1 = w_answers w ->
      exists x w2, onTransact obj (td_code tr) data (td_flags tr) w1 = Value x w2 /\
        (Z.land (td_flags tr) TF_ONE_WAY = 0 -> takes_reply w2)) ->
   exists w', execute w = Value tt w').
Proof.
  intros Ht execute. unfold execute.
  destruct (execute_start (send fuel) tr w t Ht) as (w1 & T1 & Ht1 & P1 & A1 & ->). split.
  - intros w' (r & w2 & E2 & E3)%bind_inv.
    destruct (keeps_run _ _ _ _ _ (ex_intro _ _ Ht1) E2) as [T2 H2].
    apply bind_inv in E3 as (u & w3 & E3 & E4).
    assert (keeps (if Z.land (td_flags tr) TF_ONE_WAY =? 0 then
      do! _ := send fuel (if r.1 <? NO_ERROR then setError r.1 r.2 else r.2) 0 in ret tt else ret tt)) as Hk.
    { pose proof (keeps_send fuel). destruct (_ =? 0); keeps. }
    destruct (Hk _ _ _ H2 E3) as [T3 [t3 H3]].
    destruct (restore_run w3 t3 (restored_to t) (td_buffer tr) H3) as (w4 & E5 & T4 & H4). rewrite E5 in E4.
    injection E4 as <-. split; [by rewrite T4, T3, T2, T1|]. by eexists _, (mOut t3).
  - intros Hf Hu.
    assert (exists r w2, run_transaction onTransact tr
      (ipcSetDataReference (td_buffer tr) (td_data_size tr) (td_offsets tr)
         (td_offsets_size tr / 8) parcel_new) w1 = Value r w2 /\
      (Z.land (td_flags tr) TF_ONE_WAY = 0 -> takes_reply w2)) as (r & w2 & E2 & Hr).
    { unfold run_transaction. destruct (negb _).
      - edestruct (Hu (td_cookie tr)) as (x & w2 & Ex & Hx);
          [| | | |erewrite bind_value by reflexivity; rewrite (bind_value _ _ _ _ _ Ex)]; [done..|].
        eexists _, _. split; [reflexivity|]. intros H. by apply takes_reply_log, Hx.
      - by apply Hu. }
    rewrite (bind_value _ _ _ _ _ E2).
    destruct (keeps_run _ _ _ _ _ (ex_intro _ _ Ht1) E2) as [T2 H2].
    assert (exists w3, (if Z.land (td_flags tr) TF_ONE_WAY =? 0 then
      do! _ := send fuel (if r.1 <? NO_ERROR then setError r.1 r.2 else r.2) 0 in ret tt else ret tt) w2 =
      Value tt w3 /\ here w3) as (w3 & E3 & [t3 H3]).
    { destruct (Z.eqb_spec (Z.land (td_flags tr) TF_ONE_WAY) 0) as [Ho|]; [|by exists w2].
      destruct fuel as [|[|fuel]]; [lia..|].
      destruct (send_completes fuel (if r.1 <? NO_ERROR then setError r.1 r.2 else r.2) w2 (Hr Ho))
        as (x & w3 & E3). exists w3. rewrite (bind_value _ _ _ _ _ E3). split; [done|].
      by apply (keeps_send _ _ _ _ _ _ H2 E3). }
    rewrite (bind_value _ _ _ _ _ E3).
    destruct (restore_run w3 t3 (restored_to t) (td_buffer tr) H3) as (w4 & E5 & _). by exists w4.
Qed.

End Ipc.

(** ** Example *)

(** User code that changes the identity and the policy of its thread. *)
Definition sample_service (_ _ : Z) (data : parcel) (_ : Z) : M (Z * parcel) :=
  (do! _ := clearCallingIdentity sample_env in ret tt) ;;; setStrictModePolicy 99 ;;; ret (0, data).

(** The thread has read its transaction; the driver takes the reply. *)
Definition sample_serving : world :=
  set_answers [IoctlAnswer 0 0 68 (le_encode 4 BR_NOOP ++ le_encode 4 BR_TRANSACTION_COMPLETE)]
    (set_threads {[1 := set_mIn (setDataCapacity 256 parcel_new) sample_thread]} sample_world).

Lemma sample_service_run w t code data flags obj : has_thread w t ->
  sample_service obj code data flags w =
    Value (0, data) (with_this (set_mStrictModePolicy 99 (set_caller 77 1000 t)) w).
Proof.
  intros Ht. unfold sample_service, clearCallingIdentity, setStrictModePolicy, clearCaller.
  erewrite bind_value.
  2:{ erewrite bind_value; [reflexivity|]. rewrite (bind_value _ _ _ _ _ (this_run w t Ht)).
      rewrite (bind_value _ _ _ _ _ (upd_this_run _ w t Ht)). reflexivity. }
  rewrite (bind_value _ _ _ _ _ (upd_this_run _ _ _ (has_with_this _ _))). by rewrite with_this_twice.
Qed.

Lemma served_transaction_restores_caller_witness :
  let tr := TransactionData 1 700 1 16 42 1042 8 0 4096 4104 in
  exists w' t', execute_transaction sample_env sample_service
      (sendReply sample_env sample_service (fun _ _ => ret tt) sample_system 0 (fun _ => 0) 4 64) tr
      sample_serving = Value tt w' /\
    has_thread w' t' /\ mCallingPid t' = 31 /\ mCallingUid t' = 1031 /\ mStrictModePolicy t' = 2.
Proof.
  intros tr. set (t := set_mIn (setDataCapacity 256 parcel_new) sample_thread).
  destruct (served_transaction_restores_caller sample_env sample_service (fun _ _ => ret tt)
    sample_system 0 (fun _ => 0) 4) with (fuel := 64%nat) (tr := tr) (w := sample_serving) (t := t)
    as [Hback Hret].
  - intros obj code data flags w a w' [t0 Ht0]. rewrite (sample_service_run w t0) by exact Ht0.
    intros [= _ <-]. split; [reflexivity|]. eexists. apply has_with_this.
  - intros r b w a w' Hw [= _ <-]. exact (conj eq_refl Hw).
  - reflexivity.
  - destruct Hret as (w' & E1); [lia| |].
    + intros obj data w1 _ Ht1 HP HA. rewrite (sample_service_run w1 _ _ _ _ _ Ht1).
      eexists _, _. split; [reflexivity|]. intros _.
      eexists _, sample_process, _, []. split; [apply has_with_this|exact HP|reflexivity|reflexivity| | |reflexivity|exact HA| |reflexivity].
      * vm_compute. discriminate.
      * vm_compute. discriminate.
      * simpl. lia.
    + destruct (Hback w' E1) as (_ & t' & out & E2 & E3 & E4 & E5 & _).
      exists w', t'. exact (conj E1 (conj E2 (conj E3 (conj E4 E5)))).
Defined.
