(* ===== verification/RefBase.v ===== *)
(** * RefBase: the reference counts of libutils

    [sp<T>] and [wp<T>] of <utils/RefBase.h> are not part of the repository.
    [RefBase] is the interface the native objects of the JNI layer use, with the
    laws of its documentation for objects that live as long as their strong
    references: a strong count per object, the last [decStrong] destroys, a weak
    pointer can be promoted as long as the object is there.  [counted] is an
    instance. *)

From S2P Require Import Prelude.

Class RefBase := {
  refs : Type;
  refs_none : refs;
  strong : refs -> Z -> Z;
  rb_incStrong : Z -> refs -> refs;
  (** Whether it was the last one. *)
  rb_decStrong : Z -> refs -> refs * bool;
  (** What [promote] calls. *)
  rb_attemptIncStrong : Z -> refs -> option refs;

  strong_none a : strong refs_none a = 0;
  strong_inc a r b : strong (rb_incStrong a r) b = strong r b + (if b =? a then 1 else 0);
  strong_dec a r b : 1 <= strong r a ->
    strong (rb_decStrong a r).1 b = strong r b - (if b =? a then 1 else 0);
  last_dec a r : 1 <= strong r a -> (rb_decStrong a r).2 = (strong r a =? 1);
  attempt_dead a r : strong r a <= 0 -> rb_attemptIncStrong a r = None;
  attempt_alive a r : 1 <= strong r a ->
    exists r', rb_attemptIncStrong a r = Some r' /\
      forall b, strong r' b = strong r b + (if b =? a then 1 else 0)
}.

Definition count_of (r : gmap Z Z) (a : Z) : Z := default 0 (r !! a).

Lemma count_of_insert (r : gmap Z Z) a x b :
  count_of (<[a := count_of r a + x]> r) b = count_of r b + (if b =? a then x else 0).
Proof.
  unfold count_of. destruct (Z.eqb_spec b a) as [->|N].
  - by rewrite lookup_insert_eq.
  - rewrite lookup_insert_ne by done. lia.
Qed.

#[global] Instance counted : RefBase.
Proof.
  refine {|
    refs := gmap Z Z; refs_none := ∅; strong := count_of;
    rb_incStrong := fun a r => <[a := count_of r a + 1]> r;
    rb_decStrong := fun a r => (<[a := count_of r a + -1]> r, count_of r a =? 1);
    rb_attemptIncStrong := fun a r =>
      if 0 <? count_of r a then Some (<[a := count_of r a + 1]> r) else None |}; simpl.
  - done.
  - intros. apply count_of_insert.
  - intros a r b _. rewrite count_of_insert. by destruct (b =? a).
  - done.
  - intros a r H. by rewrite (proj2 (Z.ltb_ge _ _)) by lia.
  - intros a r H. rewrite (proj2 (Z.ltb_lt _ _)) by lia. eexists. split; [done|].
    intros b. apply count_of_insert.
Defined.
