(* ===== verification/JniWorld.v ===== *)
(** * JniWorld: Java objects and native objects that point at each other

    The state jni/android_util_Binder.cpp works on: the Java heap as far as the
    code looks at it, the references of the Java Native Interface, the native
    objects of the layer with their reference counts, the pending exception, the
    file's counters, and below them the process of [CppWorld].  Using a deleted
    reference, a destroyed object, or an object as a class it is not, crashes.

    Java code, the garbage collector and the methods of [IBinder] that send
    transactions are parameters ([JavaSide]); the other methods of [IBinder] are
    an interface ([NativeBinder]), with [BpBinder] as an instance in
    [NativeProxy]. *)

From stdpp Require Export strings.
From S2P Require Import Prelude Parcel CppWorld RefBase.

(** ** Java values *)

Record throwable := Throwable {
  t_class : string;
  t_message : option string
}.

(** Java objects by what the code knows of their class.  [mObject], [mOrgue] and
    [mNativePtr] are native pointers in long fields. *)
Inductive jobj : Type :=
| JBinder (mObject : Z)
| JBinderProxy (mObject mOrgue : Z) (mSelf : option Z)
| JWeakReference (referent : option Z)
| JParcel (mNativePtr : Z)
| JObject (cls : Z).

(** The native objects of the layer.  [mBinder] and the [mList] of a recipient
    are weak pointers, the elements of a list strong ones; [mObject] of the
    others is a global reference, [mObjectWeak] a weak one, 0 is NULL. *)
Inductive native : Type :=
| JavaBBinder (mObject : Z)
| JavaBBinderHolder (mBinder : option Z)
| DeathRecipientList (mList : list Z)
| JavaDeathRecipient (mObject mObjectWeak mList : Z).

(** Calls of Java methods. *)
Inductive java_call : Type :=
| ExecTransact (obj code data reply flags : Z)
| SendDeathNotice (recipient : option Z)
| OnBinderStrictModePolicyChange (policy : Z)
| LogE (msg : string) (excep : throwable)
| ToString (excep : throwable).

(** ** The state *)

Section State.
Context `{PL : ParcelLib} `{RB : RefBase}.

Record jni_state := JniState {
  j_cpp : world;
  j_heap : gmap Z jobj;
  j_globals : gmap Z Z;
  j_weaks : gmap Z (option Z);
  j_pending : option throwable;
  j_native : gmap Z native;
  j_refs : refs;
  j_parcels : gmap Z parcel;
  j_next : Z;
  gNumRefsCreated : Z;
  gNumProxyRefs : Z;
  gNumLocalRefs : Z;
  gNumDeathRefs : Z
}.

Definition set_j_cpp (v : world) (s : jni_state) : jni_state :=
  JniState v (j_heap s) (j_globals s) (j_weaks s) (j_pending s) (j_native s) (j_refs s)
    (j_parcels s) (j_next s) (gNumRefsCreated s) (gNumProxyRefs s) (gNumLocalRefs s)
    (gNumDeathRefs s).
Definition set_j_heap (v : gmap Z jobj) (s : jni_state) : jni_state :=
  JniState (j_cpp s) v (j_globals s) (j_weaks s) (j_pending s) (j_native s) (j_refs s)
    (j_parcels s) (j_next s) (gNumRefsCreated s) (gNumProxyRefs s) (gNumLocalRefs s)
    (gNumDeathRefs s).
Definition set_j_globals (v : gmap Z Z) (s : jni_state) : jni_state :=
  JniState (j_cpp s) (j_heap s) v (j_weaks s) (j_pending s) (j_native s) (j_refs s)
    (j_parcels s) (j_next s) (gNumRefsCreated s) (gNumProxyRefs s) (gNumLocalRefs s)
    (gNumDeathRefs s).
Definition set_j_weaks (v : gmap Z (option Z)) (s : jni_state) : jni_state :=
  JniState (j_cpp s) (j_heap s) (j_globals s) v (j_pending s) (j_native s) (j_refs s)
    (j_parcels s) (j_next s) (gNumRefsCreated s) (gNumProxyRefs s) (gNumLocalRefs s)
    (gNumDeathRefs s).
Definition set_j_pending (v : option throwable) (s : jni_state) : jni_state :=
  JniState (j_cpp s) (j_heap s) (j_globals s) (j_weaks s) v (j_native s) (j_refs s)
    (j_parcels s) (j_next s) (gNumRefsCreated s) (gNumProxyRefs s) (gNumLocalRefs s)
    (gNumDeathRefs s).
Definition set_j_native (v : gmap Z native) (s : jni_state) : jni_state :=
  JniState (j_cpp s) (j_heap s) (j_globals s) (j_weaks s) (j_pending s) v (j_refs s)
    (j_parcels s) (j_next s) (gNumRefsCreated s) (gNumProxyRefs s) (gNumLocalRefs s)
    (gNumDeathRefs s).
Definition set_j_refs (v : refs) (s : jni_state) : jni_state :=
  JniState (j_cpp s) (j_heap s) (j_globals s) (j_weaks s) (j_pending s) (j_native s) v
    (j_parcels s) (j_next s) (gNumRefsCreated s) (gNumProxyRefs s) (gNumLocalRefs s)
    (gNumDeathRefs s).
Definition set_j_parcels (v : gmap Z parcel) (s : jni_state) : jni_state :=
  JniState (j_cpp s) (j_heap s) (j_globals s) (j_weaks s) (j_pending s) (j_native s) (j_refs s)
    v (j_next s) (gNumRefsCreated s) (gNumProxyRefs s) (gNumLocalRefs s) (gNumDeathRefs s).
Definition set_j_next (v : Z) (s : jni_state) : jni_state :=
  JniState (j_cpp s) (j_heap s) (j_globals s) (j_weaks s) (j_pending s) (j_native s) (j_refs s)
    (j_parcels s) v (gNumRefsCreated s) (gNumProxyRefs s) (gNumLocalRefs s) (gNumDeathRefs s).
Definition set_gNumRefsCreated (v : Z) (s : jni_state) : jni_state :=
  JniState (j_cpp s) (j_heap s) (j_globals s) (j_weaks s) (j_pending s) (j_native s) (j_refs s)
    (j_parcels s) (j_next s) v (gNumProxyRefs s) (gNumLocalRefs s) (gNumDeathRefs s).
Definition set_gNumProxyRefs (v : Z) (s : jni_state) : jni_state :=
  JniState (j_cpp s) (j_heap s) (j_globals s) (j_weaks s) (j_pending s) (j_native s) (j_refs s)
    (j_parcels s) (j_next s) (gNumRefsCreated s) v (gNumLocalRefs s) (gNumDeathRefs s).
Definition set_gNumLocalRefs (v : Z) (s : jni_state) : jni_state :=
  JniState (j_cpp s) (j_heap s) (j_globals s) (j_weaks s) (j_pending s) (j_native s) (j_refs s)
    (j_parcels s) (j_next s) (gNumRefsCreated s) (gNumProxyRefs s) v (gNumDeathRefs s).
Definition set_gNumDeathRefs (v : Z) (s : jni_state) : jni_state :=
  JniState (j_cpp s) (j_heap s) (j_globals s) (j_weaks s) (j_pending s) (j_native s) (j_refs s)
    (j_parcels s) (j_next s) (gNumRefsCreated s) (gNumProxyRefs s) (gNumLocalRefs s) v.

Definition JM (A : Type) : Type := prog jni_state A.

(** A method of the C++ library, run on the process below. *)
Definition lift {A} (m : M A) : JM A := fun s =>
  match m (j_cpp s) with
  | Value a w => Value a (set_j_cpp w s)
  | Blocked w => Blocked (set_j_cpp w s)
  | Crash l => Crash l
  | NoFuel => NoFuel
  end.

(** [assert], and following a pointer that leads nowhere. *)
Definition bad {A} : JM A := crash 0.

Definition lookup_or_crash {A} (k : Z) (m : gmap Z A) : JM A := fun s =>
  match m !! k with Some a => Value a s | None => Crash 0 end.

Definition fresh : JM Z :=
  do! s := gets id in modify (set_j_next (j_next s + 1)) ;;; ret (j_next s).

(** ** The Java Native Interface *)

(** Global and weak global references; a NULL object has a NULL reference. *)
Definition NewGlobalRef (o : option Z) : JM Z :=
  match o with
  | None => ret 0
  | Some o =>
      do! g := fresh in
      modify (fun s => set_j_globals (<[g := o]> (j_globals s)) s) ;;; ret g
  end.

Definition DeleteGlobalRef (g : Z) : JM unit :=
  if g =? 0 then ret tt
  else
    do! s := gets id in
    do! _ := lookup_or_crash g (j_globals s) in
    modify (set_j_globals (delete g (j_globals s))).

Definition NewWeakGlobalRef (o : option Z) : JM Z :=
  match o with
  | None => ret 0
  | Some o =>
      do! g := fresh in
      modify (fun s => set_j_weaks (<[g := Some o]> (j_weaks s)) s) ;;; ret g
  end.

Definition DeleteWeakGlobalRef (g : Z) : JM unit :=
  if g =? 0 then ret tt
  else
    do! s := gets id in
    do! _ := lookup_or_crash g (j_weaks s) in
    modify (set_j_weaks (delete g (j_weaks s))).

(** The object of a reference; [None] is NULL. *)
Definition global_object (g : Z) : JM (option Z) :=
  if g =? 0 then ret None
  else do! s := gets id in do! o := lookup_or_crash g (j_globals s) in ret (Some o).

Definition weak_object (g : Z) : JM (option Z) :=
  if g =? 0 then ret None
  else do! s := gets id in lookup_or_crash g (j_weaks s).

Definition IsSameObject (o o' : option Z) : bool := bool_decide (o = o').

Definition heap_object (o : Z) : JM jobj :=
  do! s := gets id in lookup_or_crash o (j_heap s).

Definition put_object (o : Z) (x : jobj) : JM unit :=
  modify (fun s => set_j_heap (<[o := x]> (j_heap s)) s).

(** [IsInstanceOf] for [android.os.Binder] and [android.os.BinderProxy]. *)
Definition is_Binder (x : jobj) : bool := match x with JBinder _ => true | _ => false end.
Definition is_BinderProxy (x : jobj) : bool :=
  match x with JBinderProxy _ _ _ => true | _ => false end.

(** [GetLongField] and [SetLongField] with the fields' ids; an object without the
    field crashes. *)
Definition Binder_mObject (o : Z) : JM Z :=
  do! x := heap_object o in match x with JBinder h => ret h | _ => bad end.
Definition set_Binder_mObject (o h : Z) : JM unit :=
  do! x := heap_object o in match x with JBinder _ => put_object o (JBinder h) | _ => bad end.
Definition BinderProxy_mObject (o : Z) : JM Z :=
  do! x := heap_object o in match x with JBinderProxy b _ _ => ret b | _ => bad end.
Definition BinderProxy_mOrgue (o : Z) : JM Z :=
  do! x := heap_object o in match x with JBinderProxy _ d _ => ret d | _ => bad end.
Definition BinderProxy_mSelf (o : Z) : JM (option Z) :=
  do! x := heap_object o in match x with JBinderProxy _ _ r => ret r | _ => bad end.
Definition set_BinderProxy_mObject (o b : Z) : JM unit :=
  do! x := heap_object o in
  match x with JBinderProxy _ d r => put_object o (JBinderProxy b d r) | _ => bad end.
Definition set_BinderProxy_mOrgue (o d : Z) : JM unit :=
  do! x := heap_object o in
  match x with JBinderProxy b _ r => put_object o (JBinderProxy b d r) | _ => bad end.
Definition Parcel_mNativePtr (o : Z) : JM Z :=
  do! x := heap_object o in match x with JParcel p => ret p | _ => bad end.

(** [jniGetReferent] of a reference to a [java.lang.ref.WeakReference]. *)
Definition jniGetReferent (g : Z) : JM (option Z) :=
  do! o := global_object g in
  match o with
  | None => bad
  | Some o =>
      do! x := heap_object o in match x with JWeakReference r => ret r | _ => bad end
  end.

Definition Throw (t : throwable) : JM unit := modify (set_j_pending (Some t)).
Definition jniThrowException (cls : string) (msg : option string) : JM unit :=
  Throw (Throwable cls msg).
Definition jniThrowNullPointerException : JM unit :=
  jniThrowException "java/lang/NullPointerException" None.
Definition ExceptionOccurred : JM (option throwable) := gets j_pending.
Definition ExceptionClear : JM unit := modify (set_j_pending None).

(** [FatalError] does not return. *)
Definition FATAL_ERROR : Z := 225.
Definition FatalError {A} : JM A := crash FATAL_ERROR.

(** ** Native objects *)

Definition native_object (a : Z) : JM native :=
  do! s := gets id in lookup_or_crash a (j_native s).

Definition put_native (a : Z) (x : native) : JM unit :=
  modify (fun s => set_j_native (<[a := x]> (j_native s)) s).

(** [new]: the object, with no reference yet. *)
Definition new_native (x : native) : JM Z :=
  do! a := fresh in put_native a x ;;; ret a.

Definition delete_native (a : Z) : JM unit :=
  modify (fun s => set_j_native (delete a (j_native s)) s).

Definition incStrong (a : Z) : JM unit :=
  modify (fun s => set_j_refs (rb_incStrong a (j_refs s)) s).

(** The destructor runs when the last reference goes. *)
Definition decStrong (destroy : Z -> JM unit) (a : Z) : JM unit :=
  do! s := gets id in
  if strong (j_refs s) a <? 1 then bad
  else
    let '(r, last) := rb_decStrong a (j_refs s) in
    modify (set_j_refs r) ;;; when last (destroy a).

(** [promote] of a weak pointer. *)
Definition promote (p : option Z) : JM (option Z) :=
  match p with
  | None => ret None
  | Some a =>
      do! s := gets id in
      match rb_attemptIncStrong a (j_refs s) with
      | Some r => modify (set_j_refs r) ;;; ret (Some a)
      | None => ret None
      end
  end.

End State.

(** ** The code the layer calls *)

(** The virtual methods of [IBinder] that send no transaction, for binders that
    are not [JavaBBinder]: is the address one, is it local, the objects attached
    to it, death links, its life.  [nb_last] is what happens when the last strong
    reference goes: the entries whose cleanup functions the destructor calls,
    none if weak references keep the object. *)
Class NativeBinder `{PL : ParcelLib} := {
  nb_is : world -> Z -> bool;
  nb_local : Z -> bool;
  nb_findObject : Z -> Z -> M (option Z);
  nb_attachObject : Z -> Z -> Z -> Z -> option Z -> M unit;
  nb_detachObject : Z -> Z -> M unit;
  nb_linkToDeath : Z -> option Z -> Z -> Z -> M Z;
  nb_unlinkToDeath : Z -> option Z -> Z -> Z -> M (Z * option (option Z));
  nb_isBinderAlive : Z -> M bool;
  nb_last : Z -> M (list (Z * object_entry))
}.

(** Java methods, the collector, and the methods of [IBinder] that wait for
    another process, during which this thread may serve calls. *)
Class JavaSide `{PL : ParcelLib} `{RB : RefBase} := {
  jcall : java_call -> JM Z;
  force_gc : JM unit;
  (** [getClass().getName()]: did it give a string? *)
  class_getName : Z -> JM bool;
  (** [new BinderProxy()]: [None] with an exception pending. *)
  new_BinderProxy : JM (option Z);
  (** Is it a [java.lang.Error]? *)
  is_Error : throwable -> bool;
  (** Does [NewStringUTF] find memory? *)
  new_string : jni_state -> bool;
  ib_pingBinder : Z -> JM Z;
  ib_getInterfaceDescriptor : Z -> JM (list Z);
  (** The code, the parcels' addresses, the flags. *)
  ib_transact : Z -> Z -> Z -> option Z -> Z -> JM Z;
  (** [BBinder::onTransact] for [SYSPROPS_TRANSACTION]. *)
  bb_onTransact : Z -> Z -> Z -> Z -> Z -> JM Z;
  blockUntilThreadAvailable : JM unit;
  joinThreadPool_native : JM unit;
  (** [ProcessState::self()->getContextObject(NULL)], a strong pointer. *)
  ps_getContextObject : JM Z;
  ps_setThreadPoolMaxThreadCount : Z -> JM unit
}.

(** What the log of binder calls takes from <log/log.h> and asks the system. *)
Class Sampling `{PL : ParcelLib} `{RB : RefBase} := {
  EVENT_TYPE_INT : Z;
  EVENT_TYPE_STRING : Z;
  EVENT_TYPE_LIST : Z;
  LOGGER_ENTRY_MAX_PAYLOAD : Z;
  uptimeMillis : jni_state -> Z;
  random : jni_state -> Z;
  on_main_thread : jni_state -> bool;
  process_name : jni_state -> list Z;
  utf8_of : list Z -> list Z;
  bWriteLog : Z -> list Z -> JM unit
}.
