(* ===== verification/JniBinder.v ===== *)
(** * JniBinder: the Java side of Binder

    Models jni/android_util_Binder.cpp: local Java binders and their native
    [JavaBBinder]s, Java proxies of native binders, death recipients, the native
    methods of [android.os.Binder], [BinderProxy] and [BinderInternal], and the
    exceptions they throw.  A native method is one step here: its critical
    sections are the locks [mLock] and [mProxyLock] of the code. *)

From Stdlib Require Import Ascii.
From stdpp Require Import pretty.
From S2P Require Import Prelude Uapi Parcel CppWorld ProcessState IpcCore BpBinder Proxy RefBase JniWorld.

#[local] Open Scope Z_scope.

(** The statuses of <utils/Errors.h> that [errors] does not have. *)
Record jni_errors := JniErrors {
  BAD_VALUE : Z;
  BAD_INDEX : Z;
  BAD_TYPE : Z;
  PERMISSION_DENIED : Z;
  NO_INIT : Z;
  ALREADY_EXISTS : Z;
  UNKNOWN_TRANSACTION : Z;
  FDS_NOT_ALLOWED : Z;
  UNEXPECTED_NULL : Z
}.

Definition linux_jni_errors : jni_errors :=
  JniErrors (-22) (-75) (-2147483647) (-1) (-19) (-17) (-74) (-2147483641) (-2147483640).

Definition ENFILE : Z := 23.
Definition EMFILE : Z := 24.
Definition EFBIG : Z := 27.
Definition ENOSPC : Z := 28.
Definition ESPIPE : Z := 29.
Definition EROFS : Z := 30.
Definition EMLINK : Z := 31.

(** The file's static data that has an address: [&gBinderProxyOffsets], the
    function [proxy_cleanup], the virtual machine; and a code of <IBinder.h>. *)
Record statics := Statics {
  gBinderProxyOffsets : Z;
  fn_proxy_cleanup : Z;
  the_JavaVM : Z;
  SYSPROPS_TRANSACTION : Z
}.

(** [printf]'s ["%x"] of a 32-bit and a 64-bit number. *)
Fixpoint hex_digits (n : nat) (x : Z) (acc : string) : string :=
  match n with
  | O => acc
  | S n' =>
      let d := Z.to_nat (x mod 16) in
      let acc := String (default "0"%char (String.get d "0123456789abcdef")) acc in
      if x <? 16 then acc else hex_digits n' (x / 16) acc
  end.
Definition hex32 (x : Z) : string := hex_digits 8 (u32 x) "".
Definition hex64 (x : Z) : string := hex_digits 16 (u64 x) "".

Section Model.
Context `{PL : ParcelLib} `{RB : RefBase} `{U : BinderUapi}.
Context `{NB : !NativeBinder} `{JS : !JavaSide} `{SM : !Sampling}.
Context (E : cpp_env) (JE : jni_errors) (St : statics) (Sys : system) (garbage : Z).

(** [IPCThreadState::self()->...]. *)
Definition ipc {A} (m : M A) : JM A := lift (with_ipc E Sys garbage m).

(** ** Counters *)

Definition incRefsCreated : JM unit :=
  do! s := gets id in
  let old := gNumRefsCreated s in
  modify (set_gNumRefsCreated (i32 (old + 1))) ;;;
  (if old =? 200 then modify (set_gNumRefsCreated 0) ;;; force_gc else ret tt).

Definition inc_local : JM unit := modify (fun s => set_gNumLocalRefs (i32 (gNumLocalRefs s + 1)) s).
Definition dec_local : JM unit := modify (fun s => set_gNumLocalRefs (i32 (gNumLocalRefs s - 1)) s).
Definition inc_proxy : JM unit := modify (fun s => set_gNumProxyRefs (i32 (gNumProxyRefs s + 1)) s).
Definition dec_proxy : JM unit := modify (fun s => set_gNumProxyRefs (i32 (gNumProxyRefs s - 1)) s).
Definition inc_death : JM unit := modify (fun s => set_gNumDeathRefs (i32 (gNumDeathRefs s + 1)) s).
Definition dec_death : JM unit := modify (fun s => set_gNumDeathRefs (i32 (gNumDeathRefs s - 1)) s).

(** ** Exceptions *)

(** [report_exception]: the exception is logged and gone, unless it is an
    [Error], which ends the process. *)
Definition report_exception (excep : throwable) (msg : string) : JM unit :=
  ExceptionClear ;;;
  (do! s := gets id in
   if negb (new_string s) then ExceptionClear
   else
     (do! _ := jcall (LogE msg excep) in ret tt) ;;;
     (do! e := ExceptionOccurred in
      match e with Some _ => ExceptionClear | None => ret tt end) ;;;
     (if is_Error excep then
        (do! _ := jcall (ToString excep) in ret tt) ;;;
        ExceptionClear ;;; Throw excep ;;; FatalError
      else ret tt)).

(** [if (env->ExceptionCheck()) report_exception(...)]: was there one? *)
Definition report_pending (msg : string) : JM bool :=
  do! e := ExceptionOccurred in
  match e with
  | Some excep => report_exception excep msg ;;; ret true
  | None => ret false
  end.

(** The switch of [signalExceptionForError], as the code has it, first match. *)
Definition error_exception (err : Z) (canThrowRemoteException : bool) (parcelSize : Z)
    : throwable :=
  let RuntimeException m := Throwable "java/lang/RuntimeException" (Some m) in
  if err =? UNKNOWN_ERROR (k_errors E) then RuntimeException "Unknown error"
  else if err =? NO_MEMORY (k_errors E) then Throwable "java/lang/OutOfMemoryError" None
  else if err =? INVALID_OPERATION (k_errors E) then
    Throwable "java/lang/UnsupportedOperationException" None
  else if err =? BAD_VALUE JE then Throwable "java/lang/IllegalArgumentException" None
  else if err =? BAD_INDEX JE then Throwable "java/lang/IndexOutOfBoundsException" None
  else if err =? BAD_TYPE JE then Throwable "java/lang/IllegalArgumentException" None
  else if err =? NAME_NOT_FOUND (k_errors E) then
    Throwable "java/util/NoSuchElementException" None
  else if err =? PERMISSION_DENIED JE then Throwable "java/lang/SecurityException" None
  else if err =? NOT_ENOUGH_DATA (k_errors E) then
    Throwable "android/os/ParcelFormatException" (Some "Not enough data")
  else if err =? NO_INIT JE then RuntimeException "Not initialized"
  else if err =? ALREADY_EXISTS JE then RuntimeException "Item already exists"
  else if err =? DEAD_OBJECT (k_errors E) then
    Throwable (if canThrowRemoteException then "android/os/DeadObjectException"
               else "java/lang/RuntimeException") None
  else if err =? UNKNOWN_TRANSACTION JE then RuntimeException "Unknown transaction code"
  else if err =? FAILED_TRANSACTION (k_errors E) then
    if canThrowRemoteException && (200 * 1024 <? parcelSize) then
      Throwable "android/os/TransactionTooLargeException"
        (Some ("data parcel size " +:+ pretty parcelSize +:+ " bytes"))
    else
      Throwable (if canThrowRemoteException then "android/os/DeadObjectException"
                 else "java/lang/RuntimeException")
        (Some "Transaction failed on small parcel; remote process probably died")
  else if err =? FDS_NOT_ALLOWED JE then
    RuntimeException "Not allowed to write file descriptors here"
  else if err =? UNEXPECTED_NULL JE then Throwable "java/lang/NullPointerException" None
  else if err =? - EBADF then RuntimeException "Bad file descriptor"
  else if err =? - ENFILE then RuntimeException "File table overflow"
  else if err =? - EMFILE then RuntimeException "Too many open files"
  else if err =? - EFBIG then RuntimeException "File too large"
  else if err =? - ENOSPC then RuntimeException "No space left on device"
  else if err =? - ESPIPE then RuntimeException "Illegal seek"
  else if err =? - EROFS then RuntimeException "Read-only file system"
  else if err =? - EMLINK then RuntimeException "Too many links"
  else
    Throwable (if canThrowRemoteException then "android/os/RemoteException"
               else "java/lang/RuntimeException")
      (Some ("Unknown binder error code. 0x" +:+ hex32 err)).

Definition signalExceptionForError (err : Z) (canThrowRemoteException : bool)
    (parcelSize : Z) : JM unit :=
  Throw (error_exception err canThrowRemoteException parcelSize).

(** ** The native objects, by their class *)

Definition as_JavaBBinder (a : Z) : JM Z :=
  do! x := native_object a in match x with JavaBBinder g => ret g | _ => bad end.
Definition as_Holder (a : Z) : JM (option Z) :=
  do! x := native_object a in match x with JavaBBinderHolder b => ret b | _ => bad end.
Definition as_List (a : Z) : JM (list Z) :=
  do! x := native_object a in match x with DeathRecipientList l => ret l | _ => bad end.
Definition as_Recipient (a : Z) : JM (Z * Z * Z) :=
  do! x := native_object a in
  match x with JavaDeathRecipient g gw d => ret (g, gw, d) | _ => bad end.

(** ** JavaBBinder *)

Definition JavaBBinder_new (object : Z) : JM Z :=
  do! g := NewGlobalRef (Some object) in
  do! b := new_native (JavaBBinder g) in
  inc_local ;;; incRefsCreated ;;; ret b.

Definition JavaBBinder_destroy (b : Z) : JM unit :=
  do! g := as_JavaBBinder b in
  dec_local ;;; DeleteGlobalRef g ;;; delete_native b.

Definition set_dalvik_blockguard_policy (strict_policy : Z) : JM unit :=
  do! _ := jcall (OnBinderStrictModePolicyChange strict_policy) in ret tt.

Definition newParcelFileDescriptor (new_object : Z -> JM (option Z)) (fileDesc : Z)
    : JM (option Z) := new_object fileDesc.

(** [JavaBBinder::onTransact]: [execTransact] of the Java object.  An exception
    is a refusal; the Java copy of the strict mode policy is put back. *)
Definition JavaBBinder_onTransact (b code data reply flags : Z) : JM Z :=
  do! g := as_JavaBBinder b in
  do! strict_policy_before := ipc getStrictModePolicy in
  do! obj := global_object g in
  match obj with
  | None => bad
  | Some obj =>
      do! res := jcall (ExecTransact obj code data reply flags) in
      do! threw := report_pending ("*** Uncaught remote exception!  " +:+
        "(Exceptions are not yet supported across processes.)") in
      let res := if threw : bool then 0 else res in
      do! strict_policy := ipc getStrictModePolicy in
      when (negb (strict_policy =? strict_policy_before))
        (set_dalvik_blockguard_policy strict_policy_before) ;;;
      (do! _ := report_pending "*** Uncaught exception in onBinderStrictModePolicyChange" in
       (if code =? SYSPROPS_TRANSACTION St
        then (do! _ := bb_onTransact b code data reply flags in ret tt) else ret tt) ;;;
       ret (if negb (res =? 0) then NO_ERROR else UNKNOWN_TRANSACTION JE))
  end.

Definition JavaBBinder_dump : Z := 0.

(** ** JavaBBinderHolder *)

(** [get]: the binder that is there, or a new one; a strong pointer. *)
Definition Holder_get (h obj : Z) : JM Z :=
  do! mBinder := as_Holder h in
  do! b := promote mBinder in
  match b with
  | Some b => ret b
  | None =>
      do! b := JavaBBinder_new obj in
      incStrong b ;;; put_native h (JavaBBinderHolder (Some b)) ;;; ret b
  end.

Definition Holder_getExisting (h : Z) : JM (option Z) :=
  do! mBinder := as_Holder h in promote mBinder.

Definition Holder_destroy (h : Z) : JM unit :=
  do! _ := as_Holder h in delete_native h.

(** ** JavaDeathRecipient and DeathRecipientList *)

Definition JavaDeathRecipient_destroy (r : Z) : JM unit :=
  do! '(mObject, mObjectWeak, _) := as_Recipient r in
  dec_death ;;;
  (if negb (mObject =? 0) then DeleteGlobalRef mObject else DeleteWeakGlobalRef mObjectWeak) ;;;
  delete_native r.

Definition List_add (d r : Z) : JM unit :=
  do! l := as_List d in incStrong r ;;; put_native d (DeathRecipientList (l ++ [r])).

(** The list without the first occurrence. *)
Fixpoint erase (r : Z) (l : list Z) : list Z :=
  match l with
  | [] => []
  | r' :: l' => if r' =? r then l' else r' :: erase r l'
  end.

Definition List_remove (d r : Z) : JM unit :=
  do! l := as_List d in
  if bool_decide (r ∈ l) then
    put_native d (DeathRecipientList (erase r l)) ;;;
    decStrong JavaDeathRecipient_destroy r
  else ret tt.

(** [matches]: a recipient that was told is known by its weak reference. *)
Definition JavaDeathRecipient_matches (r obj : Z) : JM bool :=
  do! '(mObject, mObjectWeak, _) := as_Recipient r in
  if negb (mObject =? 0) then
    do! o := global_object mObject in ret (IsSameObject (Some obj) o)
  else do! me := weak_object mObjectWeak in ret (IsSameObject (Some obj) me).

Fixpoint find_recipient (recipient : Z) (l : list Z) : JM (option Z) :=
  match l with
  | [] => ret None
  | r :: l' =>
      do! m := JavaDeathRecipient_matches r recipient in
      if m : bool then incStrong r ;;; ret (Some r) else find_recipient recipient l'
  end.

(** [find]: a strong pointer. *)
Definition List_find (d recipient : Z) : JM (option Z) :=
  do! l := as_List d in find_recipient recipient l.

Definition warnIfStillLive (r : Z) : JM unit :=
  do! '(mObject, _, _) := as_Recipient r in
  if negb (mObject =? 0) then
    do! o := global_object mObject in
    match o with
    | None => bad
    | Some o => do! named := class_getName o in if named : bool then ret tt else ExceptionClear
    end
  else ret tt.

Fixpoint warn_all (l : list Z) : JM unit :=
  match l with [] => ret tt | r :: l' => warnIfStillLive r ;;; warn_all l' end.

(** The destructor of [mList] gives up its elements one by one. *)
Fixpoint clear_list (d : Z) (l : list Z) : JM unit :=
  match l with
  | [] => ret tt
  | r :: l' =>
      put_native d (DeathRecipientList l') ;;;
      decStrong JavaDeathRecipient_destroy r ;;;
      clear_list d l'
  end.

Definition List_destroy (d : Z) : JM unit :=
  do! l := as_List d in
  warn_all l ;;; clear_list d l ;;; delete_native d.

(** The constructor, with the [sp<>] made of [list] alive around it.  The list
    takes the first reference. *)
Definition JavaDeathRecipient_new (object d : Z) : JM Z :=
  do! g := NewGlobalRef (Some object) in
  do! r := new_native (JavaDeathRecipient g 0 d) in
  List_add d r ;;; inc_death ;;; incRefsCreated ;;; ret r.

Definition clearReference (r : Z) : JM unit :=
  do! '(_, _, mList) := as_Recipient r in
  do! list := promote (Some mList) in
  match list with
  | Some d => List_remove d r ;;; decStrong List_destroy d
  | None => ret tt
  end.

(** [binderDied]: the Java recipient is told, then only held weakly. *)
Definition JavaDeathRecipient_binderDied (r : Z) : JM unit :=
  do! '(mObject, _, mList) := as_Recipient r in
  if mObject =? 0 then ret tt
  else
    do! o := global_object mObject in
    (do! _ := jcall (SendDeathNotice o) in ret tt) ;;;
    (do! _ := report_pending "*** Uncaught exception returned from death notification!" in
     do! list := promote (Some mList) in
     match list with
     | None => ret tt
     | Some d =>
         do! '(mObject, _, _) := as_Recipient r in
         do! o := global_object mObject in
         do! gw := NewWeakGlobalRef o in
         put_native r (JavaDeathRecipient mObject gw mList) ;;;
         DeleteGlobalRef mObject ;;;
         put_native r (JavaDeathRecipient 0 gw mList) ;;;
         decStrong List_destroy d
     end).

(** ** Proxies *)

Definition proxy_cleanup (obj : Z) : JM unit := dec_proxy ;;; DeleteGlobalRef obj.

(** The cleanup functions a destroyed binder calls; those of other code are not
    here. *)
Fixpoint run_cleanups (l : list (Z * object_entry)) : JM unit :=
  match l with
  | [] => ret tt
  | (_, e) :: l' =>
      (if bool_decide (oe_func e = Some (fn_proxy_cleanup St))
       then proxy_cleanup (oe_object e) else ret tt) ;;;
      run_cleanups l'
  end.

(** The last strong reference to an [IBinder]. *)
Definition IBinder_last (b : Z) : JM unit :=
  do! s := gets id in
  match j_native s !! b with
  | Some _ => JavaBBinder_destroy b
  | None => do! l := lift (nb_last b) in run_cleanups l
  end.

Definition IBinder_decStrong (b : Z) : JM unit := decStrong IBinder_last b.

(** Following a raw [IBinder*]. *)
Definition deref_IBinder (b : Z) : JM unit :=
  do! s := gets id in if 0 <? strong (j_refs s) b then ret tt else bad.

Definition checkSubclass (b : Z) : JM (option Z) :=
  do! s := gets id in
  match j_native s !! b with
  | Some (JavaBBinder g) => ret (Some g)
  | Some _ => bad
  | None => if nb_is (j_cpp s) b then ret None else bad
  end.

(** A new Java proxy; [None] when there is no memory. *)
Definition new_proxy_object (b : Z) : JM (option Z) :=
  do! object := new_BinderProxy in
  match object with
  | None => ret None
  | Some p =>
      set_BinderProxy_mObject p b ;;;
      incStrong b ;;;
      (do! self := BinderProxy_mSelf p in
       do! refObject := NewGlobalRef self in
       lift (nb_attachObject b (gBinderProxyOffsets St) refObject (the_JavaVM St)
               (Some (fn_proxy_cleanup St))) ;;;
       (do! drl := new_native (DeathRecipientList []) in
        incStrong drl ;;; incStrong drl ;;;
        set_BinderProxy_mOrgue p drl ;;;
        inc_proxy ;;; incRefsCreated ;;;
        decStrong List_destroy drl ;;;
        ret (Some p)))
  end.

(** [javaObjectForIBinder]: the local object, the proxy that is still alive, or
    a new one. *)
Definition javaObjectForIBinder (val : Z) : JM (option Z) :=
  if val =? 0 then ret None
  else
    deref_IBinder val ;;;
    (do! ours := checkSubclass val in
     match ours with
     | Some g => global_object g
     | None =>
         do! object := lift (nb_findObject val (gBinderProxyOffsets St)) in
         let object := default 0 object in
         if negb (object =? 0) then
           do! res := jniGetReferent object in
           match res with
           | Some p => ret (Some p)
           | None =>
               dec_proxy ;;;
               lift (nb_detachObject val (gBinderProxyOffsets St)) ;;;
               DeleteGlobalRef object ;;;
               new_proxy_object val
           end
         else new_proxy_object val
     end).

(** [ibinderForJavaObject]: a strong pointer, 0 for NULL. *)
Definition ibinderForJavaObject (obj : option Z) : JM Z :=
  match obj with
  | None => ret 0
  | Some o =>
      do! x := heap_object o in
      if is_Binder x then
        do! jbh := Binder_mObject o in
        if negb (jbh =? 0) then Holder_get jbh o else ret 0
      else if is_BinderProxy x then
        do! b := BinderProxy_mObject o in
        if b =? 0 then ret 0 else deref_IBinder b ;;; incStrong b ;;; ret b
      else ret 0
  end.

(** ** android.os.Binder *)

Definition android_os_Binder_getCallingPid : JM Z := ipc getCallingPid.
Definition android_os_Binder_getCallingUid : JM Z := ipc getCallingUid.
Definition android_os_Binder_clearCallingIdentity : JM Z := ipc (clearCallingIdentity E).

Definition android_os_Binder_restoreCallingIdentity (token : Z) : JM unit :=
  let uid := i32 (Z.shiftr token 32) in
  if (0 <? uid) && (uid <? 999) then
    jniThrowException "java/lang/IllegalStateException"
      (Some ("Restoring bad calling ident: 0x" +:+ hex64 token))
  else ipc (restoreCallingIdentity token).

Definition android_os_Binder_setThreadStrictModePolicy (policyMask : Z) : JM unit :=
  ipc (setStrictModePolicy policyMask).
Definition android_os_Binder_getThreadStrictModePolicy : JM Z := ipc getStrictModePolicy.
Definition android_os_Binder_flushPendingCommands : JM unit := ipc (flushCommands E).

(** [operator new] does not return NULL. *)
Definition android_os_Binder_init (obj : Z) : JM unit :=
  do! jbh := new_native (JavaBBinderHolder None) in
  incStrong jbh ;;; set_Binder_mObject obj jbh.

Definition android_os_Binder_destroy (obj : Z) : JM unit :=
  do! jbh := Binder_mObject obj in
  if negb (jbh =? 0) then
    set_Binder_mObject obj 0 ;;; decStrong Holder_destroy jbh
  else ret tt.

Definition android_os_Binder_blockUntilThreadAvailable : JM unit := blockUntilThreadAvailable.

(** ** android.os.Debug and BinderInternal *)

Definition android_os_Debug_getLocalObjectCount : JM Z := gets gNumLocalRefs.
Definition android_os_Debug_getProxyObjectCount : JM Z := gets gNumProxyRefs.
Definition android_os_Debug_getDeathObjectCount : JM Z := gets gNumDeathRefs.

(** The strong pointer in [b] dies with the function. *)
Definition android_os_BinderInternal_getContextObject : JM (option Z) :=
  do! b := ps_getContextObject in
  do! o := javaObjectForIBinder b in
  (if b =? 0 then ret tt else IBinder_decStrong b) ;;; ret o.

Definition android_os_BinderInternal_joinThreadPool : JM unit :=
  do! b := ps_getContextObject in
  joinThreadPool_native ;;;
  (if b =? 0 then ret tt else IBinder_decStrong b).

Definition android_os_BinderInternal_disableBackgroundScheduling (disable : bool) : JM unit :=
  lift (disableBackgroundScheduling disable).
Definition android_os_BinderInternal_setMaxThreads (maxThreads : Z) : JM unit :=
  ps_setThreadPoolMaxThreadCount maxThreads.
Definition android_os_BinderInternal_handleGc : JM unit := modify (set_gNumRefsCreated 0).

(** ** android.os.BinderProxy *)

Definition android_os_BinderProxy_pingBinder (obj : Z) : JM bool :=
  do! target := BinderProxy_mObject obj in
  if target =? 0 then ret false
  else
    deref_IBinder target ;;;
    (do! err := ib_pingBinder target in ret (err =? NO_ERROR)).

(** The descriptor, or [None] with an exception. *)
Definition android_os_BinderProxy_getInterfaceDescriptor (obj : Z) : JM (option (list Z)) :=
  do! target := BinderProxy_mObject obj in
  if negb (target =? 0) then
    deref_IBinder target ;;;
    (do! desc := ib_getInterfaceDescriptor target in ret (Some desc))
  else
    jniThrowException "java/lang/RuntimeException" (Some "No binder found for object") ;;;
    ret None.

Definition android_os_BinderProxy_isBinderAlive (obj : Z) : JM bool :=
  do! target := BinderProxy_mObject obj in
  if target =? 0 then ret false
  else deref_IBinder target ;;; lift (nb_isBinderAlive target).

(** *** The log of binder calls *)

Definition kEnableBinderSample : bool := false.
Definition LOGTAG_BINDER_OPERATION : Z := 52004.

(** What is written, [buf] being the bytes before [*pos] and [last] the index of
    [end]; [None] is [false]. *)
Definition push_eventlog_string (last : Z) (str buf : list Z) : option (list Z) :=
  let len := i32 (Z.of_nat (length str)) in
  let space_needed := i32 (1 + 4 + len) in
  if last - Z.of_nat (length buf) <? space_needed then None
  else Some (buf ++ EVENT_TYPE_STRING :: le_encode 4 (u32 len) ++ str).

Definition push_eventlog_int (last val : Z) (buf : list Z) : option (list Z) :=
  if last - Z.of_nat (length buf) <? 1 + 4 then None
  else Some (buf ++ EVENT_TYPE_INT :: le_encode 4 (u32 val)).

(** The record of a call; [None] when something does not fit. *)
Definition binder_call_record (desc : list Z) (code duration_ms : Z) (pname : list Z)
    (sample_percent : Z) : option (list Z) :=
  let last := LOGGER_ENTRY_MAX_PAYLOAD - 1 in
  buf ← push_eventlog_string last desc [EVENT_TYPE_LIST; 5];
  buf ← push_eventlog_int last code buf;
  buf ← push_eventlog_int last duration_ms buf;
  buf ← push_eventlog_string last pname buf;
  buf ← push_eventlog_int last sample_percent buf;
  Some (buf ++ [10]).

(** Long calls are always logged, shorter ones in proportion, [rnd] being
    [random()]. *)
Definition sample_percent_of (duration_ms rnd : Z) : option Z :=
  if 500 <=? duration_ms then Some 100
  else
    let p := Z.quot (100 * duration_ms) 500 in
    if p =? 0 then None
    else if p <? Z.rem rnd 100 + 1 then None
    else Some p.

Definition conditionally_log_binder_call (start_millis target code : Z) : JM unit :=
  do! s := gets id in
  let duration_ms := i32 (uptimeMillis s - start_millis) in
  match sample_percent_of duration_ms (random s) with
  | None => ret tt
  | Some p =>
      do! desc := ib_getInterfaceDescriptor target in
      match binder_call_record (utf8_of desc) code duration_ms (process_name s) p with
      | None => ret tt
      | Some buf => bWriteLog LOGTAG_BINDER_OPERATION buf
      end
  end.

Definition should_time_binder_calls : JM bool := gets on_main_thread.

(** *** Calls *)

(** [parcelForJavaObject] of android_os_Parcel.cpp: 0 is NULL. *)
Definition parcelForJavaObject (obj : option Z) : JM Z :=
  match obj with
  | None => ret 0
  | Some o =>
      do! p := Parcel_mNativePtr o in
      if negb (p =? 0) then ret p
      else
        jniThrowException "java/lang/IllegalStateException" (Some "Parcel has been finalized!") ;;;
        ret 0
  end.

Definition parcel_at (p : Z) : JM parcel :=
  do! s := gets id in lookup_or_crash p (j_parcels s).

Definition android_os_BinderProxy_transact (obj code : Z) (dataObj replyObj : option Z)
    (flags : Z) : JM bool :=
  match dataObj with
  | None => jniThrowNullPointerException ;;; ret false
  | Some _ =>
      do! data := parcelForJavaObject dataObj in
      if data =? 0 then ret false
      else
        do! reply := parcelForJavaObject replyObj in
        if (reply =? 0) && negb (bool_decide (replyObj = None)) then ret false
        else
          do! target := BinderProxy_mObject obj in
          if target =? 0 then
            jniThrowException "java/lang/IllegalStateException"
              (Some "Binder has been finalized!") ;;;
            ret false
          else
            deref_IBinder target ;;;
            (do! time_binder_calls :=
               (if kEnableBinderSample then should_time_binder_calls else ret false) in
             do! start_millis := gets uptimeMillis in
             do! err := ib_transact target code data (if reply =? 0 then None else Some reply)
                          flags in
             when (kEnableBinderSample && time_binder_calls)
               (conditionally_log_binder_call start_millis target code) ;;;
             (if err =? NO_ERROR then ret true
              else if err =? UNKNOWN_TRANSACTION JE then ret false
              else
                do! p := parcel_at data in
                signalExceptionForError err true (i32 (dataSize p)) ;;;
                ret false))
  end.

(** *** Death links *)

Definition android_os_BinderProxy_linkToDeath (obj : Z) (recipient : option Z) (flags : Z)
    : JM unit :=
  match recipient with
  | None => jniThrowNullPointerException
  | Some recipient =>
      do! target := BinderProxy_mObject obj in
      (* a NULL target is only logged: [assert] is off in a release build *)
      deref_IBinder target ;;;
      (if nb_local target then ret tt
       else
         do! list := BinderProxy_mOrgue obj in
         do! _ := as_List list in
         incStrong list ;;;
         (do! jdr := JavaDeathRecipient_new recipient list in
          incStrong jdr ;;;
          decStrong List_destroy list ;;;
          (do! err := lift (nb_linkToDeath target (Some jdr) 0 flags) in
           (if negb (err =? NO_ERROR) then
              clearReference jdr ;;; signalExceptionForError err true 0
            else ret tt) ;;;
           decStrong JavaDeathRecipient_destroy jdr)))
  end.

(** [dr.promote()] and the cast of what it gives. *)
Definition clear_unlinked (dr : option Z) : JM unit :=
  do! sdr := promote dr in
  match sdr with
  | None => ret tt
  | Some jdr => clearReference jdr ;;; decStrong JavaDeathRecipient_destroy jdr
  end.

Definition android_os_BinderProxy_unlinkToDeath (obj : Z) (recipient : option Z) (flags : Z)
    : JM bool :=
  match recipient with
  | None => jniThrowNullPointerException ;;; ret false
  | Some recipient =>
      do! target := BinderProxy_mObject obj in
      if target =? 0 then ret false
      else
        deref_IBinder target ;;;
        (if nb_local target then ret false
         else
           do! list := BinderProxy_mOrgue obj in
           do! origJDR := List_find list recipient in
           do! err :=
             match origJDR with
             | None => ret (NAME_NOT_FOUND (k_errors E))
             | Some jdr =>
                 do! '(err, dr) := lift (nb_unlinkToDeath target (Some jdr) 0 flags) in
                 (if err =? NO_ERROR then clear_unlinked (mjoin dr) else ret tt) ;;; ret err
             end in
           do! res :=
             (if (err =? NO_ERROR) || (err =? DEAD_OBJECT (k_errors E)) then ret true
              else
                jniThrowException "java/util/NoSuchElementException"
                  (Some "Death link does not exist") ;;;
                ret false) in
           match origJDR with
           | Some jdr => decStrong JavaDeathRecipient_destroy jdr
           | None => ret tt
           end ;;;
           ret res)
  end.

(** [destroy]: the proxy gives back its binder and its recipients. *)
Definition android_os_BinderProxy_destroy (obj : Z) : JM unit :=
  do! b := BinderProxy_mObject obj in
  do! drl := BinderProxy_mOrgue obj in
  (if negb (b =? 0) then
     set_BinderProxy_mObject obj 0 ;;;
     set_BinderProxy_mOrgue obj 0 ;;;
     decStrong List_destroy drl ;;;
     IBinder_decStrong b
   else ret tt) ;;;
  ipc (flushCommands E).

End Model.
