(* ===== verification/JniInv.v ===== *)
(** * JniInv: when Java and native objects agree

    The invariant of [JniWorld]: every pointer of a Java object leads to a live
    native object of the class the code casts it to, every reference a native
    object keeps is valid and its own, reference counts cover all owners, the
    counters count.  [runs] is the weakest precondition of the monad; the laws of
    the parameters are stated with it. *)

From S2P Require Import Prelude Parcel CppWorld ProcessState IpcCore BpBinder Proxy RefBase JniWorld JniBinder.

#[local] Open Scope Z_scope.

(** ** Counting the entries of a map *)

Definition count_map {A} (f : A -> bool) (m : gmap Z A) : Z :=
  Z.of_nat (size (filter (fun kv => f kv.2 = true) m)).

Section Count.
Context {A : Type} (f : A -> bool).
Implicit Types m : gmap Z A.

Lemma count_map_delete m k y : m !! k = Some y ->
  count_map f m = count_map f (delete k m) + Z.b2z (f y).
Proof.
  intros H. rewrite <- (insert_delete_id m k y) at 1 by done. unfold count_map.
  rewrite map_filter_insert. case_decide as D; simpl in D.
  - rewrite D, map_size_insert_None; [simpl; lia|].
    rewrite map_filter_delete. apply lookup_delete_eq.
  - rewrite delete_delete_eq. destruct (f y); [done|]. simpl. lia.
Qed.

Lemma count_map_insert m k x :
  count_map f (<[k := x]> m) = count_map f (delete k m) + Z.b2z (f x).
Proof.
  rewrite (count_map_delete (<[k := x]> m) k x) by apply lookup_insert_eq.
  by rewrite delete_insert_eq.
Qed.

Lemma count_map_new m k x : m !! k = None ->
  count_map f (<[k := x]> m) = count_map f m + Z.b2z (f x).
Proof. intros H. by rewrite count_map_insert, delete_id. Qed.

Lemma count_map_update m k y x : m !! k = Some y ->
  count_map f (<[k := x]> m) = count_map f m - Z.b2z (f y) + Z.b2z (f x).
Proof. intros H. rewrite count_map_insert, (count_map_delete m k y H). lia. Qed.

Lemma count_map_remove m k y : m !! k = Some y ->
  count_map f (delete k m) = count_map f m - Z.b2z (f y).
Proof. intros H. rewrite (count_map_delete m k y H). lia. Qed.

Lemma count_map_nonneg m : 0 <= count_map f m.
Proof. unfold count_map. lia. Qed.

Lemma count_map_pos m k y : m !! k = Some y -> f y = true -> 1 <= count_map f m.
Proof.
  intros H Hy. rewrite (count_map_delete m k y H), Hy. simpl.
  pose proof (count_map_nonneg (delete k m)). lia.
Qed.

Lemma count_map_zero m : (forall k y, m !! k = Some y -> f y = false) -> count_map f m = 0.
Proof.
  intros H. unfold count_map. rewrite map_empty_filter_2; [done|].
  intros k y Hk. simpl. by rewrite (H k y Hk).
Qed.

(** Entries may change as long as [f] does not see it. *)
Lemma count_map_same m m' : f <$> m = f <$> m' -> count_map f m = count_map f m'.
Proof.
  revert m'. induction m as [|k x m Hk IH] using map_ind; intros m' E.
  - rewrite fmap_empty in E. symmetry in E. apply fmap_empty_inv in E. by rewrite E.
  - assert (f <$> m' !! k = Some (f x)) as E2.
    { rewrite <- lookup_fmap, <- E, lookup_fmap, lookup_insert_eq. done. }
    destruct (m' !! k) as [x'|] eqn:Hk'; [|done]. injection E2 as E2.
    rewrite count_map_new, (count_map_delete m' k x' Hk'), E2 by done. f_equal. apply IH.
    rewrite fmap_delete, <- E, fmap_insert. rewrite delete_insert_id; [done|].
    by rewrite lookup_fmap, Hk.
Qed.

End Count.

(** ** Running *)

(** Whatever the computation returns satisfies [Q]; it does not crash, unless by
    asking the virtual machine to abort. *)
Definition runs {W A} (m : prog W A) (w : W) (Q : A -> W -> Prop) : Prop :=
  match m w with
  | Value a w' => Q a w'
  | Blocked _ => True
  | Crash l => l = FATAL_ERROR
  | NoFuel => True
  end.

Section Runs.
Context {W : Type}.

Lemma runs_ret {A} (a : A) (w : W) (Q : A -> W -> Prop) : Q a w -> runs (ret a) w Q.
Proof. done. Qed.

Lemma runs_bind {A B} (m : prog W A) (f : A -> prog W B) w Q :
  runs m w (fun a w' => runs (f a) w' Q) -> runs (bind m f) w Q.
Proof. unfold runs, bind. by destruct (m w). Qed.

Lemma runs_mono {A} (m : prog W A) w (Q Q' : A -> W -> Prop) :
  runs m w Q -> (forall a w', Q a w' -> Q' a w') -> runs m w Q'.
Proof. unfold runs. destruct (m w); eauto. Qed.

Lemma runs_value {A} (m : prog W A) w a w' Q : m w = Value a w' -> Q a w' -> runs m w Q.
Proof. unfold runs. by intros ->. Qed.

Lemma runs_when (c : bool) (m : prog W unit) w Q :
  (c = true -> runs m w Q) -> (c = false -> Q tt w) -> runs (when c m) w Q.
Proof. destruct c; simpl; intros H1 H2; [by apply H1|by apply H2]. Qed.

Lemma runs_step {A B} (m : prog W A) (f : A -> prog W B) w P Q :
  runs m w P -> (forall a w', P a w' -> runs (f a) w' Q) -> runs (bind m f) w Q.
Proof. intros H K. apply runs_bind. eapply runs_mono; [exact H|exact K]. Qed.

(** A group of three, then the rest. *)
Lemma runs_group3 {A B C D} (a : prog W A) (b : prog W B) (c : prog W C) (k : prog W D) w Q :
  runs (a ;;; b ;;; c) w (fun _ w' => runs k w' Q) -> runs (a ;;; b ;;; c ;;; k) w Q.
Proof.
  unfold runs, bind. destruct (a w) as [x1 w1| | |]; try done.
  destruct (b w1) as [x2 w2| | |]; try done. by destruct (c w2).
Qed.

End Runs.

(** Goes through reads and writes of the state, up to the next call. *)
Ltac walk_step :=
  lazymatch goal with
  | |- runs (ret ?a) ?w ?Q => change (Q a w)
  | |- runs (gets ?f) ?w ?Q => change (Q (f w) w)
  | |- runs (modify ?f) ?w ?Q => change (Q tt (f w))
  | |- runs (bind _ _) _ _ => apply runs_bind
  | |- runs fresh _ _ => unfold fresh
  | |- runs (new_native _) _ _ => unfold new_native
  | |- runs (put_native _ _) _ _ => unfold put_native
  | |- runs (put_object _ _) _ _ => unfold put_object
  | |- runs (delete_native _) _ _ => unfold delete_native
  | |- runs (incStrong _) _ _ => unfold incStrong
  | |- runs (heap_object _) _ _ => unfold heap_object
  | |- runs (native_object _) _ _ => unfold native_object
  | |- runs (Throw _) _ _ => unfold Throw
  | |- runs ExceptionOccurred _ _ => unfold ExceptionOccurred
  | |- runs ExceptionClear _ _ => unfold ExceptionClear
  | |- runs (jniThrowException _ _) _ _ => unfold jniThrowException
  | |- runs jniThrowNullPointerException _ _ => unfold jniThrowNullPointerException
  end.
Ltac walk := repeat (progress (cbv beta iota delta [id negb]; try walk_step)).

(** ** What is relied on *)

Section Laws.
Context `{PL : ParcelLib}.

(** The thread and the process have their C++ state. *)
Definition has_state (w : world) : Prop :=
  w_have_tls w = true /\ is_Some (w_threads w !! w_tid w) /\ is_Some (w_process w).

(** The binders of the process that are not [JavaBBinder]s. *)
Class NativeLaws `{NB : !NativeBinder} := {
  (** The objects attached to one. *)
  nb_objects : world -> Z -> list (Z * object_entry);

  nb_frame w w' : w_proxies w' = w_proxies w ->
    (forall b, nb_is w' b = nb_is w b) /\ (forall b, nb_objects w' b = nb_objects w b);
  nb_find_law w b i : has_state w -> nb_is w b = true ->
    nb_findObject b i w = Value (ObjectManager_find i (nb_objects w b)) w;
  nb_attach_law w b i o c f : has_state w -> nb_is w b = true ->
    exists w', nb_attachObject b i o c f w = Value tt w' /\ has_state w' /\
      (forall b', nb_is w' b' = nb_is w b') /\
      forall b', nb_objects w' b' =
        if decide (b' = b) then ObjectManager_attach i o c f (nb_objects w b)
        else nb_objects w b';
  nb_detach_law w b i : has_state w -> nb_is w b = true ->
    exists w', nb_detachObject b i w = Value tt w' /\ has_state w' /\
      (forall b', nb_is w' b' = nb_is w b') /\
      forall b', nb_objects w' b' =
        if decide (b' = b) then ObjectManager_detach i (nb_objects w b) else nb_objects w b';
  nb_link_law w b r c f : has_state w -> nb_is w b = true ->
    runs (nb_linkToDeath b (Some r) c f) w (fun _ w' => has_state w' /\
      (forall b', nb_is w' b' = nb_is w b') /\ forall b', nb_objects w' b' = nb_objects w b');
  nb_unlink_law w b r c f : has_state w -> nb_is w b = true ->
    runs (nb_unlinkToDeath b (Some r) c f) w (fun x w' => has_state w' /\
      (forall b', nb_is w' b' = nb_is w b') /\ (forall b', nb_objects w' b' = nb_objects w b') /\
      (x.1 = NO_ERROR -> x.2 = Some (Some r)));
  nb_alive_law w b : has_state w -> nb_is w b = true ->
    runs (nb_isBinderAlive b) w (fun _ w' => w' = w);
  (** The object goes with its last reference or stays; when it goes, it calls
      the cleanup functions of what is attached to it. *)
  nb_last_law w b : has_state w -> nb_is w b = true ->
    runs (nb_last b) w (fun l w' => has_state w' /\
      (l = [] /\ (forall b', nb_is w' b' = nb_is w b') /\
         (forall b', nb_objects w' b' = nb_objects w b') \/
       l = nb_objects w b /\ (forall b', nb_is w' b' = nb_is w b' && negb (b' =? b)) /\
         (forall b', b' <> b -> nb_objects w' b' = nb_objects w b')))
}.

End Laws.

(** ** The invariant *)

(** Who a reference belongs to. *)
Inductive owner : Type :=
| OBinder (b : Z)
| ODeath (r : Z)
| OProxy (b : Z)
| OWeak (r : Z).

Definition is_OProxy (o : owner) : bool := match o with OProxy _ => true | _ => false end.
Definition is_JavaBBinder (x : native) : bool :=
  match x with JavaBBinder _ => true | _ => false end.
Definition is_Recipient (x : native) : bool :=
  match x with JavaDeathRecipient _ _ _ => true | _ => false end.

(** Strong references to [a] kept in a Java object and in a list. *)
Definition holds (a : Z) (x : jobj) : bool :=
  match x with
  | JBinder h => h =? a
  | JBinderProxy b d _ => (b =? a) || (d =? a)
  | _ => false
  end.
Definition lists (a : Z) (x : native) : bool :=
  match x with DeathRecipientList l => bool_decide (a ∈ l) | _ => false end.

(** Objects keep their class, and what is constant in them. *)
Definition same_kind (x y : native) : Prop :=
  match x, y with
  | JavaBBinder g, JavaBBinder g' => g = g'
  | JavaBBinderHolder _, JavaBBinderHolder _ => True
  | DeathRecipientList _, DeathRecipientList _ => True
  | JavaDeathRecipient _ _ d, JavaDeathRecipient _ _ d' => d = d'
  | _, _ => False
  end.
Definition same_class (x y : jobj) : Prop :=
  match x, y with
  | JBinder _, JBinder _ | JBinderProxy _ _ _, JBinderProxy _ _ _
  | JWeakReference _, JWeakReference _ | JParcel _, JParcel _ => True
  | JObject c, JObject c' => c = c'
  | _, _ => False
  end.

Section Inv.
Context `{PL : ParcelLib} `{RB : RefBase}.
Context `{NB : !NativeBinder} `{NL : !NativeLaws} (St : statics).

Implicit Types (s : jni_state) (own : gmap Z owner) (pins : list Z).

(** The strong references to [a] of Java objects and lists. *)
Definition owners s (a : Z) : Z :=
  count_map (holds a) (j_heap s) + count_map (lists a) (j_native s).

(** How many of the references held by running code are to [a]. *)
Fixpoint pinned (pins : list Z) (a : Z) : Z :=
  match pins with [] => 0 | b :: l => (if a =? b then 1 else 0) + pinned l a end.

(** A weak pointer to a [P]: if the object is still there it is one. *)
Definition weak_ok s (P : native -> Prop) (a : Z) : Prop :=
  a < j_next s /\ nb_is (j_cpp s) a = false /\ forall x, j_native s !! a = Some x -> P x.

Definition native_ok own s (a : Z) (x : native) : Prop :=
  match x with
  | JavaBBinder g =>
      own !! g = Some (OBinder a) /\ g <> 0 /\
      exists o h, j_globals s !! g = Some o /\ j_heap s !! o = Some (JBinder h)
  | JavaBBinderHolder mb =>
      match mb with None => True | Some j => weak_ok s (fun x => is_JavaBBinder x = true) j end
  | DeathRecipientList l =>
      NoDup l /\ forall r, r ∈ l -> exists g gw, j_native s !! r = Some (JavaDeathRecipient g gw a)
  | JavaDeathRecipient g gw d =>
      weak_ok s (fun x => exists l, x = DeathRecipientList l) d /\
      if decide (g = 0) then gw = 0 \/ own !! gw = Some (OWeak a) /\ is_Some (j_weaks s !! gw)
      else own !! g = Some (ODeath a) /\
           exists o, j_globals s !! g = Some o /\ is_Some (j_heap s !! o)
  end.

(** The binder a holder knows was made for the Java object [o]. *)
Definition made_for s (o h : Z) : Prop := forall j g,
  j_native s !! h = Some (JavaBBinderHolder (Some j)) ->
  j_native s !! j = Some (JavaBBinder g) -> j_globals s !! g = Some o.

Definition obj_ok s (o : Z) (x : jobj) : Prop :=
  match x with
  | JBinder h =>
      h = 0 \/ (exists mb, j_native s !! h = Some (JavaBBinderHolder mb)) /\ made_for s o h
  | JBinderProxy b d _ =>
      b = 0 /\ d = 0 \/
      nb_is (j_cpp s) b = true /\ exists l, j_native s !! d = Some (DeathRecipientList l)
  | JParcel p => p = 0 \/ is_Some (j_parcels s !! p)
  | _ => True
  end.

(** The proxy attached to a binder, through its weak reference. *)
Definition proxy_entry own s (b : Z) (e : object_entry) : Prop :=
  oe_func e = Some (fn_proxy_cleanup St) /\ oe_object e <> 0 /\
  own !! oe_object e = Some (OProxy b) /\
  exists w ref, j_globals s !! oe_object e = Some w /\ j_heap s !! w = Some (JWeakReference ref) /\
    forall p, ref = Some p -> exists d r, j_heap s !! p = Some (JBinderProxy b d r).

Definition entry_ok own s (b i : Z) (e : object_entry) : Prop :=
  if decide (i = gBinderProxyOffsets St) then proxy_entry own s b e
  else oe_func e <> Some (fn_proxy_cleanup St).

Record wf own pins s : Prop := {
  wf_state : has_state (j_cpp s);
  wf_next : 0 < j_next s;
  wf_heap_range o x : j_heap s !! o = Some x -> 0 < o < j_next s;
  wf_native_range a x : j_native s !! a = Some x ->
    0 < a < j_next s /\ nb_is (j_cpp s) a = false;
  wf_nb_range b : nb_is (j_cpp s) b = true -> 0 < b < j_next s;
  wf_own_range g o : own !! g = Some o -> 0 < g < j_next s;
  wf_counts a : a <> 0 -> owners s a + pinned pins a <= strong (j_refs s) a;
  wf_alive a : 0 < strong (j_refs s) a ->
    is_Some (j_native s !! a) \/ nb_is (j_cpp s) a = true;
  wf_native a x : j_native s !! a = Some x -> native_ok own s a x;
  wf_heap o x : j_heap s !! o = Some x -> obj_ok s o x;
  wf_holders o o' h : j_heap s !! o = Some (JBinder h) -> j_heap s !! o' = Some (JBinder h) ->
    h <> 0 -> o = o';
  wf_keys b : nb_is (j_cpp s) b = true -> NoDup (nb_objects (j_cpp s) b).*1;
  wf_entries b i e : nb_is (j_cpp s) b = true -> (i, e) ∈ nb_objects (j_cpp s) b ->
    entry_ok own s b i e;
  wf_created : 0 <= gNumRefsCreated s <= 200;
  wf_local : gNumLocalRefs s = i32 (count_map is_JavaBBinder (j_native s));
  wf_death : gNumDeathRefs s = i32 (count_map is_Recipient (j_native s));
  wf_proxy : gNumProxyRefs s = i32 (count_map is_OProxy own)
}.

Definition inv pins s : Prop := exists own, wf own pins s.

(** What no step undoes: names are not used again, classes stay. *)
Record evolves s s' : Prop := {
  ev_next : j_next s <= j_next s';
  ev_native a x : j_native s !! a = Some x ->
    nb_is (j_cpp s') a = false /\
    forall y, j_native s' !! a = Some y -> same_kind x y;
  ev_nb b : nb_is (j_cpp s) b = true -> j_native s' !! b = None;
  ev_gone a : a < j_next s -> j_native s !! a = None -> nb_is (j_cpp s) a = false ->
    j_native s' !! a = None /\ nb_is (j_cpp s') a = false;
  ev_heap o x : j_heap s !! o = Some x -> exists y, j_heap s' !! o = Some y /\ same_class x y
}.

(** What the collector does: weak references to unreachable objects go. *)
Record gc_effect s s' : Prop := {
  gc_same : s' = set_j_pending (j_pending s')
              (set_j_heap (j_heap s') (set_j_weaks (j_weaks s') s));
  gc_heap o : j_heap s' !! o = j_heap s !! o \/
    (exists p, j_heap s !! o = Some (JWeakReference p)) /\
    j_heap s' !! o = Some (JWeakReference None);
  gc_weaks g : j_weaks s' !! g = j_weaks s !! g \/
    is_Some (j_weaks s !! g) /\ j_weaks s' !! g = Some None
}.

End Inv.
