(* ===== verification/JniOps.v ===== *)
(** * JniOps: the invariant, update by update

    What each kind of update of [JniWorld]'s state does to the invariant of
    [JniInv]; the methods of [JniBinder] are sequences of these. *)

From S2P Require Import Prelude Parcel CppWorld ProcessState IpcCore BpBinder Proxy RefBase JniWorld JniBinder JniInv.

#[local] Open Scope Z_scope.

(** ** [int32_t] counters *)

Lemma i32_add x y : i32 (i32 x + y) = i32 (x + y).
Proof.
  unfold i32. replace ((x + 2 ^ 31) mod 2 ^ 32 - 2 ^ 31 + y + 2 ^ 31)
    with ((x + 2 ^ 31) mod 2 ^ 32 + y) by lia.
  rewrite Zplus_mod_idemp_l. f_equal. f_equal. lia.
Qed.

(** A counter stepped when [c]. *)
Definition bump (c : bool) (d x : Z) : Z := if c then i32 (x + d) else x.

Lemma bump_i32 c d n : bump c d (i32 n) = i32 (n + d * Z.b2z c).
Proof.
  destruct c; simpl bump; cbn [Z.b2z].
  - rewrite i32_add, Z.mul_1_r. done.
  - by rewrite Z.mul_0_r, Z.add_0_r.
Qed.

Section Ops.
Context `{PL : ParcelLib} `{RB : RefBase}.
Context `{NB : !NativeBinder} `{NL : !NativeLaws} (St : statics).

Implicit Types (s : jni_state) (own : gmap Z owner) (pins : list Z).

#[local] Notation wf := (wf St).
#[local] Notation inv := (inv St).

(** ** Evolution *)

Lemma same_kind_refl x : same_kind x x.
Proof. by destruct x. Qed.
Lemma same_kind_trans x y z : same_kind x y -> same_kind y z -> same_kind x z.
Proof. destruct x, y, z; simpl; try done; congruence. Qed.
Lemma same_class_refl x : same_class x x.
Proof. by destruct x. Qed.
Lemma same_class_trans x y z : same_class x y -> same_class y z -> same_class x z.
Proof. destruct x, y, z; simpl; try done; congruence. Qed.

(** The names are apart. *)
Definition apart s : Prop :=
  (forall a x, j_native s !! a = Some x -> a < j_next s /\ nb_is (j_cpp s) a = false) /\
  (forall b, nb_is (j_cpp s) b = true -> b < j_next s).

Lemma wf_apart own pins s : wf own pins s -> apart s.
Proof.
  intros W. split.
  - intros a x Ha. destruct (wf_native_range _ _ _ _ W a x Ha). split; [lia|done].
  - intros b Hb. destruct (wf_nb_range _ _ _ _ W b Hb). lia.
Qed.

Lemma evolves_refl s : apart s -> evolves s s.
Proof.
  intros [A _]. split; [lia| | |by intros|].
  - intros a x Ha. split; [by destruct (A a x Ha)|]. intros y Hy. simplify_eq.
    apply same_kind_refl.
  - intros b Hb. destruct (j_native s !! b) as [x|] eqn:E; [|done].
    destruct (A b x E). congruence.
  - intros o x Ho. exists x. split; [done|apply same_class_refl].
Qed.

Lemma evolves_trans s1 s2 s3 : apart s1 -> evolves s1 s2 -> evolves s2 s3 -> evolves s1 s3.
Proof.
  intros [A AB] [N1 K1 B1 G1 H1] [N2 K2 B2 G2 H2]. split.
  - lia.
  - intros a x Ha. destruct (K1 a x Ha) as [B Kx]. destruct (A a x Ha) as [R _].
    destruct (j_native s2 !! a) as [y|] eqn:Ey.
    + destruct (K2 a y Ey) as [B' Ky]. split; [done|]. intros z Hz.
      eapply same_kind_trans; [by apply Kx|by apply Ky].
    + destruct (G2 a ltac:(lia) Ey B) as [E' B']. split; [done|]. congruence.
  - intros b Hb. specialize (AB b Hb). specialize (B1 b Hb).
    destruct (nb_is (j_cpp s2) b) eqn:E; [by apply B2|].
    by destruct (G2 b ltac:(lia) B1 E).
  - intros a R Ha Hb. destruct (G1 a R Ha Hb) as [Ha' Hb']. apply G2; [lia|done|done].
  - intros o x Ho. destruct (H1 o x Ho) as (y & Hy & Sy). destruct (H2 o y Hy) as (z & Hz & Sz).
    exists z. split; [done|]. by eapply same_class_trans.
Qed.

(** ** What the parts of the invariant depend on *)

Lemma weak_ok_mono (P : native -> Prop) s s' a :
  (forall x y, P x -> same_kind x y -> P y) ->
  evolves s s' -> weak_ok s P a -> weak_ok s' P a.
Proof.
  intros HP [N K B G H] (R & Hb & HPx). split; [lia|].
  destruct (j_native s !! a) as [x|] eqn:Ea.
  - destruct (K a x Ea) as [Hb' Kx]. split; [done|]. intros y Hy.
    eapply HP; [by apply HPx|by apply Kx].
  - destruct (G a R Ea Hb) as [E' Hb']. split; [done|]. congruence.
Qed.

Lemma is_JavaBBinder_kind x y : is_JavaBBinder x = true -> same_kind x y -> is_JavaBBinder y = true.
Proof. by destruct x, y. Qed.
Lemma is_list_kind x y :
  (exists l, x = DeathRecipientList l) -> same_kind x y -> exists l, y = DeathRecipientList l.
Proof. intros [l ->]. destruct y; simpl; try done. eauto. Qed.

(** The references of [a] are still its own. *)
Definition refs_kept own own' s s' (a : Z) : Prop := forall g o, own !! g = Some o ->
  (o = OBinder a \/ o = ODeath a \/ o = OWeak a) ->
  own' !! g = Some o /\ (o <> OWeak a -> j_globals s' !! g = j_globals s !! g) /\
  (is_Some (j_weaks s !! g) -> is_Some (j_weaks s' !! g)).

Lemma native_ok_mono own own' s s' a x :
  evolves s s' -> refs_kept own own' s s' a ->
  (forall l r g gw, x = DeathRecipientList l -> r ∈ l ->
     j_native s !! r = Some (JavaDeathRecipient g gw a) -> is_Some (j_native s' !! r)) ->
  native_ok own s a x -> native_ok own' s' a x.
Proof.
  intros Ev Rk Hl. destruct x as [g|mb|l|g gw d]; simpl.
  - intros (Ho & Hg & o & h & Hgl & Hh). destruct (Rk g _ Ho ltac:(auto)) as (Ho' & Hgl' & _).
    split; [done|]. split; [done|]. destruct (ev_heap _ _ Ev o _ Hh) as (y & Hy & Sy).
    destruct y; simpl in Sy; try done. exists o. eexists. split; [rewrite Hgl'; done|done].
  - destruct mb; [|done]. apply weak_ok_mono; [apply is_JavaBBinder_kind|done].
  - intros [ND Hm]. split; [done|]. intros r Hr. destruct (Hm r Hr) as (g & gw & Hn).
    destruct (Hl l r g gw eq_refl Hr Hn) as [y Hy].
    destruct (ev_native _ _ Ev r _ Hn) as [_ Hk]. specialize (Hk y Hy).
    destruct y; simpl in Hk; try done. subst. eauto.
  - intros [Hw Hr]. split; [by eapply weak_ok_mono; [apply is_list_kind|..]|].
    case_decide.
    + destruct Hr as [->|[Ho Hs]]; [by left|right].
      destruct (Rk gw _ Ho ltac:(auto)) as (Ho' & _ & Hw'). split; [done|by apply Hw'].
    + destruct Hr as (Ho & o & Hgl & [y Hy]). destruct (Rk g _ Ho ltac:(auto)) as (Ho' & Hgl' & _).
      split; [done|]. destruct (ev_heap _ _ Ev o _ Hy) as (z & Hz & _). exists o.
      split; [rewrite Hgl'; done|by eexists].
Qed.

Lemma obj_ok_mono s s' o x : evolves s s' ->
  (forall h, x = JBinder h -> made_for s o h -> made_for s' o h) ->
  (forall a y, holds a x = true -> j_native s !! a = Some y -> is_Some (j_native s' !! a)) ->
  (forall b, holds b x = true -> nb_is (j_cpp s) b = true -> nb_is (j_cpp s') b = true) ->
  (forall p, is_Some (j_parcels s !! p) -> is_Some (j_parcels s' !! p)) ->
  obj_ok s o x -> obj_ok s' o x.
Proof.
  intros Ev Hm Hn Hb Hp. destruct x as [h|b d r|r|p|c]; simpl; try done.
  - intros [->|[[mb Hh] Hmf]]; [by left|right].
    destruct (Hn h _ ltac:(simpl; by rewrite Z.eqb_refl) Hh) as [y Hy].
    destruct (ev_native _ _ Ev h _ Hh) as [_ Hk]. specialize (Hk y Hy).
    destruct y; simpl in Hk; try done. split; [by eexists|by apply Hm].
  - intros [?|[Hnb [l Hl]]]; [by left|right]. split.
    + apply Hb; [simpl; by rewrite Z.eqb_refl|done].
    + destruct (Hn d _ ltac:(simpl; by rewrite Z.eqb_refl, orb_true_r) Hl) as [y Hy].
      destruct (ev_native _ _ Ev d _ Hl) as [_ Hk]. specialize (Hk y Hy).
      destruct y; simpl in Hk; try done. eauto.
  - intros [->|H]; [by left|right]. by apply Hp.
Qed.

Lemma pinned_nonneg pins a : 0 <= pinned pins a.
Proof. induction pins as [|b l IH]; simpl; [done|]. destruct (a =? b); lia. Qed.

(** An object with an owner is alive. *)
Lemma owned_strong own pins s a : wf own pins s -> a <> 0 -> 1 <= owners s a + pinned pins a ->
  0 < strong (j_refs s) a.
Proof. intros W Ha Ho. pose proof (wf_counts _ _ _ _ W a Ha). lia. Qed.

Lemma owners_nonneg s a : 0 <= owners s a.
Proof.
  unfold owners. pose proof (count_map_nonneg (holds a) (j_heap s)).
  pose proof (count_map_nonneg (lists a) (j_native s)). lia.
Qed.

Lemma owners_heap s a o x : j_heap s !! o = Some x -> holds a x = true -> 1 <= owners s a.
Proof.
  intros Ho Hx. unfold owners. pose proof (count_map_pos _ _ _ _ Ho Hx).
  pose proof (count_map_nonneg (lists a) (j_native s)). lia.
Qed.

Lemma owners_list s a d l : j_native s !! d = Some (DeathRecipientList l) -> a ∈ l ->
  1 <= owners s a.
Proof.
  intros Hd Hl. unfold owners. pose proof (count_map_nonneg (holds a) (j_heap s)).
  pose proof (count_map_pos (lists a) _ _ _ Hd ltac:(simpl; by apply bool_decide_eq_true)). lia.
Qed.

(** ** Updates of one map *)

#[local] Hint Resolve wf_apart evolves_refl : core.

Lemma owners_put_native s a x y b : j_native s !! a = Some x ->
  owners (set_j_native (<[a := y]> (j_native s)) s) b =
  owners s b - Z.b2z (lists b x) + Z.b2z (lists b y).
Proof. intros H. unfold owners. simpl. rewrite (count_map_update _ _ a x y H). lia. Qed.

Lemma owners_put_heap s o x y b : j_heap s !! o = Some x ->
  owners (set_j_heap (<[o := y]> (j_heap s)) s) b =
  owners s b - Z.b2z (holds b x) + Z.b2z (holds b y).
Proof. intros H. unfold owners. simpl. rewrite (count_map_update _ _ o x y H). lia. Qed.

Lemma same_kind_bbinder x y : same_kind x y -> is_JavaBBinder x = is_JavaBBinder y.
Proof. by destruct x, y. Qed.
Lemma same_kind_recipient x y : same_kind x y -> is_Recipient x = is_Recipient y.
Proof. by destruct x, y. Qed.

Lemma put_native_evolves s a x y : apart s -> j_native s !! a = Some x -> same_kind x y ->
  evolves s (set_j_native (<[a := y]> (j_native s)) s).
Proof.
  intros A Ha K. pose proof (evolves_refl s A) as [N1 K1 B1 G1 H1]. split; simpl; [done| | | |done].
  - intros b z Hb. split; [by apply (K1 b z)|]. intros y' Hy. destruct (decide (b = a)) as [->|D].
    + rewrite lookup_insert_eq in Hy. by simplify_eq.
    + rewrite lookup_insert_ne in Hy by done. simplify_eq. apply same_kind_refl.
  - intros b Hb. destruct A as [A _]. destruct (A a x Ha) as [_ Hn].
    rewrite lookup_insert_ne by congruence. by apply B1.
  - intros b R Hb Hn. rewrite lookup_insert_ne by congruence. done.
Qed.

Lemma wf_put_native own pins pins' s a x y :
  wf own pins s -> j_native s !! a = Some x -> same_kind x y ->
  native_ok own (set_j_native (<[a := y]> (j_native s)) s) a y ->
  (forall o, j_heap s !! o = Some (JBinder a) -> a <> 0 ->
     made_for (set_j_native (<[a := y]> (j_native s)) s) o a) ->
  (forall b, b <> 0 ->
     Z.b2z (lists b y) + pinned pins' b <= Z.b2z (lists b x) + pinned pins b) ->
  wf own pins' (set_j_native (<[a := y]> (j_native s)) s).
Proof.
  intros W Ha K Hok Hmf Hc.
  assert (evolves s (set_j_native (<[a := y]> (j_native s)) s)) as Ev
    by (eapply put_native_evolves; eauto).
  destruct W. split; simpl; try done.
  - intros b z Hb. destruct (decide (b = a)) as [->|D]; [by eapply wf_native_range|].
    rewrite lookup_insert_ne in Hb by done. by eapply wf_native_range.
  - intros b Hb. rewrite (owners_put_native s a x y b Ha).
    specialize (wf_counts b Hb). specialize (Hc b Hb). lia.
  - intros b Hb. destruct (wf_alive b Hb) as [Hs|Hs]; [left|by right].
    destruct (decide (b = a)) as [->|D]; [rewrite lookup_insert_eq; by eexists|].
    by rewrite lookup_insert_ne.
  - intros b z Hb. destruct (decide (b = a)) as [->|D].
    + rewrite lookup_insert_eq in Hb. by simplify_eq.
    + rewrite lookup_insert_ne in Hb by done.
      apply (native_ok_mono own own s _ b z); [done|by intros g o|..|by apply wf_native].
      intros l r g gw _ _ Hr. simpl. destruct (decide (r = a)) as [->|D'];
        [rewrite lookup_insert_eq; by eexists|rewrite lookup_insert_ne by done; by eexists].
  - intros o z Ho. apply (obj_ok_mono s _ o z); [done|..|done|done|by eapply wf_heap].
    + intros h -> Hm. destruct (wf_native_range a x Ha) as [Hr _].
      destruct (decide (h = a)) as [->|D]; [apply Hmf; [done|lia]|].
      intros j g. simpl. rewrite lookup_insert_ne by done. intros Hh Hj.
      destruct (decide (j = a)) as [->|D']; [|rewrite lookup_insert_ne in Hj by done; by apply (Hm j)].
      rewrite lookup_insert_eq in Hj. simplify_eq. destruct x; simpl in K; try done. subst.
      by apply (Hm a).
    + intros b v _ Hb. simpl. destruct (decide (b = a)) as [->|D];
        [rewrite lookup_insert_eq; by eexists|rewrite lookup_insert_ne by done; by eexists].
  - by rewrite (count_map_update _ _ a x y Ha), <- (same_kind_bbinder x y K), Z.sub_simpl_r.
  - by rewrite (count_map_update _ _ a x y Ha), <- (same_kind_recipient x y K), Z.sub_simpl_r.
Qed.

Lemma put_heap_evolves s o x y : apart s -> j_heap s !! o = Some x -> same_class x y ->
  evolves s (set_j_heap (<[o := y]> (j_heap s)) s).
Proof.
  intros A Ho K. pose proof (evolves_refl s A) as [N1 K1 B1 G1 H1]. split; simpl; try done.
  intros o' z Hz. destruct (decide (o' = o)) as [->|D].
  - rewrite lookup_insert_eq. exists y. by simplify_eq.
  - rewrite lookup_insert_ne by done. exists z. split; [done|apply same_class_refl].
Qed.

Lemma wf_put_heap own pins pins' s o x y :
  wf own pins s -> j_heap s !! o = Some x -> same_class x y -> obj_ok s o y ->
  (forall h o', y = JBinder h -> h <> 0 -> j_heap s !! o' = Some (JBinder h) -> o' = o) ->
  (forall r, x <> JWeakReference r) ->
  (forall b d r, x = JBinderProxy b d r -> b <> 0 ->
     (exists d' r', y = JBinderProxy b d' r') \/
     forall w, j_heap s !! w <> Some (JWeakReference (Some o))) ->
  (forall b, b <> 0 ->
     Z.b2z (holds b y) + pinned pins' b <= Z.b2z (holds b x) + pinned pins b) ->
  wf own pins' (set_j_heap (<[o := y]> (j_heap s)) s).
Proof.
  intros W Ho K Hok Huq Hnw Hp Hc.
  assert (evolves s (set_j_heap (<[o := y]> (j_heap s)) s)) as Ev
    by (eapply put_heap_evolves; eauto).
  destruct W. split; simpl; try done.
  - intros o' z Hz. destruct (decide (o' = o)) as [->|D]; [by eapply wf_heap_range|].
    rewrite lookup_insert_ne in Hz by done. by eapply wf_heap_range.
  - intros b Hb. rewrite (owners_put_heap s o x y b Ho).
    specialize (wf_counts b Hb). specialize (Hc b Hb). lia.
  - intros b z Hb. apply (native_ok_mono own own s _ b z); [done|by intros g ow|..|by apply wf_native].
    intros l r g gw _ _ Hr. by eexists.
  - intros o' z Hz. destruct (decide (o' = o)) as [->|D].
    + rewrite lookup_insert_eq in Hz. by simplify_eq.
    + rewrite lookup_insert_ne in Hz by done.
      apply (obj_ok_mono s _ o' z); [done|done|..|done|done|by eapply wf_heap].
      intros b v _ Hb. by eexists.
  - intros o1 o2 h. rewrite !lookup_insert_Some.
    intros [[<- E1]|[D1 H1]] [[<- E2]|[D2 H2]] Hh; [done|..|by eapply wf_holders].
    + symmetry. by eapply Huq.
    + by eapply Huq.
  - intros b i e Hb He. specialize (wf_entries b i e Hb He). revert wf_entries. unfold entry_ok.
    case_decide; [|done]. unfold proxy_entry. simpl. intros (Hf & Hz & Hw & w & ref & Hg & Hw' & Hr).
    split; [done|]. split; [done|]. split; [done|]. exists w, ref. split; [done|].
    destruct (decide (w = o)) as [->|D]; [by simplify_eq; destruct (Hnw ref)|].
    rewrite lookup_insert_ne by done. split; [done|]. intros p ->.
    destruct (Hr p eq_refl) as (d & r & Hpx). destruct (decide (p = o)) as [->|D'].
    + pose proof (wf_nb_range b Hb) as Hbr.
      rewrite lookup_insert_eq. simplify_eq. destruct (Hp b d r eq_refl ltac:(lia)) as [(d' & r' & ->)|Hno]; [eauto|].
      by destruct (Hno w).
    + rewrite lookup_insert_ne by done. eauto.
Qed.

(** ** Updates that leave the maps alone *)

Lemma wf_refs own pins pins' s r :
  wf own pins s ->
  (forall b, b <> 0 -> owners s b + pinned pins' b <= strong r b) ->
  (forall b, 0 < strong r b -> is_Some (j_native s !! b) \/ nb_is (j_cpp s) b = true) ->
  wf own pins' (set_j_refs r s).
Proof. intros W Hc Ha. destruct W. by split. Qed.

Lemma wf_pending own pins s v : wf own pins s -> wf own pins (set_j_pending v s).
Proof. intros W. destruct W. by split. Qed.

Lemma wf_set_created own pins s v : 0 <= v <= 200 -> wf own pins s ->
  wf own pins (set_gNumRefsCreated v s).
Proof. intros Hv W. destruct W. by split. Qed.

Lemma wf_inc own pins s a : wf own pins s -> a <> 0 ->
  is_Some (j_native s !! a) \/ nb_is (j_cpp s) a = true ->
  forall r, (forall b, strong r b = strong (j_refs s) b + (if b =? a then 1 else 0)) ->
  wf own (a :: pins) (set_j_refs r s).
Proof.
  intros W Ha Hal r Hr. apply (wf_refs own pins); [done|..].
  - intros b Hb. simpl. rewrite Hr. pose proof (wf_counts _ _ _ _ W b Hb). lia.
  - intros b Hb. rewrite Hr in Hb. destruct (Z.eqb_spec b a) as [E|]; [by rewrite E|].
    apply (wf_alive _ _ _ _ W). lia.
Qed.

Lemma wf_dec own pins s a : wf own (a :: pins) s -> a <> 0 ->
  1 <= strong (j_refs s) a /\ wf own pins (set_j_refs (rb_decStrong a (j_refs s)).1 s).
Proof.
  intros W Ha. assert (1 <= strong (j_refs s) a) as H1.
  { pose proof (wf_counts _ _ _ _ W a Ha) as Hc. simpl in Hc. rewrite Z.eqb_refl in Hc.
    pose proof (owners_nonneg s a). pose proof (pinned_nonneg pins a). lia. }
  split; [done|]. apply (wf_refs own (a :: pins)); [done|..].
  - intros b Hb. rewrite strong_dec by done. pose proof (wf_counts _ _ _ _ W b Hb) as Hc.
    simpl in Hc. lia.
  - intros b Hb. rewrite strong_dec in Hb by done. apply (wf_alive _ _ _ _ W).
    destruct (b =? a); lia.
Qed.

(** The order of the pins does not matter. *)
Lemma wf_pins own pins pins' s : wf own pins s ->
  (forall a, pinned pins' a <= pinned pins a) -> wf own pins' s.
Proof.
  intros W Hp. destruct W. split; try done. intros a Ha. specialize (wf_counts a Ha).
  specialize (Hp a). lia.
Qed.

Lemma wf_world own pins s w : wf own pins s -> has_state w ->
  (forall b, nb_is w b = nb_is (j_cpp s) b) ->
  (forall b, nb_objects w b = nb_objects (j_cpp s) b) ->
  wf own pins (set_j_cpp w s) /\ evolves s (set_j_cpp w s).
Proof.
  intros W Hw Hb Ho.
  assert (evolves s (set_j_cpp w s)) as Ev.
  { pose proof (evolves_refl s ltac:(eauto)) as [N1 K1 B1 G1 H1]. split; simpl; try done.
    - intros a x Ha. rewrite Hb. by apply K1.
    - intros a R Ha Hn. rewrite Hb. by apply G1. }
  split; [|done]. destruct W. split; simpl; try done.
  - intros a x Ha. rewrite Hb. by eapply wf_native_range.
  - intros b. rewrite Hb. apply wf_nb_range.
  - intros a. rewrite Hb. apply wf_alive.
  - intros a x Ha. apply (native_ok_mono own own s _ a x); [done|by intros g ow|..|by apply wf_native].
    intros l r g gw _ _ Hr. by eexists.
  - intros o x Hx. apply (obj_ok_mono s _ o x); [done|done|by intros; eexists| |done|by eapply wf_heap].
    intros b _. by rewrite <- Hb.
  - intros b. rewrite Hb, Ho. apply wf_keys.
  - intros b i e. rewrite Hb, Ho. apply wf_entries.
Qed.

(** A step below the layer that does not touch the binders. *)
Lemma wf_quiet own pins s w : wf own pins s -> has_state w ->
  w_proxies w = w_proxies (j_cpp s) ->
  wf own pins (set_j_cpp w s) /\ evolves s (set_j_cpp w s).
Proof. intros W Hw Hp. destruct (nb_frame _ _ Hp). by apply wf_world. Qed.

(** ** The collector *)

Lemma gc_evolves s s' : apart s -> gc_effect s s' -> evolves s s'.
Proof.
  intros A [Hs Hh Hw]. pose proof (evolves_refl s A) as [N1 K1 B1 G1 H1].
  rewrite Hs. split; simpl; try done.
  intros o x Ho. destruct (Hh o) as [E|[[p E] E']].
  - rewrite E. exists x. split; [done|apply same_class_refl].
  - rewrite E'. eexists. split; [done|]. by simplify_eq.
Qed.

Lemma gc_holds s s' a : gc_effect s s' ->
  count_map (holds a) (j_heap s') = count_map (holds a) (j_heap s).
Proof.
  intros [_ Hh _]. apply count_map_same, map_eq. intros o. rewrite !lookup_fmap.
  destruct (Hh o) as [E|[[p E] E']]; [by rewrite E|by rewrite E, E'].
Qed.

Lemma wf_gc own pins s s' : wf own pins s -> gc_effect s s' -> wf own pins s'.
Proof.
  intros W Hgc. assert (evolves s s') as Ev by (apply gc_evolves; eauto).
  pose proof (gc_holds s s') as Hown. destruct Hgc as [Hs Hh Hw].
  assert (j_cpp s' = j_cpp s) as Ec by (by rewrite Hs).
  assert (j_native s' = j_native s) as En by (by rewrite Hs).
  assert (j_refs s' = j_refs s) as Er by (by rewrite Hs).
  assert (j_next s' = j_next s) as Ex by (by rewrite Hs).
  assert (j_globals s' = j_globals s) as Eg by (by rewrite Hs).
  assert (forall o x, j_heap s' !! o = Some x -> exists y, j_heap s !! o = Some y /\
    (x = y \/ (exists p, y = JWeakReference p) /\ x = JWeakReference None)) as Hinv.
  { intros o x Ho. destruct (Hh o) as [E|[[p E] E']].
    - rewrite E in Ho. exists x. eauto.
    - rewrite E' in Ho. simplify_eq. exists (JWeakReference p). split; [done|right]. by split; [eexists|]. }
  assert (gNumRefsCreated s' = gNumRefsCreated s /\ gNumLocalRefs s' = gNumLocalRefs s /\
    gNumDeathRefs s' = gNumDeathRefs s /\ gNumProxyRefs s' = gNumProxyRefs s /\
    j_parcels s' = j_parcels s) as (E1 & E2 & E3 & E4 & E5) by (by rewrite Hs).
  destruct W. split; rewrite ?Ec, ?En, ?Er, ?Ex, ?E1, ?E2, ?E3, ?E4; try done.
  - intros o x Ho. destruct (Hinv o x Ho) as (y & Hy & _). by eapply wf_heap_range.
  - intros a Ha. unfold owners. rewrite En, Hown by done. by apply wf_counts.
  - intros a x Ha. apply (native_ok_mono own own s _ a x); [done|..|by apply wf_native].
    + intros g o Ho _. split; [done|]. split; [by rewrite Eg|]. intros Hg.
      destruct (Hw g) as [E|[_ E]]; rewrite E; [done|by eexists].
    + intros l r g gw _ _ Hr. rewrite En. by eexists.
  - intros o x Ho. destruct (Hinv o x Ho) as (y & Hy & [->|[_ ->]]); [|done].
    apply (obj_ok_mono s _ o y); [done|..|by eapply wf_heap].
    + intros h _ Hm j g. rewrite En, Eg. apply Hm.
    + intros a v _ Ha. rewrite En. by eexists.
    + intros b _. by rewrite Ec.
    + by rewrite E5.
  - intros o o' h Ho Ho' Hz. destruct (Hinv o _ Ho) as (y & Hy & [<-|[_ ?]]); [|done].
    destruct (Hinv o' _ Ho') as (y' & Hy' & [<-|[_ ?]]); [|done]. by eapply wf_holders.
  - intros b i e Hb He. specialize (wf_entries b i e Hb He). revert wf_entries. unfold entry_ok.
    case_decide; [|done]. unfold proxy_entry. rewrite Eg. intros (Hf & Hz & Hw' & w & ref & Hg & Hr & Hp).
    split; [done|]. split; [done|]. split; [done|]. exists w.
    destruct (Hh w) as [E|[_ E]]; [|by exists None].
    exists ref. split; [done|]. split; [by rewrite E|]. intros p Hpe.
    destruct (Hp p Hpe) as (d & r & Hpx). destruct (ev_heap _ _ Ev p _ Hpx) as (y & Hy & Sy).
    destruct (Hinv p y Hy) as (z & Hz' & [->|[[q ->] ->]]); simplify_eq. eauto.
Qed.

(** ** References of the Java Native Interface *)

Lemma own_fresh own pins s : wf own pins s -> own !! j_next s = None.
Proof.
  intros W. destruct (own !! j_next s) as [o|] eqn:E; [|done].
  destruct (wf_own_range _ _ _ _ W _ _ E). lia.
Qed.

(** Names may be skipped. *)
Lemma next_evolves s n : apart s -> j_next s <= n -> evolves s (set_j_next n s).
Proof. intros A Hn. pose proof (evolves_refl s A) as [N1 K1 B1 G1 H1]. by split. Qed.

Lemma weak_ok_next (P : native -> Prop) s s' a : j_next s <= j_next s' -> j_cpp s' = j_cpp s ->
  j_native s' = j_native s -> weak_ok s P a -> weak_ok s' P a.
Proof. intros Hn Hc Hna (R & Hb & HP). unfold weak_ok. rewrite Hc, Hna. split; [lia|done]. Qed.

Lemma wf_new_ref own pins s s' o gl wk p :
  wf own pins s -> p = bump (is_OProxy o) 1 (gNumProxyRefs s) ->
  (gl = j_globals s \/ exists v, gl = <[j_next s := v]> (j_globals s)) ->
  (wk = j_weaks s \/ exists v, wk = <[j_next s := v]> (j_weaks s)) ->
  s' = set_gNumProxyRefs p
    (set_j_globals gl (set_j_weaks wk (set_j_next (j_next s + 1) s))) ->
  wf (<[j_next s := o]> own) pins s' /\ evolves s s'.
Proof.
  intros W Hp Hgl Hwk ->.
  assert (evolves s (set_gNumProxyRefs p
    (set_j_globals gl (set_j_weaks wk (set_j_next (j_next s + 1) s))))) as Ev.
  { pose proof (evolves_refl s ltac:(eauto)) as [N1 K1 B1 G1 H1]. split; simpl; try done. lia. }
  split; [|done]. pose proof (own_fresh _ _ _ W) as Hf. destruct W. split; simpl; try done.
  - lia.
  - intros o' x Hx. specialize (wf_heap_range o' x Hx). lia.
  - intros a x Ha. destruct (wf_native_range a x Ha). split; [lia|done].
  - intros b Hb. specialize (wf_nb_range b Hb). lia.
  - intros g ow Hg. destruct (decide (g = j_next s)) as [->|D]; [lia|].
    rewrite lookup_insert_ne in Hg by done. specialize (wf_own_range g ow Hg). lia.
  - intros a x Ha. apply (native_ok_mono own _ s _ a x); [done|..|by apply wf_native].
    + intros g ow Hg _. destruct (decide (g = j_next s)) as [->|D]; [congruence|].
      rewrite lookup_insert_ne by done. split; [done|]. simpl. split.
      * intros _. destruct Hgl as [->|[v ->]]; [done|by rewrite lookup_insert_ne].
      * destruct Hwk as [->|[v ->]]; [done|by rewrite lookup_insert_ne].
    + intros l r g gw _ _ Hr. by eexists.
  - intros o' x Hx. apply (obj_ok_mono s _ o' x); [done|..|done|done|by eapply wf_heap].
    + intros h _ Hm j g Hh Hj. specialize (Hm j g Hh Hj). destruct (wf_native j _ Hj) as [Hg _].
      specialize (wf_own_range g _ Hg). simpl. destruct Hgl as [->|[v ->]]; [done|].
      by rewrite lookup_insert_ne by lia.
    + intros b v _ Hb. by eexists.
  - intros b i e Hb He. specialize (wf_entries b i e Hb He). revert wf_entries. unfold entry_ok.
    case_decide; [|done]. unfold proxy_entry. simpl. intros (Hfn & Hz & Hw & w & ref & Hg & Hr).
    specialize (wf_own_range _ _ Hw). split; [done|]. split; [done|].
    rewrite lookup_insert_ne by lia. split; [done|]. exists w, ref.
    destruct Hgl as [->|[v ->]]; [done|]. by rewrite lookup_insert_ne by lia.
  - rewrite Hp, wf_proxy, (count_map_new _ _ _ _ Hf), bump_i32; f_equal; lia.
Qed.

Lemma wf_new_global own pins s o v : wf own pins s -> is_OProxy o = false ->
  wf (<[j_next s := o]> own) pins
     (set_j_globals (<[j_next s := v]> (j_globals s)) (set_j_next (j_next s + 1) s)) /\
  evolves s (set_j_globals (<[j_next s := v]> (j_globals s)) (set_j_next (j_next s + 1) s)).
Proof.
  intros W Ho. eapply (wf_new_ref own pins s _ o _ (j_weaks s) (gNumProxyRefs s));
    [done|by rewrite Ho|right; by exists v|by left|reflexivity].
Qed.

Lemma wf_new_weak own pins s o v : wf own pins s -> is_OProxy o = false ->
  wf (<[j_next s := o]> own) pins
     (set_j_weaks (<[j_next s := v]> (j_weaks s)) (set_j_next (j_next s + 1) s)) /\
  evolves s (set_j_weaks (<[j_next s := v]> (j_weaks s)) (set_j_next (j_next s + 1) s)).
Proof.
  intros W Ho. eapply (wf_new_ref own pins s _ o (j_globals s) _ (gNumProxyRefs s));
    [done|by rewrite Ho|by left|right; by exists v|reflexivity].
Qed.

(** A reference its owner no longer uses. *)
Definition unused s (g : Z) (o : owner) : Prop :=
  match o with
  | OBinder b => forall g', j_native s !! b <> Some (JavaBBinder g')
  | ODeath r => forall gw d, j_native s !! r <> Some (JavaDeathRecipient g gw d)
  | OWeak r => forall d, j_native s !! r <> Some (JavaDeathRecipient 0 g d)
  | OProxy b => nb_is (j_cpp s) b = false \/
      forall e, (gBinderProxyOffsets St, e) ∈ nb_objects (j_cpp s) b -> oe_object e <> g
  end.

Lemma wf_del_ref own pins s s' g o p :
  wf own pins s -> own !! g = Some o -> unused s g o ->
  s' = set_gNumProxyRefs p (set_j_globals (j_globals s') (set_j_weaks (j_weaks s') s)) ->
  (forall g', g' <> g -> j_globals s' !! g' = j_globals s !! g') ->
  (forall g', g' <> g -> j_weaks s' !! g' = j_weaks s !! g') ->
  p = bump (is_OProxy o) (-1) (gNumProxyRefs s) ->
  wf (delete g own) pins s' /\ evolves s s'.
Proof.
  intros W Hg Hu Hs Hgl Hwk Hp.
  assert (evolves s s') as Ev.
  { rewrite Hs. pose proof (evolves_refl s ltac:(eauto)) as [N1 K1 B1 G1 H1]. by split. }
  split; [|done]. rewrite Hs in Ev |- *. clear Hs. revert Ev.
  generalize (j_globals s') (j_weaks s') Hgl Hwk. clear s' Hgl Hwk. intros gl wk Hgl Hwk Ev.
  destruct W. split; simpl; try done.
  - intros g' ow. rewrite lookup_delete_Some. intros [_ H]. by eapply wf_own_range.
  - intros a x Ha. specialize (wf_native a x Ha).
    assert (forall l r g gw, x = DeathRecipientList l -> r ∈ l ->
      j_native s !! r = Some (JavaDeathRecipient g gw a) -> is_Some (j_native s !! r)) as Hl
      by (intros; by eexists).
    destruct x as [g'|mb|l|g' gw d].
    + destruct wf_native as (Ho & Hz & Hr). assert (g' <> g) as D.
      { intros ->. simplify_eq. by destruct (Hu g). }
      split; [by rewrite lookup_delete_ne|]. simpl. by rewrite Hgl.
    + exact wf_native.
    + exact wf_native.
    + destruct wf_native as [Hw Hr]. split; [exact Hw|]. case_decide as D0; [subst g'|].
      * destruct Hr as [->|[Ho Hws]]; [by left|right]. assert (gw <> g) as D.
        { intros ->. simplify_eq. by destruct (Hu d). }
        simpl. rewrite lookup_delete_ne, Hwk by done. done.
      * destruct Hr as [Ho Hr]. assert (g' <> g) as D.
        { intros ->. simplify_eq. by destruct (Hu gw d). }
        simpl. rewrite lookup_delete_ne, Hgl by done. done.
  - intros o' x Hx. apply (obj_ok_mono s _ o' x); [done|..|done|done|by eapply wf_heap].
    + intros h _ Hm j g' Hh Hj. specialize (Hm j g' Hh Hj). destruct (wf_native j _ Hj) as [Hg' _].
      simpl. rewrite Hgl; [done|]. intros ->. simplify_eq. by destruct (Hu g).
    + intros b v _ Hb. by eexists.
  - intros b i e Hb He. specialize (wf_entries b i e Hb He). revert wf_entries. unfold entry_ok.
    case_decide as Hi; [|done]. unfold proxy_entry. simpl. intros (Hfn & Hz & Hw & w & ref & Hg' & Hr).
    assert (oe_object e <> g) as D.
    { intros D. rewrite D in Hw. simplify_eq. destruct Hu as [Hu|Hu]; [congruence|]. by destruct (Hu e). }
    rewrite lookup_delete_ne, Hgl by done. split; [done|]. split; [done|]. split; [done|]. by exists w, ref.
  - rewrite Hp, wf_proxy, (count_map_remove _ _ g o Hg), bump_i32; f_equal; lia.
Qed.

(** ** Native objects come and go *)

Lemma wf_new_native own pins s s' x :
  wf own pins s ->
  s' = set_gNumLocalRefs (gNumLocalRefs s') (set_gNumDeathRefs (gNumDeathRefs s')
    (set_j_native (<[j_next s := x]> (j_native s)) (set_j_next (j_next s + 1) s))) ->
  gNumLocalRefs s' = bump (is_JavaBBinder x) 1 (gNumLocalRefs s) ->
  gNumDeathRefs s' = bump (is_Recipient x) 1 (gNumDeathRefs s) ->
  native_ok own s' (j_next s) x -> (forall r, lists r x = false) ->
  wf own pins s' /\ evolves s s'.
Proof.
  intros W Hs Hlo Hde Hok Hli.
  assert (j_native s !! j_next s = None) as Hf.
  { destruct (j_native s !! j_next s) as [y|] eqn:E; [|done].
    destruct (wf_native_range _ _ _ _ W _ _ E). lia. }
  assert (nb_is (j_cpp s) (j_next s) = false) as Hnb.
  { destruct (nb_is (j_cpp s) (j_next s)) eqn:E; [|done].
    pose proof (wf_nb_range _ _ _ _ W _ E). lia. }
  assert (evolves s s') as Ev.
  { rewrite Hs. pose proof (evolves_refl s ltac:(eauto)) as [N1 K1 B1 G1 H1].
    split; simpl; try done; [lia|..].
    - intros a y Ha. split; [by apply (K1 a y)|]. rewrite lookup_insert_ne by congruence.
      intros z Hz. simplify_eq. apply same_kind_refl.
    - intros b Hb. rewrite lookup_insert_ne by congruence. by apply B1.
    - intros a R Ha Hb. rewrite lookup_insert_ne by lia. done. }
  split; [|done]. revert Hok Ev. rewrite Hlo, Hde in Hs. rewrite Hs. clear Hs Hlo Hde s'.
  intros Hok Ev. destruct W. split; simpl; try done.
  - lia.
  - intros o z Ho. specialize (wf_heap_range o z Ho). lia.
  - intros a z Ha. destruct (decide (a = j_next s)) as [->|D]; [split; [lia|done]|].
    rewrite lookup_insert_ne in Ha by done. destruct (wf_native_range a z Ha). split; [lia|done].
  - intros b Hb. specialize (wf_nb_range b Hb). lia.
  - intros g o Hg. specialize (wf_own_range g o Hg). lia.
  - intros a Ha. specialize (wf_counts a Ha). unfold owners in *. simpl.
    rewrite count_map_new, Hli by done. simpl. lia.
  - intros a Ha. destruct (wf_alive a Ha) as [[z Hz]|Hb]; [left|by right].
    rewrite lookup_insert_ne by congruence. by eexists.
  - intros a z Ha. destruct (decide (a = j_next s)) as [->|D].
    + rewrite lookup_insert_eq in Ha. simplify_eq. exact Hok.
    + rewrite lookup_insert_ne in Ha by done.
      apply (native_ok_mono own own s _ a z); [done|by intros g ow|..|by apply wf_native].
      intros l r g gw _ _ Hr. simpl. rewrite lookup_insert_ne by congruence. by eexists.
  - intros o z Ho. apply (obj_ok_mono s _ o z); [done|..|done|done|by eapply wf_heap].
    + intros h Hz Hm j g. simpl. intros Hh Hj.
      destruct (decide (h = j_next s)) as [->|D].
      { rewrite lookup_insert_eq in Hh. simplify_eq.
        specialize (wf_heap o _ Ho). destruct wf_heap as [?|[[mb ?] _]]; [lia|congruence]. }
      rewrite lookup_insert_ne in Hh by done. destruct (wf_native h _ Hh) as [Hjr _].
      rewrite lookup_insert_ne in Hj by lia. by apply (Hm j).
    + intros a y _ Ha. simpl. rewrite lookup_insert_ne by congruence. by eexists.
  - rewrite count_map_new, wf_local, bump_i32 by done; f_equal; lia.
  - rewrite count_map_new, wf_death, bump_i32 by done; f_equal; lia.
Qed.

Lemma wf_del_native own pins s s' a x :
  wf own pins s -> j_native s !! a = Some x -> strong (j_refs s) a <= 0 ->
  s' = set_gNumLocalRefs (gNumLocalRefs s') (set_gNumDeathRefs (gNumDeathRefs s')
    (set_j_native (delete a (j_native s)) s)) ->
  gNumLocalRefs s' = bump (is_JavaBBinder x) (-1) (gNumLocalRefs s) ->
  gNumDeathRefs s' = bump (is_Recipient x) (-1) (gNumDeathRefs s) ->
  wf own pins s' /\ evolves s s'.
Proof.
  intros W Ha Hst Hs Hlo Hde. destruct (wf_native_range _ _ _ _ W _ _ Ha) as [Hr Hnb].
  assert (owners s a <= 0) as Ho.
  { pose proof (wf_counts _ _ _ _ W a ltac:(lia)). pose proof (pinned_nonneg pins a). lia. }
  assert (evolves s s') as Ev.
  { rewrite Hs. pose proof (evolves_refl s ltac:(eauto)) as [N1 K1 B1 G1 H1].
    split; simpl; try done.
    - intros b y Hb. split; [by apply (K1 b y)|]. intros z. rewrite lookup_delete_Some.
      intros [_ Hz]. simplify_eq. apply same_kind_refl.
    - intros b Hb. rewrite lookup_delete_None. right. by apply B1.
    - intros b R Hb Hn. rewrite lookup_delete_None. auto. }
  split; [|done]. revert Ev. rewrite Hlo, Hde in Hs. rewrite Hs. clear Hs Hlo Hde s'. intros Ev.
  destruct W. split; simpl; try done.
  - intros b y. rewrite lookup_delete_Some. intros [_ Hb]. by eapply wf_native_range.
  - intros b Hb. specialize (wf_counts b Hb). unfold owners in *. simpl.
    rewrite (count_map_remove _ _ a x Ha). destruct (lists b x); simpl; lia.
  - intros b Hb. destruct (decide (b = a)) as [->|D]; [lia|]. rewrite lookup_delete_ne by done.
    by apply wf_alive.
  - intros b y. rewrite lookup_delete_Some. intros [D Hb].
    apply (native_ok_mono own own s _ b y); [done|by intros g ow|..|by apply wf_native].
    intros l r g gw -> Hr' Hn. simpl. rewrite lookup_delete_ne; [by eexists|]. intros ->.
    pose proof (owners_list s r b l Hb Hr'). lia.
  - intros o y Ho'. apply (obj_ok_mono s _ o y); [done|..|done|done|by eapply wf_heap].
    + intros h _ Hm j g. simpl. rewrite !lookup_delete_Some. intros [_ Hh] [_ Hj]. by apply (Hm j).
    + intros b z Hh Hb. simpl. rewrite lookup_delete_ne; [by eexists|]. intros ->.
      pose proof (owners_heap s b o y Ho' Hh). lia.
  - rewrite (count_map_remove _ _ a x Ha), wf_local, bump_i32; f_equal; lia.
  - rewrite (count_map_remove _ _ a x Ha), wf_death, bump_i32; f_equal; lia.
Qed.

(** ** The binders below *)

Lemma wf_objects own pins s w : wf own pins s -> has_state w ->
  (forall b, nb_is w b = nb_is (j_cpp s) b) ->
  (forall b, nb_is (j_cpp s) b = true -> NoDup (nb_objects w b).*1 /\
     forall i e, (i, e) ∈ nb_objects w b -> entry_ok St own s b i e) ->
  wf own pins (set_j_cpp w s) /\ evolves s (set_j_cpp w s).
Proof.
  intros W Hw Hb Ho.
  assert (evolves s (set_j_cpp w s)) as Ev.
  { pose proof (evolves_refl s ltac:(eauto)) as [N1 K1 B1 G1 H1]. split; simpl; try done.
    - intros a x Ha. rewrite Hb. by apply K1.
    - intros a R Ha Hn. rewrite Hb. by apply G1. }
  split; [|done]. destruct W. split; simpl; try done.
  - intros a x Ha. rewrite Hb. by eapply wf_native_range.
  - intros b. rewrite Hb. apply wf_nb_range.
  - intros a. rewrite Hb. apply wf_alive.
  - intros a x Ha. apply (native_ok_mono own own s _ a x); [done|by intros g ow|..|by apply wf_native].
    intros l r g gw _ _ Hr. by eexists.
  - intros o x Hx. apply (obj_ok_mono s _ o x); [done|done|by intros; eexists| |done|by eapply wf_heap].
    intros b _. by rewrite <- Hb.
  - intros b. rewrite Hb. intros H. by apply Ho.
  - intros b i e. rewrite Hb. intros H He. by apply Ho.
Qed.

(** A binder that is not referred to goes. *)
Lemma wf_nb_gone own pins s w b : wf own pins s -> has_state w ->
  nb_is (j_cpp s) b = true -> strong (j_refs s) b <= 0 ->
  (forall b', nb_is w b' = nb_is (j_cpp s) b' && negb (b' =? b)) ->
  (forall b', b' <> b -> nb_objects w b' = nb_objects (j_cpp s) b') ->
  wf own pins (set_j_cpp w s) /\ evolves s (set_j_cpp w s).
Proof.
  intros W Hw Hnb Hst Hb Ho. pose proof (wf_nb_range _ _ _ _ W b Hnb) as Hr.
  assert (owners s b <= 0) as Hown.
  { pose proof (wf_counts _ _ _ _ W b ltac:(lia)). pose proof (pinned_nonneg pins b). lia. }
  assert (forall a, nb_is (j_cpp s) a = false -> nb_is w a = false) as Hf.
  { intros a Ha. by rewrite Hb, Ha. }
  assert (forall a, nb_is w a = true -> nb_is (j_cpp s) a = true /\ a <> b) as Ht.
  { intros a. rewrite Hb, andb_true_iff, negb_true_iff, Z.eqb_neq. done. }
  assert (evolves s (set_j_cpp w s)) as Ev.
  { pose proof (evolves_refl s ltac:(eauto)) as [N1 K1 B1 G1 H1]. split; simpl; try done.
    - intros a x Ha. split; [by apply Hf, (K1 a x)|by apply (K1 a x)].
    - intros a R Ha Hn. split; [done|by apply Hf]. }
  split; [|done]. destruct W. split; simpl; try done.
  - intros a x Ha. destruct (wf_native_range a x Ha). split; [done|by apply Hf].
  - intros a Ha. apply wf_nb_range, Ht, Ha.
  - intros a Ha. destruct (wf_alive a Ha) as [?|Hn]; [by left|right].
    rewrite Hb, Hn. simpl. apply negb_true_iff, Z.eqb_neq. intros ->. lia.
  - intros a x Ha. apply (native_ok_mono own own s _ a x); [done|by intros g ow|..|by apply wf_native].
    intros l r g gw _ _ Hr'. by eexists.
  - intros o x Hx. apply (obj_ok_mono s _ o x); [done|done|by intros; eexists| |done|by eapply wf_heap].
    intros a Hh Hn. simpl. rewrite Hb, Hn. simpl. apply negb_true_iff, Z.eqb_neq. intros ->.
    pose proof (owners_heap s b o x Hx Hh). lia.
  - intros a Ha. destruct (Ht a Ha) as [Hn D]. rewrite Ho by done. by apply wf_keys.
  - intros a i e Ha He. destruct (Ht a Ha) as [Hn D]. rewrite Ho in He by done. by apply wf_entries.
Qed.

(** ** Java objects *)

(** What [new BinderProxy()] adds. *)
Definition with_proxy (p w n : Z) s : jni_state :=
  set_j_next n (set_j_heap (<[p := JBinderProxy 0 0 (Some w)]>
    (<[w := JWeakReference (Some p)]> (j_heap s))) s).

Lemma wf_with_proxy own pins s p w n : wf own pins s ->
  j_next s <= p < n -> j_next s <= w < n -> p <> w ->
  wf own pins (with_proxy p w n s) /\ evolves s (with_proxy p w n s).
Proof.
  intros W Hp Hw D.
  assert (forall o x, j_heap s !! o = Some x -> o <> p /\ o <> w) as Hf.
  { intros o x Ho. pose proof (wf_heap_range _ _ _ _ W o x Ho). lia. }
  assert (j_heap s !! p = None /\ j_heap s !! w = None) as [Fp Fw].
  { split; [destruct (j_heap s !! p) as [x|] eqn:E|destruct (j_heap s !! w) as [x|] eqn:E]; try done;
      pose proof (wf_heap_range _ _ _ _ W _ x E); lia. }
  assert (evolves s (with_proxy p w n s)) as Ev.
  { pose proof (evolves_refl s ltac:(eauto)) as [N1 K1 B1 G1 H1]. split; simpl; try done; [lia|].
    intros o x Ho. destruct (Hf o x Ho). rewrite !lookup_insert_ne by done.
    exists x. split; [done|apply same_class_refl]. }
  split; [|done]. destruct W. split; simpl; try done.
  - lia.
  - intros o x. rewrite !lookup_insert_Some. intros [[<- _]|[_ [[<- _]|[_ Ho]]]]; [lia|lia|].
    specialize (wf_heap_range o x Ho). lia.
  - intros a x Ha. destruct (wf_native_range a x Ha). split; [lia|done].
  - intros b Hb. specialize (wf_nb_range b Hb). lia.
  - intros g o Hg. specialize (wf_own_range g o Hg). lia.
  - intros a Ha. specialize (wf_counts a Ha). unfold owners in *. simpl.
    rewrite count_map_new by (by rewrite lookup_insert_ne).
    rewrite count_map_new by done. cbn [holds].
    assert ((0 =? a) = false) as -> by (apply Z.eqb_neq; lia). cbn [orb Z.b2z]. lia.
  - intros a x Ha. apply (native_ok_mono own own s _ a x); [done|by intros g ow|..|by apply wf_native].
    intros l r g gw _ _ Hr'. by eexists.
  - intros o x. rewrite !lookup_insert_Some. intros [[_ <-]|[_ [[_ <-]|[_ Ho]]]]; [by left|done|].
    apply (obj_ok_mono s _ o x); [done|done|by intros; eexists|done|done|by eapply wf_heap].
  - intros o o' h. rewrite !lookup_insert_Some. intros [[_ ?]|[_ [[_ ?]|[_ H1]]]] [[_ ?]|[_ [[_ ?]|[_ H2]]]];
      try done. by eapply wf_holders.
  - intros b i e Hb He. specialize (wf_entries b i e Hb He). revert wf_entries. unfold entry_ok.
    case_decide; [|done]. unfold proxy_entry. simpl. intros (Hfn & Hz & Ho & w' & ref & Hg & Hw' & Hr).
    split; [done|]. split; [done|]. split; [done|]. exists w', ref. split; [done|].
    destruct (Hf w' _ Hw'). rewrite !lookup_insert_ne by done. split; [done|].
    intros q Hq. destruct (Hr q Hq) as (d & r & Hq'). destruct (Hf q _ Hq').
    rewrite !lookup_insert_ne by done. eauto.
Qed.

(** An object Java makes: its native fields are NULL, but a parcel's. *)
Definition blank s (x : jobj) : Prop :=
  match x with
  | JBinder h => h = 0
  | JParcel q => q = 0 \/ is_Some (j_parcels s !! q)
  | JObject _ => True
  | _ => False
  end.

Definition with_object (x : jobj) (n : Z) s : jni_state :=
  set_j_next n (set_j_heap (<[j_next s := x]> (j_heap s)) s).

Lemma wf_with_object own pins s x n : wf own pins s -> blank s x -> j_next s < n ->
  wf own pins (with_object x n s) /\ evolves s (with_object x n s).
Proof.
  intros W Hx Hn. set (p := j_next s).
  assert (forall o y, j_heap s !! o = Some y -> o <> p) as Hf.
  { intros o y Ho. pose proof (wf_heap_range _ _ _ _ W o y Ho). unfold p. lia. }
  assert (j_heap s !! p = None) as Fp.
  { destruct (j_heap s !! p) as [y|] eqn:E; [|done]. by destruct (Hf p y E). }
  assert (evolves s (with_object x n s)) as Ev.
  { pose proof (evolves_refl s ltac:(eauto)) as [N1 K1 B1 G1 H1]. split; simpl; try done; [lia|].
    intros o y Ho. rewrite lookup_insert_ne by (intros D; by apply (Hf o y)).
    exists y. split; [done|apply same_class_refl]. }
  split; [|done]. destruct W. split; simpl; try done.
  - lia.
  - intros o y. rewrite lookup_insert_Some. intros [[<- _]|[_ Ho]]; [lia|].
    specialize (wf_heap_range o y Ho). lia.
  - intros a y Ha. destruct (wf_native_range a y Ha). split; [lia|done].
  - intros b Hb. specialize (wf_nb_range b Hb). lia.
  - intros g o Hg. specialize (wf_own_range g o Hg). lia.
  - intros a Ha. specialize (wf_counts a Ha). unfold owners in *. simpl.
    rewrite count_map_new by done.
    assert (holds a x = false) as -> by (destruct x; simpl in *; try done; apply Z.eqb_neq; lia).
    simpl. lia.
  - intros a y Ha. apply (native_ok_mono own own s _ a y); [done|by intros g ow|..|by apply wf_native].
    intros l r g gw _ _ Hr'. by eexists.
  - intros o y. rewrite lookup_insert_Some. intros [[_ <-]|[_ Ho]].
    + destruct x; simpl in *; try done; by left.
    + apply (obj_ok_mono s _ o y); [done|done|by intros; eexists|done|done|by eapply wf_heap].
  - intros o o' h. rewrite !lookup_insert_Some.
    intros [[<- ->]|[_ H1]] [[<- H2]|[_ H2]] Hz; [done| | |by eapply wf_holders].
    + done.
    + by rewrite H2 in Hx.
  - intros b i e Hb He. specialize (wf_entries b i e Hb He). revert wf_entries. unfold entry_ok.
    case_decide; [|done]. unfold proxy_entry. simpl. intros (Hfn & Hz & Ho & w' & ref & Hg & Hw' & Hr).
    split; [done|]. split; [done|]. split; [done|]. exists w', ref. split; [done|].
    rewrite lookup_insert_ne by (intros D; by apply (Hf w' _ Hw')). split; [done|].
    intros q Hq. destruct (Hr q Hq) as (d & r & Hq').
    rewrite lookup_insert_ne by (intros D; by apply (Hf q _ Hq')). eauto.
Qed.

(** Giving up a reference that is not a proxy's. *)
Lemma wf_del_global own pins s g o : wf own pins s -> own !! g = Some o -> is_OProxy o = false ->
  unused s g o ->
  wf (delete g own) pins (set_j_globals (delete g (j_globals s)) s) /\
  evolves s (set_j_globals (delete g (j_globals s)) s).
Proof.
  intros W Hg Ho Hu. eapply (wf_del_ref own pins s _ g o (gNumProxyRefs s)); [done|done|done| |..].
  - reflexivity.
  - intros g' D. simpl. by rewrite lookup_delete_ne.
  - done.
  - by rewrite Ho.
Qed.

Lemma wf_del_weak own pins s g o : wf own pins s -> own !! g = Some o -> is_OProxy o = false ->
  unused s g o ->
  wf (delete g own) pins (set_j_weaks (delete g (j_weaks s)) s) /\
  evolves s (set_j_weaks (delete g (j_weaks s)) s).
Proof.
  intros W Hg Ho Hu. eapply (wf_del_ref own pins s _ g o (gNumProxyRefs s)); [done|done|done| |..].
  - reflexivity.
  - done.
  - intros g' D. simpl. by rewrite lookup_delete_ne.
  - by rewrite Ho.
Qed.

End Ops.
