(* ===== verification/JniMeths.v ===== *)
(** * JniMeths: the native methods keep Java and native objects in agreement

    What is relied on of Java code ([JavaLaws]: Java code works on this state only
    through the native methods), and for every method of [JniBinder] that it runs
    without following a bad pointer and keeps the invariant of [JniInv]. *)

From S2P Require Import Prelude Uapi Parcel CppWorld ProcessState IpcCore BpBinder Proxy RefBase JniWorld JniBinder JniInv JniOps.

#[local] Open Scope Z_scope.

Section Rules.
Context `{PL : ParcelLib} `{RB : RefBase}.
Context `{NB : !NativeBinder} `{NL : !NativeLaws}.
Context (St : statics).

Implicit Types (s : jni_state) (own : gmap Z owner) (pins : list Z).

#[local] Notation wf := (wf St).
#[local] Notation inv := (inv St).

(** Code that may run anything, this thread's own natives included. *)
Definition calls_out {A} (m : JM A) : Prop := forall pins s, inv pins s ->
  runs m s (fun _ s' => inv pins s' /\ evolves s s').

Class JavaLaws `{JS : !JavaSide} `{SM : !Sampling} := {
  jcall_law c : calls_out (jcall c);
  ping_law b : calls_out (ib_pingBinder b);
  descriptor_law b : calls_out (ib_getInterfaceDescriptor b);
  onTransact_law b c d r f : calls_out (bb_onTransact b c d r f);
  block_law : calls_out blockUntilThreadAvailable;
  join_law : calls_out joinThreadPool_native;
  max_threads_law n : calls_out (ps_setThreadPoolMaxThreadCount n);
  write_log_law t l : calls_out (bWriteLog t l);
  (** The parcels of a call outlive it. *)
  transact_law b c d r f pins s : inv pins s -> is_Some (j_parcels s !! d) ->
    runs (ib_transact b c d r f) s (fun _ s' =>
      inv pins s' /\ evolves s s' /\ is_Some (j_parcels s' !! d));
  (** A strong pointer. *)
  context_law pins s : inv pins s ->
    runs ps_getContextObject s (fun b s' => evolves s s' /\
      (b = 0 /\ inv pins s' \/ nb_is (j_cpp s') b = true /\ inv (b :: pins) s'));
  gc_law s : runs force_gc s (fun _ s' => gc_effect s s');
  name_law o s : runs (class_getName o) s (fun _ s' => gc_effect s s');
  new_proxy_law s : runs new_BinderProxy s (fun r s' =>
    match r with
    | None => gc_effect s s'
    | Some p => exists s1 w n, gc_effect s s1 /\ s' = with_proxy p w n s1 /\
        j_next s <= p < n /\ j_next s <= w < n /\ p <> w
    end)
}.

(** ** Rules *)

Lemma inv_apart pins s : inv pins s -> apart s.
Proof. intros [own W]. by eapply wf_apart. Qed.

Lemma inv_evolves pins s : inv pins s -> evolves s s.
Proof. intros I. by eapply evolves_refl, inv_apart. Qed.

Lemma ev_step pins s1 s2 s3 : inv pins s1 -> evolves s1 s2 -> evolves s2 s3 -> evolves s1 s3.
Proof. intros I. apply evolves_trans. by eapply inv_apart. Qed.

Lemma inv_pending pins s v : inv pins s ->
  inv pins (set_j_pending v s) /\ evolves s (set_j_pending v s).
Proof.
  intros [own W]. split; [exists own; by apply wf_pending|].
  destruct (evolves_refl s) as [N1 K1 B1 G1 H1]; [by eapply wf_apart|]. by split.
Qed.

Lemma inv_gc pins s s' : inv pins s -> gc_effect s s' -> inv pins s' /\ evolves s s'.
Proof.
  intros [own W] G. split; [exists own; by eapply wf_gc|]. eapply gc_evolves; [|done].
  by eapply wf_apart.
Qed.

Lemma inv_pins pins pins' s : inv pins s -> (forall a, pinned pins' a <= pinned pins a) ->
  inv pins' s.
Proof. intros [own W] H. exists own. by eapply wf_pins. Qed.

(** A pinned object is there; the class of a pinned native object stays. *)
Lemma pinned_alive pins s a : inv pins s -> a <> 0 -> 1 <= pinned pins a ->
  0 < strong (j_refs s) a /\ (is_Some (j_native s !! a) \/ nb_is (j_cpp s) a = true).
Proof.
  intros [own W] Ha Hp. assert (0 < strong (j_refs s) a) as H.
  { eapply owned_strong; [done|done|]. pose proof (owners_nonneg s a). lia. }
  split; [done|]. by eapply wf_alive.
Qed.

Lemma pinned_head a pins : 1 <= pinned (a :: pins) a.
Proof. simpl. rewrite Z.eqb_refl. pose proof (pinned_nonneg pins a). lia. Qed.

Lemma pinned_in a pins : a ∈ pins -> 1 <= pinned pins a.
Proof.
  induction pins as [|b l IH]; intros H; [by apply not_elem_of_nil in H|].
  apply elem_of_cons in H as [->|H]; [apply pinned_head|]. specialize (IH H). simpl. destruct (a =? b); lia.
Qed.

Lemma inv_native_pos pins s a x : inv pins s -> j_native s !! a = Some x -> a <> 0.
Proof. intros [own W] Ha. destruct (wf_native_range _ _ _ _ W a x Ha). lia. Qed.

Lemma pinned_kind pins s s' a x : inv pins s' -> evolves s s' -> j_native s !! a = Some x ->
  a <> 0 -> a ∈ pins -> exists y, j_native s' !! a = Some y /\ same_kind x y.
Proof.
  intros I Ev Ha Hz Hp. destruct (ev_native _ _ Ev a x Ha) as [Hn Hk].
  destruct (pinned_alive pins s' a I Hz (pinned_in _ _ Hp)) as [_ [[y Hy]|Hb]]; [|congruence].
  exists y. split; [done|by apply Hk].
Qed.

End Rules.

#[global] Arguments inv_apart {PL RB NB NL St} pins s _.
#[global] Arguments inv_evolves {PL RB NB NL St} pins s _.
#[global] Arguments ev_step {PL RB NB NL St} pins s1 s2 s3 _ _ _.
#[global] Arguments inv_pending {PL RB NB NL St} pins s v _.
#[global] Arguments inv_gc {PL RB NB NL St} pins s s' _ _.
#[global] Arguments inv_pins {PL RB NB NL St} pins pins' s _ _.
#[global] Arguments pinned_alive {PL RB NB NL St} pins s a _ _ _.
#[global] Arguments inv_native_pos {PL RB NB NL St} pins s a x _ _.
#[global] Arguments pinned_kind {PL RB NB NL St} pins s s' a x _ _ _ _ _.

(** Follows a chain of steps. *)
Ltac evs :=
  first
    [ eassumption
    | by (eapply inv_evolves; eassumption)
    | multimatch goal with H : evolves ?a ?b |- evolves ?a ?c =>
        match goal with I : JniInv.inv _ _ a |- _ => eapply ev_step; [exact I|exact H|evs] end
      end ].
#[export] Hint Extern 3 (evolves _ _) => evs : core.

(** The next call, with what its lemma says. *)
Tactic Notation "call" uconstr(L) := eapply runs_mono; [eapply L; eauto|cbv beta].

(** The next read of the state. *)
Tactic Notation "reads" uconstr(L) := eapply runs_value; [eapply L; eauto|]; walk.

Section Meths.
Context `{PL : ParcelLib} `{RB : RefBase} `{U : BinderUapi}.
Context `{NB : !NativeBinder} `{NL : !NativeLaws}.
Context (E : cpp_env) (JE : jni_errors) (St : statics) (Sys : system) (garbage : Z).
Context `{JS : !JavaSide} `{SM : !Sampling} `{JL : !JavaLaws St}.

Implicit Types (s : jni_state) (own : gmap Z owner) (pins : list Z).

#[local] Notation wf := (wf St).
#[local] Notation inv := (inv St).

(** ** Counters and exceptions *)

Lemma created_evolves pins s v : inv pins s -> evolves s (set_gNumRefsCreated v s).
Proof. intros I. destruct (inv_evolves _ _ I) as [N1 K1 B1 G1 H1]. by split. Qed.

Lemma inv_set_created pins s v : 0 <= v <= 200 -> inv pins s ->
  inv pins (set_gNumRefsCreated v s).
Proof. intros Hv [own W]. exists own. by apply wf_set_created. Qed.

Lemma incRefsCreated_spec pins s : inv pins s ->
  runs incRefsCreated s (fun _ s' => inv pins s' /\ evolves s s').
Proof.
  intros I. unfold incRefsCreated. walk.
  assert (0 <= gNumRefsCreated s <= 200) as Hc by (destruct I as [own W]; by apply (wf_created _ _ _ _ W)).
  destruct (Z.eqb_spec (gNumRefsCreated s) 200) as [E2|N].
  - walk. call gc_law. intros _ s' G.
    apply (inv_set_created pins s 0) in I as I0; [|lia].
    destruct (inv_gc pins (set_gNumRefsCreated 0 s) s' I0 G).
    split; [done|]. eapply ev_step; [exact I|by eapply created_evolves|done].
  - walk. rewrite i32_small by lia.
    split; [apply inv_set_created; [lia|done]|by eapply created_evolves].
Qed.

(** Afterwards there is no exception. *)
Lemma report_exception_spec pins s e msg : inv pins s ->
  runs (report_exception e msg) s (fun _ s' => inv pins s' /\ evolves s s' /\ j_pending s' = None).
Proof.
  intros I. unfold report_exception, FatalError. walk.
  destruct (inv_pending pins s None I) as [I1 E1].
  destruct (new_string _); walk; [|by destruct (inv_pending pins _ None I1); eauto].
  call jcall_law. intros _ s2 [I2 E2]. walk.
  assert (forall s3, inv pins s3 -> evolves s s3 -> j_pending s3 = None ->
    runs (if is_Error e then
        (do! _ := jcall (ToString e) in ret tt) ;;;
        ExceptionClear ;;; Throw e ;;; crash FATAL_ERROR
      else ret tt) s3 (fun _ s' => inv pins s' /\ evolves s s' /\ j_pending s' = None)) as Hend.
  { intros s3 I4 E4 P4. destruct (is_Error e); [|done]. walk.
    call jcall_law. intros _ s5 _. walk. done. }
  destruct (inv_pending pins s2 None I2).
  destruct (j_pending s2) eqn:P2; walk; apply Hend; eauto.
Qed.

Lemma report_pending_spec pins s msg : inv pins s ->
  runs (report_pending msg) s (fun x s' => inv pins s' /\ evolves s s' /\ j_pending s' = None /\
    x = (if j_pending s then true else false) /\ (j_pending s = None -> s' = s)).
Proof.
  intros I. unfold report_pending. walk. destruct (j_pending s) eqn:P; walk.
  - call report_exception_spec. intros _ s' (I1 & E1 & P1). walk. by repeat (split; [done|]).
  - split; [done|]. split; [by apply evolves_refl; destruct I as [own W]; eapply wf_apart|]. done.
Qed.

(** ** Reading *)

Lemma as_JavaBBinder_run s a g : j_native s !! a = Some (JavaBBinder g) ->
  as_JavaBBinder a s = Value g s.
Proof.
  intros H. unfold as_JavaBBinder, native_object, lookup_or_crash, bind, gets, id. by rewrite H.
Qed.
Lemma as_Holder_run s a b : j_native s !! a = Some (JavaBBinderHolder b) ->
  as_Holder a s = Value b s.
Proof. intros H. unfold as_Holder, native_object, lookup_or_crash, bind, gets, id. by rewrite H. Qed.
Lemma as_List_run s a l : j_native s !! a = Some (DeathRecipientList l) -> as_List a s = Value l s.
Proof. intros H. unfold as_List, native_object, lookup_or_crash, bind, gets, id. by rewrite H. Qed.
Lemma as_Recipient_run s a g gw d : j_native s !! a = Some (JavaDeathRecipient g gw d) ->
  as_Recipient a s = Value (g, gw, d) s.
Proof.
  intros H. unfold as_Recipient, native_object, lookup_or_crash, bind, gets, id. by rewrite H.
Qed.

Lemma DeleteGlobalRef_run s g o : g <> 0 -> j_globals s !! g = Some o ->
  DeleteGlobalRef g s = Value tt (set_j_globals (delete g (j_globals s)) s).
Proof.
  intros Hz H. unfold DeleteGlobalRef. rewrite (proj2 (Z.eqb_neq _ _) Hz).
  unfold lookup_or_crash, bind, gets, id. by rewrite H.
Qed.
Lemma DeleteWeakGlobalRef_run s g o : g <> 0 -> j_weaks s !! g = Some o ->
  DeleteWeakGlobalRef g s = Value tt (set_j_weaks (delete g (j_weaks s)) s).
Proof.
  intros Hz H. unfold DeleteWeakGlobalRef. rewrite (proj2 (Z.eqb_neq _ _) Hz).
  unfold lookup_or_crash, bind, gets, id. by rewrite H.
Qed.
Lemma global_object_run s g o : g <> 0 -> j_globals s !! g = Some o ->
  global_object g s = Value (Some o) s.
Proof.
  intros Hz H. unfold global_object. rewrite (proj2 (Z.eqb_neq _ _) Hz).
  unfold lookup_or_crash, bind, gets, id. by rewrite H.
Qed.
Lemma heap_object_run s o x : j_heap s !! o = Some x -> heap_object o s = Value x s.
Proof. intros H. unfold heap_object, lookup_or_crash, bind, gets, id. by rewrite H. Qed.

(** [decStrong]: the destructor runs if it was the last reference. *)
Lemma dec_spec destroy pins s a (Q : unit -> jni_state -> Prop) :
  inv (a :: pins) s -> a <> 0 ->
  (forall r, inv pins (set_j_refs r s) -> evolves s (set_j_refs r s) ->
     (forall b, b <> a -> strong r b = strong (j_refs s) b) ->
     strong r a = strong (j_refs s) a - 1 ->
     (0 < strong r a -> Q tt (set_j_refs r s)) /\
     (strong r a = 0 -> runs (destroy a) (set_j_refs r s) Q)) ->
  runs (decStrong destroy a) s Q.
Proof.
  intros [own W] Hz Hd. destruct (wf_dec St own pins s a W Hz) as [H1 W1].
  pose proof (last_dec a (j_refs s) H1) as Hl. pose proof (strong_dec a (j_refs s)) as Hs.
  unfold decStrong. walk. rewrite (proj2 (Z.ltb_ge _ _)) by lia.
  destruct (rb_decStrong a (j_refs s)) as [r last]. cbn [fst snd] in *. walk.
  destruct (Hd r) as [Hq0 Hq1].
  - by exists own.
  - destruct (evolves_refl s) as [N1 K1 B1 G1 E1]; [by eapply wf_apart|]. by split.
  - intros b D. rewrite Hs by done. rewrite (proj2 (Z.eqb_neq _ _) D). lia.
  - rewrite Hs by done. rewrite Z.eqb_refl. lia.
  - rewrite Hl. specialize (Hs a H1). rewrite Z.eqb_refl in Hs. apply runs_when.
    + rewrite Z.eqb_eq. intros E1. apply Hq1. lia.
    + rewrite Z.eqb_neq. intros N. apply Hq0. lia.
Qed.

(** A reference that is not the last. *)
Lemma dec_shared destroy pins s a : inv (a :: pins) s -> a <> 0 ->
  1 <= owners s a + pinned pins a ->
  runs (decStrong destroy a) s (fun _ s' => inv pins s' /\ evolves s s' /\
    exists q, s' = set_j_refs q s).
Proof.
  intros I Hz Ho. apply (dec_spec _ pins); [done|done|]. intros q I1 E1 Hq Hqa. split; [eauto|].
  intros H0. exfalso. destruct I as [own W]. pose proof (wf_counts _ _ _ _ W a Hz) as Hc.
  cbn [pinned] in Hc. rewrite Z.eqb_refl in Hc. lia.
Qed.

Lemma promote_spec pins s a : inv pins s ->
  runs (promote (Some a)) s (fun r s' => evolves s s' /\
    j_native s' = j_native s /\ j_cpp s' = j_cpp s /\ j_heap s' = j_heap s /\
    j_globals s' = j_globals s /\
    match r with
    | Some a' => a' = a /\ inv (a :: pins) s' /\ a <> 0 /\
        (is_Some (j_native s !! a) \/ nb_is (j_cpp s) a = true)
    | None => inv pins s' /\ strong (j_refs s) a <= 0
    end).
Proof.
  intros I. assert (forall r, evolves s (set_j_refs r s)) as Hev.
  { intros r. destruct (inv_evolves _ _ I) as [N1 K1 B1 G1 H1]. by split. }
  unfold promote. walk. destruct (decide (1 <= strong (j_refs s) a)) as [L|L].
  - destruct (attempt_alive a (j_refs s) L) as (r & -> & Hr). walk. split; [apply Hev|].
    do 4 (split; [done|]). split; [done|]. destruct I as [own W].
    destruct (wf_alive _ _ _ _ W a ltac:(lia)) as [[x Hx]|Hb].
    + destruct (wf_native_range _ _ _ _ W a x Hx). assert (a <> 0) by lia.
      split; [|split; [done|left; by eexists]]. exists own. apply wf_inc; eauto.
    + pose proof (wf_nb_range _ _ _ _ W a Hb). assert (a <> 0) by lia.
      split; [|split; [done|by right]]. exists own. apply wf_inc; eauto.
  - rewrite attempt_dead by lia. walk. eauto 10 with lia.
Qed.

(** [incStrong] of a live object. *)
Lemma inc_spec pins s a : inv pins s -> a <> 0 ->
  is_Some (j_native s !! a) \/ nb_is (j_cpp s) a = true ->
  inv (a :: pins) (set_j_refs (rb_incStrong a (j_refs s)) s) /\
  evolves s (set_j_refs (rb_incStrong a (j_refs s)) s).
Proof.
  intros [own W] Hz Ha. split.
  - exists own. apply wf_inc; [done|done|done|]. intros b. apply strong_inc.
  - destruct (evolves_refl s) as [N1 K1 B1 G1 E1]; [by eapply wf_apart|]. by split.
Qed.

(** ** JavaBBinder *)

Lemma JavaBBinder_destroy_spec pins s b g : inv pins s ->
  j_native s !! b = Some (JavaBBinder g) -> strong (j_refs s) b <= 0 ->
  runs (JavaBBinder_destroy b) s (fun _ s' => inv pins s' /\ evolves s s').
Proof.
  intros [own W] Hb Hs. destruct (wf_native _ _ _ _ W b _ Hb) as (Ho & Hg & o & h & Hgl & _).
  unfold JavaBBinder_destroy, dec_local. walk. reads as_JavaBBinder_run.
  reads DeleteGlobalRef_run.
  destruct (wf_del_native St own pins s (set_gNumLocalRefs (i32 (gNumLocalRefs s - 1))
    (set_j_native (delete b (j_native s)) s)) b _ W Hb Hs) as [W1 E1]; [reflexivity..|].
  destruct (wf_del_global St own pins _ g _ W1 Ho) as [W2 E2];
    [done|intros g'; simpl; by rewrite lookup_delete_eq|].
  split; [by eexists|]. eapply evolves_trans; [by eapply wf_apart|exact E1|exact E2].
Qed.

Lemma Holder_destroy_spec pins s h mb : inv pins s ->
  j_native s !! h = Some (JavaBBinderHolder mb) -> strong (j_refs s) h <= 0 ->
  runs (Holder_destroy h) s (fun _ s' => inv pins s' /\ evolves s s').
Proof.
  intros [own W] Hh Hs. unfold Holder_destroy. walk. reads as_Holder_run.
  destruct (wf_del_native St own pins s (set_j_native (delete h (j_native s)) s) h _ W Hh Hs)
    as [W1 E1]; [reflexivity..|]. split; [by exists own|done].
Qed.

(** ** Recipients and their lists *)

Lemma JavaDeathRecipient_destroy_spec pins s r g gw d : inv pins s ->
  j_native s !! r = Some (JavaDeathRecipient g gw d) -> strong (j_refs s) r <= 0 ->
  runs (JavaDeathRecipient_destroy r) s (fun _ s' => inv pins s' /\ evolves s s' /\
    (j_pending s' = j_pending s /\ j_heap s' = j_heap s) /\ j_refs s' = j_refs s /\ forall a, a <> r -> j_native s' !! a = j_native s !! a).
Proof.
  intros [own W] Hr Hs. destruct (wf_native _ _ _ _ W r _ Hr) as [_ Ho].
  unfold JavaDeathRecipient_destroy, dec_death. walk. reads as_Recipient_run.
  destruct (wf_del_native St own pins s (set_gNumDeathRefs (i32 (gNumDeathRefs s - 1))
    (set_j_native (delete r (j_native s)) s)) r _ W Hr Hs) as [W1 E1]; [reflexivity..|].
  assert (forall a, a <> r -> delete r (j_native s) !! a = j_native s !! a) as Hn.
  { intros a D. by rewrite lookup_delete_ne. }
  case_decide as D.
  - subst g. rewrite (proj2 (Z.eqb_eq 0 0)) by done. walk. destruct Ho as [->|[Ho [o Hw]]].
    + eapply runs_value; [reflexivity|]. walk. split; [by exists own|done].
    + destruct (wf_own_range _ _ _ _ W _ _ Ho). reads DeleteWeakGlobalRef_run; [lia|].
      destruct (wf_del_weak St own pins _ gw _ W1 Ho) as [W2 E2];
        [done|intros d'; simpl; by rewrite lookup_delete_eq|].
      split; [by eexists|]. split; [|done]. eapply evolves_trans; [by eapply wf_apart|exact E1|exact E2].
  - rewrite (proj2 (Z.eqb_neq _ _) D). walk. destruct Ho as (Ho & o & Hgl & _).
    reads DeleteGlobalRef_run.
    destruct (wf_del_global St own pins _ g _ W1 Ho) as [W2 E2];
      [done|intros gw' d'; simpl; by rewrite lookup_delete_eq|].
    split; [by eexists|]. split; [|done]. eapply evolves_trans; [by eapply wf_apart|exact E1|exact E2].
Qed.

Lemma Recipient_dec_spec pins s r g gw d : inv (r :: pins) s ->
  j_native s !! r = Some (JavaDeathRecipient g gw d) ->
  runs (decStrong JavaDeathRecipient_destroy r) s (fun _ s' => inv pins s' /\ evolves s s' /\
    (j_pending s' = j_pending s /\ j_heap s' = j_heap s) /\ forall a, a <> r -> j_native s' !! a = j_native s !! a /\
                        strong (j_refs s') a = strong (j_refs s) a).
Proof.
  intros I Hr. pose proof (inv_native_pos _ _ _ _ I Hr) as Hz.
  apply (dec_spec _ pins); [done|done|]. intros q I1 E1 Hq Hqr. split.
  - intros _. do 3 (split; [done|]). intros a D. split; [done|by apply Hq].
  - intros H0. eapply runs_mono; [eapply JavaDeathRecipient_destroy_spec; [exact I1|exact Hr|simpl; lia]|].
    intros _ s' (I2 & E2 & Ep & Er & En). split; [done|]. split; [by eapply ev_step|].
    split; [done|]. intros a D. split; [by apply En|]. rewrite Er. by apply Hq.
Qed.

Lemma erase_spec r l : NoDup l -> NoDup (erase r l) /\ forall b, b ∈ erase r l <-> b ∈ l /\ b <> r.
Proof.
  induction 1 as [|x l Hx ND [IHn IH]]; simpl; [split; [constructor|]|].
  { intros b. split; [by intros ?%not_elem_of_nil|intros [?%not_elem_of_nil _]; done]. }
  destruct (Z.eqb_spec x r) as [->|D].
  - split; [done|]. intros b. rewrite elem_of_cons. split; [|naive_solver].
    intros Hb. split; [by right|]. by intros ->.
  - split; [constructor; [|done]|]; [by rewrite IH; intros [? _]|].
    intros b. rewrite !elem_of_cons, IH. naive_solver.
Qed.

Lemma erase_notin r l : r ∉ l -> erase r l = l.
Proof.
  induction l as [|x l IH]; intros H; [done|]. apply not_elem_of_cons in H as [D H]. simpl.
  rewrite (proj2 (Z.eqb_neq x r)) by congruence. by rewrite IH.
Qed.

(** An element leaves a list: its reference is the caller's. *)
Lemma inv_list pins s d l l' r : inv pins s -> j_native s !! d = Some (DeathRecipientList l) ->
  NoDup l' -> r ∈ l -> (forall b, b ∈ l' <-> b ∈ l /\ b <> r) ->
  inv (r :: pins) (set_j_native (<[d := DeathRecipientList l']> (j_native s)) s) /\
  evolves s (set_j_native (<[d := DeathRecipientList l']> (j_native s)) s) /\
  d <> r /\ exists g gw, j_native s !! r = Some (JavaDeathRecipient g gw d).
Proof.
  intros [own W] Hd ND Hr Hl. destruct (wf_native _ _ _ _ W d _ Hd) as [_ Hm].
  assert (d <> r) as D.
  { intros ->. destruct (Hm r Hr) as (g & gw & Hx). congruence. }
  split; [|split; [by eapply put_native_evolves; [eapply wf_apart|..]|split; [done|by apply Hm]]].
  exists own. eapply wf_put_native; [done|exact Hd|done|..].
  - split; [done|]. intros b Hb. simpl. destruct (Hm b ltac:(by apply Hl)) as (g & gw & Hx).
    exists g, gw. rewrite lookup_insert_ne; [done|]. intros ->. congruence.
  - intros o Ho _. simpl. pose proof (wf_heap _ _ _ _ W o _ Ho) as [?|[[mb ?] _]]; [|congruence].
    destruct (wf_native_range _ _ _ _ W d _ Hd). lia.
  - intros b _. simpl. destruct (Z.eqb_spec b r) as [->|N].
    + rewrite (bool_decide_eq_true_2 (r ∈ l)) by done.
      rewrite (bool_decide_eq_false_2 (r ∈ l')) by (rewrite Hl; by intros [_ ?]). simpl. lia.
    + rewrite (bool_decide_ext (b ∈ l') (b ∈ l)) by (rewrite Hl; naive_solver). lia.
Qed.

Lemma list_nodup pins s d l : inv pins s -> j_native s !! d = Some (DeathRecipientList l) -> NoDup l.
Proof. intros [own W] Hd. by destruct (wf_native _ _ _ _ W d _ Hd). Qed.

Lemma List_remove_spec pins s d l r : inv pins s ->
  j_native s !! d = Some (DeathRecipientList l) ->
  runs (List_remove d r) s (fun _ s' => inv pins s' /\ evolves s s' /\ j_heap s' = j_heap s /\
    j_native s' !! d = Some (DeathRecipientList (erase r l))).
Proof.
  intros I Hd. unfold List_remove. walk. reads as_List_run.
  case_bool_decide as Hr; [|rewrite erase_notin by done; walk; eauto].
  walk. destruct (erase_spec r l (list_nodup _ _ _ _ I Hd)) as [ND He].
  destruct (inv_list pins s d l (erase r l) r I Hd ND Hr He) as (I1 & E1 & D & g & gw & Hx).
  eapply runs_mono; [eapply Recipient_dec_spec; [exact I1|]|].
  - simpl. by rewrite lookup_insert_ne.
  - intros _ s' (I2 & E2 & [_ Eh] & Hn). split; [done|].
    split; [eapply evolves_trans; [by eapply inv_apart|done|done]|]. split; [done|].
    rewrite (proj1 (Hn d D)). apply lookup_insert_eq.
Qed.

Lemma clear_list_spec pins l : forall s d, inv pins s ->
  j_native s !! d = Some (DeathRecipientList l) ->
  runs (clear_list d l) s (fun _ s' => inv pins s' /\ evolves s s' /\
    j_native s' !! d = Some (DeathRecipientList []) /\
    strong (j_refs s') d = strong (j_refs s) d).
Proof.
  induction l as [|r l IH]; intros s d I Hd; simpl; [walk; eauto|].
  pose proof (list_nodup _ _ _ _ I Hd) as ND. apply NoDup_cons in ND as [Hnr ND]. walk.
  destruct (inv_list pins s d (r :: l) l r I Hd ND) as (I1 & E1 & D & g & gw & Hx);
    [by left|intros b; rewrite elem_of_cons; naive_solver|].
  eapply runs_mono; [eapply Recipient_dec_spec; [exact I1|simpl; by rewrite lookup_insert_ne]|].
  intros _ s2 (I2 & E2 & _ & Hs2). destruct (Hs2 d D) as [Hd2 Hr2]. simpl in Hd2. cbv beta.
  rewrite lookup_insert_eq in Hd2. eapply runs_mono; [by eapply IH|].
  intros _ s3 (I3 & E3 & Hd3 & Hr3). split; [done|]. split; [eauto|]. split; [done|].
  by rewrite Hr3, Hr2.
Qed.

Lemma warnIfStillLive_spec pins s r g gw d : inv pins s ->
  j_native s !! r = Some (JavaDeathRecipient g gw d) ->
  runs (warnIfStillLive r) s (fun _ s' => inv pins s' /\ evolves s s' /\
    j_native s' = j_native s /\ j_refs s' = j_refs s).
Proof.
  intros I Hr. unfold warnIfStillLive. walk. reads as_Recipient_run.
  destruct (Z.eqb_spec g 0) as [->|D]; walk; [eauto|].
  assert (exists o, j_globals s !! g = Some o) as [o Ho].
  { destruct I as [own W]. destruct (wf_native _ _ _ _ W r _ Hr) as [_ Hk].
    rewrite decide_False in Hk by done. destruct Hk as (_ & o & Hgl & _). eauto. }
  reads global_object_run. call name_law. intros named s' G.
  destruct (inv_gc pins s s' I G) as [I1 E1].
  assert (j_native s' = j_native s /\ j_refs s' = j_refs s) as [En Er]
    by (destruct G as [Hs _ _]; by rewrite Hs).
  destruct named; walk; [done|]. destruct (inv_pending pins s' None I1). eauto.
Qed.

Lemma warn_all_spec pins l : forall s, inv pins s ->
  (forall r, r ∈ l -> exists g gw d, j_native s !! r = Some (JavaDeathRecipient g gw d)) ->
  runs (warn_all l) s (fun _ s' => inv pins s' /\ evolves s s' /\
    j_native s' = j_native s /\ j_refs s' = j_refs s).
Proof.
  induction l as [|r l IH]; intros s I Hl; simpl; walk; [eauto|].
  destruct (Hl r ltac:(by left)) as (g & gw & d & Hr).
  eapply runs_mono; [by eapply warnIfStillLive_spec|]. intros _ s1 (I1 & E1 & En & Er). cbv beta.
  eapply runs_mono; [apply IH; [done|]|].
  - intros r' Hr'. rewrite En. apply Hl. by right.
  - intros _ s2 (I2 & E2 & En2 & Er2). split; [done|]. split; [eauto|]. by rewrite En2, Er2.
Qed.

Lemma List_destroy_spec pins s d l : inv pins s ->
  j_native s !! d = Some (DeathRecipientList l) -> strong (j_refs s) d <= 0 ->
  runs (List_destroy d) s (fun _ s' => inv pins s' /\ evolves s s').
Proof.
  intros I Hd Hs. unfold List_destroy. walk. reads as_List_run.
  eapply runs_mono; [apply (warn_all_spec pins l s I)|].
  { intros r Hr. destruct I as [own W]. destruct (wf_native _ _ _ _ W d _ Hd) as [_ Hm].
    destruct (Hm r Hr) as (g & gw & Hx). eauto. }
  intros _ s1 (I1 & E1 & En1 & Er1). walk.
  eapply runs_mono; [eapply clear_list_spec; [exact I1|by rewrite En1]|].
  intros _ s2 (I2 & E2 & Hd2 & Hr2). walk. assert (evolves s s2) as E02 by eauto.
  destruct I2 as [own W].
  destruct (wf_del_native St own pins s2 (set_j_native (delete d (j_native s2)) s2) d _ W Hd2)
    as [W3 E3]; [by rewrite Hr2, Er1|reflexivity..|].
  split; [by exists own|]. eapply evolves_trans; [by eapply inv_apart|exact E02|exact E3].
Qed.

Lemma List_dec_spec pins s d l : inv (d :: pins) s ->
  j_native s !! d = Some (DeathRecipientList l) ->
  runs (decStrong List_destroy d) s (fun _ s' => inv pins s' /\ evolves s s').
Proof.
  intros I Hd. pose proof (inv_native_pos _ _ _ _ I Hd) as Hz.
  apply (dec_spec _ pins); [done|done|]. intros q I1 E1 Hq Hqr. split; [done|]. intros H0.
  eapply runs_mono; [eapply List_destroy_spec; [exact I1|exact Hd|simpl; lia]|].
  intros _ s' [I2 E2]. split; [done|by eapply ev_step].
Qed.

Lemma Holder_dec_spec pins s h mb : inv (h :: pins) s ->
  j_native s !! h = Some (JavaBBinderHolder mb) ->
  runs (decStrong Holder_destroy h) s (fun _ s' => inv pins s' /\ evolves s s').
Proof.
  intros I Hd. pose proof (inv_native_pos _ _ _ _ I Hd) as Hz.
  apply (dec_spec _ pins); [done|done|]. intros q I1 E1 Hq Hqr. split; [done|]. intros H0.
  eapply runs_mono; [eapply Holder_destroy_spec; [exact I1|exact Hd|simpl; lia]|].
  intros _ s' [I2 E2]. split; [done|by eapply ev_step].
Qed.

(** What [force_gc] changes is seen by none of these. *)
Lemma incRefsCreated_frame pins s : inv pins s ->
  runs incRefsCreated s (fun _ s' => inv pins s' /\ evolves s s' /\
    j_native s' = j_native s /\ j_refs s' = j_refs s /\ j_globals s' = j_globals s /\
    j_cpp s' = j_cpp s /\ (exists s0, s0 = set_gNumRefsCreated (gNumRefsCreated s') s /\
      (s' = s0 \/ gc_effect s0 s'))).
Proof.
  intros I. unfold incRefsCreated. walk.
  assert (0 <= gNumRefsCreated s <= 200) as Hc by (destruct I as [own W]; by apply (wf_created _ _ _ _ W)).
  destruct (Z.eqb_spec (gNumRefsCreated s) 200) as [E2|N].
  - walk. call gc_law. intros _ s' G.
    apply (inv_set_created pins s 0) in I as I0; [|lia].
    destruct (inv_gc pins (set_gNumRefsCreated 0 s) s' I0 G).
    split; [done|]. split; [eapply ev_step; [exact I|by eapply created_evolves|done]|].
    pose proof G as [Hs _ _]. rewrite Hs. do 4 (split; [done|]). eexists. split; [done|].
    right. rewrite <- Hs. assert (gNumRefsCreated s' = 0) as -> by (by rewrite Hs). done.
  - walk. rewrite i32_small by lia.
    split; [apply inv_set_created; [lia|done]|]. split; [by eapply created_evolves|].
    do 4 (split; [done|]). eexists. split; [reflexivity|by left].
Qed.

Lemma gc_binders s s0 s' o h : s0 = set_gNumRefsCreated (gNumRefsCreated s') s ->
  (s' = s0 \/ gc_effect s0 s') -> j_heap s' !! o = Some (JBinder h) ->
  j_heap s !! o = Some (JBinder h).
Proof.
  intros -> [->|[_ Hh _]]; [done|]. destruct (Hh o) as [->|[_ ->]]; done.
Qed.

(** A new [JavaBBinder] has no reference yet. *)
Lemma JavaBBinder_new_spec pins s o h : inv pins s -> j_heap s !! o = Some (JBinder h) ->
  runs (JavaBBinder_new o) s (fun b s' => inv pins s' /\ evolves s s' /\ b <> 0 /\
    nb_is (j_cpp s') b = false /\
    (forall a, is_Some (j_native s !! a) -> j_native s' !! a = j_native s !! a) /\
    (forall o' h', j_heap s' !! o' = Some (JBinder h') -> j_heap s !! o' = Some (JBinder h')) /\
    exists g, j_native s' !! b = Some (JavaBBinder g) /\ j_globals s' !! g = Some o).
Proof.
  intros [own W] Ho. unfold JavaBBinder_new, NewGlobalRef, inc_local. walk.
  destruct (wf_new_global St own pins s (OBinder (j_next s + 1)) o W eq_refl) as [W1 E1].
  set (g := j_next s) in *. set (s1 := set_j_globals _ _) in *.
  edestruct (wf_new_native St _ pins s1 (set_gNumLocalRefs (i32 (gNumLocalRefs s1 + 1))
    (set_j_native (<[j_next s1 := JavaBBinder g]> (j_native s1)) (set_j_next (j_next s1 + 1) s1)))
    (JavaBBinder g) W1) as [W2 E2]; [reflexivity|reflexivity|reflexivity| |done|].
  { split; [by rewrite lookup_insert_eq|]. pose proof (wf_next _ _ _ _ W). split; [lia|].
    exists o, h. split; [by simpl; rewrite lookup_insert_eq|done]. }
  pose proof (wf_native_range _ _ _ _ W2 (j_next s1) (JavaBBinder g) (lookup_insert_eq _ _ _)) as [Hr Hnb].
  set (s2 := set_gNumLocalRefs _ _) in W2, E2.
  eapply runs_mono; [apply (incRefsCreated_frame pins s2); by eexists|].
  intros _ s3 (I3 & E3 & En & Er & Eg & Ec & s0 & Hs0 & Hgc). walk. split; [done|].
  split.
  { eapply evolves_trans; [by eapply wf_apart|exact E1|].
    eapply evolves_trans; [by eapply wf_apart|exact E2|exact E3]. }
  split; [lia|]. split; [by rewrite Ec|]. split; [|split].
  - intros a [x Ha]. rewrite En. simpl. rewrite lookup_insert_ne; [done|].
    destruct (wf_native_range _ _ _ _ W a x Ha). unfold s1. simpl. lia.
  - intros o' h' Ho'. by apply (gc_binders s2 s0 s3 o' h' Hs0 Hgc) in Ho'.
  - exists g. rewrite En, Eg. simpl. rewrite !lookup_insert_eq. done.
Qed.

(** [get]: a strong pointer to the binder of the Java object. *)
Lemma Holder_get_spec pins s h o mb : inv pins s -> h <> 0 ->
  j_heap s !! o = Some (JBinder h) -> j_native s !! h = Some (JavaBBinderHolder mb) ->
  runs (Holder_get h o) s (fun b s' => inv (b :: pins) s' /\ evolves s s' /\ b <> 0 /\
    exists g, j_native s' !! b = Some (JavaBBinder g) /\ j_globals s' !! g = Some o).
Proof.
  intros I Hz Ho Hh. unfold Holder_get. walk. reads as_Holder_run.
  assert (forall s1, evolves s s1 -> j_native s1 = j_native s -> j_heap s1 = j_heap s -> inv pins s1 ->
    runs (do! b := JavaBBinder_new o in
          incStrong b;;; put_native h (JavaBBinderHolder (Some b));;; ret b) s1
      (fun b s' => inv (b :: pins) s' /\ evolves s s' /\ b <> 0 /\
        exists g, j_native s' !! b = Some (JavaBBinder g) /\ j_globals s' !! g = Some o)) as Hnew.
  { intros s1 E1 En1 Eh1 I1. walk.
    eapply runs_mono; [eapply (JavaBBinder_new_spec pins s1 o h I1); by rewrite Eh1|].
    intros b s2 (I2 & E2 & Hb & Hnb & Hold & Hheap & g & Hg & Hgl). walk.
    assert (j_native s2 !! h = Some (JavaBBinderHolder mb)) as Hh2.
    { rewrite Hold; rewrite En1; [done|by eexists]. }
    assert (forall o', j_heap s2 !! o' = Some (JBinder h) -> o' = o) as Huq.
    { intros o' Ho'%Hheap. destruct I1 as [own1 W1]. rewrite Eh1 in Ho'.
      eapply (wf_holders _ _ _ _ W1); rewrite ?Eh1; done. }
    destruct (inc_spec pins s2 b I2 Hb) as [[own3 W3] E3]; [left; by eexists|].
    set (s3 := set_j_refs _ s2) in *. assert (h <> b) as Dhb by (intros ->; congruence).
    assert (evolves s s3) as E03 by (eapply ev_step; [exact I|exact E1|eapply ev_step; eassumption]).
    pose proof (put_native_evolves s3 h (JavaBBinderHolder mb) (JavaBBinderHolder (Some b))
      (wf_apart _ _ _ _ W3) Hh2 Logic.I) as E4.
    split; [exists own3; eapply wf_put_native; [exact W3|exact Hh2|done|..|done]|].
    - simpl. destruct (wf_native_range _ _ _ _ W3 b _ Hg) as [? ?].
      split; [simpl in *; lia|]. split; [done|]. intros x. simpl. rewrite lookup_insert_ne by done.
      intros Hx. by simplify_eq.
    - intros o' Ho' _ j g'. simpl. rewrite lookup_insert_eq. intros [= <-].
      rewrite lookup_insert_ne by done. intros Hg'. simplify_eq. rewrite Hgl. f_equal.
      symmetry. by apply Huq.
    - split; [eapply ev_step; [exact I|exact E03|exact E4]|]. split; [done|]. exists g. simpl.
      by rewrite lookup_insert_ne. }
  destruct mb as [j|].
  - eapply runs_mono; [apply (promote_spec pins s j I)|].
    intros [b|] s1 (E1 & En & Ec & Eh & Eg & Hp); cbv beta iota.
    + destruct Hp as (-> & I1 & Hj & _). walk. split; [done|]. split; [done|]. split; [done|].
      destruct (pinned_alive _ s1 j I1 Hj (pinned_head _ _)) as [_ Hal].
      destruct I as [own W]. pose proof (wf_native _ _ _ _ W h _ Hh) as (_ & Hnb & HP).
      rewrite Ec, En in Hal. destruct Hal as [[x Hx]|?]; [|congruence].
      specialize (HP x Hx). destruct x as [g| | |]; try done. exists g. rewrite En, Eg. split; [done|].
      destruct (wf_heap _ _ _ _ W o _ Ho) as [?|[_ Hm]]; [done|]. by apply (Hm j g).
    + destruct Hp as [I1 _]. by apply Hnew.
  - eapply runs_value; [reflexivity|]. cbv beta iota. apply Hnew; eauto.
Qed.

End Meths.
