(* ===== verification/JniProxies.v ===== *)
(** * JniProxies: recipients, proxies and the native methods of Java's classes

    The rest of the method lemmas of [JniMeths]: death recipients from link to
    death, the Java proxies of native binders, and the entry points. *)

From S2P Require Import Prelude Uapi Parcel CppWorld ProcessState IpcCore BpBinder Proxy RefBase JniWorld JniBinder JniInv JniOps JniMeths.

#[local] Open Scope Z_scope.

Section Meths.
Context `{PL : ParcelLib} `{RB : RefBase} `{U : BinderUapi}.
Context `{NB : !NativeBinder} `{NL : !NativeLaws}.
Context (E : cpp_env) (JE : jni_errors) (St : statics) (Sys : system) (garbage : Z).
Context `{JS : !JavaSide} `{SM : !Sampling} `{JL : !JavaLaws St}.

Implicit Types (s : jni_state) (own : gmap Z owner) (pins : list Z).

#[local] Notation wf := (wf St).
#[local] Notation inv := (inv St).

(** ** Death recipients *)

(** A weak pointer to a list, promoted. *)
Lemma recipient_list pins s r g gw d : inv pins s ->
  j_native s !! r = Some (JavaDeathRecipient g gw d) ->
  weak_ok s (fun x => exists l, x = DeathRecipientList l) d.
Proof. intros [own W] Hr. by destruct (wf_native _ _ _ _ W r _ Hr). Qed.

Lemma promote_list pins s d : inv pins s ->
  weak_ok s (fun x => exists l, x = DeathRecipientList l) d ->
  runs (promote (Some d)) s (fun p s' => evolves s s' /\
    (j_native s' = j_native s /\ j_heap s' = j_heap s) /\
    match p with
    | Some d' => d' = d /\ inv (d :: pins) s' /\ d <> 0 /\
        exists l, j_native s' !! d = Some (DeathRecipientList l)
    | None => inv pins s' /\ strong (j_refs s) d <= 0
    end).
Proof.
  intros I (_ & Hnb & HP). eapply runs_mono; [apply (promote_spec St pins s d I)|].
  intros [d'|] s1 (E1 & En & Ec & Eh & _ & Hp); [|by destruct Hp].
  destruct Hp as (-> & I1 & Hz & Hal). split; [done|]. split; [done|]. split; [done|].
  split; [done|]. split; [done|]. destruct Hal as [[x Hx]|?]; [|congruence].
  destruct (HP x Hx) as [l ->]. exists l. by rewrite En.
Qed.

Lemma clearReference_spec pins s r g gw d : inv pins s ->
  j_native s !! r = Some (JavaDeathRecipient g gw d) ->
  runs (clearReference r) s (fun _ s' => inv pins s' /\ evolves s s' /\
    forall p b w l, j_heap s !! p = Some (JBinderProxy b d w) ->
      j_native s !! d = Some (DeathRecipientList l) ->
      j_heap s' !! p = Some (JBinderProxy b d w) /\
      j_native s' !! d = Some (DeathRecipientList (erase r l))).
Proof.
  intros I Hr. unfold clearReference. walk. reads as_Recipient_run.
  assert (forall s0 p b w, j_heap s0 !! p = Some (JBinderProxy b d w) -> 1 <= owners s0 d) as Hown.
  { intros s0 p b w H. apply (owners_heap s0 d p _ H). simpl. by rewrite Z.eqb_refl, orb_true_r. }
  eapply runs_mono; [apply (promote_list pins s d I); by eapply recipient_list|].
  intros [d'|] s1 (E1 & [En Eh] & Hp); cbv beta iota.
  2: { walk. destruct Hp as [I1 Hs]. split; [done|]. split; [done|]. intros p b w l Hpp Hl. exfalso.
       pose proof I as [own W]. pose proof (inv_native_pos _ _ _ _ I Hl) as Hz.
       pose proof (wf_counts _ _ _ _ W d Hz). pose proof (pinned_nonneg pins d).
       specialize (Hown s p b w Hpp). lia. }
  destruct Hp as (-> & I1 & Hz & l & Hd). walk.
  eapply runs_mono; [by eapply List_remove_spec|]. intros _ s2 (I2 & E2 & Eh2 & Hd2). cbv beta.
  rewrite En in Hd. destruct (decide (1 <= owners s2 d + pinned pins d)) as [L|L].
  - eapply runs_mono; [by apply (dec_shared St)|]. intros _ s3 (I3 & E3 & q & ->).
    split; [done|]. split; [eauto|]. intros p b w l' Hpp Hl'. simpl. rewrite Eh2, Eh, Hd2.
    split; [done|congruence].
  - eapply runs_mono; [eapply (List_dec_spec St); [exact I2|exact Hd2]|]. intros _ s3 [I3 E3].
    split; [done|]. split; [eauto|]. intros p b w l' Hpp _. exfalso. rewrite <- Eh, <- Eh2 in Hpp.
    specialize (Hown s2 p b w Hpp). pose proof (pinned_nonneg pins d). lia.
Qed.

Lemma gc_keeps s s0 s' o x : s0 = set_gNumRefsCreated (gNumRefsCreated s') s ->
  (s' = s0 \/ gc_effect s0 s') -> (forall r, x <> JWeakReference r) ->
  j_heap s !! o = Some x -> j_heap s' !! o = Some x.
Proof.
  intros -> [->|[_ Hh _]] Hx Ho; [done|]. destruct (Hh o) as [->|[[p Hp] _]]; [done|].
  simpl in Hp. rewrite Ho in Hp. simplify_eq. by destruct (Hx p).
Qed.

Lemma JavaDeathRecipient_new_spec pins s o d l : inv pins s ->
  is_Some (j_heap s !! o) -> j_native s !! d = Some (DeathRecipientList l) ->
  runs (JavaDeathRecipient_new o d) s (fun r s' => inv pins s' /\ evolves s s' /\ r <> 0 /\
    (forall o' x, (forall w, x <> JWeakReference w) -> j_heap s !! o' = Some x ->
       j_heap s' !! o' = Some x) /\
    exists g, j_native s' !! r = Some (JavaDeathRecipient g 0 d) /\ g <> 0 /\
      j_globals s' !! g = Some o /\ j_native s' !! d = Some (DeathRecipientList (l ++ [r]))).
Proof.
  intros [own W] Ho Hd. pose proof (wf_next _ _ _ _ W) as Hn.
  destruct (wf_native_range _ _ _ _ W d _ Hd) as [Hdr Hdn].
  destruct (wf_native _ _ _ _ W d _ Hd) as [ND Hm].
  unfold JavaDeathRecipient_new, NewGlobalRef, List_add, inc_death. walk.
  destruct (wf_new_global St own pins s (ODeath (j_next s + 1)) o W eq_refl) as [W1 E1].
  set (g := j_next s) in *. set (s1 := set_j_globals _ _) in *. set (r := j_next s1).
  edestruct (wf_new_native St _ pins s1 (set_gNumDeathRefs (i32 (gNumDeathRefs s1 + 1))
    (set_j_native (<[r := JavaDeathRecipient g 0 d]> (j_native s1)) (set_j_next (r + 1) s1)))
    (JavaDeathRecipient g 0 d) W1) as [W2 E2]; [reflexivity|reflexivity|reflexivity| |done|].
  { split.
    - split; [unfold r, s1, g; simpl; lia|]. split; [done|]. simpl. intros x. rewrite lookup_insert_ne by (unfold r, s1, g; simpl; lia).
      intros Hx. exists l. congruence.
    - rewrite decide_False by lia. split; [by rewrite lookup_insert_eq|]. exists o.
      split; [simpl; by rewrite lookup_insert_eq|done]. }
  set (s2 := set_gNumDeathRefs _ _) in W2, E2.
  assert (j_native s2 !! r = Some (JavaDeathRecipient g 0 d)) as Hr by apply lookup_insert_eq.
  assert (j_native s2 !! d = Some (DeathRecipientList l)) as Hd2.
  { simpl. rewrite lookup_insert_ne; [done|]. unfold r, s1, g. simpl. lia. }
  assert (r <> 0) as Hrz by (unfold r, s1, g; simpl; lia).
  assert (d <> r) as Ddr by (unfold r, s1, g; simpl; lia).
  assert (r ∉ l) as Hrl.
  { intros Hin. destruct (Hm r Hin) as (g' & gw' & Hx).
    destruct (wf_native_range _ _ _ _ W r _ Hx). unfold r, s1, g in *. simpl in *. lia. }
  destruct (inc_spec St pins s2 r ltac:(by eexists) Hrz) as [[own3 W3] E3]; [left; by eexists|].
  set (s3 := set_j_refs _ s2) in *.
  assert (wf own3 pins (set_j_native (<[d := DeathRecipientList (l ++ [r])]> (j_native s3)) s3)) as W4.
  { eapply wf_put_native; [exact W3|exact Hd2|done|..].
    - split.
      + apply NoDup_app. split; [done|]. split; [|apply NoDup_singleton].
        intros x Hx Hx'. apply list_elem_of_singleton in Hx' as ->. done.
      + intros x Hx. apply elem_of_app in Hx as [Hx|Hx].
        * destruct (Hm x Hx) as (g' & gw' & Hx'). exists g', gw'. simpl.
          destruct (wf_native_range _ _ _ _ W x _ Hx').
          rewrite lookup_insert_ne by congruence. rewrite lookup_insert_ne; [done|].
          unfold r, s1, g. simpl. lia.
        * apply list_elem_of_singleton in Hx as ->. exists g, 0. simpl.
          rewrite lookup_insert_ne by done. by rewrite lookup_insert_eq.
    - intros o' Ho' _. simpl in Ho'. destruct (wf_heap _ _ _ _ W o' _ Ho') as [?|[[mb ?] _]]; [lia|congruence].
    - intros b Hb. simpl. destruct (Z.eqb_spec b r) as [->|N].
      + rewrite bool_decide_eq_true_2 by (apply elem_of_app; right; by apply list_elem_of_singleton).
        pose proof (bool_decide_eq_false_2 (r ∈ l) Hrl) as ->. simpl. lia.
      + rewrite (bool_decide_ext (b ∈ l ++ [r]) (b ∈ l)); [simpl; lia|].
        rewrite elem_of_app, list_elem_of_singleton. naive_solver. }
  pose proof (put_native_evolves s3 d (DeathRecipientList l) (DeathRecipientList (l ++ [r]))
      (wf_apart _ _ _ _ W3) Hd2 Logic.I) as E4.
  set (s4 := set_j_native _ s3) in *.
  eapply runs_value; [eapply as_List_run; exact Hd2|]. walk.
  eapply runs_mono; [apply (incRefsCreated_frame St pins s4); by eexists|].
  intros _ s5 (I5 & E5 & En & Er & Eg & Ec & s0 & Hs0 & Hgc). walk. split; [done|]. split.
  { eapply evolves_trans; [by eapply wf_apart|exact E1|].
    eapply evolves_trans; [by eapply wf_apart|exact E2|].
    eapply evolves_trans; [by eapply wf_apart|exact E3|].
    eapply evolves_trans; [by eapply wf_apart|exact E4|exact E5]. }
  split; [done|]. split; [intros o' x Hx Ho'; by apply (gc_keeps s4 s0)|].
  exists g. rewrite En, Eg. simpl.
  rewrite lookup_insert_eq, lookup_insert_ne, !lookup_insert_eq by done. split; [done|].
  split; [unfold g; lia|]. done.
Qed.

(** The end of [binderDied]: the global reference is exchanged for a weak one. *)
Lemma demote_spec pins s r g gw d (Q : unit -> jni_state -> Prop) : inv pins s ->
  j_native s !! r = Some (JavaDeathRecipient g gw d) ->
  (forall s', inv pins s' -> evolves s s' -> Q tt s') ->
  runs (do! o := global_object g in
        do! gw := NewWeakGlobalRef o in
        put_native r (JavaDeathRecipient g gw d) ;;;
        DeleteGlobalRef g ;;;
        put_native r (JavaDeathRecipient 0 gw d)) s Q.
Proof.
  intros [own W] Hr HQ. destruct (wf_native_range _ _ _ _ W r _ Hr) as [Hrr _].
  destruct (wf_native _ _ _ _ W r _ Hr) as [Hw Ho].
  assert (forall own' pins' s' gw', wf own' pins' s' -> j_native s' = j_native s ->
    j_next s <= j_next s' -> j_cpp s' = j_cpp s -> j_heap s' = j_heap s ->
    (gw' = 0 \/ own' !! gw' = Some (OWeak r) /\ is_Some (j_weaks s' !! gw')) ->
    wf own' pins' (set_j_native (<[r := JavaDeathRecipient 0 gw' d]> (j_native s')) s')) as Hput.
  { intros own' pins' s' gw' W' En Hnx Ec Eh Hgw'. eapply wf_put_native; [exact W'|by rewrite En|done|..|done].
    - split.
      + destruct Hw as (Hd1 & Hd2 & Hd3). split; [simpl; lia|]. split; [by rewrite <- Ec in Hd2|].
        intros x. simpl. rewrite En. destruct (decide (d = r)) as [->|D].
        * destruct (Hd3 _ Hr) as [? ?]. done.
        * rewrite lookup_insert_ne by done. apply Hd3.
      + by rewrite decide_True.
    - intros o' Ho' _. rewrite Eh in Ho'.
      destruct (wf_heap _ _ _ _ W o' _ Ho') as [?|[[mb ?] _]]; [lia|congruence]. }
  walk. case_decide as Dg.
  - subst g. eapply runs_value; [reflexivity|]. cbv beta. walk.
    eapply runs_value; [reflexivity|]. cbv beta. walk.
    eapply runs_value; [reflexivity|]. cbv beta. walk.
    match goal with |- Q tt ?F => assert (F = set_j_native (<[r := JavaDeathRecipient 0 0 d]> (j_native s)) s) as -> end.
    { unfold set_j_native. simpl. by rewrite insert_insert_eq. }
    apply HQ; [exists own; apply Hput; eauto; lia|].
    eapply put_native_evolves; [by eapply wf_apart|exact Hr|done].
  - destruct Ho as (Ho & o & Hgl & Hho). reads global_object_run. unfold NewWeakGlobalRef. walk.
    eapply runs_value; [eapply DeleteGlobalRef_run; [done|exact Hgl]|]. walk.
    destruct (wf_new_weak St own pins s (OWeak r) (Some o) W eq_refl) as [W1 E1].
    pose proof (own_fresh St _ _ _ W) as Hf. set (w := j_next s) in *.
    set (s1 := set_j_weaks _ _) in *.
    assert (wf (<[w := OWeak r]> own) pins
      (set_j_native (<[r := JavaDeathRecipient 0 w d]> (j_native s1)) s1)) as W2.
    { apply Hput; [exact W1|done|unfold s1; simpl; lia|done|done|]. right.
      rewrite lookup_insert_eq. split; [done|]. simpl. rewrite lookup_insert_eq. by eexists. }
    pose proof (put_native_evolves s1 r (JavaDeathRecipient g gw d) (JavaDeathRecipient 0 w d)
      (wf_apart _ _ _ _ W1) Hr eq_refl) as E2.
    set (s2 := set_j_native _ s1) in *.
    edestruct (wf_del_global St _ pins s2 g (ODeath r) W2) as [W3 E3]; [|done| |].
    { rewrite lookup_insert_ne by congruence. exact Ho. }
    { intros gw' d'. simpl. rewrite lookup_insert_eq. congruence. }
    match goal with |- Q tt ?F => assert (F = set_j_globals (delete g (j_globals s2)) s2) as -> end.
    { unfold s2, s1, set_j_native, set_j_globals. simpl. by rewrite insert_insert_eq. }
    apply HQ; [by eexists|]. eapply evolves_trans; [by eapply wf_apart|exact E1|].
    eapply evolves_trans; [by eapply wf_apart|exact E2|exact E3].
Qed.

Lemma JavaDeathRecipient_binderDied_spec pins s r g gw d : inv pins s -> r ∈ pins ->
  j_native s !! r = Some (JavaDeathRecipient g gw d) ->
  runs (JavaDeathRecipient_binderDied r) s (fun _ s' => inv pins s' /\ evolves s s').
Proof.
  intros I Hp Hr. unfold JavaDeathRecipient_binderDied. walk. reads as_Recipient_run.
  destruct (Z.eqb_spec g 0) as [->|D]; [walk; eauto|].
  assert (exists o, j_globals s !! g = Some o) as [o Ho].
  { destruct I as [own W]. destruct (wf_native _ _ _ _ W r _ Hr) as [_ Hk].
    rewrite decide_False in Hk by done. destruct Hk as (_ & o & Hgl & _). eauto. }
  walk. reads global_object_run. call jcall_law.
  intros _ s1 [I1 E1]. walk. eapply runs_mono; [by apply (report_pending_spec St)|].
  intros _ s2 (I2 & E2 & _). walk. assert (evolves s s2) as E02 by eauto.
  pose proof (inv_native_pos _ _ _ _ I Hr) as Hz.
  destruct (pinned_kind _ s s2 r _ I2 E02 Hr Hz Hp) as (y & Hr2 & Hk).
  destruct y as [| | |g2 gw2 d2]; simpl in Hk; try done. subst d2.
  eapply runs_mono; [apply (promote_list pins s2 d I2); by eapply recipient_list|].
  intros [d'|] s3 (E3 & [En3 _] & Hp3); cbv beta iota; [|destruct Hp3; walk; eauto].
  destruct Hp3 as (-> & I3 & Hzd & l & Hd).
  assert (j_native s3 !! r = Some (JavaDeathRecipient g2 gw2 d)) as Hr3 by (by rewrite En3).
  walk. reads as_Recipient_run.
  (* regroup: the exchange, then the end of [list] *)
  set (K := fun s4 : jni_state => runs (decStrong List_destroy d) s4
              (fun _ s' => inv pins s' /\ evolves s s')).
  assert (runs (do! o := global_object g2 in
        do! gw := NewWeakGlobalRef o in
        put_native r (JavaDeathRecipient g2 gw d) ;;;
        DeleteGlobalRef g2 ;;;
        put_native r (JavaDeathRecipient 0 gw d)) s3 (fun _ s4 => K s4)) as H.
  { apply (demote_spec (d :: pins) s3 r g2 gw2 d); [done|done|]. intros s4 I4 E4.
    destruct (pinned_kind _ s3 s4 d _ I4 E4 Hd Hzd ltac:(left)) as (y & Hy & Hk4).
    destruct y; simpl in Hk4; try done.
    eapply runs_mono; [eapply (List_dec_spec St); [exact I4|exact Hy]|]. intros _ s5 [I5 E5].
    split; [done|]. eapply ev_step; [exact I|exact E02|]. eapply ev_step; [exact I2|exact E3|].
    eapply ev_step; [exact I3|exact E4|exact E5]. }
  revert H. unfold K, runs, bind.
  destruct (global_object g2 s3) as [o2 s4| | |]; try done.
  destruct (NewWeakGlobalRef o2 s4) as [gw' s5| | |]; try done.
  unfold put_native, modify. destruct (DeleteGlobalRef g2 _) as [[] s6| | |]; try done.
Qed.

(** ** The binders below *)

Lemma lift_runs {A} (m : M A) s (Q : A -> jni_state -> Prop) :
  runs m (j_cpp s) (fun a w => Q a (set_j_cpp w s)) -> runs (lift m) s Q.
Proof. unfold runs, lift. by destruct (m (j_cpp s)). Qed.

Lemma lift_value {A} (m : M A) s a w : m (j_cpp s) = Value a w ->
  lift m s = Value a (set_j_cpp w s).
Proof. unfold lift. by intros ->. Qed.

Lemma set_same_cpp s : set_j_cpp (j_cpp s) s = s.
Proof. by destruct s. Qed.

(** A binder: one of Java's or one of those below. *)
Definition is_binder s (b : Z) : Prop :=
  (exists g, j_native s !! b = Some (JavaBBinder g)) \/ nb_is (j_cpp s) b = true.

Lemma is_binder_alive s b : is_binder s b ->
  is_Some (j_native s !! b) \/ nb_is (j_cpp s) b = true.
Proof. intros [[g Hg]|H]; [left; by eexists|by right]. Qed.

Lemma is_binder_nz pins s b : inv pins s -> is_binder s b -> b <> 0.
Proof.
  intros [own W] [[g Hg]|H]; [destruct (wf_native_range _ _ _ _ W b _ Hg)|
    pose proof (wf_nb_range _ _ _ _ W b H)]; lia.
Qed.

(** It is still one while it is held. *)
Lemma is_binder_evolves pins s s' b : inv pins s -> inv pins s' -> evolves s s' -> b ∈ pins ->
  is_binder s b -> is_binder s' b.
Proof.
  intros I I' Ev Hp Hb. pose proof (is_binder_nz _ _ _ I Hb) as Hz.
  destruct (pinned_alive pins s' b I' Hz (pinned_in _ _ Hp)) as [_ Hal].
  destruct Hb as [[g Hg]|Hn].
  - destruct (pinned_kind pins s s' b _ I' Ev Hg Hz Hp) as (y & Hy & Hk).
    destruct y; simpl in Hk; try done. left. eauto.
  - pose proof (ev_nb _ _ Ev b Hn) as En. right. destruct Hal as [[x Hx]|?]; [congruence|done].
Qed.

Lemma run_cleanups_spec pins b l : forall own s, wf own pins s ->
  nb_is (j_cpp s) b = false -> NoDup l.*1 ->
  (forall i e, (i, e) ∈ l -> oe_func e = Some (fn_proxy_cleanup St) ->
     i = gBinderProxyOffsets St /\ oe_object e <> 0 /\ own !! oe_object e = Some (OProxy b) /\
     is_Some (j_globals s !! oe_object e)) ->
  runs (run_cleanups St l) s (fun _ s' => inv pins s' /\ evolves s s').
Proof.
  induction l as [|[i e] l IH]; intros own s W Hb ND Hl; simpl; walk.
  { split; [by exists own|by eapply evolves_refl, wf_apart]. }
  apply NoDup_cons in ND as [Hni ND]. case_bool_decide as Hf.
  - destruct (Hl i e ltac:(by left) Hf) as (-> & Hz & Ho & [o Hgl]).
    unfold proxy_cleanup, dec_proxy. walk. reads DeleteGlobalRef_run.
    set (s1 := set_j_globals _ _).
    destruct (wf_del_ref St own pins s s1 (oe_object e) (OProxy b) (i32 (gNumProxyRefs s - 1)) W Ho)
      as [W1 E1]; [by left|reflexivity|..].
    { intros g' D. simpl. by rewrite lookup_delete_ne. }
    { done. } { done. }
    eapply runs_mono; [apply (IH _ s1 W1 Hb ND)|].
    + intros i' e' Hin Hf'. destruct (Hl i' e' ltac:(by right) Hf') as (-> & _). destruct Hni.
      apply list_elem_of_fmap. by exists (gBinderProxyOffsets St, e').
    + intros _ s2 [I2 E2]. split; [done|]. eapply evolves_trans; [by eapply wf_apart|exact E1|exact E2].
  - walk. eapply (IH own s W Hb ND). intros i' e' Hin. apply Hl. by right.
Qed.

Lemma IBinder_dec_spec pins s b : inv (b :: pins) s -> is_binder s b ->
  runs (IBinder_decStrong St b) s (fun _ s' => inv pins s' /\ evolves s s').
Proof.
  intros I Hb. pose proof (is_binder_nz _ _ _ I Hb) as Hz. unfold IBinder_decStrong.
  apply (dec_spec St _ pins); [done|done|]. intros q I1 E1 Hq Hqb. split; [done|]. intros H0.
  set (s1 := set_j_refs q s) in *. unfold IBinder_last. walk.
  assert (forall Q : unit -> jni_state -> Prop, (forall s', inv pins s' -> evolves s1 s' -> Q tt s') ->
    forall s', inv pins s' /\ evolves s1 s' -> Q tt s') as HQ by naive_solver.
  destruct Hb as [[g Hg]|Hn].
  - change (j_native s1) with (j_native s). rewrite Hg.
    eapply runs_mono; [eapply (JavaBBinder_destroy_spec St); [exact I1|exact Hg|simpl; lia]|].
    intros _ s2 [I2 E2]. split; [done|by eapply ev_step].
  - assert (j_native s !! b = None) as En.
    { destruct (j_native s !! b) as [x|] eqn:Ex; [|done]. destruct I as [own W].
      destruct (wf_native_range _ _ _ _ W b x Ex). congruence. }
    change (j_native s1) with (j_native s). rewrite En. walk.
    apply lift_runs. destruct I1 as [own W1]. pose proof (wf_state _ _ _ _ W1) as Hst.
    eapply runs_mono; [by apply nb_last_law|]. intros l w (Hw & Hcase). cbv beta.
    destruct Hcase as [(-> & His & Hob)|(-> & His & Hob)].
    + destruct (wf_world St own pins s1 w W1 Hw His Hob) as [W2 E2]. simpl. walk.
      split; [by exists own|]. eapply ev_step; [exact I|exact E1|exact E2].
    + destruct (wf_nb_gone St own pins s1 w b W1 Hw Hn ltac:(simpl; lia) His Hob) as [W2 E2].
      eapply runs_mono; [apply (run_cleanups_spec pins b _ own (set_j_cpp w s1) W2)|].
      * simpl. rewrite His, Z.eqb_refl. by destruct (nb_is _ b).
      * by apply (wf_keys _ _ _ _ W1).
      * intros i e Hin Hf. pose proof (wf_entries _ _ _ _ W1 b i e Hn Hin) as Hok.
        unfold entry_ok in Hok. case_decide as Hi; [|congruence].
        destruct Hok as (_ & Hnz & Ho & wr & ref & Hgl & _). split; [done|]. split; [done|].
        split; [done|]. by exists wr.
      * intros _ s3 [I3 E3]. split; [done|]. eapply ev_step; [exact I|exact E1|].
        eapply ev_step; [by exists own|exact E2|exact E3].
Qed.

(** ** Proxies *)

Lemma set_BinderProxy_mObject_run s o b b0 d r : j_heap s !! o = Some (JBinderProxy b0 d r) ->
  set_BinderProxy_mObject o b s =
  Value tt (set_j_heap (<[o := JBinderProxy b d r]> (j_heap s)) s).
Proof.
  intros H. unfold set_BinderProxy_mObject, bind. by rewrite (heap_object_run _ _ _ H).
Qed.
Lemma set_BinderProxy_mOrgue_run s o b d0 d r : j_heap s !! o = Some (JBinderProxy b d0 r) ->
  set_BinderProxy_mOrgue o d s =
  Value tt (set_j_heap (<[o := JBinderProxy b d r]> (j_heap s)) s).
Proof.
  intros H. unfold set_BinderProxy_mOrgue, bind. by rewrite (heap_object_run _ _ _ H).
Qed.
Lemma BinderProxy_mSelf_run s o b d r : j_heap s !! o = Some (JBinderProxy b d r) ->
  BinderProxy_mSelf o s = Value r s.
Proof. intros H. unfold BinderProxy_mSelf, bind. by rewrite (heap_object_run _ _ _ H). Qed.
Lemma BinderProxy_mObject_run s o b d r : j_heap s !! o = Some (JBinderProxy b d r) ->
  BinderProxy_mObject o s = Value b s.
Proof. intros H. unfold BinderProxy_mObject, bind. by rewrite (heap_object_run _ _ _ H). Qed.
Lemma BinderProxy_mOrgue_run s o b d r : j_heap s !! o = Some (JBinderProxy b d r) ->
  BinderProxy_mOrgue o s = Value d s.
Proof. intros H. unfold BinderProxy_mOrgue, bind. by rewrite (heap_object_run _ _ _ H). Qed.

(** The binder has no Java proxy. *)
Definition no_proxy s (b : Z) : Prop :=
  forall e, (gBinderProxyOffsets St, e) ∉ nb_objects (j_cpp s) b.

Lemma objects_add_elem i e l x :
  x ∈ objects_add i e l <-> x = (i, e) \/ x ∈ l.
Proof.
  induction l as [|[i' e'] l IH]; simpl; [rewrite elem_of_cons; split; [|naive_solver];
    intros [?|?%not_elem_of_nil]; auto; done|].
  destruct (i <? i'); rewrite ?elem_of_cons; [done|]. rewrite IH. naive_solver.
Qed.

Lemma objects_add_keys i e l : NoDup l.*1 -> i ∉ l.*1 -> NoDup (objects_add i e l).*1.
Proof.
  induction l as [|[i' e'] l IH]; simpl; intros ND Hi.
  - apply NoDup_singleton.
  - apply NoDup_cons in ND as [Hn ND]. apply not_elem_of_cons in Hi as [Di Hi].
    destruct (i <? i'); simpl.
    + constructor; [by apply not_elem_of_cons|]. by constructor.
    + constructor; [|by apply IH]. intros Hin. apply list_elem_of_fmap in Hin as ([j x] & Hj & Hin).
      apply objects_add_elem in Hin as [[= -> ->]|Hin]; simpl in Hj; [done|]. subst.
      apply Hn, list_elem_of_fmap. by exists (j, x).
Qed.

Lemma proxy_entry_mono own s s' b e :
  (forall g o, own !! g = Some o -> j_globals s' !! g = j_globals s !! g) ->
  (forall o x, j_heap s !! o = Some x -> exists y, j_heap s' !! o = Some y /\
     (forall r, x = JWeakReference r -> y = x) /\
     (forall b d r, x = JBinderProxy b d r -> exists d' r', y = JBinderProxy b d' r')) ->
  proxy_entry St own s b e -> proxy_entry St own s' b e.
Proof.
  intros Hg Hh (Hf & Hz & Ho & w & ref & Hgl & Hw & Hr). split; [done|]. split; [done|].
  split; [done|]. exists w, ref. rewrite (Hg _ _ Ho). split; [done|].
  destruct (Hh w _ Hw) as (y & Hy & Hyr & _). rewrite (Hyr ref eq_refl) in Hy. split; [done|].
  intros p Hp. destruct (Hr p Hp) as (d & r & Hpx). destruct (Hh p _ Hpx) as (z & Hz' & _ & Hzp).
  destruct (Hzp b d r eq_refl) as (d' & r' & ->). eauto.
Qed.

Lemma new_proxy_object_spec pins s b : inv pins s -> nb_is (j_cpp s) b = true -> no_proxy s b ->
  runs (new_proxy_object St b) s (fun r s' => inv pins s' /\ evolves s s' /\
    match r with
    | None => True
    | Some p => j_heap s !! p = None /\ exists d w, j_heap s' !! p = Some (JBinderProxy b d w)
    end).
Proof.
  intros I Hb Hno. unfold new_proxy_object. walk. eapply runs_mono; [apply (new_proxy_law St)|].
  intros [p|] s' Hnew; cbv beta iota; [|destruct (inv_gc pins s s' I Hnew); by walk].
  destruct Hnew as (s1 & w & n & Hgc & -> & Hp & Hw & Dpw).
  destruct (inv_gc pins s s1 I Hgc) as [I1 E1]. pose proof I1 as [own W1].
  assert (j_cpp s1 = j_cpp s) as Ec1 by (destruct Hgc as [Hs _ _]; by rewrite Hs).
  assert (j_next s1 = j_next s) as Ex1 by (destruct Hgc as [Hs _ _]; by rewrite Hs).
  rewrite <- Ec1 in Hb. pose proof (wf_next _ _ _ _ W1) as Hn1.
  assert (j_heap s !! p = None) as Hfresh.
  { destruct (j_heap s !! p) as [x|] eqn:Ep; [|done]. destruct I as [own0 W0].
    pose proof (wf_heap_range _ _ _ _ W0 p x Ep). lia. }
  destruct (wf_with_proxy St own pins s1 p w n W1) as [W2 E2]; [lia|lia|done|].
  set (s2 := with_proxy p w n s1) in *.
  assert (j_heap s2 !! p = Some (JBinderProxy 0 0 (Some w))) as Hp2 by apply lookup_insert_eq.
  assert (j_heap s2 !! w = Some (JWeakReference (Some p))) as Hw2.
  { simpl. rewrite lookup_insert_ne by done. apply lookup_insert_eq. }
  pose proof (wf_nb_range _ _ _ _ W1 b Hb) as Hbr. pose proof (wf_state _ _ _ _ W1) as Hst.
  (* the updates, ordered so that every one keeps the invariant *)
  pose proof (wf_inc St own pins s2 b W2 ltac:(lia) ltac:(by right) _
    (strong_inc b (j_refs s2))) as W3.
  set (s3 := set_j_refs _ s2) in *.
  set (s4 := set_gNumProxyRefs (i32 (gNumProxyRefs s3 + 1))
    (set_j_globals (<[n := w]> (j_globals s3)) (set_j_weaks (j_weaks s3) (set_j_next (n + 1) s3)))).
  destruct (wf_new_ref St own (b :: pins) s3 s4 (OProxy b) (<[n := w]> (j_globals s3)) (j_weaks s3)
    (i32 (gNumProxyRefs s3 + 1)) W3) as [W4 E4]; [done|right; by exists w|by left|done|].
  change (j_next s3) with n in W4. set (own4 := <[n := OProxy b]> own) in *.
  set (drl := n + 1). set (s5 := set_j_native (<[drl := DeathRecipientList []]> (j_native s4))
    (set_j_next (drl + 1) s4)).
  destruct (wf_new_native St own4 (b :: pins) s4 s5 (DeathRecipientList []) W4) as [W5 E5];
    [reflexivity|reflexivity|reflexivity| |done|].
  { split; [constructor|]. by intros r ?%not_elem_of_nil. }
  assert (j_native s5 !! drl = Some (DeathRecipientList [])) as Hd5 by apply lookup_insert_eq.
  pose proof (wf_inc St own4 _ s5 drl W5 ltac:(unfold drl; lia) ltac:(left; by eexists) _
    (strong_inc drl (j_refs s5))) as W6.
  set (s6 := set_j_refs _ s5) in *.
  pose proof (wf_inc St own4 _ s6 drl W6 ltac:(unfold drl; lia) ltac:(left; by eexists) _
    (strong_inc drl (j_refs s6))) as W7.
  set (s7 := set_j_refs _ s6) in *. set (px := JBinderProxy b drl (Some w)).
  assert (b <> drl) as Dbd by (unfold drl; lia).
  assert (drl <> 0) as Hdz by (unfold drl; lia).
  assert (wf own4 (drl :: pins) (set_j_heap (<[p := px]> (j_heap s7)) s7)) as W8.
  { eapply wf_put_heap; [exact W7|exact Hp2|done|..]; try done.
    - right. split; [done|]. by exists [].
    - intros b' d' r' [= <- _ _] ?. done.
    - intros c Hc. unfold px. cbn [holds pinned]. rewrite (proj2 (Z.eqb_neq 0 c)) by lia.
      rewrite (Z.eqb_sym c b), (Z.eqb_sym c drl).
      destruct (Z.eqb_spec b c), (Z.eqb_spec drl c); cbn [orb Z.b2z]; lia. }
  set (s8 := set_j_heap _ s7) in *.
  (* the attached object *)
  set (ent := ObjectEntry n (the_JavaVM St) (Some (fn_proxy_cleanup St))).
  destruct (nb_attach_law (j_cpp s1) b (gBinderProxyOffsets St) n (the_JavaVM St)
    (Some (fn_proxy_cleanup St)) Hst Hb) as (w1 & Eat & Hw1 & His & Hob).
  assert (ObjectManager_attach (gBinderProxyOffsets St) n (the_JavaVM St)
    (Some (fn_proxy_cleanup St)) (nb_objects (j_cpp s1) b) =
    objects_add (gBinderProxyOffsets St) ent (nb_objects (j_cpp s1) b)) as Hadd.
  { unfold ObjectManager_attach. rewrite bool_decide_eq_false_2; [done|].
    intros Hin. apply list_elem_of_fmap in Hin as ([i e] & Hi & Hin). simpl in Hi. subst i.
    rewrite Ec1 in Hin. by apply (Hno e). }
  destruct (wf_objects St own4 (drl :: pins) s8 w1 W8 Hw1 His) as [W9 E9].
  { intros b' Hb'. rewrite Hob. case_decide as Db; [subst b'; rewrite Hadd|].
    - split.
      + apply objects_add_keys; [by apply (wf_keys _ _ _ _ W1)|].
        intros Hin. apply list_elem_of_fmap in Hin as ([i e] & Hi & Hin). simpl in Hi. subst i.
        rewrite Ec1 in Hin. by apply (Hno e).
      + intros i e Hin. apply objects_add_elem in Hin as [[= -> ->]|Hin].
        * unfold entry_ok. rewrite decide_True by done. split; [done|]. split; [simpl; lia|].
          split; [apply lookup_insert_eq|]. exists w, (Some p). simpl. rewrite lookup_insert_eq.
          split; [done|]. rewrite lookup_insert_ne by done. split; [exact Hw2|].
          intros q [= <-]. rewrite lookup_insert_eq. by exists drl, (Some w).
        * apply (wf_entries _ _ _ _ W8 b i e Hb Hin).
    - split; [by apply (wf_keys _ _ _ _ W1)|]. intros i e. by apply (wf_entries _ _ _ _ W8). }
  set (s9 := set_j_cpp w1 s8) in *.
  assert (evolves s s9) as E09.
  { eapply ev_step; [exact I|exact E1|]. eapply evolves_trans; [by eapply wf_apart|exact E2|].
    split.
    - simpl. lia.
    - intros a x Ha. simpl. rewrite His. destruct (wf_native_range _ _ _ _ W2 a x Ha) as [Ha1 Ha2].
      split; [done|]. simpl in Ha1. unfold drl. rewrite lookup_insert_ne by lia. intros y Hy.
      simpl in Ha. rewrite Ha in Hy. simplify_eq. apply same_kind_refl.
    - intros a Ha. simpl. pose proof (wf_nb_range _ _ _ _ W2 a Ha) as Har. simpl in Har.
      unfold drl. rewrite lookup_insert_ne by lia.
      by apply (ev_nb _ _ (evolves_refl s2 (wf_apart _ _ _ _ W2)) a).
    - intros a Ha Hna Hba. simpl in *. rewrite His. unfold drl. rewrite lookup_insert_ne by lia. done.
    - intros o x Ho. simpl. destruct (decide (o = p)) as [->|D].
      + rewrite lookup_insert_eq. rewrite Hp2 in Ho. simplify_eq. by eexists.
      + rewrite lookup_insert_ne by done. exists x. split; [done|apply same_class_refl]. }
  (* the code *)
  walk. eapply runs_value; [apply (set_BinderProxy_mObject_run _ _ _ _ _ _ Hp2)|]. walk.
  eapply runs_value; [eapply BinderProxy_mSelf_run; simpl; apply lookup_insert_eq|]. walk.
  unfold NewGlobalRef. walk. eapply runs_value; [eapply lift_value; exact Eat|]. walk.
  eapply runs_value; [eapply set_BinderProxy_mOrgue_run; simpl; apply lookup_insert_eq|].
  unfold inc_proxy. walk.
  match goal with |- runs incRefsCreated ?F _ => assert (F = s9) as -> end.
  { unfold s9, s8, s7, s6, s5, s4, s3. unfold set_j_heap, set_j_cpp. simpl.
    by rewrite insert_insert_eq. }
  eapply runs_mono; [apply (incRefsCreated_frame St (drl :: pins) s9); by eexists|].
  intros _ s10 (I10 & E10 & En & Er & Eg & Ec & s0 & Hs0 & Hgc0). walk.
  assert (j_heap s10 !! p = Some px) as Hp10.
  { eapply (gc_keeps s9 s0); [exact Hs0|exact Hgc0|done|]. apply lookup_insert_eq. }
  match goal with |- runs (decStrong _ ?x) _ _ => change x with drl end.
  apply (dec_spec St _ pins); [done|done|]. intros q I11 E11 Hq Hqd. split.
  - intros _. walk. split; [done|]. split.
    + eapply ev_step; [exact I|exact E09|]. eapply evolves_trans; [by eapply wf_apart|exact E10|exact E11].
    + split; [done|]. exists drl, (Some w). exact Hp10.
  - intros H0. exfalso. destruct I10 as [own10 W10].
    pose proof (wf_counts _ _ _ _ W10 drl Hdz) as Hc.
    pose proof (owners_heap s10 drl p px Hp10) as Ho. simpl in Ho. rewrite Z.eqb_refl, orb_true_r in Ho.
    specialize (Ho eq_refl). pose proof (pinned_head drl pins). lia.
Qed.

Lemma find_Some i l g : ObjectManager_find i l = Some g ->
  exists e, (i, e) ∈ l /\ oe_object e = g.
Proof.
  induction l as [|[j e] l IH]; simpl; [done|]. destruct (Z.eqb_spec j i) as [->|D].
  - intros [= <-]. exists e. split; [by left|done].
  - intros H. destruct (IH H) as (e' & Hin & He). exists e'. split; [by right|done].
Qed.

Lemma find_None i l e : ObjectManager_find i l = None -> (i, e) ∉ l.
Proof.
  induction l as [|[j e'] l IH]; simpl; [intros _; apply not_elem_of_nil|].
  destruct (Z.eqb_spec j i) as [->|D]; [done|]. intros H. apply not_elem_of_cons.
  split; [congruence|by apply IH].
Qed.

(** The Java proxy of a binder, while the collector has not taken it. *)
Definition proxy_of s (b p : Z) : Prop := exists g w,
  ObjectManager_find (gBinderProxyOffsets St) (nb_objects (j_cpp s) b) = Some g /\
  j_globals s !! g = Some w /\ j_heap s !! w = Some (JWeakReference (Some p)).

Lemma proxy_of_mObject pins s b p : inv pins s -> nb_is (j_cpp s) b = true -> proxy_of s b p ->
  exists d w, j_heap s !! p = Some (JBinderProxy b d w).
Proof.
  intros [own W] Hb (g & w & Hf & Hgl & Hw). destruct (find_Some _ _ _ Hf) as (e & Hin & He).
  pose proof (wf_entries _ _ _ _ W b _ e Hb Hin) as Hok. unfold entry_ok in Hok.
  rewrite decide_True in Hok by done. destruct Hok as (_ & _ & _ & w' & ref & Hgl' & Hw' & Hr).
  rewrite He in Hgl'. simplify_eq. by apply Hr.
Qed.

Lemma deref_run pins s b : inv pins s -> b <> 0 -> b ∈ pins -> deref_IBinder b s = Value tt s.
Proof.
  intros I Hz Hp. destruct (pinned_alive pins s b I Hz (pinned_in _ _ Hp)) as [H _].
  unfold deref_IBinder, bind, gets, id. by rewrite (proj2 (Z.ltb_lt _ _) H).
Qed.

(** The entry of a proxy that was collected goes. *)
Lemma forget_proxy_spec pins s b g (Q : unit -> jni_state -> Prop) : inv pins s ->
  nb_is (j_cpp s) b = true ->
  ObjectManager_find (gBinderProxyOffsets St) (nb_objects (j_cpp s) b) = Some g ->
  (forall s', inv pins s' -> evolves s s' -> nb_is (j_cpp s') b = true -> no_proxy s' b ->
     j_heap s' = j_heap s -> Q tt s') ->
  runs (dec_proxy ;;; lift (nb_detachObject b (gBinderProxyOffsets St)) ;;; DeleteGlobalRef g) s Q.
Proof.
  intros [own W] Hb Hf HQ. pose proof (wf_state _ _ _ _ W) as Hst.
  destruct (find_Some _ _ _ Hf) as (e & Hin & He).
  pose proof (wf_entries _ _ _ _ W b _ e Hb Hin) as Hok. unfold entry_ok in Hok.
  rewrite decide_True in Hok by done. destruct Hok as (_ & Hz & Ho & w & ref & Hgl & _).
  rewrite He in Hz, Ho, Hgl.
  destruct (nb_detach_law (j_cpp s) b (gBinderProxyOffsets St) Hst Hb) as (w1 & Ed & Hw1 & His & Hob).
  assert (forall i x, (i, x) ∈ ObjectManager_detach (gBinderProxyOffsets St) (nb_objects (j_cpp s) b) <->
    (i, x) ∈ nb_objects (j_cpp s) b /\ i <> gBinderProxyOffsets St) as Hdet.
  { intros i x. unfold ObjectManager_detach. rewrite list_elem_of_filter. simpl. naive_solver. }
  destruct (wf_objects St own pins s w1 W Hw1 His) as [W1 E1].
  { intros b' Hb'. rewrite Hob. case_decide as Db; [subst b'|].
    - split.
      + pose proof (wf_keys _ _ _ _ W b Hb) as ND. revert ND. clear. unfold ObjectManager_detach.
        generalize (nb_objects (j_cpp s) b) as l. induction l as [|[i x] l IH]; simpl; [done|].
        rewrite NoDup_cons. intros [Hn ND]. rewrite filter_cons. case_decide; [|by apply IH].
        simpl. constructor; [|by apply IH]. intros Hin. apply Hn.
        apply list_elem_of_fmap in Hin as (y & Hy & Hin). apply list_elem_of_filter in Hin as [_ Hin].
        apply list_elem_of_fmap. by exists y.
      + intros i x [Hix _]%Hdet. by apply (wf_entries _ _ _ _ W).
    - split; [by apply (wf_keys _ _ _ _ W)|]. intros i x. by apply (wf_entries _ _ _ _ W). }
  unfold dec_proxy. walk. eapply runs_value; [eapply lift_value; exact Ed|]. walk.
  eapply runs_value; [eapply DeleteGlobalRef_run; [exact Hz|exact Hgl]|].
  set (s1 := set_j_cpp w1 s) in *. match goal with |- Q tt ?F => set (s2 := F) end.
  destruct (wf_del_ref St own pins s1 s2 g (OProxy b) (i32 (gNumProxyRefs s1 - 1)) W1 Ho)
    as [W2 E2]; [|reflexivity|..].
  { right. intros x Hx. simpl in Hx. rewrite Hob, decide_True in Hx by done. by apply Hdet in Hx as [_ ?]. }
  { intros g' D. simpl. by rewrite lookup_delete_ne. }
  { done. } { done. }
  apply HQ; [by eexists|eapply evolves_trans; [by eapply wf_apart|exact E1|exact E2]|..|done].
  - simpl. by rewrite His.
  - intros x Hx. simpl in Hx. rewrite Hob, decide_True in Hx by done. by apply Hdet in Hx as [_ ?].
Qed.

Lemma javaObjectForIBinder_spec pins s b : inv pins s ->
  (b = 0 \/ is_binder s b /\ b ∈ pins) ->
  runs (javaObjectForIBinder St b) s (fun r s' => inv pins s' /\ evolves s s' /\
    (b = 0 -> r = None) /\
    (forall g, j_native s !! b = Some (JavaBBinder g) -> r = j_globals s !! g /\ is_Some r /\ s' = s) /\
    (nb_is (j_cpp s) b = true ->
       (forall p, proxy_of s b p -> r = Some p /\ s' = s) /\
       ((forall p, ~ proxy_of s b p) -> forall p, r = Some p -> j_heap s !! p = None) /\
       (forall p, r = Some p -> exists d w, j_heap s' !! p = Some (JBinderProxy b d w)))).
Proof.
  intros I Hb. unfold javaObjectForIBinder. destruct Hb as [->|[Hb Hp]].
  { walk. split; [done|]. split; [eauto|]. split; [done|]. destruct I as [own W]. split.
    - intros g Hg. destruct (wf_native_range _ _ _ _ W 0 _ Hg). lia.
    - intros H. pose proof (wf_nb_range _ _ _ _ W 0 H). lia. }
  pose proof (is_binder_nz _ _ _ I Hb) as Hz. rewrite (proj2 (Z.eqb_neq _ _) Hz). walk.
  eapply runs_value; [by eapply deref_run|]. unfold checkSubclass. walk.
  pose proof I as [own W]. pose proof (wf_state _ _ _ _ W) as Hst. destruct Hb as [[g Hg]|Hn].
  - rewrite Hg. walk. destruct (wf_native _ _ _ _ W b _ Hg) as (_ & Hgz & o & h & Hgl & _).
    reads global_object_run. split; [done|]. split; [eauto|]. split; [done|]. split.
    + intros g' Hg'. simplify_eq. rewrite Hgl. done.
    + intros Hn. destruct (wf_native_range _ _ _ _ W b _ Hg). congruence.
  - assert (j_native s !! b = None) as En.
    { destruct (j_native s !! b) as [x|] eqn:Ex; [|done].
      destruct (wf_native_range _ _ _ _ W b x Ex). congruence. }
    rewrite En, Hn. walk.
    eapply runs_value; [eapply lift_value, nb_find_law; [done|done]|]. rewrite set_same_cpp. walk.
    destruct (ObjectManager_find (gBinderProxyOffsets St) (nb_objects (j_cpp s) b)) as [g|] eqn:Ef; simpl default.
    + destruct (find_Some _ _ _ Ef) as (e & Hin & He).
      pose proof (wf_entries _ _ _ _ W b _ e Hn Hin) as Hok. unfold entry_ok in Hok.
      rewrite decide_True in Hok by done. destruct Hok as (_ & Hgz & Ho & w & ref & Hgl & Hw & Hr).
      rewrite He in Hgz, Ho, Hgl. cbv zeta. rewrite (proj2 (Z.eqb_neq _ _) Hgz).
      unfold jniGetReferent. walk. reads global_object_run. eapply runs_value; [by eapply heap_object_run|]. walk.
      destruct ref as [p|]; cbv beta iota.
      * walk. split; [done|]. split; [eauto|]. split; [done|]. split; [congruence|]. intros _.
        assert (proxy_of s b p) as Hpo by (exists g, w; done). split; [|split].
        { intros p' (g' & w' & Hf' & Hgl' & Hw'). simplify_eq. done. }
        { intros Hno. by destruct (Hno p). }
        { intros p' [= <-]. by apply Hr. }
      * apply runs_group3, (forget_proxy_spec pins s b g); [done|done|done|].
        intros s1 I1 E1 Hn1 Hno1 Eh1. eapply runs_mono; [by apply new_proxy_object_spec|].
        intros r s2 (I2 & E2 & Hr2). split; [done|]. split; [eauto|]. split; [done|].
        split; [congruence|]. intros _. split; [|split].
        { intros p (g' & w' & Hf' & Hgl' & Hw'). simplify_eq. }
        { intros _ p ->. destruct Hr2 as [Hp2 _]. by rewrite Eh1 in Hp2. }
        { intros p ->. by destruct Hr2. }
    + assert (forall e, (gBinderProxyOffsets St, e) ∉ nb_objects (j_cpp s) b) as Hno
        by (intros e; by apply find_None).
      cbv beta iota delta [negb]. simpl Z.eqb.
      eapply runs_mono; [by apply new_proxy_object_spec|].
      intros r s2 (I2 & E2 & Hr2). split; [done|]. split; [eauto|]. split; [done|].
      split; [congruence|]. intros _. split; [|split].
      { intros p (g' & w' & Hf' & Hgl' & Hw'). simplify_eq. }
      { intros _ p ->. by destruct Hr2. }
      { intros p ->. by destruct Hr2. }
Qed.

Lemma bind_Value {W A B} (m : prog W A) (f : A -> prog W B) w b w' : bind m f w = Value b w' ->
  exists a w1, m w = Value a w1 /\ f a w1 = Value b w'.
Proof. unfold bind. destruct (m w) as [a w1| | |]; [|done..]. by exists a, w1. Qed.

Ltac binds H :=
  repeat (apply bind_Value in H; let a := fresh "a" in let w := fresh "w" in let E := fresh "Eb" in
          destruct H as (a & w & E & H)).

(** NULL comes only from Java's [new]. *)
Lemma new_proxy_object_none b s s' : new_proxy_object St b s = Value None s' ->
  new_BinderProxy s = Value None s'.
Proof.
  intros H. unfold new_proxy_object in H. apply bind_Value in H as ([p|] & s1 & En & H).
  - binds H. discriminate H.
  - rewrite En. by injection H as ->.
Qed.

Lemma javaObjectForIBinder_none pins s b s' : inv pins s -> nb_is (j_cpp s) b = true ->
  javaObjectForIBinder St b s = Value None s' -> exists s1, new_BinderProxy s1 = Value None s'.
Proof.
  intros [own W] Hb H. pose proof (wf_nb_range _ _ _ _ W b Hb).
  unfold javaObjectForIBinder in H. rewrite (proj2 (Z.eqb_neq b 0)) in H by lia.
  apply bind_Value in H as (u & s1 & E1 & H). apply bind_Value in H as (ours & s2 & E2 & H).
  assert (s1 = s) as ->.
  { unfold deref_IBinder, bind, gets, id, bad, crash, ret in E1. destruct (0 <? _); [by injection E1|done]. }
  assert (ours = None) as ->.
  { unfold checkSubclass, bind, gets, id in E2. destruct (j_native s !! b) as [x|] eqn:Ex.
    - destruct (wf_native_range _ _ _ _ W b x Ex). congruence.
    - rewrite Hb in E2. by injection E2. }
  apply bind_Value in H as (object & s3 & _ & H). cbv zeta in H. destruct (negb _).
  - apply bind_Value in H as ([p|] & s4 & _ & H); [discriminate H|].
    do 3 (apply bind_Value in H as (? & ? & _ & H)). by eapply ex_intro, new_proxy_object_none.
  - by eapply ex_intro, new_proxy_object_none.
Qed.

(** [ibinderForJavaObject] and back: the binder made for a local object, the
    binder of a proxy. *)
Lemma ibinderForJavaObject_spec pins s obj : inv pins s ->
  (forall o, obj = Some o -> is_Some (j_heap s !! o)) ->
  runs (ibinderForJavaObject obj) s (fun b s' => evolves s s' /\
    (b = 0 /\ inv pins s' \/ inv (b :: pins) s' /\ is_binder s' b) /\
    forall o x, obj = Some o -> j_heap s !! o = Some x ->
      match x with
      | JBinder h => if h =? 0 then b = 0
          else exists g, j_native s' !! b = Some (JavaBBinder g) /\ j_globals s' !! g = Some o
      | JBinderProxy b' _ _ => b = b'
      | _ => b = 0
      end).
Proof.
  intros I Ho. destruct obj as [o|]; simpl; [|walk; split; [eauto|]; split; [by left|done]].
  destruct (Ho o eq_refl) as [x Hx]. walk. eapply runs_value; [by eapply heap_object_run|].
  pose proof I as [own W]. pose proof (wf_heap _ _ _ _ W o x Hx) as Hok.
  destruct x as [h|b d w|r|p|c]; cbn [is_Binder is_BinderProxy]; cbv beta iota.
  - walk. eapply runs_value; [unfold Binder_mObject, bind; by rewrite (heap_object_run _ _ _ Hx)|].
    destruct (Z.eqb_spec h 0) as [->|D]; walk.
    + split; [eauto|]. split; [by left|]. intros o' x' [= <-] Hx'. simplify_eq. done.
    + destruct Hok as [?|[[mb Hh] _]]; [done|].
      eapply runs_mono; [by eapply (Holder_get_spec St pins s h o mb)|].
      intros b s' (I' & E' & Hz & g & Hg & Hgl). split; [done|]. split.
      * right. split; [done|]. left. by exists g.
      * intros o' x' [= <-] Hx'. simplify_eq. rewrite (proj2 (Z.eqb_neq _ _) D). by exists g.
  - walk. eapply runs_value; [by eapply BinderProxy_mObject_run|].
    destruct (Z.eqb_spec b 0) as [->|D]; walk.
    + split; [eauto|]. split; [by left|]. intros o' x' [= <-] Hx'. simplify_eq. done.
    + destruct Hok as [[? _]|[Hn _]]; [done|].
      assert (0 < strong (j_refs s) b) as Hst.
      { pose proof (wf_counts _ _ _ _ W b D). pose proof (pinned_nonneg pins b).
        pose proof (owners_heap s b o _ Hx ltac:(simpl; by rewrite Z.eqb_refl)). lia. }
      eapply runs_value; [unfold deref_IBinder, bind, gets, id;
        by rewrite (proj2 (Z.ltb_lt _ _) Hst)|]. walk.
      destruct (inc_spec St pins s b I D ltac:(by right)) as [I1 E1].
      split; [done|]. split; [right; split; [done|by right]|].
      intros o' x' [= <-] Hx'. by simplify_eq.
  - walk. split; [eauto|]. split; [by left|]. intros o' x' [= <-] Hx'. by simplify_eq.
  - walk. split; [eauto|]. split; [by left|]. intros o' x' [= <-] Hx'. by simplify_eq.
  - walk. split; [eauto|]. split; [by left|]. intros o' x' [= <-] Hx'. by simplify_eq.
Qed.

(** ** android.os.Binder *)

Lemma set_Binder_mObject_run s o h h0 : j_heap s !! o = Some (JBinder h0) ->
  set_Binder_mObject o h s = Value tt (set_j_heap (<[o := JBinder h]> (j_heap s)) s).
Proof. intros H. unfold set_Binder_mObject, bind. by rewrite (heap_object_run _ _ _ H). Qed.

Lemma Binder_init_spec pins s o h : inv pins s -> j_heap s !! o = Some (JBinder h) ->
  runs (android_os_Binder_init o) s (fun _ s' => inv pins s' /\ evolves s s' /\
    exists h', h' <> 0 /\ j_heap s' !! o = Some (JBinder h')).
Proof.
  intros I Ho. pose proof I as [own W]. unfold android_os_Binder_init. walk.
  pose proof (wf_next _ _ _ _ W) as Hn. set (h' := j_next s) in *.
  set (s1 := set_j_native (<[h' := JavaBBinderHolder None]> (j_native s)) (set_j_next (h' + 1) s)).
  destruct (wf_new_native St own pins s s1 (JavaBBinderHolder None) W) as [W1 E1];
    [reflexivity|reflexivity|reflexivity|done|done|].
  assert (j_native s1 !! h' = Some (JavaBBinderHolder None)) as Hh by apply lookup_insert_eq.
  pose proof (wf_inc St own pins s1 h' W1 ltac:(lia) ltac:(left; by eexists) _
    (strong_inc h' (j_refs s1))) as W2.
  set (s2 := set_j_refs _ s1) in *.
  eapply runs_value; [exact (set_Binder_mObject_run s2 o h' h Ho)|].
  match goal with |- _ pins ?F /\ _ => set (s3 := F) end.
  assert (wf own pins s3) as W3.
  { eapply wf_put_heap; [exact W2|exact Ho|done|..]; try done.
    - right. split; [by exists None|]. intros j g Hj. simpl in Hj. rewrite lookup_insert_eq in Hj. done.
    - intros h2 o' [= <-] _ Ho'. simpl in Ho'.
      destruct (wf_heap _ _ _ _ W o' _ Ho') as [?|[[mb Hmb] _]]; [lia|].
      destruct (wf_native_range _ _ _ _ W _ _ Hmb). lia.
    - intros a Ha. cbn [holds pinned]. rewrite (Z.eqb_sym a h'). destruct (h' =? a), (h =? a); simpl; lia. }
  split; [by exists own|]. split.
  - eapply evolves_trans; [by eapply wf_apart|exact E1|].
    destruct (put_heap_evolves s2 o _ (JBinder h') (wf_apart _ _ _ _ W2) Ho Logic.I) as [N2 K2 B2 G2 H2].
    by split.
  - exists h'. split; [lia|]. apply lookup_insert_eq.
Qed.

Lemma Binder_destroy_spec pins s o h : inv pins s -> j_heap s !! o = Some (JBinder h) ->
  runs (android_os_Binder_destroy o) s (fun _ s' => inv pins s' /\ evolves s s').
Proof.
  intros I Ho. pose proof I as [own W]. unfold android_os_Binder_destroy. walk.
  assert (Binder_mObject o s = Value h s) as Hm
    by (unfold Binder_mObject, bind; by rewrite (heap_object_run _ _ _ Ho)).
  eapply runs_value; [exact Hm|]. destruct (Z.eqb_spec h 0) as [->|D]; walk; [eauto|].
  eapply runs_value; [exact (set_Binder_mObject_run s o 0 h Ho)|].
  cbv beta. destruct (wf_heap _ _ _ _ W o _ Ho) as [?|[[mb Hh] _]]; [done|].
  match goal with |- runs _ ?F _ => set (s1 := F) end.
  assert (wf own (h :: pins) s1) as W1.
  { eapply wf_put_heap; [exact W|exact Ho|done|by left|..]; try done.
    - by intros h2 o' [= <-].
    - intros a Ha. cbn [holds pinned]. rewrite (Z.eqb_sym a h), (proj2 (Z.eqb_neq 0 a)) by lia.
      destruct (h =? a); simpl; lia. }
  pose proof (put_heap_evolves s o _ (JBinder 0) (wf_apart _ _ _ _ W) Ho Logic.I) as E1.
  eapply runs_mono; [eapply (Holder_dec_spec St pins s1); [by exists own|exact Hh]|].
  intros _ s2 [I2 E2]. split; [done|]. eapply ev_step; [exact I|exact E1|exact E2].
Qed.

End Meths.
