(* ===== verification/JniNatives.v ===== *)
(** * JniNatives: the native methods of BinderProxy, and calls into Java

    The last method lemmas of [JniMeths]: calls that go down to [IPCThreadState],
    death links, the end of a proxy, transactions both ways. *)

From S2P Require Import Prelude Uapi Parcel CppWorld ProcessState IpcCore BpBinder Proxy RefBase JniWorld JniBinder JniInv JniOps JniMeths JniProxies.

#[local] Open Scope Z_scope.

(** ** Methods of the thread *)

Section Quiet.
Context `{PL : ParcelLib} `{U : BinderUapi}.

(** Leaves the thread and the process with their state, and the proxies alone. *)
Definition quiet {A} (m : M A) : Prop := forall w, has_state w ->
  runs m w (fun _ w' => has_state w' /\ w_proxies w' = w_proxies w).

Lemma quiet_ret {A} (a : A) : quiet (ret a).
Proof. intros w H. done. Qed.
Lemma quiet_bind {A B} (m : M A) (f : A -> M B) : quiet m -> (forall a, quiet (f a)) ->
  quiet (bind m f).
Proof.
  intros Hm Hf w H. apply runs_bind. eapply runs_mono; [by apply Hm|]. intros a w1 [H1 P1].
  eapply runs_mono; [by apply Hf|]. intros b w2 [H2 P2]. by rewrite P2.
Qed.
Lemma quiet_this : quiet this.
Proof. intros w H. pose proof H as (_ & [t Ht] & _). unfold runs, this. by rewrite Ht. Qed.
Lemma quiet_put_this t : quiet (put_this t).
Proof.
  intros w (Ht & Hs & Hp). split; [|done]. split; [done|]. split; [|done]. simpl.
  rewrite lookup_insert_eq. by eexists.
Qed.
Lemma quiet_process : quiet process.
Proof. intros w H. pose proof H as (_ & _ & [p Hp]). unfold runs, process. by rewrite Hp. Qed.
Lemma quiet_ioctl fd c : quiet (ioctl fd c).
Proof.
  intros w H. unfold runs, ioctl. simpl. destruct (w_answers w); [done|]. split; [exact H|done].
Qed.
Lemma quiet_out_of_fuel {A} : quiet (@out_of_fuel _ A).
Proof. by intros w H. Qed.
Lemma quiet_get {A} (f : world -> A) : quiet (gets f).
Proof. by intros w H. Qed.
Lemma quiet_bg b : quiet (disableBackgroundScheduling b).
Proof. by intros w H. Qed.

#[local] Hint Resolve quiet_ret quiet_this quiet_put_this quiet_process quiet_ioctl
  quiet_out_of_fuel quiet_get : core.

Lemma quiet_upd f : quiet (upd_this f).
Proof. apply quiet_bind; [done|intros; done]. Qed.
#[local] Hint Resolve quiet_upd : core.

Context (E : cpp_env) (Sys : system) (garbage : Z).

Lemma quiet_ioctl_loop n fd c : quiet (ioctl_loop n fd c).
Proof.
  induction n as [|n IH]; simpl; [done|]. apply quiet_bind; [done|intros a].
  apply quiet_bind; [done|intros p]. destruct (_ =? _); [done|done].
Qed.

Lemma quiet_talk b : quiet (talkWithDriver E b).
Proof.
  unfold talkWithDriver. apply quiet_bind; [done|intros p]. destruct (_ <=? _); [done|].
  apply quiet_bind; [done|intros t]. cbv zeta. destruct (_ && _); [done|].
  destruct (negb _); [done|]. apply quiet_bind.
  - unfold ioctl_retry. apply quiet_bind; [done|intros w]. apply quiet_ioctl_loop.
  - intros [err a]. destruct (_ <=? _); [|done]. apply quiet_bind; [done|done].
Qed.

Lemma quiet_flush : quiet (flushCommands E).
Proof.
  unfold flushCommands. apply quiet_bind; [done|intros p]. destruct (_ <=? _); [done|].
  apply quiet_bind; [apply quiet_talk|done].
Qed.

Lemma quiet_clear : quiet (clearCallingIdentity E).
Proof.
  unfold clearCallingIdentity, clearCaller. apply quiet_bind; [done|intros t].
  apply quiet_bind; [apply quiet_upd|done].
Qed.

Lemma quiet_state {A} (m : M A) : quiet m -> quiet (with_ipc E Sys garbage m).
Proof.
  intros Hm w H. unfold with_ipc. apply runs_bind. eapply (runs_value _ w true w).
  - destruct H as (Ht & [t Hth] & _). unfold IPCThreadState_self, bind, gets, id.
    rewrite Ht, Hth. done.
  - by apply Hm.
Qed.

End Quiet.

#[export] Hint Resolve quiet_ret quiet_this quiet_put_this quiet_process quiet_get quiet_upd
  quiet_flush quiet_clear quiet_bg quiet_state : core.

Section Meths.
Context `{PL : ParcelLib} `{RB : RefBase} `{U : BinderUapi}.
Context `{NB : !NativeBinder} `{NL : !NativeLaws}.
Context (E : cpp_env) (JE : jni_errors) (St : statics) (Sys : system) (garbage : Z).
Context `{JS : !JavaSide} `{SM : !Sampling} `{JL : !JavaLaws St}.

Implicit Types (s : jni_state) (own : gmap Z owner) (pins : list Z).

#[local] Notation wf := (wf St).
#[local] Notation inv := (inv St).

Lemma lift_quiet {A} pins s (m : M A) : quiet m -> inv pins s ->
  runs (lift m) s (fun _ s' => inv pins s' /\ evolves s s').
Proof.
  intros Hm [own W]. apply lift_runs. eapply runs_mono; [apply Hm, (wf_state _ _ _ _ W)|].
  intros a w [Hw Hp]. destruct (wf_quiet St own pins s w W Hw Hp). split; [by exists own|done].
Qed.

Lemma ipc_spec {A} pins s (m : M A) : quiet m -> inv pins s ->
  runs (ipc E Sys garbage m) s (fun _ s' => inv pins s' /\ evolves s s').
Proof. intros Hm. apply lift_quiet. auto. Qed.

Lemma throw_spec pins s t : inv pins s ->
  runs (Throw t) s (fun _ s' => inv pins s' /\ evolves s s').
Proof. intros I. walk. by apply inv_pending. Qed.

(** ** Proxies *)

(** The binder of a proxy is alive as long as the proxy keeps it. *)
Lemma proxy_binder pins s p b d w : inv pins s -> j_heap s !! p = Some (JBinderProxy b d w) ->
  b <> 0 -> nb_is (j_cpp s) b = true /\ deref_IBinder b s = Value tt s /\
  exists l, j_native s !! d = Some (DeathRecipientList l).
Proof.
  intros [own W] Hp Hz. destruct (wf_heap _ _ _ _ W p _ Hp) as [[? _]|[Hn Hd]]; [done|].
  split; [done|]. split; [|done].
  assert (0 < strong (j_refs s) b) as Hst.
  { pose proof (wf_counts _ _ _ _ W b Hz). pose proof (pinned_nonneg pins b).
    pose proof (owners_heap s b p _ Hp ltac:(simpl; by rewrite Z.eqb_refl)). lia. }
  unfold deref_IBinder, bind, gets, id. by rewrite (proj2 (Z.ltb_lt _ _) Hst).
Qed.

Lemma ping_spec pins s p b d w : inv pins s -> j_heap s !! p = Some (JBinderProxy b d w) ->
  runs (android_os_BinderProxy_pingBinder p) s (fun _ s' => inv pins s' /\ evolves s s').
Proof.
  intros I Hp. unfold android_os_BinderProxy_pingBinder. walk.
  eapply runs_value; [by eapply BinderProxy_mObject_run|].
  destruct (Z.eqb_spec b 0) as [->|D]; walk; [eauto|].
  destruct (proxy_binder _ _ _ _ _ _ I Hp D) as (_ & Hd & _). eapply runs_value; [exact Hd|]. walk.
  call ping_law. intros a s1 H1. by walk.
Qed.

Lemma descriptor_spec pins s p b d w : inv pins s -> j_heap s !! p = Some (JBinderProxy b d w) ->
  runs (android_os_BinderProxy_getInterfaceDescriptor p) s (fun _ s' => inv pins s' /\ evolves s s').
Proof.
  intros I Hp. unfold android_os_BinderProxy_getInterfaceDescriptor. walk.
  eapply runs_value; [by eapply BinderProxy_mObject_run|].
  destruct (Z.eqb_spec b 0) as [->|D]; walk; [by apply inv_pending|].
  destruct (proxy_binder _ _ _ _ _ _ I Hp D) as (_ & Hd & _). eapply runs_value; [exact Hd|]. walk.
  call descriptor_law. intros a s1 H1. by walk.
Qed.

Lemma alive_spec pins s p b d w : inv pins s -> j_heap s !! p = Some (JBinderProxy b d w) ->
  runs (android_os_BinderProxy_isBinderAlive p) s (fun _ s' => inv pins s' /\ evolves s s').
Proof.
  intros I Hp. unfold android_os_BinderProxy_isBinderAlive. walk.
  eapply runs_value; [by eapply BinderProxy_mObject_run|].
  destruct (Z.eqb_spec b 0) as [->|D]; walk; [eauto|].
  destruct (proxy_binder _ _ _ _ _ _ I Hp D) as (Hn & Hd & _). eapply runs_value; [exact Hd|].
  apply lift_runs. destruct I as [own W].
  eapply runs_mono; [apply nb_alive_law; [apply (wf_state _ _ _ _ W)|exact Hn]|].
  intros a w' ->. rewrite set_same_cpp. split; [by exists own|by eapply evolves_refl, wf_apart].
Qed.

(** [destroy], by the finalizer: no weak reference to the proxy is left. *)
Lemma destroy_spec pins s p b d w : inv pins s -> j_heap s !! p = Some (JBinderProxy b d w) ->
  (forall r, j_heap s !! r <> Some (JWeakReference (Some p))) ->
  runs (android_os_BinderProxy_destroy E St Sys garbage p) s
    (fun _ s' => inv pins s' /\ evolves s s').
Proof.
  intros I Hp Hno. unfold android_os_BinderProxy_destroy. walk.
  eapply runs_value; [by eapply BinderProxy_mObject_run|]. walk.
  eapply runs_value; [by eapply BinderProxy_mOrgue_run|]. walk.
  destruct (Z.eqb_spec b 0) as [->|D]; walk; [by apply ipc_spec; auto|].
  destruct (proxy_binder _ _ _ _ _ _ I Hp D) as (Hn & _ & l & Hd). pose proof I as [own W].
  pose proof (wf_native_range _ _ _ _ W d _ Hd) as [Hdr Hdn].
  pose proof (wf_nb_range _ _ _ _ W b Hn) as Hbr.
  assert (b <> d) as Dbd by (intros ->; congruence).
  eapply runs_value; [by eapply set_BinderProxy_mObject_run|]. walk.
  eapply runs_value; [eapply set_BinderProxy_mOrgue_run; simpl; apply lookup_insert_eq|]. cbv beta.
  match goal with |- runs _ ?F _ =>
    assert (F = set_j_heap (<[p := JBinderProxy 0 0 w]> (j_heap s)) s) as -> end.
  { unfold set_j_heap. simpl. by rewrite insert_insert_eq. }
  set (s1 := set_j_heap _ s).
  assert (wf own (d :: b :: pins) s1) as W1.
  { eapply wf_put_heap; [exact W|exact Hp|done|by left|..]; try done.
    - intros b' d' r' _ _. by right.
    - intros a Ha. cbn [holds pinned]. rewrite (Z.eqb_sym a b), (Z.eqb_sym a d).
      rewrite (proj2 (Z.eqb_neq 0 a)) by lia.
      destruct (Z.eqb_spec b a), (Z.eqb_spec d a); cbn [orb Z.b2z]; lia. }
  pose proof (put_heap_evolves s p _ (JBinderProxy 0 0 w) (wf_apart _ _ _ _ W) Hp Logic.I) as E1.
  assert (inv (d :: b :: pins) s1) as I1 by (by exists own).
  walk. eapply runs_mono; [eapply (List_dec_spec St); [exact I1|exact Hd]|].
  intros _ s2 [I2 E2]. cbv beta. assert (evolves s s2) as E02 by (eapply ev_step; [exact I|exact E1|exact E2]).
  assert (is_binder s2 b) as Hb2.
  { eapply (is_binder_evolves St (b :: pins) s1 s2); [|exact I2|exact E2|by left|by right].
    eapply inv_pins; [exact I1|]. intros a. cbn [pinned]. destruct (a =? d); lia. }
  eapply runs_mono; [eapply (IBinder_dec_spec St); [exact I2|exact Hb2]|]. intros _ s3 [I3 E3].
  eapply runs_mono; [apply ipc_spec; [auto|exact I3]|]. intros _ s4 [I4 E4]. split; [done|].
  eapply ev_step; [exact I|exact E02|]. eapply ev_step; [exact I2|exact E3|exact E4].
Qed.

(** ** Death links *)

(** The Java recipient of a recipient; a cleared weak reference has none. *)
Definition recipient_of s (r : Z) : option Z :=
  match j_native s !! r with
  | Some (JavaDeathRecipient g gw _) =>
      if g =? 0 then if gw =? 0 then None else mjoin (j_weaks s !! gw) else j_globals s !! g
  | _ => None
  end.

Lemma matches_run pins s r g gw d o : inv pins s ->
  j_native s !! r = Some (JavaDeathRecipient g gw d) ->
  JavaDeathRecipient_matches r o s = Value (bool_decide (recipient_of s r = Some o)) s.
Proof.
  intros [own W] Hr. destruct (wf_native _ _ _ _ W r _ Hr) as [_ Hk].
  unfold JavaDeathRecipient_matches, bind, recipient_of. rewrite (as_Recipient_run _ _ _ _ _ Hr), Hr.
  assert (forall x : option Z, bool_decide (Some o = x) = bool_decide (x = Some o)) as Hsym
    by (intros; apply bool_decide_ext; split; congruence).
  case_decide as D.
  - subst g. cbn [negb Z.eqb]. destruct Hk as [->|[Ho [x Hx]]].
    + cbn [Z.eqb]. unfold weak_object, ret, IsSameObject. cbn [Z.eqb]. by rewrite Hsym.
    + destruct (wf_own_range _ _ _ _ W _ _ Ho).
      unfold weak_object. rewrite (proj2 (Z.eqb_neq gw 0)) by lia.
      unfold lookup_or_crash, bind, gets, id. rewrite Hx. unfold ret, IsSameObject. by rewrite Hsym.
  - rewrite (proj2 (Z.eqb_neq _ _) D). cbn [negb]. destruct Hk as (_ & x & Hx & _).
    rewrite (global_object_run _ _ _ D Hx), Hx. unfold ret, IsSameObject. by rewrite Hsym.
Qed.

Lemma find_recipient_spec pins s o d l : inv pins s ->
  (forall r, r ∈ l -> exists g gw, j_native s !! r = Some (JavaDeathRecipient g gw d)) ->
  runs (find_recipient o l) s (fun x s' => evolves s s' /\
    match x with
    | None => s' = s /\ inv pins s' /\ forall r, r ∈ l -> recipient_of s r <> Some o
    | Some r => inv (r :: pins) s' /\ (exists q, s' = set_j_refs q s) /\
        exists l1 l2, l = l1 ++ r :: l2 /\ recipient_of s r = Some o /\
          forall r', r' ∈ l1 -> recipient_of s r' <> Some o
    end).
Proof.
  intros I. induction l as [|r l IH]; intros Hl; simpl.
  { walk. split; [eauto|]. split; [done|]. split; [done|]. by intros r ?%not_elem_of_nil. }
  destruct (Hl r ltac:(by left)) as (g & gw & Hr). walk.
  eapply runs_value; [by eapply matches_run|]. case_bool_decide as Hm; walk.
  - pose proof (inv_native_pos _ _ _ _ I Hr) as Hz.
    destruct (inc_spec St pins s r I Hz ltac:(left; by eexists)) as [I1 E1].
    split; [done|]. split; [done|]. split; [by eexists|]. exists [], l. split; [done|]. split; [done|].
    by intros r' ?%not_elem_of_nil.
  - eapply runs_mono; [apply IH; intros r' Hr'; apply Hl; by right|]. intros x s1 (E1 & Hx).
    split; [done|]. destruct x as [r'|].
    + destruct Hx as (I1 & Hq & l1 & l2 & -> & Hr' & Hno). split; [done|]. split; [done|].
      exists (r :: l1), l2. split; [done|]. split; [done|].
      intros r2 [->|H2]%elem_of_cons; [done|by apply Hno].
    + destruct Hx as (-> & I1 & Hno). split; [done|]. split; [done|].
      intros r2 [->|H2]%elem_of_cons; [done|by apply Hno].
Qed.

Lemma list_elements pins s d l r : inv pins s -> j_native s !! d = Some (DeathRecipientList l) ->
  r ∈ l -> exists g gw, j_native s !! r = Some (JavaDeathRecipient g gw d).
Proof. intros [own W] Hd Hr. destruct (wf_native _ _ _ _ W d _ Hd) as [_ Hm]. by apply Hm. Qed.

(** [linkToDeath]: afterwards the recipient is in the proxy's list, or an
    exception is pending. *)
Lemma linkToDeath_spec pins s p b d w recipient flags : inv pins s ->
  j_heap s !! p = Some (JBinderProxy b d w) -> b <> 0 ->
  (forall o, recipient = Some o -> is_Some (j_heap s !! o)) ->
  runs (android_os_BinderProxy_linkToDeath E JE p recipient flags) s (fun _ s' =>
    inv pins s' /\ evolves s s' /\
    match recipient with
    | None => s' = set_j_pending (Some (Throwable "java/lang/NullPointerException" None)) s
    | Some o =>
        nb_local b = true /\ s' = s \/
        nb_local b = false /\
        ((exists l r, j_native s' !! d = Some (DeathRecipientList (l ++ [r])) /\
            j_native s !! d = Some (DeathRecipientList l) /\ recipient_of s' r = Some o) \/
         exists err, err <> NO_ERROR /\ j_pending s' = Some (error_exception E JE err true 0))
    end).
Proof.
  intros I Hp Hz Hrec. unfold android_os_BinderProxy_linkToDeath.
  destruct recipient as [o|]; [|walk; destruct (inv_pending pins s _ I
    : inv _ (set_j_pending (Some (Throwable "java/lang/NullPointerException" None)) s) /\ _); eauto].
  specialize (Hrec o eq_refl). walk. eapply runs_value; [by eapply BinderProxy_mObject_run|].
  destruct (proxy_binder _ _ _ _ _ _ I Hp Hz) as (Hn & Hde & l & Hd). walk.
  eapply runs_value; [exact Hde|]. destruct (nb_local b) eqn:Eloc; walk.
  { split; [done|]. split; [eauto|]. by left. }
  pose proof (inv_native_pos _ _ _ _ I Hd) as Hdz.
  eapply runs_value; [by eapply BinderProxy_mOrgue_run|]. walk.
  eapply runs_value; [by eapply as_List_run|]. walk.
  destruct (inc_spec St pins s d I Hdz ltac:(left; by eexists)) as [I1 E1].
  set (s1 := set_j_refs _ s) in *.
  eapply runs_mono; [by apply (JavaDeathRecipient_new_spec St (d :: pins) s1 o d l I1 Hrec Hd)|].
  intros r s2 (I2 & E2 & Hrz & Hkeep & g & Hr & Hgz & Hgl & Hd2). walk.
  destruct (inc_spec St (d :: pins) s2 r I2 Hrz ltac:(left; by eexists)) as [I3 E3].
  set (s3 := set_j_refs _ s2) in *.
  assert (inv (d :: r :: pins) s3) as I3'.
  { eapply inv_pins; [exact I3|]. intros a. cbn [pinned]. lia. }
  assert (1 <= owners s3 d) as Hod.
  { apply (owners_heap s3 d p (JBinderProxy b d w)); [by apply Hkeep|].
    simpl. by rewrite Z.eqb_refl, orb_true_r. }
  eapply runs_mono; [apply (dec_shared St _ (r :: pins) s3 d I3' Hdz)|].
  { pose proof (pinned_nonneg (r :: pins) d). lia. }
  intros _ s4 (I4 & E4 & q & ->). walk. set (s4 := set_j_refs q s3) in *.
  assert (evolves s s4) as E04.
  { eapply ev_step; [exact I|exact E1|]. eapply ev_step; [exact I1|exact E2|].
    eapply ev_step; [exact I2|exact E3|exact E4]. }
  apply lift_runs. pose proof I4 as [own4 W4].
  assert (nb_is (j_cpp s4) b = true) as Hn4.
  { by destruct (proxy_binder (r :: pins) s4 p b d w I4) as [? _]; [apply Hkeep|..]. }
  eapply runs_mono; [apply nb_link_law; [apply (wf_state _ _ _ _ W4)|exact Hn4]|].
  intros err w5 (Hw5 & His & Hob). cbv beta.
  destruct (wf_world St own4 (r :: pins) s4 w5 W4 Hw5 His Hob) as [W5 E5].
  set (s5 := set_j_cpp w5 s4) in *. assert (inv (r :: pins) s5) as I5 by (by exists own4).
  assert (evolves s s5) as E05 by (eapply ev_step; [exact I|exact E04|exact E5]).
  destruct (Z.eqb_spec err NO_ERROR) as [->|Derr]; walk.
  - eapply runs_mono; [apply (dec_shared St _ pins s5 r I5 Hrz)|].
    { pose proof (owners_list s5 r d _ Hd2 ltac:(apply elem_of_app; right; by apply list_elem_of_singleton)).
      pose proof (pinned_nonneg pins r). lia. }
    intros _ s6 (I6 & E6 & q' & ->). split; [done|]. split; [eapply ev_step; [exact I|exact E05|exact E6]|].
    right. split; [done|]. left. exists l, r. split; [exact Hd2|]. split; [done|].
    unfold recipient_of. simpl. by rewrite Hr, (proj2 (Z.eqb_neq _ _) Hgz).
  - eapply runs_mono; [eapply (clearReference_spec St (r :: pins) s5); [exact I5|exact Hr]|].
    intros _ s6 (I6 & E6 & _). walk. unfold signalExceptionForError. walk.
    destruct (inv_pending (r :: pins) s6 (Some (error_exception E JE err true 0)) I6) as [I7 E7].
    set (s7 := set_j_pending _ s6) in *.
    assert (evolves s5 s7) as E57 by (eapply ev_step; [exact I5|exact E6|exact E7]).
    destruct (pinned_kind _ s5 s7 r _ I7 E57 Hr Hrz ltac:(by left)) as (y & Hy & Hk).
    destruct y as [| | |g' gw' d']; simpl in Hk; try done.
    eapply runs_mono; [eapply (Recipient_dec_spec St pins s7 r); [exact I7|exact Hy]|].
    intros _ s8 (I8 & E8 & [Ep _] & _). cbv beta. split; [done|].
    split; [eapply ev_step; [exact I|exact E05|eapply ev_step; [exact I5|exact E57|exact E8]]|].
    right. split; [done|]. right. by exists err.
Qed.

(** What [unlinkToDeath] does once the recipient is found and the binder below
    has answered. *)
Definition NoSuchLink : throwable :=
  Throwable "java/util/NoSuchElementException" (Some "Death link does not exist").

Definition not_found_distinct (E : cpp_env) : Prop :=
  NAME_NOT_FOUND (k_errors E) <> NO_ERROR /\
  NAME_NOT_FOUND (k_errors E) <> DEAD_OBJECT (k_errors E).

Lemma runs_eq {W A} (m : prog W A) w (Q : A -> W -> Prop) :
  runs m w Q -> runs m w (fun a w' => m w = Value a w' /\ Q a w').
Proof. unfold runs. by destruct (m w). Qed.

Lemma erase_app r l1 l2 : r ∉ l1 -> erase r (l1 ++ r :: l2) = l1 ++ l2.
Proof.
  induction l1 as [|x l IH]; intros H; simpl; [by rewrite Z.eqb_refl|].
  apply not_elem_of_cons in H as [D H]. rewrite (proj2 (Z.eqb_neq x r)) by congruence.
  by rewrite IH.
Qed.

Lemma clear_unlinked_spec pins s r g gw d l p b w : inv (r :: pins) s ->
  j_native s !! r = Some (JavaDeathRecipient g gw d) ->
  j_heap s !! p = Some (JBinderProxy b d w) -> j_native s !! d = Some (DeathRecipientList l) ->
  runs (clear_unlinked (Some r)) s (fun _ s' => inv (r :: pins) s' /\ evolves s s' /\
    j_native s' !! d = Some (DeathRecipientList (erase r l)) /\
    exists gw' g', j_native s' !! r = Some (JavaDeathRecipient g' gw' d)).
Proof.
  intros I Hr Hp Hd. pose proof (inv_native_pos _ _ _ _ I Hr) as Hz. unfold clear_unlinked. walk.
  eapply runs_mono; [apply (promote_spec St _ s r I)|].
  intros [r'|] s1 (E1 & En & _ & Eh & _ & Hq); cbv beta iota.
  2: { exfalso. destruct Hq as [_ Hs].
       destruct (pinned_alive _ _ _ I Hz (pinned_head _ _)). lia. }
  destruct Hq as (-> & I1 & _). walk.
  eapply runs_mono; [eapply (clearReference_spec St (r :: r :: pins) s1 r); [exact I1|by rewrite En]|].
  intros _ s2 (I2 & E2 & Hl). cbv beta. rewrite Eh, En in Hl.
  destruct (Hl _ _ _ _ Hp Hd) as [Hp2 Hd2].
  destruct (pinned_kind _ s s2 r _ I2 ltac:(eauto) Hr Hz ltac:(left)) as (y & Hy & Hk).
  destruct y as [| | |g' gw' d']; simpl in Hk; try done. subst d'.
  eapply runs_mono; [apply (dec_shared St _ (r :: pins) s2 r I2 Hz)|].
  { pose proof (pinned_head r pins). pose proof (owners_nonneg s2 r). lia. }
  intros _ s3 (I3 & E3 & q & ->). split; [done|]. split; [eauto|]. split; [done|]. by exists gw', g'.
Qed.

Lemma unlinkToDeath_spec pins s p b d w recipient flags : inv pins s ->
  j_heap s !! p = Some (JBinderProxy b d w) ->
  runs (android_os_BinderProxy_unlinkToDeath E p recipient flags) s (fun x s' =>
    inv pins s' /\ evolves s s' /\
    match recipient with
    | None => x = false /\
        s' = set_j_pending (Some (Throwable "java/lang/NullPointerException" None)) s
    | Some o =>
        (b = 0 \/ nb_local b = true -> x = false /\ s' = s) /\
        (b <> 0 -> nb_local b = false -> not_found_distinct E ->
         forall l, j_native s !! d = Some (DeathRecipientList l) ->
         (x = false /\ j_pending s' = Some NoSuchLink /\
            j_native s' !! d = Some (DeathRecipientList l) /\
            ((forall r', r' ∈ l -> recipient_of s r' <> Some o) \/
             exists l1 r l2 err dr w', l = l1 ++ r :: l2 /\ recipient_of s r = Some o /\
               (forall r', r' ∈ l1 -> recipient_of s r' <> Some o) /\
               nb_unlinkToDeath b (Some r) 0 flags (j_cpp s) = Value (err, dr) w' /\
               err <> NO_ERROR /\ err <> DEAD_OBJECT (k_errors E))) \/
         (x = true /\ exists l1 r l2 err dr w', l = l1 ++ r :: l2 /\ recipient_of s r = Some o /\
            (forall r', r' ∈ l1 -> recipient_of s r' <> Some o) /\
            nb_unlinkToDeath b (Some r) 0 flags (j_cpp s) = Value (err, dr) w' /\
            (err = NO_ERROR /\ j_native s' !! d = Some (DeathRecipientList (l1 ++ l2)) \/
             err = DEAD_OBJECT (k_errors E) /\ j_native s' !! d = Some (DeathRecipientList l))))
    end).
Proof.
  intros I Hp. unfold android_os_BinderProxy_unlinkToDeath.
  destruct recipient as [o|]; [|walk; destruct (inv_pending pins s _ I
    : inv _ (set_j_pending (Some (Throwable "java/lang/NullPointerException" None)) s) /\ _); eauto].
  walk. eapply runs_value; [by eapply BinderProxy_mObject_run|].
  destruct (Z.eqb_spec b 0) as [->|Hz]; walk.
  { split; [done|]. split; [eauto|]. split; [done|]. by intros ?. }
  destruct (proxy_binder _ _ _ _ _ _ I Hp Hz) as (Hn & Hde & l & Hd).
  eapply runs_value; [exact Hde|]. destruct (nb_local b) eqn:Eloc; walk.
  { split; [done|]. split; [eauto|]. split; [done|]. by intros _ ?. }
  pose proof (inv_native_pos _ _ _ _ I Hd) as Hdz.
  eapply runs_value; [by eapply BinderProxy_mOrgue_run|]. walk. unfold List_find. walk.
  eapply runs_value; [by eapply as_List_run|]. walk.
  eapply runs_mono; [apply (find_recipient_spec pins s o d l I)|].
  { intros r Hr. by eapply list_elements. }
  intros [r|] s1 (E1 & Hx); cbv beta iota.
  2: { destruct Hx as (-> & I1 & Hno). walk. simpl.
       destruct (inv_pending pins s (Some NoSuchLink) I) as [I2 E2].
       destruct (_ || _) eqn:Eerr; walk.
       - split; [done|]. split; [done|]. split; [by intros [?|?]|]. intros _ _ [H1 H2] l' _. exfalso.
         apply orb_true_iff in Eerr as [H%Z.eqb_eq|H%Z.eqb_eq]; congruence.
       - split; [done|]. split; [done|]. split; [by intros [?|?]|]. intros _ _ _ l' Hd'. left.
         assert (l' = l) as -> by congruence. by repeat (split; [done|]); left. }
  destruct Hx as (I1 & [q ->] & l1 & l2 & -> & Hr & Hno). set (s1 := set_j_refs q s) in *.
  assert (exists g gw, j_native s1 !! r = Some (JavaDeathRecipient g gw d)) as (g & gw & Hrn).
  { eapply (list_elements (r :: pins) s1 d); [done|exact Hd|]. apply elem_of_app. right. by left. }
  pose proof (inv_native_pos _ _ _ _ I1 Hrn) as Hrz.
  assert (r ∉ l1) as Hr1 by (intros H; by apply (Hno r H)).
  assert (forall s2 (Q : unit -> jni_state -> Prop), inv (r :: pins) s2 -> evolves s s2 ->
    (exists g' gw', j_native s2 !! r = Some (JavaDeathRecipient g' gw' d)) ->
    (forall s3, inv pins s3 -> evolves s s3 -> j_pending s3 = j_pending s2 ->
       (forall a, a <> r -> j_native s3 !! a = j_native s2 !! a) -> Q tt s3) ->
    runs (decStrong JavaDeathRecipient_destroy r) s2 Q) as Hend.
  { intros s2 Q I2 E2 (g' & gw' & Hr2) HQ.
    eapply runs_mono; [eapply (Recipient_dec_spec St pins s2 r); [exact I2|exact Hr2]|].
    intros [] s3 (I3 & E3 & [Ep _] & Ha). apply HQ; [done|by eapply ev_step|done|].
    intros a Da. by apply Ha. }
  assert (d <> r) as Ddr.
  { intros ->. change (j_native s1) with (j_native s) in Hrn. congruence. }
  walk.
  apply lift_runs. pose proof I1 as [own1 W1].
  eapply runs_mono; [apply runs_eq, nb_unlink_law; [apply (wf_state _ _ _ _ W1)|exact Hn]|].
  intros [err dr] w2 (Heq & Hw2 & His & Hob & Hdr). cbv beta iota. simpl in Hdr.
  destruct (wf_world St own1 (r :: pins) s1 w2 W1 Hw2 His Hob) as [W2 E2].
  set (s2 := set_j_cpp w2 s1) in *. assert (inv (r :: pins) s2) as I2 by (by exists own1).
  assert (evolves s s2) as E02 by eauto.
  destruct (Z.eqb_spec err NO_ERROR) as [->|Derr].
  - rewrite (Hdr eq_refl). change (mjoin (Some (Some r))) with (Some r). walk.
    eapply runs_mono; [eapply (clear_unlinked_spec pins s2 r g gw d _ p b w); [exact I2|done|exact Hp|exact Hd]|].
    intros _ s3 (I3 & E3 & Hd3 & gw' & g' & Hr3). walk. apply runs_bind, Hend; [done|eauto|by exists g', gw'|].
    intros s4 I4 E4 _ Ha. walk. split; [done|]. split; [done|]. split; [by intros [?|?]|].
    intros _ _ _ l' Hd'. assert (l' = l1 ++ r :: l2) as -> by congruence. right. split; [done|].
    exists l1, r, l2, NO_ERROR, dr, w2. do 4 (split; [done|]). left. split; [done|].
    by rewrite (Ha d Ddr), Hd3, erase_app.
  - walk. destruct (Z.eqb_spec err (DEAD_OBJECT (k_errors E))) as [->|D2].
    + rewrite orb_true_r. walk. apply runs_bind, Hend; [done|done|by exists g, gw|].
      intros s4 I4 E4 _ Ha. walk. split; [done|]. split; [done|]. split; [by intros [?|?]|].
      intros _ _ _ l' Hd'. assert (l' = l1 ++ r :: l2) as -> by congruence. right. split; [done|].
      exists l1, r, l2, (DEAD_OBJECT (k_errors E)), dr, w2. do 4 (split; [done|]). right. split; [done|].
      by rewrite (Ha d Ddr).
    + rewrite (proj2 (Z.eqb_neq _ _) Derr). cbn [orb]. walk. destruct (inv_pending (r :: pins) s2 (Some NoSuchLink) I2) as [I3 E3].
      apply runs_bind, Hend; [done|by eauto|by exists g, gw|].
      intros s4 I4 E4 Ep Ha. walk. split; [done|]. split; [done|]. split; [by intros [?|?]|].
      intros _ _ _ l' Hd'. assert (l' = l1 ++ r :: l2) as -> by congruence. left. split; [done|].
      split; [done|]. split; [by rewrite (Ha d Ddr)|]. right. by exists l1, r, l2, err, dr, w2.
Qed.

End Meths.
