(* ===== verification/JniCalls.v ===== *)
(** * JniCalls: transactions of the Java side, and the rest of the native methods

    Calls of a proxy, calls that come in for a local object, the log of calls, the
    context object, the binder threads. *)

From S2P Require Import Prelude Uapi Parcel CppWorld ProcessState IpcCore BpBinder Proxy RefBase JniWorld JniBinder JniInv JniOps JniMeths JniProxies JniNatives.

#[local] Open Scope Z_scope.

Section Meths.
Context `{PL : ParcelLib} `{RB : RefBase} `{U : BinderUapi}.
Context `{NB : !NativeBinder} `{NL : !NativeLaws}.
Context (E : cpp_env) (JE : jni_errors) (St : statics) (Sys : system) (garbage : Z).
Context `{JS : !JavaSide} `{SM : !Sampling} `{JL : !JavaLaws St}.

Implicit Types (s : jni_state) (own : gmap Z owner) (pins : list Z).

#[local] Notation inv := (inv St).

(** ** The thread *)

Lemma quiet_policy p : quiet (setStrictModePolicy p).
Proof. apply quiet_upd. Qed.
Lemma quiet_restore t : quiet (restoreCallingIdentity t).
Proof. apply quiet_upd. Qed.
Lemma quiet_get_policy : quiet getStrictModePolicy.
Proof. apply quiet_bind; auto. Qed.
Lemma quiet_pid : quiet getCallingPid.
Proof. apply quiet_bind; auto. Qed.
Lemma quiet_uid : quiet getCallingUid.
Proof. apply quiet_bind; auto. Qed.
#[local] Hint Resolve quiet_policy quiet_restore quiet_get_policy quiet_pid quiet_uid : core.

(** ** The log *)

Lemma log_spec pins s start target code : inv pins s ->
  runs (conditionally_log_binder_call start target code) s (fun _ s' => inv pins s' /\ evolves s s').
Proof.
  intros I. unfold conditionally_log_binder_call. walk. destruct (sample_percent_of _ _); walk; [|eauto].
  call descriptor_law. intros desc s1 [I1 E1].
  destruct (binder_call_record _ _ _ _ _); walk; [|eauto]. call write_log_law. intros _ s2 []. eauto.
Qed.

(** ** Calls of a proxy *)

Definition is_parcel s (o : Z) : Prop := exists q, j_heap s !! o = Some (JParcel q).

Definition thrown (cls msg : string) s : jni_state :=
  set_j_pending (Some (Throwable cls (Some msg))) s.
Definition parcel_finalized s : jni_state :=
  thrown "java/lang/IllegalStateException" "Parcel has been finalized!" s.

Lemma parcelForJavaObject_run s o q : j_heap s !! o = Some (JParcel q) ->
  parcelForJavaObject (Some o) s = if q =? 0 then Value 0 (parcel_finalized s) else Value q s.
Proof.
  intros H. unfold parcelForJavaObject, Parcel_mNativePtr, bind.
  rewrite (heap_object_run _ _ _ H). simpl. by destruct (q =? 0).
Qed.

(** What becomes of the answer of the target. *)
Definition transact_answer (q err : Z) (x : bool) s1 s' : Prop :=
  if err =? NO_ERROR then x = true /\ s' = s1
  else x = false /\
    if err =? UNKNOWN_TRANSACTION JE then s' = s1
    else exists p, j_parcels s1 !! q = Some p /\
      s' = set_j_pending (Some (error_exception E JE err true (i32 (dataSize p)))) s1.

(** The parcel of a Java object that is NULL or a parcel. *)
Definition parcel_of s (obj : option Z) (q : Z) : Prop :=
  match obj with None => q = 0 | Some o => j_heap s !! o = Some (JParcel q) end.

Lemma transact_spec pins s p b d w code od q replyObj r flags : inv pins s ->
  j_heap s !! p = Some (JBinderProxy b d w) ->
  j_heap s !! od = Some (JParcel q) -> parcel_of s replyObj r ->
  runs (android_os_BinderProxy_transact E JE p code (Some od) replyObj flags) s
    (fun x s' => inv pins s' /\ evolves s s' /\
      if (q =? 0) || (r =? 0) && negb (bool_decide (replyObj = None)) then
        x = false /\ s' = parcel_finalized s
      else if b =? 0 then
        x = false /\ s' = thrown "java/lang/IllegalStateException" "Binder has been finalized!" s
      else exists err s1,
        ib_transact b code q (if r =? 0 then None else Some r) flags s = Value err s1 /\
        transact_answer q err x s1 s').
Proof.
  intros I Hp Hd Hr. unfold android_os_BinderProxy_transact.
  assert (forall c m, inv pins (thrown c m s) /\ evolves s (thrown c m s)) as Hth
    by (intros; by apply inv_pending). walk.
  assert (parcelForJavaObject replyObj s =
    if (r =? 0) && negb (bool_decide (replyObj = None)) then Value 0 (parcel_finalized s)
    else Value r s) as Hreply.
  { destruct replyObj as [o|]; simpl in Hr; [|by subst r]. rewrite (parcelForJavaObject_run _ _ _ Hr).
    by destruct (r =? 0). }
  pose proof (parcelForJavaObject_run s od q Hd) as Hdata.
  destruct (Z.eqb_spec q 0) as [->|Dq].
  { eapply runs_value; [exact Hdata|]. walk. simpl. split; [apply Hth|]. split; [apply Hth|done]. }
  eapply runs_value; [exact Hdata|]. cbv beta. rewrite (proj2 (Z.eqb_neq q 0)) by done. walk. cbn [orb].
  set (lost := (r =? 0) && negb (bool_decide (replyObj = None))) in *.
  destruct lost eqn:Er; subst lost.
  { apply andb_true_iff in Er as [Er0 Er%negb_true_iff]. eapply runs_value; [exact Hreply|]. cbv beta.
    rewrite Z.eqb_refl, Er, Er0. walk. split; [apply Hth|]. split; [apply Hth|done]. }
  eapply runs_value; [exact Hreply|]. cbv beta.
  unfold negb in Er. rewrite Er. walk.
  eapply runs_value; [by eapply BinderProxy_mObject_run|]. cbv beta.
  destruct (Z.eqb_spec b 0) as [->|Db].
  { walk. split; [apply Hth|]. split; [apply Hth|done]. }
  destruct (proxy_binder St _ _ _ _ _ _ I Hp Db) as (Hn & Hde & _). walk.
  eapply runs_value; [exact Hde|]. cbn [kEnableBinderSample andb when]. walk.
  assert (is_Some (j_parcels s !! q)) as Hq.
  { destruct I as [own W]. by destruct (wf_heap _ _ _ _ W od _ Hd). }
  eapply runs_mono; [apply runs_eq, (transact_law St b code q _ flags pins s I Hq)|].
  intros err s1 (Heq & I1 & E1 & [pa Hpa]). cbv beta. walk.
  assert (forall x s', inv pins s' -> evolves s s' -> transact_answer q err x s1 s' ->
    inv pins s' /\ evolves s s' /\ exists err s1,
        ib_transact b code q (if r =? 0 then None else Some r) flags s = Value err s1 /\
        transact_answer q err x s1 s') as Hend by eauto 10.
  unfold transact_answer in Hend at 1.
  destruct (err =? NO_ERROR); walk; [by apply Hend|].
  destruct (err =? UNKNOWN_TRANSACTION JE); walk; [by apply Hend|]. unfold parcel_at, lookup_or_crash.
  walk. eapply (runs_value _ _ pa s1); [by rewrite Hpa|]. walk. unfold signalExceptionForError. walk.
  destruct (inv_pending pins s1 (Some (error_exception E JE err true (i32 (dataSize pa)))) I1) as [I2 E2]. apply Hend; [exact I2|eauto|]. split; [done|]. eauto.
Qed.

(** ** Calls that come in *)

Lemma get_policy_run pins s : inv pins s ->
  exists p, ipc E Sys garbage getStrictModePolicy s = Value p s.
Proof.
  intros [own W]. pose proof (wf_state _ _ _ _ W) as (Ht & [t Hth] & _). exists (mStrictModePolicy t).
  unfold ipc. rewrite (lift_value _ _ (mStrictModePolicy t) (j_cpp s)), set_same_cpp; [done|].
  unfold with_ipc, IPCThreadState_self, getStrictModePolicy, this, bind, gets, id.
  rewrite Ht, Hth. unfold ret. by rewrite Hth.
Qed.

(** The Java method decides; an exception in it is a refusal, and goes no
    further. *)
Lemma onTransact_spec pins s b g code data reply flags : inv pins s -> b ∈ pins ->
  j_native s !! b = Some (JavaBBinder g) ->
  runs (JavaBBinder_onTransact E JE St Sys garbage b code data reply flags) s (fun x s' =>
    inv pins s' /\ evolves s s' /\ (code <> SYSPROPS_TRANSACTION St -> j_pending s' = None) /\
    exists o res s1, j_globals s !! g = Some o /\
      jcall (ExecTransact o code data reply flags) s = Value res s1 /\
      x = if bool_decide (j_pending s1 = None) && negb (res =? 0) then NO_ERROR
          else UNKNOWN_TRANSACTION JE).
Proof.
  intros I Hb Hn. unfold JavaBBinder_onTransact. walk. reads as_JavaBBinder_run.
  destruct (get_policy_run pins s I) as [before Hbefore].
  eapply runs_value; [exact Hbefore|]. walk.
  assert (exists o, g <> 0 /\ j_globals s !! g = Some o) as (o & Hg & Ho).
  { destruct I as [own W]. destruct (wf_native _ _ _ _ W b _ Hn) as (_ & Hg & o & h & Ho & _). eauto. }
  reads global_object_run.
  eapply runs_mono; [eapply runs_eq, (jcall_law St _ pins s I)|]. intros res s2 (Heq & I2 & E2). walk.
  eapply runs_mono; [by apply (report_pending_spec St)|]. intros threw s3 (I3 & E3 & P3 & Hthrew & _). walk.
  eapply runs_mono; [apply (ipc_spec E St Sys garbage pins s3); auto|]. intros after s4 [I4 E4]. walk.
  eapply (runs_mono _ _ (fun _ s5 => inv pins s5 /\ evolves s s5)).
  { assert (evolves s s4) as E04 by evs.
    apply runs_when; [intros _|done]. unfold set_dalvik_blockguard_policy. walk. call jcall_law.
    intros _ s5 []. split; [done|evs]. }
  intros [] s5 [I5 E5]. walk.
  eapply runs_mono; [by apply (report_pending_spec St)|]. intros t2 s6 (I6 & E6 & P6 & _). walk.
  assert (forall x : bool, x = (if j_pending s2 then true else false) ->
    (if negb ((if x then 0 else res) =? 0) then NO_ERROR else UNKNOWN_TRANSACTION JE) =
    (if bool_decide (j_pending s2 = None) && negb (res =? 0) then NO_ERROR
     else UNKNOWN_TRANSACTION JE)) as Hres.
  { intros x ->. destruct (j_pending s2); [|by destruct (res =? 0)]. simpl. done. }
  specialize (Hres threw Hthrew).
  destruct (Z.eqb_spec code (SYSPROPS_TRANSACTION St)) as [->|D]; walk.
  - call onTransact_law. intros _ s7 []. walk. split; [done|]. split; [evs|]. split; [done|].
    exists o, res, s2. done.
  - split; [done|]. split; [evs|]. split; [done|]. exists o, res, s2. done.
Qed.

(** ** The context object, the threads of the pool *)

Lemma binder_or_null_dec pins s b : (b = 0 /\ inv pins s \/ is_binder s b /\ inv (b :: pins) s) ->
  runs (if b =? 0 then ret tt else IBinder_decStrong St b) s (fun _ s' => inv pins s' /\ evolves s s').
Proof.
  intros [[-> I]|[Hb I]]; [simpl; walk; eauto|].
  rewrite (proj2 (Z.eqb_neq b 0)) by (by eapply is_binder_nz).
  by apply (IBinder_dec_spec St).
Qed.

Lemma getContextObject_spec pins s : inv pins s ->
  runs (android_os_BinderInternal_getContextObject St) s (fun _ s' => inv pins s' /\ evolves s s').
Proof.
  intros I. unfold android_os_BinderInternal_getContextObject. walk.
  call context_law. intros b s1 (E1 & Hb). walk.
  assert (exists pins', inv pins' s1 /\ (b = 0 \/ is_binder s1 b /\ b ∈ pins')
    /\ (b = 0 /\ pins' = pins \/ b <> 0 /\ pins' = b :: pins)) as (pins' & I1 & Hob & Hpins).
  { destruct Hb as [[-> I1]|[Hn I1]]; [by eauto 10|]. exists (b :: pins).
    assert (is_binder s1 b) as Hib by (by right). pose proof (is_binder_nz St _ _ _ I1 Hib).
    split; [done|]. split; [right; split; [done|left]|by right]. }
  eapply runs_mono; [by apply (javaObjectForIBinder_spec St pins' s1 b)|].
  intros o s2 (I2 & E2 & _). walk.
  eapply runs_mono; [apply (binder_or_null_dec pins s2 b)|intros [] s3 []; walk; eauto].
  destruct Hpins as [[-> ->]|[Hz ->]]; [by left|]. right. split; [|done].
  destruct Hob as [?|[Hib Hin]]; [done|].
  by apply (is_binder_evolves St (b :: pins) s1 s2).
Qed.

Lemma joinThreadPool_spec pins s : inv pins s ->
  runs (android_os_BinderInternal_joinThreadPool St) s (fun _ s' => inv pins s' /\ evolves s s').
Proof.
  intros I. unfold android_os_BinderInternal_joinThreadPool. walk.
  call context_law. intros b s1 (E1 & Hb). walk.
  destruct Hb as [[-> I1]|[Hn I1]].
  - call join_law. intros _ s2 []. simpl. walk. eauto.
  - assert (is_binder s1 b) as Hib by (by right).
    call join_law. intros _ s2 [I2 E2]. eapply runs_mono; [apply (binder_or_null_dec pins s2 b)|].
    + right. split; [|done]. eapply (is_binder_evolves St (b :: pins) s1 s2); [exact I1|exact I2|done|left|done].
    + intros _ s3 []. eauto.
Qed.

(** ** Methods of the thread *)

Lemma restore_spec pins s token : inv pins s ->
  runs (android_os_Binder_restoreCallingIdentity E Sys garbage token) s
    (fun _ s' => inv pins s' /\ evolves s s').
Proof.
  intros I. unfold android_os_Binder_restoreCallingIdentity. destruct (_ && _).
  - walk. by apply inv_pending.
  - apply (ipc_spec E St Sys garbage); auto.
Qed.

Lemma handleGc_spec pins s : inv pins s ->
  runs android_os_BinderInternal_handleGc s (fun _ s' => inv pins s' /\ evolves s s').
Proof.
  intros I. unfold android_os_BinderInternal_handleGc. walk.
  split; [by apply (inv_set_created St)|by eapply (created_evolves St)].
Qed.

End Meths.

#[export] Hint Resolve quiet_policy quiet_restore quiet_get_policy quiet_pid quiet_uid : core.
