(* ===== verification/NativeProxy.v ===== *)
(** * NativeProxy: the proxies of the C++ library under the Java side

    [BpBinder] as an instance of [NativeBinder], the interface the Java side is
    written against, and a proof that it keeps the interface's laws. *)

From S2P Require Import Prelude Uapi Parcel CppWorld ProcessState IpcCore BpBinder Proxy RefBase JniWorld JniBinder JniInv JniOps JniMeths JniProxies JniNatives.

#[local] Open Scope Z_scope.

Section Native.
Context `{PL : ParcelLib} `{U : BinderUapi} (E : cpp_env).
Context (Sys : system) (garbage : Z).
(** Does the table of proxies find memory? Do weak references keep the proxy? *)
Context (grows : Z -> bool) (kept : world -> Z -> bool).

(** The last strong reference: the driver's goes too, and the proxy, unless there
    are weak ones. *)
Definition BpBinder_last (b : Z) : M (list (Z * object_entry)) :=
  do! p := proxy b in
  onLastStrongRef E Sys garbage b ;;;
  (do! w := gets id in
   if kept w b then ret []
   else BpBinder_destroy E Sys garbage grows b ;;; ret (mObjects p)).

#[global] Instance proxy_binders : NativeBinder := {|
  nb_is w b := bool_decide (is_Some (w_proxies w !! b));
  nb_local _ := false;
  nb_findObject := findObject;
  nb_attachObject := attachObject;
  nb_detachObject := detachObject;
  nb_linkToDeath := linkToDeath E Sys garbage;
  nb_unlinkToDeath := unlinkToDeath E Sys garbage;
  nb_isBinderAlive := isBinderAlive;
  nb_last := BpBinder_last
|}.

Definition proxy_objects (w : world) (b : Z) : list (Z * object_entry) :=
  default [] (mObjects <$> w_proxies w !! b).

(** ** What the methods keep *)

(** The objects attached to every proxy. *)
Definition tame {A} (b : Z) (m : M A) : Prop := forall w,
  has_state w -> is_Some (w_proxies w !! b) ->
  runs m w (fun _ w' => has_state w' /\ mObjects <$> w_proxies w' = mObjects <$> w_proxies w).

Lemma same_there {A B} (f : A -> B) (m m' : gmap Z A) b : f <$> m' = f <$> m -> is_Some (m !! b) ->
  is_Some (m' !! b).
Proof.
  intros H Hb. apply (fmap_is_Some f). rewrite <- lookup_fmap, H, lookup_fmap. by apply fmap_is_Some.
Qed.

Lemma tame_bind {A B} b (m : M A) (f : A -> M B) : tame b m -> (forall a, tame b (f a)) ->
  tame b (bind m f).
Proof.
  intros Hm Hf w Hw Hb. apply runs_bind. eapply runs_mono; [by apply Hm|]. intros a w1 [Hw1 E1].
  eapply runs_mono; [apply Hf; [done|by eapply same_there]|]. intros c w2 [Hw2 E2].
  by rewrite E2.
Qed.

Lemma tame_quiet {A} b (m : M A) : quiet m -> tame b m.
Proof. intros Hm w Hw _. eapply runs_mono; [by apply Hm|]. intros a w' [? ->]. done. Qed.

Lemma tame_proxy b : tame b (proxy b).
Proof. intros w Hw [p Hp]. unfold runs, proxy. by rewrite Hp. Qed.

Lemma has_state_proxies v w : has_state w -> has_state (set_proxies v w).
Proof. done. Qed.

Lemma tame_upd b f : (forall p, mObjects (f p) = mObjects p) -> tame b (upd_proxy b f).
Proof.
  intros Hf w Hw [p Hp]. unfold runs, upd_proxy, bind, proxy. rewrite Hp. simpl. split; [done|].
  rewrite fmap_insert, Hf. apply insert_id. by rewrite lookup_fmap, Hp.
Qed.

Lemma quiet_log e : quiet (log e).
Proof. by intros w Hw. Qed.
Lemma quiet_out_int x : quiet (out_int x).
Proof. apply quiet_upd. Qed.
Lemma quiet_out_pointer x : quiet (out_pointer x).
Proof. apply quiet_upd. Qed.
#[local] Hint Resolve quiet_log quiet_out_int quiet_out_pointer tame_quiet tame_proxy : core.

Lemma quiet_death h b c : quiet (out_int c ;;; out_int h ;;; out_pointer b ;;; ret NO_ERROR).
Proof. repeat (apply quiet_bind; [done|intros _]). done. Qed.
Lemma quiet_handle h c : quiet (out_int c ;;; out_int h).
Proof. apply quiet_bind; done. Qed.

Lemma quiet_if_ipc m : quiet m -> quiet (if_ipc E Sys garbage m).
Proof.
  intros Hm w Hw. unfold if_ipc. apply runs_bind. eapply (runs_value _ w true w); [|by apply Hm].
  destruct Hw as (Ht & [t Hth] & _). unfold IPCThreadState_self, bind, gets, id. by rewrite Ht, Hth.
Qed.

Lemma quiet_upd_process f : quiet (upd_process f).
Proof.
  intros w Hw. pose proof Hw as (Ht & Hs & [p Hp]). unfold runs, upd_process, bind, process.
  rewrite Hp. simpl. split; [|done]. split; [done|]. split; [done|]. by eexists.
Qed.

Lemma quiet_expunge h b : quiet (ProcessState_expungeHandle grows h b).
Proof.
  unfold ProcessState_expungeHandle, lookupHandleLocked, set_entry.
  apply quiet_bind.
  - apply quiet_bind; [auto|intros p]. cbv zeta. destruct (_ <=? _); [|auto].
    destruct (negb _); [auto|]. apply quiet_bind; [apply quiet_upd_process|auto].
  - intros [e|]; [|auto]. destruct (bool_decide _); [apply quiet_upd_process|apply quiet_ret].
Qed.

Lemma tame_when b c m : tame b m -> tame b (when c m).
Proof. destruct c; simpl; [done|intros _; auto]. Qed.

Lemma tame_link b r c f : tame b (linkToDeath E Sys garbage b (Some r) c f).
Proof.
  unfold linkToDeath. apply tame_bind; [auto|intros p]. destruct (negb (mObitsSent p)); [|auto].
  apply tame_bind; [|intros _; apply tame_bind; [by apply tame_upd|auto]].
  destruct (mObituaries p); [auto|]. apply tame_bind; [auto|intros _].
  apply tame_quiet, quiet_state, quiet_bind; [|intros _; apply quiet_flush].
  apply quiet_bind; [apply quiet_death|intros _; apply quiet_ret].
Qed.

Lemma find_obit_matches r c f l i : find_obit r c f l = Some i ->
  exists o, l !! i = Some o /\ obit_matches r c f o = true.
Proof.
  revert i. induction l as [|o l IH]; intros i; simpl; [done|].
  destruct (obit_matches r c f o) eqn:Em.
  - intros [= <-]. by exists o.
  - intros H. apply fmap_Some in H as (j & Hj & ->). by apply IH.
Qed.

Lemma tame_unlink b r c f w : has_state w -> is_Some (w_proxies w !! b) ->
  runs (unlinkToDeath E Sys garbage b (Some r) c f) w (fun x w' =>
    (has_state w' /\ mObjects <$> w_proxies w' = mObjects <$> w_proxies w) /\
    (x.1 = NO_ERROR -> DEAD_OBJECT (k_errors E) = NO_ERROR \/
       NAME_NOT_FOUND (k_errors E) = NO_ERROR \/ x.2 = Some (Some r))).
Proof.
  intros Hw [p Hp]. unfold unlinkToDeath. apply runs_bind.
  eapply runs_value; [unfold proxy; by rewrite Hp|]. cbv beta.
  destruct (mObitsSent p); [split; [done|]; by left|]. cbv zeta.
  destruct (find_obit (Some r) c f _) as [i|] eqn:Ef; [|split; [done|]; by right; left].
  destruct (find_obit_matches _ _ _ _ _ Ef) as (o & Ho & Hm). apply runs_bind.
  eapply runs_mono.
  - match goal with |- runs ?m _ _ => assert (tame b m) as T end.
    { destruct (decide _).
      - apply tame_bind; [|intros _; by apply tame_upd]. apply tame_quiet, quiet_state.
        apply quiet_bind; [|intros _; apply quiet_flush].
        apply quiet_bind; [apply quiet_death|intros _; apply quiet_ret].
      - by apply tame_upd. }
    apply T; [done|by eexists].
  - intros [] w' H. split; [exact H|]. intros _. right. right. simpl. rewrite Ho. simpl. f_equal.
    unfold obit_matches in Hm. apply andb_true_iff in Hm as [Hm _].
    apply orb_true_iff in Hm as [Hm|Hm]; [by apply bool_decide_eq_true in Hm|].
    by apply andb_true_iff in Hm as [?%bool_decide_eq_true _].
Qed.

Lemma quiet_kill l : quiet (ObjectManager_kill l).
Proof.
  induction l as [|[i e] l IH]; simpl; [auto|]. apply quiet_bind; [|done].
  destruct (oe_func e); auto.
Qed.

Lemma quiet_last_strong w b : has_state w -> is_Some (w_proxies w !! b) ->
  runs (onLastStrongRef E Sys garbage b) w (fun _ w' => has_state w' /\ w_proxies w' = w_proxies w).
Proof.
  intros Hw [p Hp]. unfold onLastStrongRef. apply runs_bind.
  eapply runs_value; [unfold proxy; by rewrite Hp|]. by apply quiet_if_ipc; [apply quiet_handle|].
Qed.

(** The destructor takes the proxy away and leaves the others. *)
Lemma destroy_run w b : has_state w -> is_Some (w_proxies w !! b) ->
  runs (BpBinder_destroy E Sys garbage grows b) w (fun _ w' => has_state w' /\
    mObjects <$> w_proxies w' = delete b (mObjects <$> w_proxies w)).
Proof.
  intros Hw [p Hp]. unfold BpBinder_destroy. apply runs_bind.
  eapply runs_value; [unfold proxy; by rewrite Hp|]. cbv beta.
  eapply runs_step.
  - match goal with |- runs ?m _ _ => assert (tame b m) as T end.
    { destruct (mObituaries p); [|auto]. apply tame_bind; [|intros _; by apply tame_upd].
      apply tame_quiet, quiet_if_ipc, quiet_bind; [apply quiet_death|auto]. }
    apply T; [done|by eexists].
  - intros _ w1 [Hw1 E1]. eapply runs_step.
    + apply quiet_if_ipc; [|exact Hw1]. apply quiet_bind; [apply quiet_expunge|intros _; apply quiet_handle].
    + intros _ w2 [Hw2 E2]. eapply runs_step; [by apply quiet_kill|]. intros _ w3 [Hw3 E3].
      split; [done|]. simpl. by rewrite fmap_delete, E3, E2, E1.
Qed.

Lemma is_of w w' : mObjects <$> w_proxies w' = mObjects <$> w_proxies w ->
  (forall b, nb_is w' b = nb_is w b) /\ forall b, proxy_objects w' b = proxy_objects w b.
Proof.
  intros H. split; intros b.
  - simpl. apply bool_decide_ext. by split; apply (same_there mObjects).
  - unfold proxy_objects. by rewrite <- !lookup_fmap, H.
Qed.

Lemma is_there w b : nb_is w b = true -> is_Some (w_proxies w !! b).
Proof. simpl. apply bool_decide_eq_true. Qed.

(** Writing through a proxy's object list. *)
Lemma upd_objects w b f : has_state w -> nb_is w b = true ->
  exists w', upd_proxy b (fun p => set_mObjects (f (mObjects p)) p) w = Value tt w' /\
    has_state w' /\ (forall b', nb_is w' b' = nb_is w b') /\
    forall b', proxy_objects w' b' =
      if decide (b' = b) then f (proxy_objects w b) else proxy_objects w b'.
Proof.
  intros Hw [p Hp]%is_there. exists (set_proxies (<[b := set_mObjects (f (mObjects p)) p]> (w_proxies w)) w).
  split; [unfold upd_proxy, bind, proxy; by rewrite Hp|]. split; [done|].
  unfold proxy_objects. simpl. split; intros b'.
  - apply bool_decide_ext. destruct (decide (b' = b)) as [->|D].
    + rewrite lookup_insert_eq, Hp. split; intros _; by eexists.
    + by rewrite lookup_insert_ne.
  - case_decide as D; [subst b'; by rewrite lookup_insert_eq, Hp|by rewrite lookup_insert_ne].
Qed.

Lemma last_spec w b : has_state w -> nb_is w b = true ->
  runs (BpBinder_last b) w (fun l w' => has_state w' /\
    (l = [] /\ (forall b', nb_is w' b' = nb_is w b') /\
       (forall b', proxy_objects w' b' = proxy_objects w b') \/
     l = proxy_objects w b /\ (forall b', nb_is w' b' = nb_is w b' && negb (b' =? b)) /\
       (forall b', b' <> b -> proxy_objects w' b' = proxy_objects w b'))).
Proof.
  intros Hw Hb. pose proof (is_there _ _ Hb) as [p Hp]. unfold BpBinder_last. apply runs_bind.
  eapply runs_value; [unfold proxy; by rewrite Hp|]. cbv beta.
  eapply runs_step; [by apply quiet_last_strong, is_there|]. intros _ w1 [Hw1 E1].
  assert (mObjects <$> w_proxies w1 = mObjects <$> w_proxies w) as E1' by (by rewrite E1).
  apply runs_bind. change (runs (gets id) w1 ?Q) with (Q w1 w1). cbv beta. destruct (kept w1 b).
  - split; [done|]. left. split; [done|]. by apply is_of.
  - eapply runs_step; [apply destroy_run; [done|rewrite E1; by eexists]|]. intros _ w2 [Hw2 E2].
    rewrite E1 in E2. split; [done|]. right. unfold proxy_objects. split; [by rewrite Hp|]. split.
    + intros b'. simpl. rewrite <- (bool_decide_ext (is_Some ((mObjects <$> w_proxies w2) !! b'))
        (is_Some (w_proxies w2 !! b'))) by (rewrite lookup_fmap; split; apply (fmap_is_Some mObjects)).
      rewrite E2. destruct (Z.eqb_spec b' b) as [->|D].
      * rewrite lookup_delete_eq, andb_false_r. apply bool_decide_eq_false. by intros [].
      * rewrite lookup_delete_ne, lookup_fmap, andb_true_r by done. apply bool_decide_ext, (fmap_is_Some mObjects).
    + intros b' D. rewrite <- !lookup_fmap, E2, lookup_delete_ne by done. done.
Qed.

Context (dead_ok : DEAD_OBJECT (k_errors E) <> NO_ERROR).
Context (name_ok : NAME_NOT_FOUND (k_errors E) <> NO_ERROR).

(** [BpBinder] keeps the laws the Java side relies on. *)
#[global] Instance proxy_laws : NativeLaws.
Proof.
  refine {| nb_objects := proxy_objects |}.
  - intros w w' H. apply is_of. by rewrite H.
  - intros w b i Hw [p Hp]%is_there. simpl. unfold findObject, bind, proxy, proxy_objects.
    by rewrite Hp.
  - intros w b i o c f Hw Hb. by apply (upd_objects w b (ObjectManager_attach i o c f)).
  - intros w b i Hw Hb. by apply (upd_objects w b (ObjectManager_detach i)).
  - intros w b r c f Hw Hb. eapply runs_mono; [by apply tame_link; [|apply is_there]|].
    intros _ w' [Hw' H]. split; [done|]. by apply is_of.
  - intros w b r c f Hw Hb. eapply runs_mono; [by apply tame_unlink; [|apply is_there]|].
    intros x w' [[Hw' H] Hx]. split; [done|]. destruct (is_of _ _ H) as [H1 H2].
    split; [done|]. split; [done|]. intros H0. by destruct (Hx H0) as [?|[?|?]].
  - intros w b Hw [p Hp]%is_there. simpl. unfold isBinderAlive, runs, bind, proxy. by rewrite Hp.
  - intros w b Hw Hb. by apply last_spec.
Defined.

End Native.
