(* ===== verification/JniThms.v ===== *)
(** * JniThms: what the Java side of Binder guarantees

    Type safety of the native methods, what the counters of [android.os.Debug]
    count, one Java object per binder, death links, the exceptions of a
    transaction, the log of calls. *)

From S2P Require Import Prelude Uapi Parcel CppWorld ProcessState IpcCore BpBinder Proxy CppThms RefBase JniWorld JniBinder JniInv JniOps JniMeths JniProxies JniNatives JniCalls NativeProxy.

#[local] Open Scope Z_scope.

(** ** Calls *)

(** The native methods, with what Java passes to them, and the virtual methods
    the C++ library calls. *)
Inductive native_call : Type :=
| CBinder_getCallingPid
| CBinder_getCallingUid
| CBinder_clearCallingIdentity
| CBinder_restoreCallingIdentity (token : Z)
| CBinder_setThreadStrictModePolicy (mask : Z)
| CBinder_getThreadStrictModePolicy
| CBinder_flushPendingCommands
| CBinder_init (o : Z)
| CBinder_destroy (o : Z)
| CBinder_blockUntilThreadAvailable
| CInternal_getContextObject
| CInternal_joinThreadPool
| CInternal_disableBackgroundScheduling (b : bool)
| CInternal_setMaxThreads (n : Z)
| CInternal_handleGc
| CProxy_pingBinder (p : Z)
| CProxy_getInterfaceDescriptor (p : Z)
| CProxy_isBinderAlive (p : Z)
| CProxy_transact (p code : Z) (data reply : option Z) (flags : Z)
| CProxy_linkToDeath (p : Z) (recipient : option Z) (flags : Z)
| CProxy_unlinkToDeath (p : Z) (recipient : option Z) (flags : Z)
| CProxy_destroy (p : Z)
| CJavaBBinder_onTransact (b code data reply flags : Z)
| CRecipient_binderDied (r : Z)
| CjavaObjectForIBinder (b : Z).

Section Calls.
Context `{PL : ParcelLib} `{RB : RefBase} `{U : BinderUapi}.
Context `{NB : !NativeBinder}.
Context (E : cpp_env) (JE : jni_errors) (St : statics) (Sys : system) (garbage : Z).
Context `{JS : !JavaSide} `{SM : !Sampling}.

Implicit Types (s : jni_state) (pins : list Z).

Definition call {A} (m : JM A) : JM unit := do! _ := m in ret tt.

Definition run (c : native_call) : JM unit :=
  match c with
  | CBinder_getCallingPid => call (android_os_Binder_getCallingPid E Sys garbage)
  | CBinder_getCallingUid => call (android_os_Binder_getCallingUid E Sys garbage)
  | CBinder_clearCallingIdentity => call (android_os_Binder_clearCallingIdentity E Sys garbage)
  | CBinder_restoreCallingIdentity t => android_os_Binder_restoreCallingIdentity E Sys garbage t
  | CBinder_setThreadStrictModePolicy m =>
      android_os_Binder_setThreadStrictModePolicy E Sys garbage m
  | CBinder_getThreadStrictModePolicy =>
      call (android_os_Binder_getThreadStrictModePolicy E Sys garbage)
  | CBinder_flushPendingCommands => android_os_Binder_flushPendingCommands E Sys garbage
  | CBinder_init o => android_os_Binder_init o
  | CBinder_destroy o => android_os_Binder_destroy o
  | CBinder_blockUntilThreadAvailable => android_os_Binder_blockUntilThreadAvailable
  | CInternal_getContextObject => call (android_os_BinderInternal_getContextObject St)
  | CInternal_joinThreadPool => android_os_BinderInternal_joinThreadPool St
  | CInternal_disableBackgroundScheduling b =>
      android_os_BinderInternal_disableBackgroundScheduling b
  | CInternal_setMaxThreads n => android_os_BinderInternal_setMaxThreads n
  | CInternal_handleGc => android_os_BinderInternal_handleGc
  | CProxy_pingBinder p => call (android_os_BinderProxy_pingBinder p)
  | CProxy_getInterfaceDescriptor p => call (android_os_BinderProxy_getInterfaceDescriptor p)
  | CProxy_isBinderAlive p => call (android_os_BinderProxy_isBinderAlive p)
  | CProxy_transact p code data reply flags =>
      call (android_os_BinderProxy_transact E JE p code data reply flags)
  | CProxy_linkToDeath p r flags => android_os_BinderProxy_linkToDeath E JE p r flags
  | CProxy_unlinkToDeath p r flags => call (android_os_BinderProxy_unlinkToDeath E p r flags)
  | CProxy_destroy p => android_os_BinderProxy_destroy E St Sys garbage p
  | CJavaBBinder_onTransact b code data reply flags =>
      call (JavaBBinder_onTransact E JE St Sys garbage b code data reply flags)
  | CRecipient_binderDied r => JavaDeathRecipient_binderDied r
  | CjavaObjectForIBinder b => call (javaObjectForIBinder St b)
  end.

(** An object of Java's class [BinderProxy]. *)
Definition is_proxy s (p : Z) : Prop := exists b d w, j_heap s !! p = Some (JBinderProxy b d w).
Definition null_or (P : Z -> Prop) (o : option Z) : Prop := forall x, o = Some x -> P x.
Definition is_object s (o : Z) : Prop := is_Some (j_heap s !! o).

(** The arguments have the types Java gives them; C++ holds a strong pointer to
    the object whose method it calls; a finalizer runs once nothing refers to
    the object. *)
Definition typed pins s (c : native_call) : Prop :=
  match c with
  | CBinder_init o | CBinder_destroy o => exists h, j_heap s !! o = Some (JBinder h)
  | CProxy_pingBinder p | CProxy_getInterfaceDescriptor p | CProxy_isBinderAlive p => is_proxy s p
  | CProxy_transact p _ data reply _ =>
      is_proxy s p /\ null_or (is_parcel s) data /\ null_or (is_parcel s) reply
  | CProxy_linkToDeath p r _ => is_proxy s p /\ null_or (is_object s) r
  | CProxy_unlinkToDeath p r _ => is_proxy s p /\ null_or (is_object s) r
  | CProxy_destroy p => is_proxy s p /\ forall r, j_heap s !! r <> Some (JWeakReference (Some p))
  | CJavaBBinder_onTransact b _ _ _ _ => b ∈ pins /\ exists g, j_native s !! b = Some (JavaBBinder g)
  | CRecipient_binderDied r =>
      r ∈ pins /\ exists g gw d, j_native s !! r = Some (JavaDeathRecipient g gw d)
  | CjavaObjectForIBinder b => b = 0 \/ is_binder s b /\ b ∈ pins
  | _ => True
  end.

(** The one call that is typed and not safe: a recipient is linked to a proxy that
    was finalized, whose binder is NULL. *)
Definition links_finalized s (c : native_call) : Prop :=
  match c with
  | CProxy_linkToDeath p (Some _) _ => exists d w, j_heap s !! p = Some (JBinderProxy 0 d w)
  | _ => False
  end.

(** Java code makes objects, the collector clears weak references, native methods
    run; C++ code makes strong pointers to the binders below, to the binder of a
    Java object and to recipients, and gives them up.  The list has the strong
    pointers it holds. *)
Inductive java_step : list Z * jni_state -> list Z * jni_state -> Prop :=
| step_call pins s c s' : typed pins s c -> run c s = Value tt s' -> java_step (pins, s) (pins, s')
| step_new pins s x n : blank s x -> j_next s < n -> java_step (pins, s) (pins, with_object x n s)
| step_gc pins s s' : gc_effect s s' -> java_step (pins, s) (pins, s')
| step_receive pins s b : nb_is (j_cpp s) b = true ->
    java_step (pins, s) (b :: pins, set_j_refs (rb_incStrong b (j_refs s)) s)
| step_take pins s o b s' : null_or (is_object s) o -> ibinderForJavaObject o s = Value b s' ->
    java_step (pins, s) (if b =? 0 then pins else b :: pins, s')
| step_give pins s b s' : is_binder s b -> IBinder_decStrong St b s = Value tt s' ->
    java_step (b :: pins, s) (pins, s')
| step_promote pins s r s' : promote (Some r) s = Value (Some r) s' ->
    java_step (pins, s) (r :: pins, s')
| step_drop pins s r g gw d s' : j_native s !! r = Some (JavaDeathRecipient g gw d) ->
    decStrong JavaDeathRecipient_destroy r s = Value tt s' -> java_step (r :: pins, s) (pins, s').

Definition java_steps : relation (list Z * jni_state) := rtc java_step.

End Calls.

Section Safety.
Context `{PL : ParcelLib} `{RB : RefBase} `{U : BinderUapi}.
Context `{NB : !NativeBinder} `{NL : !NativeLaws}.
Context (E : cpp_env) (JE : jni_errors) (St : statics) (Sys : system) (garbage : Z).
Context `{JS : !JavaSide} `{SM : !Sampling} `{JL : !JavaLaws St}.

Implicit Types (s : jni_state) (pins : list Z).

#[local] Notation inv := (inv St).
#[local] Notation run := (run E JE St Sys garbage).

Lemma call_runs {A} pins (m : JM A) s (Q : A -> jni_state -> Prop) : runs m s Q ->
  (forall a s', Q a s' -> inv pins s' /\ evolves s s') ->
  runs (call m) s (fun _ s' => inv pins s' /\ evolves s s').
Proof.
  intros H HQ. unfold call. apply runs_bind. eapply runs_mono; [exact H|]. intros a s' Ha.
  by apply (HQ a s').
Qed.

Lemma transact_null pins s p code reply flags : inv pins s ->
  runs (android_os_BinderProxy_transact E JE p code None reply flags) s
    (fun _ s' => inv pins s' /\ evolves s s').
Proof. intros I. unfold android_os_BinderProxy_transact. walk. by apply inv_pending. Qed.

Lemma parcel_of_null_or s o : null_or (is_parcel s) o -> exists q, parcel_of s o q.
Proof. destruct o as [o|]; [intros H; by apply (H o)|by exists 0]. Qed.

(** NULL is no recipient, of any proxy. *)
Lemma link_null pins s p flags : inv pins s ->
  runs (android_os_BinderProxy_linkToDeath E JE p None flags) s
    (fun _ s' => inv pins s' /\ evolves s s').
Proof. intros I. unfold android_os_BinderProxy_linkToDeath. walk. by apply inv_pending. Qed.

(** The binder of a finalized proxy is followed. *)
Lemma link_finalized pins s p d r o flags : inv pins s ->
  j_heap s !! p = Some (JBinderProxy 0 d r) ->
  android_os_BinderProxy_linkToDeath E JE p (Some o) flags s = Crash 0.
Proof.
  intros [own W] Hp. assert (strong (j_refs s) 0 <= 0) as H0.
  { destruct (Z.le_gt_cases (strong (j_refs s) 0) 0) as [|Hgt]; [done|]. exfalso.
    destruct (wf_alive _ _ _ _ W 0 ltac:(lia)) as [[x Hx]|Hx].
    - destruct (wf_native_range _ _ _ _ W 0 x Hx). lia.
    - pose proof (wf_nb_range _ _ _ _ W 0 Hx). lia. }
  unfold android_os_BinderProxy_linkToDeath, bind at 1. rewrite (BinderProxy_mObject_run _ _ _ _ _ Hp).
  unfold deref_IBinder, bind, gets, id. by rewrite (proj2 (Z.ltb_ge _ _)) by lia.
Qed.

(** A typed call keeps the invariant. *)
Lemma run_spec pins s c : inv pins s -> typed pins s c -> ~ links_finalized s c ->
  runs (run c) s (fun _ s' => inv pins s' /\ evolves s s').
Proof.
  intros I T F. destruct c; cbn [JniThms.run typed links_finalized] in *; unfold is_proxy in *.
  - eapply call_runs; [by apply (ipc_spec E St Sys garbage); auto|done].
  - eapply call_runs; [by apply (ipc_spec E St Sys garbage); auto|done].
  - eapply call_runs; [by apply (ipc_spec E St Sys garbage); auto|done].
  - by apply (restore_spec E St).
  - by apply (ipc_spec E St Sys garbage); auto.
  - eapply call_runs; [by apply (ipc_spec E St Sys garbage); auto|done].
  - by apply (ipc_spec E St Sys garbage); auto.
  - destruct T as [h Ho]. eapply runs_mono; [by eapply (Binder_init_spec St)|]. by intros _ s' (? & ? & _).
  - destruct T as [h Ho]. by eapply (Binder_destroy_spec St).
  - unfold android_os_Binder_blockUntilThreadAvailable. by eapply block_law.
  - eapply call_runs; [by apply (getContextObject_spec St)|done].
  - by apply (joinThreadPool_spec St).
  - apply (lift_quiet St); auto.
  - unfold android_os_BinderInternal_setMaxThreads. by eapply max_threads_law.
  - by apply (handleGc_spec St).
  - destruct T as (b & d & w & Hp). eapply call_runs; [by eapply (ping_spec St)|done].
  - destruct T as (b & d & w & Hp). eapply call_runs; [by eapply (descriptor_spec St)|done].
  - destruct T as (b & d & w & Hp). eapply call_runs; [by eapply (alive_spec St)|done].
  - destruct T as ((b & d & w & Hp) & Hd & Hr). destruct data as [od|].
    + destruct (Hd od eq_refl) as [q Hq]. destruct (parcel_of_null_or s _ Hr) as [r Hr'].
      eapply call_runs; [by eapply (transact_spec E JE St)|]. by intros a s' (? & ? & _).
    + eapply call_runs; [by apply transact_null|done].
  - destruct T as ((b & d & w & Hp) & Hr). destruct recipient as [o|]; [|by apply link_null].
    assert (b <> 0) as Hz by (intros ->; apply F; eauto).
    eapply runs_mono; [by eapply (linkToDeath_spec E JE St)|]. by intros _ s' (? & ? & _).
  - destruct T as ((b & d & w & Hp) & Hr).
    eapply call_runs; [by eapply (unlinkToDeath_spec E St)|]. by intros a s' (? & ? & _).
  - destruct T as ((b & d & w & Hp) & Hr). by eapply (destroy_spec E St).
  - destruct T as (Hb & g & Hg).
    eapply call_runs; [by eapply (onTransact_spec E JE St)|]. by intros a s' (? & ? & _).
  - destruct T as (Hb & g & gw & d & Hr). by eapply (JavaDeathRecipient_binderDied_spec St).
  - eapply call_runs; [by apply (javaObjectForIBinder_spec St)|]. by intros a s' (? & ? & _).
Qed.

Lemma run_finalized pins s c : inv pins s -> links_finalized s c -> run c s = Crash 0.
Proof.
  intros I F. destruct c; try done. cbn [links_finalized JniThms.run] in *. destruct recipient as [o|]; [|done].
  destruct F as (d & w & Hp). by eapply link_finalized.
Qed.

(** Every step keeps it. *)
Lemma step_inv pins s pins' s' : inv pins s ->
  java_step E JE St Sys garbage (pins, s) (pins', s') -> inv pins' s'.
Proof.
  intros I H. inversion H as [? ? c ? T Hr|? ? x n Hx Hn|? ? ? G|? ? b Hb|? ? o b ? Ho Hb|
    ? ? b ? Hb Hr|? ? r ? Hr|? ? r g gw d ? Hd Hr]; subst.
  - pose proof (run_spec _ _ _ I T) as R. unfold runs in R. rewrite Hr in R. apply R.
    intros F. by rewrite (run_finalized _ _ _ I F) in Hr.
  - destruct I as [own W]. exists own. by apply wf_with_object.
  - by destruct (inv_gc _ _ _ I G).
  - destruct I as [own W]. pose proof (wf_nb_range _ _ _ _ W b Hb).
    apply (inc_spec St pins s b); [by exists own|lia|by right].
  - pose proof (ibinderForJavaObject_spec St pins s o I Ho) as R. unfold runs in R. rewrite Hb in R.
    destruct R as (_ & [[-> I']|[I' Hib]] & _); [done|].
    by rewrite (proj2 (Z.eqb_neq b 0)) by (by eapply (is_binder_nz St)).
  - pose proof (IBinder_dec_spec St pins' s b I Hb) as R. unfold runs in R. rewrite Hr in R.
    by destruct R.
  - pose proof (promote_spec St pins s r I) as R. unfold runs in R. rewrite Hr in R.
    by destruct R as (_ & _ & _ & _ & _ & _ & ? & _).
  - pose proof (Recipient_dec_spec St pins' s r g gw d I Hd) as R. unfold runs in R. rewrite Hr in R.
    by destruct R.
Qed.

Lemma steps_inv c c' : inv c.1 c.2 -> java_steps E JE St Sys garbage c c' -> inv c'.1 c'.2.
Proof.
  intros I H. induction H as [|[p1 s1] [p2 s2] c3 H1 _ IH]; [done|]. apply IH. by eapply step_inv.
Qed.

(** The layer when the process has registered it: no Java object of ours, no
    native object, nothing attached to the binders below. *)
Definition boot (w : world) (parcels : gmap Z parcel) (n : Z) : jni_state :=
  JniState w ∅ ∅ ∅ None ∅ refs_none parcels n 0 0 0 0.

Definition clean (w : world) (n : Z) : Prop :=
  has_state w /\ 0 < n /\
  forall b, nb_is w b = true -> 0 < b < n /\ nb_objects w b = [].

Lemma boot_inv w ps n : clean w n -> inv [] (boot w ps n).
Proof.
  intros (Hw & Hn & Hb). exists ∅. split; simpl; try done.
  - by intros b [? _]%Hb.
  - intros a _. by rewrite strong_none.
  - intros a. rewrite strong_none. lia.
  - intros b [_ Hl]%Hb. rewrite Hl. constructor.
  - intros b i e [_ Hl]%Hb. rewrite Hl. by intros ?%not_elem_of_nil.
Qed.

Definition reachable (w : world) (ps : gmap Z parcel) (n : Z) (pins : list Z) (s : jni_state) : Prop :=
  java_steps E JE St Sys garbage ([], boot w ps n) (pins, s).

Lemma reachable_inv w ps n pins s : clean w n -> reachable w ps n pins s -> inv pins s.
Proof. intros Hw H. by apply (steps_inv ([], boot w ps n) (pins, s)); [apply boot_inv|]. Qed.

End Safety.

Section Properties.
Context `{PL : ParcelLib} `{RB : RefBase} `{U : BinderUapi}.
Context `{NB : !NativeBinder} `{NL : !NativeLaws}.
Context (E : cpp_env) (JE : jni_errors) (St : statics) (Sys : system) (garbage : Z).
Context `{JS : !JavaSide} `{SM : !Sampling} `{JL : !JavaLaws St}.

Implicit Types (s : jni_state) (pins : list Z).

#[local] Notation inv := (inv St).
#[local] Notation reachable := (reachable E JE St Sys garbage).

(** C5: from any state the program can be in, a call with arguments of the types the
    Java compiler has checked follows no bad pointer, casts no object to a class
    it is not and uses no deleted reference, with one exception: it returns, waits,
    or asks the virtual machine to abort; and the objects agree again when it
    returns.  The exception is to link a recipient to a proxy that was finalized:
    that always follows the NULL pointer. *)
Theorem native_methods_type_safe w ps n pins s c :
  clean w n -> reachable w ps n pins s -> typed pins s c ->
  (~ links_finalized s c ->
   match run E JE St Sys garbage c s with
   | Value _ s' => inv pins s' /\ evolves s s'
   | Crash l => l = FATAL_ERROR
   | Blocked _ | NoFuel => True
   end) /\
  (links_finalized s c -> run E JE St Sys garbage c s = Crash 0).
Proof.
  intros Hw Hs T. apply (reachable_inv _ _ _ _ _ _ _ _ _ _ Hw) in Hs. split; intros F.
  - exact (run_spec E JE St Sys garbage pins s c Hs T F).
  - exact (run_finalized E JE St Sys garbage pins s c Hs F).
Qed.

(** [android.os.Debug] counts the local binders and the death recipients there
    are, in 32 bits, and a collection is asked for at least every 200 objects. *)
Theorem debug_counts_objects w ps n pins s : clean w n -> reachable w ps n pins s ->
  android_os_Debug_getLocalObjectCount s =
    Value (i32 (count_map is_JavaBBinder (j_native s))) s /\
  android_os_Debug_getDeathObjectCount s =
    Value (i32 (count_map is_Recipient (j_native s))) s /\
  0 <= gNumRefsCreated s <= 200.
Proof.
  intros Hw Hs. destruct (reachable_inv _ _ _ _ _ _ _ _ _ _ Hw Hs) as [own W].
  unfold android_os_Debug_getLocalObjectCount, android_os_Debug_getDeathObjectCount, gets.
  rewrite (wf_local _ _ _ _ W), (wf_death _ _ _ _ W). split; [done|]. split; [done|].
  by apply (wf_created _ _ _ _ W).
Qed.

(** ** One Java object per binder *)

(** C13: a local object goes to C++ and back as itself; a binder that came from C++
    and goes to Java comes back as itself.  It is NULL in Java, and comes back as
    NULL, only when it had no proxy that was alive and Java had no memory for one. *)
Theorem binder_java_roundtrip w ps n pins s : clean w n -> reachable w ps n pins s ->
  (forall o h, j_heap s !! o = Some (JBinder h) -> h <> 0 ->
     runs (do! b := ibinderForJavaObject (Some o) in javaObjectForIBinder St b) s
       (fun r _ => r = Some o)) /\
  (forall b, nb_is (j_cpp s) b = true -> b ∈ pins ->
     runs (do! r := javaObjectForIBinder St b in do! b' := ibinderForJavaObject r in ret (r, b')) s
       (fun x s' => match x.1 with
          | Some _ => x.2 = b
          | None => x.2 = 0 /\ (forall p, ~ proxy_of St s b p) /\
              exists s1, new_BinderProxy s1 = Value None s'
          end)).
Proof.
  intros Hw Hs. apply (reachable_inv _ _ _ _ _ _ _ _ _ _ Hw) in Hs as I. split.
  - intros o h Ho Hh. apply runs_bind. eapply runs_mono; [apply (ibinderForJavaObject_spec St pins s)|].
    { done. } { intros o' [= <-]. by eexists. }
    intros b s1 (E1 & Hinv & Hb). specialize (Hb o _ eq_refl Ho). simpl in Hb.
    rewrite (proj2 (Z.eqb_neq h 0) Hh) in Hb. destruct Hb as (g & Hg & Hgl).
    assert (inv (b :: pins) s1) as I1.
    { destruct Hinv as [[-> I1]|[I1 _]]; [|done]. by destruct (inv_native_pos _ _ _ _ I1 Hg). }
    eapply runs_mono; [apply (javaObjectForIBinder_spec St (b :: pins) s1 b I1)|].
    { right. split; [left; by exists g|left]. }
    intros r s2 (_ & _ & _ & Hr & _). destruct (Hr g Hg) as (-> & _). done.
  - intros b Hb Hin. apply runs_bind.
    eapply runs_mono; [apply runs_eq, (javaObjectForIBinder_spec St pins s b I); right; split; [by right|done]|].
    intros [p|] s1 (Eq & I1 & E1 & _ & _ & Hr); destruct (Hr Hb) as (Hlive & _ & Hp).
    2: { split; [done|]. split; [by intros p [? _]%Hlive|].
         by apply (javaObjectForIBinder_none St pins s b s1 I Hb). }
    destruct (Hp p eq_refl) as (d & w' & H). apply runs_bind.
    eapply runs_mono; [apply (ibinderForJavaObject_spec St pins s1 (Some p) I1)|].
    { intros p' [= <-]. by eexists. }
    intros b' s2 (_ & _ & Hb'). by specialize (Hb' p _ eq_refl H).
Qed.

(** A binder whose Java proxy is still there gets that very object and nothing
    changes; otherwise Java gets NULL, with no memory, or a proxy that was no
    object before and is the binder's. *)
Theorem javaObjectForIBinder_correct w ps n pins s b : clean w n -> reachable w ps n pins s ->
  nb_is (j_cpp s) b = true -> b ∈ pins ->
  (forall p, proxy_of St s b p -> javaObjectForIBinder St b s = Value (Some p) s) /\
  ((forall p, ~ proxy_of St s b p) ->
     runs (javaObjectForIBinder St b) s (fun r s' => forall p, r = Some p ->
       j_heap s !! p = None /\ exists d w', j_heap s' !! p = Some (JBinderProxy b d w'))).
Proof.
  intros Hw Hs Hb Hin. apply (reachable_inv _ _ _ _ _ _ _ _ _ _ Hw) in Hs as I. split.
  - intros p (g & r & Hf & Hgl & Hr). pose proof I as [own W].
    pose proof (wf_nb_range _ _ _ _ W b Hb).
    assert (j_native s !! b = None) as Hno.
    { destruct (j_native s !! b) as [x|] eqn:Hx; [|done].
      destruct (wf_native_range _ _ _ _ W b x Hx). congruence. }
    assert (g <> 0) as Hg.
    { destruct (find_Some _ _ _ Hf) as (e & He & <-). pose proof (wf_entries _ _ _ _ W b _ e Hb He) as Hok.
      unfold entry_ok in Hok. rewrite decide_True in Hok by done. by destruct Hok as (_ & ? & _). }
    unfold javaObjectForIBinder. rewrite (proj2 (Z.eqb_neq b 0)) by lia.
    unfold bind at 1. rewrite (deref_run St pins s b I) by (done || lia).
    unfold bind at 1, checkSubclass, bind at 1, gets, id. rewrite Hno, Hb. cbn [ret].
    unfold bind at 1. rewrite (lift_value _ _ (Some g) (j_cpp s)), set_same_cpp.
    2: { rewrite nb_find_law, Hf; [done|apply (wf_state _ _ _ _ W)|done]. }
    cbn [default]. rewrite (proj2 (Z.eqb_neq g 0) Hg). cbn [negb].
    unfold bind, jniGetReferent, bind. rewrite (global_object_run _ _ _ Hg Hgl).
    by rewrite (heap_object_run _ _ _ Hr).
  - intros Hno. eapply runs_mono.
    { apply (javaObjectForIBinder_spec St pins s b I). right. split; [by right|done]. }
    intros r s' (_ & _ & _ & _ & Hr). destruct (Hr Hb) as (_ & Hfresh & Hp). intros p ->.
    split; [by apply (Hfresh Hno)|by apply Hp].
Qed.

(** ** Death links *)

(** [linkToDeath] of a proxy: NULL is refused; a local target has nothing to
    watch; otherwise a recipient for the Java object is at the end of the proxy's
    list, or the status of the binder below is thrown. *)
Theorem linkToDeath_correct w ps n pins s p b d r recipient flags :
  clean w n -> reachable w ps n pins s ->
  j_heap s !! p = Some (JBinderProxy b d r) -> b <> 0 -> null_or (is_object s) recipient ->
  runs (android_os_BinderProxy_linkToDeath E JE p recipient flags) s (fun _ s' =>
    match recipient with
    | None => s' = set_j_pending (Some (Throwable "java/lang/NullPointerException" None)) s
    | Some o =>
        nb_local b = true /\ s' = s \/
        nb_local b = false /\
        ((exists l jdr, j_native s' !! d = Some (DeathRecipientList (l ++ [jdr])) /\
            j_native s !! d = Some (DeathRecipientList l) /\ recipient_of s' jdr = Some o) \/
         exists err, err <> NO_ERROR /\ j_pending s' = Some (error_exception E JE err true 0))
    end).
Proof.
  intros Hw Hs Hp Hb Hr. apply (reachable_inv _ _ _ _ _ _ _ _ _ _ Hw) in Hs as I.
  eapply runs_mono; [by eapply (linkToDeath_spec E JE St)|]. by intros _ s' (_ & _ & H).
Qed.

(** C16: [unlinkToDeath]: the first recipient of the Java object in the proxy's list,
    one that was told and holds the object weakly included, is the one unlinked; it
    leaves the list when the binder below agrees, and stays when the binder is
    dead.  An exception says that there is no link, and the list stays, just when
    no recipient in the list is for the object or the binder below does not know
    the one that is. *)
Theorem unlinkToDeath_correct w ps n pins s p b d r o flags l :
  clean w n -> reachable w ps n pins s -> not_found_distinct E ->
  j_heap s !! p = Some (JBinderProxy b d r) -> b <> 0 -> nb_local b = false ->
  j_native s !! d = Some (DeathRecipientList l) ->
  runs (android_os_BinderProxy_unlinkToDeath E p (Some o) flags) s (fun x s' =>
    (x = false /\ j_pending s' = Some NoSuchLink /\ j_native s' !! d = Some (DeathRecipientList l) /\
       ((forall jdr, jdr ∈ l -> recipient_of s jdr <> Some o) \/
        exists l1 jdr l2 err dr w', l = l1 ++ jdr :: l2 /\ recipient_of s jdr = Some o /\
          (forall jdr', jdr' ∈ l1 -> recipient_of s jdr' <> Some o) /\
          nb_unlinkToDeath b (Some jdr) 0 flags (j_cpp s) = Value (err, dr) w' /\
          err <> NO_ERROR /\ err <> DEAD_OBJECT (k_errors E))) \/
    (x = true /\ exists l1 jdr l2 err dr w', l = l1 ++ jdr :: l2 /\ recipient_of s jdr = Some o /\
       (forall jdr', jdr' ∈ l1 -> recipient_of s jdr' <> Some o) /\
       nb_unlinkToDeath b (Some jdr) 0 flags (j_cpp s) = Value (err, dr) w' /\
       (err = NO_ERROR /\ j_native s' !! d = Some (DeathRecipientList (l1 ++ l2)) \/
        err = DEAD_OBJECT (k_errors E) /\ j_native s' !! d = Some (DeathRecipientList l)))).
Proof.
  intros Hw Hs Hne Hp Hb Hloc Hl. apply (reachable_inv _ _ _ _ _ _ _ _ _ _ Hw) in Hs as I.
  eapply runs_mono; [by eapply (unlinkToDeath_spec E St)|]. intros x s' (_ & _ & _ & H). by apply H.
Qed.

(** A finalized proxy has no binder: [linkToDeath] tells the log, and then follows
    the NULL pointer. *)
Theorem linkToDeath_finalized_crashes w ps n pins s p d r o flags :
  clean w n -> reachable w ps n pins s -> j_heap s !! p = Some (JBinderProxy 0 d r) ->
  android_os_BinderProxy_linkToDeath E JE p (Some o) flags s = Crash 0.
Proof.
  intros Hw Hs Hp. apply (reachable_inv _ _ _ _ _ _ _ _ _ _ Hw) in Hs. by eapply (link_finalized E JE St).
Qed.

(** ** Calls *)

(** [transact] of a proxy: dead parcels and finalized proxies are refused with an
    exception; otherwise the answer of the target is the result, a code the
    target does not know is [false], and any other status is thrown, with the size
    of the data it was about. *)
Theorem proxy_transact_correct w ps n pins s p b d r code od q replyObj rq flags :
  clean w n -> reachable w ps n pins s ->
  j_heap s !! p = Some (JBinderProxy b d r) ->
  j_heap s !! od = Some (JParcel q) -> parcel_of s replyObj rq ->
  runs (android_os_BinderProxy_transact E JE p code (Some od) replyObj flags) s (fun x s' =>
    if (q =? 0) || (rq =? 0) && negb (bool_decide (replyObj = None)) then
      x = false /\ s' = parcel_finalized s
    else if b =? 0 then
      x = false /\ s' = thrown "java/lang/IllegalStateException" "Binder has been finalized!" s
    else exists err s1,
      ib_transact b code q (if rq =? 0 then None else Some rq) flags s = Value err s1 /\
      transact_answer E JE q err x s1 s').
Proof.
  intros Hw Hs Hp Hd Hr. apply (reachable_inv _ _ _ _ _ _ _ _ _ _ Hw) in Hs as I.
  eapply runs_mono; [by eapply (transact_spec E JE St)|]. by intros x s' (_ & _ & H).
Qed.

(** C29: a call that comes in for a Java binder: its [execTransact] decides; an
    exception in it is a refusal, is reported, and is not pending any more when the
    call goes back to the driver. *)
Theorem onTransact_correct w ps n pins s b g code data reply flags :
  clean w n -> reachable w ps n pins s -> b ∈ pins -> j_native s !! b = Some (JavaBBinder g) ->
  runs (JavaBBinder_onTransact E JE St Sys garbage b code data reply flags) s (fun x s' =>
    (code <> SYSPROPS_TRANSACTION St -> j_pending s' = None) /\
    exists o res s1, j_globals s !! g = Some o /\
      jcall (ExecTransact o code data reply flags) s = Value res s1 /\
      x = if bool_decide (j_pending s1 = None) && negb (res =? 0) then NO_ERROR
          else UNKNOWN_TRANSACTION JE).
Proof.
  intros Hw Hs Hb Hn. apply (reachable_inv _ _ _ _ _ _ _ _ _ _ Hw) in Hs as I.
  eapply runs_mono; [by eapply (onTransact_spec E JE St)|]. by intros x s' (_ & _ & H).
Qed.

(** ** Exceptions *)

(** The statuses with an exception of their own that is not remote. *)
Definition plain_status (err : Z) : bool :=
  bool_decide (err ∈ [-2147483648; -12; -38; -22; -75; -2147483647; -2; -1; -61; -19; -17; -74;
    -2147483641; -2147483640; - EBADF; - ENFILE; - EMFILE; - EFBIG; - ENOSPC; - ESPIPE; - EROFS;
    - EMLINK]).

(** A status with a case of its own: which class it is can be seen. *)
Ltac by_class can size :=
  destruct can; cbn [andb]; try (destruct (Z.ltb_spec (200 * 1024) size)); cbn [t_class];
  (split; [|split]); split; intros Hcls; try discriminate Hcls; try (split; [done|lia]);
  try done; exfalso;
  repeat match goal with H : _ /\ _ |- _ => destruct H | H : _ \/ _ |- _ => destruct H end;
  try discriminate; try done; try lia.

(** Checked exceptions are thrown only where the method declares them: the target
    died, or the transaction failed with at most 200 KB of data; it was larger; any
    status the switch does not know. *)
Theorem checked_exceptions_declared err can size :
  k_errors E = linux_errors -> JE = linux_jni_errors ->
  let cls := t_class (error_exception E JE err can size) in
  (cls = "android/os/DeadObjectException" <->
     can = true /\ (err = -32 \/ err = -2147483646 /\ size <= 200 * 1024)) /\
  (cls = "android/os/TransactionTooLargeException" <->
     can = true /\ err = -2147483646 /\ 200 * 1024 < size) /\
  (cls = "android/os/RemoteException" <->
     can = true /\ err <> -32 /\ err <> -2147483646 /\ plain_status err = false).
Proof.
  intros HE HJ. unfold error_exception. rewrite HE, HJ. cbn [UNKNOWN_ERROR NO_MEMORY INVALID_OPERATION
    NAME_NOT_FOUND NOT_ENOUGH_DATA DEAD_OBJECT FAILED_TRANSACTION linux_errors BAD_VALUE BAD_INDEX
    BAD_TYPE PERMISSION_DENIED NO_INIT ALREADY_EXISTS UNKNOWN_TRANSACTION FDS_NOT_ALLOWED
    UNEXPECTED_NULL linux_jni_errors].
  repeat match goal with |- context [if err =? ?k then _ else _] =>
    destruct (Z.eqb_spec err k) as [->|?]; [by_class can size|] end.
  assert (plain_status err = false) as Hp.
  { apply bool_decide_eq_false. rewrite !elem_of_cons. intros H.
    repeat (destruct H as [H|H]; [by subst err|]). by apply not_elem_of_nil in H. }
  destruct can; cbn [t_class]; (split; [|split]); split; intros H; try discriminate H; try done;
    exfalso; lia.
Qed.

(** ** The log *)

Definition log_string (str : list Z) : list Z :=
  EVENT_TYPE_STRING :: le_encode 4 (u32 (Z.of_nat (length str))) ++ str.
Definition log_int (val : Z) : list Z := EVENT_TYPE_INT :: le_encode 4 (u32 val).

Lemma push_string_run last str buf : Z.of_nat (length str) < 2 ^ 31 - 5 ->
  push_eventlog_string last str buf =
  if last <? Z.of_nat (length (buf ++ log_string str)) then None else Some (buf ++ log_string str).
Proof.
  intros H. unfold push_eventlog_string, log_string. rewrite (i32_small (Z.of_nat _)) by lia.
  rewrite i32_small by lia.
  rewrite length_app, length_cons, length_app, length_le_encode.
  destruct (Z.ltb_spec (last - Z.of_nat (length buf)) (1 + 4 + Z.of_nat (length str)));
    destruct (Z.ltb_spec last (Z.of_nat (length buf + S (4 + length str)))); done || lia.
Qed.

Lemma push_int_run last val buf :
  push_eventlog_int last val buf =
  if last <? Z.of_nat (length (buf ++ log_int val)) then None else Some (buf ++ log_int val).
Proof.
  unfold push_eventlog_int, log_int. rewrite length_app, length_cons, length_le_encode.
  destruct (Z.ltb_spec (last - Z.of_nat (length buf)) (1 + 4));
    destruct (Z.ltb_spec last (Z.of_nat (length buf + S 4))); done || lia.
Qed.

(** Of two pieces written one after the other, one does not fit when both do
    not. *)
Lemma push_both last (buf a : list Z) (k f : list Z -> option (list Z)) l :
  (forall b, k b = if last <? Z.of_nat (length (b ++ l)) then None else f (b ++ l)) ->
  ((if last <? Z.of_nat (length (buf ++ a)) then None else Some (buf ++ a)) ≫= k) =
  if last <? Z.of_nat (length (buf ++ a ++ l)) then None else f (buf ++ a ++ l).
Proof.
  intros Hk. rewrite app_assoc.
  destruct (Z.ltb_spec last (Z.of_nat (length (buf ++ a)))) as [H|H]; simpl; [|by rewrite Hk].
  rewrite (proj2 (Z.ltb_lt _ _)); [done|]. rewrite length_app. lia.
Qed.

(** C40: a record of a call is the whole of it and fits in what the logger takes, or
    there is none: the buffer on the stack is never written past its end. *)
Theorem binder_call_record_correct desc code ms pname pct :
  Z.of_nat (length desc) < 2 ^ 31 - 5 -> Z.of_nat (length pname) < 2 ^ 31 - 5 ->
  let record := [EVENT_TYPE_LIST; 5] ++ log_string desc ++ log_int code ++ log_int ms ++
    log_string pname ++ log_int pct ++ [10] in
  binder_call_record desc code ms pname pct =
  if Z.of_nat (length record) <=? LOGGER_ENTRY_MAX_PAYLOAD then Some record else None.
Proof.
  intros Hd Hp record. unfold binder_call_record. cbv zeta.
  set (last := LOGGER_ENTRY_MAX_PAYLOAD - 1). set (f := fun buf => Some (buf ++ [10])).
  rewrite push_string_run by done.
  rewrite (push_both last _ _ _ f (log_int code ++ log_int ms ++ log_string pname ++ log_int pct)).
  - unfold f. rewrite !length_app. unfold record. rewrite !length_app, <- !app_assoc. cbn [length].
    destruct (Z.ltb_spec last (Z.of_nat (2 + (length (log_string desc) + (length (log_int code) +
      (length (log_int ms) + (length (log_string pname) + length (log_int pct))))))));
      destruct (Z.leb_spec (Z.of_nat (2 + (length (log_string desc) + (length (log_int code) +
        (length (log_int ms) + (length (log_string pname) + (length (log_int pct) + 1)))))))
        LOGGER_ENTRY_MAX_PAYLOAD); unfold last in *; done || lia.
  - intros b1. rewrite push_int_run. apply push_both. intros b2. rewrite push_int_run. apply push_both.
    intros b3. rewrite push_string_run by done. apply push_both. intros b4. rewrite push_int_run.
    by destruct (last <? _).
Qed.

End Properties.

(** ** An instance *)

(** Java code that does nothing, and a log nobody reads. *)
#[local] Instance quiet_java `{PL : ParcelLib} `{RB : RefBase} : JavaSide := {|
  jcall _ := ret 1;
  force_gc := ret tt;
  class_getName _ := ret true;
  new_BinderProxy :=
    do! s := gets id in
    modify (with_proxy (j_next s) (j_next s + 1) (j_next s + 2)) ;;; ret (Some (j_next s));
  is_Error _ := false;
  new_string _ := true;
  ib_pingBinder _ := ret 0;
  ib_getInterfaceDescriptor _ := ret [];
  ib_transact _ _ _ _ _ := ret 0;
  bb_onTransact _ _ _ _ _ := ret 0;
  blockUntilThreadAvailable := ret tt;
  joinThreadPool_native := ret tt;
  ps_getContextObject := ret 0;
  ps_setThreadPoolMaxThreadCount _ := ret tt
|}.

#[local] Instance quiet_logger `{PL : ParcelLib} `{RB : RefBase} : Sampling := {|
  EVENT_TYPE_INT := 0;
  EVENT_TYPE_STRING := 2;
  EVENT_TYPE_LIST := 3;
  LOGGER_ENTRY_MAX_PAYLOAD := 4076;
  uptimeMillis _ := 0;
  random _ := 0;
  on_main_thread _ := true;
  process_name _ := [];
  utf8_of l := l;
  bWriteLog _ _ := ret tt
|}.

Lemma quiet_java_laws `{PL : ParcelLib} `{RB : RefBase} `{NB : !NativeBinder} `{NL : !NativeLaws} St :
  JavaLaws St.
Proof.
  assert (forall A (a : A), calls_out St (ret a)) as Hret.
  { intros A a pins s I. walk. split; [done|by eapply (inv_evolves (St := St))]. }
  split; try (intros; apply Hret).
  - intros b c d r f pins s I Hd. walk. split; [done|]. split; [by eapply (inv_evolves (St := St))|done].
  - intros pins s I. walk. split; [by eapply (inv_evolves (St := St))|by left].
  - intros s. walk. split; [by destruct s|by left..].
  - intros o s. walk. split; [by destruct s|by left..].
  - intros s. walk. exists s, (j_next s + 1), (j_next s + 2). split; [split; [by destruct s|by left..]|].
    split; [done|]. unfold id. lia.
Qed.

#[local] Existing Instance counted.
Definition sample_statics : statics := Statics 7 8 9 1599295570.
Definition sample_system : system := System 3 None.

#[local] Instance sample_binders : NativeBinder :=
  proxy_binders sample_env sample_system 4 (fun _ => true) (fun _ _ => false).
Lemma sample_laws : NativeLaws.
Proof. apply proxy_laws; done. Defined.
#[local] Existing Instance sample_laws.
#[local] Instance sample_java_laws : JavaLaws sample_statics.
Proof. apply quiet_java_laws. Qed.

Notation sample_run := (run sample_env linux_jni_errors sample_statics sample_system 4).
Notation sample_reachable := (reachable sample_env linux_jni_errors sample_statics sample_system 4).

Lemma sample_clean : clean sample_world 1000.
Proof.
  split; [by split; [|split; eexists]|]. split; [done|]. intros b Hb.
  apply bool_decide_eq_true in Hb as [p Hp]. change (w_proxies sample_world) with
    ({[500 := sample_proxy]} : gmap Z bp_binder) in Hp. by apply lookup_singleton_Some in Hp as [<- <-].
Qed.

(** The state a call leaves. *)
Definition after (c : native_call) (s : jni_state) : jni_state :=
  match sample_run c s with Value _ s' => s' | _ => s end.

(** The proxy below arrives, gets a Java proxy, 1000; Java makes a recipient,
    1004, and links it. *)
Definition sample_0 : jni_state := boot sample_world {[600 := parcel_new]} 1000.
Definition sample_1 : jni_state := set_j_refs (rb_incStrong 500 (j_refs sample_0)) sample_0.
Definition sample_2 : jni_state := after (CjavaObjectForIBinder 500) sample_1.
Definition sample_3 : jni_state := with_object (JObject 1) 1005 sample_2.
Definition sample_4 : jni_state := after (CProxy_linkToDeath 1000 (Some 1004) 0) sample_3.
(** A Java binder, 1007, with a holder; its [JavaBBinder], 1010, goes to C++; a
    parcel. *)
Definition sample_5 : jni_state := with_object (JBinder 0) 1008 sample_4.
Definition sample_6 : jni_state := after (CBinder_init 1007) sample_5.
Definition sample_7 : jni_state :=
  match ibinderForJavaObject (Some 1007) sample_6 with Value _ s' => s' | _ => sample_6 end.
Definition sample_8 : jni_state := with_object (JParcel 600) 1012 sample_7.
(** The Java proxy dies. *)
Definition sample_9 : jni_state :=
  set_j_heap (<[1001 := JWeakReference None]> (j_heap sample_8)) sample_8.
Definition sample_10 : jni_state := after (CProxy_destroy 1000) sample_9.

Lemma after_value c s :
  match sample_run c s with Value _ _ => true | _ => false end = true ->
  sample_run c s = Value tt (after c s).
Proof. unfold after. by destruct (sample_run c s) as [[] s'| | |]. Qed.

Lemma take_value s b :
  match ibinderForJavaObject (Some 1007) s with Value x _ => x =? b | _ => false end = true ->
  ibinderForJavaObject (Some 1007) s =
  Value b match ibinderForJavaObject (Some 1007) s with Value _ s' => s' | _ => s end.
Proof. destruct (ibinderForJavaObject (Some 1007) s); [|done..]. by intros ->%Z.eqb_eq. Qed.

(** Evaluates a look-up in a sample state. *)
#[local] Ltac look := by vm_compute.

(** Clearing one weak reference is something the collector does. *)
Lemma clear_weak s r p : j_heap s !! r = Some (JWeakReference p) ->
  gc_effect s (set_j_heap (<[r := JWeakReference None]> (j_heap s)) s).
Proof.
  intros H. split; [by destruct s| |by left]. intros o. destruct (decide (o = r)) as [->|D].
  - right. split; [by exists p|]. simpl. by rewrite lookup_insert_eq.
  - left. simpl. by rewrite lookup_insert_ne.
Qed.

Lemma sample_reaches_3 : sample_reachable sample_world {[600 := parcel_new]} 1000 [500] sample_3.
Proof.
  eapply rtc_r; [eapply rtc_r; [apply rtc_once|]|].
  - apply (step_receive _ _ _ _ _ [] sample_0 500). look.
  - apply (step_call _ _ _ _ _ [500] sample_1 (CjavaObjectForIBinder 500)); [|apply after_value; look].
    right. split; [right; look|by left].
  - apply (step_new _ _ _ _ _ [500] sample_2 (JObject 1) 1005); [done|look].
Qed.

Lemma sample_reaches_4 : sample_reachable sample_world {[600 := parcel_new]} 1000 [500] sample_4.
Proof.
  eapply rtc_r; [exact sample_reaches_3|].
  - apply (step_call _ _ _ _ _ [500] sample_3 (CProxy_linkToDeath 1000 (Some 1004) 0));
      [|apply after_value; look].
    split; [exists 500, 1003, (Some 1001); look|]. intros o [= <-]. eexists. look.
Qed.

Lemma sample_reaches_8 : sample_reachable sample_world {[600 := parcel_new]} 1000 [1010; 500] sample_8.
Proof.
  eapply rtc_r; [eapply rtc_r; [eapply rtc_r; [eapply rtc_r; [exact sample_reaches_4|]|]|]|].
  - apply (step_new _ _ _ _ _ [500] sample_4 (JBinder 0) 1008); [done|look].
  - apply (step_call _ _ _ _ _ [500] sample_5 (CBinder_init 1007)); [|apply after_value; look]. exists 0. look.
  - apply (step_take _ _ _ _ _ [500] sample_6 (Some 1007) 1010 sample_7); [|apply take_value; look].
    intros o [= <-]. eexists. look.
  - apply (step_new _ _ _ _ _ [1010; 500] sample_7 (JParcel 600) 1012); [|look]. right. eexists. look.
Qed.

Lemma sample_reaches_10 : sample_reachable sample_world {[600 := parcel_new]} 1000 [1010; 500] sample_10.
Proof.
  eapply rtc_r; [eapply rtc_r; [exact sample_reaches_8|]|].
  - apply (step_gc _ _ _ _ _ [1010; 500] sample_8 sample_9). apply (clear_weak sample_8 1001 (Some 1000)). look.
  - apply (step_call _ _ _ _ _ [1010; 500] sample_9 (CProxy_destroy 1000)); [|apply after_value; look].
    split; [exists 500, 1003, (Some 1001); look|]. intros r H.
    assert (j_heap sample_9 = list_to_map [(1007, JBinder 1008); (1011, JParcel 600);
      (1001, JWeakReference None); (1004, JObject 1); (1000, JBinderProxy 500 1003 (Some 1001))]) as Hh
      by look.
    rewrite Hh in H. apply elem_of_list_to_map_2 in H. rewrite !elem_of_cons in H.
    repeat (destruct H as [H|H]; [discriminate H|]). by apply not_elem_of_nil in H.
Qed.

Notation sample_link := (android_os_BinderProxy_linkToDeath sample_env linux_jni_errors).
Notation sample_unlink := (android_os_BinderProxy_unlinkToDeath sample_env).

(** The proxy, its list and the one recipient in the list. *)
Lemma sample_8_proxy : j_heap sample_8 !! 1000 = Some (JBinderProxy 500 1003 (Some 1001)).
Proof. look. Qed.
Lemma sample_8_list : j_native sample_8 !! 1003 = Some (DeathRecipientList [1006]).
Proof. look. Qed.
Lemma sample_8_object : null_or (is_object sample_8) (Some 1004).
Proof. intros o [= <-]. eexists. look. Qed.

(** What [runs] says, of a call that returns. *)
Definition returns {A} (m : JM A) (s : jni_state) (Q : A -> jni_state -> Prop) : Prop :=
  exists a s', m s = Value a s' /\ Q a s'.
Definition is_value {A} (r : outcome jni_state A) : bool := match r with Value _ _ => true | _ => false end.

Lemma runs_returns {A} (m : JM A) (s : jni_state) (Q : A -> jni_state -> Prop) :
  runs m s Q -> is_value (m s) = true -> returns m s Q.
Proof. unfold runs, returns. destruct (m s) as [a s'| | |]; [eauto|done..]. Qed.

(** Java calls the proxy with the parcel; then the proxy is finalized, and linked to. *)
Lemma native_methods_type_safe_witness : (exists s',
  sample_run (CProxy_transact 1000 3 (Some 1011) None 0) sample_8 = Value tt s' /\
  JniInv.inv sample_statics [1010; 500] s') /\
  sample_run (CProxy_linkToDeath 1000 (Some 1004) 0) sample_10 = Crash 0.
Proof.
  split.
  - exists (after (CProxy_transact 1000 3 (Some 1011) None 0) sample_8).
    assert (sample_run (CProxy_transact 1000 3 (Some 1011) None 0) sample_8 =
      Value tt (after (CProxy_transact 1000 3 (Some 1011) None 0) sample_8)) as Hrun
      by (apply after_value; look).
    split; [exact Hrun|].
    assert (typed [1010; 500] sample_8 (CProxy_transact 1000 3 (Some 1011) None 0)) as T.
    { split; [exists 500, 1003, (Some 1001); apply sample_8_proxy|]. split; [|by intros o].
      intros o [= <-]. exists 600. look. }
    pose proof (native_methods_type_safe sample_env linux_jni_errors sample_statics sample_system 4
      _ _ _ _ _ _ sample_clean sample_reaches_8 T) as H.
    destruct H as [H _]. rewrite Hrun in H. apply H. exact (fun F => F).
  - assert (j_heap sample_10 !! 1000 = Some (JBinderProxy 0 0 (Some 1001))) as Hp by look.
    assert (typed [1010; 500] sample_10 (CProxy_linkToDeath 1000 (Some 1004) 0)) as T.
    { split; [by exists 0, 0, (Some 1001)|]. intros o [= <-]. eexists. look. }
    destruct (native_methods_type_safe sample_env linux_jni_errors sample_statics sample_system 4
      _ _ _ _ _ _ sample_clean sample_reaches_10 T) as [_ H].
    apply H. by exists 0, (Some 1001).
Defined.

(** One local binder and one recipient. *)
Lemma debug_counts_objects_witness :
  android_os_Debug_getLocalObjectCount sample_8 = Value 1 sample_8 /\
  android_os_Debug_getDeathObjectCount sample_8 = Value 1 sample_8.
Proof.
  destruct (debug_counts_objects sample_env linux_jni_errors sample_statics sample_system 4
    _ _ _ _ _ sample_clean sample_reaches_8) as (H1 & H2 & _).
  assert (i32 (count_map is_JavaBBinder (j_native sample_8)) = 1) as E1 by look.
  assert (i32 (count_map is_Recipient (j_native sample_8)) = 1) as E2 by look.
  rewrite E1 in H1. rewrite E2 in H2. split; [exact H1|exact H2].
Defined.

(** Both ways. *)
Lemma binder_java_roundtrip_witness :
  returns (do! b := ibinderForJavaObject (Some 1007) in javaObjectForIBinder sample_statics b) sample_8
    (fun r _ => r = Some 1007) /\
  returns (do! r := javaObjectForIBinder sample_statics 500 in
        do! b' := ibinderForJavaObject r in ret (r, b')) sample_8
    (fun x _ => x.2 = if x.1 then 500 else 0).
Proof.
  destruct (binder_java_roundtrip sample_env linux_jni_errors sample_statics sample_system 4
    _ _ _ _ _ sample_clean sample_reaches_8) as [H1 H2].
  split; apply runs_returns; [apply (H1 1007 1008); [look|done]|look| |look].
  apply (H2 500); [look|by right; left].
Defined.

(** The proxy 500 keeps its Java object. *)
Lemma javaObjectForIBinder_correct_witness :
  javaObjectForIBinder sample_statics 500 sample_8 = Value (Some 1000) sample_8.
Proof.
  destruct (javaObjectForIBinder_correct sample_env linux_jni_errors sample_statics sample_system 4
    _ _ _ _ _ 500 sample_clean sample_reaches_8) as [H _]; [look|by right; left|].
  apply H. exists 1002, 1001. split; [look|]. split; look.
Defined.

(** The list has its recipient, then it has none: the BpBinder below has given up
    its own. *)
Lemma linkToDeath_correct_witness :
  returns (sample_link 1000 (Some 1004) 3) sample_3 (fun _ s' =>
    false = true /\ s' = sample_3 \/
    false = false /\
    ((exists l jdr, j_native s' !! 1003 = Some (DeathRecipientList (l ++ [jdr])) /\
        j_native sample_3 !! 1003 = Some (DeathRecipientList l) /\ recipient_of s' jdr = Some 1004) \/
     exists err, err <> NO_ERROR /\
       j_pending s' = Some (error_exception sample_env linux_jni_errors err true 0))).
Proof.
  assert (null_or (is_object sample_3) (Some 1004)) as Ho by (intros o [= <-]; eexists; look).
  apply runs_returns; [|look].
  apply (linkToDeath_correct sample_env linux_jni_errors sample_statics sample_system 4
    _ _ _ _ _ 1000 500 1003 (Some 1001) (Some 1004) 3 sample_clean sample_reaches_3); [look|done|exact Ho].
Defined.

Lemma unlinkToDeath_correct_witness :
  returns (sample_unlink 1000 (Some 1004) 0) sample_8 (fun x s' =>
    (x = false /\ j_pending s' = Some NoSuchLink /\
       j_native s' !! 1003 = Some (DeathRecipientList [1006]) /\
       ((forall jdr, jdr ∈ [1006] -> recipient_of sample_8 jdr <> Some 1004) \/
        exists l1 jdr l2 err dr w', [1006] = l1 ++ jdr :: l2 /\
          recipient_of sample_8 jdr = Some 1004 /\
          (forall jdr', jdr' ∈ l1 -> recipient_of sample_8 jdr' <> Some 1004) /\
          nb_unlinkToDeath 500 (Some jdr) 0 0 (j_cpp sample_8) = Value (err, dr) w' /\
          err <> NO_ERROR /\ err <> DEAD_OBJECT linux_errors)) \/
    (x = true /\ exists l1 jdr l2 err dr w', [1006] = l1 ++ jdr :: l2 /\
       recipient_of sample_8 jdr = Some 1004 /\
       (forall jdr', jdr' ∈ l1 -> recipient_of sample_8 jdr' <> Some 1004) /\
       nb_unlinkToDeath 500 (Some jdr) 0 0 (j_cpp sample_8) = Value (err, dr) w' /\
       (err = NO_ERROR /\ j_native s' !! 1003 = Some (DeathRecipientList (l1 ++ l2)) \/
        err = DEAD_OBJECT linux_errors /\ j_native s' !! 1003 = Some (DeathRecipientList [1006])))).
Proof.
  apply runs_returns; [|look].
  apply (unlinkToDeath_correct sample_env linux_jni_errors sample_statics sample_system 4
    _ _ _ _ _ 1000 500 1003 (Some 1001) 1004 0 [1006] sample_clean sample_reaches_8);
    [by split|apply sample_8_proxy|done|done|apply sample_8_list].
Defined.

(** The proxy of [sample_10] was finalized. *)
Lemma linkToDeath_finalized_crashes_witness : sample_link 1000 (Some 1004) 0 sample_10 = Crash 0.
Proof.
  apply (linkToDeath_finalized_crashes sample_env linux_jni_errors sample_statics sample_system 4
    _ _ _ _ _ 1000 0 (Some 1001) 1004 0 sample_clean sample_reaches_10). look.
Defined.

Lemma proxy_transact_correct_witness :
  returns (android_os_BinderProxy_transact sample_env linux_jni_errors 1000 3 (Some 1011) None 0) sample_8
    (fun x s' => exists err s1, ib_transact 500 3 600 None 0 sample_8 = Value err s1 /\
      transact_answer sample_env linux_jni_errors 600 err x s1 s').
Proof.
  apply runs_returns; [|look].
  apply (proxy_transact_correct sample_env linux_jni_errors sample_statics sample_system 4
    _ _ _ _ _ 1000 500 1003 (Some 1001) 3 1011 600 None 0 0 sample_clean sample_reaches_8);
    [apply sample_8_proxy|look|done].
Defined.

Lemma onTransact_correct_witness :
  returns (JavaBBinder_onTransact sample_env linux_jni_errors sample_statics sample_system 4 1010 1 600 600 0)
    sample_8 (fun x s' =>
    (1 <> 1599295570 -> j_pending s' = None) /\
    exists o res s1, j_globals sample_8 !! 1009 = Some o /\
      jcall (ExecTransact o 1 600 600 0) sample_8 = Value res s1 /\
      x = if bool_decide (j_pending s1 = None) && negb (res =? 0) then NO_ERROR
          else UNKNOWN_TRANSACTION linux_jni_errors).
Proof.
  apply runs_returns; [|look].
  apply (onTransact_correct sample_env linux_jni_errors sample_statics sample_system 4
    _ _ _ _ _ 1010 1009 1 600 600 0 sample_clean sample_reaches_8); [by left|look].
Defined.

(** Too much data. *)
Lemma checked_exceptions_declared_witness :
  t_class (error_exception sample_env linux_jni_errors (-2147483646) true 300000) =
    "android/os/TransactionTooLargeException".
Proof.
  destruct (checked_exceptions_declared sample_env linux_jni_errors (-2147483646) true 300000
    eq_refl eq_refl) as (_ & [_ H] & _). apply H. split; [done|lia].
Defined.

(** A record of 35 bytes. *)
Lemma binder_call_record_correct_witness :
  binder_call_record [73] 1 600 [97; 98] 100 =
  Some ([3; 5] ++ log_string [73] ++ log_int 1 ++ log_int 600 ++ log_string [97; 98] ++
    log_int 100 ++ [10]).
Proof.
  assert (Z.of_nat (length [73]) < 2 ^ 31 - 5 /\ Z.of_nat (length [97; 98]) < 2 ^ 31 - 5) as [H1 H2]
    by (simpl; lia).
  exact (binder_call_record_correct [73] 1 600 [97; 98] 100 H1 H2).
Defined.
