(* ===== verification/JniOlder.v ===== *)
(** * JniOlder: the older copy of the Java side

    native/android_util_Binder.cpp is an older copy of jni/android_util_Binder.cpp.
    Here are the functions it has in another form: an [Error] ends the process by
    [exit], a failed transaction is always a large one, a proxy is destroyed without
    a look at whether it was destroyed before, and a recipient that was told is held
    weakly whether its list is there or not.  The theorems say where the copies
    agree and what the older one does instead. *)

From stdpp Require Import strings.
From S2P Require Import Prelude Uapi Parcel CppWorld ProcessState IpcCore BpBinder Proxy RefBase JniWorld JniBinder JniInv JniOps JniMeths JniProxies JniNatives.

#[local] Open Scope Z_scope.

Section Model.
Context `{PL : ParcelLib} `{RB : RefBase} `{U : BinderUapi}.
Context `{NB : !NativeBinder} `{JS : !JavaSide} `{SM : !Sampling}.
Context (E : cpp_env) (JE : jni_errors) (St : statics) (Sys : system) (garbage : Z).

(** The end of the process, by [exit] after a minute if not before. *)
Definition detach_and_exit : JM unit := crash FATAL_ERROR.

Definition older_report_exception (excep : throwable) (msg : string) : JM unit :=
  ExceptionClear ;;;
  (do! s := gets id in
   if negb (new_string s) then ExceptionClear
   else
     (do! _ := jcall (LogE msg excep) in ret tt) ;;;
     (do! e := ExceptionOccurred in
      match e with Some _ => ExceptionClear | None => ret tt end) ;;;
     (if is_Error excep then Throw excep ;;; detach_and_exit else ret tt)).

Definition older_report_pending (msg : string) : JM bool :=
  do! e := ExceptionOccurred in
  match e with
  | Some excep => older_report_exception excep msg ;;; ret true
  | None => ret false
  end.

Definition older_JavaBBinder_onTransact (b code data reply flags : Z) : JM Z :=
  do! g := as_JavaBBinder b in
  do! strict_policy_before := ipc E Sys garbage getStrictModePolicy in
  do! obj := global_object g in
  match obj with
  | None => bad
  | Some obj =>
      do! res := jcall (ExecTransact obj code data reply flags) in
      do! threw := older_report_pending ("*** Uncaught remote exception!  " +:+
        "(Exceptions are not yet supported across processes.)") in
      let res := if threw : bool then 0 else res in
      do! strict_policy := ipc E Sys garbage getStrictModePolicy in
      when (negb (strict_policy =? strict_policy_before))
        (set_dalvik_blockguard_policy strict_policy_before) ;;;
      (do! _ := older_report_pending "*** Uncaught exception in onBinderStrictModePolicyChange" in
       (if code =? SYSPROPS_TRANSACTION St
        then (do! _ := bb_onTransact b code data reply flags in ret tt) else ret tt) ;;;
       ret (if negb (res =? 0) then NO_ERROR else UNKNOWN_TRANSACTION JE))
  end.

(** [binderDied]. *)
Definition older_binderDied (r : Z) : JM unit :=
  do! '(mObject, mObjectWeak, _) := as_Recipient r in
  if mObject =? 0 then ret tt
  else
    do! o := global_object mObject in
    (do! _ := jcall (SendDeathNotice o) in ret tt) ;;;
    (do! _ := older_report_pending "*** Uncaught exception returned from death notification!" in
     do! '(mObject, _, mList) := as_Recipient r in
     do! o := global_object mObject in
     do! gw := NewWeakGlobalRef o in
     put_native r (JavaDeathRecipient mObject gw mList) ;;;
     DeleteGlobalRef mObject ;;;
     put_native r (JavaDeathRecipient 0 gw mList)).

(** The switch of [signalExceptionForError]. *)
Definition older_error_exception (err : Z) (canThrowRemoteException : bool) : throwable :=
  let RuntimeException m := Throwable "java/lang/RuntimeException" (Some m) in
  if err =? UNKNOWN_ERROR (k_errors E) then RuntimeException "Unknown error"
  else if err =? NO_MEMORY (k_errors E) then Throwable "java/lang/OutOfMemoryError" None
  else if err =? INVALID_OPERATION (k_errors E) then
    Throwable "java/lang/UnsupportedOperationException" None
  else if err =? BAD_VALUE JE then Throwable "java/lang/IllegalArgumentException" None
  else if err =? BAD_INDEX JE then Throwable "java/lang/IndexOutOfBoundsException" None
  else if err =? BAD_TYPE JE then Throwable "java/lang/IllegalArgumentException" None
  else if err =? NAME_NOT_FOUND (k_errors E) then
    Throwable "java/util/NoSuchElementException" None
  else if err =? PERMISSION_DENIED JE then Throwable "java/lang/SecurityException" None
  else if err =? NOT_ENOUGH_DATA (k_errors E) then
    Throwable "android/os/ParcelFormatException" (Some "Not enough data")
  else if err =? NO_INIT JE then RuntimeException "Not initialized"
  else if err =? ALREADY_EXISTS JE then RuntimeException "Item already exists"
  else if err =? DEAD_OBJECT (k_errors E) then
    Throwable (if canThrowRemoteException then "android/os/DeadObjectException"
               else "java/lang/RuntimeException") None
  else if err =? UNKNOWN_TRANSACTION JE then RuntimeException "Unknown transaction code"
  else if err =? FAILED_TRANSACTION (k_errors E) then
    Throwable (if canThrowRemoteException then "android/os/TransactionTooLargeException"
               else "java/lang/RuntimeException") None
  else if err =? FDS_NOT_ALLOWED JE then
    RuntimeException "Not allowed to write file descriptors here"
  else if err =? - EBADF then RuntimeException "Bad file descriptor"
  else if err =? - ENFILE then RuntimeException "File table overflow"
  else if err =? - EMFILE then RuntimeException "Too many open files"
  else if err =? - EFBIG then RuntimeException "File too large"
  else if err =? - ENOSPC then RuntimeException "No space left on device"
  else if err =? - ESPIPE then RuntimeException "Illegal seek"
  else if err =? - EROFS then RuntimeException "Read-only file system"
  else if err =? - EMLINK then RuntimeException "Too many links"
  else
    Throwable (if canThrowRemoteException then "android/os/RemoteException"
               else "java/lang/RuntimeException")
      (Some ("Unknown binder error code. 0x" +:+ hex32 err)).

Definition older_signalExceptionForError (err : Z) (canThrowRemoteException : bool) : JM unit :=
  Throw (older_error_exception err canThrowRemoteException).

(** The log of calls is compiled out. *)
Definition older_BinderProxy_transact (obj code : Z) (dataObj replyObj : option Z) (flags : Z) : JM bool :=
  match dataObj with
  | None => jniThrowNullPointerException ;;; ret false
  | Some _ =>
      do! data := parcelForJavaObject dataObj in
      if data =? 0 then ret false
      else
        do! reply := parcelForJavaObject replyObj in
        if (reply =? 0) && negb (bool_decide (replyObj = None)) then ret false
        else
          do! target := BinderProxy_mObject obj in
          if target =? 0 then
            jniThrowException "java/lang/IllegalStateException"
              (Some "Binder has been finalized!") ;;;
            ret false
          else
            deref_IBinder target ;;;
            (do! err := ib_transact target code data (if reply =? 0 then None else Some reply)
                          flags in
             if err =? NO_ERROR then ret true
             else if err =? UNKNOWN_TRANSACTION JE then ret false
             else older_signalExceptionForError err true ;;; ret false)
  end.

Definition older_BinderProxy_linkToDeath (obj : Z) (recipient : option Z) (flags : Z) : JM unit :=
  match recipient with
  | None => jniThrowNullPointerException
  | Some recipient =>
      do! target := BinderProxy_mObject obj in
      deref_IBinder target ;;;
      (if nb_local target then ret tt
       else
         do! list := BinderProxy_mOrgue obj in
         do! _ := as_List list in
         incStrong list ;;;
         (do! jdr := JavaDeathRecipient_new recipient list in
          incStrong jdr ;;;
          decStrong List_destroy list ;;;
          (do! err := lift (nb_linkToDeath target (Some jdr) 0 flags) in
           (if negb (err =? NO_ERROR) then
              clearReference jdr ;;; older_signalExceptionForError err true
            else ret tt) ;;;
           decStrong JavaDeathRecipient_destroy jdr)))
  end.

(** [destroy]. *)
Definition older_BinderProxy_destroy (obj : Z) : JM unit :=
  do! b := BinderProxy_mObject obj in
  do! drl := BinderProxy_mOrgue obj in
  set_BinderProxy_mObject obj 0 ;;;
  set_BinderProxy_mOrgue obj 0 ;;;
  decStrong List_destroy drl ;;;
  IBinder_decStrong St b ;;;
  ipc E Sys garbage (flushCommands E).

End Model.

(** ** The copies compared *)

Section Compare.
Context `{PL : ParcelLib} `{RB : RefBase} `{U : BinderUapi}.
Context `{NB : !NativeBinder} `{NL : !NativeLaws}.
Context (E : cpp_env) (JE : jni_errors) (St : statics) (Sys : system) (garbage : Z).
Context `{JS : !JavaSide} `{SM : !Sampling} `{JL : !JavaLaws St}.

Implicit Types (s : jni_state) (pins : list Z).

#[local] Notation inv := (inv St).

(** The two switches throw the same, but for a failed transaction and for a status
    the older one does not know. *)
Lemma older_exception_same err can size :
  err <> FAILED_TRANSACTION (k_errors E) -> err <> UNEXPECTED_NULL JE ->
  older_error_exception E JE err can = error_exception E JE err can size.
Proof.
  intros Hf Hn. unfold older_error_exception, error_exception.
  rewrite (proj2 (Z.eqb_neq _ _) Hf), (proj2 (Z.eqb_neq _ _) Hn). done.
Qed.

(** An exception that is not an [Error] is reported in the same way. *)
Lemma older_report_same excep msg s : is_Error excep = false ->
  older_report_exception excep msg s = report_exception excep msg s.
Proof. intros He. unfold older_report_exception, report_exception. by rewrite He. Qed.

(** A proxy that has its binder is destroyed in the same way.  One that has been
    destroyed, or that was never made whole, is left alone by the newer copy; the
    older one follows the NULL pointer. *)
Theorem older_destroy_correct pins s p b d w :
  inv pins s -> j_heap s !! p = Some (JBinderProxy b d w) -> (b = 0 -> d = 0) ->
  older_BinderProxy_destroy E St Sys garbage p s =
  if b =? 0 then Crash 0 else android_os_BinderProxy_destroy E St Sys garbage p s.
Proof.
  intros [own W] Hp Hd. unfold older_BinderProxy_destroy, android_os_BinderProxy_destroy, bind at 1.
  rewrite (BinderProxy_mObject_run _ _ _ _ _ Hp). unfold bind at 1.
  rewrite (BinderProxy_mOrgue_run _ _ _ _ _ Hp).
  destruct (Z.eqb_spec b 0) as [->|Db].
  - rewrite (Hd eq_refl) in *. assert (strong (j_refs s) 0 <= 0) as H0.
    { destruct (Z.le_gt_cases (strong (j_refs s) 0) 0) as [|Hgt]; [done|]. exfalso.
      destruct (wf_alive _ _ _ _ W 0 ltac:(lia)) as [[x Hx]|Hx].
      - destruct (wf_native_range _ _ _ _ W 0 x Hx). lia.
      - pose proof (wf_nb_range _ _ _ _ W 0 Hx). lia. }
    unfold bind at 1. erewrite set_BinderProxy_mObject_run by exact Hp.
    unfold bind at 1. erewrite set_BinderProxy_mOrgue_run by (simpl; apply lookup_insert_eq).
    unfold bind at 1, decStrong at 1, bind, gets, id. simpl.
    by rewrite (proj2 (Z.ltb_lt _ _)) by lia.
  - unfold bind at 1. symmetry. unfold bind at 1. rewrite (BinderProxy_mObject_run _ _ _ _ _ Hp).
    unfold bind at 1. rewrite (BinderProxy_mOrgue_run _ _ _ _ _ Hp).
    rewrite (proj2 (Z.eqb_neq b 0)) by done. cbn [negb]. unfold bind.
    destruct (set_BinderProxy_mObject p 0 s) as [[] s1| | |]; [|done..].
    destruct (set_BinderProxy_mOrgue p 0 s1) as [[] s2| | |]; [|done..].
    destruct (decStrong List_destroy d s2) as [[] s3| | |]; [|done..].
    by destruct (IBinder_decStrong St b s3).
Qed.

Lemma set_pending_twice t t' s : set_j_pending t (set_j_pending t' s) = set_j_pending t s.
Proof. done. Qed.

(** A call that returns in the newer copy returns the same in the older one, and
    leaves the same state but for the exception: that is another one only after a
    failed transaction, which is always taken for a large one, and after a status
    the older copy does not know. *)
Theorem older_transact_correct p code dataObj replyObj flags s x s' :
  android_os_BinderProxy_transact E JE p code dataObj replyObj flags s = Value x s' ->
  exists s'', older_BinderProxy_transact E JE p code dataObj replyObj flags s = Value x s'' /\
    (s'' = s' \/ exists err, (err = FAILED_TRANSACTION (k_errors E) \/ err = UNEXPECTED_NULL JE) /\
       s'' = set_j_pending (Some (older_error_exception E JE err true)) s').
Proof.
  unfold android_os_BinderProxy_transact, older_BinderProxy_transact. unfold bind, ret, gets, id.
  destruct dataObj as [od|]; [|intros H; exists s'; split; [exact H|by left]].
  destruct (parcelForJavaObject (Some od) s) as [data s1| | |]; [|done..].
  destruct (data =? 0); [intros H; exists s'; split; [exact H|by left]|].
  destruct (parcelForJavaObject replyObj s1) as [reply s2| | |]; [|done..].
  destruct (_ && _); [intros H; exists s'; split; [exact H|by left]|].
  destruct (BinderProxy_mObject p s2) as [b s3| | |]; [|done..].
  destruct (b =? 0); [intros H; exists s'; split; [exact H|by left]|].
  destruct (deref_IBinder b s3) as [[] s4| | |]; [|done..]. cbn [kEnableBinderSample andb when].
  unfold ret.
  destruct (ib_transact b code data _ flags s4) as [err s5| | |]; [|done..].
  destruct (err =? NO_ERROR); [intros H; exists s'; split; [exact H|by left]|].
  destruct (err =? UNKNOWN_TRANSACTION JE); [intros H; exists s'; split; [exact H|by left]|].
  unfold parcel_at, lookup_or_crash, bind, gets, id. destruct (j_parcels s5 !! data) as [q|]; [|done].
  unfold signalExceptionForError, older_signalExceptionForError, Throw, modify. intros [= <- <-].
  eexists. split; [reflexivity|].
  destruct (Z.eq_dec err (FAILED_TRANSACTION (k_errors E))) as [Hf|Hf];
    [right; exists err; split; [by left|by rewrite set_pending_twice]|].
  destruct (Z.eq_dec err (UNEXPECTED_NULL JE)) as [Hn|Hn];
    [right; exists err; split; [by right|by rewrite set_pending_twice]|].
  left. by rewrite (older_exception_same err true (i32 (dataSize q))).
Qed.

(** ** Safety of the older recipient *)

Lemma older_report_exception_spec pins s e msg : inv pins s ->
  runs (older_report_exception e msg) s (fun _ s' => inv pins s' /\ evolves s s' /\ j_pending s' = None).
Proof.
  intros I. unfold older_report_exception, detach_and_exit. walk.
  destruct (inv_pending pins s None I) as [I1 E1].
  destruct (new_string _); walk; [|by destruct (inv_pending pins _ None I1); eauto].
  call jcall_law. intros _ s2 [I2 E2]. walk.
  destruct (inv_pending pins s2 None I2).
  assert (forall s3, inv pins s3 -> evolves s s3 -> j_pending s3 = None ->
    runs (if is_Error e then Throw e ;;; crash FATAL_ERROR else ret tt) s3
      (fun _ s' => inv pins s' /\ evolves s s' /\ j_pending s' = None)) as Hend.
  { intros s3 I4 E4 P4. destruct (is_Error e); [|done]. walk. done. }
  destruct (j_pending s2) eqn:P2; walk; apply Hend; eauto.
Qed.

Lemma older_report_pending_spec pins s msg : inv pins s ->
  runs (older_report_pending msg) s (fun x s' => inv pins s' /\ evolves s s' /\ j_pending s' = None).
Proof.
  intros I. unfold older_report_pending. walk. destruct (j_pending s) eqn:P; walk.
  - call older_report_exception_spec. intros _ s' (I1 & E1 & P1). walk. done.
  - split; [done|]. split; [|done]. apply evolves_refl. destruct I as [own W]. by eapply wf_apart.
Qed.

(** A recipient that is told, by the older copy too, leaves native and Java objects
    in agreement. *)
Lemma older_binderDied_spec pins s r g gw d : inv pins s -> r ∈ pins ->
  j_native s !! r = Some (JavaDeathRecipient g gw d) ->
  runs (older_binderDied r) s (fun _ s' => inv pins s' /\ evolves s s').
Proof.
  intros I Hp Hr. unfold older_binderDied. walk. reads as_Recipient_run.
  destruct (Z.eqb_spec g 0) as [->|D]; [walk; eauto|].
  assert (exists o, j_globals s !! g = Some o) as [o Ho].
  { destruct I as [own W]. destruct (wf_native _ _ _ _ W r _ Hr) as [_ Hk].
    rewrite decide_False in Hk by done. destruct Hk as (_ & o & Hgl & _). eauto. }
  walk. reads global_object_run. call jcall_law.
  intros _ s1 [I1 E1]. walk. eapply runs_mono; [by apply older_report_pending_spec|].
  intros _ s2 (I2 & E2 & _). walk. assert (evolves s s2) as E02 by eauto.
  pose proof (inv_native_pos _ _ _ _ I Hr) as Hz.
  destruct (pinned_kind _ s s2 r _ I2 E02 Hr Hz Hp) as (y & Hr2 & Hk).
  destruct y as [| | |g2 gw2 d2]; simpl in Hk; try done. subst d2. reads as_Recipient_run.
  pose proof (demote_spec St pins s2 r g2 gw2 d (fun _ s' => inv pins s' /\ evolves s s') I2 Hr2) as H.
  cbv beta in H. specialize (H ltac:(intros s' I' E'; split; [done|]; eapply ev_step; [exact I|exact E02|exact E'])).
  revert H. unfold runs, bind. by destruct (global_object g2 s2).
Qed.

End Compare.
