(* ===== verification/JniParcel.v ===== *)
(** * JniParcel: android.os.Parcel

    Models jni/android_os_Parcel.cpp: the native methods of [android.os.Parcel]
    over the C++ parcels of [JniWorld].  The methods of the class [Parcel] are
    parameters ([ParcelMethods]), with what they may do to the references a
    parcel keeps to binders.  A Java array or string is its contents, [None] for
    NULL: the methods only read those they get and fill those they make.

    The process's file descriptors and the [java.io.FileDescriptor] objects, the
    strings and arrays that are pinned by a critical section, are added to the
    state of [JniWorld]. *)

From S2P Require Import Prelude Uapi Parcel CppWorld ProcessState IpcCore BpBinder Proxy RefBase JniWorld JniBinder.

#[local] Open Scope Z_scope.

(** ** The state *)

Section State.
Context `{PL : ParcelLib} `{RB : RefBase}.

(** [pw_fdobjs] has the [int] of each [java.io.FileDescriptor]; [pw_critical]
    counts the critical sections that are open. *)
Record parcel_world := ParcelWorld {
  pw_jni : jni_state;
  pw_fds : gset Z;
  pw_fdobjs : gmap Z Z;
  pw_critical : Z
}.

Definition set_pw_jni (v : jni_state) (s : parcel_world) : parcel_world :=
  ParcelWorld v (pw_fds s) (pw_fdobjs s) (pw_critical s).
Definition set_pw_fds (v : gset Z) (s : parcel_world) : parcel_world :=
  ParcelWorld (pw_jni s) v (pw_fdobjs s) (pw_critical s).
Definition set_pw_fdobjs (v : gmap Z Z) (s : parcel_world) : parcel_world :=
  ParcelWorld (pw_jni s) (pw_fds s) v (pw_critical s).
Definition set_pw_critical (v : Z) (s : parcel_world) : parcel_world :=
  ParcelWorld (pw_jni s) (pw_fds s) (pw_fdobjs s) v.

Definition PM (A : Type) : Type := prog parcel_world A.

(** A step of the layer below. *)
Definition jni {A} (m : JM A) : PM A := fun s =>
  match m (pw_jni s) with
  | Value a j => Value a (set_pw_jni j s)
  | Blocked j => Blocked (set_pw_jni j s)
  | Crash l => Crash l
  | NoFuel => NoFuel
  end.

End State.

(** ** What the file calls *)

(** The class [Parcel], at an object: a status first, where the method returns
    one.  Numbers are bit patterns. *)
Class ParcelMethods `{PL : ParcelLib} `{RB : RefBase} := {
  pm_setDataSize : Z -> parcel -> Z * parcel;
  pm_setDataCapacity : Z -> parcel -> Z * parcel;
  pm_writeInt32 : Z -> parcel -> Z * parcel;
  pm_writeInt64 : Z -> parcel -> Z * parcel;
  pm_writeFloat : Z -> parcel -> Z * parcel;
  pm_writeDouble : Z -> parcel -> Z * parcel;
  pm_writeString16 : option (list Z) -> parcel -> Z * parcel;
  pm_writeInterfaceToken : list Z -> parcel -> parcel;
  (** Room for that many bytes, as an offset in the data; [None] is NULL. *)
  pm_writeInplace : Z -> parcel -> option Z * parcel;
  (** Bytes put at an offset of the data. *)
  pm_poke : Z -> list Z -> parcel -> parcel;
  pm_readInt64 : parcel -> Z * parcel;
  pm_readFloat : parcel -> Z * parcel;
  pm_readDouble : parcel -> Z * parcel;
  pm_readString16Inplace : parcel -> option (list Z) * parcel;
  (** The bytes at the pointer that is returned. *)
  pm_readInplace : Z -> parcel -> option (list Z) * parcel;
  pm_readFileDescriptor : parcel -> Z * parcel;
  (** A blob is in the parcel or in shared memory. *)
  writable_blob : Type;
  pm_writeBlob : Z -> bool -> parcel -> Z * option writable_blob * parcel;
  pm_fill_blob : writable_blob -> list Z -> parcel -> parcel;
  pm_readBlob : Z -> parcel -> Z * list Z * parcel;
  pm_pushAllowFds : bool -> parcel -> bool * parcel;
  pm_restoreAllowFds : bool -> parcel -> parcel;
  pm_hasFileDescriptors : parcel -> bool;
  pm_objectsCount : parcel -> Z;
  pm_compareData : parcel -> parcel -> Z;
  pm_getOpenAshmemSize : parcel -> Z;
  pm_getBlobAshmemSize : parcel -> Z;
  pm_getGlobalAllocSize : jni_state -> Z;
  pm_getGlobalAllocCount : jni_state -> Z;

  (** The parcel is given by its address: these change more than its bytes. *)
  pm_writeStrongBinder : Z -> Z -> JM Z;
  (** A strong pointer, 0 is NULL. *)
  pm_readStrongBinder : Z -> JM Z;
  pm_writeDupFileDescriptor : Z -> Z -> PM Z;
  pm_appendFrom : Z -> Z -> Z -> Z -> PM Z;
  (** [enforceInterface] sets the strict mode policy of the thread. *)
  pm_enforceInterface : Z -> list Z -> JM bool;
  pm_freeData : Z -> PM unit;
  (** The destructor, before the memory goes. *)
  pm_release : Z -> PM unit
}.

(** The virtual machine and the system. *)
Class ParcelJava `{PL : ParcelLib} `{RB : RefBase} := {
  (** Does an array or a string of that length find memory? *)
  new_array : Z -> parcel_world -> bool;
  (** Does the virtual machine give a pointer to the elements? *)
  get_critical : parcel_world -> bool;
  (** The bytes of [ScopedUtfChars], [None] with an exception. *)
  utf_chars : list Z -> parcel_world -> option (list Z);
  (** [jniCreateFileDescriptor]: the new object, if there is memory. *)
  new_FileDescriptor : parcel_world -> option Z;
  Parcel_obtain : JM (option Z);
  Parcel_recycle : Z -> JM unit;
  (** A descriptor, or minus [errno]. *)
  os_open : list Z -> Z -> Z -> parcel_world -> Z;
  os_dup : Z -> parcel_world -> Z;
  strerror : Z -> string
}.

Section Model.
Context `{PL : ParcelLib} `{RB : RefBase} `{U : BinderUapi}.
Context `{NB : !NativeBinder} `{JS : !JavaSide} `{SM : !Sampling}.
Context `{PMs : !ParcelMethods} `{PJ : !ParcelJava}.
Context (E : cpp_env) (JE : jni_errors) (St : statics) (Sys : system) (garbage : Z).

(** *** Parcels *)

(** [reinterpret_cast<Parcel*>(nativePtr)], and a method called on it. *)
Definition parcel_of (nativePtr : Z) : PM parcel := jni (parcel_at nativePtr).
Definition put_parcel (nativePtr : Z) (p : parcel) : PM unit :=
  jni (modify (fun j => set_j_parcels (<[nativePtr := p]> (j_parcels j)) j)).

Definition ask {A} (nativePtr : Z) (f : parcel -> A) : PM A :=
  do! p := parcel_of nativePtr in ret (f p).
Definition update (nativePtr : Z) (f : parcel -> parcel) : PM unit :=
  do! p := parcel_of nativePtr in put_parcel nativePtr (f p).
Definition on {A} (nativePtr : Z) (f : parcel -> A * parcel) : PM A :=
  do! p := parcel_of nativePtr in
  let '(a, p) := f p in put_parcel nativePtr p ;;; ret a.

Definition throw (cls : string) (msg : option string) : PM unit := jni (jniThrowException cls msg).

(** [signalExceptionForError] with its default arguments. *)
Definition signal (err : Z) : PM unit := jni (signalExceptionForError E JE err false 0).

Definition signal_if (err : Z) : PM unit :=
  if negb (err =? NO_ERROR) then signal err else ret tt.

(** *** Arrays and strings *)

(** [NewByteArray]: the zeros it starts with. *)
Definition NewByteArray (n : Z) : PM (option (list Z)) :=
  do! s := gets id in
  if n <? 0 then crash FATAL_ERROR
  else if new_array n s then ret (Some (replicate (Z.to_nat n) 0))
  else throw "java/lang/OutOfMemoryError" None ;;; ret None.

Definition NewString (str : list Z) : PM (option (list Z)) :=
  do! s := gets id in
  if new_array (Z.of_nat (length str)) s then ret (Some str)
  else throw "java/lang/OutOfMemoryError" None ;;; ret None.

(** [GetPrimitiveArrayCritical] and [GetStringCritical]: is there a pointer?  A
    NULL object ends the process. *)
Definition GetCritical {A} (obj : option A) : PM (option A) :=
  do! s := gets id in
  match obj with
  | None => crash FATAL_ERROR
  | Some a =>
      if get_critical s then
        modify (set_pw_critical (pw_critical s + 1)) ;;; ret (Some a)
      else ret None
  end.

Definition ReleaseCritical : PM unit :=
  do! s := gets id in modify (set_pw_critical (pw_critical s - 1)).

(** The [n] bytes [memcpy] reads at [ar + offset]; a negative [n] is a huge
    [size_t], and bytes outside are not there. *)
Definition memcpy_from (ar : list Z) (offset n : Z) : PM (list Z) :=
  if (n =? 0) || ((0 <=? offset) && (0 <=? n) && (offset + n <=? Z.of_nat (length ar)))
  then ret (take (Z.to_nat n) (drop (Z.to_nat offset) ar))
  else crash 0.

(** The same at a pointer that may be NULL. *)
Definition memcpy_from_ptr (data : option (list Z)) (n : Z) : PM (list Z) :=
  match data with
  | Some data => memcpy_from data 0 n
  | None => if n =? 0 then ret [] else crash 0
  end.

(** [n] bytes put in the array [a], which must have room. *)
Definition memcpy_to (a bytes : list Z) : PM (list Z) :=
  if (length bytes <=? length a)%nat then ret (bytes ++ drop (length bytes) a) else crash 0.

(** [jniCreateFileDescriptor] and the [int] of a descriptor object. *)
Definition jniCreateFileDescriptor (fd : Z) : PM (option Z) :=
  do! s := gets id in
  match new_FileDescriptor s with
  | Some o => modify (set_pw_fdobjs (<[o := fd]> (pw_fdobjs s))) ;;; ret (Some o)
  | None => throw "java/lang/OutOfMemoryError" None ;;; ret None
  end.

Definition jniGetFDFromFileDescriptor (o : option Z) : PM Z :=
  match o with
  | None => ret (-1)
  | Some o =>
      do! s := gets id in
      match pw_fdobjs s !! o with Some fd => ret fd | None => crash 0 end
  end.

Definition jniSetFileDescriptorOfFD (o fd : Z) : PM unit :=
  modify (fun s => set_pw_fdobjs (<[o := fd]> (pw_fdobjs s)) s).

Definition open_fd (name : list Z) (flags mode : Z) : PM Z :=
  do! s := gets id in
  let fd := os_open name flags mode s in
  when (0 <=? fd) (modify (set_pw_fds ({[fd]} ∪ pw_fds s))) ;;; ret fd.
Definition dup (oldfd : Z) : PM Z :=
  do! s := gets id in
  let fd := os_dup oldfd s in
  when (0 <=? fd) (modify (set_pw_fds ({[fd]} ∪ pw_fds s))) ;;; ret fd.
Definition close (fd : Z) : PM unit :=
  modify (fun s => set_pw_fds (pw_fds s ∖ {[fd]}) s).

(** *** Java parcels *)

Definition createJavaParcelObject : PM (option Z) := jni Parcel_obtain.

(** [CallVoidMethod] of a NULL object ends the process. *)
Definition recycleJavaParcelObject (parcelObj : option Z) : PM unit :=
  match parcelObj with Some o => jni (Parcel_recycle o) | None => crash FATAL_ERROR end.

(** *** The data *)

Definition android_os_Parcel_dataSize (nativePtr : Z) : PM Z :=
  if negb (nativePtr =? 0) then ask nativePtr (fun p => i32 (dataSize p)) else ret 0.
Definition android_os_Parcel_dataAvail (nativePtr : Z) : PM Z :=
  if negb (nativePtr =? 0) then ask nativePtr (fun p => i32 (dataAvail p)) else ret 0.
Definition android_os_Parcel_dataPosition (nativePtr : Z) : PM Z :=
  if negb (nativePtr =? 0) then ask nativePtr (fun p => i32 (dataPosition p)) else ret 0.
Definition android_os_Parcel_dataCapacity (nativePtr : Z) : PM Z :=
  if negb (nativePtr =? 0) then ask nativePtr (fun p => i32 (dataCapacity p)) else ret 0.

Definition android_os_Parcel_setDataSize (nativePtr size : Z) : PM Z :=
  if negb (nativePtr =? 0) then
    do! err := on nativePtr (pm_setDataSize (u64 size)) in
    signal_if err ;;; ask nativePtr pm_getOpenAshmemSize
  else ret 0.

Definition android_os_Parcel_setDataPosition (nativePtr pos : Z) : PM unit :=
  if negb (nativePtr =? 0) then update nativePtr (setDataPosition (u64 pos)) else ret tt.

Definition android_os_Parcel_setDataCapacity (nativePtr size : Z) : PM unit :=
  if negb (nativePtr =? 0) then
    do! err := on nativePtr (pm_setDataCapacity (u64 size)) in signal_if err
  else ret tt.

Definition android_os_Parcel_pushAllowFds (nativePtr : Z) (allowFds : bool) : PM bool :=
  if negb (nativePtr =? 0) then on nativePtr (pm_pushAllowFds allowFds) else ret true.
Definition android_os_Parcel_restoreAllowFds (nativePtr : Z) (lastValue : bool) : PM unit :=
  if negb (nativePtr =? 0) then update nativePtr (pm_restoreAllowFds lastValue) else ret tt.

(** *** Writing *)

(** A value whose method returns a status. *)
Definition write_value (nativePtr : Z) (write : parcel -> Z * parcel) : PM unit :=
  if negb (nativePtr =? 0) then do! err := on nativePtr write in signal_if err else ret tt.

Definition android_os_Parcel_writeInt (nativePtr val : Z) : PM unit :=
  write_value nativePtr (pm_writeInt32 val).
Definition android_os_Parcel_writeLong (nativePtr val : Z) : PM unit :=
  write_value nativePtr (pm_writeInt64 val).
Definition android_os_Parcel_writeFloat (nativePtr val : Z) : PM unit :=
  write_value nativePtr (pm_writeFloat val).
Definition android_os_Parcel_writeDouble (nativePtr val : Z) : PM unit :=
  write_value nativePtr (pm_writeDouble val).

(** The length, then the bytes at [offset], where the array gives them. *)
Definition android_os_Parcel_writeNative (nativePtr : Z) (data : option (list Z))
    (offset length : Z) : PM unit :=
  if nativePtr =? 0 then ret tt
  else
    do! err := on nativePtr (pm_writeInt32 length) in
    if negb (err =? NO_ERROR) then signal err
    else
      do! dest := on nativePtr (pm_writeInplace (u64 length)) in
      match dest with
      | None => signal (NO_MEMORY (k_errors E))
      | Some dest =>
          do! ar := GetCritical data in
          match ar with
          | Some ar =>
              do! bytes := memcpy_from ar offset length in
              update nativePtr (pm_poke dest bytes) ;;; ReleaseCritical
          | None => ret tt
          end
      end.

(** [blob.data()] of a blob that was not made is NULL. *)
Definition fill_blob (nativePtr : Z) (blob : option writable_blob) (bytes : list Z) : PM unit :=
  match blob with
  | Some blob => update nativePtr (pm_fill_blob blob bytes)
  | None => match bytes with [] => ret tt | _ => crash 0 end
  end.

Definition android_os_Parcel_writeBlob (nativePtr : Z) (data : option (list Z))
    (offset length : Z) : PM unit :=
  if nativePtr =? 0 then ret tt
  else
    match data with
    | None => do! err := on nativePtr (pm_writeInt32 (-1)) in signal_if err
    | Some _ =>
        do! err := on nativePtr (pm_writeInt32 length) in
        if negb (err =? NO_ERROR) then signal err
        else
          do! '(err2, blob) := on nativePtr (pm_writeBlob (u64 length) false) in
          if negb (err2 =? NO_ERROR) then signal err2
          else
            do! ar := GetCritical data in
            match ar with
            | None =>
                do! bytes := memcpy_from (replicate (Z.to_nat length) 0) 0 length in
                fill_blob nativePtr blob bytes
            | Some ar =>
                do! bytes := memcpy_from ar offset length in
                fill_blob nativePtr blob bytes ;;; ReleaseCritical
            end
    end.

Definition android_os_Parcel_writeString (nativePtr : Z) (val : option (list Z)) : PM unit :=
  if negb (nativePtr =? 0) then
    do! err :=
      match val with
      | Some _ =>
          do! str := GetCritical val in
          match str with
          | Some str =>
              do! err := on nativePtr (pm_writeString16 (Some str)) in
              ReleaseCritical ;;; ret err
          | None => ret (NO_MEMORY (k_errors E))
          end
      | None => on nativePtr (pm_writeString16 None)
      end in
    signal_if err
  else ret tt.

(** The strong pointer of [ibinderForJavaObject] dies after the call. *)
Definition android_os_Parcel_writeStrongBinder (nativePtr : Z) (object : option Z) : PM unit :=
  if negb (nativePtr =? 0) then
    do! err := jni (do! b := ibinderForJavaObject object in
                    do! _ := parcel_at nativePtr in
                    do! err := pm_writeStrongBinder nativePtr b in
                    (if b =? 0 then ret tt else IBinder_decStrong St b) ;;; ret err) in
    signal_if err
  else ret tt.

Definition android_os_Parcel_writeFileDescriptor (nativePtr : Z) (object : option Z) : PM Z :=
  if negb (nativePtr =? 0) then
    do! fd := jniGetFDFromFileDescriptor object in
    do! _ := parcel_of nativePtr in
    do! err := pm_writeDupFileDescriptor nativePtr fd in
    signal_if err ;;; ask nativePtr pm_getOpenAshmemSize
  else ret 0.

Definition android_os_Parcel_writeInterfaceToken (nativePtr : Z) (name : option (list Z)) : PM unit :=
  if negb (nativePtr =? 0) then
    do! str := GetCritical name in
    match str with
    | Some str => update nativePtr (pm_writeInterfaceToken str) ;;; ReleaseCritical
    | None => ret tt
    end
  else ret tt.

(** *** Reading *)

(** A new array of the next [len] bytes. *)
Definition read_array (nativePtr len : Z) : PM (option (list Z)) :=
  do! res := NewByteArray len in
  match res with
  | None => ret None
  | Some zeros =>
      do! a2 := GetCritical (Some zeros) in
      match a2 with
      | Some a2 =>
          do! data := on nativePtr (pm_readInplace (u64 len)) in
          do! bytes := memcpy_from_ptr data len in
          do! a2 := memcpy_to a2 bytes in
          ReleaseCritical ;;; ret (Some a2)
      | None => ret (Some zeros)
      end
  end.

(** The length is checked against what is left, not what [readInplace] says. *)
Definition android_os_Parcel_createByteArray (nativePtr : Z) : PM (option (list Z)) :=
  if negb (nativePtr =? 0) then
    do! len := on nativePtr readInt32 in
    do! avail := ask nativePtr dataAvail in
    if (0 <=? len) && (len <=? i32 avail) then read_array nativePtr len else ret None
  else ret None.

Definition android_os_Parcel_readBlob (nativePtr : Z) : PM (option (list Z)) :=
  if negb (nativePtr =? 0) then
    do! len := on nativePtr readInt32 in
    if 0 <=? len then
      do! '(err, blob) := on nativePtr (pm_readBlob (u64 len)) in
      if negb (err =? NO_ERROR) then signal err ;;; ret None
      else
        do! res := NewByteArray len in
        match res with
        | None => ret None
        | Some zeros =>
            do! a2 := GetCritical (Some zeros) in
            match a2 with
            | Some a2 =>
                do! bytes := memcpy_from blob 0 len in
                do! a2 := memcpy_to a2 bytes in
                ReleaseCritical ;;; ret (Some a2)
            | None => ret (Some zeros)
            end
        end
    else ret None
  else ret None.

(** A number, 0 without a parcel. *)
Definition read_value (nativePtr : Z) (read : parcel -> Z * parcel) : PM Z :=
  if negb (nativePtr =? 0) then on nativePtr read else ret 0.

Definition android_os_Parcel_readInt (nativePtr : Z) : PM Z := read_value nativePtr readInt32.
Definition android_os_Parcel_readLong (nativePtr : Z) : PM Z := read_value nativePtr pm_readInt64.
Definition android_os_Parcel_readFloat (nativePtr : Z) : PM Z := read_value nativePtr pm_readFloat.
Definition android_os_Parcel_readDouble (nativePtr : Z) : PM Z := read_value nativePtr pm_readDouble.

Definition android_os_Parcel_readString (nativePtr : Z) : PM (option (list Z)) :=
  if negb (nativePtr =? 0) then
    do! str := on nativePtr pm_readString16Inplace in
    match str with Some str => NewString str | None => ret None end
  else ret None.

(** The strong pointer of [readStrongBinder] dies after the call. *)
Definition android_os_Parcel_readStrongBinder (nativePtr : Z) : PM (option Z) :=
  if negb (nativePtr =? 0) then
    jni (do! _ := parcel_at nativePtr in
         do! b := pm_readStrongBinder nativePtr in
         do! o := javaObjectForIBinder St b in
         (if b =? 0 then ret tt else IBinder_decStrong St b) ;;; ret o)
  else ret None.

(** The descriptor of the parcel stays its own. *)
Definition android_os_Parcel_readFileDescriptor (nativePtr : Z) : PM (option Z) :=
  if negb (nativePtr =? 0) then
    do! fd := on nativePtr pm_readFileDescriptor in
    if fd <? 0 then ret None
    else
      do! fd := dup fd in
      if fd <? 0 then ret None else jniCreateFileDescriptor fd
  else ret None.

(** *** File descriptors *)

Definition O_RDONLY : Z := 0.
Definition O_WRONLY : Z := 1.
Definition O_RDWR : Z := 2.
Definition O_CREAT : Z := 64.
Definition O_TRUNC : Z := 512.
Definition O_APPEND : Z := 1024.
Definition S_IRWXU : Z := 448.
Definition S_IRWXG : Z := 56.
Definition S_IROTH : Z := 4.
Definition S_IWOTH : Z := 2.

Definition has_bit (mode mask : Z) : bool := negb (Z.land mode mask =? 0).

(** [flags] and [realMode] of a mode of [ParcelFileDescriptor]. *)
Definition open_flags (mode : Z) : Z :=
  let access := Z.land mode 0x30000000 in
  let flags :=
    if access =? 0 then O_RDONLY
    else if access =? 0x10000000 then O_RDONLY
    else if access =? 0x20000000 then O_WRONLY
    else if access =? 0x30000000 then O_RDWR
    else 0 in
  let flags := if has_bit mode 0x08000000 then Z.lor flags O_CREAT else flags in
  let flags := if has_bit mode 0x04000000 then Z.lor flags O_TRUNC else flags in
  if has_bit mode 0x02000000 then Z.lor flags O_APPEND else flags.

Definition open_real_mode (mode : Z) : Z :=
  let realMode := Z.lor S_IRWXU S_IRWXG in
  let realMode := if has_bit mode 0x00000001 then Z.lor realMode S_IROTH else realMode in
  if has_bit mode 0x00000002 then Z.lor realMode S_IWOTH else realMode.

(** An object for [fd], or the descriptor is closed. *)
Definition object_or_close (fd : Z) : PM (option Z) :=
  do! object := jniCreateFileDescriptor fd in
  match object with
  | None => close fd ;;; ret None
  | Some o => ret (Some o)
  end.

Definition throw_null_pointer : PM unit := jni jniThrowNullPointerException.

Definition android_os_Parcel_openFileDescriptor (name : option (list Z)) (mode : Z)
    : PM (option Z) :=
  match name with
  | None => throw_null_pointer ;;; ret None
  | Some name =>
      do! s := gets id in
      match utf_chars name s with
      | None => throw "java/lang/OutOfMemoryError" None ;;; ret None
      | Some name8 =>
          do! fd := open_fd name8 (open_flags mode) (open_real_mode mode) in
          if fd <? 0 then
            throw "java/io/FileNotFoundException" (Some (strerror (- fd))) ;;; ret None
          else object_or_close fd
      end
  end.

Definition android_os_Parcel_dupFileDescriptor (orig : option Z) : PM (option Z) :=
  match orig with
  | None => throw_null_pointer ;;; ret None
  | Some _ =>
      do! origfd := jniGetFDFromFileDescriptor orig in
      if origfd <? 0 then
        throw "java/lang/IllegalArgumentException" (Some "bad FileDescriptor"%string) ;;; ret None
      else
        do! fd := dup origfd in
        if fd <? 0 then throw "java/io/IOException" (Some (strerror (- fd))) ;;; ret None
        else object_or_close fd
  end.

(** The object no longer has the descriptor before it is closed. *)
Definition android_os_Parcel_closeFileDescriptor (object : option Z) : PM unit :=
  match object with
  | None => throw_null_pointer
  | Some o =>
      do! fd := jniGetFDFromFileDescriptor object in
      if 0 <=? fd then jniSetFileDescriptorOfFD o (-1) ;;; close fd else ret tt
  end.

Definition android_os_Parcel_clearFileDescriptor (object : option Z) : PM unit :=
  match object with
  | None => throw_null_pointer
  | Some o =>
      do! fd := jniGetFDFromFileDescriptor object in
      if 0 <=? fd then jniSetFileDescriptorOfFD o (-1) else ret tt
  end.

(** *** Parcels made and destroyed *)

Definition android_os_Parcel_create : PM Z :=
  jni (do! p := fresh in
       modify (fun j => set_j_parcels (<[p := parcel_new]> (j_parcels j)) j) ;;; ret p).

Definition android_os_Parcel_freeBuffer (nativePtr : Z) : PM Z :=
  if negb (nativePtr =? 0) then
    do! _ := parcel_of nativePtr in
    pm_freeData nativePtr ;;; ask nativePtr pm_getOpenAshmemSize
  else ret 0.

Definition android_os_Parcel_destroy (nativePtr : Z) : PM unit :=
  if negb (nativePtr =? 0) then
    do! _ := parcel_of nativePtr in
    pm_release nativePtr ;;;
    jni (modify (fun j => set_j_parcels (delete nativePtr (j_parcels j)) j))
  else ret tt.

(** *** Whole parcels *)

Definition android_os_Parcel_marshall (nativePtr : Z) : PM (option (list Z)) :=
  if nativePtr =? 0 then ret None
  else
    do! objects := ask nativePtr pm_objectsCount in
    if negb (objects =? 0) then
      throw "java/lang/RuntimeException"
        (Some "Tried to marshall a Parcel that contained Binder objects."%string) ;;;
      ret None
    else
      do! p := parcel_of nativePtr in
      do! res := NewByteArray (i32 (dataSize p)) in
      match res with
      | None => ret None
      | Some zeros =>
          do! array := GetCritical (Some zeros) in
          match array with
          | Some array =>
              do! bytes := memcpy_from (p_bytes p) 0 (dataSize p) in
              do! array := memcpy_to array bytes in
              ReleaseCritical ;;; ret (Some array)
          | None => ret (Some zeros)
          end
      end.

(** The statuses of [setDataSize] and [writeInplace] are not looked at. *)
Definition android_os_Parcel_unmarshall (nativePtr : Z) (data : option (list Z))
    (offset length : Z) : PM Z :=
  if (nativePtr =? 0) || (length <? 0) then ret 0
  else
    do! array := GetCritical data in
    match array with
    | Some array =>
        do! _ := on nativePtr (pm_setDataSize (u64 length)) in
        update nativePtr (setDataPosition 0) ;;;
        (do! raw := on nativePtr (pm_writeInplace (u64 length)) in
         do! bytes := memcpy_from array offset length in
         match raw with
         | Some raw => update nativePtr (pm_poke raw bytes)
         | None => if length =? 0 then ret tt else crash 0
         end) ;;;
        ReleaseCritical
    | None => ret tt
    end ;;;
    ask nativePtr pm_getOpenAshmemSize.

Definition android_os_Parcel_compareData (thisNativePtr otherNativePtr : Z) : PM Z :=
  if thisNativePtr =? 0 then ret 0
  else if otherNativePtr =? 0 then ask thisNativePtr (fun p => i32 (pm_getOpenAshmemSize p))
  else
    do! this := parcel_of thisNativePtr in
    do! other := parcel_of otherNativePtr in
    ret (pm_compareData this other).

Definition android_os_Parcel_appendFrom (thisNativePtr otherNativePtr offset length : Z) : PM Z :=
  if thisNativePtr =? 0 then ret 0
  else if otherNativePtr =? 0 then ask thisNativePtr pm_getOpenAshmemSize
  else
    do! _ := parcel_of thisNativePtr in
    do! _ := parcel_of otherNativePtr in
    do! err := pm_appendFrom thisNativePtr otherNativePtr (u64 offset) (u64 length) in
    signal_if err ;;; ask thisNativePtr pm_getOpenAshmemSize.

Definition android_os_Parcel_hasFileDescriptors (nativePtr : Z) : PM bool :=
  if negb (nativePtr =? 0) then
    do! has := ask nativePtr pm_hasFileDescriptors in ret (if has : bool then true else false)
  else ret false.

(** What follows a string or a parcel that is not there, or another interface. *)
Definition incorrect_interface : PM unit :=
  throw "java/lang/SecurityException" (Some "Binder invocation to an incorrect interface"%string).

Definition android_os_Parcel_enforceInterface (nativePtr : Z) (name : option (list Z)) : PM unit :=
  if negb (nativePtr =? 0) then
    do! str := GetCritical name in
    match str with
    | Some str =>
        do! oldPolicy := jni (ipc E Sys garbage getStrictModePolicy) in
        do! _ := parcel_of nativePtr in
        do! isValid := jni (pm_enforceInterface nativePtr str) in
        ReleaseCritical ;;;
        (if isValid : bool then
           do! newPolicy := jni (ipc E Sys garbage getStrictModePolicy) in
           when (negb (oldPolicy =? newPolicy)) (jni (set_dalvik_blockguard_policy newPolicy))
         else incorrect_interface)
    | None => incorrect_interface
    end
  else incorrect_interface.

Definition android_os_Parcel_getGlobalAllocSize : PM Z := jni (gets pm_getGlobalAllocSize).
Definition android_os_Parcel_getGlobalAllocCount : PM Z := jni (gets pm_getGlobalAllocCount).

Definition android_os_Parcel_getBlobAshmemSize (nativePtr : Z) : PM Z :=
  if negb (nativePtr =? 0) then ask nativePtr pm_getBlobAshmemSize else ret 0.

End Model.
