(* ===== verification/JniParcelOps.v ===== *)
(** * JniParcelOps: what is relied on of the class Parcel, and rules

    The laws of [ParcelMethods] and [ParcelJava], and for the steps
    [JniParcel]'s methods are made of what they do to the state. *)

From S2P Require Import Prelude Uapi Parcel CppWorld ProcessState IpcCore BpBinder Proxy RefBase JniWorld JniBinder JniInv JniOps JniMeths JniProxies JniNatives JniCalls JniParcel.

#[local] Open Scope Z_scope.

(** Parcels are made of words. *)
Definition pad4 (n : Z) : Z := 4 * ((n + 3) / 4).

Lemma pad4_range n : 0 <= n -> n <= pad4 n < n + 4.
Proof.
  unfold pad4. pose proof (Z_div_mod_eq_full (n + 3) 4). pose proof (Z.mod_pos_bound (n + 3) 4). lia.
Qed.
Lemma pad4_le n m : n <= m -> pad4 n <= pad4 m.
Proof. intros H. unfold pad4. pose proof (Z.div_le_mono (n + 3) (m + 3) 4). lia. Qed.
Lemma pad4_div n : (4 | n) -> pad4 n = n.
Proof.
  intros [k ->]. unfold pad4. replace (k * 4 + 3) with (3 + k * 4) by lia.
  rewrite Z.div_add by done. change (3 / 4) with 0. lia.
Qed.

(** Bytes put in the middle of others. *)
Definition splice (off : Z) (l bytes : list Z) : list Z :=
  take (Z.to_nat off) bytes ++ l ++ drop (Z.to_nat off + length l) bytes.

Lemma length_splice off l bytes : 0 <= off -> off + Z.of_nat (length l) <= Z.of_nat (length bytes) ->
  length (splice off l bytes) = length bytes.
Proof. intros H1 H2. unfold splice. rewrite !length_app, length_take, length_drop. lia. Qed.

Lemma splice_at off l bytes : 0 <= off -> off + Z.of_nat (length l) <= Z.of_nat (length bytes) ->
  take (length l) (drop (Z.to_nat off) (splice off l bytes)) = l.
Proof.
  intros H1 H2. unfold splice. rewrite drop_app_length' by (rewrite length_take; lia).
  by rewrite take_app_length.
Qed.

Lemma splice_before off l bytes n : (n <= Z.to_nat off)%nat -> (n <= length bytes)%nat ->
  take n (splice off l bytes) = take n bytes.
Proof.
  intros H1 H2. unfold splice. rewrite take_app_le by (rewrite length_take; lia).
  by rewrite take_take, Nat.min_l.
Qed.

(** Some of an array's bytes. *)
Definition slice (ar : list Z) (off n : Z) : list Z := take (Z.to_nat n) (drop (Z.to_nat off) ar).

Lemma length_slice ar off n : 0 <= off -> 0 <= n -> off + n <= Z.of_nat (length ar) ->
  length (slice ar off n) = Z.to_nat n.
Proof. intros. unfold slice. rewrite length_take, length_drop. lia. Qed.

(** ** The bytes of a parcel *)

Class ParcelBytes `{PMs : ParcelMethods} := {
  (** The two views of [writeInt32]. *)
  pb_writeInt32 x p : (pm_writeInt32 x p).1 = NO_ERROR -> (pm_writeInt32 x p).2 = writeInt32 x p;
  pb_readInt32_range p : -2 ^ 31 <= (readInt32 p).1 < 2 ^ 31;
  pb_setDataPosition_bytes n p : p_bytes (setDataPosition n p) = p_bytes p;
  pb_setDataPosition n p : dataPosition (setDataPosition n p) = n;
  pb_setDataSize n p : 0 <= n -> (pm_setDataSize n p).1 = NO_ERROR ->
    dataSize (pm_setDataSize n p).2 = n;
  (** Room is made at the position, up to the next word. *)
  pb_writeInplace n p off : 0 <= n -> 0 <= dataPosition p <= dataSize p ->
    (pm_writeInplace n p).1 = Some off ->
    off = dataPosition p /\
    (exists room, length room = Z.to_nat (pad4 n) /\
       p_bytes (pm_writeInplace n p).2 = splice off room (p_bytes p)) /\
    dataPosition (pm_writeInplace n p).2 = off + pad4 n;
  pb_poke off l p : 0 <= off -> off + Z.of_nat (length l) <= dataSize p ->
    p_bytes (pm_poke off l p) = splice off l (p_bytes p) /\
    dataPosition (pm_poke off l p) = dataPosition p;
  (** Whole words are read. *)
  pb_readInplace n p : 0 <= n -> 0 <= dataPosition p -> dataPosition p + pad4 n <= dataSize p ->
    (pm_readInplace n p).1 =
      Some (take (Z.to_nat n) (drop (Z.to_nat (dataPosition p)) (p_bytes p)));
  pb_readInplace_null n p : 0 <= n -> ~ (0 <= dataPosition p /\ dataPosition p + pad4 n <= dataSize p) ->
    (pm_readInplace n p).1 = None;
  pb_readBlob n p : 0 <= n -> (pm_readBlob n p).1.1 = NO_ERROR ->
    Z.of_nat (length (pm_readBlob n p).1.2) = n;
  pb_writeBlob n m p : (pm_writeBlob n m p).1.1 = NO_ERROR -> is_Some (pm_writeBlob n m p).1.2
}.

(** ** Rules *)

Section Rules.
Context `{PL : ParcelLib} `{RB : RefBase} `{U : BinderUapi}.
Context `{NB : !NativeBinder} `{JS : !JavaSide} `{SM : !Sampling}.
Context `{PMs : !ParcelMethods} `{PJ : !ParcelJava}.
Context (E : cpp_env) (JE : jni_errors).

Implicit Types (s : parcel_world) (j : jni_state).

Definition parcel_is s (a : Z) (p : parcel) : Prop := j_parcels (pw_jni s) !! a = Some p.

Definition with_parcel (a : Z) (p : parcel) s : parcel_world :=
  set_pw_jni (set_j_parcels (<[a := p]> (j_parcels (pw_jni s))) (pw_jni s)) s.

Definition with_exception (t : throwable) s : parcel_world :=
  set_pw_jni (set_j_pending (Some t) (pw_jni s)) s.

(** The state of [signal_if]. *)
Definition after_status (err : Z) s : parcel_world :=
  if err =? NO_ERROR then s else with_exception (error_exception E JE err false 0) s.

Lemma runs_jni {A} (m : JM A) s Q :
  runs m (pw_jni s) (fun a j => Q a (set_pw_jni j s)) -> runs (jni m) s Q.
Proof. unfold runs, jni. by destruct (m (pw_jni s)). Qed.

Lemma parcel_of_run s a p : parcel_is s a p -> parcel_of a s = Value p s.
Proof.
  intros H. unfold parcel_of, jni, parcel_at, bind, gets, id, lookup_or_crash. rewrite H. by destruct s.
Qed.

Lemma ask_run {A} s a p (f : parcel -> A) : parcel_is s a p -> ask a f s = Value (f p) s.
Proof. intros H. unfold ask, bind. by rewrite (parcel_of_run _ _ _ H). Qed.

Lemma on_run {A} s a p (f : parcel -> A * parcel) : parcel_is s a p ->
  on a f s = Value (f p).1 (with_parcel a (f p).2 s).
Proof. intros H. unfold on, bind. rewrite (parcel_of_run _ _ _ H). by destruct (f p). Qed.

Lemma update_run s a p (f : parcel -> parcel) : parcel_is s a p ->
  update a f s = Value tt (with_parcel a (f p) s).
Proof. intros H. unfold update, bind. by rewrite (parcel_of_run _ _ _ H). Qed.

Lemma parcel_is_with s a p : parcel_is (with_parcel a p s) a p.
Proof. unfold parcel_is. simpl. apply lookup_insert_eq. Qed.

Lemma with_parcel_twice s a p q : with_parcel a q (with_parcel a p s) = with_parcel a q s.
Proof. unfold with_parcel, set_j_parcels, set_pw_jni. simpl. by rewrite insert_insert_eq. Qed.

Lemma signal_if_run err s : signal_if E JE err s = Value tt (after_status err s).
Proof. unfold signal_if, after_status. by destruct (err =? NO_ERROR). Qed.

Lemma signal_run err s :
  signal E JE err s = Value tt (with_exception (error_exception E JE err false 0) s).
Proof. done. Qed.

Lemma memcpy_from_run s ar off n : 0 <= off -> 0 <= n -> off + n <= Z.of_nat (length ar) ->
  memcpy_from ar off n s = Value (take (Z.to_nat n) (drop (Z.to_nat off) ar)) s.
Proof.
  intros H1 H2 H3. unfold memcpy_from.
  rewrite (proj2 (Z.leb_le _ _) H1), (proj2 (Z.leb_le _ _) H2), (proj2 (Z.leb_le _ _) H3).
  by rewrite orb_true_r.
Qed.

Lemma memcpy_to_run s a bytes : length bytes = length a -> memcpy_to a bytes s = Value bytes s.
Proof.
  intros H. unfold memcpy_to. rewrite (proj2 (Nat.leb_le _ _)) by lia.
  by rewrite H, drop_all, app_nil_r.
Qed.

(** The bytes at the position. *)
Definition ahead (n : Z) (p : parcel) : list Z :=
  take (Z.to_nat n) (drop (Z.to_nat (dataPosition p)) (p_bytes p)).

Lemma memcpy_ahead `{PB : !ParcelBytes} s p n : 0 <= n -> 0 <= dataPosition p -> dataPosition p + pad4 n <= dataSize p ->
  memcpy_from_ptr (pm_readInplace n p).1 n s = Value (ahead n p) s.
Proof.
  intros Hn Hp Hs. rewrite pb_readInplace by done. pose proof (pad4_range n Hn) as Hr.
  unfold memcpy_from_ptr. rewrite memcpy_from_run; [|done|done|].
  - by rewrite drop_0, take_take, Nat.min_id.
  - unfold dataSize in Hs. rewrite length_take, length_drop. lia.
Qed.

End Rules.
