(* ===== verification/JniParcelThms.v ===== *)
(** * JniParcelThms: what android.os.Parcel guarantees

    Byte arrays go through a parcel unchanged and hostile lengths are refused, but
    for the padding of the last word. *)

From S2P Require Import Prelude Uapi Parcel CppWorld ProcessState IpcCore BpBinder Proxy CppThms RefBase JniWorld JniBinder JniInv JniOps JniMeths JniProxies JniNatives JniCalls NativeProxy JniThms JniParcel JniParcelOps.

#[local] Open Scope Z_scope.

Section Bytes.
Context `{PL : ParcelLib} `{RB : RefBase} `{U : BinderUapi}.
Context `{NB : !NativeBinder} `{JS : !JavaSide} `{SM : !Sampling}.
Context `{PMs : !ParcelMethods} `{PJ : !ParcelJava} `{PB : !ParcelBytes}.
Context (E : cpp_env) (JE : jni_errors).

Implicit Types (s : parcel_world) (p q : parcel).

(** ** createByteArray, whatever the parcel holds *)

(** The virtual machine finds memory and gives pointers. *)
Definition memory_found : Prop :=
  (forall n s, new_array n s = true) /\ (forall s, get_critical s = true).

Lemma NewByteArray_run s n : memory_found -> 0 <= n ->
  NewByteArray n s = Value (Some (replicate (Z.to_nat n) 0)) s.
Proof.
  intros [Hm _] Hn. unfold NewByteArray, bind, gets, id.
  by rewrite (proj2 (Z.ltb_ge _ _) Hn), Hm.
Qed.

Lemma GetCritical_run {A} s (x : A) : memory_found ->
  GetCritical (Some x) s = Value (Some x) (set_pw_critical (pw_critical s + 1) s).
Proof. intros [_ Hc]. unfold GetCritical, bind, gets, id, modify. by rewrite Hc. Qed.

Lemma createByteArray_reads s a p : parcel_is s a p -> a <> 0 ->
  android_os_Parcel_createByteArray a s =
  (if (0 <=? (readInt32 p).1) && ((readInt32 p).1 <=? i32 (dataAvail (readInt32 p).2))
   then read_array a (readInt32 p).1 else ret None) (with_parcel a (readInt32 p).2 s).
Proof.
  intros Hp Ha. unfold android_os_Parcel_createByteArray. rewrite (proj2 (Z.eqb_neq _ _) Ha).
  cbn [negb]. unfold bind at 1. rewrite (on_run s a p readInt32 Hp).
  unfold bind at 1. by rewrite (ask_run _ a _ dataAvail (parcel_is_with s a _)).
Qed.

(** Critical sections closed again. *)
Lemma critical_closed s a p : set_pw_critical (pw_critical s + 1 - 1)
  (with_parcel a p (set_pw_critical (pw_critical s + 1) s)) = with_parcel a p s.
Proof. unfold with_parcel, set_pw_critical, set_pw_jni. simpl. by rewrite Z.add_simpl_r. Qed.

Lemma read_array_starts s a p n : memory_found -> parcel_is s a p -> 0 <= n < 2 ^ 31 ->
  read_array a n s =
  (do! bytes := memcpy_from_ptr (pm_readInplace n p).1 n in
   do! a2 := memcpy_to (replicate (Z.to_nat n) 0) bytes in
   ReleaseCritical ;;; ret (Some a2))
    (with_parcel a (pm_readInplace n p).2 (set_pw_critical (pw_critical s + 1) s)).
Proof.
  intros Hm Hp Hn. unfold read_array at 1, bind at 1. rewrite NewByteArray_run by (done || lia).
  unfold bind at 1. rewrite GetCritical_run by done. unfold bind at 1. rewrite u64_small by lia.
  by rewrite (on_run (set_pw_critical (pw_critical s + 1) s) a p _ Hp).
Qed.

Lemma read_array_run s a p n : memory_found -> parcel_is s a p -> 0 <= n < 2 ^ 31 ->
  0 <= dataPosition p -> dataPosition p + pad4 n <= dataSize p ->
  read_array a n s = Value (Some (ahead n p)) (with_parcel a (pm_readInplace n p).2 s).
Proof.
  intros Hm Hp Hn Hpos Hs. rewrite (read_array_starts s a p n Hm Hp Hn).
  unfold bind at 1. rewrite memcpy_ahead by (done || lia). unfold bind at 1.
  pose proof (pad4_range n). rewrite memcpy_to_run.
  - unfold bind, ReleaseCritical, bind, gets, modify, id, ret. simpl. by rewrite critical_closed.
  - unfold ahead, dataSize in *. rewrite length_replicate, length_take, length_drop. lia.
Qed.

Lemma read_array_null s a p n : memory_found -> parcel_is s a p -> 0 < n < 2 ^ 31 ->
  ~ (0 <= dataPosition p /\ dataPosition p + pad4 n <= dataSize p) -> read_array a n s = Crash 0.
Proof.
  intros Hm Hp Hn Hs. rewrite (read_array_starts s a p n Hm Hp) by lia.
  rewrite pb_readInplace_null by (done || lia). unfold bind, memcpy_from_ptr.
  by rewrite (proj2 (Z.eqb_neq n 0)) by lia.
Qed.

(** C36: [createByteArray] of a parcel another process may have filled: a length that
    is negative or more than what is left gives NULL; the next bytes are returned
    when they are there with their padding; a length that only fits without its
    padding crashes, for nothing looks at what [readInplace] returns. *)
Theorem createByteArray_checks_length s a p :
  let len := (readInt32 p).1 in let p1 := (readInt32 p).2 in
  memory_found -> parcel_is s a p -> a <> 0 -> dataSize p < 2 ^ 31 ->
  0 <= dataPosition p1 <= dataSize p1 ->
  android_os_Parcel_createByteArray a s =
  if (len <? 0) || (dataAvail p1 <? len) then Value None (with_parcel a p1 s)
  else if dataPosition p1 + pad4 len <=? dataSize p1 then
    Value (Some (ahead len p1)) (with_parcel a (pm_readInplace len p1).2 s)
  else Crash 0.
Proof.
  intros len p1 Hm Hp Ha Hsz Hpos. pose proof (pb_readInt32_range p) as Hlen. fold len in Hlen. rewrite (createByteArray_reads s a p Hp Ha) at 1. fold len p1.
  assert (dataSize p1 = dataSize p) as Es by (unfold dataSize, p1; by rewrite readInt32_bytes).
  rewrite i32_small by (unfold dataAvail; lia).
  destruct (Z.ltb_spec len 0) as [L|L]; [by rewrite (proj2 (Z.leb_gt 0 len) L)|].
  rewrite (proj2 (Z.leb_le 0 len) L). cbn [andb orb].
  destruct (Z.ltb_spec (dataAvail p1) len) as [A|A]; [by rewrite (proj2 (Z.leb_gt _ _) A)|].
  rewrite (proj2 (Z.leb_le _ _) A). pose proof (parcel_is_with s a p1) as Hp1.
  destruct (Z.leb_spec (dataPosition p1 + pad4 len) (dataSize p1)) as [F|F].
  - rewrite (read_array_run _ a p1 len Hm Hp1) by (done || lia). by rewrite with_parcel_twice.
  - apply (read_array_null _ a p1 len Hm Hp1); [|lia].
    destruct (Z.eq_dec len 0) as [Z0|]; [|lia]. rewrite Z0 in F. change (pad4 0) with 0 in F. lia.
Qed.

(** ** Byte arrays through a parcel *)

(** What [writeNative] leaves in the parcel, or the exception it throws. *)
Lemma writeNative_run s a p ar off n : memory_found -> parcel_is s a p -> a <> 0 ->
  0 <= off -> 0 <= n < 2 ^ 31 -> off + n <= Z.of_nat (length ar) ->
  let p1 := (pm_writeInt32 n p).2 in let p2 := (pm_writeInplace n p1).2 in
  android_os_Parcel_writeNative E JE a (Some ar) off n s =
  if (pm_writeInt32 n p).1 =? NO_ERROR then
    match (pm_writeInplace n p1).1 with
    | Some dest => Value tt (with_parcel a (pm_poke dest (slice ar off n) p2) s)
    | None => Value tt (with_exception (error_exception E JE (NO_MEMORY (k_errors E)) false 0)
                (with_parcel a p2 s))
    end
  else Value tt (with_exception (error_exception E JE (pm_writeInt32 n p).1 false 0)
         (with_parcel a p1 s)).
Proof.
  intros Hm Hp Ha Ho Hn Hr p1 p2. unfold android_os_Parcel_writeNative.
  rewrite (proj2 (Z.eqb_neq _ _) Ha). unfold bind at 1. rewrite (on_run s a p _ Hp). fold p1.
  destruct ((pm_writeInt32 n p).1 =? NO_ERROR); cbn [negb]; [|done].
  unfold bind at 1. rewrite u64_small by lia.
  rewrite (on_run _ a p1 _ (parcel_is_with s a p1)). fold p2. rewrite with_parcel_twice.
  destruct ((pm_writeInplace n p1).1) as [dest|]; [|done].
  unfold bind at 1. rewrite GetCritical_run by done. unfold bind at 1.
  rewrite memcpy_from_run by (done || lia). unfold bind at 1.
  rewrite (update_run _ a p2 _) by apply lookup_insert_eq.
  unfold ReleaseCritical, bind, gets, modify, id, with_parcel, set_pw_critical, set_pw_jni.
  simpl. rewrite Z.add_simpl_r. unfold set_j_parcels. simpl. by rewrite insert_insert_eq.
Qed.

(** The four bytes of the length and the array, after what was there. *)
Lemma written_bytes p off l n : dataPosition p = dataSize p -> 0 <= n ->
  length l = Z.to_nat n -> (pm_writeInt32 n p).1 = NO_ERROR ->
  (pm_writeInplace n (pm_writeInt32 n p).2).1 = Some off ->
  let p3 := pm_poke off l (pm_writeInplace n (pm_writeInt32 n p).2).2 in
  take (Z.to_nat (dataSize p + 4)) (p_bytes p3) = p_bytes p ++ le_encode 4 (u32 n) /\
  slice (p_bytes p3) (dataSize p + 4) n = l /\ dataSize p3 = dataSize p + 4 + pad4 n.
Proof.
  intros Hend Hn Hl He Hw. pose proof (pb_writeInt32 n p He) as E1. rewrite E1 in *. cbv zeta.
  set (p1 := writeInt32 n p) in *.
  assert (p_bytes p1 = p_bytes p ++ le_encode 4 (u32 n)) as B1 by (by apply writeInt32_bytes).
  assert (dataSize p1 = dataSize p + 4) as S1.
  { unfold dataSize. rewrite B1, length_app, length_le_encode. lia. }
  assert (dataPosition p1 = dataSize p1) as P1 by (by apply writeInt32_end).
  assert (0 <= dataSize p) by (unfold dataSize; lia).
  destruct (pb_writeInplace n p1 off Hn ltac:(lia) Hw) as (-> & (room & Hroom & B2) & _).
  set (p2 := (pm_writeInplace n p1).2) in *. pose proof (pad4_range n Hn).
  assert (dataSize p2 = dataSize p + 4 + pad4 n) as S2.
  { unfold dataSize at 1. rewrite B2. unfold splice. rewrite !length_app, length_take, length_drop.
    unfold dataSize in *. lia. }
  assert (Z.of_nat (length (p_bytes p2)) = dataSize p + 4 + pad4 n) as S3 by done.
  destruct (pb_poke (dataPosition p1) l p2 ltac:(lia) ltac:(lia)) as [B3 _].
  rewrite P1, S1 in *. unfold slice. rewrite <- Hl, B3.
  assert (length (p_bytes p1) = Z.to_nat (dataSize p + 4)) as L1 by (unfold dataSize in *; lia).
  split; [|split].
  - rewrite splice_before by (unfold dataSize in *; lia). rewrite B2.
    rewrite splice_before by lia. rewrite take_ge by lia. done.
  - apply splice_at; lia.
  - unfold dataSize at 1. rewrite B3, length_splice; lia.
Qed.

(** A native method, then what Java does unless it threw. *)
Definition unless_thrown {A} (m : PM unit) (k : PM (option A)) : PM (option A) :=
  m ;;; (do! t := jni ExceptionOccurred in match t with Some _ => ret None | None => k end).

(** Reading at [pos] what [written_bytes] says is there. *)
Lemma reads_written s a p pos n pre l : memory_found -> parcel_is s a p -> a <> 0 ->
  0 <= pos -> 0 <= n < 2 ^ 31 -> dataSize p = pos + 4 + pad4 n -> dataSize p < 2 ^ 31 ->
  take (Z.to_nat (pos + 4)) (p_bytes p) = pre ++ le_encode 4 (u32 n) ->
  Z.of_nat (length pre) = pos -> slice (p_bytes p) (pos + 4) n = l ->
  exists p', (android_os_Parcel_setDataPosition a pos ;;; android_os_Parcel_createByteArray a) s =
    Value (Some l) (with_parcel a p' s).
Proof.
  intros Hm Hp Ha Hpos Hn Hs Hs2 Hlen Hpre <-. pose proof (pad4_range n ltac:(lia)).
  unfold bind at 1, android_os_Parcel_setDataPosition.
  rewrite (proj2 (Z.eqb_neq _ _) Ha). cbn [negb].
  rewrite (update_run _ a p _ Hp), u64_small by lia. set (p4 := setDataPosition pos p).
  assert (p_bytes p4 = p_bytes p) as B4 by apply pb_setDataPosition_bytes.
  assert (dataPosition p4 = pos) as P4 by apply pb_setDataPosition.
  assert (dataSize p4 = dataSize p) as S4 by (unfold dataSize; by rewrite B4).
  assert (dataPosition p4 + 4 <= Z.of_nat (length (p_bytes p4))) as Hfit
    by (change (dataPosition p4 + 4 <= dataSize p4); lia).
  assert ((readInt32 p4).1 = n) as Hread.
  { rewrite readInt32_value by lia. rewrite P4, B4, take_drop_commute.
    replace (Z.to_nat pos + 4)%nat with (Z.to_nat (pos + 4)) by lia.
    rewrite Hlen, drop_app_length' by lia.
    rewrite u32_small, le_decode_encode by lia. apply i32_small. lia. }
  pose proof (readInt32_pos p4 ltac:(lia) Hfit) as P5. pose proof (readInt32_bytes p4) as B5.
  assert (dataSize (readInt32 p4).2 = dataSize p) as S5 by (unfold dataSize; by rewrite B5, B4).
  rewrite (createByteArray_reads _ a p4) by (by apply parcel_is_with || done). rewrite Hread.
  rewrite i32_small by (unfold dataAvail; lia). unfold dataAvail. rewrite P5, S5, P4.
  rewrite (proj2 (Z.leb_le 0 n)), (proj2 (Z.leb_le n _)) by lia. cbn [andb].
  eexists. rewrite (read_array_run _ a (readInt32 p4).2) by (apply parcel_is_with || done || lia).
  rewrite !with_parcel_twice. unfold ahead, slice. by rewrite P5, P4, B5, B4.
Qed.

(** A byte array written to the end of a parcel is read back from there: either
    an exception says that there was no room, or [createByteArray] returns exactly
    the bytes of the array that were written. *)
Theorem byte_array_roundtrip s a p ar off n : memory_found -> parcel_is s a p -> a <> 0 ->
  dataPosition p = dataSize p -> dataSize p + n + 8 < 2 ^ 31 ->
  0 <= off -> 0 <= n -> off + n <= Z.of_nat (length ar) -> j_pending (pw_jni s) = None ->
  exists r s',
    unless_thrown (android_os_Parcel_writeNative E JE a (Some ar) off n)
      (android_os_Parcel_setDataPosition a (dataSize p) ;;;
       android_os_Parcel_createByteArray a) s = Value r s' /\
    (r = Some (slice ar off n) \/
     r = None /\ exists err, j_pending (pw_jni s') = Some (error_exception E JE err false 0)).
Proof.
  intros Hm Hp Ha Hend Hsz Ho Hn Hr Hno. assert (0 <= dataSize p) as Hd by (unfold dataSize; lia).
  pose proof (length_slice ar off n Ho Hn Hr) as Hl. pose proof (pad4_range n Hn).
  unfold unless_thrown, bind at 1. rewrite (writeNative_run s a p) by (done || lia).
  destruct (Z.eqb_spec (pm_writeInt32 n p).1 NO_ERROR) as [He|He].
  2: { eexists _, _. split; [done|]. right. split; [done|by eexists]. }
  destruct ((pm_writeInplace n (pm_writeInt32 n p).2).1) as [dest|] eqn:Hw.
  2: { eexists _, _. split; [done|]. right. split; [done|by eexists]. }
  destruct (written_bytes p dest (slice ar off n) n Hend Hn Hl He Hw) as (B1 & B2 & S3).
  set (p3 := pm_poke _ _ _) in *.
  destruct (reads_written (with_parcel a p3 s) a p3 (dataSize p) n (p_bytes p) (slice ar off n))
    as [p' H']; [done|apply parcel_is_with|done|lia|lia|done|lia|done|done|done|].
  eexists _, _. split; [|by left]. unfold bind at 1, jni, ExceptionOccurred, gets.
  cbn [pw_jni with_parcel set_pw_jni j_pending set_j_parcels]. rewrite Hno. exact H'.
Qed.

(** ** Whole parcels as byte arrays *)

Lemma marshall_run s a p : memory_found -> parcel_is s a p -> a <> 0 -> dataSize p < 2 ^ 31 ->
  android_os_Parcel_marshall a s =
  if pm_objectsCount p =? 0 then Value (Some (p_bytes p)) s
  else Value None (with_exception (Throwable "java/lang/RuntimeException"
    (Some "Tried to marshall a Parcel that contained Binder objects."%string)) s).
Proof.
  intros Hm Hp Ha Hs. assert (0 <= dataSize p) by (unfold dataSize; lia).
  unfold android_os_Parcel_marshall. rewrite (proj2 (Z.eqb_neq _ _) Ha).
  unfold bind at 1. rewrite (ask_run _ _ _ _ Hp). destruct (pm_objectsCount p =? 0); cbn [negb]; [|done].
  unfold bind at 1. rewrite (parcel_of_run _ _ _ Hp), i32_small by lia.
  unfold bind at 1. rewrite NewByteArray_run by done. unfold bind at 1. rewrite GetCritical_run by done.
  unfold bind at 1. rewrite memcpy_from_run by (unfold dataSize in *; lia).
  assert (Z.to_nat (dataSize p) = length (p_bytes p)) as -> by (unfold dataSize; lia).
  rewrite drop_0, firstn_all. unfold bind at 1. rewrite memcpy_to_run by (by rewrite length_replicate).
  unfold ReleaseCritical, bind, gets, modify, id, ret, set_pw_critical. simpl.
  rewrite Z.add_simpl_r. by destruct s.
Qed.

(** A parcel without binders, marshalled to a byte array and unmarshalled into
    another parcel that finds room, is there again byte for byte, and the position
    is behind it; with binders in it an exception is thrown and nothing changes. *)
Theorem marshall_roundtrip s a b p q : memory_found -> parcel_is s a p -> parcel_is s b q ->
  a <> 0 -> b <> 0 -> dataSize p < 2 ^ 31 ->
  (pm_objectsCount p = 0 ->
   let n := dataSize p in let q1 := setDataPosition 0 (pm_setDataSize n q).2 in
   (pm_setDataSize n q).1 = NO_ERROR -> (pm_writeInplace n q1).1 <> None ->
   exists r q', (do! bytes := android_os_Parcel_marshall a in
      do! _ := android_os_Parcel_unmarshall b bytes 0 n in ret bytes) s =
     Value r (with_parcel b q' s) /\
     r = Some (p_bytes p) /\ take (Z.to_nat n) (p_bytes q') = p_bytes p /\
     dataPosition q' = pad4 n) /\
  (pm_objectsCount p <> 0 -> exists t, android_os_Parcel_marshall a s = Value None (with_exception t s)).
Proof.
  intros Hm Hp Hq Ha Hb Hs. rewrite (marshall_run s a p) by done. split.
  2: { intros Ho. rewrite (proj2 (Z.eqb_neq _ _) Ho). by eexists. }
  intros Ho n q1 He Hw. assert (0 <= n) as Hn by (unfold n, dataSize; lia).
  pose proof (pad4_range n Hn). unfold bind at 1. rewrite (marshall_run s a p), Ho by done. cbn [Z.eqb].
  unfold bind at 1, android_os_Parcel_unmarshall. rewrite (proj2 (Z.eqb_neq _ _) Hb).
  rewrite (proj2 (Z.ltb_ge n 0) Hn). cbn [orb]. unfold bind at 1, bind at 1.
  rewrite GetCritical_run by done. unfold bind at 1. rewrite u64_small by lia.
  rewrite (on_run (set_pw_critical (pw_critical s + 1) s) b q _ Hq). unfold bind at 1.
  rewrite (update_run _ b _ _ (parcel_is_with _ _ _)). rewrite with_parcel_twice. fold q1.
  unfold bind at 1, bind at 1. rewrite (on_run _ b q1 _ (parcel_is_with _ _ _)), with_parcel_twice.
  destruct ((pm_writeInplace n q1).1) as [off|] eqn:Eo; [|done].
  assert (dataSize q1 = n) as S1.
  { unfold dataSize, q1. rewrite pb_setDataPosition_bytes. by apply pb_setDataSize. }
  assert (dataPosition q1 = 0) as P1 by apply pb_setDataPosition.
  destruct (pb_writeInplace n q1 off Hn ltac:(lia) Eo) as (-> & (room & Hroom & B2) & P2).
  rewrite P1 in *. set (q2 := (pm_writeInplace n q1).2) in *.
  assert (dataSize q2 = pad4 n) as S2.
  { unfold dataSize in *. rewrite B2. unfold splice. rewrite !length_app, length_take, length_drop. lia. }
  unfold bind at 1. rewrite memcpy_from_run by (unfold n, dataSize; lia). rewrite drop_0.
  assert (take (Z.to_nat n) (p_bytes p) = p_bytes p) as -> by (apply take_ge; unfold n, dataSize; lia).
  rewrite (update_run _ b q2 _ (parcel_is_with _ _ _)), with_parcel_twice.
  assert (Z.of_nat (length (p_bytes p)) = n) as Ln by done.
  destruct (pb_poke 0 (p_bytes p) q2 ltac:(lia) ltac:(lia)) as [B3 P3]. set (q3 := pm_poke _ _ _) in *.
  eexists _, q3. split; [|split; [done|split]].
  - unfold ReleaseCritical, bind, gets, modify, id. rewrite (ask_run _ b q3) by apply lookup_insert_eq.
    unfold ret. f_equal. apply (critical_closed s b q3).
  - rewrite B3, <- Ln, Nat2Z.id. pose proof (splice_at 0 (p_bytes p) (p_bytes q2) ltac:(lia)) as Hsp.
    change (drop (Z.to_nat 0) ?l) with l in Hsp. apply Hsp. unfold dataSize in S2. lia.
  - lia.
Qed.

End Bytes.
