(* ===== verification/JniFdThms.v ===== *)
(** * JniFdThms: file descriptors in Java

    [android.os.ParcelFileDescriptor] opens, duplicates and closes descriptors
    through the native methods of [JniParcel].  A descriptor they open belongs to
    one [java.io.FileDescriptor], and they close nothing else. *)

From S2P Require Import Prelude Uapi Parcel CppWorld ProcessState IpcCore BpBinder Proxy CppThms RefBase JniWorld JniBinder JniInv JniOps JniMeths JniProxies JniNatives JniCalls NativeProxy JniThms JniParcel JniParcelOps.

#[local] Open Scope Z_scope.

(** What is relied on of the system and of [jniCreateFileDescriptor]: a
    descriptor that is open is not given again, an object is new. *)
Class FdLaws `{PJ : ParcelJava} := {
  open_fresh name flags mode s : 0 <= os_open name flags mode s ->
    os_open name flags mode s ∉ pw_fds s;
  dup_fresh fd s : 0 <= os_dup fd s -> os_dup fd s ∉ pw_fds s;
  fd_object_fresh s o : new_FileDescriptor s = Some o -> pw_fdobjs s !! o = None
}.

Inductive fd_call : Type :=
| FOpen (name : option (list Z)) (mode : Z)
| FDup (orig : option Z)
| FClose (object : option Z)
| FClear (object : option Z).

Definition gives_up (c : fd_call) : bool := match c with FClear _ => true | _ => false end.

Section Fds.
Context `{PL : ParcelLib} `{RB : RefBase} `{PJ : !ParcelJava} `{FL : !FdLaws}.

Implicit Types (s : parcel_world).

Definition run_fd (c : fd_call) : PM unit :=
  match c with
  | FOpen name mode => do! _ := android_os_Parcel_openFileDescriptor name mode in ret tt
  | FDup orig => do! _ := android_os_Parcel_dupFileDescriptor orig in ret tt
  | FClose o => android_os_Parcel_closeFileDescriptor o
  | FClear o => android_os_Parcel_clearFileDescriptor o
  end.

Fixpoint run_fds (cs : list fd_call) : PM unit :=
  match cs with [] => ret tt | c :: cs => run_fd c ;;; run_fds cs end.

(** A descriptor of an object is open, and no other object has it. *)
Definition fd_wf s : Prop :=
  (forall o fd, pw_fdobjs s !! o = Some fd -> 0 <= fd -> fd ∈ pw_fds s) /\
  (forall o o' fd, pw_fdobjs s !! o = Some fd -> pw_fdobjs s !! o' = Some fd -> 0 <= fd -> o = o').

(** Open, and of no object: other code's. *)
Definition foreign (fd : Z) s : Prop :=
  0 <= fd /\ fd ∈ pw_fds s /\ forall o, pw_fdobjs s !! o <> Some fd.

(** Every open descriptor is one of [base] or some object's. *)
Definition accounted (base : gset Z) s : Prop :=
  forall fd, fd ∈ pw_fds s -> fd ∈ base \/ exists o, pw_fdobjs s !! o = Some fd.

(** How a call may change the descriptors. *)
Inductive fd_effect s s' : Prop :=
| fe_same : pw_fds s' = pw_fds s -> pw_fdobjs s' = pw_fdobjs s -> fd_effect s s'
| fe_new o fd : 0 <= fd -> fd ∉ pw_fds s -> pw_fdobjs s !! o = None ->
    pw_fds s' = {[fd]} ∪ pw_fds s -> pw_fdobjs s' = <[o := fd]> (pw_fdobjs s) -> fd_effect s s'
| fe_close o fd : 0 <= fd -> pw_fdobjs s !! o = Some fd ->
    pw_fds s' = pw_fds s ∖ {[fd]} -> pw_fdobjs s' = <[o := -1]> (pw_fdobjs s) -> fd_effect s s'.

Definition fd_given_up s s' : Prop := exists o, pw_fds s' = pw_fds s /\
  (pw_fdobjs s' = pw_fdobjs s \/ pw_fdobjs s' = <[o := -1]> (pw_fdobjs s)).

(** What a new descriptor becomes. *)
Lemma object_or_close_effect s s1 fd r s' : 0 <= fd -> fd ∉ pw_fds s ->
  pw_fds s1 = {[fd]} ∪ pw_fds s -> pw_fdobjs s1 = pw_fdobjs s ->
  object_or_close fd s1 = Value r s' -> fd_effect s s'.
Proof.
  intros Hf Hn E1 E2. unfold object_or_close, jniCreateFileDescriptor, bind, gets, id, modify, ret.
  destruct (new_FileDescriptor s1) as [o|] eqn:Ho; intros H; simplify_eq/=.
  - apply (fe_new s _ o fd); [done|done| |done|]; simpl.
    + rewrite <- E2. by apply fd_object_fresh.
    + by rewrite E2.
  - apply fe_same; simpl; [|done]. rewrite E1. set_solver.
Qed.

Lemma value_bind {A B} (m : PM A) (f : A -> PM B) s s' b :
  bind m f s = Value b s' -> exists a s1, m s = Value a s1 /\ f a s1 = Value b s'.
Proof. unfold bind. destruct (m s) as [a s1| | |]; [eauto|done..]. Qed.

(** An exception changes no descriptor. *)
Lemma jni_effect {A} (m : JM A) s s' r : jni m s = Value r s' ->
  pw_fds s' = pw_fds s /\ pw_fdobjs s' = pw_fdobjs s.
Proof. unfold jni. destruct (m (pw_jni s)); [|done..]. by intros [= _ <-]. Qed.

Lemma throws_effect {A} (t : PM unit) (r x : option A) s s' : (exists m : JM unit, t = jni m) ->
  (t ;;; ret r) s = Value x s' -> fd_effect s s'.
Proof.
  intros [m ->] H. apply value_bind in H as (u & s1 & H1 & H2). injection H2 as _ <-.
  destruct (jni_effect m s s1 u H1). by apply fe_same.
Qed.

(** A descriptor made by [m], or minus [errno]. *)
Lemma fresh_effect s s' (fd : Z) r :
  (do! _ := (when (0 <=? fd) (modify (set_pw_fds ({[fd]} ∪ pw_fds s)))) in ret fd) s = Value r s' ->
  (0 <= fd -> fd ∉ pw_fds s) ->
  r = fd /\ pw_fdobjs s' = pw_fdobjs s /\
  (fd < 0 /\ pw_fds s' = pw_fds s \/ 0 <= fd /\ fd ∉ pw_fds s /\ pw_fds s' = {[fd]} ∪ pw_fds s).
Proof.
  intros H Hn. unfold bind, when, modify, ret in H. destruct (Z.leb_spec 0 fd); simplify_eq/=.
  - split; [done|]. split; [done|]. right. by split_and!; auto.
  - split; [done|]. split; [done|]. left. done.
Qed.

Lemma get_fd_inv o s s' fd : jniGetFDFromFileDescriptor (Some o) s = Value fd s' ->
  s' = s /\ pw_fdobjs s !! o = Some fd.
Proof.
  unfold jniGetFDFromFileDescriptor, bind, gets, id. destruct (pw_fdobjs s !! o); [|done].
  unfold ret. intros H. by simplify_eq.
Qed.

Lemma dup_inv fd s r s1 : dup fd s = Value r s1 ->
  pw_fdobjs s1 = pw_fdobjs s /\ (r < 0 /\ pw_fds s1 = pw_fds s \/
    0 <= r /\ r ∉ pw_fds s /\ pw_fds s1 = {[r]} ∪ pw_fds s).
Proof.
  intros H. by destruct (fresh_effect s s1 (os_dup fd s) r H (dup_fresh fd s)) as (-> & ? & ?).
Qed.

Lemma open_inv name f m s r s1 : open_fd name f m s = Value r s1 ->
  pw_fdobjs s1 = pw_fdobjs s /\ (r < 0 /\ pw_fds s1 = pw_fds s \/
    0 <= r /\ r ∉ pw_fds s /\ pw_fds s1 = {[r]} ∪ pw_fds s).
Proof.
  intros H. by destruct (fresh_effect s s1 (os_open name f m s) r H (open_fresh name f m s)) as (-> & ? & ?).
Qed.

Lemma same_effect s s1 s' : pw_fds s1 = pw_fds s -> pw_fdobjs s1 = pw_fdobjs s ->
  fd_effect s1 s' -> fd_effect s s'.
Proof.
  intros E1 E2 H. inversion H as [A B|o fd A B C D F|o fd A B C D]; rewrite E1, E2 in *.
  - by apply fe_same.
  - by apply (fe_new s s' o fd).
  - by apply (fe_close s s' o fd).
Qed.

Lemma opened_effect (r : Z) s s1 s' x (t : PM unit) : (exists m : JM unit, t = jni m) ->
  pw_fdobjs s1 = pw_fdobjs s -> (r < 0 /\ pw_fds s1 = pw_fds s \/
    0 <= r /\ r ∉ pw_fds s /\ pw_fds s1 = {[r]} ∪ pw_fds s) ->
  (if r <? 0 then t ;;; ret None else object_or_close r) s1 = Value x s' -> fd_effect s s'.
Proof.
  intros Ht Eo [[Hr Ef]|(Hr & Hn & Ef)]; destruct (Z.ltb_spec r 0); try lia.
  - intros Hs. eapply same_effect; [exact Ef|exact Eo|]. by eapply throws_effect.
  - by apply object_or_close_effect.
Qed.

Lemma run_fd_effect c s s' : gives_up c = false -> run_fd c s = Value tt s' -> fd_effect s s'.
Proof.
  destruct c as [name mode|orig|o|o]; intros G H; [..|done]; simpl in H.
  - apply value_bind in H as (x & s1 & H & [= <-]). destruct name as [name|]; simpl in H.
    2: { eapply throws_effect; [|exact H]. by eexists. }
    apply value_bind in H as (s0 & ? & [= <- <-] & H). unfold id in H.
    destruct (utf_chars name s) as [n8|].
    2: { eapply throws_effect; [|exact H]. by eexists. }
    apply value_bind in H as (fd & s2 & H1 & H2). apply open_inv in H1 as [H1 H3].
    eapply opened_effect; [|exact H1|exact H3|exact H2]. by eexists.
  - apply value_bind in H as (x & s1 & H & [= <-]). unfold android_os_Parcel_dupFileDescriptor in H.
    destruct orig as [o|]; cbv beta iota in H.
    2: { eapply throws_effect; [|exact H]. by eexists. }
    apply value_bind in H as (fd & s2 & H1 & H). apply (get_fd_inv o) in H1 as [-> Ho].
    destruct (fd <? 0). { eapply throws_effect; [|exact H]. by eexists. }
    apply value_bind in H as (fd' & s2 & H1 & H2). apply dup_inv in H1 as [H1 H3].
    eapply opened_effect; [|exact H1|exact H3|exact H2]. by eexists.
  - unfold android_os_Parcel_closeFileDescriptor in H. destruct o as [o|]; cbv beta iota in H.
    2: { destruct (jni_effect _ _ _ _ H). by apply fe_same. }
    apply value_bind in H as (fd & s2 & H1 & H). apply (get_fd_inv o) in H1 as [-> Ho].
    destruct (Z.leb_spec 0 fd).
    + unfold jniSetFileDescriptorOfFD, close, bind, modify in H. injection H as <-.
      by apply (fe_close s _ o fd).
    + injection H as <-. by apply fe_same.
Qed.

(** [clear] takes the descriptor from the object and leaves it open. *)
Lemma run_clear_effect o s s' : run_fd (FClear o) s = Value tt s' -> fd_given_up s s'.
Proof.
  cbn [run_fd]. unfold android_os_Parcel_clearFileDescriptor. intros H.
  destruct o as [o|]; cbv beta iota in H.
  2: { destruct (jni_effect _ _ _ _ H). exists 0. split; [done|by left]. }
  apply value_bind in H as (fd & s2 & H1 & H). apply (get_fd_inv o) in H1 as [-> Ho]. exists o.
  destruct (Z.leb_spec 0 fd); injection H as <-; (split; [done|]); [by right|by left].
Qed.

(** ** What the effects keep *)

Lemma effect_wf s s' : fd_wf s -> fd_effect s s' -> fd_wf s'.
Proof.
  intros [W1 W2] [E1 E2|o fd Hf Hn Ho E1 E2|o fd Hf Ho E1 E2]; unfold fd_wf; rewrite E1, E2; [done|..].
  - split.
    + intros o' fd'. rewrite lookup_insert_Some. intros [[<- <-]|[D H]] Hp; [set_solver|].
      specialize (W1 o' fd' H Hp). set_solver.
    + intros o1 o2 fd'. rewrite !lookup_insert_Some. intros [[<- <-]|[D1 H1]] [[<- E]|[D2 H2]] Hp; try done.
      * by destruct Hn; apply (W1 o2).
      * subst. by destruct Hn; apply (W1 o1).
      * by apply (W2 o1 o2 fd').
  - split.
    + intros o' fd'. rewrite lookup_insert_Some. intros [[<- <-]|[D H]] Hp; [lia|].
      specialize (W1 o' fd' H Hp). assert (fd' <> fd); [|set_solver].
      intros ->. apply D. by apply (W2 o o' fd).
    + intros o1 o2 fd'. rewrite !lookup_insert_Some. intros [[<- <-]|[D1 H1]] [[<- E]|[D2 H2]] Hp; try lia.
      by apply (W2 o1 o2 fd').
Qed.

Lemma given_up_wf s s' : fd_wf s -> fd_given_up s s' -> fd_wf s'.
Proof.
  intros [W1 W2] (o & E1 & [E2|E2]); unfold fd_wf; rewrite E1, E2; [done|]. split.
  - intros o' fd'. rewrite lookup_insert_Some. intros [[<- <-]|[D H]] Hp; [lia|by apply (W1 o')].
  - intros o1 o2 fd'. rewrite !lookup_insert_Some. intros [[<- <-]|[D1 H1]] [[<- E]|[D2 H2]] Hp; try lia.
    by apply (W2 o1 o2 fd').
Qed.

Lemma effect_foreign fd s s' : foreign fd s -> fd_effect s s' -> foreign fd s'.
Proof.
  intros (H0 & H1 & H2) [E1 E2|o fd' Hf Hn Ho E1 E2|o fd' Hf Ho E1 E2]; unfold foreign; rewrite E1, E2;
    [done|..]; (split; [done|]).
  - split; [set_solver|]. intros o'. rewrite lookup_insert_Some. intros [[_ ->]|[_ H]]; [done|by apply (H2 o')].
  - split; [|intros o'; rewrite lookup_insert_Some; intros [[_ ?]|[_ H]]; [lia|by apply (H2 o')]].
    assert (fd <> fd'); [|set_solver]. intros ->. by apply (H2 o).
Qed.

Lemma given_up_foreign fd s s' : foreign fd s -> fd_given_up s s' -> foreign fd s'.
Proof.
  intros (H0 & H1 & H2) (o & E1 & [E2|E2]); unfold foreign; rewrite E1, E2; [done|].
  split; [done|]. split; [done|]. intros o'. rewrite lookup_insert_Some.
  intros [[_ ?]|[_ H]]; [lia|by apply (H2 o')].
Qed.

Lemma effect_accounted base s s' : accounted base s -> fd_effect s s' -> accounted base s'.
Proof.
  intros A [E1 E2|o fd Hf Hn Ho E1 E2|o fd Hf Ho E1 E2]; unfold accounted; rewrite E1, E2; [done|..];
    intros fd' H.
  - apply elem_of_union in H as [->%elem_of_singleton|H].
    + right. exists o. apply lookup_insert_eq.
    + destruct (A fd' H) as [?|[o' Ho']]; [by left|right]. exists o'.
      rewrite lookup_insert_ne; [done|]. intros ->. congruence.
  - apply elem_of_difference in H as [H D]. destruct (A fd' H) as [?|[o' Ho']]; [by left|right].
    exists o'. rewrite lookup_insert_ne; [done|]. intros ->. rewrite Ho in Ho'.
    apply D. injection Ho' as <-. by apply elem_of_singleton.
Qed.

(** C35: opening, duplicating, closing and giving up descriptors in any order: an open
    descriptor is never in two objects, descriptors of other code stay open, and
    when none is given up each one that was opened is still some object's, so that
    none is lost. *)
Theorem file_descriptors_owned cs s s' : fd_wf s -> run_fds cs s = Value tt s' ->
  fd_wf s' /\ (forall fd, foreign fd s -> foreign fd s') /\
  (Forall (fun c => gives_up c = false) cs -> forall base, accounted base s -> accounted base s').
Proof.
  revert s. induction cs as [|c cs IH]; intros s W H.
  { injection H as <-. done. }
  apply value_bind in H as ([] & s1 & H1 & H2).
  destruct (gives_up c) eqn:G.
  - destruct c; try done. apply run_clear_effect in H1.
    destruct (IH s1 (given_up_wf _ _ W H1) H2) as (W' & F & _). split; [done|]. split.
    + intros fd Hf. apply F. by eapply given_up_foreign.
    + by intros [? _]%Forall_cons.
  - apply run_fd_effect in H1; [|done].
    destruct (IH s1 (effect_wf _ _ W H1) H2) as (W' & F & A). split; [done|]. split.
    + intros fd Hf. apply F. by eapply effect_foreign.
    + intros [_ Hcs]%Forall_cons base Hb. apply (A Hcs). by eapply effect_accounted.
Qed.

(** [readFileDescriptor] duplicates the parcel's descriptor; when there is no memory
    for an object the duplicate stays open and nobody has it. *)
Theorem readFileDescriptor_leaks `{PMs : !ParcelMethods} s a p :
  let fd := (pm_readFileDescriptor p).1 in
  let s1 := with_parcel a (pm_readFileDescriptor p).2 s in
  let new := os_dup fd s1 in
  parcel_is s a p -> a <> 0 -> 0 <= fd -> 0 <= new -> fd_wf s ->
  new_FileDescriptor (set_pw_fds ({[new]} ∪ pw_fds s1) s1) = None ->
  exists s', android_os_Parcel_readFileDescriptor a s = Value None s' /\
    foreign new s' /\ new ∉ pw_fds s.
Proof.
  intros fd s1 new Hp Ha Hfd Hnew [W1 _] Ho. unfold android_os_Parcel_readFileDescriptor.
  rewrite (proj2 (Z.eqb_neq _ _) Ha). cbn [negb]. unfold bind at 1. rewrite (on_run s a p _ Hp).
  fold fd s1. rewrite (proj2 (Z.ltb_ge _ _) Hfd).
  assert (new ∉ pw_fds s) as Hn by (by apply (dup_fresh fd s1)).
  unfold dup, bind, gets, id, when. fold new. rewrite (proj2 (Z.leb_le _ _) Hnew). cbn [modify ret].
  unfold jniCreateFileDescriptor, bind, gets, id.
  rewrite (proj2 (Z.ltb_ge _ _) Hnew). cbv beta iota. rewrite Ho. eexists. split; [done|]. split; [|done]. split; [done|].
  split; simpl; [set_solver|]. intros o H. by destruct Hn; apply (W1 o).
Qed.

End Fds.
