(* ===== verification/JniParcelSafe.v ===== *)
(** * JniParcelSafe: the natives of android.os.Parcel are type safe

    Every native method of [JniParcel], called with what the Java compiler gives it,
    follows no bad pointer, ends every critical section it begins, keeps Java and
    native objects in agreement ([JniInv]) and every descriptor in one object
    ([JniFdThms]); the calls of which that is false are [overruns], and they crash. *)

From S2P Require Import Prelude Uapi Parcel CppWorld ProcessState IpcCore BpBinder Proxy CppThms RefBase JniWorld JniBinder JniInv JniOps JniMeths JniProxies JniNatives JniCalls NativeProxy JniThms JniParcel JniParcelOps JniParcelThms JniFdThms.

#[local] Open Scope Z_scope.

Section Inv.
Context `{PL : ParcelLib} `{RB : RefBase}.
Context `{NB : !NativeBinder} `{NL : !NativeLaws} (St : statics).

Implicit Types (j : jni_state) (pins : list Z).

#[local] Notation inv := (inv St).

(** Parcels are added and change. *)
Definition with_parcels (ps : gmap Z parcel) (n : Z) j : jni_state := set_j_parcels ps (set_j_next n j).

Lemma inv_with_parcels pins j ps n : inv pins j -> j_next j <= n ->
  (forall a, is_Some (j_parcels j !! a) -> is_Some (ps !! a)) ->
  inv pins (with_parcels ps n j) /\ evolves j (with_parcels ps n j).
Proof.
  intros [own W] Hn Hp. assert (evolves j (with_parcels ps n j)) as Ev.
  { destruct (evolves_refl j ltac:(by eapply wf_apart)) as [N1 K1 B1 G1 H1]. by split. }
  split; [|done]. exists own. destruct W. split; simpl; try done.
  - lia.
  - intros o x Ho. specialize (wf_heap_range o x Ho). lia.
  - intros a y Ha. destruct (wf_native_range a y Ha). split; [lia|done].
  - intros b Hb. specialize (wf_nb_range b Hb). lia.
  - intros g o Hg. specialize (wf_own_range g o Hg). lia.
  - intros a y Ha. apply (native_ok_mono own own j _ a y); [done|by intros g ow|..|by apply wf_native].
    intros l r g gw _ _ Hr'. by eexists.
  - intros o y Ho. apply (obj_ok_mono j _ o y); [done|done|by intros; eexists|done|done|by eapply wf_heap].
Qed.

Lemma inv_parcel pins j a p : inv pins j -> is_Some (j_parcels j !! a) ->
  inv pins (set_j_parcels (<[a := p]> (j_parcels j)) j) /\
  evolves j (set_j_parcels (<[a := p]> (j_parcels j)) j).
Proof.
  intros I [q Hq].
  assert (set_j_parcels (<[a := p]> (j_parcels j)) j =
    with_parcels (<[a := p]> (j_parcels j)) (j_next j) j) as -> by (by destruct j).
  apply inv_with_parcels; [done|lia|]. intros b [r Hr]. destruct (decide (b = a)) as [->|D].
  - rewrite lookup_insert_eq. by eexists.
  - rewrite lookup_insert_ne by done. by eexists.
Qed.

(** The objects that have the pointer [a] forget it: what Parcel.java does when
    [nativeDestroy] has returned. *)
Definition forget_object (a : Z) (x : jobj) : jobj :=
  match x with JParcel p => if p =? a then JParcel 0 else x | _ => x end.
Definition forget (a : Z) j : jni_state := set_j_heap (forget_object a <$> j_heap j) j.

Lemma forget_object_same a x : same_class x (forget_object a x).
Proof. destruct x as [| | |p|]; simpl; try done. by destruct (p =? a). Qed.

Lemma forget_lookup a j o x : (forget_object a <$> j_heap j) !! o = Some x ->
  exists y, j_heap j !! o = Some y /\ x = forget_object a y.
Proof. rewrite lookup_fmap. intros (y & Hy & ->)%fmap_Some. by exists y. Qed.

Lemma forget_kept a j o x : j_heap j !! o = Some x -> forget_object a x = x ->
  j_heap (forget a j) !! o = Some x.
Proof. simpl. rewrite lookup_fmap. intros -> H. simpl. by rewrite H. Qed.

Lemma forget_evolves a ps j : apart j -> evolves j (forget a (set_j_parcels ps j)).
Proof.
  intros A. pose proof (evolves_refl j A) as [N1 K1 B1 G1 H1]. split; simpl; try done.
  intros o x Ho. exists (forget_object a x). rewrite lookup_fmap, Ho. split; [done|apply forget_object_same].
Qed.

Lemma owners_forget a ps j b : owners (forget a (set_j_parcels ps j)) b = owners j b.
Proof.
  unfold owners. simpl. f_equal. apply count_map_same. rewrite <- map_fmap_compose.
  apply map_fmap_ext. intros o x _. destruct x as [| | |p|]; simpl; try done. by destruct (p =? a).
Qed.

(** The other parcels are still there. *)
Lemma inv_forget pins j a ps : inv pins j ->
  (forall b, b <> a -> is_Some (j_parcels j !! b) -> is_Some (ps !! b)) ->
  inv pins (forget a (set_j_parcels ps j)).
Proof.
  intros [own W] Hp. pose proof (forget_evolves a ps j ltac:(by eapply wf_apart)) as Ev.
  exists own. destruct W. split; simpl; try done.
  - intros o x (y & Hy & _)%forget_lookup. by apply (wf_heap_range o y).
  - intros b Hb. rewrite owners_forget. by apply wf_counts.
  - intros b y Hb. apply (native_ok_mono own own j _ b y); [done|by intros g ow|..|by apply wf_native].
    intros l r g gw _ _ Hr'. by eexists.
  - intros o x (y & Hy & ->)%forget_lookup. pose proof (wf_heap o y Hy) as Ho.
    destruct y as [h|b d r|r|p|c]; simpl in *; try done.
    destruct (Z.eqb_spec p a) as [|D]; simpl; [by left|]. destruct Ho as [?|Ho]; [by left|right].
    by apply Hp.
  - intros o o' h (y & Hy & E1)%forget_lookup (y' & Hy' & E2)%forget_lookup.
    assert (forall x, JBinder h = forget_object a x -> x = JBinder h) as Hb.
    { intros [| | |p|]; simpl; try congruence. by destruct (p =? a). }
    apply Hb in E1 as ->. apply Hb in E2 as ->. by apply (wf_holders o o' h).
  - intros b i e Hb He. pose proof (wf_entries b i e Hb He) as Hok. unfold entry_ok in *.
    case_decide; [|done]. destruct Hok as (H1 & H2 & H3 & w & ref & Hw & Hh & Hr).
    split; [done|]. split; [done|]. split; [done|]. exists w, ref. split; [done|].
    split; [by apply forget_kept|]. intros q Hq. destruct (Hr q Hq) as (d & r & Hd). exists d, r.
    by apply forget_kept.
Qed.

Lemma pinned_app qs pins a : pinned (qs ++ pins) a = pinned qs a + pinned pins a.
Proof. induction qs as [|q qs IH]; simpl; [done|]. destruct (a =? q); lia. Qed.

Lemma inv_app_mid pins qs b j : inv (qs ++ b :: pins) j -> inv (b :: qs ++ pins) j.
Proof.
  intros I. eapply inv_pins; [exact I|clear I]. intros a. induction qs as [|q qs IH]; simpl in *; [lia|].
  revert IH. destruct (a =? q), (a =? b); lia.
Qed.

End Inv.

(** ** What is relied on *)

Section Laws.
Context `{PL : ParcelLib} `{RB : RefBase}.
Context `{NB : !NativeBinder} `{NL : !NativeLaws} (St : statics).

Implicit Types (s : parcel_world) (j : jni_state) (pins qs : list Z).

#[local] Notation inv := (inv St).

(** Objects agree, and descriptors have one owner. *)
Definition safe pins s : Prop := inv pins (pw_jni s) /\ fd_wf s.

(** From [s] to [s'] [d] critical sections are opened, the references to [pins] are
    kept, and [qs] more. *)
Record keeps (d : Z) (qs pins : list Z) s s' : Prop := {
  k_safe : safe (qs ++ pins) s';
  k_critical : pw_critical s' = pw_critical s + d;
  k_evolves : evolves (pw_jni s) (pw_jni s')
}.

(** What a method of a parcel does beside: its parcels are still there. *)
Definition parcels_stay s s' : Prop :=
  forall a, is_Some (j_parcels (pw_jni s) !! a) -> is_Some (j_parcels (pw_jni s') !! a).

(** A parcel has a strong reference to each binder in it; [pm_binders] are those of
    one.  Reading and appending take references, [freeData] and the destructor give
    them up. *)
Class ParcelOwns `{PMs : !ParcelMethods} `{PJ : !ParcelJava} := {
  pm_binders : parcel -> list Z;
  write_binder_law a b pins j : inv pins j -> is_Some (j_parcels j !! a) ->
    b = 0 \/ is_binder j b /\ b ∈ pins ->
    runs (pm_writeStrongBinder a b) j (fun _ j' => evolves j j' /\ exists qs, inv (qs ++ pins) j');
  read_binder_law a pins j : inv pins j -> is_Some (j_parcels j !! a) ->
    runs (pm_readStrongBinder a) j (fun b j' => evolves j j' /\
      (b = 0 /\ inv pins j' \/ is_binder j' b /\ inv (b :: pins) j'));
  enforce_law a str pins j : inv pins j -> is_Some (j_parcels j !! a) ->
    runs (pm_enforceInterface a str) j (fun _ j' => inv pins j' /\ evolves j j');
  dup_fd_law a fd pins s : safe pins s -> is_Some (j_parcels (pw_jni s) !! a) ->
    runs (pm_writeDupFileDescriptor a fd) s (fun _ s' => keeps 0 [] pins s s' /\ parcels_stay s s');
  append_law a b off n pins s : safe pins s -> is_Some (j_parcels (pw_jni s) !! a) ->
    is_Some (j_parcels (pw_jni s) !! b) ->
    runs (pm_appendFrom a b off n) s (fun _ s' => (exists qs, keeps 0 qs pins s s') /\ parcels_stay s s');
  free_law a p pins s : safe (pm_binders p ++ pins) s -> j_parcels (pw_jni s) !! a = Some p ->
    runs (pm_freeData a) s (fun _ s' => keeps 0 [] pins s s' /\ parcels_stay s s');
  release_law a p pins s : safe (pm_binders p ++ pins) s -> j_parcels (pw_jni s) !! a = Some p ->
    runs (pm_release a) s (fun _ s' => keeps 0 [] pins s s' /\ parcels_stay s s');
  obtain_law : calls_out St Parcel_obtain;
  recycle_law o : calls_out St (Parcel_recycle o)
}.

End Laws.

(** ** Rules *)

Section Rules.
Context `{PL : ParcelLib} `{RB : RefBase} `{U : BinderUapi}.
Context `{NB : !NativeBinder} `{NL : !NativeLaws}.
Context (E : cpp_env) (JE : jni_errors) (St : statics) (Sys : system) (garbage : Z).
Context `{JS : !JavaSide} `{SM : !Sampling} `{JL : !JavaLaws St}.
Context `{PMs : !ParcelMethods} `{PJ : !ParcelJava} `{PB : !ParcelBytes} `{FL : !FdLaws}.
Context `{PO : !ParcelOwns St}.

Implicit Types (s : parcel_world) (j : jni_state) (pins qs : list Z).

#[local] Notation inv := (inv St).
#[local] Notation safe := (safe St).
#[local] Notation keeps := (keeps St).

Definition has s (a : Z) : Prop := is_Some (j_parcels (pw_jni s) !! a).

(** On the way: from [s0] to [s] with [d] critical sections open. *)
Definition going pins s0 (d : Z) s : Prop := keeps d [] pins s0 s /\ parcels_stay s0 s.

Lemma going_refl pins s : safe pins s -> going pins s 0 s.
Proof.
  intros [I F]. split; [|by intros a]. split; [done|lia|by eapply (inv_evolves (St := St))].
Qed.

Lemma going_has pins s0 d s a : going pins s0 d s -> has s0 a -> has s a.
Proof. intros [_ H] Ha. by apply H. Qed.

(** The state of the layer below changes. *)
Lemma going_jni pins s0 d s j : going pins s0 d s -> inv pins (pw_jni s0) ->
  inv pins j -> evolves (pw_jni s) j ->
  (forall a, is_Some (j_parcels (pw_jni s) !! a) -> is_Some (j_parcels j !! a)) ->
  going pins s0 d (set_pw_jni j s).
Proof.
  intros [[[I F] C Ev] P] I0 Ij Ej Pj. split; [|intros a Ha; by apply Pj, P].
  split; [by split|done|by eapply (ev_step (St := St))].
Qed.

Lemma going_parcel pins s0 d s a p : going pins s0 d s -> inv pins (pw_jni s0) -> has s a ->
  going pins s0 d (with_parcel a p s).
Proof.
  intros G I0 Ha. pose proof G as [[[I _] _ _] _]. destruct (inv_parcel St pins (pw_jni s) a p I Ha).
  apply going_jni; [done..|]. intros b Hb. simpl. destruct (decide (b = a)) as [->|D].
  - rewrite lookup_insert_eq. by eexists.
  - by rewrite lookup_insert_ne.
Qed.

Lemma going_exception pins s0 d s t : going pins s0 d s -> inv pins (pw_jni s0) ->
  going pins s0 d (with_exception t s).
Proof.
  intros G I0. pose proof G as [[[I _] _ _] _].
  destruct (inv_pending (St := St) pins (pw_jni s) (Some t) I). by apply going_jni.
Qed.

Lemma going_critical pins s0 d e s : going pins s0 d s ->
  going pins s0 (d + e) (set_pw_critical (pw_critical s + e) s).
Proof. intros [[S C Ev] P]. split; [|done]. split; [done|simpl; lia|done]. Qed.

Definition done_with pins s0 (s' : parcel_world) : Prop := exists qs, keeps 0 qs pins s0 s'.

Lemma going_done pins s0 s : going pins s0 0 s -> done_with pins s0 s.
Proof. intros [K _]. by exists []. Qed.

(** *** The steps *)

Section Steps.
Context (pins : list Z) (s0 : parcel_world) (I0 : inv pins (pw_jni s0)).

Implicit Types (a d : Z).

#[local] Notation going := (going pins s0).

Lemma r_on {A} d s a (f : parcel -> A * parcel) Q : going d s -> has s0 a ->
  (forall p s', going d s' -> Q (f p).1 s') -> runs (on a f) s Q.
Proof.
  intros G Ha K. pose proof (going_has _ _ _ _ _ G Ha) as [p Hp].
  eapply runs_value; [by apply (on_run s a p)|]. apply K, going_parcel; [done|done|by eexists].
Qed.

Lemma r_update d s a f Q : going d s -> has s0 a ->
  (forall s', going d s' -> Q tt s') -> runs (update a f) s Q.
Proof.
  intros G Ha K. pose proof (going_has _ _ _ _ _ G Ha) as [p Hp].
  eapply runs_value; [by apply (update_run s a p)|]. apply K, going_parcel; [done|done|by eexists].
Qed.

Lemma r_parcel d s a Q : going d s -> has s0 a -> (forall p, parcel_is s a p -> Q p s) ->
  runs (parcel_of a) s Q.
Proof.
  intros G Ha K. pose proof (going_has _ _ _ _ _ G Ha) as [p Hp].
  eapply runs_value; [by apply (parcel_of_run s a p)|]. by apply K.
Qed.

Lemma r_ask {A} d s a (f : parcel -> A) Q : going d s -> has s0 a ->
  (forall p, Q (f p) s) -> runs (ask a f) s Q.
Proof.
  intros G Ha K. pose proof (going_has _ _ _ _ _ G Ha) as [p Hp].
  eapply runs_value; [by apply (ask_run s a p)|]. by apply K.
Qed.

Lemma r_throw d s cls msg Q : going d s -> (forall s', going d s' -> Q tt s') ->
  runs (throw cls msg) s Q.
Proof. intros G K. by apply K, going_exception. Qed.

Lemma r_signal d s err Q : going d s -> (forall s', going d s' -> Q tt s') ->
  runs (signal E JE err) s Q.
Proof. intros G K. by apply K, going_exception. Qed.

Lemma r_signal_if d s err Q : going d s -> (forall s', going d s' -> Q tt s') ->
  runs (signal_if E JE err) s Q.
Proof. intros G K. unfold signal_if. destruct (negb _); [by eapply r_signal|by apply K]. Qed.

Lemma r_get_critical {A} d s (x : A) Q : going d s ->
  (forall s', going (d + 1) s' -> pw_jni s' = pw_jni s -> Q (Some x) s') -> Q None s ->
  runs (GetCritical (Some x)) s Q.
Proof.
  intros G K1 K2. unfold GetCritical, runs, bind, gets, id. destruct (get_critical s); [|done].
  apply K1; [by apply going_critical|done].
Qed.

Lemma r_release d s Q : going (d + 1) s -> (forall s', going d s' -> Q tt s') ->
  runs ReleaseCritical s Q.
Proof.
  intros G K. apply K. pose proof (going_critical _ _ _ (-1) _ G) as H.
  by replace (d + 1 + -1) with d in H by lia.
Qed.

Lemma r_new_array d s n Q : going d s -> 0 <= n ->
  Q (Some (replicate (Z.to_nat n) 0)) s -> (forall s', going d s' -> Q None s') ->
  runs (NewByteArray n) s Q.
Proof.
  intros G Hn K1 K2. unfold NewByteArray, runs, bind, gets, id.
  rewrite (proj2 (Z.ltb_ge _ _) Hn). destruct (new_array n s); [done|].
  by apply K2, going_exception.
Qed.

Lemma r_memcpy s ar off n Q : 0 <= off -> 0 <= n -> off + n <= Z.of_nat (length ar) ->
  Q (slice ar off n) s -> runs (memcpy_from ar off n) s Q.
Proof. intros H1 H2 H3 K. eapply runs_value; [by apply memcpy_from_run|done]. Qed.

End Steps.

(** *** The methods *)

(** The pointer Java keeps: 0, or a parcel. *)
Definition ptr s (a : Z) : Prop := a = 0 \/ has s a.

#[local] Hint Resolve going_refl going_done : core.

(** Nothing without a parcel. *)
Lemma no_parcel {A} pins s (x : A) : safe pins s -> runs (ret x) s (fun _ s' => done_with pins s s').
Proof. intros S. by apply (going_done _ _ _ (going_refl pins s S)). Qed.

Lemma ptr_cases {A} pins s a (m : PM A) (x : A) : safe pins s -> ptr s a ->
  (has s a -> runs m s (fun _ s' => done_with pins s s')) ->
  runs (if negb (a =? 0) then m else ret x) s (fun _ s' => done_with pins s s') /\
  runs (if a =? 0 then ret x else m) s (fun _ s' => done_with pins s s').
Proof.
  intros S P H. destruct (Z.eqb_spec a 0) as [->|D]; cbn [negb].
  - split; by apply no_parcel.
  - destruct P as [?|P]; [done|]. split; by apply H.
Qed.

Lemma ask_safe {A} pins s a (f : parcel -> A) (x : A) : safe pins s -> ptr s a ->
  runs (if negb (a =? 0) then ask a f else ret x) s (fun _ s' => done_with pins s s').
Proof.
  intros S P. eapply ptr_cases; [done|done|]. intros Ha.
  eapply r_ask; [by apply going_refl|done|eauto].
Qed.

Lemma on_safe {A} pins s a (f : parcel -> A * parcel) (x : A) : safe pins s -> ptr s a ->
  runs (if negb (a =? 0) then on a f else ret x) s (fun _ s' => done_with pins s s').
Proof.
  intros S P. eapply ptr_cases; [done|done|]. intros Ha.
  eapply r_on; [apply S|by apply going_refl|done|eauto].
Qed.

Lemma update_safe pins s a f : safe pins s -> ptr s a ->
  runs (if negb (a =? 0) then update a f else ret tt) s (fun _ s' => done_with pins s s').
Proof.
  intros S P. eapply ptr_cases; [done|done|]. intros Ha.
  eapply r_update; [apply S|by apply going_refl|done|eauto].
Qed.

Lemma status_safe pins s a f : safe pins s -> ptr s a ->
  runs (if negb (a =? 0) then do! err := on a f in signal_if E JE err else ret tt) s
    (fun _ s' => done_with pins s s').
Proof.
  intros S P. eapply ptr_cases; [done|done|]. intros Ha. apply runs_bind.
  eapply r_on; [apply S|by apply going_refl|done|]. intros p s1 G1.
  eapply r_signal_if; [apply S|done|eauto].
Qed.

Lemma setDataSize_safe pins s a n : safe pins s -> ptr s a ->
  runs (android_os_Parcel_setDataSize E JE a n) s (fun _ s' => done_with pins s s').
Proof.
  intros S P. eapply ptr_cases; [done|done|]. intros Ha. apply runs_bind.
  eapply r_on; [apply S|by apply going_refl|done|]. intros p s1 G1. apply runs_bind.
  eapply r_signal_if; [apply S|done|]. intros s2 G2.
  eapply r_ask; [done|done|eauto].
Qed.

(** Goes through the steps that need no argument. *)
Ltac pstep :=
  lazymatch goal with
  | |- runs (ret ?a) ?w ?Q => change (Q a w); cbv beta
  | |- runs (bind _ _) _ _ => apply runs_bind
  | |- runs (on _ _) _ _ =>
      eapply r_on; [eassumption|eassumption|eassumption|cbv beta; intros ? ? ?]
  | |- runs (update _ _) _ _ =>
      eapply r_update; [eassumption|eassumption|eassumption|cbv beta; intros ? ?]
  | |- runs (ask _ _) _ _ => eapply r_ask; [eassumption|eassumption|cbv beta; intros ?]
  | |- runs (parcel_of _) _ _ => eapply r_parcel; [eassumption|eassumption|cbv beta; intros ? ?]
  | |- runs (throw _ _) _ _ => eapply r_throw; [eassumption|eassumption|cbv beta; intros ? ?]
  | |- runs (signal _ _ _) _ _ => eapply r_signal; [eassumption|eassumption|cbv beta; intros ? ?]
  | |- runs (signal_if _ _ _) _ _ =>
      eapply r_signal_if; [eassumption|eassumption|cbv beta; intros ? ?]
  | |- runs (GetCritical (Some _)) _ _ =>
      eapply r_get_critical; [eassumption|cbv beta; intros ? ? _|cbv beta]
  | |- runs ReleaseCritical _ _ => eapply r_release; [eassumption|cbv beta; intros ? ?]
  | |- runs (memcpy_from _ _ _) _ _ => eapply r_memcpy; [eassumption|eassumption|eassumption|cbv beta]
  | |- runs (if ?c then _ else _) _ _ => let D := fresh "D" in destruct c eqn:D
  | |- runs match ?x with Some _ => _ | None => _ end _ _ => destruct x
  | |- runs (let '(_, _) := ?x in _) _ _ => destruct x
  | |- done_with _ _ _ => solve [eapply going_done; eassumption]
  end.
Ltac psteps := repeat pstep.

(** The beginning of a method that has a parcel. *)
Ltac parcel_begin S P :=
  let Ha := fresh "Ha" in eapply ptr_cases; [exact S|exact P|]; intros Ha;
  let I := fresh "I" in let G := fresh "G" in
  pose proof (proj1 S) as I; pose proof (going_refl _ _ S) as G.

(** A range that is not in the array: the types do not exclude it. *)
Definition outside (ar : list Z) (off n : Z) : Prop :=
  n <> 0 /\ ~ (0 <= off /\ 0 <= n /\ off + n <= Z.of_nat (length ar)).

Lemma memcpy_inside s ar off n Q : ~ outside ar off n ->
  Q (slice ar off n) s -> runs (memcpy_from ar off n) s Q.
Proof.
  intros H K. unfold memcpy_from. destruct (Z.eqb_spec n 0) as [->|D]; [done|].
  assert (0 <= off /\ 0 <= n /\ off + n <= Z.of_nat (length ar)) as (H1 & H2 & H3)
    by (destruct (decide (0 <= off /\ 0 <= n /\ off + n <= Z.of_nat (length ar))) as [?|N];
        [done|by destruct H]).
  by rewrite (proj2 (Z.leb_le _ _) H1), (proj2 (Z.leb_le _ _) H2), (proj2 (Z.leb_le _ _) H3).
Qed.

Lemma memcpy_outside s ar off n : outside ar off n -> memcpy_from ar off n s = Crash 0.
Proof.
  intros [D N]. unfold memcpy_from. rewrite (proj2 (Z.eqb_neq _ _) D).
  destruct (Z.leb_spec 0 off), (Z.leb_spec 0 n), (Z.leb_spec (off + n) (Z.of_nat (length ar)));
    try done. by destruct N.
Qed.

(** A step on the parcel [p] itself. *)
Lemma r_on_at {A} pins s0 d s a p (f : parcel -> A * parcel) Q : inv pins (pw_jni s0) ->
  going pins s0 d s -> parcel_is s a p ->
  (going pins s0 d (with_parcel a (f p).2 s) -> has (with_parcel a (f p).2 s) a ->
   Q (f p).1 (with_parcel a (f p).2 s)) -> runs (on a f) s Q.
Proof.
  intros I G Hp K. eapply runs_value; [by apply (on_run s a p)|].
  apply K; [apply going_parcel; [done|done|by eexists]|]. eexists. apply parcel_is_with.
Qed.

(** What [writeNative] does with the parcel [p] before it copies. *)
Definition native_room (n : Z) (p : parcel) : Prop :=
  (pm_writeInt32 n p).1 = NO_ERROR /\ is_Some (pm_writeInplace (u64 n) (pm_writeInt32 n p).2).1.

Lemma writeNative_safe pins s a data off n : safe pins s -> ptr s a ->
  (forall p ar, parcel_is s a p -> data = Some ar -> native_room n p -> ~ outside ar off n) ->
  runs (android_os_Parcel_writeNative E JE a data off n) s (fun _ s' => done_with pins s s').
Proof.
  intros S P H. unfold android_os_Parcel_writeNative. parcel_begin S P.
  pose proof Ha as [p Hp]. pstep. eapply r_on_at; [done|done|done|]. intros G1 _.
  destruct (Z.eqb_spec (pm_writeInt32 n p).1 NO_ERROR) as [E1|]; cbn [negb]; [|psteps].
  pstep. eapply r_on_at; [done|done|by apply parcel_is_with|]. intros G2 _.
  destruct (pm_writeInplace (u64 n) (pm_writeInt32 n p).2).1 as [dest|] eqn:E2; [|psteps].
  destruct data as [ar|]; [|psteps; done]. pstep. pstep; [|psteps]. pstep.
  apply memcpy_inside; [|psteps]. apply (H p ar); [done|done|]. split; [done|by rewrite E2].
Qed.

Lemma fill_blob_safe pins s0 d s a b bytes Q : inv pins (pw_jni s0) -> going pins s0 d s -> has s0 a ->
  (forall s', going pins s0 d s' -> Q tt s') -> is_Some b -> runs (fill_blob a b bytes) s Q.
Proof. intros I G Ha K [x ->]. unfold fill_blob. psteps. by apply K. Qed.

(** The same of [writeBlob]. *)
Definition blob_room (n : Z) (p : parcel) : Prop :=
  (pm_writeInt32 n p).1 = NO_ERROR /\
  (pm_writeBlob (u64 n) false (pm_writeInt32 n p).2).1.1 = NO_ERROR.

Lemma writeBlob_safe pins s a data off n : safe pins s -> ptr s a ->
  (forall p ar, parcel_is s a p -> data = Some ar -> blob_room n p -> ~ outside ar off n) ->
  runs (android_os_Parcel_writeBlob E JE a data off n) s (fun _ s' => done_with pins s s').
Proof.
  intros S P H. unfold android_os_Parcel_writeBlob. parcel_begin S P. destruct data as [ar|]; [|psteps].
  pose proof Ha as [p Hp]. pstep. eapply r_on_at; [done|done|done|]. intros G1 _.
  destruct (Z.eqb_spec (pm_writeInt32 n p).1 NO_ERROR) as [E1|]; cbn [negb]; [|psteps].
  pstep. eapply r_on_at; [done|done|by apply parcel_is_with|]. intros G2 _.
  pose proof (pb_writeBlob (u64 n) false (pm_writeInt32 n p).2) as Hb.
  destruct (pm_writeBlob (u64 n) false (pm_writeInt32 n p).2) as [[err b] q] eqn:E2. cbn [fst snd] in *.
  destruct (Z.eqb_spec err NO_ERROR) as [->|]; cbn [negb]; [|psteps]. specialize (Hb eq_refl).
  assert (~ outside ar off n) as Hin
    by (apply (H p ar); [done|done|]; split; [done|by rewrite E2]).
  pstep. pstep.
  - pstep. apply memcpy_inside; [done|]. pstep. eapply fill_blob_safe; [done|done|done| |done]. intros. psteps.
  - pstep. apply memcpy_inside; [|eapply fill_blob_safe; [done|done|done| |done]; intros; psteps].
    intros [D N]. apply Hin. split; [done|]. intros (? & ? & ?). apply N. rewrite length_replicate. lia.
Qed.

Lemma writeString_safe pins s a val : safe pins s -> ptr s a ->
  runs (android_os_Parcel_writeString E JE a val) s (fun _ s' => done_with pins s s').
Proof. intros S P. unfold android_os_Parcel_writeString. parcel_begin S P. destruct val; psteps. Qed.

Lemma writeInterfaceToken_safe pins s a name : safe pins s -> ptr s a ->
  runs (android_os_Parcel_writeInterfaceToken a name) s (fun _ s' => done_with pins s s').
Proof.
  intros S P. unfold android_os_Parcel_writeInterfaceToken. parcel_begin S P.
  destruct name as [name|]; psteps. done.
Qed.

(** Code that leaves the parcels alone; of other code only the collector runs in
    [ibinderForJavaObject]. *)
Definition parcels_same {A} (m : JM A) : Prop :=
  forall j x j', m j = Value x j' -> j_parcels j' = j_parcels j.

Lemma ps_bind {A B} (m : JM A) (f : A -> JM B) :
  parcels_same m -> (forall x, parcels_same (f x)) -> parcels_same (bind m f).
Proof.
  intros Hm Hf j x j'. unfold bind. destruct (m j) as [y j1| | |] eqn:E1; [|done..].
  intros H. rewrite (Hf _ _ _ _ H). by eapply Hm.
Qed.
Lemma ps_ret {A} (x : A) : parcels_same (ret x).
Proof. by intros j y j' [= _ <-]. Qed.
Lemma ps_crash {A} l : parcels_same (crash l : JM A).
Proof. by intros j y j' H. Qed.
Lemma ps_gets {A} (f : jni_state -> A) : parcels_same (gets f).
Proof. by intros j y j' [= _ <-]. Qed.
Lemma ps_modify f : (forall j, j_parcels (f j) = j_parcels j) -> parcels_same (modify f).
Proof. unfold modify. intros H j y j' E1. simplify_eq. apply H. Qed.
Lemma ps_lookup {A} k (m : gmap Z A) : parcels_same (lookup_or_crash k m).
Proof. intros j y j'. unfold lookup_or_crash. destruct (m !! k); [by intros [= _ <-]|done]. Qed.
Lemma ps_gc : parcels_same force_gc.
Proof.
  intros j [] j' H. pose proof (gc_law St j) as R. unfold runs in R. rewrite H in R.
  destruct R as [-> _ _]. done.
Qed.

Lemma ibinder_parcels o : parcels_same (ibinderForJavaObject o).
Proof.
  assert (parcels_same (bad : JM Z)) by apply ps_crash.
  destruct o as [o|]; [|apply ps_ret].
  unfold ibinderForJavaObject, heap_object, Holder_get, as_Holder, Binder_mObject, BinderProxy_mObject,
    native_object, heap_object, promote, JavaBBinder_new, NewGlobalRef, new_native, put_native, fresh,
    inc_local, incRefsCreated, incStrong, deref_IBinder, bad.
  repeat first [apply ps_ret | apply ps_crash | apply ps_gets | apply ps_lookup | apply ps_gc
    | apply ps_modify; intros; reflexivity | apply ps_bind; [|intros] | case_match].
Qed.

Lemma writeStrongBinder_safe pins s a o : safe pins s -> ptr s a ->
  (forall x, o = Some x -> is_Some (j_heap (pw_jni s) !! x)) ->
  runs (android_os_Parcel_writeStrongBinder E JE St a o) s (fun _ s' => done_with pins s s').
Proof.
  intros S P Ho. unfold android_os_Parcel_writeStrongBinder. parcel_begin S P. destruct S as [_ F].
  apply runs_bind, runs_jni, runs_bind.
  eapply runs_mono; [apply runs_eq, (ibinderForJavaObject_spec St pins _ o I Ho)|].
  intros b j1 (Hp%ibinder_parcels & E1 & Hb & _). cbv beta. apply runs_bind.
  assert (is_Some (j_parcels j1 !! a)) as [p Hpa] by (by rewrite Hp).
  eapply runs_value; [unfold parcel_at, bind, gets, id, lookup_or_crash; by rewrite Hpa|]. apply runs_bind.
  assert (forall err j2 qs, inv (qs ++ pins) j2 -> evolves (pw_jni s) j2 ->
    runs (signal_if E JE err) (set_pw_jni j2 s) (fun _ s' => done_with pins s s')) as Hend.
  { intros err j2 qs I2 E2. unfold signal_if. destruct (negb _).
    - destruct (inv_pending (St := St) _ j2 (Some (error_exception E JE err false 0)) I2) as [I3 E3].
      exists qs. split; [by split|simpl; lia|]. by eapply (ev_step (St := St)).
    - exists qs. split; [by split|simpl; lia|done]. }
  destruct Hb as [[-> I1]|[I1 Hb]].
  - eapply runs_mono; [apply (write_binder_law St a 0 pins j1 I1); [by eexists|by left]|].
    intros err j2 (E2 & qs & I2). walk. apply (Hend err j2 qs I2). by eapply (ev_step (St := St)).
  - pose proof (is_binder_nz _ _ _ _ I1 Hb) as Hz.
    eapply runs_mono; [apply (write_binder_law St a b (b :: pins) j1 I1); [by eexists|right; split; [done|by left]]|].
    intros err j2 (E2 & qs & I2). rewrite (proj2 (Z.eqb_neq _ _) Hz). walk.
    apply inv_app_mid in I2 as I3.
    assert (is_binder j2 b) as Hb2.
    { eapply (is_binder_evolves St (b :: pins) j1 j2); [done| |done|by left|done].
      eapply inv_pins; [exact I3|]. intros x. simpl. rewrite pinned_app. pose proof (pinned_nonneg qs x). lia. }
    eapply runs_mono; [by apply (IBinder_dec_spec St (qs ++ pins))|]. intros _ j3 [I4 E4]. walk.
    apply (Hend err j3 qs I4). eauto.
Qed.

(** Another method of the parcel's, then more. *)
Lemma going_trans pins s0 d s s' : going pins s0 d s -> inv pins (pw_jni s0) ->
  keeps 0 [] pins s s' -> parcels_stay s s' -> going pins s0 d s'.
Proof.
  intros [[S1 C1 E1] P1] I0 [S2 C2 E2] P2. split; [|intros a Ha; by apply P2, P1].
  split; [done|lia|by eapply (ev_step (St := St))].
Qed.

Lemma going_keeps pins s0 qs s s' : going pins s0 0 s -> inv pins (pw_jni s0) ->
  keeps 0 qs pins s s' -> done_with pins s0 s'.
Proof.
  intros [[S1 C1 E1] P1] I0 [S2 C2 E2]. exists qs.
  split; [done|lia|by eapply (ev_step (St := St))].
Qed.

Definition fd_object s (o : option Z) : Prop :=
  forall x, o = Some x -> is_Some (pw_fdobjs s !! x).

Lemma get_fd_safe s o Q : fd_object s o -> (forall fd, Q fd s) ->
  runs (jniGetFDFromFileDescriptor o) s Q.
Proof.
  intros Ho K. destruct o as [o|]; [|apply K]. destruct (Ho o eq_refl) as [fd Hfd].
  unfold runs, jniGetFDFromFileDescriptor, bind, gets, id. rewrite Hfd. apply K.
Qed.

Lemma writeFileDescriptor_safe pins s a o : safe pins s -> ptr s a -> fd_object s o ->
  runs (android_os_Parcel_writeFileDescriptor E JE a o) s (fun _ s' => done_with pins s s').
Proof.
  intros S P Ho. unfold android_os_Parcel_writeFileDescriptor. parcel_begin S P. pstep.
  apply get_fd_safe; [done|]. intros fd. pstep. pstep. pstep.
  eapply runs_mono; [by eapply (dup_fd_law St)|]. intros err s1 [K1 P1]. cbv beta.
  pose proof (going_trans _ _ _ _ _ G I K1 P1). psteps.
Qed.

(** The length that is read passes the test, and without its padding it fits. *)
Definition padding_missing (p : parcel) : Prop :=
  let len := (readInt32 p).1 in let p1 := (readInt32 p).2 in
  0 < len <= i32 (dataAvail p1) /\
  ~ (0 <= dataPosition p1 /\ dataPosition p1 + pad4 len <= dataSize p1).

Lemma createByteArray_safe pins s a : safe pins s -> ptr s a ->
  (forall p, parcel_is s a p -> ~ padding_missing p) ->
  runs (android_os_Parcel_createByteArray a) s (fun _ s' => done_with pins s s').
Proof.
  intros S P Hw. unfold android_os_Parcel_createByteArray. parcel_begin S P.
  pose proof Ha as [p Hp]. pstep. eapply r_on_at; [done|done|done|]. intros G1 Ha1.
  specialize (Hw p Hp). unfold padding_missing in Hw. pose proof (pb_readInt32_range p).
  set (p1 := (readInt32 p).2) in *. set (n := (readInt32 p).1) in *.
  set (s1 := with_parcel a p1 s) in *. assert (parcel_is s1 a p1) as Hp1 by apply parcel_is_with. pstep.
  eapply runs_value; [by apply (ask_run s1 a p1)|]. cbv beta.
  destruct (Z.leb_spec 0 n) as [L|]; cbn [andb]; [|psteps].
  destruct (Z.leb_spec n (i32 (dataAvail p1))) as [A|]; [|psteps].
  unfold read_array. pstep. eapply r_new_array; [done|done|done| |intros; psteps]. pstep.
  eapply r_get_critical; [done|intros s2 G2 Es|psteps]. pstep.
  assert (parcel_is s2 a p1) as Hp2 by (unfold parcel_is; by rewrite Es).
  rewrite u64_small by lia. eapply r_on_at; [done|done|done|]. intros G3 _. pstep.
  destruct (decide (0 <= dataPosition p1 /\ dataPosition p1 + pad4 n <= dataSize p1)) as [[F1 F2]|F].
  - eapply runs_value; [by apply memcpy_ahead|]. cbv beta. pstep.
    eapply runs_value; [apply memcpy_to_run|psteps]. pose proof (pad4_range n L).
    unfold ahead, dataSize in *. rewrite length_replicate, length_take, length_drop. lia.
  - assert (n = 0) as N0. { destruct (Z.eq_dec n 0); [done|]. destruct Hw. split; [lia|done]. }
    rewrite pb_readInplace_null by done. rewrite N0 in G3 |- *.
    eapply runs_value; [done|]. cbv beta. pstep. eapply runs_value; [by apply memcpy_to_run|psteps].
Qed.

Lemma readBlob_safe pins s a : safe pins s -> ptr s a ->
  runs (android_os_Parcel_readBlob E JE a) s (fun _ s' => done_with pins s s').
Proof.
  intros S P. unfold android_os_Parcel_readBlob. parcel_begin S P. pstep. pstep.
  pose proof (pb_readInt32_range p) as Hr. set (n := (readInt32 p).1) in *.
  destruct (Z.leb_spec 0 n) as [L|]; [|psteps]. pstep. pstep. rewrite u64_small by lia.
  pose proof (pb_readBlob n p0 L) as Hb. destruct (pm_readBlob n p0) as [[err blob] q].
  cbn [fst snd] in *. destruct (Z.eqb_spec err NO_ERROR) as [->|]; cbn [negb]; [|psteps].
  specialize (Hb eq_refl). pstep. eapply r_new_array; [done|done|done| |intros; psteps]. pstep.
  eapply r_get_critical; [done|intros s2 G2 _|psteps]. pstep.
  eapply r_memcpy; [done|done|lia|]. pstep.
  eapply runs_value; [apply memcpy_to_run|psteps].
  rewrite length_replicate. apply length_slice; lia.
Qed.

Lemma readString_safe pins s a : safe pins s -> ptr s a ->
  runs (android_os_Parcel_readString a) s (fun _ s' => done_with pins s s').
Proof.
  intros S P. unfold android_os_Parcel_readString. parcel_begin S P. pstep. pstep.
  destruct (pm_readString16Inplace p).1 as [str|]; [|psteps].
  unfold NewString, runs, bind, gets, id. destruct (new_array _ s').
  - by eapply going_done.
  - eapply going_done, going_exception; [done|done].
Qed.

Lemma readStrongBinder_safe pins s a : safe pins s -> ptr s a ->
  runs (android_os_Parcel_readStrongBinder St a) s (fun _ s' => done_with pins s s').
Proof.
  intros S P. unfold android_os_Parcel_readStrongBinder. parcel_begin S P. destruct S as [_ F].
  destruct Ha as [p Hp]. apply runs_jni, runs_bind.
  eapply runs_value; [unfold parcel_at, bind, gets, id, lookup_or_crash; by rewrite Hp|]. apply runs_bind.
  eapply runs_mono; [apply (read_binder_law St a pins _ I); by eexists|]. intros b j1 (E1 & Hb). cbv beta.
  assert (forall o j2, inv pins j2 -> evolves (pw_jni s) j2 ->
    runs (ret o : JM (option Z)) j2 (fun _ j => done_with pins s (set_pw_jni j s))) as Hend.
  { intros o j2 I2 E2. exists []. split; [by split|simpl; lia|done]. }
  apply runs_bind. destruct Hb as [[-> I1]|[Hb I1]].
  - eapply runs_mono; [apply (javaObjectForIBinder_spec St pins j1 0 I1); by left|].
    intros o j2 (I2 & E2 & _). walk. apply (Hend o j2 I2). eauto.
  - pose proof (is_binder_nz _ _ _ _ I1 Hb) as Hz.
    eapply runs_mono; [apply (javaObjectForIBinder_spec St (b :: pins) j1 b I1); right; split; [done|by left]|].
    intros o j2 (I2 & E2 & _). rewrite (proj2 (Z.eqb_neq _ _) Hz). walk.
    eapply runs_mono; [apply (IBinder_dec_spec St pins j2 b I2)|].
    { eapply (is_binder_evolves St (b :: pins) j1 j2); [done|done|done|by left|done]. }
    intros _ j3 [I3 E3]. walk. apply (Hend o j3 I3). eauto.
Qed.

Lemma create_safe pins s : safe pins s ->
  runs android_os_Parcel_create s (fun _ s' => done_with pins s s').
Proof.
  intros [I F]. unfold android_os_Parcel_create. apply runs_jni. walk. set (j := pw_jni s).
  destruct (inv_with_parcels St pins j (<[j_next j := parcel_new]> (j_parcels j)) (j_next j + 1) I)
    as [I1 E1]; [lia| |].
  { intros a [q Hq]. destruct (decide (a = j_next j)) as [->|D].
    - rewrite lookup_insert_eq. by eexists.
    - rewrite lookup_insert_ne by done. by eexists. }
  exists []. split; [by split|simpl; lia|done].
Qed.

Lemma freeBuffer_safe pins s a p : safe (pm_binders St p ++ pins) s -> parcel_is s a p ->
  runs (android_os_Parcel_freeBuffer a) s (fun _ s' => exists qs, keeps 0 qs pins s s').
Proof.
  intros S Hp. unfold android_os_Parcel_freeBuffer. destruct (Z.eqb_spec a 0) as [->|D]; cbn [negb].
  { walk. exists (pm_binders St p). destruct S as [I F].
    split; [by split|lia|by eapply (inv_evolves (St := St))]. }
  apply runs_bind. eapply runs_value; [by apply (parcel_of_run s a p)|]. cbv beta. apply runs_bind.
  eapply runs_mono; [by apply (free_law St a p pins s)|]. intros _ s1 [K1 P1]. cbv beta.
  destruct (P1 a) as [q Hq]; [by eexists|]. eapply runs_value; [by apply (ask_run s1 a q)|]. by exists [].
Qed.

(** The parcel goes, with what it holds. *)
Lemma destroy_safe pins s a p : safe (pm_binders St p ++ pins) s -> parcel_is s a p ->
  runs (android_os_Parcel_destroy a) s (fun _ s' => pw_critical s' = pw_critical s /\
    evolves (pw_jni s) (pw_jni s') /\
    exists qs, safe (qs ++ pins) (set_pw_jni (forget a (pw_jni s')) s')).
Proof.
  intros S Hp. unfold android_os_Parcel_destroy. destruct (Z.eqb_spec a 0) as [->|D]; cbn [negb].
  { destruct S as [I F]. split; [done|]. split; [by eapply (inv_evolves (St := St))|].
    exists (pm_binders St p). split; [|done]. simpl.
    assert (set_j_parcels (j_parcels (pw_jni s)) (pw_jni s) = pw_jni s) as Es by (by destruct (pw_jni s)).
    rewrite <- Es at 1. by apply inv_forget. }
  apply runs_bind. eapply runs_value; [by apply (parcel_of_run s a p)|]. cbv beta. apply runs_bind.
  eapply runs_mono; [by apply (release_law St a p pins s)|]. intros _ s1 [[[I1 F1] C1 E1] P1]. cbv beta.
  apply runs_jni. walk. split; [simpl; lia|]. split.
  - eapply (ev_step (St := St)); [apply S|exact E1|].
    pose proof (inv_evolves (St := St) _ _ I1) as [N1 K1 B1 G1 H1]. by split.
  - exists []. split; [|done]. simpl. apply inv_forget; [done|].
    intros b D' Hb. by rewrite lookup_delete_ne.
Qed.

(** The size of the parcel is more than an array's length says. *)
Definition too_large (p : parcel) : Prop :=
  pm_objectsCount p = 0 /\ 0 <= i32 (dataSize p) < dataSize p.

Lemma marshall_safe pins s a : safe pins s -> ptr s a ->
  (forall p, parcel_is s a p -> ~ too_large p) ->
  runs (android_os_Parcel_marshall a) s (fun _ s' => done_with pins s s').
Proof.
  intros S P Hs. unfold android_os_Parcel_marshall. parcel_begin S P. pose proof Ha as [p Hp].
  specialize (Hs p Hp). unfold too_large in Hs. pstep.
  eapply runs_value; [by apply (ask_run s a p)|]. cbv beta.
  destruct (Z.eqb_spec (pm_objectsCount p) 0) as [E0|]; cbn [negb]; [|psteps]. pstep.
  eapply runs_value; [by apply (parcel_of_run s a p)|]. cbv beta.
  assert (0 <= dataSize p) by (unfold dataSize; lia). pstep.
  destruct (Z.leb_spec 0 (i32 (dataSize p))) as [L|L].
  2: { unfold NewByteArray, runs, bind, gets, id. by rewrite (proj2 (Z.ltb_lt _ _) L). }
  assert (i32 (dataSize p) = dataSize p) as Ei.
  { unfold i32 in *. pose proof (Z.mod_le (dataSize p + 2 ^ 31) (2 ^ 32)). lia. }
  rewrite Ei. eapply r_new_array; [done|done|done| |intros; psteps]. pstep.
  eapply r_get_critical; [done|intros s2 G2 _|psteps]. pstep.
  eapply r_memcpy; [done|done|done|]. pstep.
  eapply runs_value; [apply memcpy_to_run|psteps].
  rewrite length_replicate. apply length_slice; unfold dataSize in *; lia.
Qed.

(** There is nothing to copy from, or nowhere to copy to. *)
Definition unmarshall_astray (ar : list Z) (off n : Z) (p : parcel) : Prop :=
  0 <= n /\ (outside ar off n \/
    n <> 0 /\ (pm_writeInplace (u64 n) (setDataPosition 0 (pm_setDataSize (u64 n) p).2)).1 = None).

Lemma unmarshall_safe pins s a data off n : safe pins s -> ptr s a ->
  (forall p ar, parcel_is s a p -> data = Some ar -> ~ unmarshall_astray ar off n p) ->
  runs (android_os_Parcel_unmarshall a data off n) s (fun _ s' => done_with pins s s').
Proof.
  intros S P Hn. unfold android_os_Parcel_unmarshall.
  destruct (Z.ltb_spec n 0) as [L|L]; [rewrite orb_true_r; by apply no_parcel|].
  rewrite orb_false_r. parcel_begin S P. pose proof Ha as [p Hp].
  destruct data as [ar|]; [|by psteps]. specialize (Hn p ar Hp eq_refl). unfold unmarshall_astray in Hn.
  pstep. eapply r_get_critical; [done|intros s1 G1 Es|psteps].
  assert (parcel_is s1 a p) as Hp1 by (unfold parcel_is; by rewrite Es).
  pstep. pstep. eapply r_on_at; [done|done|done|]. intros G2 _. pstep.
  eapply runs_value; [by apply update_run, parcel_is_with|]. cbv beta.
  set (q := setDataPosition 0 _) in *. rewrite with_parcel_twice.
  assert (going pins s (0 + 1) (with_parcel a q s1)) as G3
    by (apply going_parcel; [done|done|by eexists]).
  pstep. pstep. eapply r_on_at; [done|done|by apply parcel_is_with|]. intros G4 Ha4. pstep.
  apply memcpy_inside; [tauto|].
  destruct (pm_writeInplace (u64 n) q).1 eqn:Ew; [psteps|].
  destruct (Z.eqb_spec n 0); [psteps|tauto].
Qed.

Lemma two_ptrs {A} pins s a b (m : PM A) (x : A) (f : parcel -> A) : safe pins s -> ptr s a -> ptr s b ->
  (has s a -> has s b -> runs m s (fun _ s' => done_with pins s s')) ->
  runs (if a =? 0 then ret x else if b =? 0 then ask a f else m) s (fun _ s' => done_with pins s s').
Proof.
  intros S Pa Pb H. pose proof (going_refl _ _ S) as G. eapply ptr_cases; [done|done|]. intros Ha.
  destruct (Z.eqb_spec b 0) as [->|D]; [psteps|]. destruct Pb as [?|Hb]; [done|]. by apply H.
Qed.

Lemma compareData_safe pins s a b : safe pins s -> ptr s a -> ptr s b ->
  runs (android_os_Parcel_compareData a b) s (fun _ s' => done_with pins s s').
Proof.
  intros S Pa Pb. apply two_ptrs; [done..|]. intros Ha Hb. pose proof (going_refl _ _ S) as G. psteps.
Qed.

Lemma appendFrom_safe pins s a b off n : safe pins s -> ptr s a -> ptr s b ->
  runs (android_os_Parcel_appendFrom E JE a b off n) s (fun _ s' => done_with pins s s').
Proof.
  intros S Pa Pb. apply two_ptrs; [done..|]. intros Ha Hb. pose proof (going_refl _ _ S) as G.
  pose proof (proj1 S) as I. do 4 pstep. pstep.
  eapply runs_mono; [by eapply (append_law St)|]. intros err s1 [[qs [[I1 F1] C1 E1]] P1]. cbv beta.
  destruct (P1 a Ha) as [p1 Hp1].
  assert (safe (qs ++ pins) s1) as S1 by done. pose proof (going_refl _ _ S1) as G1.
  assert (has s1 a) as Ha1 by (by eexists). pstep.
  eapply r_signal_if; [exact I1|exact G1|]. intros s2 [[S2 C2 E2] P2].
  destruct (P2 a Ha1) as [p2 Hp2]. eapply runs_value; [by apply (ask_run s2 a p2)|].
  exists qs. split; [done|lia|by eapply (ev_step (St := St))].
Qed.

Lemma hasFileDescriptors_safe pins s a : safe pins s -> ptr s a ->
  runs (android_os_Parcel_hasFileDescriptors a) s (fun _ s' => done_with pins s s').
Proof. intros S P. unfold android_os_Parcel_hasFileDescriptors. parcel_begin S P. psteps. Qed.

Lemma set_same_jni s : set_pw_jni (pw_jni s) s = s.
Proof. by destruct s. Qed.

Lemma enforceInterface_safe pins s a name : safe pins s -> ptr s a ->
  runs (android_os_Parcel_enforceInterface E Sys garbage a name) s (fun _ s' => done_with pins s s').
Proof.
  intros S P. unfold android_os_Parcel_enforceInterface. pose proof (going_refl _ _ S) as G.
  pose proof (proj1 S) as I.
  destruct (Z.eqb_spec a 0) as [->|D]; cbn [negb]; [unfold incorrect_interface; psteps|].
  destruct P as [?|Ha]; [done|]. destruct name as [name|]; [|done]. pstep.
  eapply r_get_critical; [done|intros s1 G1 Es|unfold incorrect_interface; psteps].
  assert (inv pins (pw_jni s1)) as I1 by (by rewrite Es).
  destruct (get_policy_run E St Sys garbage _ _ I1) as [old Hold]. pstep. apply runs_jni.
  eapply runs_value; [exact Hold|]. cbv beta. rewrite set_same_jni. pstep. pstep. pstep. apply runs_jni.
  eapply runs_mono; [apply (enforce_law St a name pins (pw_jni s1) I1)|]; [by rewrite Es|].
  intros ok j [Ij Ej]. cbv beta. apply runs_bind. unfold ReleaseCritical. walk.
  set (s2 := set_pw_critical _ _).
  assert (keeps 0 [] pins s s2) as K2.
  { destruct G1 as [[[_ F1] C1 E1] _]. split; [split; [exact Ij|exact F1]|simpl; lia|].
    simpl. rewrite <- Es in *. done. }
  destruct ok.
  - apply runs_bind, runs_jni. destruct (get_policy_run E St Sys garbage _ _ Ij) as [new Hnew].
    eapply runs_value; [exact Hnew|]. cbv beta. unfold when, set_dalvik_blockguard_policy.
    case_match; [|by exists []; destruct K2].
    apply runs_jni, runs_bind. eapply runs_mono; [by apply (jcall_law St _ pins j)|].
    intros r j' [Ij' Ej']. walk. exists []. destruct K2 as [[_ F2] C2 E2].
    split; [split; [done|exact F2]|done|]. simpl. by eapply (ev_step (St := St) pins _ j).
  - unfold incorrect_interface. destruct K2 as [[I2 F2] C2 E2].
    destruct (inv_pending (St := St) pins (pw_jni s2) (Some (Throwable "java/lang/SecurityException"
      (Some "Binder invocation to an incorrect interface"%string))) I2) as [I3 E3].
    exists []. split; [by split|done|]. by eapply (ev_step (St := St)).
Qed.

(** *** File descriptors *)

(** The state below changes in its exception only. *)
Definition only_fds s s' : Prop := pw_critical s' = pw_critical s /\
  exists t, pw_jni s' = set_j_pending t (pw_jni s).

Lemma only_fds_refl s : only_fds s s.
Proof. split; [done|]. exists (j_pending (pw_jni s)). by destruct s as [[] ]. Qed.

Lemma only_fds_done pins s s' : safe pins s -> only_fds s s' -> fd_wf s' -> done_with pins s s'.
Proof.
  intros [I F] [C [t Ej]] F'. destruct (inv_pending (St := St) pins _ t I) as [I1 E1].
  exists []. split; [split; [by rewrite Ej|done]|lia|by rewrite Ej].
Qed.

Lemma object_or_close_runs s s1 fd Q : only_fds s s1 -> (forall x s', only_fds s s' -> Q x s') ->
  runs (object_or_close fd) s1 Q.
Proof.
  intros [C [t Ej]] K. unfold object_or_close, jniCreateFileDescriptor, runs, bind, gets, id.
  destruct (new_FileDescriptor s1); apply K; (split; [done|]); [by exists t|].
  eexists. simpl. by rewrite Ej.
Qed.

Lemma fd_fresh_runs s (fd : Z) Q : only_fds s s ->
  (forall s', only_fds s s' -> Q fd s') ->
  runs (when (0 <=? fd) (modify (set_pw_fds ({[fd]} ∪ pw_fds s))) ;;; ret fd) s Q.
Proof. intros [C [t Ej]] K. unfold when. destruct (0 <=? fd); apply K; split; eauto. Qed.

Lemma throw_runs s s1 (m : PM unit) t Q : only_fds s s1 -> m = jni (Throw t) ->
  (forall s', only_fds s s' -> Q (None : option Z) s') -> runs (m ;;; ret None) s1 Q.
Proof.
  intros [C [t' Ej]] -> K. apply K. split; [done|]. exists (Some t). simpl. by rewrite Ej.
Qed.

Definition fd_typed s (c : fd_call) : Prop :=
  match c with FOpen _ _ => True | FDup o | FClose o | FClear o => fd_object s o end.

Lemma run_fd_runs s c : fd_typed s c -> runs (run_fd c) s (fun _ s' => only_fds s s').
Proof.
  pose proof (only_fds_refl s) as R. destruct c as [name mode|o|o|o]; intros T; simpl in *.
  - apply runs_bind. unfold android_os_Parcel_openFileDescriptor.
    destruct name as [name|]; [|by eapply throw_runs]. walk. unfold id. destruct (utf_chars name s); [|by eapply throw_runs].
    apply runs_bind, fd_fresh_runs; [done|]. intros s1 R1.
    destruct (_ <? 0); [by eapply throw_runs|by eapply object_or_close_runs].
  - apply runs_bind. unfold android_os_Parcel_dupFileDescriptor.
    destruct o as [o|]; [|by eapply throw_runs]. apply runs_bind, get_fd_safe; [done|]. intros fd.
    destruct (fd <? 0); [by eapply throw_runs|]. apply runs_bind, fd_fresh_runs; [done|]. intros s1 R1.
    destruct (_ <? 0); [by eapply throw_runs|by eapply object_or_close_runs].
  - unfold android_os_Parcel_closeFileDescriptor.
    destruct o as [o|]; [|split; [done|by eexists]]. apply runs_bind, get_fd_safe; [done|]. intros fd.
    destruct (0 <=? fd); [|done]. destruct R as [C [t Ej]]. split; [done|by exists t].
  - unfold android_os_Parcel_clearFileDescriptor.
    destruct o as [o|]; [|split; [done|by eexists]]. apply runs_bind, get_fd_safe; [done|]. intros fd.
    destruct (0 <=? fd); [|done]. destruct R as [C [t Ej]]. split; [done|by exists t].
Qed.

Lemma fd_safe pins s c : safe pins s -> fd_typed s c ->
  runs (run_fd c) s (fun _ s' => done_with pins s s').
Proof.
  intros S T. eapply runs_mono; [apply runs_eq, run_fd_runs, T|]. intros [] s' [Hr R].
  apply only_fds_done; [done|done|]. destruct S as [_ F].
  destruct (gives_up c) eqn:Gc.
  - destruct c; try done. apply run_clear_effect in Hr. by eapply given_up_wf.
  - apply run_fd_effect in Hr; [|done]. by eapply effect_wf.
Qed.

(** A descriptor nobody has, too. *)
Lemma readFileDescriptor_safe pins s a : safe pins s -> ptr s a ->
  runs (android_os_Parcel_readFileDescriptor a) s (fun _ s' => done_with pins s s').
Proof.
  intros S P. unfold android_os_Parcel_readFileDescriptor. parcel_begin S P. pstep. pstep.
  destruct (_ <? 0); [psteps|]. apply runs_bind. unfold dup. apply runs_bind. walk. unfold id.
  set (new := os_dup _ _). pose proof (dup_fresh (pm_readFileDescriptor p).1 s') as Hn. fold new in Hn.
  destruct H as [[[Is Fs] C Ev] _]. destruct (Z.leb_spec 0 new) as [L|L]; cbn [when].
  - walk. rewrite (proj2 (Z.ltb_ge _ _) L). specialize (Hn L).
    set (s1 := set_pw_fds _ _). assert (fd_wf s1) as F1.
    { destruct Fs as [W1 W2]. split; [|done]. intros o fd Ho Hf. simpl. specialize (W1 o fd Ho Hf). set_solver. }
    unfold jniCreateFileDescriptor, runs, bind, gets, id. destruct (new_FileDescriptor s1) as [o|] eqn:Eo.
    + exists []. split; [split; [done|]|done|done]. apply (effect_wf s' _ Fs).
      apply (fe_new s' _ o new); [done|done|by apply (fd_object_fresh s1)|done|done].
    + destruct (inv_pending (St := St) _ _ (Some (Throwable "java/lang/OutOfMemoryError" None)) Is) as [I2 E2].
      exists []. split; [by split|done|]. by eapply (ev_step (St := St)).
  - walk. rewrite (proj2 (Z.ltb_lt _ _) L). by exists [].
Qed.

Lemma calls_out_safe {A} pins s (m : JM A) : safe pins s -> calls_out St m ->
  runs (jni m) s (fun _ s' => done_with pins s s').
Proof.
  intros [I F] H. apply runs_jni. eapply runs_mono; [by apply (H pins)|]. intros x j [Ij Ej].
  exists []. split; [by split|simpl; lia|done].
Qed.

End Rules.

(** ** Every call *)

(** The native methods of [android.os.Parcel], with what Java passes: a parcel's
    pointer first. *)
Inductive parcel_call : Type :=
| PDataSize (a : Z) | PDataAvail (a : Z) | PDataPosition (a : Z) | PDataCapacity (a : Z)
| PSetDataSize (a n : Z) | PSetDataPosition (a n : Z) | PSetDataCapacity (a n : Z)
| PPushAllowFds (a : Z) (b : bool) | PRestoreAllowFds (a : Z) (b : bool)
| PWriteNative (a : Z) (data : option (list Z)) (off n : Z)
| PWriteBlob (a : Z) (data : option (list Z)) (off n : Z)
| PWriteInt (a x : Z) | PWriteLong (a x : Z) | PWriteFloat (a x : Z) | PWriteDouble (a x : Z)
| PWriteString (a : Z) (str : option (list Z))
| PWriteStrongBinder (a : Z) (o : option Z)
| PWriteFileDescriptor (a : Z) (o : option Z)
| PWriteInterfaceToken (a : Z) (name : option (list Z))
| PEnforceInterface (a : Z) (name : option (list Z))
| PCreateByteArray (a : Z) | PReadBlob (a : Z)
| PReadInt (a : Z) | PReadLong (a : Z) | PReadFloat (a : Z) | PReadDouble (a : Z)
| PReadString (a : Z) | PReadStrongBinder (a : Z) | PReadFileDescriptor (a : Z)
| PFile (c : fd_call)
| PCreate | PFreeBuffer (a : Z) | PDestroy (a : Z)
| PMarshall (a : Z) | PUnmarshall (a : Z) (data : option (list Z)) (off n : Z)
| PCompareData (a b : Z) | PAppendFrom (a b off n : Z)
| PHasFileDescriptors (a : Z) | PGetBlobAshmemSize (a : Z)
| PGetGlobalAllocSize | PGetGlobalAllocCount
| PObtain | PRecycle (o : option Z).

Section Calls.
Context `{PL : ParcelLib} `{RB : RefBase} `{U : BinderUapi}.
Context `{NB : !NativeBinder} `{NL : !NativeLaws}.
Context (E : cpp_env) (JE : jni_errors) (St : statics) (Sys : system) (garbage : Z).
Context `{JS : !JavaSide} `{SM : !Sampling} `{JL : !JavaLaws St}.
Context `{PMs : !ParcelMethods} `{PJ : !ParcelJava} `{PB : !ParcelBytes} `{FL : !FdLaws}.
Context `{PO : !ParcelOwns St}.

Implicit Types (s : parcel_world) (pins : list Z).

Definition drop_result {A} (m : PM A) : PM unit := do! _ := m in ret tt.

Definition parcel_run (c : parcel_call) : PM unit :=
  match c with
  | PDataSize a => drop_result (android_os_Parcel_dataSize a)
  | PDataAvail a => drop_result (android_os_Parcel_dataAvail a)
  | PDataPosition a => drop_result (android_os_Parcel_dataPosition a)
  | PDataCapacity a => drop_result (android_os_Parcel_dataCapacity a)
  | PSetDataSize a n => drop_result (android_os_Parcel_setDataSize E JE a n)
  | PSetDataPosition a n => android_os_Parcel_setDataPosition a n
  | PSetDataCapacity a n => android_os_Parcel_setDataCapacity E JE a n
  | PPushAllowFds a b => drop_result (android_os_Parcel_pushAllowFds a b)
  | PRestoreAllowFds a b => android_os_Parcel_restoreAllowFds a b
  | PWriteNative a data off n => android_os_Parcel_writeNative E JE a data off n
  | PWriteBlob a data off n => android_os_Parcel_writeBlob E JE a data off n
  | PWriteInt a x => android_os_Parcel_writeInt E JE a x
  | PWriteLong a x => android_os_Parcel_writeLong E JE a x
  | PWriteFloat a x => android_os_Parcel_writeFloat E JE a x
  | PWriteDouble a x => android_os_Parcel_writeDouble E JE a x
  | PWriteString a str => android_os_Parcel_writeString E JE a str
  | PWriteStrongBinder a o => android_os_Parcel_writeStrongBinder E JE St a o
  | PWriteFileDescriptor a o => drop_result (android_os_Parcel_writeFileDescriptor E JE a o)
  | PWriteInterfaceToken a name => android_os_Parcel_writeInterfaceToken a name
  | PEnforceInterface a name => android_os_Parcel_enforceInterface E Sys garbage a name
  | PCreateByteArray a => drop_result (android_os_Parcel_createByteArray a)
  | PReadBlob a => drop_result (android_os_Parcel_readBlob E JE a)
  | PReadInt a => drop_result (android_os_Parcel_readInt a)
  | PReadLong a => drop_result (android_os_Parcel_readLong a)
  | PReadFloat a => drop_result (android_os_Parcel_readFloat a)
  | PReadDouble a => drop_result (android_os_Parcel_readDouble a)
  | PReadString a => drop_result (android_os_Parcel_readString a)
  | PReadStrongBinder a => drop_result (android_os_Parcel_readStrongBinder St a)
  | PReadFileDescriptor a => drop_result (android_os_Parcel_readFileDescriptor a)
  | PFile c => run_fd c
  | PCreate => drop_result android_os_Parcel_create
  | PFreeBuffer a => drop_result (android_os_Parcel_freeBuffer a)
  | PDestroy a => android_os_Parcel_destroy a
  | PMarshall a => drop_result (android_os_Parcel_marshall a)
  | PUnmarshall a data off n => drop_result (android_os_Parcel_unmarshall a data off n)
  | PCompareData a b => drop_result (android_os_Parcel_compareData a b)
  | PAppendFrom a b off n => drop_result (android_os_Parcel_appendFrom E JE a b off n)
  | PHasFileDescriptors a => drop_result (android_os_Parcel_hasFileDescriptors a)
  | PGetBlobAshmemSize a => drop_result (android_os_Parcel_getBlobAshmemSize a)
  | PGetGlobalAllocSize => drop_result android_os_Parcel_getGlobalAllocSize
  | PGetGlobalAllocCount => drop_result android_os_Parcel_getGlobalAllocCount
  | PObtain => drop_result createJavaParcelObject
  | PRecycle o => recycleJavaParcelObject o
  end.

(** The types: a pointer is a parcel's or 0, objects are of their classes or NULL. *)
Definition parcel_typed s (c : parcel_call) : Prop :=
  match c with
  | PDataSize a | PDataAvail a | PDataPosition a | PDataCapacity a
  | PSetDataSize a _ | PSetDataPosition a _ | PSetDataCapacity a _
  | PPushAllowFds a _ | PRestoreAllowFds a _
  | PWriteNative a _ _ _ | PWriteBlob a _ _ _
  | PWriteInt a _ | PWriteLong a _ | PWriteFloat a _ | PWriteDouble a _
  | PWriteString a _ | PWriteInterfaceToken a _ | PEnforceInterface a _
  | PCreateByteArray a | PReadBlob a
  | PReadInt a | PReadLong a | PReadFloat a | PReadDouble a
  | PReadString a | PReadStrongBinder a | PReadFileDescriptor a
  | PFreeBuffer a | PDestroy a | PMarshall a | PUnmarshall a _ _ _
  | PHasFileDescriptors a | PGetBlobAshmemSize a => ptr s a
  | PWriteStrongBinder a o => ptr s a /\ null_or (is_object (pw_jni s)) o
  | PWriteFileDescriptor a o => ptr s a /\ fd_object s o
  | PFile c => fd_typed s c
  | PCompareData a b | PAppendFrom a b _ _ => ptr s a /\ ptr s b
  | PCreate | PGetGlobalAllocSize | PGetGlobalAllocCount | PObtain | PRecycle _ => True
  end.

(** What the types do not exclude, and the code does not: a range outside the array
    to copy from, a parcel that lacks the padding of the array to read, a parcel
    with no room to unmarshall, one larger than an array can be. *)
Definition overruns s (c : parcel_call) : Prop :=
  match c with
  | PWriteNative a (Some ar) off n =>
      a <> 0 /\ exists p, parcel_is s a p /\ native_room n p /\ outside ar off n
  | PWriteBlob a (Some ar) off n =>
      a <> 0 /\ exists p, parcel_is s a p /\ blob_room n p /\ outside ar off n
  | PCreateByteArray a => a <> 0 /\ exists p, parcel_is s a p /\ padding_missing p
  | PMarshall a => a <> 0 /\ exists p, parcel_is s a p /\ too_large p
  | PUnmarshall a (Some ar) off n =>
      a <> 0 /\ exists p, parcel_is s a p /\ unmarshall_astray ar off n p
  | _ => False
  end.

(** The strong pointers a call gives up: those of the parcel it frees. *)
Definition gives s (c : parcel_call) : list Z :=
  match c with
  | PFreeBuffer a | PDestroy a =>
      match j_parcels (pw_jni s) !! a with Some p => pm_binders St p | None => [] end
  | _ => []
  end.

(** Parcel.java puts 0 in the object whose parcel it destroyed. *)
Definition settled (c : parcel_call) s : parcel_world :=
  match c with PDestroy a => set_pw_jni (forget a (pw_jni s)) s | _ => s end.

Lemma drop_safe {A} (m : PM A) s Q : runs m s (fun _ s' => Q s') -> runs (drop_result m) s (fun _ s' => Q s').
Proof. intros H. apply runs_bind. eapply runs_mono; [exact H|]. done. Qed.

(** A parcel that is not there holds nothing. *)
Lemma safe_without qs pins s : safe St (qs ++ pins) s -> safe St pins s.
Proof.
  intros [I F]. split; [|done]. eapply inv_pins; [exact I|].
  intros x. rewrite pinned_app. pose proof (pinned_nonneg qs x). lia.
Qed.

Lemma nonzero_parcel s a (P : parcel -> Prop) : ~ (a <> 0 /\ exists p, parcel_is s a p /\ P p) ->
  a <> 0 -> forall p, parcel_is s a p -> ~ P p.
Proof. intros N D p Hp H. apply N. eauto. Qed.

(** Every method but [nativeDestroy]. *)
Lemma parcel_run_safe pins s c : safe St (gives s c ++ pins) s -> parcel_typed s c ->
  ~ overruns s c -> (forall a, c <> PDestroy a) ->
  runs (parcel_run c) s (fun _ s' => done_with St pins s s').
Proof.
  intros S T O Nd.
  destruct c; cbn [parcel_run parcel_typed overruns gives app] in *; try apply drop_safe;
    first [by apply ask_safe | by apply update_safe | by apply status_safe | by apply on_safe | idtac].
  - by apply setDataSize_safe.
  - destruct (Z.eq_dec a 0) as [->|D]; [by apply no_parcel|].
    apply writeNative_safe; [done|done|]. intros p ar Hp -> Hr Ho. apply O. eauto.
  - destruct (Z.eq_dec a 0) as [->|D]; [by apply no_parcel|].
    apply writeBlob_safe; [exact PB|done|done|]. intros p ar Hp -> Hr Ho. apply O. eauto.
  - by apply writeString_safe.
  - destruct T. by eapply (writeStrongBinder_safe E JE St (PJ := PJ)).
  - destruct T. by eapply (writeFileDescriptor_safe E JE St (PJ := PJ)).
  - by apply writeInterfaceToken_safe.
  - by eapply (enforceInterface_safe E St Sys garbage).
  - destruct (Z.eq_dec a 0) as [->|D]; [by apply no_parcel|].
    apply createByteArray_safe; [exact PB|done|done|]. by apply nonzero_parcel.
  - by apply readBlob_safe.
  - by apply readString_safe.
  - by eapply (readStrongBinder_safe St (PJ := PJ)).
  - by eapply (readFileDescriptor_safe (JS := JS) (SM := SM) St).
  - by apply fd_safe.
  - by apply create_safe.
  - destruct T as [->|[p Hp]]; [by eapply (no_parcel St pins s 0), safe_without|].
    rewrite Hp in S. by eapply freeBuffer_safe.
  - by destruct (Nd a).
  - destruct (Z.eq_dec a 0) as [->|D]; [by apply no_parcel|].
    apply marshall_safe; [done|done|]. by apply nonzero_parcel.
  - destruct (Z.eq_dec a 0) as [->|D]; [by apply no_parcel|].
    apply unmarshall_safe; [done|done|]. intros p ar Hp -> Ho. apply O. eauto.
  - destruct T. by apply compareData_safe.
  - destruct T. by eapply (appendFrom_safe E JE St (PJ := PJ)).
  - by apply hasFileDescriptors_safe.
  - destruct s. by apply (going_done St), going_refl.
  - destruct s. by apply (going_done St), going_refl.
  - apply calls_out_safe; [done|by eapply (obtain_law St (PMs := PMs))].
  - destruct o as [o|]; [|done]. apply calls_out_safe; [done|by eapply (recycle_law St (PMs := PMs))].
Qed.

Definition agrees_after pins s c (s' : parcel_world) : Prop :=
  pw_critical s' = pw_critical s /\ evolves (pw_jni s) (pw_jni s') /\
  exists qs, safe St (qs ++ pins) (settled c s').

Lemma parcel_run_agrees pins s c : safe St (gives s c ++ pins) s -> parcel_typed s c ->
  ~ overruns s c -> runs (parcel_run c) s (fun _ s' => agrees_after pins s c s').
Proof.
  intros S T O. unfold agrees_after.
  assert ((exists a, c = PDestroy a) \/ forall a, c <> PDestroy a) as [[a ->]|Nd]
    by (destruct c; try (by right); left; by eexists).
  - cbn [parcel_run parcel_typed gives settled] in *. destruct T as [->|[p Hp]].
    + apply safe_without in S as [I F]. split; [done|]. split; [by eapply (inv_evolves (St := St))|].
      exists []. split; [|done]. cbn [app pw_jni set_pw_jni].
      assert (set_j_parcels (j_parcels (pw_jni s)) (pw_jni s) = pw_jni s) as Es by (by destruct (pw_jni s)).
      rewrite <- Es. by apply inv_forget.
    + rewrite Hp in S. by eapply destroy_safe.
  - eapply runs_mono; [by apply (parcel_run_safe pins)|]. intros _ s' [qs [S1 C1 E1]].
    split; [lia|]. split; [done|]. exists qs. destruct c; try done. by destruct (Nd a).
Qed.

(** With memory, every overrun is a crash. *)
Lemma parcel_overrun_crashes s c : memory_found -> overruns s c -> parcel_run c s = Crash 0.
Proof.
  intros M O. destruct c;
    cbn [overruns] in O; try done; try (destruct data as [ar|]; [|done]);
    destruct O as (D & p & Hp & O); cbn [parcel_run].
  - destruct O as [[E1 [dest E2]] O]. unfold android_os_Parcel_writeNative.
    rewrite (proj2 (Z.eqb_neq _ _) D). unfold bind at 1. rewrite (on_run s a p) by done.
    rewrite E1. cbn [negb]. rewrite Z.eqb_refl. cbn [negb]. unfold bind at 1.
    erewrite on_run by apply parcel_is_with. rewrite E2. unfold bind at 1.
    rewrite GetCritical_run by done. unfold bind at 1. by rewrite memcpy_outside.
  - destruct O as [[E1 E2] O]. unfold android_os_Parcel_writeBlob.
    rewrite (proj2 (Z.eqb_neq _ _) D). unfold bind at 1. rewrite (on_run s a p) by done.
    rewrite E1, Z.eqb_refl. cbn [negb]. unfold bind at 1.
    erewrite on_run by apply parcel_is_with.
    destruct (pm_writeBlob (u64 n) false (pm_writeInt32 n p).2) as [[err b] q]. simpl in E2. subst err.
    cbn [fst snd]. rewrite Z.eqb_refl. cbn [negb]. unfold bind at 1.
    rewrite GetCritical_run by done. unfold bind at 1. by rewrite memcpy_outside.
  - destruct O as [[L A] F]. unfold drop_result, bind at 1. rewrite (createByteArray_reads s a p) by done.
    rewrite (proj2 (Z.leb_le 0 _)), (proj2 (Z.leb_le _ _) A) by lia. cbn [andb].
    pose proof (pb_readInt32_range p).
    by rewrite (read_array_null _ a (readInt32 p).2) by (apply parcel_is_with || done || lia).
  - destruct O as [E0 [L A]]. unfold drop_result, android_os_Parcel_marshall.
    rewrite (proj2 (Z.eqb_neq _ _) D). unfold bind at 1 2. rewrite (ask_run s a p) by done.
    rewrite E0. cbn [negb Z.eqb]. unfold bind at 1. rewrite (parcel_of_run s a p) by done.
    unfold bind at 1. rewrite NewByteArray_run by done. unfold bind at 1. rewrite GetCritical_run by done.
    unfold bind at 1. rewrite memcpy_from_run by (unfold dataSize in *; lia).
    unfold bind at 1, memcpy_to. rewrite length_replicate, length_take.
    by rewrite (proj2 (Nat.leb_gt _ _)) by (rewrite length_drop; unfold dataSize in *; lia).
  - destruct O as [L O]. unfold drop_result, android_os_Parcel_unmarshall.
    rewrite (proj2 (Z.eqb_neq _ _) D), (proj2 (Z.ltb_ge _ _) L). cbn [orb]. unfold bind at 1 2 3.
    rewrite GetCritical_run by done. unfold bind at 1.
    rewrite (on_run _ a p) by done. unfold bind at 1.
    erewrite update_run by apply parcel_is_with. unfold bind at 1 2.
    erewrite on_run by apply parcel_is_with. unfold bind at 1. destruct O as [O|[N O]].
    + by rewrite memcpy_outside.
    + rewrite O, (proj2 (Z.eqb_neq _ _) N). unfold memcpy_from. by destruct (_ || _).
Qed.

(** C31: every native method of [android.os.Parcel], from a state where objects agree
    and descriptors have one owner, with arguments of its types.  The exceptions
    are named by [overruns], of [writeNative], [writeBlob], [createByteArray],
    [marshall] and [unmarshall]: each of those crashes as soon as there is memory.
    In every other case the method follows no bad pointer (only the virtual machine
    may end the process), leaves no array pinned, and the objects agree and the
    descriptors have one owner when it returns; after [nativeDestroy], when
    Parcel.java has cleared its pointer. *)
Theorem parcel_methods_safe pins s c : safe St (gives s c ++ pins) s -> parcel_typed s c ->
  (~ overruns s c ->
   match parcel_run c s with
   | Value _ s' => pw_critical s' = pw_critical s /\ evolves (pw_jni s) (pw_jni s') /\
       exists qs, safe St (qs ++ pins) (settled c s')
   | Crash l => l = FATAL_ERROR
   | Blocked _ | NoFuel => True
   end) /\
  (overruns s c -> memory_found -> parcel_run c s = Crash 0).
Proof.
  intros S T. split; [exact (parcel_run_agrees pins s c S T)|].
  intros O M. by apply parcel_overrun_crashes.
Qed.

(** ** The interface of a call *)



End Calls.
