(* ===== verification/JniParcelSample.v ===== *)
(** * JniParcelSample: the laws of JniParcel have an instance

    The parcels of [Parcel.sample_parcel] with the methods [ParcelMethods] asks
    for, a virtual machine that finds memory, and the witnesses of the theorems of
    [JniParcelThms], [JniFdThms] and [JniParcelSafe] on it. *)

From S2P Require Import Prelude Uapi Parcel CppWorld ProcessState IpcCore BpBinder Proxy CppThms RefBase JniWorld JniBinder JniInv JniOps JniMeths JniProxies JniNatives JniCalls NativeProxy JniThms JniParcel JniParcelOps JniParcelThms JniFdThms JniParcelSafe.

#[local] Open Scope Z_scope.
#[local] Existing Instance counted.
#[local] Existing Instance quiet_java.
#[local] Existing Instance quiet_logger.
#[local] Existing Instance sample_binders.
#[local] Existing Instance sample_laws.
#[local] Existing Instance sample_java_laws.

(** ** Parcels *)

Definition sa_size (p : sample) : Z := Z.of_nat (length (sa_bytes p)).

#[local] Instance sample_methods : ParcelMethods := {|
  pm_setDataSize n p :=
    (0, sa_set (take (Z.to_nat n) (sa_bytes p ++ replicate (Z.to_nat n) 0)) (sa_pos p) p);
  pm_setDataCapacity n p := (0, p);
  pm_writeInt32 x p := (0, writeInt32 x p);
  pm_writeInt64 x p := (0, sa_append (le_encode 8 (u64 x)) p);
  pm_writeFloat x p := (0, writeInt32 x p);
  pm_writeDouble x p := (0, sa_append (le_encode 8 (u64 x)) p);
  pm_writeString16 str p := (0, sa_append (default [] str) p);
  pm_writeInterfaceToken name p := sa_append name p;
  pm_writeInplace n p :=
    (Some (sa_pos p),
     sa_set (splice (sa_pos p) (replicate (Z.to_nat (pad4 n)) 0) (sa_bytes p)) (sa_pos p + pad4 n) p);
  pm_poke off l p := sa_set (splice off l (sa_bytes p)) (sa_pos p) p;
  pm_readInt64 p := (le_decode (sa_take 8 p), sa_read 8 p);
  pm_readFloat p := readInt32 p;
  pm_readDouble p := (le_decode (sa_take 8 p), sa_read 8 p);
  pm_readString16Inplace p := (Some (sa_bytes p), p);
  pm_readInplace n p :=
    if (0 <=? sa_pos p) && (sa_pos p + pad4 n <=? sa_size p) then (Some (sa_take (Z.to_nat n) p), sa_read (Z.to_nat (pad4 n)) p)
    else (None, p);
  pm_readFileDescriptor p := readInt32 p;
  writable_blob := Z;
  pm_writeBlob n _ p := (0, Some (sa_pos p), sa_append (replicate (Z.to_nat n) 0) p);
  pm_fill_blob off l p := sa_set (splice off l (sa_bytes p)) (sa_pos p) p;
  pm_readBlob n p :=
    if (Z.of_nat (length (sa_take (Z.to_nat n) p)) =? n)
    then (0, sa_take (Z.to_nat n) p, sa_read (Z.to_nat n) p) else (-61, [], p);
  pm_pushAllowFds _ p := (true, p);
  pm_restoreAllowFds _ p := p;
  pm_hasFileDescriptors _ := false;
  pm_objectsCount p := 0;
  pm_compareData p q := sa_size p - sa_size q;
  pm_getOpenAshmemSize _ := 0;
  pm_getBlobAshmemSize _ := 0;
  pm_getGlobalAllocSize _ := 0;
  pm_getGlobalAllocCount _ := 0;
  pm_writeStrongBinder _ _ := ret 0;
  pm_readStrongBinder _ := ret 0;
  pm_writeDupFileDescriptor _ _ := ret 0;
  pm_appendFrom _ _ _ _ := ret 0;
  pm_enforceInterface _ _ := ret true;
  pm_freeData _ := ret tt;
  pm_release _ := ret tt
|}.

#[local] Instance sample_bytes : ParcelBytes.
Proof.
  split; cbn -[le_encode le_decode u32 u64 i32 Z.of_nat pad4 splice]; unfold dataSize, dataPosition; try done.
  - intros p. unfold i32. pose proof (Z.mod_pos_bound (le_decode (sa_take 4 p) + 2 ^ 31) (2 ^ 32)). lia.
  - intros n p Hn _. cbn. rewrite length_take, length_app, length_replicate. lia.
  - intros n p off Hn Hp [= <-]. split; [done|]. split; [|done].
    eexists. split; [|done]. apply length_replicate.
  - intros n p Hn Hp Hs. unfold sa_size. cbn in Hp, Hs.
    by rewrite (proj2 (Z.leb_le _ _) Hp), (proj2 (Z.leb_le _ _) Hs).
  - intros n p Hn Hs. unfold sa_size. cbn in Hs. destruct (Z.leb_spec 0 (sa_pos p)); [|done].
    destruct (Z.leb_spec (sa_pos p + pad4 n) (Z.of_nat (length (sa_bytes p)))); [|done]. by destruct Hs.
  - intros n p Hn. destruct (Z.eqb_spec (Z.of_nat (length (sa_take (Z.to_nat n) p))) n); [done|].
    by intros ?.
Qed.

(** ** The virtual machine and the system *)

Definition above (l : list Z) : Z := 1 + foldr Z.max 0 l.

Lemma above_not_in l : above l ∉ l.
Proof.
  assert (forall x, x ∈ l -> x < above l) as H; [|intros Hin; specialize (H _ Hin); lia].
  unfold above. induction l as [|y l IH]; intros x; [by intros ?%not_elem_of_nil|].
  intros [->|H]%elem_of_cons; simpl; [lia|]. specialize (IH x H). lia.
Qed.

Definition vm (fd_object : parcel_world -> option Z) : ParcelJava := {|
  new_array _ _ := true;
  get_critical _ := true;
  utf_chars name _ := Some name;
  new_FileDescriptor := fd_object;
  Parcel_obtain := ret None;
  Parcel_recycle _ := ret tt;
  os_open _ _ _ s := above (elements (pw_fds s));
  os_dup _ s := above (elements (pw_fds s));
  strerror _ := ""%string
|}.

Definition next_object (s : parcel_world) : option Z := Some (above (map_to_list (pw_fdobjs s)).*1).

Lemma vm_laws f : (forall s o, f s = Some o -> pw_fdobjs s !! o = None) -> FdLaws (PJ := vm f).
Proof.
  intros Hf. split; simpl; [..|done]; intros; rewrite <- elem_of_elements; apply above_not_in.
Qed.

#[local] Instance sample_vm : ParcelJava := vm next_object.
#[local] Instance sample_fd_laws : FdLaws.
Proof.
  apply vm_laws. intros s o [= <-]. destruct (pw_fdobjs s !! _) as [fd|] eqn:E; [|done].
  apply elem_of_map_to_list in E. destruct (above_not_in (map_to_list (pw_fdobjs s)).*1).
  apply list_elem_of_fmap. by eexists (_, fd).
Qed.

#[local] Instance sample_owns : ParcelOwns sample_statics.
Proof.
  assert (forall A (a : A) pins j, JniInv.inv sample_statics pins j ->
    runs (ret a) j (fun _ j' => JniInv.inv sample_statics pins j' /\ evolves j j')) as Hret.
  { intros A a pins j I. split; [done|by eapply (inv_evolves (St := sample_statics))]. }
  refine {| pm_binders _ := [] |}; cbn.
  - intros a b pins j I _ _. destruct (Hret Z 0 pins j I). split; [done|by exists []].
  - intros a pins j I _. destruct (Hret Z 0 pins j I). split; [done|by left].
  - intros a str pins j I _. exact (Hret _ true pins j I).
  - intros a fd pins s [I F] _. destruct (Hret Z 0 pins _ I). split; [|by intros ?]. split; [by split|lia|done].
  - intros a b off n pins s [I F] _ _. destruct (Hret Z 0 pins _ I). split; [|by intros ?]. exists [].
    split; [by split|lia|done].
  - intros a p pins s [I F] _. destruct (Hret Z 0 pins _ I). split; [|by intros ?].
    split; [by split|lia|done].
  - intros a p pins s [I F] _. destruct (Hret Z 0 pins _ I). split; [|by intros ?].
    split; [by split|lia|done].
  - intros pins j I. exact (Hret _ None pins j I).
  - intros o pins j I. exact (Hret _ tt pins j I).
Defined.

Lemma sample_memory : memory_found.
Proof. done. Qed.

(** ** A state *)

Definition with_bytes (l : list Z) : parcel := Sample l 0 0 0 [] (0, 0, 0, 0).

(** The layer as in [JniThms], descriptors 3 and 5, the second in an object. *)
Definition sample_world_with (p : parcel) : parcel_world :=
  ParcelWorld (set_j_parcels {[600 := p; 601 := parcel_new]} sample_8) {[3; 5]} {[50 := 5]} 0.

Lemma sample_safe p : safe sample_statics [1010; 500] (sample_world_with p).
Proof.
  split.
  - pose proof (reachable_inv _ _ _ _ _ _ _ _ _ _ sample_clean sample_reaches_8) as I.
    apply (inv_with_parcels sample_statics _ sample_8 {[600 := p; 601 := parcel_new]} (j_next sample_8)) in I
      as [I _]; [exact I|lia|].
    assert (j_parcels sample_8 = {[600 := parcel_new]}) as -> by (by vm_compute).
    intros a [q Hq]. apply lookup_singleton_Some in Hq as [<- _]. by exists p.
  - split.
    + intros o fd H _. change (({[50 := 5]} : gmap Z Z) !! o = Some fd) in H. apply lookup_singleton_Some in H as [_ <-]. simpl. set_solver.
    + intros o o' fd H H' _. change (({[50 := 5]} : gmap Z Z) !! o = Some fd) in H.
      change (({[50 := 5]} : gmap Z Z) !! o' = Some fd) in H'. apply lookup_singleton_Some in H as [<- _].
      by apply lookup_singleton_Some in H' as [<- _].
Qed.

(** ** The witnesses *)

Notation sample_create := android_os_Parcel_createByteArray.

(** Three bytes without padding crash, with it they are read. *)
Definition unpadded : parcel := with_bytes (le_encode 4 3 ++ [7; 8; 9]).
Definition padded : parcel := with_bytes (le_encode 4 3 ++ [7; 8; 9; 0]).

Lemma sample_parcel_is p : parcel_is (sample_world_with p) 600 p.
Proof. apply lookup_insert_eq. Qed.

Lemma createByteArray_checks_length_witness :
  sample_create 600 (sample_world_with unpadded) = Crash 0 /\
  exists s', sample_create 600 (sample_world_with padded) = Value (Some [7; 8; 9]) s'.
Proof.
  assert (forall p, p = unpadded \/ p = padded -> dataSize p < 2 ^ 31 /\
    0 <= dataPosition (readInt32 p).2 <= dataSize (readInt32 p).2) as H
    by (intros p [->| ->]; by vm_compute).
  split.
  - destruct (H unpadded) as [H1 H2]; [by left|].
    exact (createByteArray_checks_length _ 600 unpadded sample_memory (sample_parcel_is unpadded)
      ltac:(done) H1 H2).
  - destruct (H padded) as [H1 H2]; [by right|]. eexists.
    exact (createByteArray_checks_length _ 600 padded sample_memory (sample_parcel_is padded)
      ltac:(done) H1 H2).
Defined.

(** Three of five bytes. *)
Lemma byte_array_roundtrip_witness : exists r s',
  unless_thrown (android_os_Parcel_writeNative sample_env linux_jni_errors 600 (Some [1; 2; 3; 4; 5]) 1 3)
    (android_os_Parcel_setDataPosition 600 0 ;;; android_os_Parcel_createByteArray 600)
    (sample_world_with parcel_new) = Value r s' /\
  (r = Some [2; 3; 4] \/ r = None /\ exists err,
     j_pending (pw_jni s') = Some (error_exception sample_env linux_jni_errors err false 0)).
Proof.
  assert (j_pending (pw_jni (sample_world_with parcel_new)) = None) as Hno by (by vm_compute).
  assert (1 + 3 <= Z.of_nat (length [1; 2; 3; 4; 5])) as Hr by done.
  exact (byte_array_roundtrip sample_env linux_jni_errors (sample_world_with parcel_new) 600 parcel_new
    [1; 2; 3; 4; 5] 1 3 sample_memory (sample_parcel_is _) ltac:(done) eq_refl eq_refl
    ltac:(done) ltac:(done) Hr Hno).
Defined.

(** Five bytes go to the other parcel, and three of padding. *)
Lemma marshall_roundtrip_witness : exists r q',
  (do! bytes := android_os_Parcel_marshall 600 in
   do! _ := android_os_Parcel_unmarshall 601 bytes 0 5 in ret bytes)
    (sample_world_with (with_bytes [1; 2; 3; 4; 5])) =
    Value r (with_parcel 601 q' (sample_world_with (with_bytes [1; 2; 3; 4; 5]))) /\
  r = Some [1; 2; 3; 4; 5] /\ take 5 (p_bytes q') = [1; 2; 3; 4; 5] /\ dataPosition q' = 8.
Proof.
  assert (parcel_is (sample_world_with (with_bytes [1; 2; 3; 4; 5])) 601 parcel_new) as Hq
    by (by vm_compute).
  destruct (marshall_roundtrip (sample_world_with (with_bytes [1; 2; 3; 4; 5])) 600 601
    (with_bytes [1; 2; 3; 4; 5]) parcel_new sample_memory (sample_parcel_is _) Hq ltac:(done) ltac:(done)
    eq_refl) as [H _].
  exact (H eq_refl eq_refl ltac:(done)).
Defined.

(** A descriptor is duplicated and the first one closed; 3 is other code's. *)
Definition sample_calls : list fd_call :=
  [FDup (Some 50); FClose (Some 50); FOpen (Some [47]) 0; FClose (Some 50)].
Definition sample_after : parcel_world :=
  match run_fds sample_calls (sample_world_with parcel_new) with Value _ s => s | _ => sample_world_with parcel_new end.

Lemma sample_runs : run_fds sample_calls (sample_world_with parcel_new) = Value tt sample_after.
Proof.
  assert (match run_fds sample_calls (sample_world_with parcel_new) with Value _ _ => true | _ => false end
    = true) as H by (by vm_compute).
  unfold sample_after. by destruct (run_fds _ _) as [[] s| | |].
Qed.

Lemma file_descriptors_owned_witness : fd_wf sample_after /\ accounted {[3]} sample_after /\
  pw_fds sample_after = {[3; 6; 7]}.
Proof.
  destruct (file_descriptors_owned sample_calls _ _ (proj2 (sample_safe parcel_new)) sample_runs)
    as (W & _ & A).
  split; [exact W|]. split; [|by vm_compute].
  apply A; [repeat constructor|]. intros fd H. change (fd ∈ ({[3; 5]} : gset Z)) in H.
  apply elem_of_union in H as [->%elem_of_singleton| ->%elem_of_singleton].
  - left. by apply elem_of_singleton.
  - right. exists 50. by vm_compute.
Defined.

(** There is no memory for the object. *)
Lemma readFileDescriptor_leaks_witness : exists s',
  android_os_Parcel_readFileDescriptor (PJ := vm (fun _ => None)) 600
    (sample_world_with (with_bytes (le_encode 4 5))) = Value None s' /\
  foreign 6 s' /\ 6 ∉ pw_fds (sample_world_with (with_bytes (le_encode 4 5))).
Proof.
  assert (FdLaws (PJ := vm (fun _ => None))) as FL by (by apply vm_laws).
  exact (readFileDescriptor_leaks (PJ := vm (fun _ => None)) (FL := FL)
    (sample_world_with (with_bytes (le_encode 4 5))) 600 (with_bytes (le_encode 4 5))
    (sample_parcel_is _) ltac:(done) ltac:(by vm_compute) ltac:(by vm_compute)
    (proj2 (sample_safe _)) eq_refl).
Defined.

(** Java writes an array, destroys the parcel, and reads an array without its
    padding. *)
Notation sample_call := (parcel_run sample_env linux_jni_errors sample_statics sample_system 4).

Lemma parcel_methods_safe_witness :
  (exists s', sample_call (PWriteNative 600 (Some [1; 2; 3; 4; 5]) 1 3) (sample_world_with parcel_new)
     = Value tt s' /\ pw_critical s' = 0 /\ exists qs, safe sample_statics (qs ++ [1010; 500]) s') /\
  (exists s', sample_call (PDestroy 600) (sample_world_with parcel_new) = Value tt s' /\
     j_parcels (pw_jni s') !! 600 = None /\
     exists qs, safe sample_statics (qs ++ [1010; 500]) (set_pw_jni (forget 600 (pw_jni s')) s')) /\
  sample_call (PCreateByteArray 600) (sample_world_with unpadded) = Crash 0.
Proof.
  assert (forall p, ptr (sample_world_with p) 600) as Hptr
    by (intros p; right; eexists; apply sample_parcel_is).
  assert (forall p a, gives sample_statics (sample_world_with p) (PDestroy a) = []) as Hg
    by (intros p a; cbn [gives]; by destruct (_ !! a)).
  split; [|split].
  - destruct (parcel_methods_safe sample_env linux_jni_errors sample_statics sample_system 4
      [1010; 500] (sample_world_with parcel_new) (PWriteNative 600 (Some [1; 2; 3; 4; 5]) 1 3)
      (sample_safe parcel_new) (Hptr _)) as [H _].
    assert (~ overruns (sample_world_with parcel_new) (PWriteNative 600 (Some [1; 2; 3; 4; 5]) 1 3)) as O
      by (intros (_ & p & _ & _ & _ & N); apply N; done).
    specialize (H O).
    assert (match sample_call (PWriteNative 600 (Some [1; 2; 3; 4; 5]) 1 3) (sample_world_with parcel_new)
      with Value _ _ => true | _ => false end = true) as Hv by (by vm_compute).
    destruct (parcel_run _ _ _ _ _ _ _) as [[] s'| | |]; try done. exists s'.
    destruct H as (H1 & _ & H2). by split.
  - assert (safe sample_statics (gives sample_statics (sample_world_with parcel_new) (PDestroy 600) ++ [1010; 500])
      (sample_world_with parcel_new)) as S by (rewrite Hg; apply sample_safe).
    destruct (parcel_methods_safe sample_env linux_jni_errors sample_statics sample_system 4
      [1010; 500] (sample_world_with parcel_new) (PDestroy 600) S (Hptr _)) as [H _].
    specialize (H (fun f => f)).
    assert (match sample_call (PDestroy 600) (sample_world_with parcel_new)
      with Value _ s' => j_parcels (pw_jni s') !! 600 = None | _ => False end) as Hv by (by vm_compute).
    destruct (parcel_run _ _ _ _ _ _ _) as [[] s'| | |]; try done. exists s'.
    destruct H as (_ & _ & H2). by split.
  - destruct (parcel_methods_safe sample_env linux_jni_errors sample_statics sample_system 4
      [1010; 500] (sample_world_with unpadded) (PCreateByteArray 600) (sample_safe _) (Hptr _)) as [_ H].
    apply H; [|exact sample_memory]. split; [done|]. exists unpadded. split; [apply sample_parcel_is|].
    split; [by vm_compute|]. intros [_ N]. by vm_compute in N.
Defined.


