(* ===== verification/Runtime.v ===== *)
(** * Runtime: the options AndroidRuntime starts the virtual machine with

    Models the part of jni/AndroidRuntime.cpp that collects options from system
    properties: [addOption], [parseExtraOpts], [parseRuntimeOption] and its two
    variants, [getProperty], [readLocale], [startVm].  An option is a pointer: to a
    string literal, or into one of [startVm]'s char arrays, that are modelled as
    memory of their declared sizes; writing or reading outside of one crashes.

    Properties, files and [JNI_CreateJavaVM] are parameters. *)

From Stdlib Require Import Ascii.
From stdpp Require Export strings.
From S2P Require Import Prelude CppWorld.

#[local] Open Scope Z_scope.

(** ** Strings in memory *)

Notation NUL := "000"%char.

(** The string that starts here; [None] if it does not end. *)
Fixpoint c_string (l : list ascii) : option string :=
  match l with
  | [] => None
  | c :: l => if Ascii.eqb c NUL then Some EmptyString else String c <$> c_string l
  end.

Definition chars (s : string) : list ascii := String.list_ascii_of_string s.

(** A [const char*]: a literal, or [&buf[off]]. *)
Inductive char_ptr : Type :=
| Lit (s : string)
| Buf (b : string) (off : nat).

(** The functions given to the virtual machine as extra information. *)
Inductive hook : Type := runtime_exit | runtime_vfprintf | runtime_isSensitiveThread.

#[global] Instance hook_eq_dec : EqDecision hook.
Proof. solve_decision. Defined.

(** [JavaVMOption]. *)
Record JavaVMOption := MkOption {
  optionString : char_ptr;
  extraInfo : option hook
}.

(** What the functions below change: the arrays of [startVm], by name, and
    [mOptions]; what [JNI_CreateJavaVM] was called with. *)
Record vm_state := VmState {
  v_mem : gmap string (list ascii);
  mOptions : list JavaVMOption;
  v_created : option (list (string * option hook))
}.

Definition set_v_mem (m : gmap string (list ascii)) (s : vm_state) : vm_state :=
  VmState m (mOptions s) (v_created s).
Definition set_mOptions (l : list JavaVMOption) (s : vm_state) : vm_state :=
  VmState (v_mem s) l (v_created s).
Definition set_v_created (c : option (list (string * option hook))) (s : vm_state) : vm_state :=
  VmState (v_mem s) (mOptions s) c.

Definition VM (A : Type) : Type := prog vm_state A.

Definition buffer (b : string) : VM (list ascii) := fun s =>
  match v_mem s !! b with Some m => Value m s | None => Crash 0 end.

Definition write_at (b : string) (off : nat) (l : list ascii) : VM unit :=
  do! m := buffer b in
  if (off + length l <=? length m)%nat
  then modify (fun s => set_v_mem (<[b := take off m ++ l ++ drop (off + length l) m]> (v_mem s)) s)
  else crash 0.

Definition read_char (b : string) (off : nat) : VM ascii :=
  do! m := buffer b in match m !! off with Some c => ret c | None => crash 0 end.

Definition read_string (p : char_ptr) : VM string :=
  match p with
  | Lit s => ret s
  | Buf b off =>
      do! m := buffer b in
      match c_string (drop off m) with Some s => ret s | None => crash 0 end
  end.

(** [strcpy], [strncat] behind the string that is there, [snprintf]. *)
Definition strcpy (b : string) (off : nat) (s : string) : VM unit := write_at b off (chars s ++ [NUL]).
Definition strncat (b : string) (s : string) (n : nat) : VM unit :=
  do! old := read_string (Buf b 0) in
  write_at b (String.length old) (take n (chars s) ++ [NUL]).
Definition snprintf (b : string) (size : nat) (s : string) : VM unit :=
  write_at b 0 (take (size - 1) (chars s) ++ [NUL]).

(** What the system answers. *)
Class Device := {
  (** The string [property_get] leaves for a key and a default. *)
  property_value : string -> string -> string;
  (** [stat]: the mode of a file that is there. *)
  stat_mode : string -> option Z;
  S_ISDIR : Z -> bool;
  S_ISREG : Z -> bool;
  JNI_CreateJavaVM : list (string * option hook) -> Z
}.

(** The build: the sizes of <cutils/properties.h> and the processor. *)
Record build := Build {
  PROPERTY_KEY_MAX : nat;
  PROPERTY_VALUE_MAX : nat;
  instruction_set : string;
  LP64 : bool
}.

Section Model.
Context `{D : !Device} (B : build).

Definition property_get (key : string) (b : string) (off : nat) (default : string) : VM unit :=
  strcpy b off (property_value key default).

Definition hasDir (dir : string) : bool :=
  match stat_mode dir with Some m => S_ISDIR m | None => false end.
Definition hasFile (file : string) : bool :=
  match stat_mode file with Some m => S_ISREG m | None => false end.

(** The length [property_get] returns is that of the string. *)
Definition getProperty (key default : string) : string :=
  let temp := property_value key default in
  let len := Z.of_nat (String.length temp) in
  if len <? 0 then "" else temp.

Definition is_empty (s : string) : bool := String.eqb s "".

Definition readLocale : string :=
  let locale := getProperty "persist.sys.locale" "" in
  if negb (is_empty locale) then locale
  else
    let language := getProperty "persist.sys.language" "" in
    if negb (is_empty language) then
      let country := getProperty "persist.sys.country" "" in
      let variant := getProperty "persist.sys.localevar" "" in
      let out := language in
      let out := if negb (is_empty country) then out +:+ "-" +:+ country else out in
      if negb (is_empty variant) then out +:+ "-" +:+ variant else out
    else
      let productLocale := getProperty "ro.product.locale" "" in
      if negb (is_empty productLocale) then productLocale
      else
        let productLanguage := getProperty "ro.product.locale.language" "en" in
        let productRegion := getProperty "ro.product.locale.region" "US" in
        productLanguage +:+ "-" +:+ productRegion.

(** ** Options *)

Definition addOption (optionString : char_ptr) (extraInfo : option hook) : VM unit :=
  modify (fun s => set_mOptions (mOptions s ++ [MkOption optionString extraInfo]) s).

Definition add (p : char_ptr) : VM unit := addOption p None.

(** [while ( *start == ' ') start++;]. *)
Fixpoint skip_spaces (fuel : nat) (b : string) (start : nat) : VM nat :=
  match fuel with
  | O => out_of_fuel
  | S fuel =>
      do! c := read_char b start in
      if Ascii.eqb c " " then skip_spaces fuel b (S start) else ret start
  end.

(** [while ( *end != ' ' && *end != '\0') end++;]. *)
Fixpoint find_end (fuel : nat) (b : string) (e : nat) : VM nat :=
  match fuel with
  | O => out_of_fuel
  | S fuel =>
      do! c := read_char b e in
      if negb (Ascii.eqb c " ") && negb (Ascii.eqb c NUL) then find_end fuel b (S e) else ret e
  end.

Fixpoint extra_opts (fuel : nat) (b : string) (quotingArg : option string) (start : nat) : VM unit :=
  match fuel with
  | O => out_of_fuel
  | S fuel' =>
      do! c := read_char b start in
      if Ascii.eqb c NUL then ret tt
      else
        do! start := skip_spaces fuel b start in
        do! c := read_char b start in
        if Ascii.eqb c NUL then ret tt
        else
          do! e := find_end fuel b (start + 1) in
          do! c := read_char b e in
          do! e := (if Ascii.eqb c " " then write_at b e [NUL] ;;; ret (S e) else ret e) in
          (match quotingArg with Some q => add (Lit q) | None => ret tt end) ;;;
          add (Buf b start) ;;;
          extra_opts fuel' b quotingArg e
  end.

(** A round reads at least a character: as many rounds as characters are enough. *)
Definition parseExtraOpts (b : string) (quotingArg : option string) : VM unit :=
  do! m := buffer b in extra_opts (S (length m)) b quotingArg 0.

Definition parseRuntimeOption (property buf runtimeArg defaultArg : string) : VM bool :=
  strcpy buf 0 runtimeArg ;;;
  (let runtimeArgLen := String.length runtimeArg in
   property_get property buf runtimeArgLen defaultArg ;;;
   (do! c := read_char buf runtimeArgLen in
    if Ascii.eqb c NUL then ret false else add (Buf buf 0) ;;; ret true)).

Definition parseCompilerOption (property buf compilerArg quotingArg : string) : VM bool :=
  strcpy buf 0 compilerArg ;;;
  (let compilerArgLen := String.length compilerArg in
   property_get property buf compilerArgLen "" ;;;
   (do! c := read_char buf compilerArgLen in
    if Ascii.eqb c NUL then ret false
    else add (Lit quotingArg) ;;; add (Buf buf 0) ;;; ret true)).

Definition parseCompilerRuntimeOption (property buf runtimeArg quotingArg : string) : VM bool :=
  strcpy buf 0 runtimeArg ;;;
  (let runtimeArgLen := String.length runtimeArg in
   property_get property buf runtimeArgLen "" ;;;
   (do! c := read_char buf runtimeArgLen in
    if Ascii.eqb c NUL then ret false
    else
      add (Lit quotingArg) ;;; add (Lit "--runtime-arg") ;;; add (Lit quotingArg) ;;;
      add (Buf buf 0) ;;; ret true)).

(** ** startVm *)

(** [sizeof] a string literal. *)
Definition sizeof (s : string) : nat := S (String.length s).

(** The arrays of [startVm], in the order of their declarations. *)
Definition local_arrays : list (string * nat) :=
  [
   ("propBuf", PROPERTY_VALUE_MAX B);
   ("stackTraceFileBuf", (sizeof "-Xstacktracefile:" - 1 + PROPERTY_VALUE_MAX B)%nat);
   ("jniOptsBuf", (sizeof "-Xjniopts:" - 1 + PROPERTY_VALUE_MAX B)%nat);
   ("heapstartsizeOptsBuf", (sizeof "-Xms" - 1 + PROPERTY_VALUE_MAX B)%nat);
   ("heapsizeOptsBuf", (sizeof "-Xmx" - 1 + PROPERTY_VALUE_MAX B)%nat);
   ("heapgrowthlimitOptsBuf", (sizeof "-XX:HeapGrowthLimit=" - 1 + PROPERTY_VALUE_MAX B)%nat);
   ("heapminfreeOptsBuf", (sizeof "-XX:HeapMinFree=" - 1 + PROPERTY_VALUE_MAX B)%nat);
   ("heapmaxfreeOptsBuf", (sizeof "-XX:HeapMaxFree=" - 1 + PROPERTY_VALUE_MAX B)%nat);
   ("usejitOptsBuf", (sizeof "-Xusejit:" - 1 + PROPERTY_VALUE_MAX B)%nat);
   ("jitmaxsizeOptsBuf", (sizeof "-Xjitmaxsize:" - 1 + PROPERTY_VALUE_MAX B)%nat);
   ("jitinitialsizeOptsBuf", (sizeof "-Xjitinitialsize:" - 1 + PROPERTY_VALUE_MAX B)%nat);
   ("jitthresholdOptsBuf", (sizeof "-Xjitthreshold:" - 1 + PROPERTY_VALUE_MAX B)%nat);
   ("useJitProfilesOptsBuf", (sizeof "-Xjitsaveprofilinginfo:" - 1 + PROPERTY_VALUE_MAX B)%nat);
   ("jitprithreadweightOptBuf", (sizeof "-Xjitprithreadweight:" - 1 + PROPERTY_VALUE_MAX B)%nat);
   ("jittransitionweightOptBuf", (sizeof "-Xjittransitionweight:" - 1 + PROPERTY_VALUE_MAX B)%nat);
   ("gctypeOptsBuf", (sizeof "-Xgc:" - 1 + PROPERTY_VALUE_MAX B)%nat);
   ("backgroundgcOptsBuf", (sizeof "-XX:BackgroundGC=" - 1 + PROPERTY_VALUE_MAX B)%nat);
   ("heaptargetutilizationOptsBuf", (sizeof "-XX:HeapTargetUtilization=" - 1 + PROPERTY_VALUE_MAX B)%nat);
   ("cachePruneBuf", (sizeof "-Xzygote-max-boot-retry=" - 1 + PROPERTY_VALUE_MAX B)%nat);
   ("dex2oatXmsImageFlagsBuf", (sizeof "-Xms" - 1 + PROPERTY_VALUE_MAX B)%nat);
   ("dex2oatXmxImageFlagsBuf", (sizeof "-Xmx" - 1 + PROPERTY_VALUE_MAX B)%nat);
   ("dex2oatXmsFlagsBuf", (sizeof "-Xms" - 1 + PROPERTY_VALUE_MAX B)%nat);
   ("dex2oatXmxFlagsBuf", (sizeof "-Xmx" - 1 + PROPERTY_VALUE_MAX B)%nat);
   ("dex2oatCompilerFilterBuf", (sizeof "--compiler-filter=" - 1 + PROPERTY_VALUE_MAX B)%nat);
   ("dex2oatImageCompilerFilterBuf", (sizeof "--compiler-filter=" - 1 + PROPERTY_VALUE_MAX B)%nat);
   ("dex2oatThreadsBuf", (sizeof "-j" - 1 + PROPERTY_VALUE_MAX B)%nat);
   ("dex2oatThreadsImageBuf", (sizeof "-j" - 1 + PROPERTY_VALUE_MAX B)%nat);
   ("dex2oat_isa_variant_key", PROPERTY_KEY_MAX B);
   ("dex2oat_isa_variant", (sizeof "--instruction-set-variant=" - 1 + PROPERTY_VALUE_MAX B)%nat);
   ("dex2oat_isa_features_key", PROPERTY_KEY_MAX B);
   ("dex2oat_isa_features", (sizeof "--instruction-set-features=" - 1 + PROPERTY_VALUE_MAX B)%nat);
   ("dex2oatFlagsBuf", PROPERTY_VALUE_MAX B);
   ("dex2oatImageFlagsBuf", PROPERTY_VALUE_MAX B);
   ("extraOptsBuf", PROPERTY_VALUE_MAX B);
   ("voldDecryptBuf", PROPERTY_VALUE_MAX B);
   ("localeOption", (sizeof "-Duser.locale=" + PROPERTY_VALUE_MAX B)%nat);
   ("lockProfThresholdBuf", (sizeof "-Xlockprofthreshold:" - 1 + PROPERTY_VALUE_MAX B)%nat);
   ("nativeBridgeLibrary", (sizeof "-XX:NativeBridge=" + PROPERTY_VALUE_MAX B)%nat);
   ("cpuAbiListBuf", (sizeof "--cpu-abilist=" + PROPERTY_VALUE_MAX B)%nat);
   ("methodTraceFileBuf", (sizeof "-Xmethod-trace-file:" + PROPERTY_VALUE_MAX B)%nat);
   ("methodTraceFileSizeBuf", (sizeof "-Xmethod-trace-file-size:" + PROPERTY_VALUE_MAX B)%nat);
   ("fingerprintBuf", (sizeof "-Xfingerprint:" + PROPERTY_VALUE_MAX B)%nat)
  ]%string.

(** The options are read; what is in the arrays before is not known. *)
Context (uninitialised : string -> nat -> ascii).

Definition enter_startVm : VM unit :=
  modify (set_v_mem (list_to_map
    ((fun '(b, n) => (b, uninitialised b <$> seq 0 n)) <$> local_arrays))).

(** The arrays die with the function. *)
Definition leave_startVm (r : Z) : VM Z := modify (set_v_mem ∅) ;;; ret r.

Inductive execution_mode : Type := kEMDefault | kEMIntPortable | kEMIntFast | kEMJitCompiler.

(** [strcmp(buf, s) == 0]. *)
Definition string_is (b s : string) : VM bool :=
  do! t := read_string (Buf b 0) in ret (String.eqb t s).

(** An option whose result is not used. *)
Definition runtime_option (property buf runtimeArg defaultArg : string) : VM unit :=
  do! _ := parseRuntimeOption property buf runtimeArg defaultArg in ret tt.
Definition compiler_option (property buf compilerArg quotingArg : string) : VM unit :=
  do! _ := parseCompilerOption property buf compilerArg quotingArg in ret tt.
Definition compiler_runtime_option (property buf runtimeArg quotingArg : string) : VM unit :=
  do! _ := parseCompilerRuntimeOption property buf runtimeArg quotingArg in ret tt.

Definition options_checkjni : VM unit :=
  property_get "dalvik.vm.checkjni" "propBuf" 0 "" ;;;
  (do! on := string_is "propBuf" "true" in
   do! checkJni :=
     (if on : bool then ret true
      else
        do! off := string_is "propBuf" "false" in
        if negb off then
          property_get "ro.kernel.android.checkjni" "propBuf" 0 "" ;;;
          (do! c := read_char "propBuf" 0 in ret (Ascii.eqb c "1"))
        else ret false) in
   when checkJni (add (Lit "-Xcheck:jni"))).

Definition read_execution_mode : VM execution_mode :=
  property_get "dalvik.vm.execution-mode" "propBuf" 0 "" ;;;
  (do! portable := string_is "propBuf" "int:portable" in
   do! fast := string_is "propBuf" "int:fast" in
   do! jit := string_is "propBuf" "int:jit" in
   ret (if portable : bool then kEMIntPortable
        else if fast : bool then kEMIntFast
        else if jit : bool then kEMJitCompiler
        else kEMDefault)).

Definition options_hooks : VM unit :=
  runtime_option "dalvik.vm.stack-trace-file" "stackTraceFileBuf" "-Xstacktracefile:" "" ;;;
  strcpy "jniOptsBuf" 0 "-Xjniopts:" ;;;
  runtime_option "dalvik.vm.jniopts" "jniOptsBuf" "-Xjniopts:" "" ;;;
  addOption (Lit "exit") (Some runtime_exit) ;;;
  addOption (Lit "vfprintf") (Some runtime_vfprintf) ;;;
  addOption (Lit "sensitiveThread") (Some runtime_isSensitiveThread) ;;;
  add (Lit "-verbose:gc").

Definition options_heap : VM unit :=
  runtime_option "dalvik.vm.heapstartsize" "heapstartsizeOptsBuf" "-Xms" "4m" ;;;
  runtime_option "dalvik.vm.heapsize" "heapsizeOptsBuf" "-Xmx" "16m" ;;;
  runtime_option "dalvik.vm.heapgrowthlimit" "heapgrowthlimitOptsBuf" "-XX:HeapGrowthLimit=" "" ;;;
  runtime_option "dalvik.vm.heapminfree" "heapminfreeOptsBuf" "-XX:HeapMinFree=" "" ;;;
  runtime_option "dalvik.vm.heapmaxfree" "heapmaxfreeOptsBuf" "-XX:HeapMaxFree=" "" ;;;
  runtime_option "dalvik.vm.heaptargetutilization" "heaptargetutilizationOptsBuf"
    "-XX:HeapTargetUtilization=" "".

Definition options_jit : VM unit :=
  runtime_option "dalvik.vm.usejit" "usejitOptsBuf" "-Xusejit:" "" ;;;
  runtime_option "dalvik.vm.jitmaxsize" "jitmaxsizeOptsBuf" "-Xjitmaxsize:" "" ;;;
  runtime_option "dalvik.vm.jitinitialsize" "jitinitialsizeOptsBuf" "-Xjitinitialsize:" "" ;;;
  runtime_option "dalvik.vm.jitthreshold" "jitthresholdOptsBuf" "-Xjitthreshold:" "" ;;;
  property_get "dalvik.vm.usejitprofiles" "useJitProfilesOptsBuf" 0 "" ;;;
  (do! profiles := string_is "useJitProfilesOptsBuf" "true" in
   when profiles (add (Lit "-Xjitsaveprofilinginfo"))) ;;;
  runtime_option "dalvik.vm.jitprithreadweight" "jitprithreadweightOptBuf"
    "-Xjitprithreadweight:" "" ;;;
  runtime_option "dalvik.vm.jittransitionweight" "jittransitionweightOptBuf"
    "-Xjittransitionweight:" "".

Definition options_gc : VM unit :=
  property_get "ro.config.low_ram" "propBuf" 0 "" ;;;
  (do! low := string_is "propBuf" "true" in when low (add (Lit "-XX:LowMemoryMode"))) ;;;
  runtime_option "dalvik.vm.gctype" "gctypeOptsBuf" "-Xgc:" "" ;;;
  runtime_option "dalvik.vm.backgroundgctype" "backgroundgcOptsBuf" "-XX:BackgroundGC=" "".

Definition options_debug (zygote : bool) (executionMode : execution_mode) : VM unit :=
  when zygote (add (Lit "-agentlib:jdwp=transport=dt_android_adb,suspend=n,server=y")) ;;;
  runtime_option "dalvik.vm.lockprof.threshold" "lockProfThresholdBuf" "-Xlockprofthreshold:" "" ;;;
  match executionMode with
  | kEMIntPortable => add (Lit "-Xint:portable")
  | kEMIntFast => add (Lit "-Xint:fast")
  | kEMJitCompiler => add (Lit "-Xint:jit")
  | kEMDefault => ret tt
  end.

Definition read_skip_compilation : VM bool :=
  property_get "vold.decrypt" "voldDecryptBuf" 0 "" ;;;
  (do! min := string_is "voldDecryptBuf" "trigger_restart_min_framework" in
   do! one := string_is "voldDecryptBuf" "1" in
   ret (min || one)).

Definition options_image (skip_compilation : bool) : VM unit :=
  compiler_runtime_option "dalvik.vm.image-dex2oat-Xms" "dex2oatXmsImageFlagsBuf"
    "-Xms" "-Ximage-compiler-option" ;;;
  compiler_runtime_option "dalvik.vm.image-dex2oat-Xmx" "dex2oatXmxImageFlagsBuf"
    "-Xmx" "-Ximage-compiler-option" ;;;
  (if skip_compilation then
     add (Lit "-Ximage-compiler-option") ;;;
     add (Lit "--compiler-filter=assume-verified")
   else
     compiler_option "dalvik.vm.image-dex2oat-filter" "dex2oatImageCompilerFilterBuf"
       "--compiler-filter=" "-Ximage-compiler-option").

Definition options_classes : VM unit :=
  add (Lit "-Ximage-compiler-option") ;;;
  add (Lit "--image-classes=/system/etc/preloaded-classes") ;;;
  when (hasFile "/system/etc/compiled-classes")
    (add (Lit "-Ximage-compiler-option") ;;;
     add (Lit "--compiled-classes=/system/etc/compiled-classes")) ;;;
  property_get "dalvik.vm.image-dex2oat-flags" "dex2oatImageFlagsBuf" 0 "" ;;;
  parseExtraOpts "dex2oatImageFlagsBuf" (Some "-Ximage-compiler-option"%string).

Definition options_dex2oat (skip_compilation : bool) : VM unit :=
  compiler_runtime_option "dalvik.vm.dex2oat-Xms" "dex2oatXmsFlagsBuf"
    "-Xms" "-Xcompiler-option" ;;;
  compiler_runtime_option "dalvik.vm.dex2oat-Xmx" "dex2oatXmxFlagsBuf"
    "-Xmx" "-Xcompiler-option" ;;;
  (if skip_compilation then
     add (Lit "-Xcompiler-option") ;;;
     add (Lit "--compiler-filter=assume-verified") ;;;
     add (Lit "--runtime-arg") ;;;
     add (Lit "-Xnorelocate")
   else
     compiler_option "dalvik.vm.dex2oat-filter" "dex2oatCompilerFilterBuf"
       "--compiler-filter=" "-Xcompiler-option") ;;;
  compiler_option "dalvik.vm.dex2oat-threads" "dex2oatThreadsBuf" "-j" "-Xcompiler-option" ;;;
  compiler_option "dalvik.vm.image-dex2oat-threads" "dex2oatThreadsImageBuf" "-j"
    "-Ximage-compiler-option".

(** The keys are made in arrays; the arrays of the values are used twice. *)
Definition options_isa : VM unit :=
  strcpy "dex2oat_isa_variant_key" 0 ("dalvik.vm.isa." +:+ instruction_set B +:+ ".variant") ;;;
  (do! key := read_string (Buf "dex2oat_isa_variant_key" 0) in
   compiler_option key "dex2oat_isa_variant" "--instruction-set-variant=" "-Ximage-compiler-option" ;;;
   compiler_option key "dex2oat_isa_variant" "--instruction-set-variant=" "-Xcompiler-option") ;;;
  strcpy "dex2oat_isa_features_key" 0 ("dalvik.vm.isa." +:+ instruction_set B +:+ ".features") ;;;
  (do! key := read_string (Buf "dex2oat_isa_features_key" 0) in
   compiler_option key "dex2oat_isa_features" "--instruction-set-features=" "-Ximage-compiler-option" ;;;
   compiler_option key "dex2oat_isa_features" "--instruction-set-features=" "-Xcompiler-option").

Definition options_extra : VM unit :=
  property_get "dalvik.vm.dex2oat-flags" "dex2oatFlagsBuf" 0 "" ;;;
  parseExtraOpts "dex2oatFlagsBuf" (Some "-Xcompiler-option"%string) ;;;
  property_get "dalvik.vm.extra-opts" "extraOptsBuf" 0 "" ;;;
  parseExtraOpts "extraOptsBuf" None.

Definition options_locale : VM unit :=
  strcpy "localeOption" 0 "-Duser.locale=" ;;;
  strncat "localeOption" readLocale (PROPERTY_VALUE_MAX B) ;;;
  add (Buf "localeOption" 0).

Definition options_trace : VM unit :=
  property_get "ro.debuggable" "propBuf" 0 "0" ;;;
  (do! debuggable := string_is "propBuf" "1" in
   when debuggable
     (property_get "dalvik.vm.method-trace" "propBuf" 0 "false" ;;;
      (do! trace := string_is "propBuf" "true" in
       when trace
         (add (Lit "-Xmethod-trace") ;;;
          runtime_option "dalvik.vm.method-trace-file" "methodTraceFileBuf"
            "-Xmethod-trace-file:" "" ;;;
          runtime_option "dalvik.vm.method-trace-file-siz" "methodTraceFileSizeBuf"
            "-Xmethod-trace-file-size:" "" ;;;
          property_get "dalvik.vm.method-trace-stream" "propBuf" 0 "false" ;;;
          (do! stream := string_is "propBuf" "true" in
           when stream (add (Lit "-Xmethod-trace-stream"))))))).

Definition options_bridge : VM unit :=
  property_get "ro.dalvik.vm.native.bridge" "propBuf" 0 "" ;;;
  (do! c := read_char "propBuf" 0 in
   if Ascii.eqb c NUL then ret tt
   else
     do! off := string_is "propBuf" "0" in
     when (negb off)
       (do! bridge := read_string (Buf "propBuf" 0) in
        snprintf "nativeBridgeLibrary" (sizeof "-XX:NativeBridge=" + PROPERTY_VALUE_MAX B)
          ("-XX:NativeBridge=" +:+ bridge) ;;;
        add (Buf "nativeBridgeLibrary" 0))).

(** Without a list of ABIs there is no virtual machine. *)
Definition options_abilist : VM bool :=
  let cpu_abilist_property_name :=
    (if LP64 B then "ro.product.cpu.abilist64" else "ro.product.cpu.abilist32")%string in
  property_get cpu_abilist_property_name "propBuf" 0 "" ;;;
  (do! c := read_char "propBuf" 0 in
   if Ascii.eqb c NUL then ret false
   else
     do! abis := read_string (Buf "propBuf" 0) in
     snprintf "cpuAbiListBuf" (sizeof "--cpu-abilist=" + PROPERTY_VALUE_MAX B)
       ("--cpu-abilist=" +:+ abis) ;;;
     add (Buf "cpuAbiListBuf" 0) ;;;
     ret true).

Definition options_last : VM unit :=
  runtime_option "dalvik.vm.zygote.max-boot-retry" "cachePruneBuf" "-Xzygote-max-boot-retry=" "" ;;;
  property_get "debug.generate-debug-info" "propBuf" 0 "" ;;;
  (do! debug := string_is "propBuf" "true" in
   when debug
     (add (Lit "-Xcompiler-option") ;;;
      add (Lit "--generate-debug-info") ;;;
      add (Lit "-Ximage-compiler-option") ;;;
      add (Lit "--generate-debug-info"))) ;;;
  runtime_option "ro.build.fingerprint" "fingerprintBuf" "-Xfingerprint:" "".

(** What the virtual machine reads at the pointers. *)
Fixpoint read_options (l : list JavaVMOption) : VM (list (string * option hook)) :=
  match l with
  | [] => ret []
  | o :: l =>
      do! s := read_string (optionString o) in
      do! rest := read_options l in
      ret ((s, extraInfo o) :: rest)
  end.

Definition create_vm : VM Z :=
  do! s := gets id in
  do! opts := read_options (mOptions s) in
  modify (set_v_created (Some opts)) ;;; ret (JNI_CreateJavaVM opts).

Definition startVm (zygote : bool) : VM Z :=
  enter_startVm ;;;
  options_checkjni ;;;
  (do! executionMode := read_execution_mode in
   options_hooks ;;;
   options_heap ;;;
   options_jit ;;;
   options_gc ;;;
   options_debug zygote executionMode ;;;
   (do! skip_compilation := read_skip_compilation in
    options_image skip_compilation ;;;
    (if negb (hasFile "/system/etc/preloaded-classes") then leave_startVm (-1)
     else
       options_classes ;;;
       options_dex2oat skip_compilation ;;;
       options_isa ;;;
       options_extra ;;;
       options_locale ;;;
       options_trace ;;;
       options_bridge ;;;
       (do! abis := options_abilist in
        if negb abis then leave_startVm (-1)
        else
          options_last ;;;
          (do! r := create_vm in
           if r <? 0 then leave_startVm (-1) else leave_startVm 0))))).

End Model.
