(* ===== verification/RuntimeOpts.v ===== *)
(** * RuntimeOpts: options as strings

    What the options of [Runtime] are meant to be: [vm_options] is the list of
    strings the properties ask for, with no array and no pointer in it; and the
    rules by which [startVm] is shown to build it. *)

From Stdlib Require Import Ascii.
From S2P Require Import Prelude CppWorld Runtime.

#[local] Open Scope Z_scope.

(** ** C strings *)

Definition no_nul (s : string) : bool := forallb (fun c => negb (Ascii.eqb c NUL)) (chars s).

Lemma c_string_app s l : no_nul s = true -> c_string (chars s ++ NUL :: l) = Some s.
Proof.
  unfold no_nul, chars. induction s as [|c s IH]; simpl; [done|].
  intros [Hc Hs]%andb_true_iff. destruct (Ascii.eqb c NUL); [done|]. by rewrite IH.
Qed.

Lemma length_chars s : length (chars s) = String.length s.
Proof. induction s as [|c s IH]; simpl; [done|]. by rewrite IH. Qed.

Lemma chars_app s t : chars (s +:+ t) = chars s ++ chars t.
Proof. induction s as [|c s IH]; simpl; [done|]. by rewrite IH. Qed.

Lemma no_nul_app s t : no_nul (s +:+ t) = no_nul s && no_nul t.
Proof. unfold no_nul. by rewrite chars_app, forallb_app. Qed.

Lemma length_string_app s t : String.length (s +:+ t) = (String.length s + String.length t)%nat.
Proof. by rewrite <- !length_chars, chars_app, length_app. Qed.

(** The string ends before [k]: what is behind does not matter. *)
Lemma c_string_take l k s : c_string (take k l) = Some s -> c_string l = Some s.
Proof.
  revert k s. induction l as [|c l IH]; intros [|k] s; simpl; [done..|].
  destruct (Ascii.eqb c NUL); [done|]. intros H.
  destruct (c_string (take k l)) as [t|] eqn:E; [|done]. simpl in H. injection H as <-.
  by rewrite (IH k t E).
Qed.

Definition string_of (l : list ascii) : string := String.string_of_list_ascii l.

Lemma chars_string_of l : chars (string_of l) = l.
Proof. apply String.list_ascii_of_string_of_list_ascii. Qed.
Lemma string_of_chars s : string_of (chars s) = s.
Proof. apply String.string_of_list_ascii_of_string. Qed.

(** ** What the options should be *)

Definition vm_option : Type := string * option hook.
Definition plain (s : string) : vm_option := (s, None).

(** The words of a string between spaces. *)
Fixpoint words_after (cur : list ascii) (l : list ascii) : list string :=
  let word := match cur with [] => [] | _ => [string_of cur] end in
  match l with
  | [] => word
  | c :: l => if Ascii.eqb c " " then word ++ words_after [] l else words_after (cur ++ [c]) l
  end.
Definition words (s : string) : list string := words_after [] (chars s).

Section Spec.
Context `{D : !Device} (B : build).

Definition if_set (property default : string) (f : string -> list string) : list vm_option :=
  let v := property_value property default in
  plain <$> (if String.eqb v "" then [] else f v).

Definition runtime_opt (property runtimeArg default : string) : list vm_option :=
  if_set property default (fun v => [runtimeArg +:+ v]).
Definition compiler_opt (property compilerArg quotingArg : string) : list vm_option :=
  if_set property "" (fun v => [quotingArg; compilerArg +:+ v]).
Definition compiler_runtime_opt (property runtimeArg quotingArg : string) : list vm_option :=
  if_set property "" (fun v => [quotingArg; "--runtime-arg"%string; quotingArg; runtimeArg +:+ v]).
Definition extra_opt (property : string) (quotingArg : option string) : list vm_option :=
  plain <$> (words (property_value property "") ≫= fun w =>
    match quotingArg with Some q => [q; w] | None => [w] end).

Definition has_value (property value : string) : bool := String.eqb (property_value property "") value.

Definition checkjni : bool :=
  has_value "dalvik.vm.checkjni" "true" ||
  negb (has_value "dalvik.vm.checkjni" "false") &&
    match property_value "ro.kernel.android.checkjni" "" with String "1" _ => true | _ => false end.

Definition mode_opt : list string :=
  if has_value "dalvik.vm.execution-mode" "int:portable" then ["-Xint:portable"%string]
  else if has_value "dalvik.vm.execution-mode" "int:fast" then ["-Xint:fast"%string]
  else if has_value "dalvik.vm.execution-mode" "int:jit" then ["-Xint:jit"%string]
  else [].

Definition skip_compilation : bool :=
  has_value "vold.decrypt" "trigger_restart_min_framework" || has_value "vold.decrypt" "1".

Definition only_if (b : bool) (l : list string) : list vm_option := if b then plain <$> l else [].

Definition hook_opts : list vm_option :=
  runtime_opt "dalvik.vm.stack-trace-file" "-Xstacktracefile:" "" ++
  runtime_opt "dalvik.vm.jniopts" "-Xjniopts:" "" ++
  [("exit", Some runtime_exit); ("vfprintf", Some runtime_vfprintf);
   ("sensitiveThread", Some runtime_isSensitiveThread); ("-verbose:gc", None)]%string.

Definition heap_opts : list vm_option :=
  runtime_opt "dalvik.vm.heapstartsize" "-Xms" "4m" ++
  runtime_opt "dalvik.vm.heapsize" "-Xmx" "16m" ++
  runtime_opt "dalvik.vm.heapgrowthlimit" "-XX:HeapGrowthLimit=" "" ++
  runtime_opt "dalvik.vm.heapminfree" "-XX:HeapMinFree=" "" ++
  runtime_opt "dalvik.vm.heapmaxfree" "-XX:HeapMaxFree=" "" ++
  runtime_opt "dalvik.vm.heaptargetutilization" "-XX:HeapTargetUtilization=" "".

Definition jit_opts : list vm_option :=
  runtime_opt "dalvik.vm.usejit" "-Xusejit:" "" ++
  runtime_opt "dalvik.vm.jitmaxsize" "-Xjitmaxsize:" "" ++
  runtime_opt "dalvik.vm.jitinitialsize" "-Xjitinitialsize:" "" ++
  runtime_opt "dalvik.vm.jitthreshold" "-Xjitthreshold:" "" ++
  only_if (has_value "dalvik.vm.usejitprofiles" "true") ["-Xjitsaveprofilinginfo"%string] ++
  runtime_opt "dalvik.vm.jitprithreadweight" "-Xjitprithreadweight:" "" ++
  runtime_opt "dalvik.vm.jittransitionweight" "-Xjittransitionweight:" "".

Definition gc_opts : list vm_option :=
  only_if (has_value "ro.config.low_ram" "true") ["-XX:LowMemoryMode"%string] ++
  runtime_opt "dalvik.vm.gctype" "-Xgc:" "" ++
  runtime_opt "dalvik.vm.backgroundgctype" "-XX:BackgroundGC=" "".

Definition debug_opts (zygote : bool) : list vm_option :=
  only_if zygote ["-agentlib:jdwp=transport=dt_android_adb,suspend=n,server=y"%string] ++
  runtime_opt "dalvik.vm.lockprof.threshold" "-Xlockprofthreshold:" "" ++
  (plain <$> mode_opt).

Definition image_opts : list vm_option :=
  compiler_runtime_opt "dalvik.vm.image-dex2oat-Xms" "-Xms" "-Ximage-compiler-option" ++
  compiler_runtime_opt "dalvik.vm.image-dex2oat-Xmx" "-Xmx" "-Ximage-compiler-option" ++
  (if skip_compilation then
     plain <$> ["-Ximage-compiler-option"; "--compiler-filter=assume-verified"]%string
   else compiler_opt "dalvik.vm.image-dex2oat-filter" "--compiler-filter=" "-Ximage-compiler-option").

Definition class_opts : list vm_option :=
  (plain <$> ["-Ximage-compiler-option"; "--image-classes=/system/etc/preloaded-classes"]%string) ++
  only_if (hasFile "/system/etc/compiled-classes")
    ["-Ximage-compiler-option"; "--compiled-classes=/system/etc/compiled-classes"]%string ++
  extra_opt "dalvik.vm.image-dex2oat-flags" (Some "-Ximage-compiler-option"%string).

Definition dex2oat_opts : list vm_option :=
  compiler_runtime_opt "dalvik.vm.dex2oat-Xms" "-Xms" "-Xcompiler-option" ++
  compiler_runtime_opt "dalvik.vm.dex2oat-Xmx" "-Xmx" "-Xcompiler-option" ++
  (if skip_compilation then
     plain <$> ["-Xcompiler-option"; "--compiler-filter=assume-verified"; "--runtime-arg";
                "-Xnorelocate"]%string
   else compiler_opt "dalvik.vm.dex2oat-filter" "--compiler-filter=" "-Xcompiler-option") ++
  compiler_opt "dalvik.vm.dex2oat-threads" "-j" "-Xcompiler-option" ++
  compiler_opt "dalvik.vm.image-dex2oat-threads" "-j" "-Ximage-compiler-option".

Definition isa_key (what : string) : string := "dalvik.vm.isa." +:+ instruction_set B +:+ what.

Definition isa_opts : list vm_option :=
  (compiler_opt (isa_key ".variant") "--instruction-set-variant=" "-Ximage-compiler-option" ++
   compiler_opt (isa_key ".variant") "--instruction-set-variant=" "-Xcompiler-option") ++
  (compiler_opt (isa_key ".features") "--instruction-set-features=" "-Ximage-compiler-option" ++
   compiler_opt (isa_key ".features") "--instruction-set-features=" "-Xcompiler-option").

Definition extra_opts_ : list vm_option :=
  extra_opt "dalvik.vm.dex2oat-flags" (Some "-Xcompiler-option"%string) ++
  extra_opt "dalvik.vm.extra-opts" None.

(** No more of the locale than a property's length. *)
Definition locale_opts : list vm_option :=
  [plain ("-Duser.locale=" +:+ string_of (take (PROPERTY_VALUE_MAX B) (chars readLocale)))].

Definition trace_opts : list vm_option :=
  if String.eqb (property_value "ro.debuggable" "0") "1" &&
     String.eqb (property_value "dalvik.vm.method-trace" "false") "true" then
    plain "-Xmethod-trace" ::
    runtime_opt "dalvik.vm.method-trace-file" "-Xmethod-trace-file:" "" ++
    runtime_opt "dalvik.vm.method-trace-file-siz" "-Xmethod-trace-file-size:" "" ++
    only_if (String.eqb (property_value "dalvik.vm.method-trace-stream" "false") "true")
      ["-Xmethod-trace-stream"%string]
  else [].

Definition bridge_opts : list vm_option :=
  let bridge := property_value "ro.dalvik.vm.native.bridge" "" in
  only_if (negb (String.eqb bridge "") && negb (String.eqb bridge "0")) ["-XX:NativeBridge=" +:+ bridge].

Definition abis : string :=
  property_value (if LP64 B then "ro.product.cpu.abilist64" else "ro.product.cpu.abilist32") "".

Definition last_opts : list vm_option :=
  runtime_opt "dalvik.vm.zygote.max-boot-retry" "-Xzygote-max-boot-retry=" "" ++
  only_if (has_value "debug.generate-debug-info" "true")
    ["-Xcompiler-option"; "--generate-debug-info"; "-Ximage-compiler-option";
     "--generate-debug-info"]%string ++
  runtime_opt "ro.build.fingerprint" "-Xfingerprint:" "".

(** Everything the virtual machine is started with, in order. *)
Definition vm_options (zygote : bool) : list vm_option :=
  only_if checkjni ["-Xcheck:jni"%string] ++ hook_opts ++ heap_opts ++ jit_opts ++ gc_opts ++
  debug_opts zygote ++ image_opts ++ class_opts ++ dex2oat_opts ++ isa_opts ++ extra_opts_ ++
  locale_opts ++ trace_opts ++ bridge_opts ++ [plain ("--cpu-abilist=" +:+ abis)] ++ last_opts.

End Spec.
