(* ===== verification/RuntimeRules.v ===== *)
(** * RuntimeRules: options in memory

    [Inv]: read through their pointers, the options that were added are the strings
    they were when they were added, because no array that an option points into is
    written again.  A rule per function of [Runtime] that adds options. *)

From Stdlib Require Import Ascii.
From S2P Require Import Prelude CppWorld Runtime RuntimeOpts.

#[local] Open Scope Z_scope.

(** The computation returns, in a state with [Q]. *)
Definition wp {A} (m : VM A) (s : vm_state) (Q : A -> vm_state -> Prop) : Prop :=
  match m s with Value a s' => Q a s' | _ => False end.

Lemma wp_bind {A C} (m : VM A) (f : A -> VM C) s Q :
  wp m s (fun a s' => wp (f a) s' Q) -> wp (bind m f) s Q.
Proof. unfold wp, bind. by destruct (m s). Qed.

Lemma wp_mono {A} (m : VM A) s (Q Q' : A -> vm_state -> Prop) :
  wp m s Q -> (forall a s', Q a s' -> Q' a s') -> wp m s Q'.
Proof. unfold wp. destruct (m s); eauto. Qed.

Lemma wp_value {A} (m : VM A) s a s' (Q : A -> vm_state -> Prop) : m s = Value a s' -> Q a s' -> wp m s Q.
Proof. unfold wp. by intros ->. Qed.

Definition read_ptr (m : gmap string (list ascii)) (p : char_ptr) : option string :=
  match p with
  | Lit s => Some s
  | Buf b off => l ← m !! b; c_string (drop off l)
  end.

Lemma read_string_run s p t : read_ptr (v_mem s) p = Some t -> read_string p s = Value t s.
Proof.
  unfold read_ptr, read_string. destruct p as [t'|b off]; [by intros [= <-]|].
  unfold bind, buffer. destruct (v_mem s !! b) as [m|]; [|done]. simpl. by intros ->.
Qed.

Definition put (b : string) (m : list ascii) (s : vm_state) : vm_state :=
  set_v_mem (<[b := m]> (v_mem s)) s.

Lemma put_put b m m' s : put b m' (put b m s) = put b m' s.
Proof. unfold put, set_v_mem. simpl. by rewrite insert_insert_eq. Qed.

Lemma put_same b m s : v_mem s !! b = Some m -> put b m s = s.
Proof. intros H. unfold put, set_v_mem. rewrite insert_id by done. by destruct s. Qed.

(** ** Writing a string *)

(** An array after a string was written at its beginning. *)
Definition filled (m : list ascii) (t : string) : list ascii :=
  chars t ++ NUL :: drop (S (String.length t)) m.

Lemma length_filled m t : (String.length t < length m)%nat -> length (filled m t) = length m.
Proof.
  intros H. unfold filled. rewrite length_app, length_chars. simpl. rewrite length_drop. lia.
Qed.

Lemma filled_twice m t : (String.length t < length m)%nat -> filled (filled m t) t = filled m t.
Proof.
  intros H. unfold filled at 1 3. f_equal. f_equal. unfold filled.
  rewrite drop_app_ge by (rewrite length_chars; lia). rewrite length_chars.
  replace (S (String.length t) - String.length t)%nat with 1%nat by lia. done.
Qed.

Lemma read_filled m t : no_nul t = true -> c_string (filled m t) = Some t.
Proof. apply c_string_app. Qed.

Lemma write_at_run s b off m l : v_mem s !! b = Some m -> (off + length l <= length m)%nat ->
  write_at b off l s = Value tt (put b (take off m ++ l ++ drop (off + length l) m) s).
Proof.
  intros Hm Hl. unfold write_at, bind, buffer. rewrite Hm, (proj2 (Nat.leb_le _ _) Hl). done.
Qed.

Lemma strcpy_run s b m t : v_mem s !! b = Some m -> (String.length t < length m)%nat ->
  strcpy b 0 t s = Value tt (put b (filled m t) s).
Proof.
  intros Hm Hl. unfold strcpy. rewrite (write_at_run s b 0 m); [|done|].
  - do 2 f_equal. unfold filled. rewrite length_app, length_chars, <- app_assoc. simpl.
    by rewrite Nat.add_1_r.
  - rewrite length_app, length_chars. simpl. lia.
Qed.

(** Behind the string that is there. *)
Lemma strcpy_after s b m t u : v_mem s !! b = Some (filled m t) ->
  (String.length t + String.length u < length m)%nat ->
  write_at b (String.length t) (chars u ++ [NUL]) s = Value tt (put b (filled m (t +:+ u)) s).
Proof.
  intros Hm Hl. assert (length (filled m t) = length m) as Lf by (apply length_filled; lia).
  rewrite (write_at_run s b _ (filled m t)); [|done|].
  2: { rewrite length_app, length_chars, Lf. simpl. lia. }
  do 2 f_equal. unfold filled. rewrite take_app_length' by (by rewrite length_chars).
  rewrite length_app, length_chars, chars_app, length_string_app. simpl.
  rewrite <- !app_assoc. do 2 f_equal. simpl. f_equal.
  rewrite drop_app_ge by (rewrite length_chars; lia). rewrite length_chars.
  replace (String.length t + (String.length u + 1) - String.length t)%nat
    with (S (String.length u)) by lia.
  simpl. rewrite drop_drop. do 2 f_equal; lia.
Qed.

(** The character a string begins with, of an array it is in. *)
Lemma filled_at m t u : (filled m (t +:+ u)) !! String.length t =
  Some (match u with EmptyString => NUL | String c _ => c end).
Proof.
  unfold filled. rewrite chars_app, <- app_assoc, lookup_app_r by (rewrite length_chars; lia).
  rewrite length_chars, Nat.sub_diag. by destruct u.
Qed.

Lemma is_set u : no_nul u = true ->
  Ascii.eqb (match u with EmptyString => NUL | String c _ => c end) NUL = String.eqb u "".
Proof.
  destruct u as [|c u]; [done|]. unfold no_nul. simpl. by intros [->%negb_true_iff _]%andb_true_iff.
Qed.

(** ** The invariant *)

(** What is relied on of [property_get]: its string and the NUL behind it have
    room in [PROPERTY_VALUE_MAX] characters. *)
Class DeviceLaws `{D : Device} (B : build) := {
  value_no_nul k d : no_nul (property_value k d) = true;
  value_length k d : (String.length (property_value k d) < PROPERTY_VALUE_MAX B)%nat;
  isa_no_nul : no_nul (instruction_set B) = true;
  (** The names of processors in the code have at most seven letters. *)
  isa_length : (String.length (instruction_set B) <= 7)%nat;
  key_length : (32 <= PROPERTY_KEY_MAX B)%nat
}.

Section Rules.
Context `{D : !Device} (B : build) `{DL : !DeviceLaws B}.

Implicit Types (s : vm_state) (U : list string) (l : list vm_option).

Definition option_of (m : gmap string (list ascii)) (o : JavaVMOption) : option vm_option :=
  (fun t => (t, extraInfo o)) <$> read_ptr m (optionString o).

(** [l] are the options, that point into arrays of [U]. *)
Record Inv U l s : Prop := {
  i_sized b n : (b, n) ∈ local_arrays B -> exists m, v_mem s !! b = Some m /\ length m = n;
  i_opts : mapM (option_of (v_mem s)) (mOptions s) = Some l;
  i_used o b off : o ∈ mOptions s -> optionString o = Buf b off -> b ∈ U;
  i_created : v_created s = None
}.

Lemma mapM_same {A C} (f g : A -> option C) (xs : list A) :
  (forall x, x ∈ xs -> f x = g x) -> mapM f xs = mapM g xs.
Proof.
  induction xs as [|x xs IH]; simpl; [done|]. intros H.
  rewrite H by by left. rewrite IH; [done|]. intros y Hy. apply H. by right.
Qed.

Lemma mapM_snoc {A C} (f : A -> option C) (xs : list A) ys y z :
  mapM f xs = Some ys -> f y = Some z -> mapM f (xs ++ [y]) = Some (ys ++ [z]).
Proof.
  intros H Hy. revert ys H. induction xs as [|x xs IH]; simpl; intros ys H.
  - injection H as <-. simpl. by rewrite Hy.
  - destruct (f x) as [w|]; [|done]. simpl in *. destruct (mapM f xs) as [ws|]; [|done].
    simpl in *. injection H as <-. by rewrite (IH ws eq_refl).
Qed.

Lemma inv_put U l s b m m' : Inv U l s -> b ∉ U -> v_mem s !! b = Some m -> length m' = length m ->
  Inv U l (put b m' s).
Proof.
  intros [S O Us C] Hb Hm Hl. split; [|..|done|done].
  - intros b' n Hn. destruct (S b' n Hn) as (m2 & H2 & L2). simpl.
    destruct (decide (b' = b)) as [->|Db].
    + exists m'. rewrite lookup_insert_eq. split; [done|]. congruence.
    + exists m2. by rewrite lookup_insert_ne.
  - simpl. rewrite <- O. apply mapM_same. intros o Ho. unfold option_of. f_equal.
    destruct (optionString o) as [t|b' off] eqn:E; [done|]. simpl.
    rewrite lookup_insert_ne; [done|]. intros ->. apply Hb. by eapply Us.
Qed.

Lemma inv_add U l s p t h : Inv U l s -> read_ptr (v_mem s) p = Some t ->
  (forall b off, p = Buf b off -> b ∈ U) ->
  Inv U (l ++ [(t, h)]) (set_mOptions (mOptions s ++ [MkOption p h]) s).
Proof.
  intros [S O Us C] Hp Hu. split; [done|..|done]; simpl.
  - apply mapM_snoc; [done|]. unfold option_of. simpl. by rewrite Hp.
  - intros o b off [Ho|Ho%list_elem_of_singleton]%elem_of_app E; [by eapply Us|].
    subst o. by eapply Hu.
Qed.

Lemma inv_more U U' l s : Inv U l s -> U ⊆ U' -> Inv U' l s.
Proof. intros [S O Us C] H. split; [done..| |done]. intros o b off Ho E. apply H. by eapply Us. Qed.

(** ** Reading a property into an array *)

(** The string in an array. *)
Definition holds s (b t : string) : Prop := read_ptr (v_mem s) (Buf b 0) = Some t.

Lemma holds_put s b m t : no_nul t = true -> holds (put b (filled m t) s) b t.
Proof. intros H. unfold holds. simpl. rewrite lookup_insert_eq. simpl. by apply read_filled. Qed.

Lemma wp_strcpy U l s b n t Q : Inv U l s -> b ∉ U -> (b, n) ∈ local_arrays B ->
  (String.length t < n)%nat -> no_nul t = true ->
  (forall s', Inv U l s' -> holds s' b t -> Q tt s') -> wp (strcpy b 0 t) s Q.
Proof.
  intros I Hb Hn Hl Ht K. destruct (i_sized _ _ _ I b n Hn) as (m & Hm & <-).
  eapply wp_value; [by apply (strcpy_run s b m)|]. apply K; [|by apply holds_put].
  eapply inv_put; [done|done|done|]. by apply length_filled.
Qed.

Lemma wp_property U l s k b n d Q : Inv U l s -> b ∉ U -> (b, n) ∈ local_arrays B ->
  (PROPERTY_VALUE_MAX B <= n)%nat ->
  (forall s', Inv U l s' -> holds s' b (property_value k d) -> Q tt s') ->
  wp (property_get k b 0 d) s Q.
Proof.
  intros I Hb Hn Hl K. eapply (wp_strcpy U l s b _ _ Q I Hb Hn); [|by apply value_no_nul|done].
  pose proof (value_length (B := B) k d). lia.
Qed.

(** A prefix and a property. *)
Lemma prefixed_run s b m pre k d : v_mem s !! b = Some m ->
  (String.length pre + PROPERTY_VALUE_MAX B <= length m)%nat ->
  (strcpy b 0 pre ;;; property_get k b (String.length pre) d) s =
  Value tt (put b (filled m (pre +:+ property_value k d)) s).
Proof.
  intros Hm Hl. pose proof (value_length (B := B) k d) as Hv. unfold bind.
  rewrite (strcpy_run s b m) by (done || lia). unfold property_get, strcpy.
  rewrite (strcpy_after _ b m); [by rewrite put_put|apply lookup_insert_eq|lia].
Qed.

Lemma wp_add U l s p t h Q : Inv U l s -> read_ptr (v_mem s) p = Some t ->
  (forall b off, p = Buf b off -> b ∈ U) ->
  (forall s', Inv U (l ++ [(t, h)]) s' -> v_mem s' = v_mem s -> Q tt s') -> wp (addOption p h) s Q.
Proof. intros I Hp Hu K. by apply K; [apply inv_add|]. Qed.

Lemma wp_lit U l s t h Q : Inv U l s ->
  (forall s', Inv U (l ++ [(t, h)]) s' -> v_mem s' = v_mem s -> Q tt s') -> wp (addOption (Lit t) h) s Q.
Proof. intros I K. by eapply wp_add. Qed.

(** ** Looking at an array *)

Lemma wp_string_is s b t u Q : holds s b t -> Q (String.eqb t u) s -> wp (string_is b u) s Q.
Proof. intros H K. apply wp_bind. by eapply wp_value; [apply read_string_run|]. Qed.

Lemma c_string_first m t : c_string m = Some t ->
  m !! 0%nat = Some (match t with EmptyString => NUL | String c _ => c end).
Proof.
  destruct m as [|c m]; simpl; [done|]. destruct (Ascii.eqb_spec c NUL) as [->|]; [by intros [= <-]|].
  destruct (c_string m); [|done]. by intros [= <-].
Qed.

Lemma wp_first_char s b t Q : holds s b t ->
  Q (match t with EmptyString => NUL | String c _ => c end) s -> wp (read_char b 0) s Q.
Proof.
  unfold holds, read_ptr. intros H K. apply wp_bind. unfold wp, buffer.
  destruct (v_mem s !! b) as [m|]; [|done]. simpl in H. rewrite drop_0 in H.
  by rewrite (c_string_first m t H).
Qed.

(** ** Options with a prefix *)

Lemma wp_prefixed U l s b n pre k d (K : VM bool) Q : Inv U l s -> b ∉ U ->
  (b, n) ∈ local_arrays B -> (String.length pre + PROPERTY_VALUE_MAX B <= n)%nat -> no_nul pre = true ->
  (forall s', Inv U l s' -> holds s' b (pre +:+ property_value k d) ->
     wp (if String.eqb (property_value k d) "" then ret false else K) s' Q) ->
  wp (strcpy b 0 pre ;;; (property_get k b (String.length pre) d ;;;
      (do! c := read_char b (String.length pre) in if Ascii.eqb c NUL then ret false else K))) s Q.
Proof.
  intros I Hb Hn Hl Hp HK. destruct (i_sized _ _ _ I b n Hn) as (m & Hm & <-).
  pose proof (value_length (B := B) k d) as Hv. pose proof (value_no_nul (B := B) k d) as Nv.
  set (v := property_value k d) in *.
  apply wp_bind. eapply wp_value; [apply (strcpy_run s b m); [done|lia]|]. cbv beta.
  apply wp_bind. eapply wp_value.
  { unfold property_get, strcpy. apply (strcpy_after _ b m); [apply lookup_insert_eq|fold v; lia]. }
  cbv beta. rewrite put_put. fold v. set (s' := put _ _ _). apply wp_bind.
  assert (v_mem s' !! b = Some (filled m (pre +:+ v))) as Hm' by apply lookup_insert_eq.
  eapply wp_value.
  { unfold read_char, bind, buffer. rewrite Hm', filled_at. reflexivity. }
  cbv beta. rewrite (is_set v Nv). apply HK; [|apply holds_put; by rewrite no_nul_app, Hp, Nv].
  eapply inv_put; [done|done|done|]. apply length_filled. rewrite length_string_app. lia.
Qed.

(** The array is one of those pointed into. *)
Lemma inv_points U l s b t : Inv U l s -> holds s b t ->
  forall s', s' = set_mOptions (mOptions s ++ [MkOption (Buf b 0) None]) s ->
  Inv (b :: U) (l ++ [plain t]) s'.
Proof.
  intros I H s' ->. apply inv_add; [|done|].
  - eapply inv_more; [done|]. intros x Hx. by right.
  - intros b' off [= <- _]. by left.
Qed.

Lemma wp_add_lit U l s t Q : Inv U l s ->
  (forall s', Inv U (l ++ [plain t]) s' -> v_mem s' = v_mem s -> Q tt s') -> wp (add (Lit t)) s Q.
Proof. apply wp_lit. Qed.

Lemma wp_add_buf U l s b t Q : Inv U l s -> holds s b t ->
  (forall s', Inv (b :: U) (l ++ [plain t]) s' -> v_mem s' = v_mem s -> Q tt s') ->
  wp (add (Buf b 0)) s Q.
Proof. intros I H K. apply K; [by eapply inv_points|done]. Qed.

Lemma holds_mem s s' b t : v_mem s' = v_mem s -> holds s b t -> holds s' b t.
Proof. unfold holds. by intros ->. Qed.

Lemma if_set_eq k d f : if_set k d f =
  if String.eqb (property_value k d) "" then [] else plain <$> f (property_value k d).
Proof. unfold if_set. by destruct (String.eqb _ _). Qed.

Lemma wp_runtime_option U l s b n pre k d Q : Inv U l s -> b ∉ U ->
  (b, n) ∈ local_arrays B -> (String.length pre + PROPERTY_VALUE_MAX B <= n)%nat -> no_nul pre = true ->
  (forall s', Inv (b :: U) (l ++ runtime_opt k pre d) s' -> Q tt s') ->
  wp (runtime_option k b pre d) s Q.
Proof.
  intros I Hb Hn Hl Hp K. apply wp_bind. eapply (wp_prefixed U l s b n pre k d _ _ I); [done..|].
  intros s1 I1 H1. unfold runtime_opt in K. rewrite if_set_eq in K.
  destruct (String.eqb (property_value k d) "").
  - apply K. rewrite app_nil_r. eapply inv_more; [done|]. set_solver.
  - apply wp_bind. eapply wp_add_buf; [done|done|]. intros s2 I2 _. by apply K.
Qed.

(** The string stays in the array, for an array that is used twice. *)
Lemma wp_compiler_option_kept U l s b n pre q k Q : Inv U l s -> b ∉ U ->
  (b, n) ∈ local_arrays B -> (String.length pre + PROPERTY_VALUE_MAX B <= n)%nat -> no_nul pre = true ->
  (forall s', Inv (b :: U) (l ++ compiler_opt k pre q) s' ->
     holds s' b (pre +:+ property_value k "") -> Q tt s') ->
  wp (compiler_option k b pre q) s Q.
Proof.
  intros I Hb Hn Hl Hp K. apply wp_bind. eapply (wp_prefixed U l s b n pre k _ _ _ I); [done..|].
  intros s1 I1 H1. unfold compiler_opt in K. rewrite if_set_eq in K.
  destruct (String.eqb (property_value k "") "").
  - apply K; [|done]. rewrite app_nil_r. eapply inv_more; [done|]. set_solver.
  - apply wp_bind. eapply wp_add_lit; [done|]. intros s2 I2 E2. apply wp_bind.
    pose proof (holds_mem _ _ _ _ E2 H1) as H2.
    eapply (wp_add_buf _ _ s2); [done|done|]. intros s3 I3 E3. apply K; [by rewrite <- app_assoc in I3|].
    by eapply holds_mem.
Qed.

Lemma wp_compiler_option U l s b n pre q k Q : Inv U l s -> b ∉ U ->
  (b, n) ∈ local_arrays B -> (String.length pre + PROPERTY_VALUE_MAX B <= n)%nat -> no_nul pre = true ->
  (forall s', Inv (b :: U) (l ++ compiler_opt k pre q) s' -> Q tt s') ->
  wp (compiler_option k b pre q) s Q.
Proof. intros. eapply wp_compiler_option_kept; eauto. Qed.

(** ** An array written again with what it holds *)

Lemma filled_same m t : c_string m = Some t -> filled m t = m.
Proof.
  revert t. unfold filled. induction m as [|c m IH]; simpl; [done|]. intros t.
  destruct (Ascii.eqb_spec c NUL) as [->|N].
  - intros [= <-]. done.
  - destruct (c_string m) as [t'|]; [|done]. intros [= <-]. simpl. f_equal. by apply IH.
Qed.

Lemma wp_prefixed_again U l s b n pre k d (K : VM bool) Q : Inv U l s ->
  (b, n) ∈ local_arrays B -> (String.length pre + PROPERTY_VALUE_MAX B <= n)%nat -> no_nul pre = true ->
  holds s b (pre +:+ property_value k d) ->
  wp (if String.eqb (property_value k d) "" then ret false else K) s Q ->
  wp (strcpy b 0 pre ;;; (property_get k b (String.length pre) d ;;;
      (do! c := read_char b (String.length pre) in if Ascii.eqb c NUL then ret false else K))) s Q.
Proof.
  intros I Hn Hl Hp H HK. destruct (i_sized _ _ _ I b n Hn) as (m & Hm & <-).
  pose proof (value_length (B := B) k d) as Hv. pose proof (value_no_nul (B := B) k d) as Nv.
  set (v := property_value k d) in *.
  assert (filled m (pre +:+ v) = m) as Em.
  { apply filled_same. unfold holds in H. simpl in H. rewrite Hm in H. done. }
  apply wp_bind. eapply wp_value; [apply (strcpy_run s b m); [done|lia]|]. cbv beta.
  apply wp_bind. eapply wp_value.
  { unfold property_get, strcpy. apply (strcpy_after _ b m); [apply lookup_insert_eq|fold v; lia]. }
  cbv beta. rewrite put_put. fold v. rewrite Em, (put_same b m s Hm). apply wp_bind.
  eapply wp_value.
  { unfold read_char, bind, buffer. rewrite Hm. rewrite <- Em, filled_at. reflexivity. }
  cbv beta. by rewrite (is_set v Nv).
Qed.

Lemma wp_compiler_option_again U l s b n pre q k Q : Inv U l s -> b ∈ U ->
  (b, n) ∈ local_arrays B -> (String.length pre + PROPERTY_VALUE_MAX B <= n)%nat -> no_nul pre = true ->
  holds s b (pre +:+ property_value k "") ->
  (forall s', Inv U (l ++ compiler_opt k pre q) s' -> Q tt s') ->
  wp (compiler_option k b pre q) s Q.
Proof.
  intros I Hb Hn Hl Hp H K. apply wp_bind.
  eapply (wp_prefixed_again U l s b n pre k _ _ _ I); [done..|].
  unfold compiler_opt in K. rewrite if_set_eq in K.
  destruct (String.eqb (property_value k "") "").
  - apply K. by rewrite app_nil_r.
  - apply wp_bind. eapply wp_add_lit; [done|]. intros s2 I2 E2. apply wp_bind.
    eapply (wp_add_buf _ _ s2); [done|by eapply holds_mem|]. intros s3 I3 _. apply K.
    rewrite <- app_assoc in I3. eapply inv_more; [done|]. set_solver.
Qed.

Lemma wp_compiler_runtime_option U l s b n pre q k Q : Inv U l s -> b ∉ U ->
  (b, n) ∈ local_arrays B -> (String.length pre + PROPERTY_VALUE_MAX B <= n)%nat -> no_nul pre = true ->
  (forall s', Inv (b :: U) (l ++ compiler_runtime_opt k pre q) s' -> Q tt s') ->
  wp (compiler_runtime_option k b pre q) s Q.
Proof.
  intros I Hb Hn Hl Hp K. apply wp_bind. eapply (wp_prefixed U l s b n pre k _ _ _ I); [done..|].
  intros s1 I1 H1. unfold compiler_runtime_opt in K. rewrite if_set_eq in K.
  destruct (String.eqb (property_value k "") "").
  - apply K. rewrite app_nil_r. eapply inv_more; [done|]. set_solver.
  - do 3 (apply wp_bind; eapply wp_add_lit; [eassumption|]; intros ? ? ?). apply wp_bind.
    eapply wp_add_buf; [eassumption|do 3 (eapply holds_mem; [eassumption|]); done|]. intros s3 I3 _. apply K.
    rewrite <- !app_assoc in I3. done.
Qed.

End Rules.
