(* ===== verification/RuntimeWords.v ===== *)
(** * RuntimeWords: options cut out of one array

    [parseExtraOpts] puts a NUL behind each word of an array and adds a pointer to
    the word: what it adds are the words, and it neither runs past the string nor
    changes a word it has added. *)

From Stdlib Require Import Ascii.
From S2P Require Import Prelude CppWorld Runtime RuntimeOpts RuntimeRules.

#[local] Open Scope Z_scope.

(** ** Words *)

Definition space : ascii := " ".
Definition wordy (c : ascii) : bool := negb (Ascii.eqb c " ") && negb (Ascii.eqb c NUL).

Lemma words_space l : words_after [] (space :: l) = words_after [] l.
Proof. done. Qed.

Lemma words_spaces n l : words_after [] (replicate n space ++ l) = words_after [] l.
Proof. induction n as [|n IH]; [done|]. exact IH. Qed.

Lemma words_token cur tok l : Forall (fun c => wordy c = true) tok -> cur ++ tok <> [] ->
  (l = [] \/ exists l', l = space :: l') ->
  words_after cur (tok ++ l) =
  string_of (cur ++ tok) :: match l with [] => [] | _ :: l' => words_after [] l' end.
Proof.
  intros Ht. revert cur. induction Ht as [|c tok Hc Ht IH]; intros cur Hne Hl.
  - rewrite app_nil_r in *. simpl. destruct Hl as [->|[l' ->]].
    + simpl. by destruct cur.
    + simpl. by destruct cur.
  - simpl. unfold wordy in Hc. apply andb_true_iff in Hc as [Hc%negb_true_iff _]. rewrite Hc.
    rewrite IH; [by rewrite <- app_assoc|by destruct cur|done].
Qed.

(** A string is spaces, a word and the rest. *)
Lemma leading_spaces (l : list ascii) : exists n l', l = replicate n space ++ l' /\
  (l' = [] \/ exists c l'', l' = c :: l'' /\ c <> space).
Proof.
  induction l as [|c l IH]; [exists 0%nat, []; split; [done|by left]|].
  destruct (decide (c = space)) as [->|D].
  - destruct IH as (n & l' & -> & H). by exists (S n), l'.
  - exists 0%nat, (c :: l). split; [done|right]. by exists c, l.
Qed.

Lemma leading_word (l : list ascii) : Forall (fun c => c <> NUL) l -> exists tok l', l = tok ++ l' /\
  Forall (fun c => wordy c = true) tok /\ (l' = [] \/ exists l'', l' = space :: l'').
Proof.
  induction 1 as [|c l Hc Hl IH]; [exists [], []; split; [done|]; split; [done|by left]|].
  destruct (decide (c = space)) as [->|D].
  - exists [], (space :: l). split; [done|]. split; [done|right]. by exists l.
  - destruct IH as (tok & l' & -> & Ht & H). exists (c :: tok), l'. split; [done|]. split; [|done].
    constructor; [|done]. unfold wordy, space in *. apply andb_true_iff.
    split; apply negb_true_iff, Ascii.eqb_neq; done.
Qed.

Lemma c_string_split l t : c_string l = Some t -> exists junk, l = chars t ++ NUL :: junk /\
  Forall (fun c => c <> NUL) (chars t).
Proof.
  revert t. induction l as [|c l IH]; simpl; [done|]. intros t.
  destruct (Ascii.eqb_spec c NUL) as [->|D].
  - intros [= <-]. by exists l.
  - destruct (c_string l) as [t'|]; [|done]. intros [= <-].
    destruct (IH t' eq_refl) as (junk & -> & F). exists junk. split; [done|]. by constructor.
Qed.

Lemma no_nul_chars tok : Forall (fun c => wordy c = true) tok -> no_nul (string_of tok) = true.
Proof.
  unfold no_nul. rewrite chars_string_of. induction 1 as [|c tok Hc Ht IH]; simpl; [done|].
  unfold wordy in Hc. apply andb_true_iff in Hc as [_ ->]. done.
Qed.

Section Scan.
Context `{D : !Device} (B : build).

Implicit Types (s : vm_state).

Lemma read_char_run s b m i c : v_mem s !! b = Some m -> m !! i = Some c ->
  read_char b i s = Value c s.
Proof. intros Hm Hc. unfold read_char, bind, buffer. by rewrite Hm, Hc. Qed.

Lemma skip_spaces_run s b m : v_mem s !! b = Some m -> forall n fuel i c l,
  drop i m = replicate n space ++ c :: l -> c <> space -> (n < fuel)%nat ->
  skip_spaces fuel b i s = Value (i + n)%nat s.
Proof.
  intros Hm. induction n as [|n IH]; intros [|fuel] i c l Hd Hc Hf; try lia; simpl.
  - unfold bind. rewrite (read_char_run s b m i c Hm).
    + destruct (Ascii.eqb_spec c " "); [done|]. by rewrite Nat.add_0_r.
    + pose proof (lookup_drop m i 0) as H. rewrite Hd, Nat.add_0_r in H. by rewrite <- H.
  - unfold bind. rewrite (read_char_run s b m i space Hm).
    + simpl. rewrite (IH fuel (S i) c l); [by rewrite <- Nat.add_succ_comm| |done|lia].
      rewrite <- Nat.add_1_r, <- drop_drop, Hd. done.
    + pose proof (lookup_drop m i 0) as H. rewrite Hd, Nat.add_0_r in H. by rewrite <- H.
Qed.

Lemma find_end_run s b m : v_mem s !! b = Some m -> forall tok fuel i c l,
  drop i m = tok ++ c :: l -> Forall (fun c => wordy c = true) tok -> wordy c = false ->
  (length tok < fuel)%nat -> find_end fuel b i s = Value (i + length tok)%nat s.
Proof.
  intros Hm. induction tok as [|t tok IH]; intros [|fuel] i c l Hd Ht Hc Hf; simpl in Hf; try lia; simpl.
  - unfold bind. rewrite (read_char_run s b m i c Hm).
    + unfold wordy in Hc. rewrite Hc. by rewrite Nat.add_0_r.
    + pose proof (lookup_drop m i 0) as H. rewrite Hd, Nat.add_0_r in H. by rewrite <- H.
  - apply Forall_cons in Ht as [Ht Htok]. unfold bind. rewrite (read_char_run s b m i t Hm).
    + unfold wordy in Ht. rewrite Ht. rewrite (IH fuel (S i) c l); [by rewrite <- Nat.add_succ_comm| |done..|lia].
      rewrite <- Nat.add_1_r, <- drop_drop, Hd. done.
    + pose proof (lookup_drop m i 0) as H. rewrite Hd, Nat.add_0_r in H. by rewrite <- H.
Qed.

End Scan.

(** ** The loop *)

(** A string that ends before [start]. *)
Definition settled (m : list ascii) (start off : nat) : Prop :=
  is_Some (c_string (drop off (take start m))).

Lemma settled_string m m' start off : settled m start off -> take start m' = take start m ->
  c_string (drop off m') = c_string (drop off m).
Proof.
  intros [t Ht] E. transitivity (Some t); [|symmetry].
  - rewrite <- E, skipn_firstn_comm in Ht. by eapply c_string_take.
  - rewrite skipn_firstn_comm in Ht. by eapply c_string_take.
Qed.

Lemma settled_later m start start' off : (start <= start')%nat -> settled m start off ->
  settled m start' off.
Proof.
  intros Hs [t Ht]. exists t. rewrite skipn_firstn_comm in *.
  replace (start - off)%nat with ((start - off) `min` (start' - off))%nat in Ht by lia.
  rewrite <- take_take in Ht. by eapply c_string_take.
Qed.

Section Loop.
Context `{D : !Device} (B : build) `{DL : !DeviceLaws B}.

Implicit Types (s : vm_state) (U : list string) (l : list vm_option).

(** The options added so far; those that point into [b] end before [start]. *)
Record Cut U l s (b : string) (m : list ascii) (start : nat) : Prop := {
  c_inv : Inv B U l s;
  c_mem : v_mem s !! b = Some m;
  c_in : b ∈ U;
  c_settled o off : o ∈ mOptions s -> optionString o = Buf b off -> settled m start off
}.

Lemma cut_start U l s b m : Inv B U l s -> b ∉ U -> v_mem s !! b = Some m -> Cut (b :: U) l s b m 0.
Proof.
  intros I Hb Hm. split; [|done|by left|].
  - eapply inv_more; [done|]. set_solver.
  - intros o off Ho E. destruct Hb. by eapply (i_used _ _ _ _ I).
Qed.

Lemma cut_lit U l s b m start t : Cut U l s b m start ->
  Cut U (l ++ [plain t]) (set_mOptions (mOptions s ++ [MkOption (Lit t) None]) s) b m start.
Proof.
  intros [I Hm Hb Hs]. split; [by apply inv_add|done|done|].
  intros o off [Ho|Ho%list_elem_of_singleton]%elem_of_app E; [by eapply Hs|by subst o].
Qed.

(** A word in front of [start] is added. *)
Lemma cut_word U l s b m start off t : Cut U l s b m start ->
  c_string (drop off (take start m)) = Some t ->
  Cut U (l ++ [plain t]) (set_mOptions (mOptions s ++ [MkOption (Buf b off) None]) s) b m start.
Proof.
  intros [I Hm Hb Hs] Ht. split; [|done|done|].
  - apply inv_add; [done| |by intros b' off' [= <- _]]. simpl. rewrite Hm. simpl.
    rewrite skipn_firstn_comm in Ht. by eapply c_string_take.
  - intros o off' [Ho|Ho%list_elem_of_singleton]%elem_of_app E; [by eapply Hs|].
    subst o. injection E as <-. by eexists.
Qed.

(** Writing from [start] on. *)
Lemma cut_write U l s b m m' start : Cut U l s b m start -> length m' = length m ->
  take start m' = take start m -> Cut U l (put b m' s) b m' start.
Proof.
  intros [[S O Us C] Hm Hb Hs] Hl Ht. split; [split|..]; try done.
  - intros b' n Hn. destruct (S b' n Hn) as (m2 & H2 & L2). simpl.
    destruct (decide (b' = b)) as [->|Db].
    + exists m'. rewrite lookup_insert_eq. split; [done|]. congruence.
    + exists m2. by rewrite lookup_insert_ne.
  - simpl. rewrite <- O. apply mapM_same. intros o Ho. unfold option_of. f_equal.
    destruct (optionString o) as [t|b' off] eqn:E; [done|]. simpl.
    destruct (decide (b' = b)) as [->|Db]; [|by rewrite lookup_insert_ne].
    rewrite lookup_insert_eq, Hm. simpl. apply (settled_string m m' start); [by eapply Hs|done].
  - simpl. apply lookup_insert_eq.
  - intros o off Ho E. destruct (Hs o off Ho E) as [t Htt]. exists t. by rewrite Ht.
Qed.

Lemma cut_later U l s b m start start' : Cut U l s b m start -> (start <= start')%nat ->
  Cut U l s b m start'.
Proof.
  intros [I Hm Hb Hs] H. split; [done..|]. intros o off Ho E. eapply settled_later; [done|by eapply Hs].
Qed.

(** The words with the argument that quotes them. *)
Definition quoted (q : option string) (w : string) : list string :=
  match q with Some q => [q; w] | None => [w] end.

Definition quoted_words (q : option string) (rest : list ascii) : list vm_option :=
  plain <$> (words_after [] rest ≫= quoted q).

Lemma quote_run U l s b m start q : Cut U l s b m start -> exists s',
  (match q with Some q => add (Lit q) | None => ret tt end) s = Value tt s' /\
  Cut U (l ++ match q with Some q => [plain q] | None => [] end) s' b m start.
Proof.
  intros H. destruct q as [q|]; [|exists s; by rewrite app_nil_r].
  eexists. split; [done|]. by apply cut_lit.
Qed.

Lemma quoted_words_cons q n c tok (r2 : list ascii) : c <> space -> c <> NUL ->
  Forall (fun c => wordy c = true) tok -> (r2 = [] \/ exists r3, r2 = space :: r3) ->
  quoted_words q (replicate n space ++ c :: tok ++ r2) =
  (plain <$> quoted q (string_of (c :: tok))) ++
  match r2 with [] => [] | _ :: r3 => quoted_words q r3 end.
Proof.
  intros Hc Hz Ht Hl. unfold quoted_words. rewrite words_spaces.
  assert (wordy c = true) as Hw.
  { unfold wordy, space in *. apply andb_true_iff. split; apply negb_true_iff, Ascii.eqb_neq; done. }
  change (c :: tok ++ r2) with ((c :: tok) ++ r2).
  rewrite (words_token [] (c :: tok) r2); [|by constructor|done|done].
  simpl. rewrite fmap_app. f_equal. by destruct Hl as [->|[r3 ->]].
Qed.

(** The word at [i], up to the [x] at [e], where a NUL goes or already is. *)
Lemma word_at (m A w tl : list ascii) x : m = A ++ w ++ x :: tl ->
  Forall (fun c => wordy c = true) w ->
  let e := (length A + length w)%nat in let m' := A ++ w ++ NUL :: tl in
  m !! e = Some x /\ take e m ++ [NUL] ++ drop (e + 1) m = m' /\ length m' = length m /\
  take e m' = take e m /\ drop (S e) m' = tl /\ (e + 1 <= length m)%nat /\
  c_string (drop (length A) (take (S e) m')) = Some (string_of w).
Proof.
  intros -> Hw e m'.
  assert (forall y, A ++ w ++ y :: tl = (A ++ w) ++ y :: tl) as Ha by (intros; by rewrite <- app_assoc).
  assert (length (A ++ w) = e) as He by apply length_app.
  unfold m'. rewrite !Ha. split_and!.
  - rewrite lookup_app_r by lia. by rewrite He, Nat.sub_diag.
  - rewrite take_app_length' by done. rewrite <- drop_drop, (drop_app_length' (A ++ w)) by done. done.
  - rewrite !length_app. done.
  - by rewrite !take_app_length' by done.
  - rewrite <- Nat.add_1_r, <- drop_drop, drop_app_length' by done. done.
  - rewrite length_app. simpl. lia.
  - assert ((A ++ w) ++ NUL :: tl = (A ++ w ++ [NUL]) ++ tl) as -> by (by rewrite <- !app_assoc).
    rewrite take_app_length' by (rewrite !length_app; simpl; lia). rewrite drop_app_length.
    rewrite <- (chars_string_of w) at 1. by apply c_string_app, no_nul_chars.
Qed.

(** A word is ended, quoted and added. *)
Lemma word_run U l s b m start A w x tl q (k : nat -> VM unit) : Cut U l s b m start ->
  m = A ++ w ++ x :: tl -> (start <= length A)%nat -> Forall (fun c => wordy c = true) w ->
  x = NUL \/ x = space ->
  let e := (length A + length w)%nat in
  exists s', (do! c := read_char b e in
              do! e := (if Ascii.eqb c " " then write_at b e [NUL] ;;; ret (S e) else ret e) in
              (match q with Some q => add (Lit q) | None => ret tt end) ;;;
              add (Buf b (length A)) ;;; k e) s = k (if Ascii.eqb x " " then S e else e) s' /\
  Cut U (l ++ (plain <$> quoted q (string_of w))) s' b (A ++ w ++ NUL :: tl) (S e).
Proof.
  intros C Em Hs Hw Hx e. destruct (word_at m A w tl x Em Hw) as (Hxe & Wr & Len & Tk & _ & Le & Str).
  fold e in Hxe, Wr, Tk, Le, Str. set (m' := A ++ w ++ NUL :: tl) in *.
  pose proof (c_mem _ _ _ _ _ _ C) as Hm. unfold bind at 1. rewrite (read_char_run s b m e x Hm Hxe).
  assert (exists s1, (if Ascii.eqb x " " then write_at b e [NUL] ;;; ret (S e) else ret e) s =
    Value (if Ascii.eqb x " " then S e else e) s1 /\ Cut U l s1 b m' (S e)) as (s1 & E1 & C1).
  { destruct Hx as [-> | ->]; simpl.
    - exists s. split; [done|]. rewrite <- Wr. replace (take e m ++ [NUL] ++ drop (e + 1) m) with m.
      + by apply (cut_later _ _ _ _ _ start); [done|unfold e; lia].
      + rewrite <- (take_drop e m) at 1. f_equal. rewrite (drop_S m NUL e Hxe), Nat.add_1_r. done.
    - unfold bind. rewrite (write_at_run s b e m [NUL] Hm Le). change (length [NUL]) with 1%nat.
      rewrite Wr. eexists. split; [done|]. apply (cut_later _ _ _ _ _ e); [|lia].
      apply (cut_write _ _ _ _ m); [|done|done]. by apply (cut_later _ _ _ _ _ start); [done|unfold e; lia]. }
  unfold bind at 1. rewrite E1. cbv beta iota.
  destruct (quote_run U l s1 b m' (S e) q C1) as (s2 & E2 & C2).
  destruct q as [q|]; unfold bind at 1; rewrite E2; cbv beta iota;
    (eexists; split; [done|]; pose proof (cut_word _ _ _ _ _ _ _ _ C2 Str) as C3;
     by rewrite <- app_assoc in C3).
Qed.

Lemma extra_opts_run b q : forall fuel U l s m start rest junk, Cut U l s b m start ->
  drop start m = rest ++ NUL :: junk -> Forall (fun c => c <> NUL) rest ->
  (length rest < fuel)%nat ->
  exists s', extra_opts fuel b q start s = Value tt s' /\ Inv B U (l ++ quoted_words q rest) s'.
Proof.
  induction fuel as [|fuel IH]; intros U l s m start rest junk C Hd Hr Hf; [lia|].
  pose proof (c_mem _ _ _ _ _ _ C) as Hm. pose proof (c_inv _ _ _ _ _ _ C) as I0.
  assert (forall i, drop start m !! i = m !! (start + i)%nat) as Hat by (intros; apply lookup_drop).
  destruct rest as [|c0 rest0] eqn:Er.
  { exists s. rewrite app_nil_r. split; [|done]. cbn [extra_opts]. unfold bind.
    rewrite (read_char_run s b m start NUL Hm); [done|]. by rewrite <- (Nat.add_0_r start), <- Hat, Hd. }
  rewrite <- Er in *. assert (m !! start = Some c0) as H0
    by (by rewrite <- (Nat.add_0_r start), <- Hat, Hd, Er).
  assert (c0 <> NUL) as D0 by (rewrite Er in Hr; by inversion Hr). clear Er rest0.
  destruct (leading_spaces rest) as (n & l1 & -> & Hl1). rewrite length_app, length_replicate in Hf.
  cbn [extra_opts]. unfold bind at 1. rewrite (read_char_run s b m start c0 Hm H0).
  destruct (Ascii.eqb_spec c0 NUL) as [?|_]; [done|]. rewrite <- app_assoc in Hd.
  destruct Hl1 as [->|(c & l1' & -> & Hc)].
  { exists s. rewrite app_nil_r in *. split.
    - unfold bind at 1. rewrite (skip_spaces_run s b m Hm n _ start NUL junk) by (done || lia).
      unfold bind at 1. rewrite (read_char_run s b m _ NUL Hm); [done|].
      rewrite <- Hat, Hd. rewrite lookup_app_r by (rewrite length_replicate; lia).
      by rewrite length_replicate, Nat.sub_diag.
    - unfold quoted_words. rewrite <- (app_nil_r (replicate n space)), words_spaces. simpl.
      by rewrite app_nil_r. }
  set (i := (start + n)%nat).
  assert (drop i m = c :: l1' ++ NUL :: junk) as Hdi.
  { unfold i. rewrite <- drop_drop, Hd, drop_app_length' by (by rewrite length_replicate). done. }
  apply Forall_app in Hr as [_ Hr]. inversion Hr as [|? ? Hcz Hr1]; subst.
  destruct (leading_word l1' Hr1) as (tok & r2 & -> & Ht & Hr2).
  assert (Forall (fun c => wordy c = true) (c :: tok)) as Hw.
  { constructor; [|done]. unfold wordy, space in *. apply andb_true_iff.
    split; apply negb_true_iff, Ascii.eqb_neq; done. }
  rewrite (quoted_words_cons q n c tok r2 Hc Hcz Ht Hr2).
  unfold bind at 1. rewrite (skip_spaces_run s b m Hm n _ start c ((tok ++ r2) ++ NUL :: junk)) by (done || lia).
  fold i. unfold bind at 1. rewrite (read_char_run s b m i c Hm).
  2: { pose proof (lookup_drop m i 0) as H. rewrite Hdi, Nat.add_0_r in H. by rewrite <- H. }
  destruct (Ascii.eqb_spec c NUL) as [?|_]; [done|].
  assert (m = take i m ++ (c :: tok) ++ (r2 ++ NUL :: junk)) as Em.
  { rewrite <- (take_drop i m) at 1. rewrite Hdi. simpl. by rewrite <- app_assoc. }
  assert (length (take i m) = i) as Li.
  { rewrite length_take, Nat.min_l; [done|]. apply Nat.lt_le_incl.
    assert (length (drop i m) <> 0%nat) as Hn by (by rewrite Hdi). rewrite length_drop in Hn. lia. }
  unfold bind at 1. destruct Hr2 as [->|[r3 ->]].
  - rewrite (find_end_run s b m Hm tok _ (i + 1) NUL junk).
    2: { rewrite <- drop_drop, Hdi. by rewrite app_nil_r. }
    2-4: first [done|simpl in Hf; rewrite length_app in Hf; lia].
    destruct (word_run U l s b m start (take i m) (c :: tok) NUL junk q
      (extra_opts fuel b q) C Em) as (s' & E & C'); [rewrite Li; unfold i; lia|done|by left|].
    rewrite Li in E, C'. replace (i + 1 + length tok)%nat with (i + length (c :: tok))%nat by (simpl; lia).
    rewrite E. exists s'. split; [|by rewrite app_nil_r; apply (c_inv _ _ _ _ _ _ C')].
    destruct fuel as [|fuel]; [simpl in Hf; lia|]. cbn [extra_opts]. unfold bind.
    erewrite (read_char_run s' b _ _ NUL (c_mem _ _ _ _ _ _ C')); [done|].
    change (Ascii.eqb NUL " ") with false. cbv iota. rewrite lookup_app_r by lia. rewrite Li. rewrite lookup_app_r by lia.
    by replace (_ - _ - _)%nat with 0%nat by (simpl; lia).
  - rewrite (find_end_run s b m Hm tok _ (i + 1) space (r3 ++ NUL :: junk)).
    2: { rewrite <- drop_drop, Hdi. by rewrite <- app_assoc. }
    2-4: first [done|simpl in Hf; rewrite length_app in Hf; lia].
    destruct (word_run U l s b m start (take i m) (c :: tok) space (r3 ++ NUL :: junk) q
      (extra_opts fuel b q) C Em) as (s' & E & C'); [rewrite Li; unfold i; lia|done|by right|].
    rewrite Li in E, C'. replace (i + 1 + length tok)%nat with (i + length (c :: tok))%nat by (simpl; lia).
    rewrite E. simpl (if Ascii.eqb space " " then _ else _).
    destruct (IH U _ s' _ _ r3 junk C') as (s2 & E2 & I2).
    + pose proof (word_at _ (take i m) (c :: tok) (r3 ++ NUL :: junk) space Em Hw) as W.
      simpl in W. rewrite Li in W. by destruct W as (_ & _ & _ & _ & W & _).
    + by apply Forall_app in Hr1 as [_ [_ Hr1]%Forall_cons].
    + simpl in Hf. rewrite length_app in Hf. simpl in Hf. lia.
    + exists s2. split; [done|]. by rewrite <- app_assoc in I2.
Qed.

End Loop.
