(* ===== verification/RuntimeBlocks.v ===== *)
(** * RuntimeBlocks: the options of startVm, group by group

    Each group of options of [Runtime], run in a state with [Inv], adds the strings
    [RuntimeOpts] lists for it; the arrays of the group, that no option pointed into,
    are pointed into afterwards. *)

From Stdlib Require Import Ascii.
From S2P Require Import Prelude CppWorld Runtime RuntimeOpts RuntimeRules RuntimeWords.

#[local] Open Scope Z_scope.

Section Blocks.
Context `{D : !Device} (B : build) `{DL : !DeviceLaws B}.

Implicit Types (s : vm_state) (U : list string) (l : list vm_option).

(** ** The arrays *)

Fixpoint size_of (b : string) (l : list (string * nat)) : option nat :=
  match l with
  | [] => None
  | (b', n) :: l => if String.eqb b b' then Some n else size_of b l
  end.

Lemma size_in b n (l : list (string * nat)) : size_of b l = Some n -> (b, n) ∈ l.
Proof.
  induction l as [|[b' n'] l IH]; simpl; [done|].
  destruct (String.eqb_spec b b') as [->|]; [intros [= ->]; by left|]. intros H. right. by apply IH.
Qed.

(** No option points into the arrays of a group. *)
Definition unused (bs U : list string) : Prop := Forall (.∉ U) bs.

Lemma unused_in bs U b : unused bs U -> b ∈ bs -> b ∉ U.
Proof. intros H Hb. by eapply (proj1 (List.Forall_forall _ _) H), list_elem_of_In. Qed.

(** ** Words out of an array *)

Lemma wp_parseExtraOpts U l s b t q Q : Inv B U l s -> b ∉ U -> holds s b t ->
  (forall s', Inv B (b :: U) (l ++ (plain <$> (words t ≫= quoted q))) s' -> Q tt s') ->
  wp (parseExtraOpts b q) s Q.
Proof.
  intros I Hb H K. unfold holds in H. simpl in H.
  destruct (v_mem s !! b) as [m|] eqn:Hm; [|done]. simpl in H. rewrite drop_0 in H.
  destruct (c_string_split m t H) as (junk & Em & Hn).
  destruct (extra_opts_run B b q (S (length m)) (b :: U) l s m 0 (chars t) junk) as (s' & E & I').
  - by apply cut_start.
  - by rewrite drop_0.
  - done.
  - rewrite Em, length_app. simpl. lia.
  - apply wp_bind. eapply wp_value; [unfold buffer; by rewrite Hm|]. cbv beta.
    eapply wp_value; [exact E|]. by apply K.
Qed.

End Blocks.

(** The rule of an option: its array is there, is large enough and is not used. *)
Ltac array :=
  lazymatch goal with
  | |- @elem_of _ _ _ _ (local_arrays _) => apply size_in; reflexivity
  | |- (_ <= _)%nat => simpl; lia
  | DL : DeviceLaws ?B |- (_ < _)%nat =>
      let H := fresh in pose proof (value_length (B := B) "" "") as H; simpl; lia
  | |- no_nul _ = true => reflexivity
  | |- ~ @elem_of _ _ _ _ _ =>
      rewrite ?not_elem_of_cons; repeat split;
      solve [discriminate | eapply unused_in; [eassumption | by repeat constructor]]
  end.

Ltac seq := lazymatch goal with |- wp (bind _ _) _ _ => apply wp_bind | _ => idtac end.

Ltac option_rule :=
  seq; cbv beta iota;
  lazymatch goal with
  | I : Inv ?B _ _ ?s |- wp ?m ?s _ =>
      lazymatch m with
      | @runtime_option _ _ _ _ _ => eapply (wp_runtime_option B)
      | @compiler_runtime_option _ _ _ _ _ => eapply (wp_compiler_runtime_option B)
      | @compiler_option _ _ _ _ _ => eapply (wp_compiler_option B)
      | @property_get _ _ _ _ _ => eapply (wp_property B)
      | strcpy _ _ _ => eapply (wp_strcpy B)
      | parseExtraOpts _ _ => eapply (wp_parseExtraOpts B)
      | add (Lit _) => eapply (wp_add_lit B)
      | addOption (Lit _) _ => eapply (wp_lit B)
      end; [exact I | first [eassumption | array] .. | clear I; intros; cbv beta]
  end.

(** Looking at the string of an array. *)
Ltac look :=
  seq; cbv beta iota;
  lazymatch goal with
  | |- wp (string_is _ _) _ _ => eapply wp_string_is
  | |- wp (read_char _ _) _ _ => eapply wp_first_char
  end; [eassumption | ]; cbv beta.

(** The end of a group: its options in the order of the specification. *)
Ltac group_end :=
  lazymatch goal with |- wp (ret _) _ _ => unfold wp, ret | _ => idtac end;
  lazymatch goal with
  | I : Inv _ _ _ ?s |- ?Q tt ?s =>
      match goal with K : forall s', _ -> Q tt s' |- _ => apply K end;
      rewrite <- ?app_assoc in *; exact I
  end.

Section Groups.
Context `{D : !Device} (B : build) `{DL : !DeviceLaws B}.

Implicit Types (s : vm_state) (U : list string) (l : list vm_option).

Lemma wp_when U l s (c : bool) strs (m : VM unit) Q : Inv B U l s ->
  (forall Q' : unit -> vm_state -> Prop,
     (forall s', Inv B U (l ++ (plain <$> strs)) s' -> Q' tt s') -> wp m s Q') ->
  (forall s', Inv B U (l ++ only_if c strs) s' -> Q tt s') -> wp (when c m) s Q.
Proof.
  intros I Hm K. destruct c; simpl; [by apply Hm|]. apply K. by rewrite app_nil_r.
Qed.

Lemma wp_when_lit U l s (c : bool) t Q : Inv B U l s ->
  (forall s', Inv B U (l ++ only_if c [t]) s' -> Q tt s') -> wp (when c (add (Lit t))) s Q.
Proof. intros I. apply wp_when; [done|]. intros Q' K. option_rule. by apply K. Qed.

(** ** The groups *)

Definition hook_bufs : list string := ["jniOptsBuf"; "stackTraceFileBuf"].

Lemma wp_options_hooks U l s Q : Inv B U l s -> unused hook_bufs U ->
  (forall s', Inv B (hook_bufs ++ U) (l ++ hook_opts) s' -> Q tt s') -> wp options_hooks s Q.
Proof. intros I F K. unfold options_hooks, hook_opts in *. do 7 option_rule. group_end. Qed.

Definition heap_bufs : list string :=
  ["heaptargetutilizationOptsBuf"; "heapmaxfreeOptsBuf"; "heapminfreeOptsBuf";
   "heapgrowthlimitOptsBuf"; "heapsizeOptsBuf"; "heapstartsizeOptsBuf"].

Lemma wp_options_heap U l s Q : Inv B U l s -> unused heap_bufs U ->
  (forall s', Inv B (heap_bufs ++ U) (l ++ heap_opts) s' -> Q tt s') -> wp options_heap s Q.
Proof. intros I F K. unfold options_heap, heap_opts in *. do 6 option_rule. group_end. Qed.

Definition jit_bufs : list string :=
  ["jittransitionweightOptBuf"; "jitprithreadweightOptBuf"; "jitthresholdOptsBuf";
   "jitinitialsizeOptsBuf"; "jitmaxsizeOptsBuf"; "usejitOptsBuf"].

Lemma wp_options_jit U l s Q : Inv B U l s -> unused ("useJitProfilesOptsBuf" :: jit_bufs) U ->
  (forall s', Inv B (jit_bufs ++ U) (l ++ jit_opts) s' -> Q tt s') -> wp options_jit s Q.
Proof.
  intros I F K. unfold options_jit, jit_opts in *. do 5 option_rule. seq. look.
  eapply wp_when_lit; [eassumption|]. intros. do 2 option_rule. group_end.
Qed.

Definition gc_bufs : list string := ["backgroundgcOptsBuf"; "gctypeOptsBuf"].

Lemma wp_options_gc U l s Q : Inv B U l s -> unused ("propBuf" :: gc_bufs) U ->
  (forall s', Inv B (gc_bufs ++ U) (l ++ gc_opts) s' -> Q tt s') -> wp options_gc s Q.
Proof.
  intros I F K. unfold options_gc, gc_opts in *. option_rule. seq. look. 
  eapply wp_when_lit; [eassumption|]. intros. do 2 option_rule. group_end.
Qed.

(** [strcmp] of the array with the value of a property. *)
Lemma wp_checkjni U l s Q : Inv B U l s -> unused ["propBuf"] U ->
  (forall s', Inv B U (l ++ only_if checkjni ["-Xcheck:jni"%string]) s' -> Q tt s') ->
  wp options_checkjni s Q.
Proof.
  intros I F K. unfold options_checkjni. option_rule. look. seq.
  change (String.eqb (property_value "dalvik.vm.checkjni" "") "true")
    with (has_value "dalvik.vm.checkjni" "true").
  assert (forall c s', Inv B U l s' -> c = checkjni -> wp (when c (add (Lit "-Xcheck:jni"))) s' Q) as E.
  { intros c s2 I2 ->. by eapply wp_when_lit. }
  unfold checkjni in E. destruct (has_value "dalvik.vm.checkjni" "true"); [by apply E|].
  look. unfold has_value in *. destruct (String.eqb _ "false"); simpl in *; [by apply E|].
  option_rule. look. apply E; [done|].
  destruct (property_value "ro.kernel.android.checkjni" "") as [|[[] [] [] [] [] [] [] []] t]; done.
Qed.

Definition mode : execution_mode :=
  if has_value "dalvik.vm.execution-mode" "int:portable" then kEMIntPortable
  else if has_value "dalvik.vm.execution-mode" "int:fast" then kEMIntFast
  else if has_value "dalvik.vm.execution-mode" "int:jit" then kEMJitCompiler
  else kEMDefault.

Lemma wp_execution_mode U l s Q : Inv B U l s -> unused ["propBuf"] U ->
  (forall s', Inv B U l s' -> Q mode s') -> wp read_execution_mode s Q.
Proof. intros I F K. unfold read_execution_mode. option_rule. do 3 look. by apply K. Qed.

Definition debug_bufs : list string := ["lockProfThresholdBuf"].

Lemma wp_options_debug U l s zygote Q : Inv B U l s -> unused debug_bufs U ->
  (forall s', Inv B (debug_bufs ++ U) (l ++ debug_opts zygote) s' -> Q tt s') ->
  wp (options_debug zygote mode) s Q.
Proof.
  intros I F K. unfold options_debug, debug_opts in *. seq.
  eapply wp_when_lit; [eassumption|]. clear I. intros. option_rule.
  unfold mode, mode_opt in *.
  destruct (has_value _ "int:portable"); [option_rule; group_end|].
  destruct (has_value _ "int:fast"); [option_rule; group_end|].
  destruct (has_value _ "int:jit"); [option_rule; group_end|].
  simpl in K. rewrite app_nil_r in K. group_end.
Qed.

Lemma wp_skip_compilation U l s Q : Inv B U l s -> unused ["voldDecryptBuf"] U ->
  (forall s', Inv B U l s' -> Q skip_compilation s') -> wp read_skip_compilation s Q.
Proof. intros I F K. unfold read_skip_compilation. option_rule. do 2 look. by apply K. Qed.

Definition image_bufs : list string :=
  ["dex2oatImageCompilerFilterBuf"; "dex2oatXmxImageFlagsBuf"; "dex2oatXmsImageFlagsBuf"].

Lemma wp_options_image U l s Q : Inv B U l s -> unused image_bufs U ->
  (forall s', Inv B (image_bufs ++ U) (l ++ image_opts) s' -> Q tt s') ->
  wp (options_image skip_compilation) s Q.
Proof.
  intros I F K. unfold options_image, image_opts in *. do 2 option_rule.
  destruct skip_compilation; [|option_rule; group_end].
  do 2 option_rule. apply K. rewrite <- !app_assoc in *. eapply inv_more; [eassumption|]. set_solver.
Qed.

Definition class_bufs : list string := ["dex2oatImageFlagsBuf"].

Lemma wp_options_classes U l s Q : Inv B U l s -> unused class_bufs U ->
  (forall s', Inv B (class_bufs ++ U) (l ++ class_opts) s' -> Q tt s') -> wp options_classes s Q.
Proof.
  intros I F K. unfold options_classes, class_opts in *. do 2 option_rule. seq.
  eapply (wp_when _ _ _ _ ["-Ximage-compiler-option";
    "--compiled-classes=/system/etc/compiled-classes"]%string); [eassumption| |].
  { intros Q' K'. do 2 option_rule. group_end. }
  intros. do 2 option_rule. group_end.
Qed.

Definition dex2oat_bufs : list string :=
  ["dex2oatThreadsImageBuf"; "dex2oatThreadsBuf"; "dex2oatCompilerFilterBuf"; "dex2oatXmxFlagsBuf";
   "dex2oatXmsFlagsBuf"].

Lemma wp_options_dex2oat U l s Q : Inv B U l s -> unused dex2oat_bufs U ->
  (forall s', Inv B (dex2oat_bufs ++ U) (l ++ dex2oat_opts) s' -> Q tt s') ->
  wp (options_dex2oat skip_compilation) s Q.
Proof.
  intros I F K. unfold options_dex2oat, dex2oat_opts in *. do 2 option_rule. seq.
  destruct skip_compilation; [|do 3 option_rule; group_end].
  do 6 option_rule. apply K. rewrite <- !app_assoc in *. eapply inv_more; [eassumption|]. set_solver.
Qed.

Definition extra_bufs : list string := ["extraOptsBuf"; "dex2oatFlagsBuf"].

Lemma wp_options_extra U l s Q : Inv B U l s -> unused extra_bufs U ->
  (forall s', Inv B (extra_bufs ++ U) (l ++ extra_opts_) s' -> Q tt s') -> wp options_extra s Q.
Proof. intros I F K. unfold options_extra, extra_opts_ in *. do 4 option_rule. group_end. Qed.

(** ** The groups with arrays used otherwise *)

Lemma isa_key_fits what : (String.length what <= 9)%nat -> no_nul what = true ->
  (String.length (isa_key B what) < PROPERTY_KEY_MAX B)%nat /\ no_nul (isa_key B what) = true.
Proof.
  intros Hl Hn. unfold isa_key. rewrite !length_string_app, !no_nul_app, Hn, (isa_no_nul (B := B)).
  pose proof (isa_length (B := B)). pose proof (key_length (B := B)). split; [simpl; lia|done].
Qed.

Lemma wp_read_string s b t Q : holds s b t -> Q t s -> wp (read_string (Buf b 0)) s Q.
Proof. intros H. eapply wp_value. by apply read_string_run. Qed.

(** Both compilers get what a key in an array says. *)
Lemma wp_isa_option U l s keybuf buf n what arg Q : Inv B U l s -> unused [keybuf; buf] U ->
  (keybuf, PROPERTY_KEY_MAX B) ∈ local_arrays B -> (buf, n) ∈ local_arrays B ->
  (String.length arg + PROPERTY_VALUE_MAX B <= n)%nat -> no_nul arg = true ->
  (String.length what <= 9)%nat -> no_nul what = true ->
  (forall s', Inv B (buf :: U) (l ++ compiler_opt (isa_key B what) arg "-Ximage-compiler-option" ++
     compiler_opt (isa_key B what) arg "-Xcompiler-option") s' -> Q tt s') ->
  wp (strcpy keybuf 0 ("dalvik.vm.isa." +:+ instruction_set B +:+ what) ;;;
      (do! key := read_string (Buf keybuf 0) in
       compiler_option key buf arg "-Ximage-compiler-option" ;;;
       compiler_option key buf arg "-Xcompiler-option")) s Q.
Proof.
  intros I F Hk Hb Hl Ha Hw Nw K. destruct (isa_key_fits what Hw Nw) as [Lk Nk].
  apply wp_bind. eapply (wp_strcpy B); [exact I| |exact Hk|exact Lk|exact Nk|].
  { eapply unused_in; [exact F|by left]. }
  intros s1 I1 H1. apply wp_bind. eapply wp_read_string; [exact H1|]. apply wp_bind.
  eapply (wp_compiler_option_kept B); [exact I1| |exact Hb|exact Hl|exact Ha|].
  { eapply unused_in; [exact F|by right; left]. }
  intros s2 I2 H2. eapply (wp_compiler_option_again B); [exact I2|by left|exact Hb|exact Hl|exact Ha|exact H2|].
  intros s3 I3. apply K. by rewrite <- app_assoc in I3.
Qed.

Definition isa_bufs : list string := ["dex2oat_isa_features"; "dex2oat_isa_variant"].

Lemma wp_options_isa U l s Q : Inv B U l s ->
  unused ("dex2oat_isa_variant_key" :: "dex2oat_isa_features_key" :: isa_bufs)%string U ->
  (forall s', Inv B (isa_bufs ++ U) (l ++ isa_opts B) s' -> Q tt s') -> wp (options_isa B) s Q.
Proof.
  intros I F K. unfold options_isa, isa_opts in *.
  assert (forall (m1 m2 m3 : VM unit) s Q', wp ((m1 ;;; m2) ;;; m3) s Q' -> wp (m1 ;;; m2 ;;; m3) s Q')
    as A.
  { intros m1 m2 m3 s' Q'. unfold wp, bind. by destruct (m1 s'). }
  apply A, wp_bind. eapply (wp_isa_option U); [exact I| |array..|].
  { repeat constructor; (eapply unused_in; [exact F|by repeat constructor]). }
  intros s1 I1. eapply (wp_isa_option _); [exact I1| |array..|].
  { repeat constructor; array. }
  intros s2 I2. group_end.
Qed.

(** The strings of the locale come from properties. *)
Lemma no_nul_readLocale : no_nul readLocale = true.
Proof.
  assert (forall k d, no_nul (getProperty k d) = true) as H.
  { intros k d. unfold getProperty. destruct (_ <? 0)%Z; [done|]. apply (value_no_nul (B := B)). }
  unfold readLocale. cbv zeta.
  repeat match goal with |- context [if ?c then _ else _] => destruct c end;
    rewrite ?no_nul_app, ?H; done.
Qed.

Lemma no_nul_take n t : no_nul t = true -> no_nul (string_of (take n (chars t))) = true.
Proof.
  unfold no_nul. rewrite chars_string_of. intros H. apply forallb_forall. intros x Hx.
  apply (proj1 (forallb_forall _ _) H). rewrite <- (take_drop n (chars t)). apply in_or_app. by left.
Qed.

Lemma wp_strncat U l s b n pre t k Q : Inv B U l s -> b ∉ U -> (b, n) ∈ local_arrays B ->
  holds s b pre -> (String.length pre + k < n)%nat -> no_nul pre = true -> no_nul t = true ->
  (forall s', Inv B U l s' -> holds s' b (pre +:+ string_of (take k (chars t))) -> Q tt s') ->
  wp (strncat b t k) s Q.
Proof.
  intros I Hb Hn H Hl Np Nt K. destruct (i_sized _ _ _ _ I b n Hn) as (m & Hm & <-).
  assert (filled m pre = m) as Em. { apply filled_same. unfold holds in H. simpl in H. by rewrite Hm in H. }
  apply wp_bind. eapply wp_read_string; [exact H|]. set (u := string_of (take k (chars t))) in *.
  assert (String.length u <= k)%nat as Lu.
  { rewrite <- length_chars. unfold u. rewrite chars_string_of, length_take. lia. }
  replace (take k (chars t)) with (chars u) by apply chars_string_of.
  eapply wp_value; [apply (strcpy_after s b m); [by rewrite Em|lia]|]. apply K.
  - eapply inv_put; [done|done|done|]. apply length_filled. rewrite length_string_app. lia.
  - apply holds_put. rewrite no_nul_app, Np. by apply no_nul_take.
Qed.

Definition locale_bufs : list string := ["localeOption"].

Lemma wp_options_locale U l s Q : Inv B U l s -> unused locale_bufs U ->
  (forall s', Inv B (locale_bufs ++ U) (l ++ locale_opts B) s' -> Q tt s') -> wp (options_locale B) s Q.
Proof.
  intros I F K. unfold options_locale, locale_opts in *. option_rule. seq.
  eapply wp_strncat; [eassumption|array|array|eassumption|simpl; lia|done|apply no_nul_readLocale|].
  intros s2 I2 H2. eapply (wp_add_buf B); [exact I2|exact H2|]. intros s3 I3 _. by apply K.
Qed.

(** [snprintf] of a string that fits. *)
Lemma wp_snprintf U l s b n t Q : Inv B U l s -> b ∉ U -> (b, n) ∈ local_arrays B ->
  (String.length t < n)%nat -> no_nul t = true ->
  (forall s', Inv B U l s' -> holds s' b t -> Q tt s') -> wp (snprintf b n t) s Q.
Proof.
  intros I Hb Hn Hl Ht K. unfold snprintf. rewrite take_ge by (rewrite length_chars; lia).
  by eapply (wp_strcpy B U l s b n t).
Qed.

Definition bridge_bufs : list string := ["nativeBridgeLibrary"].

Lemma wp_options_bridge U l s Q : Inv B U l s -> unused ("propBuf" :: bridge_bufs)%string U ->
  (forall s', Inv B (bridge_bufs ++ U) (l ++ bridge_opts) s' -> Q tt s') -> wp (options_bridge B) s Q.
Proof.
  intros I F K. unfold options_bridge, bridge_opts in *. option_rule. look.
  pose proof (value_no_nul (B := B) "ro.dalvik.vm.native.bridge" "") as Nv.
  pose proof (value_length (B := B) "ro.dalvik.vm.native.bridge" "") as Lv.
  set (v := property_value "ro.dalvik.vm.native.bridge" "") in *. rewrite (is_set v Nv).
  assert (forall s', Inv B U l s' -> Inv B (bridge_bufs ++ U) (l ++ []) s') as More.
  { intros s1 I1. rewrite app_nil_r. eapply inv_more; [exact I1|]. set_solver. }
  destruct (String.eqb v ""); simpl in K; [by apply K, More|]. look.
  destruct (String.eqb v "0"); simpl in K; [by apply K, More|]. unfold when. simpl.
  seq. eapply wp_read_string; [eassumption|]. seq.
  eapply wp_snprintf; [eassumption|array|array|rewrite length_string_app; simpl; lia
                      |by rewrite no_nul_app, Nv|].
  intros s2 I2 H2. eapply (wp_add_buf B); [exact I2|exact H2|]. intros s3 I3 _. by apply K.
Qed.

Definition abilist_bufs : list string := ["cpuAbiListBuf"].

(** The options that are left out without a list. *)
Lemma wp_options_abilist U l s (Q : bool -> vm_state -> Prop) : Inv B U l s ->
  unused ("propBuf" :: abilist_bufs)%string U ->
  (abis B = ""%string -> forall s', Inv B U l s' -> Q false s') ->
  (abis B <> ""%string -> forall s', Inv B (abilist_bufs ++ U)
     (l ++ [plain ("--cpu-abilist=" +:+ abis B)]) s' -> Q true s') ->
  wp (options_abilist B) s Q.
Proof.
  intros I F K1 K2. unfold options_abilist. option_rule. fold (abis B) in *. look.
  assert (no_nul (abis B) = true) as Nv by apply (value_no_nul (B := B)).
  assert (String.length (abis B) < PROPERTY_VALUE_MAX B)%nat as Lv by apply (value_length (B := B)).
  rewrite (is_set _ Nv). destruct (String.eqb_spec (abis B) "") as [E|N]; [by apply K1|].
  seq. eapply wp_read_string; [eassumption|]. seq.
  eapply wp_snprintf; [eassumption|array|array|rewrite length_string_app; simpl; lia
                      |by rewrite no_nul_app, Nv|].
  intros s2 I2 H2. seq. eapply (wp_add_buf B); [exact I2|exact H2|]. intros s3 I3 _. by apply K2.
Qed.

Definition last_bufs : list string := ["fingerprintBuf"; "cachePruneBuf"].

Lemma wp_options_last U l s Q : Inv B U l s -> unused ("propBuf" :: last_bufs)%string U ->
  (forall s', Inv B (last_bufs ++ U) (l ++ last_opts) s' -> Q tt s') -> wp options_last s Q.
Proof.
  intros I F K. unfold options_last, last_opts in *. do 2 option_rule. seq. look.
  eapply (wp_when _ _ _ _ ["-Xcompiler-option"; "--generate-debug-info";
    "-Ximage-compiler-option"; "--generate-debug-info"]%string); [eassumption| |].
  { intros Q' K'. do 4 option_rule. group_end. }
  intros. option_rule. group_end.
Qed.

Definition trace_bufs : list string := ["methodTraceFileSizeBuf"; "methodTraceFileBuf"].

Lemma wp_options_trace U l s Q : Inv B U l s -> unused ("propBuf" :: trace_bufs)%string U ->
  (forall s', Inv B (trace_bufs ++ U) (l ++ trace_opts) s' -> Q tt s') -> wp options_trace s Q.
Proof.
  intros I F K. unfold options_trace, trace_opts in *. option_rule. look.
  assert (forall s1, Inv B U l s1 -> Inv B (trace_bufs ++ U) (l ++ []) s1) as More.
  { intros s1 I1. rewrite app_nil_r. eapply inv_more; [exact I1|]. set_solver. }
  destruct (String.eqb (property_value "ro.debuggable" "0") "1"); simpl in K; [|by apply K, More].
  unfold when at 1. option_rule. look.
  destruct (String.eqb (property_value "dalvik.vm.method-trace" "false") "true"); simpl in K;
    [|by apply K, More].
  unfold when at 1. do 4 option_rule. look. eapply wp_when_lit; [eassumption|]. intros. group_end.
Qed.

End Groups.
