(* ===== verification/RuntimeThms.v ===== *)
(** * RuntimeThms: the virtual machine is started with the options asked for

    [startVm_options]: whatever the properties hold, and whatever the arrays held
    before, [startVm] crashes nowhere and hands [JNI_CreateJavaVM] the strings of
    [vm_options], in their order; [parseExtraOpts_words]: an array is cut into its
    words.  With a phone on which both can be run. *)

From Stdlib Require Import Ascii.
From S2P Require Import Prelude CppWorld Runtime RuntimeOpts RuntimeRules RuntimeWords RuntimeBlocks.

#[local] Open Scope Z_scope.

(** ** Entering and leaving *)

Section Start.
Context `{D : !Device} (B : build) `{DL : !DeviceLaws B}.
Context (uninitialised : string -> nat -> ascii).

Implicit Types (s : vm_state) (U : list string) (l : list vm_option).

(** The options that were added before are literals. *)
Definition options_before s l : Prop := mapM (option_of ∅) (mOptions s) = Some l.

Lemma option_of_lit o t m : option_of ∅ o = Some t ->
  option_of m o = Some t /\ forall b off, optionString o <> Buf b off.
Proof. unfold option_of. by destruct (optionString o). Qed.

Lemma mapM_lit (os : list JavaVMOption) l m : mapM (option_of ∅) os = Some l ->
  mapM (option_of m) os = Some l /\ forall o b off, o ∈ os -> optionString o <> Buf b off.
Proof.
  revert l. induction os as [|o os IH]; simpl; intros l H.
  - split; [done|]. intros o b off Ho. by apply elem_of_nil in Ho.
  - destruct (option_of ∅ o) as [t|] eqn:E; [|done]. simpl in H.
    destruct (mapM (option_of ∅) os) as [l'|]; [|done].
    destruct (IH l' eq_refl) as [IH1 IH2], (option_of_lit o t m E) as [E' N].
    rewrite E'. simpl. rewrite IH1. split; [done|].
    intros o' b off [->|Ho]%elem_of_cons; [by apply N|by apply IH2].
Qed.

Lemma wp_enter s l Q : options_before s l -> v_created s = None ->
  (forall s', Inv B [] l s' -> Q tt s') -> wp (enter_startVm B uninitialised) s Q.
Proof.
  intros H C K. apply K. destruct (mapM_lit (mOptions s) l
    (list_to_map ((fun '(b, n) => (b, uninitialised b <$> seq 0 n)) <$> local_arrays B)) H) as [O N].
  split; [|exact O| |exact C].
  - intros b n Hn. exists (uninitialised b <$> seq 0 n). split; [|by rewrite length_fmap, length_seq].
    apply elem_of_list_to_map_1; [|apply list_elem_of_fmap; by exists (b, n)].
    apply (bool_decide_eq_true_1 _). vm_compute. reflexivity.
  - intros o b off Ho E. by destruct (N o b off Ho).
Qed.

Lemma read_options_run s os l : mapM (option_of (v_mem s)) os = Some l -> read_options os s = Value l s.
Proof.
  revert l. induction os as [|o os IH]; simpl; intros l H; [by injection H as <-|].
  destruct (option_of (v_mem s) o) as [t|] eqn:E; [|done]. simpl in H.
  destruct (mapM (option_of (v_mem s)) os) as [l'|]; [|done]. injection H as <-.
  unfold option_of in E. destruct (read_ptr (v_mem s) (optionString o)) as [t'|] eqn:E'; [|done].
  injection E as <-. unfold bind. by rewrite (read_string_run s _ t' E'), (IH l' eq_refl).
Qed.

Lemma wp_create_vm U l s (Q : Z -> vm_state -> Prop) : Inv B U l s ->
  (forall s', v_created s' = Some l -> Q (JNI_CreateJavaVM l) s') -> wp create_vm s Q.
Proof.
  intros I K. unfold create_vm. apply wp_bind. eapply wp_value; [reflexivity|]. cbv beta.
  apply wp_bind. eapply wp_value; [by apply read_options_run, I|]. by apply K.
Qed.

End Start.

Ltac free_arrays := apply (bool_decide_eq_true_1 _); vm_compute; reflexivity.

Section Theorems.
Context `{D : !Device} (B : build) `{DL : !DeviceLaws B}.
Context (uninitialised : string -> nat -> ascii).

(** There are classes to preload and a list of ABIs. *)
Definition can_start : bool :=
  hasFile "/system/etc/preloaded-classes" && negb (String.eqb (abis B) "").

(** C32: whatever the system properties hold, and whatever the arrays on the stack held
    before, startVm overflows no array and changes no option it has added: the virtual
    machine is created with the strings [vm_options] lists, in their order, behind
    those added before; it is not created at all without preloaded classes or a list
    of ABIs, and startVm says -1 exactly when no virtual machine was created. *)
Theorem startVm_options zygote s l : options_before s l -> v_created s = None ->
  let opts := l ++ vm_options B zygote in
  exists s', startVm B uninitialised zygote s =
    Value (if can_start && negb (JNI_CreateJavaVM opts <? 0) then 0 else -1) s' /\
    v_created s' = (if can_start then Some opts else None).
Proof.
  intros H0 C0 opts. set (R r s' := r = (if can_start && negb (JNI_CreateJavaVM opts <? 0) then 0 else -1) /\
    v_created s' = (if can_start then Some opts else None)).
  enough (wp (startVm B uninitialised zygote) s R) as W.
  { unfold wp in W. destruct (startVm B uninitialised zygote s) as [r s'| | |]; try done.
    destruct W as [-> W]. by exists s'. }
  unfold startVm. apply wp_bind, (wp_enter B uninitialised s l); [done..|]. intros s1 I1.
  apply wp_bind, (wp_checkjni B [] _ _ _ I1); [free_arrays|]. intros s2 I2.
  apply wp_bind, (wp_execution_mode B [] _ _ _ I2); [free_arrays|]. intros s3 I3.
  apply wp_bind, (wp_options_hooks B [] _ _ _ I3); [free_arrays|]. intros s4 I4.
  apply wp_bind, (wp_options_heap B _ _ _ _ I4); [free_arrays|]. intros s5 I5.
  apply wp_bind, (wp_options_jit B _ _ _ _ I5); [free_arrays|]. intros s6 I6.
  apply wp_bind, (wp_options_gc B _ _ _ _ I6); [free_arrays|]. intros s7 I7.
  apply wp_bind, (wp_options_debug B _ _ _ zygote _ I7); [free_arrays|]. intros s8 I8.
  apply wp_bind, (wp_skip_compilation B _ _ _ _ I8); [free_arrays|]. intros s9 I9.
  apply wp_bind, (wp_options_image B _ _ _ _ I9); [free_arrays|]. intros s10 I10.
  unfold can_start in R. destruct (hasFile _); [|by split; [done|apply I10]].
  apply wp_bind, (wp_options_classes B _ _ _ _ I10); [free_arrays|]. intros s11 I11.
  apply wp_bind, (wp_options_dex2oat B _ _ _ _ I11); [free_arrays|]. intros s12 I12.
  apply wp_bind, (wp_options_isa B _ _ _ _ I12); [free_arrays|]. intros s13 I13.
  apply wp_bind, (wp_options_extra B _ _ _ _ I13); [free_arrays|]. intros s14 I14.
  apply wp_bind, (wp_options_locale B _ _ _ _ I14); [free_arrays|]. intros s15 I15.
  apply wp_bind, (wp_options_trace B _ _ _ _ I15); [free_arrays|]. intros s16 I16.
  apply wp_bind, (wp_options_bridge B _ _ _ _ I16); [free_arrays|]. intros s17 I17.
  apply wp_bind, (wp_options_abilist B _ _ _ _ I17); [free_arrays|intros E s18 I18|intros E s18 I18].
  { split; [by rewrite E|]. rewrite E. apply I18. }
  apply wp_bind, (wp_options_last B _ _ _ _ I18); [free_arrays|]. intros s19 I19.
  apply wp_bind, (wp_create_vm B _ _ _ _ I19). intros s20 C20.
  rewrite <- !app_assoc in C20. rewrite <- !app_assoc. change (v_created s20 = Some opts) in C20.
  match goal with |- context [JNI_CreateJavaVM ?l <? 0] => change l with opts end.
  apply String.eqb_neq in E. unfold R. rewrite E. cbn [negb andb].
  destruct (JNI_CreateJavaVM opts <? 0); (split; [reflexivity|exact C20]).
Qed.

(** An array that holds the string t, and that no option points into, is cut into
    the words of t: parseExtraOpts ends, reads and writes nothing behind the string,
    adds a pointer to every word, with the argument that quotes it in front, and leaves
    every option added before as it was. *)
Theorem parseExtraOpts_words U l s b t q : Inv B U l s -> b ∉ U -> holds s b t ->
  exists s', parseExtraOpts b q s = Value tt s' /\
    Inv B (b :: U) (l ++ (plain <$> (words t ≫= quoted q))) s'.
Proof.
  intros I Hb H. enough (wp (parseExtraOpts b q) s (fun _ s' =>
    Inv B (b :: U) (l ++ (plain <$> (words t ≫= quoted q))) s')) as W.
  { unfold wp in W. destruct (parseExtraOpts b q s) as [[] s'| | |]; try done. by exists s'. }
  eapply (wp_parseExtraOpts B); [exact I|exact Hb|exact H|]. done.
Qed.

End Theorems.

(** ** A phone *)

Section Phone.

Definition phone_properties : list (string * string) := [
  ("dalvik.vm.checkjni", "true");
  ("dalvik.vm.extra-opts", " -Xa  -Xb ");
  ("dalvik.vm.isa.arm.variant", "krait");
  ("persist.sys.locale", "de-DE");
  ("ro.product.cpu.abilist32", "armeabi-v7a,armeabi")
]%string.

Definition fits (v : string) : bool := no_nul v && (String.length v <? 92)%nat.

#[local] Instance phone : Device := {
  property_value k d :=
    match List.find (fun '(k', v) => String.eqb k k' && fits v) phone_properties with
    | Some (_, v) => v
    | None => if fits d then d else ""
    end;
  stat_mode f := if String.eqb f "/system/etc/preloaded-classes" then Some 32768 else None;
  S_ISDIR m := m =? 16384;
  S_ISREG m := m =? 32768;
  JNI_CreateJavaVM _ := 0
}.

Definition arm : build := Build 32 92 "arm" false.

Lemma phone_fits k d : fits (property_value k d) = true.
Proof.
  unfold property_value, phone.
  match goal with |- context [List.find ?f ?l] => destruct (List.find f l) as [[k' v]|] eqn:E end.
  - apply List.find_some in E as [_ E]. by apply andb_true_iff in E as [_ E].
  - by destruct (fits d) eqn:F.
Qed.

#[local] Instance phone_laws : DeviceLaws arm.
Proof.
  assert (forall k d, fits (property_value k d) = true) as F by apply phone_fits.
  split; [..|done|simpl; lia|simpl; lia]; intros k d; specialize (F k d); unfold fits in F.
  - by apply andb_true_iff in F as [F _].
  - apply andb_true_iff in F as [_ F]. by apply Nat.ltb_lt.
Qed.

(** The stack holds letters; an option was given on the command line. *)
Definition junk (b : string) (i : nat) : ascii := "x".
Definition phone_start : vm_state := VmState ∅ [MkOption (Lit "-Xfirst") None] None.

Lemma startVm_options_witness :
  options_before phone_start [plain "-Xfirst"] /\
  exists s', startVm arm junk true phone_start = Value 0 s' /\
    v_created s' = Some (plain "-Xfirst" :: vm_options arm true).
Proof.
  split; [reflexivity|].
  exact (startVm_options arm junk true phone_start [plain "-Xfirst"] eq_refl eq_refl).
Defined.

(** The extra options of the phone, in their array. *)
Lemma phone_extra : exists s, Inv arm [] [] s /\ holds s "extraOptsBuf" " -Xa  -Xb ".
Proof.
  assert (wp (enter_startVm arm junk ;;; property_get "dalvik.vm.extra-opts" "extraOptsBuf" 0 "")
    (VmState ∅ [] None) (fun _ s => Inv arm [] [] s /\ holds s "extraOptsBuf" " -Xa  -Xb ")) as W.
  { apply wp_bind, (wp_enter arm junk _ []); [done..|]. intros s I.
    eapply (wp_property arm); [exact I|apply not_elem_of_nil|apply size_in; reflexivity|done|]. by split. }
  unfold wp in W. destruct (bind _ _ _) as [a s| | |]; [by exists s|done..].
Qed.

Lemma parseExtraOpts_words_witness : exists s, Inv arm [] [] s /\ exists s',
  parseExtraOpts "extraOptsBuf" None s = Value tt s' /\
  Inv arm ["extraOptsBuf"%string] [plain "-Xa"; plain "-Xb"] s'.
Proof.
  destruct phone_extra as (s & I & H). exists s. split; [exact I|].
  exact (parseExtraOpts_words arm [] [] s "extraOptsBuf" " -Xa  -Xb " None I
    (not_elem_of_nil _) H).
Defined.

End Phone.
