(* ===== verification/RuntimeStart.v ===== *)
(** * RuntimeStart: starting the runtime, its threads and its native methods

    Models the rest of jni/AndroidRuntime.cpp: [start], [startReg] and the table of
    registrations, [callMain], [exit], the hooks, the threads that are made visible to
    the virtual machine, [toSlashClassName], [NewStringLatin1], [setArgv0].  The
    virtual machine and the system are parameters; what is done to them is logged.
    Blocks of malloc are modelled, with their contents. *)

From Stdlib Require Import Ascii.
From S2P Require Import Prelude CppWorld Runtime.

#[local] Open Scope Z_scope.

(** ** The state *)

(** A block of malloc: characters, or the three words given to a new thread, the last
    of which is a pointer. *)
Inductive heap_block : Type :=
| Chars (l : list ascii)
| ThreadArgs (start : nat) (userData : Z) (name : option nat).

(** An object of the virtual machine, for classes, methods and strings. *)
Notation jref := nat (only parsing).

(** What is done outside. *)
Inductive rt_event : Type :=
| BootProgress
| CreateThreadFunc
| Registered (proc : string) (r : Z)
| MainCalled (cls method : jref) (args : option (list (option jref)))
| AttachedThread (name : option string) (r : Z)
| DetachedThread (r : Z)
| DestroyedVm (r : Z)
| EntryRun (start : nat) (userData : Z)
| RawThread (name : string) (r : Z)
| ThreadNamed (name : string)
| OnStarted
| OnZygoteInit
| OnExit (code : Z)
| ProcessExit (code : Z) (handlers : bool).

(** [rt_vm]: what [startVm] works on; [mJavaVM]: is there a virtual machine;
    [rt_frames]: frames of local references; [rt_threads]: the threads that were
    created and have not run yet, by the block they were given. *)
Record rt_state := RtState {
  rt_vm : vm_state;
  mJavaVM : bool;
  mExitWithoutCleanup : bool;
  mArgBlock : list ascii;
  rt_environ : gmap string string;
  rt_heap : gmap nat heap_block;
  rt_next : nat;
  rt_frames : nat;
  rt_threads : list nat;
  rt_log : list rt_event
}.

Definition set_rt_vm v s := RtState v (mJavaVM s) (mExitWithoutCleanup s) (mArgBlock s)
  (rt_environ s) (rt_heap s) (rt_next s) (rt_frames s) (rt_threads s) (rt_log s).
Definition set_mJavaVM v s := RtState (rt_vm s) v (mExitWithoutCleanup s) (mArgBlock s)
  (rt_environ s) (rt_heap s) (rt_next s) (rt_frames s) (rt_threads s) (rt_log s).
Definition set_mExitWithoutCleanup v s := RtState (rt_vm s) (mJavaVM s) v (mArgBlock s)
  (rt_environ s) (rt_heap s) (rt_next s) (rt_frames s) (rt_threads s) (rt_log s).
Definition set_mArgBlock v s := RtState (rt_vm s) (mJavaVM s) (mExitWithoutCleanup s) v
  (rt_environ s) (rt_heap s) (rt_next s) (rt_frames s) (rt_threads s) (rt_log s).
Definition set_rt_environ v s := RtState (rt_vm s) (mJavaVM s) (mExitWithoutCleanup s) (mArgBlock s)
  v (rt_heap s) (rt_next s) (rt_frames s) (rt_threads s) (rt_log s).
Definition set_rt_heap v s := RtState (rt_vm s) (mJavaVM s) (mExitWithoutCleanup s) (mArgBlock s)
  (rt_environ s) v (rt_next s) (rt_frames s) (rt_threads s) (rt_log s).
Definition set_rt_next v s := RtState (rt_vm s) (mJavaVM s) (mExitWithoutCleanup s) (mArgBlock s)
  (rt_environ s) (rt_heap s) v (rt_frames s) (rt_threads s) (rt_log s).
Definition set_rt_frames v s := RtState (rt_vm s) (mJavaVM s) (mExitWithoutCleanup s) (mArgBlock s)
  (rt_environ s) (rt_heap s) (rt_next s) v (rt_threads s) (rt_log s).
Definition set_rt_threads v s := RtState (rt_vm s) (mJavaVM s) (mExitWithoutCleanup s) (mArgBlock s)
  (rt_environ s) (rt_heap s) (rt_next s) (rt_frames s) v (rt_log s).
Definition set_rt_log v s := RtState (rt_vm s) (mJavaVM s) (mExitWithoutCleanup s) (mArgBlock s)
  (rt_environ s) (rt_heap s) (rt_next s) (rt_frames s) (rt_threads s) v.

Definition RT (A : Type) : Type := prog rt_state A.

Definition logged (e : rt_event) : RT unit := modify (fun s => set_rt_log (rt_log s ++ [e]) s).

(** What the virtual machine and the system answer. *)
Class Machine := {
  (** The version of JNI that is asked for; is the thread attached. *)
  GetEnv : bool;
  FindClass : string -> option jref;
  GetStaticMethodID : jref -> string -> string -> option jref;
  NewStringUTF : string -> option jref;
  NewObjectArray : nat -> option jref -> bool;
  NewString : list Z -> option jref;
  AttachCurrentThread : option string -> Z;
  DetachCurrentThread : Z;
  DestroyJavaVM : Z;
  jniRegisterNativeMethods : string -> list (string * string) -> Z;
  (** The registrations of other files. *)
  mProc_of : string -> Z;
  (** Is there memory for the block of this number. *)
  malloc_room : nat -> bool;
  (** What [androidCreateRawThreadEtc] returns (not 0: the thread runs), and the thread. *)
  create_raw_thread : string -> Z -> Z -> Z * Z;
  thread_result : nat -> Z -> Z;
  getStrictModePolicy : option Z;
  (** Are characters signed, as on x86. *)
  char_signed : bool
}.

Definition JNI_OK : Z := 0.
Definition NO_ERROR : Z := 0.

Section Model.
Context `{D : !Device} `{V : !Machine} (B : build) (E : errors).
Context (uninitialised : string -> nat -> ascii).

(** ** Memory *)

Definition malloc (blk : heap_block) : RT (option nat) :=
  do! s := gets id in
  if malloc_room (rt_next s) then
    modify (fun s => set_rt_heap (<[rt_next s := blk]> (rt_heap s)) s) ;;;
    modify (fun s => set_rt_next (S (rt_next s)) s) ;;;
    ret (Some (rt_next s))
  else modify (fun s => set_rt_next (S (rt_next s)) s) ;;; ret None.

(** Freeing what is not there is an error; freeing NULL is not. *)
Definition free (p : option nat) : RT unit :=
  match p with
  | None => ret tt
  | Some p =>
      do! s := gets id in
      match rt_heap s !! p with
      | Some _ => modify (fun s => set_rt_heap (delete p (rt_heap s)) s)
      | None => crash 0
      end
  end.

Definition strdup (t : option string) : RT (option nat) :=
  match t with Some t => malloc (Chars (chars t ++ [NUL])) | None => crash 0 end.

Definition heap_chars (p : option nat) : RT (list ascii) :=
  do! s := gets id in
  match p with
  | Some p => match rt_heap s !! p with Some (Chars l) => ret l | _ => crash 0 end
  | None => crash 0
  end.

Definition heap_char (p : option nat) (i : nat) : RT ascii :=
  do! l := heap_chars p in match l !! i with Some c => ret c | None => crash 0 end.

Definition heap_set_char (p : option nat) (i : nat) (c : ascii) : RT unit :=
  do! l := heap_chars p in
  match p with
  | Some p =>
      if (i <? length l)%nat then modify (fun s => set_rt_heap (<[p := Chars (<[i := c]> l)]> (rt_heap s)) s)
      else crash 0
  | None => crash 0
  end.

Definition heap_string (p : option nat) : RT string :=
  do! l := heap_chars p in match c_string l with Some t => ret t | None => crash 0 end.

(** ** Names *)

Fixpoint slash_loop (fuel : nat) (p : option nat) (i : nat) : RT unit :=
  match fuel with
  | O => out_of_fuel
  | S fuel =>
      do! c := heap_char p i in
      if Ascii.eqb c NUL then ret tt
      else when (Ascii.eqb c ".") (heap_set_char p i "/") ;;; slash_loop fuel p (S i)
  end.

Definition toSlashClassName (className : option string) : RT (option nat) :=
  do! result := strdup className in
  do! l := heap_chars result in
  slash_loop (length l) result 0 ;;;
  ret result.

(** [*chp++ = *bytes++]: a char becomes a jchar of 16 bits. *)
Definition jchar_of (c : ascii) : Z :=
  let n := Z.of_nat (nat_of_ascii c) in
  Z.land (if char_signed && (128 <=? n) then n - 256 else n) 65535.

Definition NewStringLatin1 (bytes : option string) : option jref :=
  match bytes with None => None | Some t => NewString (jchar_of <$> chars t) end.

(** [strlcpy]: nothing into nothing, else a NUL at the end. *)
Definition strlcpy (dst : list ascii) (src : string) : list ascii :=
  match length dst with
  | O => dst
  | S n => let t := take n (chars src) ++ [NUL] in t ++ drop (length t) dst
  end.

Definition setArgv0 (argv0 : string) (setProcName : bool) : RT unit :=
  when setProcName
    (let len := Z.of_nat (String.length argv0) in
     logged (ThreadNamed (if len <? 15 then argv0
       else String.string_of_list_ascii (drop (Z.to_nat (len - 15)) (chars argv0))))) ;;;
  modify (fun s => set_mArgBlock (replicate (length (mArgBlock s)) NUL) s) ;;;
  modify (fun s => set_mArgBlock (strlcpy (mArgBlock s) argv0) s).

(** ** The runtime object *)

(** [gCurRuntime]'s natives. *)
Definition nativeFinishInit : RT unit := logged OnStarted.
Definition nativeZygoteInit : RT unit := logged OnZygoteInit.
Definition setExitWithoutCleanup (b : bool) : RT unit := modify (set_mExitWithoutCleanup b).

(** The process is gone: nothing is returned. *)
Definition process_exit (code : Z) (handlers : bool) : RT unit :=
  logged (ProcessExit code handlers) ;;; (fun s => Blocked s).

Definition exit (code : Z) : RT unit :=
  do! s := gets id in
  if mExitWithoutCleanup s then process_exit code false
  else logged (OnExit code) ;;; process_exit code true.

Definition runtime_exit (code : Z) : RT unit := exit code.

Definition runtime_isSensitiveThread : bool :=
  match getStrictModePolicy with Some policy => negb (policy =? 0) | None => false end.

Definition getJNIEnv : RT bool :=
  do! s := gets id in if mJavaVM s then ret GetEnv else crash 0.

(** Elements are put into an array one by one. *)
Fixpoint set_elements (i : nat) (args : list string) (arr : option (list (option jref))) :
  RT (option (list (option jref))) :=
  match args with
  | [] => ret arr
  | a :: args =>
      match arr with
      | Some l => set_elements (S i) args (Some (<[i := NewStringUTF a]> l))
      | None => crash 0
      end
  end.

Definition new_array (n : nat) (cls : option jref) : option (list (option jref)) :=
  if NewObjectArray n cls then Some (replicate n None) else None.

Definition callMain (clazz : option jref) (args : list string) : RT Z :=
  do! env := getJNIEnv in
  match clazz with
  | Some clazz =>
      if env : bool then
        match GetStaticMethodID clazz "main" "([Ljava/lang/String;)V" with
        | None => ret (UNKNOWN_ERROR E)
        | Some methodId =>
            let numArgs := length args in
            let stringClass := FindClass "java/lang/String" in
            let strArray := new_array numArgs stringClass in
            do! strArray := set_elements 0 args strArray in
            logged (MainCalled clazz methodId strArray) ;;;
            ret NO_ERROR
        end
      else ret (UNKNOWN_ERROR E)
  | None => ret (UNKNOWN_ERROR E)
  end.

(** ** Registration *)

Definition registerNativeMethods (className : string) (gMethods : list (string * string)) : Z :=
  jniRegisterNativeMethods className gMethods.

Definition register_com_android_internal_os_RuntimeInit : Z :=
  jniRegisterNativeMethods "com/android/internal/os/RuntimeInit"
    [("nativeFinishInit", "()V"); ("nativeSetExitWithoutCleanup", "(Z)V")]%string.

Definition register_com_android_internal_os_ZygoteInit : Z :=
  jniRegisterNativeMethods "com/android/internal/os/ZygoteInit" [("nativeZygoteInit", "()V")]%string.

(** The functions of the table, by their names. *)
Definition mProc (name : string) : Z :=
  if String.eqb name "register_com_android_internal_os_RuntimeInit"
  then register_com_android_internal_os_RuntimeInit
  else if String.eqb name "register_com_android_internal_os_ZygoteInit"
  then register_com_android_internal_os_ZygoteInit
  else mProc_of name.

Fixpoint register_jni_procs (array : list string) : RT Z :=
  match array with
  | [] => ret 0
  | name :: array =>
      logged (Registered name (mProc name)) ;;;
      if mProc name <? 0 then ret (-1) else register_jni_procs array
  end.

Definition gRegJNI : list string := [
  "register_com_android_internal_os_RuntimeInit";
  "register_com_android_internal_os_ZygoteInit";
  "register_android_os_SystemClock";
  "register_android_util_EventLog";
  "register_android_util_Log";
  "register_android_util_MemoryIntArray";
  "register_android_util_PathParser";
  "register_android_app_admin_SecurityLog";
  "register_android_content_AssetManager";
  "register_android_content_StringBlock";
  "register_android_content_XmlBlock";
  "register_android_text_AndroidCharacter";
  "register_android_text_StaticLayout";
  "register_android_text_AndroidBidi";
  "register_android_view_InputDevice";
  "register_android_view_KeyCharacterMap";
  "register_android_os_Process";
  "register_android_os_SystemProperties";
  "register_android_os_Binder";
  "register_android_os_Parcel";
  "register_android_os_HwBinder";
  "register_android_os_HwBlob";
  "register_android_os_HwParcel";
  "register_android_os_HwRemoteBinder";
  "register_android_os_VintfObject";
  "register_android_os_VintfRuntimeInfo";
  "register_android_nio_utils";
  "register_android_graphics_Canvas";
  "register_android_graphics_Graphics";
  "register_android_view_DisplayEventReceiver";
  "register_android_view_RenderNode";
  "register_android_view_RenderNodeAnimator";
  "register_android_view_DisplayListCanvas";
  "register_android_view_HardwareLayer";
  "register_android_view_ThreadedRenderer";
  "register_android_view_Surface";
  "register_android_view_SurfaceControl";
  "register_android_view_SurfaceSession";
  "register_android_view_TextureView";
  "register_com_android_internal_view_animation_NativeInterpolatorFactoryHelper";
  "register_com_google_android_gles_jni_EGLImpl";
  "register_com_google_android_gles_jni_GLImpl";
  "register_android_opengl_jni_EGL14";
  "register_android_opengl_jni_EGLExt";
  "register_android_opengl_jni_GLES10";
  "register_android_opengl_jni_GLES10Ext";
  "register_android_opengl_jni_GLES11";
  "register_android_opengl_jni_GLES11Ext";
  "register_android_opengl_jni_GLES20";
  "register_android_opengl_jni_GLES30";
  "register_android_opengl_jni_GLES31";
  "register_android_opengl_jni_GLES31Ext";
  "register_android_opengl_jni_GLES32";
  "register_android_graphics_Bitmap";
  "register_android_graphics_BitmapFactory";
  "register_android_graphics_BitmapRegionDecoder";
  "register_android_graphics_Camera";
  "register_android_graphics_CreateJavaOutputStreamAdaptor";
  "register_android_graphics_CanvasProperty";
  "register_android_graphics_ColorFilter";
  "register_android_graphics_DrawFilter";
  "register_android_graphics_FontFamily";
  "register_android_graphics_GraphicBuffer";
  "register_android_graphics_Interpolator";
  "register_android_graphics_MaskFilter";
  "register_android_graphics_Matrix";
  "register_android_graphics_Movie";
  "register_android_graphics_NinePatch";
  "register_android_graphics_Paint";
  "register_android_graphics_Path";
  "register_android_graphics_PathMeasure";
  "register_android_graphics_PathEffect";
  "register_android_graphics_Picture";
  "register_android_graphics_Region";
  "register_android_graphics_Shader";
  "register_android_graphics_SurfaceTexture";
  "register_android_graphics_Typeface";
  "register_android_graphics_YuvImage";
  "register_android_graphics_drawable_AnimatedVectorDrawable";
  "register_android_graphics_drawable_VectorDrawable";
  "register_android_graphics_pdf_PdfDocument";
  "register_android_graphics_pdf_PdfEditor";
  "register_android_graphics_pdf_PdfRenderer";
  "register_android_database_CursorWindow";
  "register_android_database_SQLiteConnection";
  "register_android_database_SQLiteGlobal";
  "register_android_database_SQLiteDebug";
  "register_android_os_Debug";
  "register_android_os_FileObserver";
  "register_android_os_GraphicsEnvironment";
  "register_android_os_MessageQueue";
  "register_android_os_SELinux";
  "register_android_os_seccomp";
  "register_android_os_Trace";
  "register_android_os_UEventObserver";
  "register_android_net_LocalSocketImpl";
  "register_android_net_NetworkUtils";
  "register_android_net_TrafficStats";
  "register_android_os_MemoryFile";
  "register_com_android_internal_os_PathClassLoaderFactory";
  "register_com_android_internal_os_Zygote";
  "register_com_android_internal_util_VirtualRefBasePtr";
  "register_android_hardware_Camera";
  "register_android_hardware_camera2_CameraMetadata";
  "register_android_hardware_camera2_legacy_LegacyCameraDevice";
  "register_android_hardware_camera2_legacy_PerfMeasurement";
  "register_android_hardware_camera2_DngCreator";
  "register_android_hardware_HardwareBuffer";
  "register_android_hardware_Radio";
  "register_android_hardware_SensorManager";
  "register_android_hardware_SerialPort";
  "register_android_hardware_SoundTrigger";
  "register_android_hardware_UsbDevice";
  "register_android_hardware_UsbDeviceConnection";
  "register_android_hardware_UsbRequest";
  "register_android_hardware_location_ActivityRecognitionHardware";
  "register_android_media_AudioRecord";
  "register_android_media_AudioSystem";
  "register_android_media_AudioTrack";
  "register_android_media_JetPlayer";
  "register_android_media_RemoteDisplay";
  "register_android_media_ToneGenerator";
  "register_android_opengl_classes";
  "register_android_server_NetworkManagementSocketTagger";
  "register_android_ddm_DdmHandleNativeHeap";
  "register_android_backup_BackupDataInput";
  "register_android_backup_BackupDataOutput";
  "register_android_backup_FileBackupHelperBase";
  "register_android_backup_BackupHelperDispatcher";
  "register_android_app_backup_FullBackup";
  "register_android_app_Activity";
  "register_android_app_ActivityThread";
  "register_android_app_ApplicationLoaders";
  "register_android_app_NativeActivity";
  "register_android_util_jar_StrictJarFile";
  "register_android_view_InputChannel";
  "register_android_view_InputEventReceiver";
  "register_android_view_InputEventSender";
  "register_android_view_InputQueue";
  "register_android_view_KeyEvent";
  "register_android_view_MotionEvent";
  "register_android_view_PointerIcon";
  "register_android_view_VelocityTracker";
  "register_android_content_res_ObbScanner";
  "register_android_content_res_Configuration";
  "register_android_animation_PropertyValuesHolder";
  "register_com_android_internal_content_NativeLibraryHelper";
  "register_com_android_internal_net_NetworkStatsFactory";
  "register_com_android_internal_os_FuseAppLoop"
]%string.

Definition startReg : RT Z :=
  logged CreateThreadFunc ;;;
  modify (fun s => set_rt_frames (S (rt_frames s)) s) ;;;
  (do! r := register_jni_procs gRegJNI in
   modify (fun s => set_rt_frames (pred (rt_frames s)) s) ;;;
   (if r <? 0 then ret (-1) else ret 0)).

Definition registerFrameworkNatives : RT Z := register_jni_procs gRegJNI.

(** ** start *)

(** [startVm] runs on its part of the state; a machine that was created is kept. *)
Definition run_startVm (zygote : bool) : RT Z := fun s =>
  match startVm B uninitialised zygote (rt_vm s) with
  | Value r v => Value r (set_mJavaVM (if r =? 0 then true else mJavaVM s) (set_rt_vm v s))
  | Blocked v => Blocked (set_rt_vm v s)
  | Crash l => Crash l
  | NoFuel => NoFuel
  end.

Definition onVmCreated : RT unit := ret tt.

Fixpoint boot_progress (options : list string) : RT unit :=
  match options with
  | [] => ret tt
  | o :: options => when (String.eqb o "start-system-server") (logged BootProgress) ;;; boot_progress options
  end.

(** Is there a root directory; the default one is remembered. *)
Definition find_root : RT bool :=
  do! s := gets id in
  match rt_environ s !! "ANDROID_ROOT"%string with
  | Some _ => ret true
  | None =>
      if negb (hasDir "/system") then ret false
      else modify (fun s => set_rt_environ (<["ANDROID_ROOT"%string := "/system"%string]> (rt_environ s)) s) ;;; ret true
  end.

Definition set_element (i : nat) (x : option jref) (arr : option (list (option jref))) :
  RT (option (list (option jref))) :=
  match arr with Some l => ret (Some (<[i := x]> l)) | None => crash 0 end.

Definition start_main (className : option string) (options : list string) : RT unit :=
  let stringClass := FindClass "java/lang/String" in
  let strArray := new_array (length options + 1) stringClass in
  let classNameStr := match className with Some t => NewStringUTF t | None => None end in
  do! strArray := set_element 0 classNameStr strArray in
  do! strArray := set_elements 1 options strArray in
  do! slashClassName := toSlashClassName className in
  do! name := heap_string slashClassName in
  (match FindClass name with
   | None => ret tt
   | Some startClass =>
       match GetStaticMethodID startClass "main" "([Ljava/lang/String;)V" with
       | None => ret tt
       | Some startMeth => logged (MainCalled startClass startMeth strArray)
       end
   end) ;;;
  free slashClassName ;;;
  logged (DetachedThread DetachCurrentThread) ;;;
  logged (DestroyedVm DestroyJavaVM).

Definition start (className : option string) (options : list string) (zygote : bool) : RT unit :=
  boot_progress options ;;;
  (do! root := find_root in
   if negb root then ret tt
   else
     do! r := run_startVm zygote in
     if negb (r =? 0) then ret tt
     else
       onVmCreated ;;;
       (do! r := startReg in
        if r <? 0 then ret tt else start_main className options)).

(** ** Threads of the virtual machine *)

(** A name that is NULL is passed on. *)
Definition name_string (p : option nat) : RT (option string) :=
  match p with None => ret None | Some _ => do! t := heap_string p in ret (Some t) end.

Definition javaAttachThread (threadName : option string) : RT Z :=
  do! s := gets id in
  if mJavaVM s then
    let result := AttachCurrentThread threadName in
    logged (AttachedThread threadName result) ;;; ret result
  else crash 0.

Definition javaDetachThread : RT Z :=
  do! s := gets id in
  if mJavaVM s then
    logged (DetachedThread DetachCurrentThread) ;;; ret DetachCurrentThread
  else crash 0.

Definition thread_args (args : nat) : RT (nat * Z * option nat) :=
  do! s := gets id in
  match rt_heap s !! args with
  | Some (ThreadArgs start userData name) => ret (start, userData, name)
  | _ => crash 0
  end.

Definition javaThreadShell (args : nat) : RT Z :=
  do! ' (start, userData, name) := thread_args args in
  free (Some args) ;;;
  (do! t := name_string name in
   do! r := javaAttachThread t in
   if negb (r =? JNI_OK) then ret (-1)
   else
     logged (EntryRun start userData) ;;;
     (let result := thread_result start userData in
      do! _ := javaDetachThread in
      free name ;;;
      ret result)).

(** The result and the number of the thread; a thread that was created runs later. *)
Definition javaCreateThreadEtc (entryFunction : nat) (userData : Z) (threadName : option string)
    (threadPriority threadStackSize : Z) : RT (Z * Z) :=
  do! args := malloc (ThreadArgs entryFunction userData None) in
  match threadName, args with
  | Some name, Some args =>
      do! copy := strdup (Some name) in
      modify (fun s => set_rt_heap (<[args := ThreadArgs entryFunction userData copy]> (rt_heap s)) s) ;;;
      (let '(result, threadId) := create_raw_thread name threadPriority threadStackSize in
       logged (RawThread name result) ;;;
       when (negb (result =? 0)) (modify (fun s => set_rt_threads (rt_threads s ++ [args]) s)) ;;;
       ret (result, threadId))
  | _, _ => crash 0
  end.

Definition ANDROID_PRIORITY_DEFAULT : Z := 0.

(** 0 if no thread was created. *)
Definition createJavaThread (name : option string) (start : nat) (arg : Z) : RT Z :=
  do! ' (result, threadId) := javaCreateThreadEtc start arg name ANDROID_PRIORITY_DEFAULT 0 in
  ret (if result =? 0 then 0 else threadId).

(** A thread that was created runs. *)
Definition run_thread (k : nat) : RT Z :=
  do! s := gets id in
  match rt_threads s !! k with
  | Some args => modify (set_rt_threads (delete k (rt_threads s))) ;;; javaThreadShell args
  | None => crash 0
  end.

End Model.
