(* ===== verification/RuntimeStartThms.v ===== *)
(** * RuntimeStartThms: the runtime is started, and threads give back their memory

    What [start] does outside is [start_log], a function of what the system answers;
    the memory of threads is accounted for over every sequence of creations and runs;
    class names, the names of processes and strings of bytes. *)

From Stdlib Require Import Ascii.
From S2P Require Import Prelude CppWorld Runtime RuntimeOpts RuntimeRules RuntimeThms RuntimeStart.

#[local] Open Scope Z_scope.

(** ** Names *)

Section Names.
Context `{V : !Machine}.

Implicit Types (s : rt_state).

Definition slash (c : ascii) : ascii := if Ascii.eqb c "." then "/"%char else c.
Definition slashed (t : string) : string := string_of (slash <$> chars t).

Lemma slash_nul c : Ascii.eqb (slash c) NUL = Ascii.eqb c NUL.
Proof. unfold slash. by destruct (Ascii.eqb_spec c ".") as [->|]. Qed.

Lemma no_nul_slashed t : no_nul (slashed t) = no_nul t.
Proof.
  unfold no_nul, slashed. rewrite chars_string_of.
  induction (chars t) as [|c l IH]; [done|]. rewrite fmap_cons. cbn [forallb]. by rewrite slash_nul, IH.
Qed.

Lemma heap_char_run s p l i c : rt_heap s !! p = Some (Chars l) -> l !! i = Some c ->
  heap_char (Some p) i s = Value c s.
Proof. intros Hp Hc. unfold heap_char, heap_chars, bind, gets. simpl. rewrite Hp. simpl. by rewrite Hc. Qed.

Lemma slash_loop_run p t : no_nul (string_of t) = true -> forall fuel s pre,
  rt_heap s !! p = Some (Chars (pre ++ t ++ [NUL])) -> (length t < fuel)%nat ->
  slash_loop fuel (Some p) (length pre) s =
  Value tt (set_rt_heap (<[p := Chars (pre ++ (slash <$> t) ++ [NUL])]> (rt_heap s)) s).
Proof.
  unfold no_nul. rewrite chars_string_of. intros Hn. induction t as [|c t IH];
    intros [|fuel] s pre Hp Hf; simpl in Hf; try lia; simpl; unfold bind.
  - rewrite (heap_char_run s p _ _ NUL Hp) by (by rewrite lookup_app_r, Nat.sub_diag).
    simpl. rewrite insert_id by done. by destruct s.
  - simpl in Hn. apply andb_true_iff in Hn as [Hc%negb_true_iff Hn].
    assert ((pre ++ (c :: t) ++ [NUL]) !! length pre = Some c) as Hi by (by rewrite lookup_app_r, Nat.sub_diag).
    rewrite (heap_char_run s p _ _ c Hp Hi), Hc.
    set (s1 := set_rt_heap (<[p := Chars ((pre ++ [slash c]) ++ t ++ [NUL])]> (rt_heap s)) s).
    assert (when (Ascii.eqb c ".") (heap_set_char (Some p) (length pre) "/") s = Value tt s1) as ->.
    { unfold s1, slash. rewrite <- app_assoc. destruct (Ascii.eqb_spec c ".") as [->|]; simpl.
      - unfold heap_set_char, heap_chars, bind, gets. simpl. rewrite Hp. simpl.
        rewrite (proj2 (Nat.ltb_lt _ _)) by (by eapply lookup_lt_Some).
        rewrite insert_app_r_alt, Nat.sub_diag by done. done.
      - unfold ret. simpl in Hp. rewrite insert_id by done. by destruct s. }
    replace (S (length pre)) with (length (pre ++ [slash c])) by (rewrite length_app; simpl; lia).
    rewrite (IH Hn fuel s1 (pre ++ [slash c])); [|apply lookup_insert_eq|lia].
    unfold s1. destruct s. unfold set_rt_heap. simpl. rewrite insert_insert_eq. by rewrite <- app_assoc.
Qed.

(** ** Blocks *)

(** The state after a block was taken. *)
Definition taken s (blk : heap_block) : rt_state :=
  set_rt_next (S (rt_next s)) (set_rt_heap (<[rt_next s := blk]> (rt_heap s)) s).

Lemma malloc_run s blk : malloc_room (rt_next s) = true ->
  malloc blk s = Value (Some (rt_next s)) (taken s blk).
Proof. intros Hr. unfold malloc, bind, gets. simpl. by rewrite Hr. Qed.

Lemma taken_at s blk : rt_heap (taken s blk) !! rt_next s = Some blk.
Proof. apply lookup_insert_eq. Qed.

Lemma heap_chars_run s p l : rt_heap s !! p = Some (Chars l) -> heap_chars (Some p) s = Value l s.
Proof. intros Hp. unfold heap_chars, bind, gets. simpl. by rewrite Hp. Qed.

Lemma heap_string_run s p t : no_nul t = true -> rt_heap s !! p = Some (Chars (chars t ++ [NUL])) ->
  heap_string (Some p) s = Value t s.
Proof.
  intros Hn Hp. unfold heap_string, bind. rewrite (heap_chars_run s p _ Hp).
  by rewrite (c_string_app t [] Hn).
Qed.

Lemma toSlashClassName_run s t : no_nul t = true -> malloc_room (rt_next s) = true ->
  toSlashClassName (Some t) s =
  Value (Some (rt_next s)) (taken s (Chars (chars (slashed t) ++ [NUL]))).
Proof.
  intros Hn Hr. unfold toSlashClassName, bind. simpl. rewrite (malloc_run s _ Hr).
  set (s1 := taken s _). pose proof (taken_at s (Chars (chars t ++ [NUL]))) as H1. fold s1 in H1.
  rewrite (heap_chars_run s1 _ _ H1).
  rewrite (slash_loop_run (rt_next s) (chars t) ltac:(by rewrite string_of_chars) _ s1 [] H1).
  - unfold ret. f_equal. unfold s1, taken, set_rt_next, set_rt_heap. simpl.
    rewrite insert_insert_eq. unfold slashed. by rewrite chars_string_of.
  - rewrite length_app. simpl. lia.
Qed.

Lemma free_run s p blk : rt_heap s !! p = Some blk ->
  free (Some p) s = Value tt (set_rt_heap (delete p (rt_heap s)) s).
Proof. intros Hp. unfold free, bind, gets. simpl. by rewrite Hp. Qed.

End Names.

(** ** Starting *)

(** There is memory, in the process and in the virtual machine. *)
Class MachineLaws `{V : Machine} := {
  room n : malloc_room n = true;
  array_room n cls : NewObjectArray n cls = true
}.

Section Start.
Context `{D : !Device} `{V : !Machine} (B : build).
Context (uninitialised : string -> nat -> ascii).

Implicit Types (s : rt_state).

Definition with_log (e : list rt_event) s : rt_state := set_rt_log (rt_log s ++ e) s.

Lemma with_log_log e e' s : with_log e' (with_log e s) = with_log (e ++ e') s.
Proof. unfold with_log, set_rt_log. simpl. by rewrite app_assoc. Qed.

Lemma with_log_nil s : with_log [] s = s.
Proof. unfold with_log. rewrite app_nil_r. by destruct s. Qed.

(** The registrations up to the first that fails. *)
Fixpoint reg_log (procs : list string) : list rt_event :=
  match procs with
  | [] => []
  | n :: procs => Registered n (mProc n) :: if mProc n <? 0 then [] else reg_log procs
  end.
Definition reg_ok (procs : list string) : bool := forallb (fun n => 0 <=? mProc n) procs.

Lemma register_run procs s : register_jni_procs procs s =
  Value (if reg_ok procs then 0 else -1) (with_log (reg_log procs) s).
Proof.
  revert s. induction procs as [|n procs IH]; intros s; simpl.
  - by rewrite with_log_nil.
  - unfold bind, logged, modify. fold (with_log [Registered n (mProc n)] s).
    rewrite (Z.ltb_antisym 0 (mProc n)). destruct (0 <=? mProc n); simpl; [|done].
    rewrite IH. by rewrite with_log_log.
Qed.

Lemma startReg_run s : startReg s =
  Value (if reg_ok gRegJNI then 0 else -1) (with_log (CreateThreadFunc :: reg_log gRegJNI) s).
Proof.
  unfold startReg. generalize gRegJNI as procs. intros procs.
  unfold bind, logged, modify. rewrite register_run. destruct s.
  by destruct (reg_ok procs); unfold with_log, ret, set_rt_log, set_rt_frames; simpl; rewrite <- app_assoc.
Qed.

(** The calls start makes on the class. *)
Definition main_log (cls : string) (options : list string) : list rt_event :=
  match FindClass (slashed cls) with
  | Some c =>
      match GetStaticMethodID c "main" "([Ljava/lang/String;)V" with
      | Some m => [MainCalled c m (Some (NewStringUTF <$> cls :: options))]
      | None => []
      end
  | None => []
  end.

Lemma set_elements_run args : forall i l s, length l = (i + length args)%nat ->
  set_elements i args (Some l) s = Value (Some (take i l ++ (NewStringUTF <$> args))) s.
Proof.
  induction args as [|a args IH]; intros i l s Hl; simpl in *.
  - rewrite take_ge by lia. by rewrite app_nil_r.
  - rewrite (IH (S i)) by (rewrite length_insert; lia). do 2 f_equal.
    destruct (lookup_lt_is_Some_2 l i) as [x Hx]; [lia|].
    rewrite (take_S_r _ _ (NewStringUTF a)) by (apply list_lookup_insert_eq; lia).
    rewrite take_insert_ge by lia. by rewrite <- app_assoc.
Qed.

Context `{ML : !MachineLaws}.

Lemma start_main_run s cls options : no_nul cls = true -> rt_heap s !! rt_next s = None ->
  start_main (Some cls) options s = Value tt (set_rt_next (S (rt_next s))
    (with_log (main_log cls options ++ [DetachedThread DetachCurrentThread; DestroyedVm DestroyJavaVM]) s)).
Proof.
  intros Hn Hf. unfold start_main, new_array. rewrite array_room. unfold set_element, bind at 1. simpl.
  unfold bind at 1. rewrite set_elements_run by (rewrite length_insert, length_replicate; lia).
  unfold bind at 1. rewrite (toSlashClassName_run s cls Hn (room _)).
  set (s1 := taken s _). unfold bind at 1.
  rewrite (heap_string_run s1 (rt_next s) (slashed cls)) by (by rewrite ?no_nul_slashed || apply taken_at).
  assert (forall e, free (Some (rt_next s)) (with_log e s1) = Value tt (set_rt_next (S (rt_next s)) (with_log e s))) as F.
  { intros e. erewrite free_run by apply taken_at. unfold s1, taken, with_log. simpl.
    f_equal. unfold set_rt_heap, set_rt_next, set_rt_log. simpl. by rewrite delete_insert_id. }
  assert (forall e, (free (Some (rt_next s)) ;;; logged (DetachedThread DetachCurrentThread) ;;;
    logged (DestroyedVm DestroyJavaVM)) (with_log e s1) = Value tt (set_rt_next (S (rt_next s))
    (with_log (e ++ [DetachedThread DetachCurrentThread; DestroyedVm DestroyJavaVM]) s))) as K.
  { intros e. unfold bind. rewrite F. unfold logged, modify, with_log, set_rt_log, set_rt_next. simpl.
    by rewrite <- !app_assoc. }
  unfold main_log. unfold bind at 1. destruct (FindClass (slashed cls)) as [c|].
  - destruct (GetStaticMethodID c _ _) as [m|].
    + rewrite <- (K [_]). rewrite Nat.add_1_r. done.
    + rewrite <- (K []), with_log_nil. done.
  - rewrite <- (K []), with_log_nil. done.
Qed.

(** What start does outside; [vm]: was a virtual machine created. *)
Definition start_log (cls : string) (options : list string) (root vm : bool) : list rt_event :=
  omap (fun o => if String.eqb o "start-system-server" then Some BootProgress else None) options ++
  (if root && vm then
     CreateThreadFunc :: reg_log gRegJNI ++
     (if reg_ok gRegJNI
      then main_log cls options ++ [DetachedThread DetachCurrentThread; DestroyedVm DestroyJavaVM]
      else [])
   else []).

Definition root_found s : bool :=
  match rt_environ s !! "ANDROID_ROOT"%string with Some _ => true | None => hasDir "/system" end.

Lemma boot_run options s : boot_progress options s = Value tt (with_log
  (omap (fun o => if String.eqb o "start-system-server" then Some BootProgress else None) options) s).
Proof.
  revert s. induction options as [|o options IH]; intros s; simpl; [by rewrite with_log_nil|].
  unfold bind. destruct (String.eqb o "start-system-server"); simpl; rewrite IH; [|done].
  f_equal. apply (with_log_log [BootProgress] _ s).
Qed.

(** What is left as it was: everything but the log and the virtual machine, the root
    directory and the numbers of blocks. *)
Definition unchanged s s' : Prop :=
  rt_heap s' = rt_heap s /\ rt_frames s' = rt_frames s /\ rt_threads s' = rt_threads s /\
  mArgBlock s' = mArgBlock s.

Definition default_root s : rt_state :=
  match rt_environ s !! "ANDROID_ROOT"%string with
  | Some _ => s
  | None => set_rt_environ (<["ANDROID_ROOT"%string := "/system"%string]> (rt_environ s)) s
  end.

Lemma find_root_run s :
  find_root s = Value (root_found s) (if root_found s then default_root s else s).
Proof.
  unfold find_root, root_found, default_root, bind, gets. simpl.
  destruct (rt_environ s !! _); [done|]. by destruct (hasDir "/system").
Qed.

Context `{DL : !DeviceLaws B}.

(** C33: start runs main of the class, once, with the name of the class and the options
    as its arguments, exactly when there is a root directory, a virtual machine was
    created with the options of [vm_options], every registration of the table
    succeeded, and the class has a main; registrations stop at the first that fails;
    whatever happened, the copy of the name is freed and no frame of local references
    is left. *)
Theorem start_correct s l cls options zygote : options_before (rt_vm s) l ->
  v_created (rt_vm s) = None -> no_nul cls = true -> rt_heap s !! rt_next s = None ->
  let opts := l ++ vm_options B zygote in
  let vm := can_start B && negb (JNI_CreateJavaVM opts <? 0) in
  exists s', start B uninitialised (Some cls) options zygote s = Value tt s' /\
    rt_log s' = rt_log s ++ start_log cls options (root_found s) vm /\ unchanged s s' /\
    (root_found s && vm = true -> mJavaVM s' = true /\ v_created (rt_vm s') = Some opts).
Proof.
  intros Ho Hc Hn Hf opts vm. pose proof startReg_run as R. unfold start, start_log.
  revert R. generalize (reg_log gRegJNI) (reg_ok gRegJNI). intros rl ro R.
  unfold bind at 1. rewrite boot_run.
  set (e0 := omap _ options). set (s1 := with_log e0 s). unfold bind at 1. rewrite find_root_run.
  change (root_found s1) with (root_found s). destruct (root_found s); simpl.
  2: { exists s1. by rewrite app_nil_r. }
  assert (exists e, default_root s1 = set_rt_environ e s1) as [e ->].
  { unfold default_root. destruct (rt_environ s1 !! _); [|by eexists]. exists (rt_environ s1). by destruct s. }
  set (s2 := set_rt_environ e s1). unfold bind at 1, run_startVm.
  destruct (startVm_options B uninitialised zygote (rt_vm s2) l Ho Hc) as (v & Ev & Cv). rewrite Ev.
  fold opts vm in Ev, Cv |- *. simpl.
  destruct vm eqn:Evm; simpl; [|eexists; split; [done|]; split; [by rewrite app_nil_r|by split]].
  set (s3 := set_mJavaVM _ _). unfold bind at 1, onVmCreated at 1, ret at 1.
  unfold bind at 1. rewrite R. clear R.
  apply andb_true_iff in Evm as [Ec _]. rewrite Ec in Cv.
  destruct ro; simpl.
  - rewrite start_main_run by done. eexists. split; [done|]. split; [|by split].
    simpl. by rewrite <- !app_assoc.
  - eexists. split; [done|]. split; [|by split]. simpl. by rewrite app_nil_r, <- app_assoc.
Qed.

End Start.

(** ** The process and its strings *)

Section Process.
Context `{V : !Machine}.

Implicit Types (s : rt_state).

(** The name of a thread: the last fifteen characters. *)
Lemma setArgv0_correct s argv0 named : no_nul argv0 = true ->
  exists s' name, setArgv0 argv0 named s = Value tt s' /\
    rt_log s' = rt_log s ++ (if named then [ThreadNamed name] else []) /\
    (String.length name <= 15)%nat /\ (exists pre, argv0 = (pre +:+ name)%string) /\
    length (mArgBlock s') = length (mArgBlock s) /\
    (mArgBlock s <> [] -> c_string (mArgBlock s') =
      Some (string_of (take (length (mArgBlock s) - 1) (chars argv0)))).
Proof.
  intros Hn. set (n := String.length argv0).
  set (name := if Z.of_nat n <? 15 then argv0
    else string_of (drop (Z.to_nat (Z.of_nat n - 15)) (chars argv0))).
  assert (exists pre, argv0 = pre +:+ name)%string as [pre Hp].
  { unfold name. destruct (_ <? 15); [by exists ""%string|].
    exists (string_of (take (Z.to_nat (Z.of_nat n - 15)) (chars argv0))).
    rewrite <- (string_of_chars (_ +:+ _)), chars_app, !chars_string_of, take_drop. by rewrite string_of_chars. }
  assert (String.length name <= 15)%nat as Hl.
  { unfold name. destruct (Z.ltb_spec (Z.of_nat n) 15); [lia|].
    rewrite <- length_chars, chars_string_of, length_drop, length_chars. fold n. lia. }
  set (block := strlcpy (replicate (length (mArgBlock s)) NUL) argv0).
  exists (set_mArgBlock block (with_log (if named then [ThreadNamed name] else []) s)), name.
  split; [|split; [done|split; [done|split; [by exists pre|]]]].
  - unfold setArgv0, block. destruct named; [done|]. rewrite with_log_nil. done.
  - simpl. unfold block, strlcpy. rewrite length_replicate.
    destruct (length (mArgBlock s)) as [|m] eqn:E; [by apply nil_length_inv in E as ->|].
    split.
    + rewrite length_app, length_drop, length_replicate, length_app, length_take. simpl. lia.
    + intros _. rewrite <- (chars_string_of (take m (chars argv0))) at 1. rewrite <- app_assoc.
      simpl. rewrite Nat.sub_0_r. apply c_string_app.
      unfold no_nul in *. rewrite chars_string_of. apply forallb_forall. intros x Hx.
      apply (proj1 (forallb_forall _ _) Hn). rewrite <- (take_drop m (chars argv0)). apply in_or_app. by left.
Qed.

(** The characters of a Latin-1 string, where chars are unsigned. *)
Lemma NewStringLatin1_correct t : char_signed = false ->
  NewStringLatin1 (Some t) = NewString ((fun c => Z.of_nat (nat_of_ascii c)) <$> chars t).
Proof.
  intros E. simpl. f_equal. apply list_fmap_ext. intros i c _. unfold jchar_of. rewrite E. simpl.
  change 65535 with (Z.ones 16). rewrite Z.land_ones by lia. apply Z.mod_small.
  pose proof (nat_ascii_bounded c). lia.
Qed.

(** Where they are signed, as on x86, e acute becomes a half-width sign. *)
Lemma NewStringLatin1_signed : char_signed = true ->
  NewStringLatin1 (Some (String "233" EmptyString)) = NewString [65513].
Proof. intros E. simpl. unfold jchar_of. by rewrite E. Qed.

(** exit never returns; the handlers of the runtime and of the process run unless told not to. *)
Lemma exit_correct s code : exists s', exit code s = Blocked s' /\
  rt_log s' = rt_log s ++ (if mExitWithoutCleanup s then [ProcessExit code false]
                           else [OnExit code; ProcessExit code true]).
Proof.
  unfold exit, bind, gets. simpl. destruct (mExitWithoutCleanup s); eexists; (split; [done|]); [done|].
  simpl. by rewrite <- app_assoc.
Qed.

(** Without a class name start logs one, then copies the string that is not there. *)
Lemma toSlashClassName_null s : toSlashClassName None s = Crash 0.
Proof. done. Qed.

End Process.
