(* ===== verification/RuntimeThreadThms.v ===== *)
(** * RuntimeThreadThms: the memory of threads

    A thread that is created gets a block and a name, that [javaThreadShell] must free.
    Over every sequence of creations and runs: the threads that have not run hold two
    blocks each, a failed attach has lost a name, a failed creation both blocks. *)

From Stdlib Require Import Ascii.
From S2P Require Import Prelude CppWorld Runtime RuntimeOpts RuntimeThms RuntimeStart RuntimeStartThms.

#[local] Open Scope Z_scope.

Section Threads.
Context `{V : !Machine} `{ML : !MachineLaws}.

Implicit Types (s : rt_state).

(** ** Steps *)

(** A thread is created, or one that was created runs from beginning to end. *)
Inductive thread_step : rt_state -> rt_state -> Prop :=
| step_create name start arg id s s' :
    createJavaThread (Some name) start arg s = Value id s' -> thread_step s s'
| step_run k r s s' : run_thread k s = Value r s' -> thread_step s s'.

(** The blocks an event loses. *)
Definition lost_by (e : rt_event) : nat :=
  match e with
  | AttachedThread _ r => if r =? JNI_OK then 0 else 1
  | RawThread _ r => if r =? 0 then 2 else 0
  | _ => 0
  end.
Definition lost (log : list rt_event) : nat := sum_list_with lost_by log.

Lemma lost_app log log' : lost (log ++ log') = (lost log + lost log')%nat.
Proof. apply sum_list_with_app. Qed.

(** The first bytes of a block are a string. *)
Definition has_string (l : list ascii) : Prop := is_Some (c_string l).

Lemma strdup_has_string t : has_string (chars t ++ [NUL]).
Proof.
  unfold has_string. induction (chars t) as [|c l IH]; [by eexists|].
  simpl. destruct (Ascii.eqb c NUL); [by eexists|]. destruct IH as [u ->]. by eexists.
Qed.

(** ** Blocks in use *)

(** [ps] are the blocks of a heap whose next block is [next]. *)
Record Blocks (h : gmap nat heap_block) (next : nat) (ps : list nat) : Prop := {
  b_once : NoDup ps;
  b_all p : is_Some (h !! p) <-> p ∈ ps;
  b_next p : p ∈ ps -> (p < next)%nat
}.

Lemma blocks_perm h next ps ps' : ps ≡ₚ ps' -> Blocks h next ps -> Blocks h next ps'.
Proof.
  intros P [N A X]. split; [by rewrite <- P|intros p; by rewrite <- P|intros p; rewrite <- P; apply X].
Qed.

Lemma blocks_alloc h next ps blk : Blocks h next ps -> Blocks (<[next := blk]> h) (S next) (next :: ps).
Proof.
  intros [N A X]. split.
  - constructor; [|done]. intros H. apply X in H. lia.
  - intros p. rewrite elem_of_cons, <- A. destruct (decide (p = next)) as [->|D].
    + rewrite lookup_insert_eq. split; [by left|by eexists].
    + rewrite lookup_insert_ne by done. split; [by right|]. by intros [?|?].
  - intros p [->|H]%elem_of_cons; [lia|]. apply X in H. lia.
Qed.

Lemma blocks_write h next ps p blk : Blocks h next ps -> p ∈ ps -> Blocks (<[p := blk]> h) next ps.
Proof.
  intros [N A X] Hp. split; [done| |done]. intros q. rewrite <- A.
  destruct (decide (q = p)) as [->|D]; [|by rewrite lookup_insert_ne].
  rewrite lookup_insert_eq. split; [by rewrite A|by eexists].
Qed.

Lemma blocks_free h next p ps : Blocks h next (p :: ps) -> Blocks (delete p h) next ps.
Proof.
  intros [N A X]. apply NoDup_cons in N as [Hp N]. split; [done| |intros q Hq; apply X; by right].
  intros q. destruct (decide (q = p)) as [->|D].
  - rewrite lookup_delete_eq. split; [by intros [? ?]|done].
  - rewrite lookup_delete_ne by done. rewrite A, elem_of_cons. split; [by intros [?|?]|by right].
Qed.

Lemma blocks_size h next ps : Blocks h next ps -> size h = length ps.
Proof.
  intros [N A _]. rewrite <- size_dom, <- (size_list_to_set (C := gset nat) ps) by done. f_equal.
  apply set_eq. intros p. by rewrite elem_of_dom, elem_of_list_to_set.
Qed.

(** ** The invariant *)

(** The blocks of threads: the arguments and the name. *)
Definition flat (pairs : list (nat * nat)) : list nat := pairs ≫= fun '(a, q) => [a; q].

(** What a thread was given. *)
Definition given (h : gmap nat heap_block) (pr : nat * nat) : Prop :=
  exists start userData l, h !! pr.1 = Some (ThreadArgs start userData (Some pr.2)) /\
    h !! pr.2 = Some (Chars l) /\ has_string l.

(** [pairs]: the blocks of the threads that have not run; [gone]: what is lost. *)
Record Owned s (pairs : list (nat * nat)) (gone : list nat) : Prop := {
  o_vm : mJavaVM s = true;
  o_threads : rt_threads s = pairs.*1;
  o_given : Forall (given (rt_heap s)) pairs;
  o_blocks : Blocks (rt_heap s) (rt_next s) (flat pairs ++ gone);
  o_lost : length gone = lost (rt_log s)
}.

Lemma flat_app ps ps' : flat (ps ++ ps') = flat ps ++ flat ps'.
Proof. apply bind_app. Qed.

#[local] Instance flat_perm : Proper ((≡ₚ) ==> (≡ₚ)) flat.
Proof. intros ps ps' P. unfold flat. by rewrite P. Qed.

Lemma length_flat ps : length (flat ps) = (2 * length ps)%nat.
Proof.
  induction ps as [|[a q] ps IH]; [done|]. change (flat ((a, q) :: ps)) with (a :: q :: flat ps).
  simpl. rewrite IH. lia.
Qed.

Lemma owned_size s pairs gone : Owned s pairs gone ->
  size (rt_heap s) = (2 * length (rt_threads s) + lost (rt_log s))%nat.
Proof.
  intros [_ T _ Bl L]. rewrite (blocks_size _ _ _ Bl), length_app, length_flat, L, T, length_fmap. done.
Qed.

(** What was given stays given while other blocks change. *)
Lemma given_same h h' pairs : Forall (given h) pairs ->
  (forall p, p ∈ flat pairs -> h' !! p = h !! p) -> Forall (given h') pairs.
Proof.
  intros F E. induction F as [|[a q] ps (st & u & l & Ha & Hq & Hl) F IH]; [constructor|].
  constructor.
  - exists st, u, l. simpl in *. rewrite !E; [done|by right; left|by left].
  - apply IH. intros p Hp. apply E. by do 2 right.
Qed.

(** ** Creating *)

Lemma create_run s name start arg : exists id,
  let args := rt_next s in
  let '(result, _) := create_raw_thread name ANDROID_PRIORITY_DEFAULT 0 in
  let h := <[args := ThreadArgs start arg (Some (S args))]>
    (<[S args := Chars (chars name ++ [NUL])]> (<[args := ThreadArgs start arg None]> (rt_heap s))) in
  createJavaThread (Some name) start arg s = Value id
    (set_rt_threads (rt_threads s ++ (if result =? 0 then [] else [args]))
      (with_log [RawThread name result] (set_rt_next (S (S args)) (set_rt_heap h s)))).
Proof.
  unfold createJavaThread, javaCreateThreadEtc.
  destruct (create_raw_thread name ANDROID_PRIORITY_DEFAULT 0) as [result tid] eqn:E.
  exists (if result =? 0 then 0 else tid). simpl. unfold bind at 1 2. rewrite malloc_run by apply room.
  unfold strdup, bind at 1. rewrite malloc_run by apply room. unfold bind, ret, modify, logged.
  unfold modify. destruct s, (result =? 0) eqn:R; simpl; rewrite ?R, ?app_nil_r; reflexivity.
Qed.

Lemma owned_create s pairs gone name start arg id s' : Owned s pairs gone ->
  createJavaThread (Some name) start arg s = Value id s' ->
  exists pairs' gone', Owned s' pairs' gone'.
Proof.
  intros [M T G Bl L] H. destruct (create_run s name start arg) as (id' & H').
  destruct (create_raw_thread _ _ _) as [result tid]. rewrite H in H'. injection H' as _ ->. clear H.
  set (n := rt_next s) in *. set (h := <[n := _]> _).
  assert (Blocks h (S (S n)) (S n :: n :: flat pairs ++ gone)) as Bl'.
  { apply blocks_write; [by apply blocks_alloc, blocks_alloc|by right; left]. }
  assert (given h (n, S n)) as Gn.
  { exists start, arg, (chars name ++ [NUL]). unfold h. simpl. rewrite lookup_insert_eq.
    rewrite lookup_insert_ne by lia. rewrite lookup_insert_eq. split; [done|]. split; [done|].
    apply strdup_has_string. }
  assert (Forall (given h) pairs) as G'.
  { eapply given_same; [exact G|]. intros p Hp. assert (p < n)%nat.
    { apply (b_next _ _ _ Bl), elem_of_app. by left. }
    unfold h. by rewrite !lookup_insert_ne by lia. }
  destruct (result =? 0) eqn:R.
  - exists pairs, (S n :: n :: gone). split; simpl; [done|by rewrite app_nil_r|done| |].
    + eapply blocks_perm; [|exact Bl']. by rewrite <- !Permutation_middle.
    + rewrite lost_app, <- L. simpl. rewrite R. lia.
  - exists (pairs ++ [(n, S n)]), gone. split; simpl; [done| | | |].
    + by rewrite fmap_app, T.
    + apply Forall_app. split; [done|]. by repeat constructor.
    + eapply blocks_perm; [|exact Bl']. rewrite flat_app. simpl. rewrite <- app_assoc. simpl.
      rewrite <- !Permutation_middle. apply Permutation_swap.
    + rewrite lost_app, <- L. simpl. rewrite R. lia.
Qed.

(** ** Running *)

Lemma thread_args_run s a start u q : rt_heap s !! a = Some (ThreadArgs start u q) ->
  thread_args a s = Value (start, u, q) s.
Proof. intros H. unfold thread_args, bind, gets. simpl. by rewrite H. Qed.

Lemma name_run s q l t : rt_heap s !! q = Some (Chars l) -> c_string l = Some t ->
  name_string (Some q) s = Value (Some t) s.
Proof.
  intros H Ht. unfold name_string, heap_string, bind. rewrite (heap_chars_run s q l H).
  by rewrite Ht.
Qed.

Lemma logged_run e s : logged e s = Value tt (with_log [e] s).
Proof. done. Qed.

Lemma attach_run s t : mJavaVM s = true -> javaAttachThread t s =
  Value (AttachCurrentThread t) (with_log [AttachedThread t (AttachCurrentThread t)] s).
Proof. intros H. unfold javaAttachThread, bind, gets. simpl. by rewrite H. Qed.

Lemma detach_run s : mJavaVM s = true -> javaDetachThread s =
  Value DetachCurrentThread (with_log [DetachedThread DetachCurrentThread] s).
Proof. intros H. unfold javaDetachThread, bind, gets. simpl. by rewrite H. Qed.

(** A thread frees what it was given, but not its name when it cannot be attached. *)
Lemma run_run s pairs gone k a q : Owned s pairs gone -> pairs !! k = Some (a, q) ->
  exists t start userData,
  let ok := AttachCurrentThread (Some t) =? JNI_OK in
  run_thread k s = Value (if ok then thread_result start userData else -1)
    (with_log (AttachedThread (Some t) (AttachCurrentThread (Some t)) ::
       if ok then [EntryRun start userData; DetachedThread DetachCurrentThread] else [])
      (set_rt_heap (let h := delete a (rt_heap s) in if ok then delete q h else h)
        (set_rt_threads (delete k (rt_threads s)) s))).
Proof.
  intros [M T G Bl L] Hk.
  destruct (proj1 (Forall_lookup _ _) G k _ Hk) as (start & u & l & Ha & Hq & [t Ht]). simpl in Ha, Hq.
  assert (a <> q) as Daq by (intros ->; congruence).
  exists t, start, u. unfold run_thread, bind at 1, gets. simpl.
  rewrite T, list_lookup_fmap, Hk. simpl. unfold bind at 1, modify. rewrite <- T.
  set (s1 := set_rt_threads _ s). unfold javaThreadShell, bind at 1.
  rewrite (thread_args_run s1 _ _ _ _ Ha). cbv beta iota. unfold bind at 1. rewrite (free_run s1 a _ Ha).
  set (s2 := set_rt_heap _ s1). unfold bind at 1.
  assert (rt_heap s2 !! q = Some (Chars l)) as Hq2 by (by apply lookup_delete_Some).
  rewrite (name_run s2 q l t Hq2 Ht). unfold bind at 1. rewrite (attach_run s2 _ M).
  destruct (AttachCurrentThread (Some t) =? JNI_OK); [|done]. cbn [negb]. cbv beta iota.
  unfold bind at 1. rewrite logged_run. unfold bind at 1. rewrite detach_run by exact M. unfold bind at 1.
  rewrite (free_run _ q (Chars l)) by exact Hq2. unfold ret. f_equal.
  unfold with_log, s2, s1, set_rt_log, set_rt_heap, set_rt_threads. simpl. by rewrite <- !app_assoc.
Qed.

Lemma owned_run s pairs gone k r s' : Owned s pairs gone -> run_thread k s = Value r s' ->
  exists pairs' gone', Owned s' pairs' gone'.
Proof.
  intros O H. destruct (pairs !! k) as [[a q]|] eqn:Hk.
  2: { unfold run_thread, bind, gets in H. simpl in H.
    by rewrite (o_threads _ _ _ O), list_lookup_fmap, Hk in H. }
  destruct (run_run s pairs gone k a q O Hk) as (t & start & u & H'). rewrite H in H'.
  injection H' as _ ->. clear H. destruct O as [M T G Bl L].
  assert (flat pairs ++ gone ≡ₚ a :: q :: flat (delete k pairs) ++ gone) as P.
  { rewrite (delete_Permutation pairs k (a, q) Hk) at 1. done. }
  pose proof (blocks_perm _ _ _ _ P Bl) as Bl'.
  assert (forall h', (forall p, p <> a -> p <> q -> h' !! p = rt_heap s !! p) ->
    Forall (given h') (delete k pairs)) as G'.
  { intros h' E. eapply given_same; [by apply Forall_delete, G|]. intros p Hp.
    pose proof (b_once _ _ _ Bl') as N. rewrite !NoDup_cons, elem_of_cons in N. destruct N as (N1 & N2 & _).
    apply E; intros ->; [apply N1; right|apply N2]; apply elem_of_app; by left. }
  assert (delete k pairs.*1 = (delete k pairs).*1) as Td by (by rewrite list_fmap_delete).
  destruct (AttachCurrentThread (Some t) =? JNI_OK) eqn:R.
  - exists (delete k pairs), gone. split; simpl; [done|by rewrite T| | |].
    + apply G'. intros p H1 H2. by rewrite !lookup_delete_ne by done.
    + by apply blocks_free, blocks_free.
    + rewrite lost_app, <- L. simpl. rewrite R. lia.
  - exists (delete k pairs), (q :: gone). split; simpl; [done|by rewrite T| | |].
    + apply G'. intros p H1 H2. by rewrite !lookup_delete_ne by done.
    + apply blocks_free. eapply blocks_perm; [|exact Bl']. by rewrite <- Permutation_middle.
    + rewrite lost_app, <- L. simpl. rewrite R. lia.
Qed.

(** ** Theorem *)

(** A process with a virtual machine, that has no block yet. *)
Definition threads_start s : Prop :=
  mJavaVM s = true /\ rt_heap s = ∅ /\ rt_threads s = [] /\ rt_log s = [].

(** C34: over every sequence of creations and runs of Java threads, no thread frees
    what it does not own or reads what was freed: each one that was created and has not
    run can run to its end; the blocks in use are two for each thread that has not run,
    one, its name, for each thread that could not be attached, and two for each thread
    that could not be created: those are lost. *)
Theorem threads_accounted s s' : threads_start s -> rtc thread_step s s' ->
  size (rt_heap s') = (2 * length (rt_threads s') + lost (rt_log s'))%nat /\
  forall k, (k < length (rt_threads s'))%nat -> exists r s2, run_thread k s' = Value r s2.
Proof.
  intros (M & H & T & L) R. assert (exists pairs gone, Owned s' pairs gone) as (ps & gone & O).
  { assert (exists pairs gone, Owned s pairs gone) as I.
    { exists [], []. split; rewrite ?H, ?T, ?L; try done. split; [constructor| |].
      - intros p. rewrite lookup_empty, elem_of_nil. by split; [intros [? ?]|].
      - by intros p Hp%elem_of_nil. }
    clear M H T L. induction R as [|s s1 s' St _ IH]; [done|]. apply IH.
    destruct I as (ps & gone & O). destruct St; [by eapply owned_create|by eapply owned_run]. }
  split; [by eapply owned_size|]. intros k Hk. rewrite (o_threads _ _ _ O), length_fmap in Hk.
  destruct (lookup_lt_is_Some_2 ps k Hk) as [[a q] Hp].
  destruct (run_run s' ps gone k a q O Hp) as (t & st & u & E). by do 2 eexists.
Qed.

End Threads.

(** ** A phone *)

Section Phone.

(** A machine that finds class 1 and its method 2, and cannot attach threads called bad
    nor create those called none. *)
#[local] Instance machine : Machine := {
  GetEnv := true;
  FindClass t := if String.eqb t "com/android/Main" then Some 1%nat else None;
  GetStaticMethodID c t _ := if String.eqb t "main" then Some 2%nat else None;
  NewStringUTF t := Some (10 + String.length t)%nat;
  NewObjectArray _ _ := true;
  NewString l := Some (length l);
  AttachCurrentThread t := match t with Some "bad"%string => -1 | _ => 0 end;
  DetachCurrentThread := 0;
  DestroyJavaVM := 0;
  jniRegisterNativeMethods _ _ := 0;
  mProc_of _ := 0;
  malloc_room _ := true;
  create_raw_thread t _ _ := if String.eqb t "none" then (0, 0) else (1, 77);
  thread_result _ d := d;
  getStrictModePolicy := None;
  char_signed := true
}.

#[local] Instance machine_laws : MachineLaws.
Proof. by split. Qed.

Definition vm_running : rt_state :=
  RtState (VmState ∅ [] None) true false [] ∅ ∅ 1 0 [] [].

Definition after {A} (m : RT A) (s : rt_state) : rt_state :=
  match m s with Value _ s' => s' | _ => s end.

(** Three threads are created and one cannot be; the one with a bad name runs. *)
Definition four_threads : rt_state :=
  after (run_thread 1) (after (createJavaThread (Some "none"%string) 5 6)
    (after (createJavaThread (Some "c"%string) 3 4)
      (after (createJavaThread (Some "bad"%string) 2 3)
        (after (createJavaThread (Some "a"%string) 1 2) vm_running)))).

Lemma threads_accounted_witness :
  length (rt_threads four_threads) = 2%nat /\ size (rt_heap four_threads) = 7%nat /\
  exists r s2, run_thread 1 four_threads = Value r s2.
Proof.
  assert (threads_start vm_running) as H by done.
  assert (rtc thread_step vm_running four_threads) as R.
  { eapply rtc_l; [eapply (step_create "a" 1 2); vm_compute; reflexivity|].
    eapply rtc_l; [eapply (step_create "bad" 2 3); vm_compute; reflexivity|].
    eapply rtc_l; [eapply (step_create "c" 3 4); vm_compute; reflexivity|].
    eapply rtc_l; [eapply (step_create "none" 5 6); vm_compute; reflexivity|].
    eapply rtc_l; [eapply (step_run 1); vm_compute; reflexivity|]. apply rtc_refl. }
  destruct (threads_accounted vm_running four_threads H R) as [E K].
  split; [vm_compute; reflexivity|]. split; [exact E|]. apply K. vm_compute. lia.
Defined.

(** The name of the thread that could not be attached is lost (jni/AndroidRuntime.cpp:1190). *)
Lemma failed_attach_leaks :
  let s := after (run_thread 0) (after (createJavaThread (Some "bad"%string) 1 2) vm_running) in
  rt_threads s = [] /\ size (rt_heap s) = 1%nat.
Proof. split; vm_compute; reflexivity. Qed.

(** The whole start, of a phone with a root directory. *)
Definition phone_off : rt_state :=
  RtState phone_start false false [] {["ANDROID_ROOT"%string := "/system"%string]} ∅ 1 0 [] [].

Lemma start_correct_witness :
  exists s', @start phone machine arm junk (Some "com.android.Main"%string) ["start-system-server"%string]
      true phone_off = Value tt s' /\
    drop 151 (rt_log s') = [MainCalled 1 2 (Some [Some 26%nat; Some 29%nat]);
                            DetachedThread 0; DestroyedVm 0].
Proof.
  destruct (@start_correct phone machine arm junk machine_laws phone_laws phone_off [plain "-Xfirst"]
    "com.android.Main" ["start-system-server"%string] true eq_refl eq_refl eq_refl eq_refl)
    as (s' & E & L & _).
  exists s'. split; [exact E|]. rewrite L. vm_compute. reflexivity.
Defined.

End Phone.
